(* ===== verification/_CoqProject ===== *)
-Q . S2P
Prelude.v
Decimal.v
StreamBuffer.v
Pr1Message.v
TioDataC.v
Network.v
EventQueue.v
Protocol.v
ClientState.v
ClientReceive.v
ClientNotify.v
ClientApi.v
ClientCluster.v
ClientCommands.v
ClientConnect.v
StdMap.v
TioDataS.v
Containers.v
ListStorage.v
MapStorage.v
VectorStorage.v
MemoryStorage.v
Auth.v
TextProtocol.v
ContainerManager.v
SessionMessages.v
Session.v
SessionOutput.v
Sound.v
Server.v
TextCommands.v
Http.v
TextSession.v
ServerSafety.v
TextSafety.v
ServerInvariant.v
ServerCommands.v
EndToEnd.v
TextOutput.v
TextReader.v
TextServing.v
HttpServing.v
History.v
Subscription.v
Publishing.v
LogFile.v
LogDb.v
LogLayout.v
LogWrites.v
LogLoad.v
LogTables.v
LogRefine.v
LogReads.v
LogReopen.v
LogDatabase.v
LogSpec.v
TransactionLog.v
ContainerApi.v
LocalManager.v
LogReplay.v
LogLines.v
SameValues.v
ContainerContract.v
LogRestore.v
TypedList.v
