(* ===== verification/Prelude.v ===== *)
(** * Tio: a verification of its client and of its server

    Tio is a data server: clients create named containers (lists, vectors and
    maps of values with metadata), change them with commands, and subscribe to
    them; every change is published as an event, so that a client can keep a
    copy.  The program has a client library in C, [client/c/tioclient.c], and a
    server in C++, [server/tio].  They speak a binary protocol of messages with
    tagged fields (PR1); older clients speak a text protocol on the same port,
    and browsers can ask for a container with HTTP.  Beside them there are a
    client in C++ over the one in C, an interface for plugins in the server, a log
    of all changes with a tool that replays it, and a log-structured data base.

    ** Files and what they model

    [Prelude.v]: bytes, little-endian integers, machine integers as [Z] with
    their wrap-around ([u16], [u32], [u64], [i32]), the results of calls ([res]:
    a value, a C++ exception or a fault such as an access out of bounds), the
    state monad [M], blocks of memory, and the tactics and hints all files use.
    [Decimal.v]: printing and reading of integers.

    The client, [client/c/tioclient.c] and its headers, bottom up:
    - [StreamBuffer.v]: [STREAM_BUFFER], the block a message is built in;
    - [Pr1Message.v]: building, completing and parsing PR1 messages;
    - [TioDataC.v]: [TIO_DATA] and its way into and out of messages;
    - [Network.v] (Module [Net]): sending and receiving over sockets;
    - [EventQueue.v]: the circular linked list of events not yet dispatched;
    - [Protocol.v]: the codes of commands, events and errors;
    - [ClientState.v]: connections and containers, as objects in a heap;
    - [ClientReceive.v]: receiving answers, queueing and dispatching events;
    - [ClientApi.v]: the commands of the API; [ClientCluster.v]: connecting,
      opening, clusters and groups;
    - [ClientNotify.v], [ClientCommands.v], [ClientConnect.v]: no code of their
      own, but what the parts do together.

    The server's containers, headers in [server/tio]:
    - [StdMap.v]: [std::map] with string keys as a sorted association list;
    - [TioDataS.v]: [class TioData] of [Container.h];
    - [Containers.v]: the rest of [Container.h]: indexes and query limits, result
      sets, records, events, and the interfaces [ITioStorage] and
      [ITioPropertyMap] as type classes; class [Replicates] states what a
      storage promises to its subscribers, and [replica_follows] is proved
      against that class alone;
    - [ListStorage.v], [MapStorage.v], [VectorStorage.v]: the three storages, each
      an instance of [ITioStorage] and of [Replicates];
    - [MemoryStorage.v]: [MemoryStorageManager] and [MemoryPropertyMap] of
      [MemoryStorage.h]; a storage behind its interface is [AnyStorage], a
      virtual call [dispatch], and shared pointers are locations of a heap;
    - [ContainerManager.v]: [ContainerManager.cpp], the catalogue of containers
      that are in use, with its two meta containers;
    - [Auth.v]: the access rules of [auth.h].

    The server's connections, [TioTcpSession.cpp] and [TioTcpServer.cpp]:
    - [SessionMessages.v]: the inline functions of [TioTcpSession.h] between
      values and messages; [Session.v]: a session, its handles and its output;
    - [Server.v]: the sessions, subscriptions, groups and the queue of events, the
      handler of binary commands ([OnBinaryCommand]), and the publisher thread;
    - [TextProtocol.v]: [TioTcpProtocol.h]; [TextCommands.v]: [Command.cpp] and
      the handlers of the text commands; [Http.v]: [HttpParser.h] and the
      answers to HTTP requests; [TextSession.v]: how a session reads lines, the
      data after them, the switch to binary and HTTP;
    - [SessionOutput.v], [TextOutput.v], [TextReader.v]: the output queues and
      the reader as such;
    - [Sound.v], [ServerSafety.v], [TextSafety.v], [ServerInvariant.v]: the
      invariant of the whole server, [wf], that every command, however it
      was received, and every step of the publisher keeps;
    - [ServerCommands.v], [TextServing.v], [HttpServing.v]: what single commands
      and requests do; [EndToEnd.v]: the client of [ClientCommands.v] against
      this server;
    - [History.v], [Subscription.v], [Publishing.v]: runs of the server: commands
      of many sessions and steps of the publisher in any order.

    The data base, [logdb.h]:
    - [LogFile.v]: [File] and [PagedFile], the cache of pages; [LogDb.v]: [Ldb], its
      headers, blocks and records byte by byte and all its operations;
    - [LogLayout.v], [LogWrites.v], [LogLoad.v], [LogTables.v], [LogRefine.v],
      [LogReads.v], [LogReopen.v], [LogDatabase.v]: where the pieces of a data base
      are in its file, that they do not overlap, what loading makes of them, and
      what each operation does; [LogSpec.v]: a data base against a map from names
      to rows.

    The C++ client, plugins and the transaction log:
    - [ContainerApi.v]: [tioclient.hpp]: the interface [IContainerManager] as a type
      class, [Connection], an instance over the model of the C client, and the
      typed containers; [LocalManager.v]: [LocalContainerManager] of [tio.cpp], the
      other instance, over the [ContainerManager];
    - [TransactionLog.v]: [BinaryProtocolLogger.h], lines and the ring of strings;
      [LogReplay.v]: [tiologreplay.cpp], which sends the lines to a server again;
      [LogLines.v]: the lines of the one as entries of the other;
    - [SameValues.v]: storages that differ in metadata only; [ContainerContract.v]:
      class [Stores], what a container manager promises, kept by [LocalManager.v];
      [LogRestore.v]: the replay, proved against that class; [TypedList.v]: a typed
      list over the plugins' manager.

    ** How code becomes definitions

    A C function is a function of the state it reads and writes, in the monad
    [M S]; [goto] to the clean-up code and early returns become branches.
    Pointers that are only moved inside of a block are offsets; pointers to
    objects that several places share (queue nodes, connections, containers,
    storages, subscriptions, sessions) are keys of a map that stands for the
    heap, and [free], or the last shared pointer that goes, deletes the
    key, so that a later use is a fault.  An assertion that fails, a signed
    overflow, a mutex locked twice by its owner and the use of a past-the-end
    iterator are faults as well: a theorem about a result [Ok] says that none
    of them happens.  The network is a script of what the system calls answer;
    the theorems hold for every script that delivers the bytes in question,
    however it cuts them.  Callbacks of the application are recorded, in order.
    Allocation succeeds.  Each storage is used by one thread at a time.

    The server is a transition system: [ServerInvariant.external] has a step for
    each thing that comes from outside (a connection, a binary command, text
    data, a completed write, an invalidated session) and one for the publisher,
    which sends one event to one subscriber, so commands come between any two
    of them; an invariant is proved by induction on the steps.

    What the sources only call is a parameter: the regular expressions of
    [boost] and how a [double] is printed and read (with their one hypothesis,
    that they return or throw, in the record [library]), the clock, and
    [http_parser], as a function from its state and some bytes to the callbacks
    it makes.
    Theorems that need more of the HTTP parser (that one chunk
    completes the request) say so, and their witnesses give a parser that
    does it.

    Loops that wait for messages take fuel from the number of messages that are
    still to come, loops over the event queue from the number of its nodes, the
    reader of text from the number of bytes in its buffer; running out of fuel
    is the fault [OutOfFuel], so the theorems that give a
    result show that the fuel is enough (for the reader, [text_reader_waits]).
    The nesting of cluster connections is bounded by an argument, and the
    theorems about opening hold for any value of it above zero.  Reading and
    writing a paged file has as many turns as there are pages in the request and
    two more, and loading the blocks of a data base as many as the file has
    bytes; the theorems show that both are enough.  For the files the disk has room
    and a read of an ordinary file is complete; blocks have 4096 bytes and the
    file grows by the default step.

    ** What is shown

    Client: a message that is sent is received and parsed as it was built,
    however the network cuts it ([pr1_message_roundtrip],
    [socket_receive_chunking]), and a stream that ends early is an error, not a
    message ([pr1_message_receive_truncated], [socket_receive_all_or_error]);
    the linked list is a queue ([event_queue_refines_fifo]); values survive the
    way through a message ([tio_generate_data_message_roundtrip]).  Waiting for
    an answer handles any sequence of notifications as a registry of containers
    says, calls the right callbacks in order, and returns the answer
    ([tio_receive_until_not_event_refines]); on top of that every command
    returns what the server answered ([tio_container_data_response],
    [tio_container_input_command_answer]), a batch reads one answer for each
    command ([network_batch]), opened containers receive events and closed ones
    do not ([tio_create_or_open_registers], [tio_close_forgets]).

    Containers: each storage refines an abstract container, a Python-like list or
    a finite map ([list_refines_spec], [map_refines_spec],
    [vector_refines_spec]), and its events let a replica follow it over any
    sequence of commands ([list_replica], [map_replica], [vector_replica]);
    queries return the slice they ask for ([list_query], [map_query]).  In every
    reachable manager each entry is complete and no two share a storage
    ([manager_invariant]), type and name identify a container
    ([container_identity]), deleting forgets it ([delete_forgets]), subscribing
    reaches all ([manager_subscribes_all]), properties are read back
    ([property_set_get]); the container manager refines a catalogue from
    names to types, which its meta container shows
    ([manager_refines_catalogue]).  The decision of the access rules is given
    as a function of the calls that set them ([auth_decision]).

    Server: whatever bytes clients send, no command, no text and no step of the
    publisher follows a freed or null pointer of the server's own
    ([server_memory_safe]), and the tables of sessions, handles and
    subscriptions only point to what exists ([server_pointers_valid]).  A
    command is answered with what the storage behind its handle says
    ([server_open_container], [server_data_command], [server_unknown_handle]),
    so that a client calling the API gets, over both codecs and both queues,
    what the storage says ([remote_data_command], [remote_change]).
    The output of a session is in order and complete and drains
    ([session_output_fifo], [session_output_drains]).  A subscriber is sent a
    snapshot and every later change, once and in order, while other clients
    change the container ([publisher_sends], [subscription_converges]), and the
    publisher comes to rest ([publisher_quiesces]).

    Text and HTTP: answers and events are read back ([data_answer_roundtrip],
    [event_answer_roundtrip]), and stored values ([serialize_roundtrip]); how
    the network cuts a stream of commands does not matter
    ([text_stream_pieces], [text_stream_steps]), and the reader always ends up
    waiting for a line, for data or for nothing ([text_reader_waits]); a text
    command does to the storage what the binary one does ([text_binary_agree],
    [text_data_command]); text answers leave in order ([text_output_fifo]); a GET
    answers with the elements of the container ([http_get_container]).

    Data base: a paged file is an array of bytes, whatever pages are cached
    ([paged_file_refines_array]); a data base is a map from names to rows, through
    any requests and also when it is closed and loaded again from its file, or
    the process starts again with nothing else ([logdb_refines]), and its rows are read back ([logdb_reads]).

    Log, plugins and C++ client: whatever the interleaving of the callers and the
    writing thread, the lines of the log are in the file whole and in order, and
    all of them in the end ([transaction_log_fifo]); the lines are read back as
    the commands they were written for ([log_file_roundtrip]), and replaying
    them on a server that was just started gives containers with the same names,
    keys and values ([log_replay_restores]).  A typed list is a list of its type
    ([typed_list_refines]).

    Some theorems state where the code does not do what it means to: a size from
    the network that overflows a buffer ([pr1_message_receive_size_overflow]), an
    answer lost to a cluster connection ([until_not_event_follows_cluster]), a
    freed container left in the table ([tio_close_failed_dangles]), an error
    text without its end ([error_description_unterminated]), index 0 of an empty
    list ([empty_list_index_zero]), vectors that lock their mutex twice
    ([vector_insert_delete_query_deadlock]), nameless containers that are one
    ([nameless_containers_shared]), a users' container open to all
    ([users_container_open]), field sizes that wrap ([field_size_wraps]), a
    deleted container that an open handle brings back
    ([deleted_container_comes_back]), a message larger than the send buffer that
    blocks its session ([oversized_message_blocks]), data of a rejected command
    that is executed as commands ([rejected_data_executed]), lines whose
    exception nobody catches ([uncaught_commands]), text output without a bound
    ([text_backlog_unbounded]), and in HTTP a null container that is used
    ([http_null_container]), a request that is never read to its end
    ([http_request_cut]) and one that gets no answer
    ([http_missing_container]); in the data base a first insert that is
    loaded twice ([first_insert_loaded_twice]).

    ** What is not modelled

    Name resolution and the creation of sockets; debugging output and the X1
    format of the client; the bodies of callbacks; several threads in one
    storage.  Of the server: the options and the start of the program, messages
    to the console, Python, [FileSystemStorage.h] (every operation throws that it
    is not supported) and [LogDbStorage.h] (compiled out, so the data base has no
    user in the server); [Server.v] does not call the transaction log, which is
    modelled by itself.  Of the replay: statistics, delays, following a file
    that grows, the options.  [TioTcpClient.h] and [tioclient_async.hpp], clients
    over asio that no part of the server uses, and the clients in other languages,
    which speak the same protocols.  What would come next is a server model that
    calls the logger, and a [Connection] that keeps the contract of
    [ContainerContract.v] over [EndToEnd.v]. *)
From Stdlib Require Export ZArith Lia Strings.Byte String.
From stdpp Require Export base list gmap countable list_numbers.

#[global] Open Scope Z_scope.

(** ** Bytes *)

Abbreviation bytes := (list Byte.byte).

#[export] Instance byte_eq_dec : EqDecision Byte.byte.
Proof. intros x y. destruct (Byte.byte_eq_dec x y); [by left | by right]. Defined.

#[export] Program Instance byte_countable : Countable Byte.byte :=
  inj_countable Byte.to_N Byte.of_N Byte.of_to_N.

(** Value of a byte read as [unsigned char]. *)
Definition byte_Z (b : Byte.byte) : Z := Z.of_N (Byte.to_N b).

(** The byte a value is truncated to when stored in an [unsigned char]. *)
Definition Z_byte (z : Z) : Byte.byte :=
  default x00 (Byte.of_N (Z.to_N (z mod 256))).

Lemma byte_Z_range b : 0 <= byte_Z b < 256.
Proof. unfold byte_Z. pose proof (Byte.to_N_bounded b). lia. Qed.

Lemma Z_byte_Z b : Z_byte (byte_Z b) = b.
Proof.
  unfold Z_byte. pose proof (byte_Z_range b).
  rewrite Z.mod_small by lia. unfold byte_Z. by rewrite N2Z.id, Byte.of_to_N.
Qed.

Lemma byte_Z_byte z : byte_Z (Z_byte z) = z mod 256.
Proof.
  unfold Z_byte, byte_Z. pose proof (Z.mod_pos_bound z 256 ltac:(lia)).
  destruct (Byte.of_N (Z.to_N (z mod 256))) as [b|] eqn:E; simpl.
  - apply Byte.to_of_N in E. rewrite E. lia.
  - apply Byte.of_N_None_iff in E. lia.
Qed.

Lemma byte_Z_inj b c : byte_Z b = byte_Z c -> b = c.
Proof. intros H. by rewrite <- (Z_byte_Z b), H, Z_byte_Z. Qed.

(** A string literal as the bytes of a [std::string] or [char] array. *)
Definition lit (s : string) : bytes := list_byte_of_string s.

(** The [const char*] view of a buffer: the bytes before the first NUL. *)
Fixpoint c_str (bs : bytes) : bytes :=
  match bs with
  | [] => []
  | b :: t => if decide (b = x00) then [] else b :: c_str t
  end.

(** ** Little-endian integers *)

Fixpoint le_encode (n : nat) (z : Z) : bytes :=
  match n with
  | O => []
  | S n => Z_byte z :: le_encode n (z / 256)
  end.

Fixpoint le_decode (bs : bytes) : Z :=
  match bs with
  | [] => 0
  | b :: t => byte_Z b + 256 * le_decode t
  end.

Lemma length_le_encode n z : length (le_encode n z) = n.
Proof. revert z; induction n as [|n IH]; intros z; simpl; [done | by rewrite IH]. Qed.

Lemma le_decode_encode n z : le_decode (le_encode n z) = z mod 256 ^ Z.of_nat n.
Proof.
  revert z; induction n as [|n IH]; intros z; [by rewrite Z.mod_1_r|].
  cbn [le_encode le_decode].
  rewrite IH, byte_Z_byte, Nat2Z.inj_succ, Z.pow_succ_r by lia.
  rewrite Z.rem_mul_r by lia. lia.
Qed.

Lemma le_encode_decode bs : le_encode (length bs) (le_decode bs) = bs.
Proof.
  induction bs as [|b t IH]; simpl; [done|]. pose proof (byte_Z_range b). f_equal.
  - unfold Z_byte.
    replace ((byte_Z b + 256 * le_decode t) mod 256) with (byte_Z b mod 256).
    + apply Z_byte_Z.
    + rewrite (Z.mul_comm 256), Z.mod_add by lia. done.
  - replace ((byte_Z b + 256 * le_decode t) / 256) with (le_decode t); [done|].
    rewrite (Z.mul_comm 256), Z.div_add, Z.div_small by lia. lia.
Qed.

Lemma le_decode_bound bs : 0 <= le_decode bs < 256 ^ Z.of_nat (length bs).
Proof.
  induction bs as [|b t IH]; simpl; [lia|].
  pose proof (byte_Z_range b). rewrite Nat2Z.inj_succ, Z.pow_succ_r by lia. lia.
Qed.

#[global] Arguments le_encode : simpl never.
#[global] Arguments le_decode : simpl never.

(** ** Machine integers *)

Definition u16 (z : Z) : Z := z mod 2 ^ 16.
Definition u32 (z : Z) : Z := z mod 2 ^ 32.
Definition u64 (z : Z) : Z := z mod 2 ^ 64.
Definition i32 (z : Z) : Z := (z + 2 ^ 31) mod 2 ^ 32 - 2 ^ 31.

Definition INT_MIN : Z := - 2 ^ 31.
Definition INT_MAX : Z := 2 ^ 31 - 1.
Definition is_int (z : Z) : Prop := INT_MIN <= z <= INT_MAX.

Lemma u16_small z : 0 <= z < 2 ^ 16 -> u16 z = z.
Proof. apply Z.mod_small. Qed.
Lemma u32_small z : 0 <= z < 2 ^ 32 -> u32 z = z.
Proof. apply Z.mod_small. Qed.
Lemma u64_small z : 0 <= z < 2 ^ 64 -> u64 z = z.
Proof. apply Z.mod_small. Qed.
Lemma u32_range z : 0 <= u32 z < 2 ^ 32.
Proof. apply Z.mod_pos_bound. lia. Qed.
Lemma u16_range z : 0 <= u16 z < 2 ^ 16.
Proof. apply Z.mod_pos_bound. lia. Qed.

Lemma i32_small z : is_int z -> i32 z = z.
Proof. unfold is_int, INT_MIN, INT_MAX, i32. intros. rewrite Z.mod_small; lia. Qed.

Lemma i32_u32 z : is_int z -> i32 (u32 z) = z.
Proof.
  unfold is_int, INT_MIN, INT_MAX, i32, u32. intros H.
  rewrite Zplus_mod_idemp_l, Z.mod_small; lia.
Qed.

(** ** Results, faults and exceptions *)

(** Behaviours the C and C++ standards leave undefined, or that stop the
    program, which the model makes observable. *)
Inductive fault : Type :=
| AssertFail        (* assert / BOOST_ASSERT *)
| OutOfBounds       (* access outside an allocated object *)
| NullDeref
| UseAfterFree
| Uninitialised     (* read of an indeterminate value *)
| SignedOverflow
| DivisionByZero
| Deadlock          (* locking a non-recursive mutex twice *)
| EndDeref          (* dereference of a past-the-end iterator *)
| OutOfFuel.        (* the model's own bound was too small *)

(** What a call can end with besides a value: a C++ exception or a fault. *)
Inductive exn : Type :=
| invalid_argument (what : string)
| runtime_error (what : string)
| out_of_range (what : string)
| length_error (what : string)
| bad_lexical_cast
| Fault (f : fault).

Inductive res (A : Type) : Type :=
| Ok (a : A)
| Throw (e : exn).
Arguments Ok {A} a.
Arguments Throw {A} e.

#[export] Instance res_ret : MRet res := fun A a => Ok a.
#[export] Instance res_bind : MBind res := fun A B f m =>
  match m with Ok a => f a | Throw e => Throw e end.

(** Stateful code: a call ends with a result and the state it leaves, also
    when it throws. *)
Definition M (S A : Type) : Type := S -> res A * S.

#[export] Instance M_ret {S} : MRet (M S) := fun A a s => (Ok a, s).
#[export] Instance M_bind {S} : MBind (M S) := fun A B f m s =>
  match m s with (Ok a, s') => f a s' | (Throw e, s') => (Throw e, s') end.

Definition get {S} : M S S := fun s => (Ok s, s).
Definition put {S} (s : S) : M S unit := fun _ => (Ok tt, s).
Definition modify {S} (f : S -> S) : M S unit := fun s => (Ok tt, f s).
Definition throw {S A} (e : exn) : M S A := fun s => (Throw e, s).
Definition lift {S A} (r : res A) : M S A := fun s => (r, s).

(** [assert(b)] *)
Definition assert_ (b : bool) : res unit := if b then Ok tt else Throw (Fault AssertFail).

(** [if(!p) throw e] *)
Definition require (b : bool) (e : exn) : res unit := if b then Ok tt else Throw e.

(** ** Memory blocks *)

(** [n] bytes at offset [off] of an allocated block. *)
Definition mem_read (blk : bytes) (off n : Z) : res bytes :=
  if (0 <=? off) && (0 <=? n) && (off + n <=? Z.of_nat (length blk))
  then Ok (take (Z.to_nat n) (drop (Z.to_nat off) blk))
  else Throw (Fault OutOfBounds).

(** [memcpy] of [src] into an allocated block at offset [off]. *)
Definition mem_write (blk : bytes) (off : Z) (src : bytes) : res bytes :=
  if (0 <=? off) && (off + Z.of_nat (length src) <=? Z.of_nat (length blk))
  then Ok (take (Z.to_nat off) blk ++ src ++ drop (Z.to_nat off + length src) blk)
  else Throw (Fault OutOfBounds).

Definition read_le (blk : bytes) (off : Z) (n : nat) : res Z :=
  bs ← mem_read blk off (Z.of_nat n); Ok (le_decode bs).

Definition write_le (blk : bytes) (off : Z) (n : nat) (z : Z) : res bytes :=
  mem_write blk off (le_encode n z).

(** ** Automation *)

(** [tio]: facts about blocks, queues and containers that close side
    conditions; [len]: lengths of the shapes blocks are built from. *)
Create HintDb tio discriminated.
Create Rewrite HintDb len.
#[export] Hint Rewrite @length_app @length_take @length_drop @length_replicate
  @length_insert @length_fmap length_le_encode : len.

(** Arithmetic on lengths. *)
Ltac len := autorewrite with len in *; simpl length in *; lia.

(** Case analysis on the boolean tests and matches of a model definition. *)
Ltac bool_to_prop :=
  repeat match goal with
  | H : (_ && _)%bool = true |- _ => apply andb_prop in H as [? ?]
  | H : (_ <=? _) = true |- _ => apply Z.leb_le in H
  | H : (_ <=? _) = false |- _ => apply Z.leb_gt in H
  | H : (_ <? _) = true |- _ => apply Z.ltb_lt in H
  | H : (_ <? _) = false |- _ => apply Z.ltb_ge in H
  | H : (_ =? _) = true |- _ => apply Z.eqb_eq in H
  | H : (_ =? _) = false |- _ => apply Z.eqb_neq in H
  end.

(** Runs one bind of the monads once its first call is known. *)
Ltac mrun := cbn [mbind mret res_bind res_ret M_bind M_ret get put modify throw lift].

(** The two ways a bind goes on. *)
Lemma bind_ok {S A B} (m : M S A) (f : A -> M S B) s a s' :
  m s = (Ok a, s') -> (m ≫= f) s = f a s'.
Proof. intros H. unfold mbind, M_bind. by rewrite H. Qed.

Lemma bind_throw {S A B} (m : M S A) (f : A -> M S B) s e s' :
  m s = (Throw e, s') -> (m ≫= f) s = (Throw e, s').
Proof. intros H. unfold mbind, M_bind. by rewrite H. Qed.

Lemma bind_lift_ok {S A B} (r : res A) (f : A -> M S B) s a :
  r = Ok a -> (lift r ≫= f) s = f a s.
Proof. intros ->. done. Qed.

Lemma bind_lift_throw {S A B} (r : res A) (f : A -> M S B) s e :
  r = Throw e -> (lift r ≫= f) s = (Throw e, s).
Proof. intros ->. done. Qed.

Lemma bind_modify {S B} (g : S -> S) (f : unit -> M S B) s :
  (modify g ≫= f) s = f tt (g s).
Proof. done. Qed.

Lemma bind_get {S B} (f : S -> M S B) s : (get ≫= f) s = f s s.
Proof. done. Qed.

(** Steps over a stateful call whose outcome is [H]. *)
Ltac mstep H :=
  first [ rewrite (bind_ok _ _ _ _ _ H) | rewrite (bind_lift_ok _ _ _ _ H)
        | rewrite (bind_throw _ _ _ _ _ H) | rewrite (bind_lift_throw _ _ _ _ H) ].

(** Decides a closed integer test from the linear arithmetic context. *)
Ltac ztest :=
  repeat match goal with
  | |- context [?x <=? ?y] =>
      first [ replace (x <=? y) with true by (symmetry; apply Z.leb_le; len)
            | replace (x <=? y) with false by (symmetry; apply Z.leb_gt; len) ]
  | |- context [?x <? ?y] =>
      first [ replace (x <? y) with true by (symmetry; apply Z.ltb_lt; len)
            | replace (x <? y) with false by (symmetry; apply Z.ltb_ge; len) ]
  | |- context [?x =? ?y] =>
      first [ replace (x =? y) with true by (symmetry; apply Z.eqb_eq; len)
            | replace (x =? y) with false by (symmetry; apply Z.eqb_neq; len) ]
  end; cbn [andb orb negb].

(** ** Blocks as concatenations *)

Lemma mem_read_seg (a b c : bytes) off n :
  off = Z.of_nat (length a) -> n = Z.of_nat (length b) ->
  mem_read (a ++ b ++ c) off n = Ok b.
Proof.
  intros -> ->. unfold mem_read. ztest.
  rewrite !Nat2Z.id, drop_app_length, take_app_length. done.
Qed.

Lemma mem_write_seg (a b b' c : bytes) off :
  off = Z.of_nat (length a) -> length b = length b' ->
  mem_write (a ++ b ++ c) off b' = Ok (a ++ b' ++ c).
Proof.
  intros -> Hb. unfold mem_write. ztest.
  rewrite Nat2Z.id, take_app_length, <- Hb.
  rewrite (app_assoc a b c), drop_app_length'; [done | len].
Qed.

Lemma mem_read_ok blk off n :
  0 <= off -> 0 <= n -> off + n <= Z.of_nat (length blk) ->
  mem_read blk off n = Ok (take (Z.to_nat n) (drop (Z.to_nat off) blk)).
Proof. intros. unfold mem_read. by ztest. Qed.

Lemma mem_read_inv blk off n bs :
  mem_read blk off n = Ok bs ->
  0 <= off /\ 0 <= n /\ off + n <= Z.of_nat (length blk) /\
  bs = take (Z.to_nat n) (drop (Z.to_nat off) blk) /\ Z.of_nat (length bs) = n.
Proof.
  unfold mem_read. destruct (_ && _) eqn:E; [|done]. intros [= <-].
  bool_to_prop. repeat split; try len.
Qed.

Lemma mem_write_inv blk off src blk' :
  mem_write blk off src = Ok blk' ->
  0 <= off /\ off + Z.of_nat (length src) <= Z.of_nat (length blk) /\
  blk' = take (Z.to_nat off) blk ++ src ++ drop (Z.to_nat off + length src) blk.
Proof. unfold mem_write. destruct (_ && _) eqn:E; [|done]. intros [= <-]. bool_to_prop. auto. Qed.

Lemma mem_write_length blk off src blk' :
  mem_write blk off src = Ok blk' -> length blk' = length blk.
Proof. intros (?&?&->)%mem_write_inv. len. Qed.

Lemma read_le_seg (a c : bytes) (n : nat) z off :
  off = Z.of_nat (length a) ->
  read_le (a ++ le_encode n z ++ c) off n = Ok (z mod 256 ^ Z.of_nat n).
Proof.
  intros ->. unfold read_le. rewrite mem_read_seg by (rewrite ?length_le_encode; done).
  mrun. by rewrite le_decode_encode.
Qed.

Lemma write_le_seg (a b c : bytes) (n : nat) z off :
  off = Z.of_nat (length a) -> length b = n ->
  write_le (a ++ b ++ c) off n z = Ok (a ++ le_encode n z ++ c).
Proof. intros -> <-. apply mem_write_seg; [done | by rewrite length_le_encode]. Qed.

(** A block cut at a position. *)
Lemma block_split (blk : bytes) n :
  0 <= n <= Z.of_nat (length blk) ->
  exists a c, blk = a ++ c /\ Z.of_nat (length a) = n /\ take (Z.to_nat n) blk = a.
Proof.
  intros H. exists (take (Z.to_nat n) blk), (drop (Z.to_nat n) blk).
  rewrite take_drop. repeat split; len.
Qed.
