(* ===== verification/Decimal.v ===== *)
(** * Decimal integers

    Printing ([sprintf("%d")], [lexical_cast<string>], [operator<<]) and reading
    ([atoi], [lexical_cast<int>], [lexical_cast<size_t>]) of integers, which
    both sides of the program use.  The number of digits is bounded by the
    number of bits, so [S (Z.to_nat (Z.log2 n))] is enough fuel. *)
From S2P Require Import Prelude.

Module Decimal.

Definition digit (d : Z) : Byte.byte := Z_byte (48 + d).

Definition is_digit (b : Byte.byte) : bool := (48 <=? byte_Z b) && (byte_Z b <=? 57).

(** Digits of [n >= 0], most significant first, in front of [acc]. *)
Fixpoint digits_acc (fuel : nat) (n : Z) (acc : bytes) : bytes :=
  match fuel with
  | O => acc
  | S fuel =>
      let acc := digit (n mod 10) :: acc in
      if n <? 10 then acc else digits_acc fuel (n / 10) acc
  end.

Definition print_nat (n : Z) : bytes := digits_acc (S (Z.to_nat (Z.log2 n))) n [].

Definition print_int (z : Z) : bytes :=
  if z <? 0 then x2d :: print_nat (- z) else print_nat z.

(** Value of a run of digits. *)
Fixpoint digits_value (acc : Z) (bs : bytes) : Z :=
  match bs with
  | [] => acc
  | b :: t => digits_value (10 * acc + (byte_Z b - 48)) t
  end.

(** A non-empty run of digits and nothing else, of value at most [max]. *)
Definition parse_unsigned (max : Z) (bs : bytes) : option Z :=
  if forallb is_digit bs && negb (Nat.eqb (length bs) 0) then
    let v := digits_value 0 bs in if v <=? max then Some v else None
  else None.

(** [lexical_cast<int>]: an optional sign, then digits, in the range of [int]. *)
Definition lexical_cast_int (bs : bytes) : res Z :=
  match bs with
  | x2d :: t =>
      match parse_unsigned (2 ^ 31) t with Some v => Ok (- v) | None => Throw bad_lexical_cast end
  | x2b :: t =>
      match parse_unsigned INT_MAX t with Some v => Ok v | None => Throw bad_lexical_cast end
  | _ =>
      match parse_unsigned INT_MAX bs with Some v => Ok v | None => Throw bad_lexical_cast end
  end.

(** [lexical_cast<size_t>]: as boost documents, a leading minus negates modulo
    2^64. *)
Definition lexical_cast_size_t (bs : bytes) : res Z :=
  match bs with
  | x2d :: t =>
      match parse_unsigned (2 ^ 64 - 1) t with Some v => Ok (u64 (- v)) | None => Throw bad_lexical_cast end
  | x2b :: t =>
      match parse_unsigned (2 ^ 64 - 1) t with Some v => Ok v | None => Throw bad_lexical_cast end
  | _ =>
      match parse_unsigned (2 ^ 64 - 1) bs with Some v => Ok v | None => Throw bad_lexical_cast end
  end.

(** [lexical_cast<unsigned int>], the same modulo 2^32. *)
Definition lexical_cast_unsigned (bs : bytes) : res Z :=
  match bs with
  | x2d :: t =>
      match parse_unsigned (2 ^ 32 - 1) t with Some v => Ok (u32 (- v)) | None => Throw bad_lexical_cast end
  | x2b :: t =>
      match parse_unsigned (2 ^ 32 - 1) t with Some v => Ok v | None => Throw bad_lexical_cast end
  | _ =>
      match parse_unsigned (2 ^ 32 - 1) bs with Some v => Ok v | None => Throw bad_lexical_cast end
  end.

(** ** Reading back what was printed *)

Lemma byte_Z_digit d : 0 <= d < 10 -> byte_Z (digit d) = 48 + d.
Proof. intros H. unfold digit. rewrite byte_Z_byte. apply Z.mod_small. lia. Qed.

Lemma is_digit_digit d : 0 <= d < 10 -> is_digit (digit d) = true.
Proof. intros H. unfold is_digit. rewrite byte_Z_digit by done. by ztest. Qed.

Lemma digits_value_app acc bs cs :
  digits_value acc (bs ++ cs) = digits_value (digits_value acc bs) cs.
Proof. revert acc; induction bs as [|b bs IH]; intros acc; simpl; [done | apply IH]. Qed.

(** What one run of [digits_acc] puts in front of the accumulator. *)
Lemma digits_acc_spec fuel : forall n acc,
  0 <= n < 2 ^ Z.of_nat fuel -> (0 < fuel)%nat ->
  exists ds, digits_acc fuel n acc = ds ++ acc /\ ds <> [] /\ forallb is_digit ds = true /\
    digits_value 0 ds = n.
Proof.
  induction fuel as [|fuel IH]; intros n acc Hn Hf; [lia|]. cbn [digits_acc].
  pose proof (Z.mod_pos_bound n 10 ltac:(lia)) as Hm.
  destruct (n <? 10) eqn:E; bool_to_prop.
  - exists [digit (n mod 10)]. split; [done|]. split; [done|]. simpl.
    rewrite is_digit_digit, byte_Z_digit by lia. rewrite Z.mod_small by lia. split; [done|lia].
  - rewrite Nat2Z.inj_succ, Z.pow_succ_r in Hn by lia.
    assert (0 <= n / 10 < 2 ^ Z.of_nat fuel).
    { split; [apply Z.div_pos; lia|]. apply Z.div_lt_upper_bound; lia. }
    destruct fuel as [|fuel]; [simpl in *; lia|].
    destruct (IH (n / 10) (digit (n mod 10) :: acc)) as (ds & -> & Hne & Hd & Hv); [done|lia|].
    exists (ds ++ [digit (n mod 10)]). rewrite <- app_assoc. split; [done|].
    split; [by destruct ds|]. rewrite forallb_app, Hd. simpl. rewrite is_digit_digit by lia.
    split; [done|]. rewrite digits_value_app, Hv. simpl. rewrite byte_Z_digit by lia.
    pose proof (Z.div_mod n 10 ltac:(lia)). lia.
Qed.

Lemma print_nat_spec n : 0 <= n ->
  print_nat n <> [] /\ forallb is_digit (print_nat n) = true /\ digits_value 0 (print_nat n) = n.
Proof.
  intros Hn. unfold print_nat.
  destruct (digits_acc_spec (S (Z.to_nat (Z.log2 n))) n []) as (ds & -> & ?); [|lia|by rewrite app_nil_r].
  pose proof (Z.log2_nonneg n). rewrite Nat2Z.inj_succ, Z2Nat.id by done.
  destruct (decide (n = 0)) as [->|]; [simpl; lia|].
  pose proof (Z.log2_spec n ltac:(lia)). lia.
Qed.

Lemma parse_print_nat max n : 0 <= n <= max -> parse_unsigned max (print_nat n) = Some n.
Proof.
  intros H. destruct (print_nat_spec n) as (Hne & Hd & Hv); [lia|].
  unfold parse_unsigned. rewrite Hd, Hv. destruct (print_nat n); [done|]. simpl. by ztest.
Qed.

(** Text that starts with a digit has no sign. *)
Lemma print_nat_head n : 0 <= n -> exists b t, print_nat n = b :: t /\ is_digit b = true.
Proof.
  intros H. destruct (print_nat_spec n H) as (Hne & Hd & _).
  destruct (print_nat n) as [|b t]; [done|]. exists b, t. split; [done|].
  simpl in Hd. by apply andb_prop in Hd as [? _].
Qed.

Lemma lexical_cast_int_print z : is_int z -> lexical_cast_int (print_int z) = Ok z.
Proof.
  unfold is_int, INT_MIN, INT_MAX. intros H. unfold print_int.
  destruct (z <? 0) eqn:E; bool_to_prop.
  - cbn [lexical_cast_int]. rewrite parse_print_nat by lia. f_equal. lia.
  - destruct (print_nat_head z E) as (b & t & Ep & Hb).
    pose proof (parse_print_nat INT_MAX z ltac:(unfold INT_MAX; lia)) as Hp.
    rewrite Ep in *. destruct b; try (vm_compute in Hb; discriminate);
      cbn [lexical_cast_int]; by rewrite Hp.
Qed.

Lemma lexical_cast_size_t_print z :
  0 <= z < 2 ^ 64 -> lexical_cast_size_t (print_nat z) = Ok z.
Proof.
  intros H. destruct (print_nat_head z ltac:(lia)) as (b & t & Ep & Hb).
  pose proof (parse_print_nat (2 ^ 64 - 1) z ltac:(lia)) as Hp.
  rewrite Ep in *. destruct b; try (vm_compute in Hb; discriminate);
    cbn [lexical_cast_size_t]; by rewrite Hp.
Qed.

Lemma lexical_cast_unsigned_print z :
  0 <= z < 2 ^ 32 -> lexical_cast_unsigned (print_nat z) = Ok z.
Proof.
  intros H. destruct (print_nat_head z ltac:(lia)) as (b & t & Ep & Hb).
  pose proof (parse_print_nat (2 ^ 32 - 1) z ltac:(lia)) as Hp.
  rewrite Ep in *. destruct b; try (vm_compute in Hb; discriminate);
    cbn [lexical_cast_unsigned]; by rewrite Hp.
Qed.

End Decimal.
