(* ===== verification/StreamBuffer.v ===== *)
(** * The growable stream buffer of the C client

    [client/c/tioclient.c], [stream_buffer_*].  A [STREAM_BUFFER] owns one
    allocated block; [buffer] is that block, [current] the offset of the
    [current] pointer in it and [buffer_size] the 32-bit field the code keeps
    beside the block.  The length of the block and [buffer_size] are separate
    here, so that a size computation that wraps around is visible as a copy
    outside the block.  [malloc] is taken to succeed. *)
From S2P Require Import Prelude.

Module StreamBuffer.

Record STREAM_BUFFER := {
  buffer : bytes;
  current : Z;
  buffer_size : Z
}.

Definition stream_buffer_new : STREAM_BUFFER :=
  {| buffer := replicate (Z.to_nat (1024 * 4)) xff;
     current := 0;
     buffer_size := 1024 * 4 |}.

Definition stream_buffer_space_used (sb : STREAM_BUFFER) : Z := u32 (current sb).

Definition stream_buffer_space_left (sb : STREAM_BUFFER) : Z :=
  u32 (buffer_size sb - stream_buffer_space_used sb).

Definition stream_buffer_ensure_space_left (sb : STREAM_BUFFER) (size : Z) : res STREAM_BUFFER :=
  let used := stream_buffer_space_used sb in
  if size <=? u32 (buffer_size sb - used) then Ok sb
  else
    let new_size := u32 (buffer_size sb + u32 (size * 2)) in
    let new_buffer := replicate (Z.to_nat new_size) xff in
    old ← mem_read (buffer sb) 0 (buffer_size sb);
    new_buffer' ← mem_write new_buffer 0 old;
    Ok {| buffer := new_buffer'; current := used; buffer_size := new_size |}.

Definition stream_buffer_seek (sb : STREAM_BUFFER) (position : Z) : Z * STREAM_BUFFER :=
  let position := if buffer_size sb <=? position then u32 (buffer_size sb - 1) else position in
  (position, {| buffer := buffer sb; current := position; buffer_size := buffer_size sb |}).

(** Returns the reserved pointer, an offset of the (possibly new) block. *)
Definition stream_buffer_get_write_pointer (sb : STREAM_BUFFER) (size : Z) : res (Z * STREAM_BUFFER) :=
  sb ← stream_buffer_ensure_space_left sb size;
  let write_pointer := current sb in
  Ok (write_pointer,
      {| buffer := buffer sb; current := current sb + size; buffer_size := buffer_size sb |}).

Definition stream_buffer_write (sb : STREAM_BUFFER) (src : bytes) (size : Z) : res STREAM_BUFFER :=
  sb ← stream_buffer_ensure_space_left sb size;
  data ← mem_read src 0 size;
  blk ← mem_write (buffer sb) (current sb) data;
  Ok {| buffer := blk; current := current sb + size; buffer_size := buffer_size sb |}.

(** Returns the bytes copied out; the count returned by the code is their
    number. *)
Definition stream_buffer_read (sb : STREAM_BUFFER) (size : Z) : res bytes :=
  let left := stream_buffer_space_left sb in
  let size := if left <? size then left else size in
  mem_read (buffer sb) 0 size.

(** ** Invariant and abstraction *)

(** The block has the recorded size and [current] points into it. *)
Definition sb_wf (sb : STREAM_BUFFER) : Prop :=
  Z.of_nat (length (buffer sb)) = buffer_size sb /\
  0 <= current sb <= buffer_size sb /\ buffer_size sb < 2 ^ 32.

(** What has been written so far. *)
Definition sb_data (sb : STREAM_BUFFER) : bytes := take (Z.to_nat (current sb)) (buffer sb).

Lemma stream_buffer_new_wf : sb_wf stream_buffer_new.
Proof.
  unfold sb_wf, stream_buffer_new; cbn [buffer current buffer_size].
  rewrite length_replicate. lia.
Qed.

Lemma space_used_wf sb : sb_wf sb -> stream_buffer_space_used sb = current sb.
Proof. intros (?&?&?). apply u32_small. lia. Qed.

Lemma space_left_wf sb : sb_wf sb -> stream_buffer_space_left sb = buffer_size sb - current sb.
Proof.
  intros H. unfold stream_buffer_space_left. rewrite space_used_wf by done.
  destruct H as (?&?&?). apply u32_small. lia.
Qed.

Lemma sb_data_length sb : sb_wf sb -> Z.of_nat (length (sb_data sb)) = current sb.
Proof. intros (?&?&?). unfold sb_data. len. Qed.

(** What [ensure_space_left] promises its callers: the content is kept, the
    room is there, and the block grew by at most twice the request. *)
Record ensured (sb : STREAM_BUFFER) (size : Z) (sb' : STREAM_BUFFER) : Prop := {
  ens_wf : sb_wf sb';
  ens_data : sb_data sb' = sb_data sb;
  ens_current : current sb' = current sb;
  ens_room : current sb' + size <= buffer_size sb';
  ens_grow : buffer_size sb <= buffer_size sb' <= buffer_size sb + 2 * size
}.

Lemma ensure_space_left_ok sb size :
  sb_wf sb -> 0 <= size -> buffer_size sb + 2 * size < 2 ^ 32 ->
  exists sb', stream_buffer_ensure_space_left sb size = Ok sb' /\ ensured sb size sb'.
Proof.
  intros Hwf Hs Hfit. pose proof Hwf as (Hlen & Hcur & Hmax).
  unfold stream_buffer_ensure_space_left. rewrite space_used_wf by done.
  rewrite (u32_small (buffer_size sb - current sb)) by lia.
  destruct (size <=? buffer_size sb - current sb) eqn:E; bool_to_prop.
  { exists sb. split; [done|]. split; auto with lia. }
  rewrite (u32_small (size * 2)), (u32_small (buffer_size sb + size * 2)) by lia.
  rewrite mem_read_ok by lia. mrun.
  rewrite <- Hlen, Nat2Z.id, Z2Nat.inj_0, drop_0, firstn_all.
  set (n := Z.to_nat _).
  replace (replicate n xff) with (([] : bytes) ++ replicate (length (buffer sb)) xff
            ++ replicate (n - length (buffer sb)) xff)
    by (simpl; rewrite <- replicate_add; f_equal; lia).
  rewrite mem_write_seg by (try done; len). mrun. simpl app.
  eexists; split; [done|]. split; cbn [current buffer buffer_size]; try lia.
  - split; cbn [current buffer buffer_size]; [len | lia].
  - unfold sb_data; cbn [current buffer]. rewrite take_app_le by lia. done.
Qed.

(** When the new size wraps below the old one, the copy overruns the block. *)
Lemma ensure_space_left_wraps sb size :
  sb_wf sb -> buffer_size sb - current sb < size ->
  u32 (buffer_size sb + u32 (size * 2)) < buffer_size sb ->
  stream_buffer_ensure_space_left sb size = Throw (Fault OutOfBounds).
Proof.
  intros Hwf Hs Hw. pose proof Hwf as (Hl & Hc & Hm).
  pose proof (u32_range (buffer_size sb + u32 (size * 2))) as Hn.
  unfold stream_buffer_ensure_space_left. rewrite space_used_wf by done.
  rewrite (u32_small (buffer_size sb - current sb)) by lia. ztest.
  rewrite mem_read_ok by lia. mrun. unfold mem_write.
  set (n := u32 (buffer_size sb + _)) in *.
  rewrite <- Hl, Nat2Z.id, Z2Nat.inj_0, drop_0, firstn_all, length_replicate. by ztest.
Qed.

Lemma get_write_pointer_ok sb size :
  sb_wf sb -> 0 <= size -> buffer_size sb + 2 * size < 2 ^ 32 ->
  exists sb' room, stream_buffer_get_write_pointer sb size = Ok (current sb, sb') /\
    sb_wf sb' /\ sb_data sb' = sb_data sb ++ room /\ Z.of_nat (length room) = size /\
    buffer_size sb' <= buffer_size sb + 2 * size.
Proof.
  intros Hwf Hs Hfit. destruct (ensure_space_left_ok sb size) as (sb' & E & Hens); auto.
  destruct Hens as [(Hl & Hc & Hm) Hd Hcur Hroom Hgrow].
  unfold stream_buffer_get_write_pointer. rewrite E. mrun. rewrite Hcur.
  eexists _, (take (Z.to_nat size) (drop (Z.to_nat (current sb)) (buffer sb'))).
  repeat split; cbn [current buffer buffer_size]; try len.
  rewrite <- Hd. unfold sb_data; cbn [current buffer]. rewrite Hcur, Z2Nat.inj_add by lia.
  by rewrite take_take_drop.
Qed.

(** Writing appends: the content afterwards is the content before followed by
    the bytes, whatever reallocation happened. *)
Lemma stream_buffer_write_ok sb src :
  sb_wf sb -> buffer_size sb + 2 * Z.of_nat (length src) < 2 ^ 32 ->
  exists sb', stream_buffer_write sb src (Z.of_nat (length src)) = Ok sb' /\
    sb_wf sb' /\ sb_data sb' = sb_data sb ++ src /\
    buffer_size sb' <= buffer_size sb + 2 * Z.of_nat (length src).
Proof.
  intros Hwf Hfit.
  destruct (ensure_space_left_ok sb (Z.of_nat (length src))) as (sb' & E & Hens); auto; [lia|].
  destruct Hens as [(Hl & Hc & Hm) Hd Hcur Hroom Hgrow].
  unfold stream_buffer_write. rewrite E. mrun.
  rewrite mem_read_ok by lia. mrun.
  rewrite Z2Nat.inj_0, drop_0, Nat2Z.id, firstn_all.
  unfold mem_write. ztest. mrun. eexists; split; [done|].
  repeat split; cbn [current buffer buffer_size]; try len.
  rewrite <- Hd. unfold sb_data; cbn [current buffer].
  rewrite take_app_ge by len. f_equal. rewrite take_app_ge by len.
  rewrite length_take, Nat.min_l by len.
  replace (_ - _ - _)%nat with 0%nat by len. by rewrite take_0, app_nil_r.
Qed.

End StreamBuffer.
