(* ===== verification/Pr1Message.v ===== *)
(** * The PR1 binary message of the C client

    [client/c/tioclient.c], [pr1_message_*], and the structs and constants of
    [client/c/tioclient_internals.h].  A message lives in one stream buffer: an
    8-byte header (size, field count, sequence number) followed by fields, each
    an 8-byte field header (id, type, size) followed by its data, all integers
    little-endian as on the hosts the code runs on.  The pointers in
    [field_array] and the field pointers passed around are offsets of the
    message's block. *)
From S2P Require Import Prelude StreamBuffer.

Module Pr1.
Import StreamBuffer.

(** ** Constants of tioclient_internals.h *)

Definition MESSAGE_FIELD_TYPE_NONE : Z := 1.
Definition MESSAGE_FIELD_TYPE_STRING : Z := 2.
Definition MESSAGE_FIELD_TYPE_INT : Z := 3.
Definition MESSAGE_FIELD_TYPE_DOUBLE : Z := 4.
Definition MESSAGE_FIELD_TYPE_MAX_VALUE : Z := MESSAGE_FIELD_TYPE_DOUBLE.

Definition MESSAGE_FIELD_ID_COMMAND : Z := 0x1.
Definition MESSAGE_FIELD_ID_HANDLE : Z := 0x2.
Definition MESSAGE_FIELD_ID_KEY : Z := 0x3.
Definition MESSAGE_FIELD_ID_VALUE : Z := 0x4.
Definition MESSAGE_FIELD_ID_METADATA : Z := 0x5.
Definition MESSAGE_FIELD_ID_NAME : Z := 0x6.
Definition MESSAGE_FIELD_ID_TYPE : Z := 0x7.
Definition MESSAGE_FIELD_ID_ERROR_CODE : Z := 0x8.
Definition MESSAGE_FIELD_ID_ERROR_DESC : Z := 0x9.
Definition MESSAGE_FIELD_ID_EVENT_CODE : Z := 0xA.
Definition MESSAGE_FIELD_ID_START_RECORD : Z := 0xB.
Definition MESSAGE_FIELD_ID_END : Z := 0xC.
Definition MESSAGE_FIELD_ID_QUERY_ID : Z := 0xD.
Definition MESSAGE_FIELD_ID_GROUP_NAME : Z := 0xE.
Definition MESSAGE_FIELD_ID_CONTAINER_NAME : Z := 0xF.
Definition MESSAGE_FIELD_ID_CONTAINER_TYPE : Z := 0x10.
Definition MESSAGE_FIELD_ID_QUERY_EXPRESSION : Z := 0x11.
Definition MESSAGE_FIELD_ID_MAX_VALUE : Z := MESSAGE_FIELD_ID_QUERY_EXPRESSION.

(** sizeof(struct PR1_MESSAGE_HEADER), sizeof(struct PR1_MESSAGE_FIELD_HEADER) *)
Definition header_size : Z := 8.
Definition field_header_size : Z := 8.

(** ** The message *)

Record PR1_MESSAGE := {
  stream_buffer : STREAM_BUFFER;
  field_array : option (list Z);   (* NULL until parsed *)
  field_count : Z
}.

Definition blk_of (m : PR1_MESSAGE) : bytes := buffer (stream_buffer m).

Definition with_block (sb : STREAM_BUFFER) (blk : bytes) : STREAM_BUFFER :=
  {| buffer := blk; current := current sb; buffer_size := buffer_size sb |}.

Definition pr1_message_new : res PR1_MESSAGE :=
  '(header, sb) ← stream_buffer_get_write_pointer stream_buffer_new header_size;
  blk ← write_le (buffer sb) header 4 0xFFFFFFFF;
  blk ← write_le blk (header + 6) 2 0;
  Ok {| stream_buffer := with_block sb blk; field_array := None; field_count := 0 |}.

Definition pr1_message_add_field (m : PR1_MESSAGE) (field_id data_type : Z)
    (src : bytes) (size : Z) : res PR1_MESSAGE :=
  '(field_header, sb) ← stream_buffer_get_write_pointer (stream_buffer m) field_header_size;
  blk ← write_le (buffer sb) (field_header + 2) 2 data_type;
  blk ← write_le blk field_header 2 field_id;
  blk ← write_le blk (field_header + 4) 4 size;
  sb ← stream_buffer_write (with_block sb blk) src size;
  Ok {| stream_buffer := sb; field_array := field_array m;
        field_count := u16 (field_count m + 1) |}.

Definition pr1_message_add_field_int (m : PR1_MESSAGE) (field_id value : Z) : res PR1_MESSAGE :=
  pr1_message_add_field m field_id MESSAGE_FIELD_TYPE_INT (le_encode 4 value) 4.

(** A [double] is its 8 bytes: the client never computes with one. *)
Definition pr1_message_add_field_double (m : PR1_MESSAGE) (field_id : Z) (value : bytes)
  : res PR1_MESSAGE :=
  pr1_message_add_field m field_id MESSAGE_FIELD_TYPE_DOUBLE value 8.

(** [strlen] of a NUL-terminated string; [value] is the string without its
    terminator. *)
Definition strlen32 (value : bytes) : res Z :=
  let size := Z.of_nat (length value) in
  _ ← assert_ (size <? 0xFFFFFFFF); Ok (u32 size).

Definition pr1_message_add_field_string (m : PR1_MESSAGE) (field_id : Z) (value : bytes)
  : res PR1_MESSAGE :=
  n ← strlen32 value;
  pr1_message_add_field m field_id MESSAGE_FIELD_TYPE_STRING value n.

(** Fields of a [struct PR1_MESSAGE_FIELD_HEADER] at a pointer. *)
Definition fh_field_id (blk : bytes) (p : Z) : res Z := read_le blk p 2.
Definition fh_data_type (blk : bytes) (p : Z) : res Z := read_le blk (p + 2) 2.
Definition fh_data_size (blk : bytes) (p : Z) : res Z := read_le blk (p + 4) 4.

Definition pr1_message_field_get_int (blk : bytes) (field : Z) : res Z :=
  size ← fh_data_size blk field;
  _ ← assert_ (size =? 4);
  v ← read_le blk (field + field_header_size) 4;
  Ok (i32 v).

Definition pr1_message_field_get_double (blk : bytes) (field : Z) : res bytes :=
  size ← fh_data_size blk field;
  _ ← assert_ (size =? 8);
  mem_read blk (field + field_header_size) 8.

(** The data pointer, as the [n] bytes a caller reads through it. *)
Definition pr1_message_field_get_buffer (blk : bytes) (field n : Z) : res bytes :=
  mem_read blk (field + field_header_size) n.

(** Copies the data into the caller's block [dst], at most [size] bytes. *)
Definition pr1_message_field_get_string (blk : bytes) (field : Z) (dst : bytes) (size : Z)
  : res bytes :=
  data_size ← fh_data_size blk field;
  let copy_size := if size <? data_size then size else data_size in
  data ← mem_read blk (field + field_header_size) copy_size;
  dst ← mem_write dst 0 data;
  if copy_size <? size then mem_write dst copy_size [x00] else Ok dst.

(** A negative [size] reaches [malloc] as a huge [size_t], for which it
    returns NULL. *)
Definition pr1_message_field_get_string_malloc (blk : bytes) (field : Z) : res bytes :=
  data_size ← fh_data_size blk field;
  let size := i32 (u32 (data_size + 1)) in
  if size <? 0 then Throw (Fault NullDeref)
  else pr1_message_field_get_string blk field (replicate (Z.to_nat size) x00) size.

Definition pr1_message_get_data_size (m : PR1_MESSAGE) : Z :=
  i32 (stream_buffer_space_used (stream_buffer m)).

Definition pr1_message_fill_header_info (m : PR1_MESSAGE) (debug_seq_num : Z) : res PR1_MESSAGE :=
  let sb := stream_buffer m in
  blk ← write_le (buffer sb) 0 4 (u32 (stream_buffer_space_used sb - header_size));
  blk ← write_le blk 4 2 (field_count m);
  blk ← write_le blk 6 2 debug_seq_num;
  Ok {| stream_buffer := with_block sb blk; field_array := field_array m;
        field_count := field_count m |}.

(** Returns the bytes [buffer, buffer + size) the callers send. *)
Definition pr1_message_get_buffer (m : PR1_MESSAGE) (debug_seq_num : Z) : res (bytes * PR1_MESSAGE) :=
  m ← pr1_message_fill_header_info m debug_seq_num;
  bs ← mem_read (blk_of m) 0 (stream_buffer_space_used (stream_buffer m));
  Ok (bs, m).

(** The loop of [pr1_message_parse] with [n] iterations left. *)
Fixpoint parse_loop (blk : bytes) (message_size : Z) (n : nat)
    (current debugTotalDataSize : Z) (arr : list Z) : res (list Z * Z) :=
  match n with
  | O => Ok (arr, debugTotalDataSize)
  | S n =>
      data_size ← fh_data_size blk current;
      let offset := data_size + field_header_size in
      let total := debugTotalDataSize + offset in
      field_id ← fh_field_id blk current;
      data_type ← fh_data_type blk current;
      _ ← assert_ (negb (field_id =? 0));
      _ ← assert_ (field_id <=? MESSAGE_FIELD_ID_MAX_VALUE);
      _ ← assert_ (negb (data_type =? 0));
      _ ← assert_ (data_type <=? MESSAGE_FIELD_TYPE_MAX_VALUE);
      _ ← assert_ (data_size <=? message_size + header_size);
      _ ← assert_ (total <=? message_size);
      parse_loop blk message_size n (current + offset) total (arr ++ [current])
  end.

Definition pr1_message_parse (m : PR1_MESSAGE) : res PR1_MESSAGE :=
  let blk := blk_of m in
  message_size ← read_le blk 0 4;
  _ ← assert_ (negb (message_size =? 0xFFFFFFFF));
  count ← read_le blk 4 2;
  '(arr, total) ← parse_loop blk message_size (Z.to_nat count) header_size 0 [];
  _ ← assert_ (total =? message_size);
  Ok {| stream_buffer := stream_buffer m; field_array := Some arr; field_count := count |}.

(** [for(a = 0 ; a < field_count ; a++)] over the pointer array. *)
Fixpoint find_loop (blk : bytes) (n : nat) (arr : list Z) (field_id : Z) : res (option Z) :=
  match n, arr with
  | O, _ => Ok None
  | S _, [] => Throw (Fault OutOfBounds)
  | S n, p :: arr =>
      id ← fh_field_id blk p;
      if id =? field_id then Ok (Some p) else find_loop blk n arr field_id
  end.

Definition pr1_message_field_find_by_id (m : PR1_MESSAGE) (field_id : Z) : res (option Z) :=
  match field_array m with
  | Some arr => find_loop (blk_of m) (Z.to_nat (field_count m)) arr field_id
  | None => if field_count m =? 0 then Ok None else Throw (Fault NullDeref)
  end.

(** Returns the message and the pointer the payload is to be received at. *)
Definition pr1_message_new_get_buffer_for_receive (header : bytes) : res (PR1_MESSAGE * Z) :=
  m ← pr1_message_new;
  let '(_, sb) := stream_buffer_seek (stream_buffer m) 0 in
  sb ← stream_buffer_write sb header header_size;
  message_size ← read_le header 0 4;
  '(p, sb) ← stream_buffer_get_write_pointer sb message_size;
  Ok ({| stream_buffer := sb; field_array := field_array m; field_count := field_count m |}, p).

(** ** Abstract messages *)

(** A field as the protocol sees it. *)
Record field := { f_id : Z; f_type : Z; f_data : bytes }.

#[export] Instance field_eq_dec : EqDecision field.
Proof. solve_decision. Defined.

Definition f_size (f : field) : Z := Z.of_nat (length (f_data f)).

(** The ids, types and sizes [pr1_message_parse] accepts. *)
Definition field_wf (f : field) : Prop :=
  0 < f_id f <= MESSAGE_FIELD_ID_MAX_VALUE /\
  0 < f_type f <= MESSAGE_FIELD_TYPE_MAX_VALUE /\ f_size f < 2 ^ 32.

Definition enc_field (f : field) : bytes :=
  le_encode 2 (f_id f) ++ le_encode 2 (f_type f) ++ le_encode 4 (f_size f) ++ f_data f.

Definition enc_fields (fs : list field) : bytes := mjoin (enc_field <$> fs).

Definition fields_size (fs : list field) : Z := Z.of_nat (length (enc_fields fs)).

(** The whole message on the wire. *)
Definition enc_message (fs : list field) (seq : Z) : bytes :=
  le_encode 4 (fields_size fs) ++ le_encode 2 (Z.of_nat (length fs)) ++ le_encode 2 seq
  ++ enc_fields fs.

Fixpoint offsets (base : Z) (fs : list field) : list Z :=
  match fs with
  | [] => []
  | f :: fs => base :: offsets (base + Z.of_nat (length (enc_field f))) fs
  end.

(** The field stored at a pointer of a block. *)
Definition field_at (blk : bytes) (p : Z) : res field :=
  id ← fh_field_id blk p;
  ty ← fh_data_type blk p;
  size ← fh_data_size blk p;
  data ← mem_read blk (p + field_header_size) size;
  Ok {| f_id := id; f_type := ty; f_data := data |}.

(** The message holds the fields [fs] and its pointer array points at them. *)
Record parsed_as (m : PR1_MESSAGE) (fs : list field) : Prop := {
  pa_block : exists pre post, blk_of m = pre ++ enc_fields fs ++ post /\ length pre = 8%nat;
  pa_array : field_array m = Some (offsets header_size fs);
  pa_count : field_count m = Z.of_nat (length fs);
  pa_wf : Forall field_wf fs
}.

(** The message is under construction with the fields [fs] added so far. *)
Record built_as (m : PR1_MESSAGE) (fs : list field) : Prop := {
  ba_wf : sb_wf (stream_buffer m);
  ba_data : exists hdr, sb_data (stream_buffer m) = hdr ++ enc_fields fs /\ length hdr = 8%nat;
  ba_count : field_count m = u16 (Z.of_nat (length fs));
  ba_array : field_array m = None;
  ba_room : buffer_size (stream_buffer m) <= 4096 + 2 * (header_size + fields_size fs)
}.

(** ** Encoding lemmas *)

#[global] Arguments enc_field : simpl never.
#[global] Arguments enc_fields : simpl never.
#[global] Arguments enc_message : simpl never.

Lemma length_enc_field f : length (enc_field f) = (8 + length (f_data f))%nat.
Proof. unfold enc_field. len. Qed.
#[local] Hint Rewrite length_enc_field : len.

Lemma enc_fields_cons f fs : enc_fields (f :: fs) = enc_field f ++ enc_fields fs.
Proof. done. Qed.

Lemma enc_fields_app fs gs : enc_fields (fs ++ gs) = enc_fields fs ++ enc_fields gs.
Proof. unfold enc_fields. by rewrite fmap_app, join_app. Qed.

Lemma fields_size_snoc fs f : fields_size (fs ++ [f]) = fields_size fs + 8 + f_size f.
Proof.
  unfold fields_size, f_size. rewrite enc_fields_app, enc_fields_cons. cbn [enc_fields].
  change (enc_fields []) with (@nil Byte.byte). len.
Qed.

Lemma fields_size_nonneg fs : 0 <= fields_size fs.
Proof. unfold fields_size. lia. Qed.

(** The header of a field read back from a block that holds it. *)
Lemma field_header_at a f c :
  field_wf f ->
  let blk := a ++ enc_field f ++ c in
  let p := Z.of_nat (length a) in
  fh_field_id blk p = Ok (f_id f) /\ fh_data_type blk p = Ok (f_type f) /\
  fh_data_size blk p = Ok (f_size f).
Proof.
  intros (Hid & Hty & Hsz); unfold MESSAGE_FIELD_ID_MAX_VALUE, MESSAGE_FIELD_ID_QUERY_EXPRESSION,
    MESSAGE_FIELD_TYPE_MAX_VALUE, MESSAGE_FIELD_TYPE_DOUBLE in *; cbn zeta.
  assert (0 <= f_size f) by (unfold f_size; lia).
  unfold fh_field_id, fh_data_type, fh_data_size, enc_field. repeat split.
  - rewrite <- !app_assoc, read_le_seg by done. f_equal. apply Z.mod_small. simpl. lia.
  - rewrite <- !app_assoc, (app_assoc a), read_le_seg by len. f_equal. apply Z.mod_small. simpl. lia.
  - rewrite <- !app_assoc, (app_assoc a), (app_assoc (a ++ _)), read_le_seg by len.
    f_equal. apply Z.mod_small. simpl. lia.
Qed.

Lemma field_data_at a f c :
  mem_read (a ++ enc_field f ++ c) (Z.of_nat (length a) + field_header_size) (f_size f)
  = Ok (f_data f).
Proof.
  unfold enc_field. rewrite <- !app_assoc.
  rewrite (app_assoc a), (app_assoc (a ++ _)), (app_assoc ((a ++ _) ++ _)).
  apply mem_read_seg; [|done]. unfold field_header_size. len.
Qed.

(** A field read at its pointer is the field that was encoded there. *)
Lemma field_at_enc a f c :
  field_wf f -> field_at (a ++ enc_field f ++ c) (Z.of_nat (length a)) = Ok f.
Proof.
  intros Hwf. destruct (field_header_at a f c Hwf) as (E1 & E2 & E3).
  unfold field_at. rewrite E1. mrun. rewrite E2. mrun. rewrite E3. mrun.
  rewrite field_data_at. mrun. by destruct f.
Qed.

(** The parse loop finds every encoded field, in order. *)
Lemma parse_loop_ok blk ms fs : forall pre post arr total,
  blk = pre ++ enc_fields fs ++ post ->
  Forall field_wf fs -> 0 <= total -> total + fields_size fs <= ms ->
  parse_loop blk ms (length fs) (Z.of_nat (length pre)) total arr
  = Ok (arr ++ offsets (Z.of_nat (length pre)) fs, total + fields_size fs).
Proof.
  induction fs as [|f fs IH]; intros pre post arr total Hblk Hwf Ht Hms.
  { simpl. rewrite app_nil_r. unfold fields_size. simpl. by rewrite Z.add_0_r. }
  apply Forall_cons in Hwf as [Hf Hwf].
  assert (Hsz : fields_size (f :: fs) = 8 + f_size f + fields_size fs)
    by (unfold fields_size, f_size; rewrite enc_fields_cons; len).
  pose proof (fields_size_nonneg fs).
  rewrite enc_fields_cons, <- app_assoc in Hblk.
  destruct (field_header_at pre f (enc_fields fs ++ post) Hf) as (E1 & E2 & E3).
  rewrite <- Hblk in E1, E2, E3.
  cbn [parse_loop length]. rewrite E3. mrun. rewrite E1. mrun. rewrite E2. mrun.
  destruct Hf as (Hid & Hty & _). assert (0 <= f_size f) by (unfold f_size; lia).
  unfold assert_, field_header_size, header_size. ztest. mrun.
  rewrite (app_assoc pre) in Hblk.
  replace (Z.of_nat (length pre) + (f_size f + 8)) with (Z.of_nat (length (pre ++ enc_field f)))
    by (unfold f_size; len).
  rewrite (IH (pre ++ enc_field f) post) by (auto; lia).
  cbn [offsets]. f_equal. f_equal; [|lia].
  rewrite <- app_assoc. simpl. do 3 f_equal. len.
Qed.

(** ** Building a message *)

Lemma pr1_message_new_ok : exists m, pr1_message_new = Ok m /\ built_as m [].
Proof.
  unfold pr1_message_new.
  destruct (get_write_pointer_ok stream_buffer_new header_size) as (sb & room & E & Hwf & Hd & Hr & Hg).
  { apply stream_buffer_new_wf. } { unfold header_size; lia. }
  { unfold stream_buffer_new, header_size; cbn [buffer_size]; lia. }
  rewrite E. mrun. clear E.
  change (sb_data stream_buffer_new) with (@nil Byte.byte) in Hd. simpl in Hd.
  change (current stream_buffer_new) with 0.
  change (buffer_size stream_buffer_new) with 4096 in Hg.
  pose proof (sb_data_length sb Hwf) as Hc. rewrite Hd, Hr in Hc. unfold header_size in *.
  destruct Hwf as (Hl & Hcur & Hm). unfold sb_data in Hd.
  destruct (block_split (buffer sb) (current sb)) as (a & c & Hblk & Ha & Hta); [lia|].
  rewrite Hta in Hd. subst a. rewrite Hblk.
  replace (room ++ c) with (([] : bytes) ++ take 4 room ++ (drop 4 room ++ c))
    by (rewrite app_assoc; simpl; by rewrite app_assoc, take_drop).
  rewrite write_le_seg by (try done; len). mrun.
  replace (drop 4 room ++ c) with (take 2 (drop 4 room) ++ drop 6 room ++ c)
    by (rewrite app_assoc; f_equal; rewrite <- (take_drop 2 (drop 4 room)) at 2; by rewrite drop_drop).
  rewrite app_nil_l, (app_assoc (le_encode 4 _)).
  rewrite write_le_seg by len. mrun.
  eexists; split; [done|]. split; cbn [stream_buffer field_array field_count]; try done.
  - unfold sb_wf, with_block; cbn [buffer current buffer_size]. rewrite Hblk in Hl. len.
  - exists ((le_encode 4 0xFFFFFFFF ++ take 2 (drop 4 room)) ++ le_encode 2 0).
    unfold sb_data, with_block; cbn [buffer current]. change (enc_fields []) with (@nil Byte.byte).
    rewrite app_nil_r, app_assoc, <- Hc. split; [|len]. rewrite take_app_length'; [done|len].
Qed.

Lemma split8 (room : bytes) : length room = 8%nat ->
  exists r1 r2 r3, room = r1 ++ r2 ++ r3 /\ length r1 = 2%nat /\ length r2 = 2%nat /\ length r3 = 4%nat.
Proof.
  intros H. exists (take 2 room), (take 2 (drop 2 room)), (drop 4 room).
  split; [|len]. rewrite app_assoc, take_take_drop. by rewrite take_drop.
Qed.

(** The three stores of [pr1_message_add_field] into the reserved room. *)
Lemma write_field_header a room c id ty size :
  length room = 8%nat ->
  let p := Z.of_nat (length a) in
  (blk ← write_le (a ++ room ++ c) (p + 2) 2 ty;
   blk ← write_le blk p 2 id;
   write_le blk (p + 4) 4 size)
  = Ok (a ++ (le_encode 2 id ++ le_encode 2 ty ++ le_encode 4 size) ++ c).
Proof.
  intros Hr p. destruct (split8 room Hr) as (r1 & r2 & r3 & -> & H1 & H2 & H3).
  rewrite <- !app_assoc, (app_assoc a).
  rewrite write_le_seg by (subst p; len). mrun. rewrite <- app_assoc.
  rewrite write_le_seg by (subst p; len). mrun.
  rewrite (app_assoc (le_encode 2 id)), (app_assoc a).
  rewrite write_le_seg by (subst p; len). by rewrite <- !app_assoc.
Qed.

(** Adding a field appends its encoding. *)
Lemma pr1_message_add_field_ok m fs f :
  built_as m fs -> f_size f < 2 ^ 32 -> 4096 + 2 * (header_size + fields_size (fs ++ [f])) < 2 ^ 32 ->
  exists m', pr1_message_add_field m (f_id f) (f_type f) (f_data f) (f_size f) = Ok m' /\
    built_as m' (fs ++ [f]).
Proof.
  intros [Hwf (hdr & Hdata & Hh) Hcount Harr Hroom] Hf. rewrite fields_size_snoc. intros Hfit.
  pose proof (fields_size_nonneg fs). assert (0 <= f_size f) by (unfold f_size; lia).
  unfold pr1_message_add_field, header_size, field_header_size in *.
  destruct (get_write_pointer_ok (stream_buffer m) 8) as (sb & room & E & Hwf1 & Hd1 & Hr & Hg);
    [done | lia | lia |].
  rewrite E. mrun. clear E.
  pose proof (sb_data_length _ Hwf) as Hc0. pose proof (sb_data_length _ Hwf1) as Hc1.
  destruct Hwf1 as (Hl1 & Hcur1 & Hm1). unfold sb_data in Hd1 at 1.
  destruct (block_split (buffer sb) (current sb)) as (a & c & Hblk & Ha & Hta); [lia|].
  rewrite Hta in Hd1. subst a. rewrite Hblk, <- app_assoc, <- Hc0.
  pose proof (write_field_header (sb_data (stream_buffer m)) room c (f_id f) (f_type f) (f_size f)
    ltac:(lia)) as W. cbn zeta in W.
  destruct (write_le (sb_data (stream_buffer m) ++ room ++ c) _ 2 (f_type f)) as [b1|e1]; [|done].
  revert W. mrun. destruct (write_le b1 _ 2 (f_id f)) as [b2|e2]; [|done]. mrun. intros ->. mrun.
  set (fh := _ ++ _ ++ le_encode 4 _).
  assert (Hfh : length fh = 8%nat) by (subst fh; len).
  set (sb2 := with_block _ _).
  assert (Hwf2 : sb_wf sb2).
  { subst sb2; unfold sb_wf, with_block; cbn [buffer current buffer_size].
    rewrite Hblk in Hl1. len. }
  assert (Hd2 : sb_data sb2 = hdr ++ enc_fields fs ++ fh).
  { subst sb2; unfold sb_data at 1, with_block; cbn [buffer current].
    rewrite (app_assoc (sb_data _)), take_app_length' by len. by rewrite Hdata, <- app_assoc. }
  destruct (stream_buffer_write_ok sb2 (f_data f)) as (sb3 & E3 & Hwf3 & Hd3 & Hg3); [done| |].
  { subst sb2; unfold with_block; cbn [buffer_size]. fold (f_size f). lia. }
  unfold f_size at 1. rewrite E3. mrun. eexists; split; [done|].
  split; cbn [stream_buffer field_array field_count]; auto.
  - exists hdr. split; [|done]. rewrite Hd3, Hd2, enc_fields_app. subst fh.
    unfold enc_fields at 3; simpl. rewrite app_nil_r. unfold enc_field. by rewrite <- !app_assoc.
  - rewrite Hcount. unfold u16. rewrite Zplus_mod_idemp_l. f_equal. len.
  - rewrite fields_size_snoc. subst sb2; unfold with_block in Hg3; cbn [buffer_size] in Hg3.
    unfold header_size, f_size in *. lia.
Qed.

(** Only the first [size] bytes of the source count. *)
Lemma pr1_message_add_field_src m id ty s x :
  pr1_message_add_field m id ty (s ++ x) (Z.of_nat (length s))
  = pr1_message_add_field m id ty s (Z.of_nat (length s)).
Proof.
  assert (E : mem_read (s ++ x) 0 (Z.of_nat (length s)) = mem_read s 0 (Z.of_nat (length s))).
  { rewrite (mem_read_seg [] s x) by done. symmetry.
    pose proof (mem_read_seg [] s [] 0 (Z.of_nat (length s)) eq_refl eq_refl) as E.
    by rewrite app_nil_r in E. }
  assert (Ew : forall sb, stream_buffer_write sb (s ++ x) (Z.of_nat (length s))
                        = stream_buffer_write sb s (Z.of_nat (length s))).
  { intros sb. unfold stream_buffer_write.
    destruct (stream_buffer_ensure_space_left sb _); mrun; by rewrite ?E. }
  unfold pr1_message_add_field.
  destruct (stream_buffer_get_write_pointer _ _) as [[p sb]|]; mrun; [|done].
  do 3 (destruct (write_le _ _ _ _); mrun; [|done]). by rewrite Ew.
Qed.

(** Adding the fields of a list, in order. *)
Fixpoint add_fields (m : PR1_MESSAGE) (fs : list field) : res PR1_MESSAGE :=
  match fs with
  | [] => Ok m
  | f :: fs => m ← pr1_message_add_field m (f_id f) (f_type f) (f_data f) (f_size f); add_fields m fs
  end.

Lemma fields_size_app fs gs : fields_size (fs ++ gs) = fields_size fs + fields_size gs.
Proof. unfold fields_size. rewrite enc_fields_app. len. Qed.

Lemma fields_size_in f fs : f ∈ fs -> f_size f + 8 <= fields_size fs.
Proof.
  induction fs as [|g fs IH]; [by intros ?%not_elem_of_nil|].
  intros [->|H]%elem_of_cons; unfold fields_size, f_size in *; rewrite enc_fields_cons; [len|].
  specialize (IH H). len.
Qed.

Lemma add_fields_ok fs : forall m gs,
  built_as m gs -> 4096 + 2 * (header_size + fields_size (gs ++ fs)) < 2 ^ 32 ->
  exists m', add_fields m fs = Ok m' /\ built_as m' (gs ++ fs).
Proof.
  induction fs as [|f fs IH]; intros m gs Hb Hfit; cbn [add_fields].
  { exists m. by rewrite app_nil_r. }
  assert (Hin : f_size f + 8 <= fields_size (gs ++ f :: fs)) by (apply fields_size_in; set_solver).
  assert (Heq : gs ++ f :: fs = (gs ++ [f]) ++ fs) by by rewrite <- app_assoc.
  rewrite Heq in *. pose proof (fields_size_nonneg fs).
  destruct (pr1_message_add_field_ok m gs f) as (m1 & E1 & Hb1); auto.
  { rewrite fields_size_app in *. unfold header_size in *. lia. }
  { rewrite (fields_size_app (gs ++ [f])) in Hfit. unfold header_size in *. lia. }
  rewrite E1. mrun. by apply IH.
Qed.

(** The bytes handed to [socket_send] are the message's encoding, and the
    message can still be extended afterwards. *)
Lemma pr1_message_get_buffer_ok m fs seq :
  built_as m fs -> Z.of_nat (length fs) < 2 ^ 16 ->
  header_size + fields_size fs < 2 ^ 32 ->
  exists m', pr1_message_get_buffer m seq = Ok (enc_message fs seq, m') /\ built_as m' fs.
Proof.
  intros [Hwf (hdr & Hdata & Hh) Hcount Harr Hroom] Hn Hsz.
  pose proof (sb_data_length _ Hwf) as Hc. pose proof (space_used_wf _ Hwf) as Hu.
  pose proof (fields_size_nonneg fs). pose proof Hwf as (Hl & Hcur & Hm).
  unfold pr1_message_get_buffer, pr1_message_fill_header_info, header_size in *.
  rewrite Hu, Hcount, (u16_small (Z.of_nat _)) by lia.
  assert (Hcs : current (stream_buffer m) = 8 + fields_size fs)
    by (rewrite <- Hc, Hdata; unfold fields_size; len).
  rewrite Hcs, Z.add_simpl_l, u32_small by lia.
  destruct (block_split (buffer (stream_buffer m)) (current (stream_buffer m)))
    as (a & c & Hblk & Ha & Hta); [lia|].
  unfold sb_data in Hdata. rewrite Hta in Hdata. subst a.
  destruct (split8 hdr Hh) as (r1 & r2 & r3 & -> & H1 & H2 & H3).
  rewrite Hblk. rewrite <- !app_assoc.
  (* the header is rewritten in place: 4 + 2 + 2 bytes *)
  assert (Hw : forall tl, (blk ← write_le (r1 ++ r2 ++ r3 ++ tl) 0 4 (fields_size fs);
     blk ← write_le blk 4 2 (Z.of_nat (length fs)); write_le blk 6 2 seq) =
     Ok (le_encode 4 (fields_size fs) ++ le_encode 2 (Z.of_nat (length fs)) ++ le_encode 2 seq ++ tl)).
  { intros tl. rewrite (app_assoc r1).
    rewrite <- (app_nil_l ((r1 ++ r2) ++ _)), write_le_seg by len. mrun.
    rewrite app_nil_l, <- (take_drop 2 r3), <- app_assoc, write_le_seg by len. mrun.
    rewrite (app_assoc (le_encode 4 _)), write_le_seg by len. by rewrite <- app_assoc. }
  specialize (Hw (enc_fields fs ++ c)). revert Hw.
  destruct (write_le (r1 ++ _) 0 4 _) as [b1|]; [|done]. mrun.
  destruct (write_le b1 4 2 _) as [b2|]; [|done]. mrun. intros ->. mrun.
  unfold blk_of, with_block; cbn [stream_buffer buffer current buffer_size].
  unfold stream_buffer_space_used; cbn [current]. rewrite Hcs, u32_small by lia.
  set (msg := le_encode 4 _ ++ _).
  assert (Hmsg : msg = [] ++ enc_message fs seq ++ c) by (subst msg; unfold enc_message; by rewrite <- !app_assoc).
  assert (Hml : length (enc_message fs seq) = (8 + Z.to_nat (fields_size fs))%nat)
    by (unfold enc_message, fields_size; len).
  rewrite Hmsg. rewrite mem_read_seg by (try done; lia). mrun.
  eexists; split; [done|]. split; cbn [stream_buffer field_array field_count]; auto.
  - unfold sb_wf; cbn [buffer current buffer_size]. rewrite Hblk in Hl.
    unfold fields_size in *. len.
  - exists (le_encode 4 (fields_size fs) ++ le_encode 2 (Z.of_nat (length fs)) ++ le_encode 2 seq).
    unfold sb_data; cbn [buffer current]. rewrite ?Hcs, app_nil_l, take_app_length' by lia.
    split; [unfold enc_message; by rewrite <- !app_assoc | len].
  - symmetry. apply u16_small. lia.
Qed.

(** ** Parsing and looking fields up *)

Lemma pr1_message_parse_ok m fs seq post :
  blk_of m = enc_message fs seq ++ post ->
  Forall field_wf fs -> Z.of_nat (length fs) < 2 ^ 16 -> fields_size fs < 0xFFFFFFFF ->
  exists m', pr1_message_parse m = Ok m' /\ parsed_as m' fs /\ stream_buffer m' = stream_buffer m.
Proof.
  intros Hblk Hwf Hn Hsz. pose proof (fields_size_nonneg fs).
  unfold pr1_message_parse. rewrite Hblk. unfold enc_message. rewrite <- !app_assoc.
  rewrite <- (app_nil_l (le_encode 4 _ ++ _)), read_le_seg by done. mrun. rewrite app_nil_l.
  change (256 ^ Z.of_nat 4) with (2 ^ 32). rewrite Z.mod_small by lia.
  unfold assert_. ztest. mrun.
  rewrite read_le_seg by len. mrun.
  change (256 ^ Z.of_nat 2) with (2 ^ 16). rewrite Z.mod_small by lia. rewrite Nat2Z.id.
  set (pre := le_encode 4 (fields_size fs) ++ le_encode 2 (Z.of_nat (length fs)) ++ le_encode 2 seq).
  assert (Hpre : length pre = 8%nat) by (subst pre; len).
  assert (Hb : le_encode 4 (fields_size fs) ++ le_encode 2 (Z.of_nat (length fs)) ++
    le_encode 2 seq ++ enc_fields fs ++ post = pre ++ enc_fields fs ++ post)
    by (subst pre; by rewrite <- !app_assoc).
  replace header_size with (Z.of_nat (length pre)) by by rewrite Hpre.
  rewrite (parse_loop_ok _ _ fs pre post) by (auto; lia). mrun. rewrite Z.add_0_l, Hpre. ztest. mrun.
  eexists; split; [done|]. split; [|done].
  split; cbn [field_array field_count]; auto.
  exists pre, post. split; [|done]. unfold blk_of in *; cbn [stream_buffer]. rewrite Hblk.
  unfold enc_message. by rewrite <- !app_assoc.
Qed.

(** The first field with an id, which is what a lookup is meant to return. *)
Definition find_field (id : Z) (fs : list field) : option field :=
  List.find (fun f => f_id f =? id) fs.

(** A pointer to an encoded field of a block. *)
Definition points_to_field (blk : bytes) (p : Z) (f : field) : Prop :=
  exists a c, blk = a ++ enc_field f ++ c /\ p = Z.of_nat (length a) /\ field_wf f.

Lemma find_loop_ok blk id fs : forall pre post,
  blk = pre ++ enc_fields fs ++ post -> Forall field_wf fs ->
  exists r, find_loop blk (length fs) (offsets (Z.of_nat (length pre)) fs) id = Ok r /\
    match find_field id fs with
    | None => r = None
    | Some f => exists p, r = Some p /\ points_to_field blk p f
    end.
Proof.
  induction fs as [|f fs IH]; intros pre post Hblk Hwf; [by eexists|].
  apply Forall_cons in Hwf as [Hf Hwf].
  rewrite enc_fields_cons, <- app_assoc in Hblk.
  destruct (field_header_at pre f (enc_fields fs ++ post) Hf) as (E1 & _ & _).
  rewrite <- Hblk in E1. cbn [find_loop length offsets find_field List.find]. rewrite E1. mrun.
  destruct (f_id f =? id) eqn:E.
  - eexists; split; [done|]. eexists; split; [done|]. exists pre, (enc_fields fs ++ post). auto.
  - rewrite app_assoc in Hblk. destruct (IH _ _ Hblk Hwf) as (r & Hr & Hm).
    exists r. split; [|done]. rewrite <- Hr. repeat f_equal. len.
Qed.

Lemma find_by_id_ok m fs id :
  parsed_as m fs ->
  exists r, pr1_message_field_find_by_id m id = Ok r /\
    match find_field id fs with
    | None => r = None
    | Some f => exists p, r = Some p /\ points_to_field (blk_of m) p f
    end.
Proof.
  intros [(pre & post & Hblk & Hpre) Harr Hc Hwf].
  unfold pr1_message_field_find_by_id. rewrite Harr, Hc, Nat2Z.id.
  replace header_size with (Z.of_nat (length pre)) by by rewrite Hpre.
  by apply find_loop_ok with post.
Qed.

(** Reading through a field pointer. *)
Lemma points_to_header blk p f :
  points_to_field blk p f ->
  fh_data_type blk p = Ok (f_type f) /\ fh_data_size blk p = Ok (f_size f) /\
  mem_read blk (p + field_header_size) (f_size f) = Ok (f_data f).
Proof.
  intros (a & c & -> & -> & Hf). destruct (field_header_at a f c Hf) as (_ & E2 & E3).
  auto using field_data_at.
Qed.

Lemma field_get_int_ok blk p f v :
  points_to_field blk p f -> f_data f = le_encode 4 v -> is_int v ->
  pr1_message_field_get_int blk p = Ok v.
Proof.
  intros Hp Hd Hv. destruct (points_to_header _ _ _ Hp) as (_ & E & Er).
  assert (Hs : f_size f = 4) by (unfold f_size; rewrite Hd; len).
  unfold pr1_message_field_get_int. rewrite E. mrun. unfold assert_. ztest. mrun.
  unfold read_le. change (Z.of_nat 4) with 4. rewrite <- Hs, Er. mrun.
  rewrite Hd, le_decode_encode. f_equal. by apply i32_u32.
Qed.

(** The offsets of the pointer array read back as the fields. *)
Lemma fields_at_offsets fs : forall pre post,
  Forall field_wf fs ->
  field_at (pre ++ enc_fields fs ++ post) <$> offsets (Z.of_nat (length pre)) fs = Ok <$> fs.
Proof.
  induction fs as [|f fs IH]; intros pre post Hwf; [done|].
  apply Forall_cons in Hwf as [Hf Hwf]. cbn [offsets]. rewrite !fmap_cons, enc_fields_cons, <- app_assoc.
  f_equal; [by apply field_at_enc|].
  specialize (IH (pre ++ enc_field f) post Hwf). rewrite <- app_assoc in IH. rewrite <- IH.
  repeat f_equal. len.
Qed.

End Pr1.
