(* ===== verification/TioDataC.v ===== *)
(** * The client's [struct TIO_DATA]

    [client/c/tioclient.c], [tiodata_*], [tio_data_add_to_pr1_message],
    [pr1_message_field_to_tio_data], [pr1_message_field_get_as_tio_data] and
    [tio_generate_data_message].  [string_] is the allocated block (one byte
    longer than the string), [None] for NULL.  A [double] is its 8 bytes. *)
From S2P Require Import Prelude Decimal StreamBuffer Pr1Message.

Module TioDataC.
Import StreamBuffer Pr1.

Definition TIO_DATA_TYPE_NONE : Z := 1.
Definition TIO_DATA_TYPE_STRING : Z := 2.
Definition TIO_DATA_TYPE_INT : Z := 3.
Definition TIO_DATA_TYPE_DOUBLE : Z := 4.

Record TIO_DATA := {
  data_type : Z;
  int_ : Z;
  string_ : option bytes;
  string_size_ : Z;
  double_ : bytes
}.

Definition tiodata_init : TIO_DATA :=
  {| data_type := TIO_DATA_TYPE_NONE; int_ := 0; string_ := None; string_size_ := 0;
     double_ := replicate 8 x00 |}.

Definition tiodata_get_type (td : TIO_DATA) : Z := data_type td.

Definition tiodata_set_as_none (td : TIO_DATA) : TIO_DATA :=
  let td := if tiodata_get_type td =? TIO_DATA_TYPE_STRING
            then {| data_type := data_type td; int_ := int_ td; string_ := None;
                    string_size_ := 0; double_ := double_ td |}
            else td in
  {| data_type := TIO_DATA_TYPE_NONE; int_ := int_ td; string_ := string_ td;
     string_size_ := string_size_ td; double_ := double_ td |}.

Definition tiodata_free (td : TIO_DATA) : TIO_DATA := tiodata_set_as_none td.

(** [garbage] is the content of the block [malloc] returns. *)
Definition tiodata_string_get_buffer (td : TIO_DATA) (min_size : Z) (garbage : bytes) : TIO_DATA :=
  if (data_type td =? TIO_DATA_TYPE_STRING) && (min_size <=? string_size_ td) then td
  else
    let td := tiodata_set_as_none td in
    {| data_type := TIO_DATA_TYPE_STRING; int_ := int_ td;
       string_ := Some (take (Z.to_nat (u32 (min_size + 1))) garbage);
       string_size_ := min_size; double_ := double_ td |}.

(** The block is [malloc(string_size_ + 1)], a 32-bit sum. *)
Definition tiodata_set_string_and_size (td : TIO_DATA) (src : bytes) (len : Z) : res TIO_DATA :=
  let td := tiodata_set_as_none td in
  data ← mem_read src 0 len;
  blk ← mem_write (replicate (Z.to_nat (u32 (len + 1))) x00) 0 data;
  blk ← mem_write blk len [x00];
  Ok {| data_type := TIO_DATA_TYPE_STRING; int_ := int_ td; string_ := Some blk;
        string_size_ := len; double_ := double_ td |}.

Definition tiodata_set_int (td : TIO_DATA) (value : Z) : TIO_DATA :=
  let td := tiodata_set_as_none td in
  {| data_type := TIO_DATA_TYPE_INT; int_ := value; string_ := string_ td;
     string_size_ := string_size_ td; double_ := double_ td |}.

Definition tiodata_set_double (td : TIO_DATA) (value : bytes) : TIO_DATA :=
  let td := tiodata_set_as_none td in
  {| data_type := TIO_DATA_TYPE_DOUBLE; int_ := int_ td; string_ := string_ td;
     string_size_ := string_size_ td; double_ := value |}.

(** A type the switch does not list leaves the destination as none. *)
Definition tiodata_copy (source destination : TIO_DATA) : res TIO_DATA :=
  let destination := tiodata_set_as_none destination in
  if (data_type source =? TIO_DATA_TYPE_NONE) || (data_type source =? TIO_DATA_TYPE_INT)
     || (data_type source =? TIO_DATA_TYPE_DOUBLE)
  then Ok source
  else if data_type source =? TIO_DATA_TYPE_STRING then
    match string_ source with
    | Some blk => tiodata_set_string_and_size destination blk (string_size_ source)
    | None => Throw (Fault NullDeref)
    end
  else Ok destination.

(** [sprintf("%g")] of a double is left to the C library. *)
Definition tiodata_convert_to_string (sprintf_g : bytes -> bytes) (td : TIO_DATA) : res TIO_DATA :=
  if data_type td =? TIO_DATA_TYPE_STRING then Ok td
  else
    text ← (if data_type td =? TIO_DATA_TYPE_NONE then Ok (lit "[NONE]")
            else if data_type td =? TIO_DATA_TYPE_INT then Ok (Decimal.print_int (int_ td))
            else if data_type td =? TIO_DATA_TYPE_DOUBLE then Ok (sprintf_g (double_ td))
            else Throw (Fault Uninitialised));
    _ ← require (Z.of_nat (length text) <? 64) (Fault OutOfBounds);
    n ← strlen32 text;
    tiodata_set_string_and_size td text n.

(** ** Fields of a message *)

Definition tio_data_add_to_pr1_message (m : PR1_MESSAGE) (field_id : Z) (td : option TIO_DATA)
  : res PR1_MESSAGE :=
  match td with
  | None => Ok m
  | Some td =>
      let add := pr1_message_add_field m field_id in
      if data_type td =? TIO_DATA_TYPE_STRING then
        match string_ td with
        | Some blk => add MESSAGE_FIELD_TYPE_STRING blk (string_size_ td)
        | None => if string_size_ td =? 0 then add MESSAGE_FIELD_TYPE_STRING [] 0
                  else Throw (Fault NullDeref)
        end
      else if data_type td =? TIO_DATA_TYPE_INT then
        add MESSAGE_FIELD_TYPE_INT (le_encode 4 (int_ td)) 4
      else if data_type td =? TIO_DATA_TYPE_DOUBLE then
        add MESSAGE_FIELD_TYPE_DOUBLE (double_ td) 8
      else add MESSAGE_FIELD_TYPE_NONE [] 0
  end.

(** [field] is a pointer into [blk], [None] for NULL. *)
Definition pr1_message_field_to_tio_data (blk : bytes) (field : option Z) (td : TIO_DATA)
  : res TIO_DATA :=
  let td := tiodata_set_as_none td in
  match field with
  | None => Ok td
  | Some field =>
      ty ← fh_data_type blk field;
      if ty =? TIO_DATA_TYPE_STRING then
        size ← fh_data_size blk field;
        data ← pr1_message_field_get_buffer blk field size;
        tiodata_set_string_and_size td data size
      else if ty =? TIO_DATA_TYPE_INT then
        v ← pr1_message_field_get_int blk field; Ok (tiodata_set_int td v)
      else if ty =? TIO_DATA_TYPE_DOUBLE then
        v ← pr1_message_field_get_double blk field; Ok (tiodata_set_double td v)
      else Ok td
  end.

Definition pr1_message_field_get_as_tio_data (m : PR1_MESSAGE) (field_id : Z) (td : TIO_DATA)
  : res TIO_DATA :=
  let td := tiodata_set_as_none td in
  field ← pr1_message_field_find_by_id m field_id;
  match field with
  | None => Ok td
  | Some p => pr1_message_field_to_tio_data (blk_of m) (Some p) td
  end.

Definition tio_generate_data_message (command_id handle : Z) (key value metadata : option TIO_DATA)
  : res PR1_MESSAGE :=
  m ← pr1_message_new;
  m ← pr1_message_add_field_int m MESSAGE_FIELD_ID_COMMAND command_id;
  m ← pr1_message_add_field_int m MESSAGE_FIELD_ID_HANDLE handle;
  m ← tio_data_add_to_pr1_message m MESSAGE_FIELD_ID_KEY key;
  m ← tio_data_add_to_pr1_message m MESSAGE_FIELD_ID_VALUE value;
  tio_data_add_to_pr1_message m MESSAGE_FIELD_ID_METADATA metadata.

(** ** Values *)

(** What a [TIO_DATA] stands for. *)
Inductive tio_value :=
| VNone
| VString (s : bytes)
| VInt (z : Z)
| VDouble (d : bytes).

(** Well-formed data: the fields agree with [data_type]; only a string owns a
    block, one byte longer than the string and ending in NUL. *)
Inductive represents : TIO_DATA -> tio_value -> Prop :=
| rep_none td : data_type td = TIO_DATA_TYPE_NONE -> string_ td = None -> represents td VNone
| rep_string td s :
    data_type td = TIO_DATA_TYPE_STRING -> string_ td = Some (s ++ [x00]) ->
    string_size_ td = Z.of_nat (length s) -> represents td (VString s)
| rep_int td z :
    data_type td = TIO_DATA_TYPE_INT -> string_ td = None -> int_ td = z -> is_int z ->
    represents td (VInt z)
| rep_double td d :
    data_type td = TIO_DATA_TYPE_DOUBLE -> string_ td = None -> double_ td = d ->
    length d = 8%nat -> represents td (VDouble d).
#[export] Hint Constructors represents : tio.

(** The field that carries a value. *)
Definition value_field (id : Z) (v : tio_value) : field :=
  match v with
  | VNone => {| f_id := id; f_type := MESSAGE_FIELD_TYPE_NONE; f_data := [] |}
  | VString s => {| f_id := id; f_type := MESSAGE_FIELD_TYPE_STRING; f_data := s |}
  | VInt z => {| f_id := id; f_type := MESSAGE_FIELD_TYPE_INT; f_data := le_encode 4 z |}
  | VDouble d => {| f_id := id; f_type := MESSAGE_FIELD_TYPE_DOUBLE; f_data := d |}
  end.

(** Clearing a well-formed value releases its string. *)
Lemma set_as_none_represents td v :
  represents td v -> represents (tiodata_set_as_none td) VNone.
Proof.
  intros H; destruct H as [td Ht Hs|td s Ht Hs Hz|td z Ht Hs Hz|td d Ht Hs Hd];
    unfold tiodata_set_as_none, tiodata_get_type; rewrite Ht; by apply rep_none.
Qed.

Lemma set_string_represents td v s :
  represents td v -> Z.of_nat (length s) < 2 ^ 32 - 1 ->
  exists td', tiodata_set_string_and_size td s (Z.of_nat (length s)) = Ok td' /\
    represents td' (VString s).
Proof.
  intros Hrep Hs. unfold tiodata_set_string_and_size.
  rewrite mem_read_ok by lia. mrun. rewrite Z2Nat.inj_0, drop_0, Nat2Z.id, firstn_all.
  rewrite u32_small by lia.
  replace (Z.to_nat (Z.of_nat (length s) + 1)) with (length s + 1)%nat by lia.
  rewrite replicate_add, <- (app_nil_l (replicate (length s) x00 ++ _)).
  rewrite mem_write_seg by (try done; len). mrun. rewrite app_nil_l.
  rewrite <- (app_nil_r (s ++ _)), <- app_assoc, mem_write_seg by (try done; len). mrun.
  eexists; split; [done|]. by eapply rep_string; simpl.
Qed.

(** ** Messages of data *)

(** Adding a value adds its field. *)
Lemma add_to_message_ok m fs id td v :
  built_as m fs -> represents td v ->
  4096 + 2 * (header_size + fields_size (fs ++ [value_field id v])) < 2 ^ 32 ->
  exists m', tio_data_add_to_pr1_message m id (Some td) = Ok m' /\
    built_as m' (fs ++ [value_field id v]).
Proof.
  intros Hb Hrep Hfit.
  destruct (pr1_message_add_field_ok m fs (value_field id v)) as (m' & E & Hb'); auto.
  { pose proof (fields_size_in (value_field id v) (fs ++ [value_field id v]) ltac:(set_solver)).
    unfold header_size in *. lia. }
  exists m'. split; [|done]. rewrite <- E. unfold tio_data_add_to_pr1_message.
  destruct Hrep as [td Ht Hs|td s Ht Hs Hz|td z Ht Hs Hz|td d Ht Hs Hd Hl]; rewrite Ht; simpl.
  - done.
  - rewrite Hs, Hz. apply pr1_message_add_field_src.
  - by rewrite Hz.
  - rewrite Hd. unfold f_size; simpl. by rewrite Hl.
Qed.

(** Reading the field of a value gives a datum that stands for it. *)
Lemma field_to_tio_data_ok blk p id v td v0 :
  points_to_field blk p (value_field id v) -> represents td v0 ->
  match v with VInt z => is_int z | VDouble d => length d = 8%nat
             | VString s => Z.of_nat (length s) < 2 ^ 32 - 1 | VNone => True end ->
  exists td', pr1_message_field_to_tio_data blk (Some p) td = Ok td' /\ represents td' v.
Proof.
  intros Hp Hrep Hv. destruct (points_to_header _ _ _ Hp) as (Et & Es & Ed).
  apply set_as_none_represents in Hrep.
  unfold pr1_message_field_to_tio_data. rewrite Et. mrun.
  destruct v as [|s|z|d]; cbn [value_field f_type MESSAGE_FIELD_TYPE_NONE MESSAGE_FIELD_TYPE_STRING
    MESSAGE_FIELD_TYPE_INT MESSAGE_FIELD_TYPE_DOUBLE TIO_DATA_TYPE_STRING TIO_DATA_TYPE_INT
    TIO_DATA_TYPE_DOUBLE] in *; cbn [Z.eqb Pos.eqb].
  - eauto.
  - rewrite Es. mrun. unfold pr1_message_field_get_buffer. rewrite Ed. mrun. cbn [f_data].
    by apply (set_string_represents _ VNone).
  - rewrite (field_get_int_ok _ _ _ _ Hp eq_refl Hv). mrun. eexists; split; [done|].
    inversion Hrep as [? Ht Hs| | |]; subst. apply rep_int; auto.
  - unfold pr1_message_field_get_double. rewrite Es. mrun. unfold f_size in *; cbn [f_data] in *.
    rewrite Hv in Ed |- *. unfold assert_. cbn [Z.eqb Z.of_nat Pos.of_succ_nat Pos.succ Pos.eqb] in *.
    mrun. change 8 with (Z.of_nat 8). rewrite Ed. mrun.
    eexists; split; [done|]. inversion Hrep as [? Ht Hs| | |]; subst. by apply rep_double.
Qed.

(** The bounds a value must meet to travel: a string shorter than 2^32 - 1
    bytes, an [int], an 8-byte double. *)
Definition value_ok (v : tio_value) : Prop :=
  match v with
  | VNone => True
  | VString s => Z.of_nat (length s) < 2 ^ 32 - 1
  | VInt z => is_int z
  | VDouble d => length d = 8%nat
  end.

Definition int_field (id z : Z) : field := value_field id (VInt z).

(** An optional argument of a command: NULL adds no field. *)
Definition opt_field (id : Z) (v : option tio_value) : list field :=
  match v with Some v => [value_field id v] | None => [] end.

Definition data_fields (command handle : Z) (key value metadata : option tio_value) : list field :=
  [int_field MESSAGE_FIELD_ID_COMMAND command; int_field MESSAGE_FIELD_ID_HANDLE handle] ++
  opt_field MESSAGE_FIELD_ID_KEY key ++ opt_field MESSAGE_FIELD_ID_VALUE value ++
  opt_field MESSAGE_FIELD_ID_METADATA metadata.

(** A [const struct TIO_DATA*] argument and the value it points to. *)
Definition opt_represents (td : option TIO_DATA) (v : option tio_value) : Prop :=
  match td, v with
  | Some td, Some v => represents td v
  | None, None => True
  | _, _ => False
  end.

Definition fits (fs : list field) : Prop := 4096 + 2 * (header_size + fields_size fs) < 2 ^ 32.

Lemma fits_app fs gs : fits (fs ++ gs) -> fits fs.
Proof. unfold fits. rewrite fields_size_app. pose proof (fields_size_nonneg gs). lia. Qed.

Lemma add_field_int_ok m fs id z :
  built_as m fs -> fits (fs ++ [int_field id z]) ->
  exists m', pr1_message_add_field_int m id z = Ok m' /\ built_as m' (fs ++ [int_field id z]).
Proof.
  intros Hb Hf. destruct (pr1_message_add_field_ok m fs (int_field id z)) as (m' & E & Hb'); auto.
  { unfold f_size; simpl. len. }
  exists m'. split; [|done]. rewrite <- E. reflexivity.
Qed.

Lemma add_opt_ok m fs id td v :
  built_as m fs -> opt_represents td v -> fits (fs ++ opt_field id v) ->
  exists m', tio_data_add_to_pr1_message m id td = Ok m' /\ built_as m' (fs ++ opt_field id v).
Proof.
  intros Hb Hrep Hf. destruct td as [td|], v as [v|]; simpl in Hrep; try done.
  - by apply add_to_message_ok.
  - exists m. simpl. by rewrite app_nil_r.
Qed.

(** The message of a command carries the command, the handle and the given data. *)
Lemma tio_generate_data_message_ok command handle key value metadata kv vv mv :
  opt_represents key kv -> opt_represents value vv -> opt_represents metadata mv ->
  fits (data_fields command handle kv vv mv) ->
  exists m, tio_generate_data_message command handle key value metadata = Ok m /\
    built_as m (data_fields command handle kv vv mv).
Proof.
  intros Hk Hv Hm Hf. unfold tio_generate_data_message, data_fields in *.
  destruct pr1_message_new_ok as (m0 & -> & Hb0). mrun.
  set (c := int_field MESSAGE_FIELD_ID_COMMAND command) in *.
  set (h := int_field MESSAGE_FIELD_ID_HANDLE handle) in *.
  change ([c; h] ++ ?x) with ([c] ++ [h] ++ x) in *. rewrite !app_assoc in *.
  pose proof (fits_app _ _ Hf) as Hf4. pose proof (fits_app _ _ Hf4) as Hf3.
  pose proof (fits_app _ _ Hf3) as Hf2. pose proof (fits_app _ _ Hf2) as Hf1.
  destruct (add_field_int_ok m0 [] MESSAGE_FIELD_ID_COMMAND command) as (m1 & -> & Hb1); auto. mrun.
  destruct (add_field_int_ok m1 [c] MESSAGE_FIELD_ID_HANDLE handle) as (m2 & -> & Hb2); auto. mrun.
  destruct (add_opt_ok m2 ([c] ++ [h]) MESSAGE_FIELD_ID_KEY key kv) as (m3 & -> & Hb3); auto. mrun.
  destruct (add_opt_ok m3 _ MESSAGE_FIELD_ID_VALUE value vv Hb3) as (m4 & -> & Hb4); auto. mrun.
  by apply add_opt_ok.
Qed.

Definition opt_ok (v : option tio_value) : Prop := forall v', v = Some v' -> value_ok v'.

(** Reading a field of a received message into a [TIO_DATA]: the value of the
    first field with that id, or none. *)
Lemma get_as_tio_data_ok r fs id td v0 (v : option tio_value) :
  parsed_as r fs -> represents td v0 ->
  find_field id fs = value_field id <$> v -> opt_ok v ->
  exists td', pr1_message_field_get_as_tio_data r id td = Ok td' /\
    represents td' (default VNone v).
Proof.
  intros Hp Hrep Hfind Hok. unfold pr1_message_field_get_as_tio_data.
  destruct (find_by_id_ok r fs id Hp) as (p & -> & Hcase). mrun. rewrite Hfind in Hcase.
  pose proof (set_as_none_represents _ _ Hrep) as Hn. destruct v as [v|]; simpl in *.
  - destruct Hcase as (q & -> & Hq). eapply field_to_tio_data_ok; eauto. by apply Hok.
  - subst p. eauto.
Qed.

Lemma field_wf_value id v :
  0 < id <= MESSAGE_FIELD_ID_MAX_VALUE -> value_ok v -> field_wf (value_field id v).
Proof.
  intros Hid Hv. split; [by destruct v|].
  split; [by destruct v|]. unfold f_size.
  destruct v; cbn [value_field f_data value_ok] in *; len.
Qed.

Lemma data_fields_wf command handle kv vv mv :
  opt_ok kv -> opt_ok vv -> opt_ok mv -> Forall field_wf (data_fields command handle kv vv mv).
Proof.
  intros Hk Hv Hm. unfold data_fields.
  repeat apply Forall_app_2; [by repeat constructor| | |];
    match goal with |- Forall _ (opt_field _ ?o) => destruct o; repeat constructor end;
    apply field_wf_value; auto; done.
Qed.

Lemma length_data_fields command handle kv vv mv :
  Z.of_nat (length (data_fields command handle kv vv mv)) <= 5.
Proof. by destruct kv, vv, mv. Qed.

(** The three data fields of a command message, by id. *)
Lemma find_data_fields command handle kv vv mv :
  let fs := data_fields command handle kv vv mv in
  find_field MESSAGE_FIELD_ID_KEY fs = value_field MESSAGE_FIELD_ID_KEY <$> kv /\
  find_field MESSAGE_FIELD_ID_VALUE fs = value_field MESSAGE_FIELD_ID_VALUE <$> vv /\
  find_field MESSAGE_FIELD_ID_METADATA fs = value_field MESSAGE_FIELD_ID_METADATA <$> mv.
Proof.
  destruct kv as [ [] |], vv as [ [] |], mv as [ [] |]; repeat split; reflexivity.
Qed.

(** A command message carries its key, value and metadata: the bytes of the
    message that [tio_generate_data_message] builds, parsed by a receiver, give
    back each datum that was passed, and none for each NULL. *)
Theorem tio_generate_data_message_roundtrip command handle key value metadata kv vv mv seq :
  opt_represents key kv -> opt_represents value vv -> opt_represents metadata mv ->
  opt_ok kv -> opt_ok vv -> opt_ok mv ->
  fits (data_fields command handle kv vv mv) ->
  exists m wire m',
    tio_generate_data_message command handle key value metadata = Ok m /\
    pr1_message_get_buffer m seq = Ok (wire, m') /\
    forall r0 post td v0, blk_of r0 = wire ++ post -> represents td v0 ->
    exists r k v md,
      pr1_message_parse r0 = Ok r /\
      pr1_message_field_get_as_tio_data r MESSAGE_FIELD_ID_KEY td = Ok k /\
      represents k (default VNone kv) /\
      pr1_message_field_get_as_tio_data r MESSAGE_FIELD_ID_VALUE td = Ok v /\
      represents v (default VNone vv) /\
      pr1_message_field_get_as_tio_data r MESSAGE_FIELD_ID_METADATA td = Ok md /\
      represents md (default VNone mv).
Proof.
  intros Hk Hv Hm Ok1 Ok2 Ok3 Hf.
  destruct (tio_generate_data_message_ok command handle key value metadata kv vv mv)
    as (m & E & Hb); auto. pose proof (length_data_fields command handle kv vv mv).
  pose proof (fields_size_nonneg (data_fields command handle kv vv mv)).
  unfold fits, header_size in Hf.
  destruct (pr1_message_get_buffer_ok m _ seq Hb) as (m' & Eb & _); [lia|unfold header_size; lia|].
  eexists m, _, m'. split; [done|]. split; [done|].
  intros r0 post td v0 Hblk Hrep.
  destruct (pr1_message_parse_ok r0 _ seq post Hblk) as (r & Er & Hp & _);
    [by apply data_fields_wf|lia|lia|].
  destruct (find_data_fields command handle kv vv mv) as (F1 & F2 & F3).
  destruct (get_as_tio_data_ok r _ _ td v0 kv Hp Hrep F1 Ok1) as (k & ? & ?).
  destruct (get_as_tio_data_ok r _ _ td v0 vv Hp Hrep F2 Ok2) as (v & ? & ?).
  destruct (get_as_tio_data_ok r _ _ td v0 mv Hp Hrep F3 Ok3) as (md & ? & ?).
  exists r, k, v, md. auto 10.
Qed.

Lemma tio_generate_data_message_roundtrip_witness :
  exists m wire m', tio_generate_data_message 0x14 5
      (Some (tiodata_set_int tiodata_init (-1))) (Some (tiodata_set_int tiodata_init 42)) None = Ok m /\
    pr1_message_get_buffer m 7 = Ok (wire, m').
Proof.
  destruct (tio_generate_data_message_roundtrip 0x14 5
    (Some (tiodata_set_int tiodata_init (-1))) (Some (tiodata_set_int tiodata_init 42)) None
    (Some (VInt (-1))) (Some (VInt 42)) None 7) as (m & wire & m' & E & Eb & _).
  - apply rep_int; unfold is_int, INT_MIN, INT_MAX; simpl; [reflexivity|reflexivity|reflexivity|lia].
  - apply rep_int; unfold is_int, INT_MIN, INT_MAX; simpl; [reflexivity|reflexivity|reflexivity|lia].
  - exact I.
  - intros v' [= <-]. unfold value_ok, is_int, INT_MIN, INT_MAX. lia.
  - intros v' [= <-]. unfold value_ok, is_int, INT_MIN, INT_MAX. lia.
  - intros v' [=].
  - vm_compute. reflexivity.
  - exists m, wire, m'. split; [exact E|exact Eb].
Defined.

End TioDataC.
