(* ===== verification/Network.v ===== *)
(** * Sockets and message transport of the C client

    [client/c/tioclient.c]: [pr1_set_last_error_description], [socket_send],
    [socket_receive], [pr1_message_send], [pr1_message_send_and_delete] and
    [pr1_message_receive], compiled for Linux.  The operating system is a
    script: for each socket the chunks [recv] will deliver, for each [send] how
    much it accepts, for each [select] which sockets are ready, and the readings
    of the clock.  A theorem that holds for every script holds for every
    behaviour of the system calls.  The message dump function is not installed
    ([g_dump_protocol_messages] is NULL), so [dump_pr1_message] returns at
    once. *)
From S2P Require Import Prelude StreamBuffer Pr1Message.

Module Net.
Import StreamBuffer Pr1.

Definition TIO_SUCCESS : Z := 0.
Definition TIO_ERROR_GENERIC : Z := -1.
Definition TIO_ERROR_NETWORK : Z := -2.
Definition TIO_ERROR_PROTOCOL : Z := -3.
Definition TIO_ERROR_MISSING_PARAMETER : Z := -4.
Definition TIO_ERROR_NO_SUCH_OBJECT : Z := -5.
Definition TIO_ERROR_TIMEOUT : Z := -6.
Definition TIO_ERROR_OUT_OF_MEMORY : Z := -7.

Definition TIO_FAILED (x : Z) : bool := x <? 0.

Definition MAX_ERROR_DESCRIPTION_SIZE : Z := 255.

(** ** The operating system *)

(** What one [recv] can find: data, or an error.  No event left means the peer
    closed the connection. *)
Inductive recv_event := Chunk (bs : bytes) | RecvError.

(** What one [select] can report. *)
Inductive select_event := SelReady (socks : list Z) | SelError.

Record world := {
  rx : gmap Z (list recv_event);
  tx : gmap Z bytes;
  send_script : list Z;
  select_script : list select_event;
  clock : list Z;
  g_last_error_description : bytes
}.

Definition set_rx (s : Z) (evs : list recv_event) (w : world) : world :=
  {| rx := <[s := evs]> (rx w); tx := tx w; send_script := send_script w;
     select_script := select_script w; clock := clock w;
     g_last_error_description := g_last_error_description w |}.

Definition script_of (w : world) (s : Z) : list recv_event := default [] (rx w !! s).

(** [recv(s, _, len, 0)]: the returned count and the bytes stored. *)
Definition recv (s len : Z) : M world (Z * bytes) := fun w =>
  match script_of w s with
  | [] => (Ok (0, []), w)
  | RecvError :: evs => (Ok (-1, []), set_rx s evs w)
  | Chunk bs :: evs =>
      let n := Z.to_nat (Z.min len (Z.of_nat (length bs))) in
      let rest := drop n bs in
      (Ok (Z.of_nat n, take n bs),
       set_rx s (match rest with [] => evs | _ => Chunk rest :: evs end) w)
  end.

(** [send(s, buffer, len, 0)]: an empty script accepts everything. *)
Definition send (s : Z) (buffer : bytes) : M world Z := fun w =>
  let len := Z.of_nat (length buffer) in
  let '(n, scr) := match send_script w with [] => (len, []) | n :: r => (Z.min n len, r) end in
  (Ok n,
   {| rx := rx w;
      tx := <[s := default [] (tx w !! s) ++ take (Z.to_nat n) buffer]> (tx w);
      send_script := scr; select_script := select_script w; clock := clock w;
      g_last_error_description := g_last_error_description w |}).

(** [select] on a read set: its return value and the sockets left set. *)
Definition select (fds : list Z) : M world (Z * list Z) := fun w =>
  let '(r, scr) :=
    match select_script w with
    | [] => ((-1, []), [])
    | SelError :: scr => ((-1, []), scr)
    | SelReady l :: scr =>
        let ready := filter (fun s => s ∈ l) fds in
        ((Z.of_nat (length ready), ready), scr)
    end in
  (Ok r, {| rx := rx w; tx := tx w; send_script := send_script w; select_script := scr;
            clock := clock w; g_last_error_description := g_last_error_description w |}).

(** [time(NULL)]: the readings in turn, the last one standing. *)
Definition time_now : M world Z := fun w =>
  match clock w with
  | [] => (Ok 0, w)
  | [t] => (Ok t, w)
  | t :: ts => (Ok t, {| rx := rx w; tx := tx w; send_script := send_script w;
                         select_script := select_script w; clock := ts;
                         g_last_error_description := g_last_error_description w |})
  end.

(** ** The client's socket layer *)

(** [strncpy(dst, description, 255); dst[254] = 0] *)
Definition set_description (description : bytes) (w : world) : world :=
  let s := c_str description in
  {| rx := rx w; tx := tx w; send_script := send_script w; select_script := select_script w;
     clock := clock w;
     g_last_error_description :=
       take 254 (take 255 (s ++ replicate 255 x00)) ++ [x00] |}.

Definition pr1_set_last_error_description (description : string) : M world unit :=
  modify (set_description (lit description)).

Definition pr1_get_last_error_description (w : world) : bytes := g_last_error_description w.

Definition socket_send (s : Z) (buffer : bytes) : M world Z :=
  ret ← send s buffer;
  if ret <=? 0 then mret TIO_ERROR_NETWORK else mret ret.

Definition network_error : string :=
  "Error reading data from server. Server is down or there is a network problem.".

(** The [while(received < len)] loop; [buf] is what has been stored in the
    caller's buffer so far.  Returns the result and the stored bytes. *)
Fixpoint socket_receive_loop (fuel : nat) (s len : Z) (timeout : option Z) (start : Z)
    (received : Z) (buf : bytes) : M world (Z * bytes) :=
  match fuel with
  | O => throw (Fault OutOfFuel)
  | S fuel =>
      if negb (received <? len) then mret (received, buf)
      else
        let receive : M world (Z * bytes) :=
          '(ret, bs) ← recv s (len - received);
          if ret <=? 0 then
            _ ← pr1_set_last_error_description network_error; mret (TIO_ERROR_NETWORK, buf)
          else socket_receive_loop fuel s len timeout start (received + ret) (buf ++ bs) in
        match timeout with
        | None => receive
        | Some t =>
            now ← time_now;
            let time_left := i32 (u32 (t - i32 (now - start))) in
            if time_left <? 0 then mret (TIO_ERROR_TIMEOUT, buf)
            else
              '(ret, _) ← select [s];
              if ret =? -1 then
                _ ← pr1_set_last_error_description network_error; mret (TIO_ERROR_NETWORK, buf)
              else if ret =? 0 then mret (TIO_ERROR_TIMEOUT, buf)
              else _ ← lift (assert_ (ret =? 1)); receive
        end
  end.

(** Every iteration but the last empties one event of the script, so its length
    bounds the iterations. *)
Definition socket_receive (s len : Z) (timeout : option Z) : M world (Z * bytes) := fun w =>
  match timeout with
  | Some _ =>
      (start ← time_now;
       socket_receive_loop (S (S (length (script_of w s)))) s len timeout start 0 []) w
  | None => socket_receive_loop (S (S (length (script_of w s)))) s len None 0 0 [] w
  end.

(** ** Messages *)

Definition pr1_message_send (s : Z) (m : PR1_MESSAGE) (debug_seq_num : Z) : M world Z :=
  '(buffer, _) ← lift (pr1_message_get_buffer m debug_seq_num);
  socket_send s buffer.

(** The deleted message is not reachable afterwards. *)
Definition pr1_message_send_and_delete (s : Z) (m : PR1_MESSAGE) (debug_seq_num : Z) : M world Z :=
  pr1_message_send s m debug_seq_num.

(** Stores received bytes at a pointer into the message's block. *)
Definition store_payload (m : PR1_MESSAGE) (p : Z) (bs : bytes) : res PR1_MESSAGE :=
  blk ← mem_write (blk_of m) p bs;
  Ok {| stream_buffer := with_block (stream_buffer m) blk;
        field_array := field_array m; field_count := field_count m |}.

Definition pr1_message_receive (s : Z) (header_timeout payload_timeout : option Z)
  : M world (Z * option PR1_MESSAGE) :=
  '(result, header) ← socket_receive s header_size header_timeout;
  if TIO_FAILED result then mret (result, None)
  else if result <? header_size then mret (TIO_ERROR_NETWORK, None)
  else
    '(m, receive_buffer) ← lift (pr1_message_new_get_buffer_for_receive header);
    message_size ← lift (read_le header 0 4);
    '(result, payload) ← socket_receive s (i32 message_size) payload_timeout;
    m ← lift (store_payload m receive_buffer payload);
    if u32 result <? message_size then mret (TIO_ERROR_NETWORK, None)
    else if TIO_FAILED result then mret (result, None)
    else
      _ ← lift (assert_ (u32 result =? message_size));
      m ← lift (pr1_message_parse m);
      mret (result, Some m).

(** ** The stream a socket delivers *)

(** The bytes that can still be received before an error or the end. *)
Fixpoint pending (evs : list recv_event) : bytes :=
  match evs with
  | Chunk (b :: bs) :: evs => (b :: bs) ++ pending evs
  | _ => []
  end.

Definition stream (w : world) (s : Z) : bytes := pending (script_of w s).

(** Everything of the world but one socket's input. *)
Definition same_but_rx (s : Z) (w w' : world) : Prop :=
  (forall s', s' <> s -> rx w' !! s' = rx w !! s') /\ tx w' = tx w /\
  send_script w' = send_script w /\ select_script w' = select_script w /\
  clock w' = clock w.

#[export] Instance same_but_rx_refl s : Reflexive (same_but_rx s).
Proof. by intros w. Qed.

#[export] Instance same_but_rx_trans s : Transitive (same_but_rx s).
Proof.
  intros w1 w2 w3 (H1&H2&H3&H4&H5) (H1'&H2'&H3'&H4'&H5').
  split; [intros; by rewrite H1', H1 by done|]. repeat split; congruence.
Qed.

Lemma script_of_set_rx s evs w : script_of (set_rx s evs w) s = evs.
Proof. unfold script_of, set_rx; simpl. by rewrite lookup_insert_eq. Qed.

Lemma same_but_rx_set s evs w : same_but_rx s w (set_rx s evs w).
Proof. split; [|done]. intros s' Hs. simpl. by rewrite lookup_insert_ne. Qed.

(** One [recv] delivers a non-empty prefix of the stream, or fails at its end. *)
Lemma recv_stream s n w :
  0 < n ->
  exists ret bs w', recv s n w = (Ok (ret, bs), w') /\ same_but_rx s w w' /\
    g_last_error_description w' = g_last_error_description w /\
    ((stream w s = [] /\ ret <= 0) \/
     (stream w s = bs ++ stream w' s /\ 0 < ret <= n /\ Z.of_nat (length bs) = ret /\
      (ret = n \/ (length (script_of w' s) < length (script_of w s))%nat))).
Proof.
  intros Hn. unfold recv, stream.
  destruct (script_of w s) as [|[bs|] evs] eqn:E.
  - eexists _, _, w. split; [done|]. split; [done|]. split; [done|]. left. split; [done|lia].
  - eexists _, _, _. split; [done|]. split; [apply same_but_rx_set|]. split; [done|].
    destruct bs as [|b bs].
    { left. split; [done|]. simpl. lia. }
    right. rewrite script_of_set_rx. set (k := Z.to_nat (Z.min n _)).
    assert (Hk : (0 < k <= length (b :: bs))%nat) by (subst k; simpl length; lia).
    split; [|split; [subst k; lia|split; [len|]]].
    + destruct (drop k (b :: bs)) as [|c cs] eqn:Ed.
      * assert (take k (b :: bs) = b :: bs) as ->; [|done].
        rewrite <- (take_drop k (b :: bs)) at 2. by rewrite Ed, app_nil_r.
      * cbn [pending]. rewrite <- Ed, app_assoc, take_drop. done.
    + destruct (decide (Z.of_nat k = n)); [by left|]. right.
      rewrite drop_ge by (subst k; lia). simpl. lia.
  - eexists _, _, _. split; [done|]. split; [apply same_but_rx_set|]. split; [done|].
    left. split; [done|lia].
Qed.

(** Without a timeout the loop returns exactly the requested bytes, in stream
    order, or fails with what there was. *)
Lemma socket_receive_loop_spec fuel : forall s len received buf w,
  (length (script_of w s) + 2 <= fuel)%nat \/ ((1 <= fuel)%nat /\ len <= received) ->
  received <= len ->
  exists w', same_but_rx s w w' /\
    let missing := len - received in
    if missing <=? Z.of_nat (length (stream w s)) then
      socket_receive_loop fuel s len None 0 received buf w
      = (Ok (len, buf ++ take (Z.to_nat missing) (stream w s)), w') /\
      stream w' s = drop (Z.to_nat missing) (stream w s) /\
      g_last_error_description w' = g_last_error_description w
    else
      socket_receive_loop fuel s len None 0 received buf w
      = (Ok (TIO_ERROR_NETWORK, buf ++ stream w s), w').
Proof.
  induction fuel as [|fuel IH]; intros s len received buf w Hfuel Hle; [lia|].
  cbn [socket_receive_loop].
  destruct (received <? len) eqn:E; bool_to_prop; cbn [negb].
  2:{ exists w. split; [done|]. simpl. ztest. replace received with len by lia.
      replace (len - len) with 0 by lia. simpl. by rewrite app_nil_r. }
  destruct (recv_stream s (len - received) w) as (ret & bs & w1 & Er & Hsb & Hg & Hcase); [lia|].
  cbn zeta. mstep Er.
  destruct Hcase as [[Hs Hret]|(Hs & Hret & Hbs & Hprog)].
  - ztest. eexists. split.
    2:{ rewrite Hs. simpl length. ztest. rewrite app_nil_r. reflexivity. }
    etrans; [done|]. by repeat split.
  - ztest. destruct (IH s len (received + ret) (buf ++ bs) w1) as (w2 & Hsb2 & H2); [lia|lia|].
    exists w2. split; [by etrans|]. cbn zeta in H2. rewrite Hs.
    replace (len - (received + ret)) with (len - received - ret) in H2 by lia.
    destruct (len - received - ret <=? Z.of_nat (length (stream w1 s))) eqn:E2; bool_to_prop.
    + ztest. destruct H2 as (H2 & H3 & H4). rewrite H2, H3, H4, <- app_assoc.
      rewrite take_app_ge, drop_app_ge by lia.
      replace (Z.to_nat (len - received) - length bs)%nat with (Z.to_nat (len - received - ret)) by lia.
      done.
    + ztest. by rewrite H2, <- app_assoc.
Qed.

Lemma socket_receive_spec s len w :
  0 <= len ->
  exists w', same_but_rx s w w' /\
    if len <=? Z.of_nat (length (stream w s)) then
      socket_receive s len None w = (Ok (len, take (Z.to_nat len) (stream w s)), w') /\
      stream w' s = drop (Z.to_nat len) (stream w s) /\
      g_last_error_description w' = g_last_error_description w
    else socket_receive s len None w = (Ok (TIO_ERROR_NETWORK, stream w s), w').
Proof.
  intros Hl. unfold socket_receive.
  destruct (socket_receive_loop_spec (S (S (length (script_of w s)))) s len 0 [] w)
    as (w' & Hsb & H); [lia|lia|]. exists w'. split; [done|]. cbn zeta in H.
  by rewrite Z.sub_0_r in H.
Qed.

(** A negative length (a payload size above [INT_MAX]) receives nothing. *)
Lemma socket_receive_negative s len w : len <= 0 -> socket_receive s len None w = (Ok (0, []), w).
Proof. intros H. unfold socket_receive. cbn [socket_receive_loop]. by ztest. Qed.

(** ** Receiving a message *)

Lemma pr1_message_new_shape :
  exists m, pr1_message_new = Ok m /\ sb_wf (stream_buffer m) /\
    buffer_size (stream_buffer m) = 4096 /\ field_array m = None /\ field_count m = 0.
Proof.
  destruct pr1_message_new_ok as (m & E & [Hwf _ _ Harr _]). exists m. split; [done|].
  split; [done|]. vm_compute in E. injection E as <-. done.
Qed.

Lemma seek_start_wf sb : sb_wf sb -> 0 < buffer_size sb ->
  exists sb', stream_buffer_seek sb 0 = (0, sb') /\ sb_wf sb' /\ sb_data sb' = [] /\
    buffer_size sb' = buffer_size sb.
Proof.
  intros (Hl & Hc & Hm) Hp. unfold stream_buffer_seek. ztest. eexists; split; [done|].
  split; [|done]. split; cbn [current buffer buffer_size]; lia.
Qed.

(** Writing the received header over the fresh one does not reallocate. *)
Lemma write_header_keeps sb header :
  sb_wf sb -> sb_data sb = [] -> 8 <= buffer_size sb < 2 ^ 31 -> length header = 8%nat ->
  exists sb', stream_buffer_write sb header 8 = Ok sb' /\ sb_wf sb' /\
    buffer_size sb' = buffer_size sb /\ sb_data sb' = header.
Proof.
  intros Hwf Hd Hbs Hh.
  destruct (stream_buffer_write_ok sb header) as (sb1 & E1 & Hwf1 & Hd1 & _); [done|lia|].
  rewrite Hh in E1. change (Z.of_nat 8) with 8 in E1. exists sb1. split; [done|]. split; [done|].
  split; [|by rewrite Hd1, Hd].
  revert E1. unfold stream_buffer_write, stream_buffer_ensure_space_left.
  pose proof (sb_data_length _ Hwf) as Hc. rewrite Hd in Hc.
  rewrite space_used_wf by done. rewrite u32_small by (destruct Hwf as (?&?&?); lia).
  ztest. mrun. destruct (mem_read header 0 8); mrun; [|done].
  destruct (mem_write (buffer sb) _ _); mrun; [|done]. by intros [= <-].
Qed.

(** The message prepared for a payload: the header is in place and there is room
    for the payload behind it. *)
Lemma new_get_buffer_for_receive_ok header size :
  length header = 8%nat -> read_le header 0 4 = Ok size -> 0 <= size ->
  4096 + 2 * size < 2 ^ 32 ->
  exists m room post, pr1_message_new_get_buffer_for_receive header = Ok (m, 8) /\
    blk_of m = header ++ room ++ post /\ Z.of_nat (length room) = size.
Proof.
  intros Hh Hsz H0 Hfit.
  destruct pr1_message_new_shape as (m & E & Hwf & Hbs & Harr & Hcnt).
  destruct (seek_start_wf _ Hwf) as (sb0 & E0 & Hwf0 & Hd0 & Hbs0); [lia|].
  unfold pr1_message_new_get_buffer_for_receive. rewrite E. mrun. rewrite E0.
  destruct (write_header_keeps sb0 header) as (sb1 & E1 & Hwf1 & Hbs1 & Hd1); auto; [lia|].
  unfold header_size. rewrite E1. mrun. rewrite Hsz. mrun.
  pose proof (sb_data_length _ Hwf1) as Hc1. rewrite Hd1, Hh in Hc1.
  destruct (get_write_pointer_ok sb1 size) as (sb2 & room & E2 & Hwf2 & Hd2 & Hr & Hbs2); [done|lia|lia|].
  rewrite E2. mrun. rewrite <- Hc1. simpl Z.of_nat.
  eexists _, room, (drop (8 + length room) (buffer sb2)). split; [done|]. split; [|done].
  unfold blk_of; cbn [stream_buffer].
  rewrite app_assoc, <- Hd1, <- Hd2. unfold sb_data.
  rewrite <- (take_drop (8 + length room) (buffer sb2)) at 1. f_equal. f_equal.
  pose proof (sb_data_length _ Hwf2) as Hc2. rewrite Hd2, Hd1 in Hc2. len.
Qed.

Lemma read_size_header fs seq :
  fields_size fs < 2 ^ 32 ->
  read_le (take 8 (enc_message fs seq)) 0 4 = Ok (fields_size fs).
Proof.
  intros H. pose proof (fields_size_nonneg fs). unfold enc_message.
  rewrite !app_assoc, take_app_length' by len. rewrite <- !app_assoc.
  rewrite <- (app_nil_l (le_encode 4 _ ++ _)), read_le_seg by done.
  f_equal. apply Z.mod_small. simpl. lia.
Qed.

(** A whole message at the front of the stream is received, whatever chunks it
    arrives in, and the stream is left at the next message. *)
Lemma pr1_message_receive_ok s fs seq rest w :
  stream w s = enc_message fs seq ++ rest ->
  Forall field_wf fs -> Z.of_nat (length fs) < 2 ^ 16 -> 4096 + 2 * fields_size fs < 2 ^ 32 ->
  exists m w', pr1_message_receive s None None w = (Ok (fields_size fs, Some m), w') /\
    parsed_as m fs /\ stream w' s = rest /\ same_but_rx s w w' /\
    g_last_error_description w' = g_last_error_description w.
Proof.
  intros Hst Hwf Hn Hfit. pose proof (fields_size_nonneg fs) as Hnn.
  assert (Hlen : Z.of_nat (length (enc_message fs seq)) = 8 + fields_size fs)
    by (unfold enc_message, fields_size; len).
  unfold pr1_message_receive, header_size, TIO_FAILED.
  destruct (socket_receive_spec s 8 w) as (w1 & Hsb1 & H1); [lia|].
  rewrite Hst in H1. revert H1. ztest. intros (E1 & Hs1 & Hg1). mstep E1. cbn iota beta.
  ztest. change (Z.to_nat 8) with 8%nat in *.
  assert (Hhdr : take 8 (enc_message fs seq ++ rest) = take 8 (enc_message fs seq))
    by (apply take_app_le; lia).
  rewrite Hhdr.
  destruct (new_get_buffer_for_receive_ok (take 8 (enc_message fs seq)) (fields_size fs))
    as (m & room & post & Em & Hblk & Hroom); [len|apply read_size_header; lia|lia|lia|].
  mstep Em. cbn iota beta. rewrite (bind_lift_ok _ _ _ _ (read_size_header fs seq ltac:(lia))).
  rewrite i32_small by (unfold is_int, INT_MIN, INT_MAX; lia).
  destruct (socket_receive_spec s (fields_size fs) w1) as (w2 & Hsb2 & H2); [lia|].
  assert (Hs1' : stream w1 s = enc_fields fs ++ rest).
  { rewrite Hs1. unfold enc_message. rewrite !app_assoc, <- app_assoc, drop_app_length' by len. done. }
  assert (Hefs : Z.of_nat (length (enc_fields fs)) = fields_size fs) by done.
  rewrite Hs1' in H2. revert H2. ztest. intros (E2 & Hs2 & Hg2). mstep E2. cbn iota beta.
  rewrite take_app_length' in E2 |- * by lia.
  rewrite drop_app_length' in Hs2 by lia.
  assert (Est : store_payload m 8 (enc_fields fs) = Ok {| stream_buffer := with_block (stream_buffer m)
      (take 8 (enc_message fs seq) ++ enc_fields fs ++ post);
      field_array := field_array m; field_count := field_count m |}).
  { unfold store_payload. rewrite Hblk, mem_write_seg by len. done. }
  mstep Est. rewrite u32_small by lia. ztest.
  unfold assert_. ztest. rewrite (bind_lift_ok _ _ _ tt eq_refl).
  destruct (pr1_message_parse_ok {| stream_buffer := with_block (stream_buffer m)
      (take 8 (enc_message fs seq) ++ enc_fields fs ++ post);
      field_array := field_array m; field_count := field_count m |} fs seq post)
    as (m' & Ep & Hp & _); auto; [lia|].
  mstep Ep. exists m', w2. split; [done|]. split; [done|]. split; [done|].
  split; [by etrans|congruence].
Qed.

(** ** Receiving with a timeout *)

(** [select] and [time] leave the sockets alone. *)
Lemma select_one s w : exists r rdy w', select [s] w = (Ok (r, rdy), w') /\
  rx w' = rx w /\ (r = -1 \/ r = 0 \/ r = 1).
Proof.
  unfold select. destruct (select_script w) as [|[l|] scr];
    (eexists _, _, _; split; [reflexivity|]; split; [done|]); auto.
  rewrite filter_cons, filter_nil. case_decide; simpl; auto.
Qed.

Lemma time_now_rx w : exists t w', time_now w = (Ok t, w') /\ rx w' = rx w.
Proof. unfold time_now. destruct (clock w) as [|t [|]]; eauto. Qed.

Lemma script_of_rx w w' s : rx w' = rx w -> script_of w' s = script_of w s.
Proof. unfold script_of. by intros ->. Qed.

(** The results of the receive loop, with or without a timeout. *)
Definition recv_result (len r : Z) : Prop :=
  r = len \/ r = TIO_ERROR_NETWORK \/ r = TIO_ERROR_TIMEOUT.

Lemma socket_receive_loop_total fuel : forall s len t start received buf w,
  (length (script_of w s) + 2 <= fuel)%nat \/ ((1 <= fuel)%nat /\ len <= received) ->
  received <= len ->
  exists r bs w', socket_receive_loop fuel s len t start received buf w = (Ok (r, bs), w') /\
    recv_result len r.
Proof.
  induction fuel as [|fuel IH]; intros s len t start received buf w Hfuel Hle; [lia|].
  cbn [socket_receive_loop]. unfold recv_result.
  destruct (received <? len) eqn:E; bool_to_prop; cbn [negb]; cbn zeta.
  2:{ eexists _, _, _. split; [reflexivity|]. left. lia. }
  assert (Hrecv : forall w0, rx w0 = rx w -> exists r bs w',
    ('(ret, bs0) ← recv s (len - received);
     if ret <=? 0 then _ ← pr1_set_last_error_description network_error; mret (TIO_ERROR_NETWORK, buf)
     else socket_receive_loop fuel s len t start (received + ret) (buf ++ bs0)) w0
    = (Ok (r, bs), w') /\ recv_result len r).
  { intros w0 Hw0. rewrite <- (script_of_rx _ _ s Hw0) in Hfuel.
    destruct (recv_stream s (len - received) w0) as (ret & bs & w1 & Er & _ & _ & Hcase); [lia|].
    mstep Er. destruct Hcase as [ [_ Hret] | (_ & Hret & _ & Hprog)]; ztest.
    - eexists _, _, _. split; [reflexivity|]. unfold recv_result. auto.
    - destruct (IH s len t start (received + ret) (buf ++ bs) w1) as (r & bs' & w' & ? & ?);
        [lia|lia|eauto]. }
  destruct t as [t|]; [|by apply Hrecv].
  destruct (time_now_rx w) as (now & w1 & En & Hw1). mstep En.
  case_match; [eexists _, _, _; split; [reflexivity|]; auto|].
  destruct (select_one s w1) as (r & rdy & w2 & Es & Hw2 & Hr). mstep Es. cbn iota beta.
  destruct Hr as [-> | [-> | ->]]; cbn [Z.eqb Pos.eqb].
  - eexists _, _, _; split; [reflexivity|]; auto.
  - eexists _, _, _; split; [reflexivity|]; auto.
  - rewrite (bind_lift_ok _ _ _ tt eq_refl). apply Hrecv. congruence.
Qed.

(** ** Properties *)

(** C11. A message built field by field and sent is, when its bytes arrive at the
    other end in any fragmentation, received as a message with exactly those
    fields in that order, and the stream is left at the byte after it. *)
Theorem pr1_message_roundtrip fs seq s w :
  Forall field_wf fs -> Z.of_nat (length fs) < 2 ^ 16 ->
  4096 + 2 * (header_size + fields_size fs) < 2 ^ 32 -> send_script w = [] ->
  exists m w' wire,
    (m ← pr1_message_new; add_fields m fs) = Ok m /\
    pr1_message_send s m seq w = (Ok (header_size + fields_size fs), w') /\
    tx w' !! s = Some (default [] (tx w !! s) ++ wire) /\
    forall s2 w2 rest, stream w2 s2 = wire ++ rest ->
    exists r arr w2',
      pr1_message_receive s2 None None w2 = (Ok (fields_size fs, Some r), w2') /\
      stream w2' s2 = rest /\ field_array r = Some arr /\
      field_at (blk_of r) <$> arr = Ok <$> fs.
Proof.
  intros Hwf Hn Hfit Hsend. pose proof (fields_size_nonneg fs).
  destruct pr1_message_new_ok as (m0 & E0 & Hb0).
  destruct (add_fields_ok fs m0 []) as (m & Em & Hb); [done|done|].
  destruct (pr1_message_get_buffer_ok m fs seq) as (m' & Eb & _); [done|done|unfold header_size in *; lia|].
  assert (Hl : Z.of_nat (length (enc_message fs seq)) = header_size + fields_size fs)
    by (unfold enc_message, fields_size, header_size; len).
  unfold header_size in *. eexists m, _, (enc_message fs seq). split; [by rewrite E0|]. split.
  { unfold pr1_message_send. mstep Eb. cbn iota beta. unfold socket_send, mbind, M_bind, send.
    rewrite Hsend, Hl. ztest. reflexivity. }
  split; [simpl; rewrite lookup_insert_eq, Z2Nat.inj_add, take_ge by lia; done|].
  intros s2 w2 rest Hst.
  destruct (pr1_message_receive_ok s2 fs seq rest w2) as (r & w2' & Er & Hp & Hs & _);
    [done|done|done|lia|].
  destruct Hp as [(pre & post & Hblk & Hpre) Harr _ _].
  eexists r, _, w2'. split; [done|]. split; [done|]. split; [done|].
  rewrite Hblk. replace header_size with (Z.of_nat (length pre)) by by rewrite Hpre.
  by apply fields_at_offsets.
Qed.

(** How the bytes are cut into chunks never shows: two scripts that deliver
    the same stream give the same result, the same bytes and the same rest. *)
Theorem socket_receive_chunking s len w1 w2 :
  0 <= len -> stream w1 s = stream w2 s ->
  fst (socket_receive s len None w1) = fst (socket_receive s len None w2) /\
  (len <= Z.of_nat (length (stream w1 s)) ->
   stream (snd (socket_receive s len None w1)) s = stream (snd (socket_receive s len None w2)) s).
Proof.
  intros Hl Heq.
  destruct (socket_receive_spec s len w1 Hl) as (w1' & _ & H1).
  destruct (socket_receive_spec s len w2 Hl) as (w2' & _ & H2).
  rewrite <- Heq in H2. destruct (_ <=? _) eqn:E; bool_to_prop.
  - destruct H1 as (-> & Hs1 & _), H2 as (-> & Hs2 & _). simpl. split; congruence.
  - rewrite H1, H2. simpl. split; [done|lia].
Qed.

(** A connection that ends in the middle of a message gives
    [TIO_ERROR_NETWORK] and no message, never a partial one. *)
Theorem pr1_message_receive_truncated s fs seq k w :
  stream w s = take k (enc_message fs seq) -> (k < length (enc_message fs seq))%nat ->
  4096 + 2 * fields_size fs < 2 ^ 32 ->
  exists w', pr1_message_receive s None None w = (Ok (TIO_ERROR_NETWORK, None), w').
Proof.
  intros Hst Hk Hfit. pose proof (fields_size_nonneg fs).
  assert (Hlen : Z.of_nat (length (enc_message fs seq)) = 8 + fields_size fs)
    by (unfold enc_message, fields_size; len).
  unfold pr1_message_receive, header_size.
  destruct (socket_receive_spec s 8 w) as (w1 & _ & H1); [lia|]. rewrite Hst in H1.
  destruct (8 <=? _) eqn:E8; bool_to_prop.
  2:{ mstep H1. by eexists. }
  rewrite length_take in E8. destruct H1 as (E1 & Hs1 & _). mstep E1. cbn iota beta.
  unfold TIO_FAILED. ztest. change (Z.to_nat 8) with 8%nat in *.
  rewrite take_take, Nat.min_l by lia.
  destruct (new_get_buffer_for_receive_ok (take 8 (enc_message fs seq)) (fields_size fs))
    as (m & room & post & Em & Hblk & Hroom); [len|apply read_size_header; lia|lia|lia|].
  mstep Em. cbn iota beta. rewrite (bind_lift_ok _ _ _ _ (read_size_header fs seq ltac:(lia))).
  rewrite i32_small by (unfold is_int, INT_MIN, INT_MAX; lia).
  destruct (socket_receive_spec s (fields_size fs) w1) as (w2 & _ & H2); [lia|].
  assert (Hshort : Z.of_nat (length (stream w1 s)) < fields_size fs).
  { rewrite Hs1. len. }
  revert H2. ztest. intros E2. mstep E2. cbn iota beta.
  destruct (store_payload m 8 (stream w1 s)) as [m'|e] eqn:Est.
  - rewrite (bind_lift_ok _ _ _ _ eq_refl). unfold TIO_ERROR_NETWORK.
    change (u32 (-2)) with 4294967294. ztest. by eexists.
  - exfalso. revert Est. unfold store_payload, mem_write. rewrite Hblk.
    ztest. by mrun.
Qed.

(** With or without a timeout, [socket_receive] always returns, and what it
    returns is the whole length or an error: never a smaller count. *)
Theorem socket_receive_all_or_error s len timeout w :
  0 <= len ->
  exists r bs w', socket_receive s len timeout w = (Ok (r, bs), w') /\ recv_result len r.
Proof.
  intros Hl. unfold socket_receive. destruct timeout as [t|].
  - destruct (time_now_rx w) as (start & w1 & Et & Hw1). mstep Et.
    apply socket_receive_loop_total; [|done]. rewrite (script_of_rx _ _ s Hw1). lia.
  - apply socket_receive_loop_total; [lia|done].
Qed.

(** C38. A header that announces a payload of 2^31 - 2048 to 2^31 - 1 bytes makes
    the size of the new block wrap around to less than the old one, and the copy
    of the old block runs past its end. *)
Theorem pr1_message_receive_size_overflow s header size rest w :
  length header = 8%nat -> read_le header 0 4 = Ok size ->
  2 ^ 31 - 2048 <= size < 2 ^ 31 -> stream w s = header ++ rest ->
  exists w', pr1_message_receive s None None w = (Throw (Fault OutOfBounds), w').
Proof.
  intros Hh Hsz Hr Hst. unfold pr1_message_receive, header_size.
  destruct (socket_receive_spec s 8 w) as (w1 & _ & H1); [lia|]. rewrite Hst in H1.
  revert H1. ztest. intros (E1 & _). mstep E1. cbn iota beta. unfold TIO_FAILED. ztest.
  rewrite take_app_length' by done.
  destruct pr1_message_new_shape as (m & E & Hwf & Hbs & _).
  destruct (seek_start_wf _ Hwf) as (sb0 & E0 & Hwf0 & Hd0 & Hbs0); [lia|].
  assert (Ef : pr1_message_new_get_buffer_for_receive header = Throw (Fault OutOfBounds)).
  { unfold pr1_message_new_get_buffer_for_receive. rewrite E. mrun. rewrite E0.
    destruct (write_header_keeps sb0 header) as (sb1 & E1' & Hwf1 & Hbs1 & Hc1); auto; [lia|].
    unfold header_size. rewrite E1'. mrun. rewrite Hsz. mrun.
    unfold stream_buffer_get_write_pointer.
    rewrite (ensure_space_left_wraps sb1 size); [done|done|destruct Hwf1 as (?&?&?); lia|].
    rewrite Hbs1, Hbs0, Hbs. unfold u32.
    rewrite (Z.mod_small (size * 2)) by lia.
    rewrite <- (Z.mod_add _ (-1)), Z.mod_small by lia. lia. }
  rewrite (bind_lift_throw _ _ _ _ Ef). by eexists.
Qed.

(** ** Witnesses *)

(** A world in which socket 3 delivers the given events. *)
Definition ex_world (evs : list recv_event) : world :=
  {| rx := {[3 := evs]}; tx := ∅; send_script := []; select_script := []; clock := [];
     g_last_error_description := replicate 255 x00 |}.

(** A ping: command 0x10 and a value. *)
Definition ex_fields : list field :=
  [ {| f_id := MESSAGE_FIELD_ID_COMMAND; f_type := MESSAGE_FIELD_TYPE_INT; f_data := le_encode 4 0x10 |};
    {| f_id := MESSAGE_FIELD_ID_VALUE; f_type := MESSAGE_FIELD_TYPE_STRING; f_data := lit "payload" |} ].

Lemma ex_fields_wf : Forall field_wf ex_fields.
Proof. unfold ex_fields, field_wf, f_size. repeat constructor; vm_compute; congruence. Defined.

Lemma pr1_message_roundtrip_witness :
  exists m w' wire, (m ← pr1_message_new; add_fields m ex_fields) = Ok m /\
    pr1_message_send 3 m 7 (ex_world []) = (Ok 35, w') /\ tx w' !! 3 = Some wire.
Proof.
  destruct (pr1_message_roundtrip ex_fields 7 3 (ex_world [])) as (m & w' & wire & E & Es & Et & _).
  - apply ex_fields_wf.
  - vm_compute. reflexivity.
  - vm_compute. reflexivity.
  - reflexivity.
  - exists m, w', wire. split; [exact E|]. split; [exact Es|exact Et].
Defined.

Lemma socket_receive_chunking_witness :
  fst (socket_receive 3 5 None (ex_world [Chunk (lit "go"); Chunk (lit "ing binary")]))
  = fst (socket_receive 3 5 None (ex_world [Chunk (lit "goin"); Chunk (lit "g b"); Chunk (lit "inary")])).
Proof.
  refine (proj1 (socket_receive_chunking 3 5 _ _ _ _)); [lia|]. vm_compute. reflexivity.
Defined.

Lemma pr1_message_receive_truncated_witness :
  exists w', pr1_message_receive 3 None None
    (ex_world [Chunk (take 5 (enc_message ex_fields 0)); Chunk (drop 5 (take 20 (enc_message ex_fields 0)))])
  = (Ok (TIO_ERROR_NETWORK, None), w').
Proof.
  apply (pr1_message_receive_truncated 3 ex_fields 0 20); vm_compute; try reflexivity; lia.
Defined.

Lemma socket_receive_all_or_error_witness :
  exists r bs w', socket_receive 3 8 (Some 5) (ex_world [Chunk (lit "abc")]) = (Ok (r, bs), w') /\
    recv_result 8 r.
Proof. apply (socket_receive_all_or_error 3 8 (Some 5)). lia. Defined.

Lemma pr1_message_receive_size_overflow_witness :
  exists w', pr1_message_receive 3 None None
    (ex_world [Chunk (le_encode 4 0x7FFFFFFF ++ le_encode 2 1 ++ le_encode 2 0)])
  = (Throw (Fault OutOfBounds), w').
Proof.
  apply (pr1_message_receive_size_overflow 3 (le_encode 4 0x7FFFFFFF ++ le_encode 2 1 ++ le_encode 2 0)
    0x7FFFFFFF []); [vm_compute; reflexivity|vm_compute; reflexivity|lia|vm_compute; reflexivity].
Defined.

End Net.
