(* ===== verification/EventQueue.v ===== *)
(** * The queue of pending events

    [client/c/tioclient.c]: [struct EVENT_INFO_NODE], [events_list_push],
    [event_list_is_empty] and [events_list_pop].  The code keeps a circular
    singly linked list and a pointer to its last node, whose [next] is the first.
    The nodes are modelled as a heap, a map from addresses; [free] removes the
    address, so that using it afterwards is a fault.  The queue that a reader of
    the code has in mind, a list served first in first out, is the abstract
    specification, and the linked list refines it. *)
From S2P Require Import Prelude StreamBuffer Pr1Message.

Module EventQueue.
Import Pr1.

Record EVENT_INFO_NODE := { next : Z; message : PR1_MESSAGE }.

(** The part of [TIO_CONNECTION] the functions use; [next_node] is the address
    the next [malloc] returns. *)
Record event_queue := {
  nodes : gmap Z EVENT_INFO_NODE;
  event_list_queue_end : option Z;
  pending_event_count : Z;
  next_node : Z
}.

Definition empty_queue : event_queue :=
  {| nodes := ∅; event_list_queue_end := None; pending_event_count := 0; next_node := 1 |}.

Definition deref (h : gmap Z EVENT_INFO_NODE) (p : Z) : res EVENT_INFO_NODE :=
  match h !! p with Some n => Ok n | None => Throw (Fault UseAfterFree) end.

Definition events_list_push (q : event_queue) (m : PR1_MESSAGE) : res event_queue :=
  let node := next_node q in
  h ← match event_list_queue_end q with
      | None => Ok (<[node := {| next := node; message := m |}]> (nodes q))
      | Some e =>
          en ← deref (nodes q) e;
          let h := <[node := {| next := next en; message := m |}]> (nodes q) in
          en ← deref h e;
          Ok (<[e := {| next := node; message := message en |}]> h)
      end;
  Ok {| nodes := h; event_list_queue_end := Some node;
        pending_event_count := pending_event_count q + 1; next_node := node + 1 |}.

Definition event_list_is_empty (q : event_queue) : bool :=
  match event_list_queue_end q with None => true | Some _ => false end.

Definition events_list_pop (q : event_queue) : res (option PR1_MESSAGE * event_queue) :=
  match event_list_queue_end q with
  | None => Ok (None, q)
  | Some e =>
      en ← deref (nodes q) e;
      let first := next en in
      '(h, e') ←
        (if next en =? e then Ok (nodes q, None)
         else
           nn ← deref (nodes q) (next en);
           Ok (<[e := {| next := next nn; message := message en |}]> (nodes q), Some e));
      fn ← deref h first;
      Ok (Some (message fn),
          {| nodes := delete first h; event_list_queue_end := e';
             pending_event_count := pending_event_count q - 1; next_node := next_node q |})
  end.

(** ** The specification: a list of messages *)

Module Spec.
Definition push (msgs : list PR1_MESSAGE) (m : PR1_MESSAGE) : list PR1_MESSAGE := msgs ++ [m].
Definition pop (msgs : list PR1_MESSAGE) : option PR1_MESSAGE * list PR1_MESSAGE :=
  match msgs with [] => (None, []) | m :: msgs => (Some m, msgs) end.
End Spec.

(** ** Representation *)

(** The addresses of [pms] are linked in order, the last one to [nxt]. *)
Fixpoint seg (h : gmap Z EVENT_INFO_NODE) (pms : list (Z * PR1_MESSAGE)) (nxt : Z) : Prop :=
  match pms with
  | [] => True
  | (p, m) :: t =>
      h !! p = Some {| next := match t with (q, _) :: _ => q | [] => nxt end; message := m |} /\
      seg h t nxt
  end.

Definition head_ptr (pms : list (Z * PR1_MESSAGE)) : Z :=
  match pms with (p, _) :: _ => p | [] => 0 end.

(** The queue holds the nodes [pms] in a ring, and no other node is allocated. *)
Record ring (q : event_queue) (pms : list (Z * PR1_MESSAGE)) : Prop := {
  ring_seg : seg (nodes q) pms (head_ptr pms);
  ring_end : event_list_queue_end q = fst <$> last pms;
  ring_nodup : NoDup pms.*1;
  ring_dom : forall p, p ∈ dom (nodes q) <-> p ∈ pms.*1;
  ring_fresh : Forall (fun p => p < next_node q) pms.*1
}.

Definition represents (q : event_queue) (msgs : list PR1_MESSAGE) : Prop :=
  exists pms, ring q pms /\ pms.*2 = msgs.

Lemma empty_queue_represents : represents empty_queue [].
Proof. exists []. split; [|done]. split; simpl; try done; [constructor | set_solver]. Qed.

(** Nodes outside a segment do not matter to it. *)
Lemma seg_insert_ne h pms nxt p n : p ∉ pms.*1 -> seg h pms nxt -> seg (<[p := n]> h) pms nxt.
Proof.
  induction pms as [|[q m] t IH]; [done|]. cbn [seg fmap list_fmap fst].
  intros Hp [H1 H2]. split; [rewrite lookup_insert_ne; [done|set_solver]|]. apply IH; set_solver.
Qed.

Lemma seg_delete_ne h pms nxt p : p ∉ pms.*1 -> seg h pms nxt -> seg (delete p h) pms nxt.
Proof.
  induction pms as [|[q m] t IH]; [done|]. cbn [seg fmap list_fmap fst].
  intros Hp [H1 H2]. split; [rewrite lookup_delete_ne; [done|set_solver]|]. apply IH; set_solver.
Qed.

(** Redirecting the last node of a segment. *)
Lemma seg_relink h pms e m nxt nxt' :
  e ∉ pms.*1 -> seg h (pms ++ [(e, m)]) nxt ->
  seg (<[e := {| next := nxt'; message := m |}]> h) (pms ++ [(e, m)]) nxt'.
Proof.
  induction pms as [|[q mq] t IH]; cbn [seg fmap list_fmap fst app].
  - intros _ [H _]. split; [|done]. by rewrite lookup_insert_eq.
  - intros Hp [H1 H2]. split.
    + rewrite lookup_insert_ne by set_solver. rewrite H1. by destruct t as [|[]].
    + apply IH; [set_solver|done].
Qed.

Lemma seg_last h pms e m nxt : seg h (pms ++ [(e, m)]) nxt -> h !! e = Some {| next := nxt; message := m |}.
Proof. induction pms as [|[q mq] t IH]; cbn [seg app]; intros [H1 H2]; auto. Qed.

Lemma seg_snoc h pms e m p mp nxt :
  seg h (pms ++ [(e, m)]) p -> h !! p = Some {| next := nxt; message := mp |} ->
  seg h ((pms ++ [(e, m)]) ++ [(p, mp)]) nxt.
Proof.
  induction pms as [|[q mq] t IH]; cbn [seg app]; [by intros [H1 _] H2|].
  intros [H1 H2] H3. split; [|by apply IH]. rewrite H1. by destruct t as [|[]].
Qed.

Lemma deref_ok h p n : h !! p = Some n -> deref h p = Ok n.
Proof. unfold deref. by intros ->. Qed.

(** Pushing appends a node to the ring. *)
Lemma push_ring q pms m :
  ring q pms ->
  exists q', events_list_push q m = Ok q' /\ ring q' (pms ++ [(next_node q, m)]) /\
    pending_event_count q' = pending_event_count q + 1.
Proof.
  intros [Hseg Hend Hnd Hdom Hfr]. unfold events_list_push.
  assert (Hnew : next_node q ∉ pms.*1).
  { intros Hin. rewrite Forall_forall in Hfr. apply Hfr in Hin. lia. }
  assert (Hfr' : Forall (fun p => p < next_node q + 1) (pms ++ [(next_node q, m)]).*1).
  { rewrite fmap_app, Forall_app. split; [eapply Forall_impl; [done|simpl; lia]|].
    repeat constructor. simpl. lia. }
  assert (Hnd' : NoDup (pms ++ [(next_node q, m)]).*1).
  { rewrite fmap_app. apply NoDup_app. split; [done|]. split; [set_solver|apply NoDup_singleton]. }
  destruct pms as [|[e me] pms' _] using rev_ind.
  - simpl in Hend. rewrite Hend. mrun. eexists; split; [done|]. split; [|done].
    split; cbn [nodes event_list_queue_end next_node app]; auto.
    + simpl. by rewrite lookup_insert_eq.
    + intros p. rewrite dom_insert_L. set_solver.
  - rewrite last_snoc in Hend. simpl in Hend. rewrite Hend.
    pose proof (seg_last _ _ _ _ _ Hseg) as He.
    rewrite (deref_ok _ _ _ He). mrun. cbn [next].
    assert (Hne : next_node q <> e) by set_solver.
    rewrite (deref_ok _ _ {| next := head_ptr (pms' ++ [(e, me)]); message := me |})
      by (by rewrite lookup_insert_ne). mrun. cbn [message].
    eexists; split; [done|]. split; [|done].
    split; cbn [nodes event_list_queue_end next_node]; auto.
    + replace (head_ptr ((pms' ++ [(e, me)]) ++ _)) with (head_ptr (pms' ++ [(e, me)]))
        by (by destruct pms' as [|[]]).
      apply seg_snoc.
      * eapply seg_relink; [|by apply seg_insert_ne].
        rewrite fmap_app in Hnd. apply NoDup_app in Hnd as (_ & Hd & _). set_solver.
      * rewrite lookup_insert_ne, lookup_insert_eq by done. done.
    + by rewrite last_snoc.
    + intros p. rewrite !dom_insert_L, !elem_of_union, !elem_of_singleton, Hdom.
      rewrite !fmap_app, !elem_of_app; simpl; rewrite !list_elem_of_singleton. tauto.
Qed.

(** Popping removes the first node and returns its message. *)
Lemma pop_ring q p m pms :
  ring q ((p, m) :: pms) ->
  exists q', events_list_pop q = Ok (Some m, q') /\ ring q' pms /\
    pending_event_count q' = pending_event_count q - 1.
Proof.
  intros [Hseg Hend Hnd Hdom Hfr]. unfold events_list_pop.
  cbn [fmap list_fmap fst] in Hnd, Hfr. apply NoDup_cons in Hnd as [Hp Hnd].
  apply Forall_cons in Hfr as [_ Hfr].
  destruct pms as [|[e me] pms' _] using rev_ind.
  - simpl in Hend, Hseg. destruct Hseg as [Hh _]. rewrite Hend, (deref_ok _ _ _ Hh). mrun.
    cbn [next]. rewrite Z.eqb_refl. mrun. rewrite (deref_ok _ _ _ Hh). mrun.
    eexists; split; [done|]. split; [|done]. split; cbn [nodes event_list_queue_end next_node]; auto.
    { done. }
    intros x. rewrite dom_delete_L, elem_of_difference, Hdom. set_solver.
  - rewrite app_comm_cons, last_snoc in Hend. simpl in Hend. rewrite Hend.
    rewrite app_comm_cons in Hseg. pose proof (seg_last _ _ _ _ _ Hseg) as He.
    rewrite (deref_ok _ _ _ He). mrun. cbn [next head_ptr app].
    assert (Hne : p <> e) by set_solver. ztest.
    rewrite <- app_comm_cons in Hseg. cbn [seg] in Hseg. destruct Hseg as [Hh Hseg].
    cbn [head_ptr app] in He, Hseg. rewrite (deref_ok _ _ _ Hh). mrun. cbn [next message].
    set (nx := match pms' ++ [(e, me)] with [] => p | (q0, _) :: _ => q0 end) in *.
    rewrite (deref_ok _ _ {| next := nx; message := m |})
      by (rewrite lookup_insert_ne by congruence; exact Hh). mrun.
    eexists; split; [done|]. split; [|done].
    split; cbn [nodes event_list_queue_end next_node]; auto.
    + apply seg_delete_ne; [done|].
      assert (head_ptr (pms' ++ [(e, me)]) = nx) as -> by (subst nx; by destruct pms' as [|[]]).
      eapply (seg_relink _ _ _ _ _ nx); [|done]. rewrite fmap_app in Hnd.
      apply NoDup_app in Hnd as (_ & Hd & _). set_solver.
    + by rewrite last_snoc.
    + intros x. rewrite dom_delete_L, dom_insert_L, elem_of_difference, elem_of_union, Hdom.
      rewrite !elem_of_singleton. cbn [fmap list_fmap fst]. rewrite elem_of_cons, !fmap_app, !elem_of_app.
      simpl. rewrite !list_elem_of_singleton. split; [tauto|]. intros Hx. split; [tauto|].
      intros ->. apply Hp. rewrite fmap_app, elem_of_app; simpl. by rewrite list_elem_of_singleton.
Qed.

(** ** What clients of the queue rely on *)

Lemma push_represents q msgs m :
  represents q msgs ->
  exists q', events_list_push q m = Ok q' /\ represents q' (Spec.push msgs m) /\
    pending_event_count q' = pending_event_count q + 1.
Proof.
  intros (pms & Hr & <-). destruct (push_ring q pms m Hr) as (q' & E & Hr' & Hc).
  exists q'. split; [done|]. split; [|done]. eexists; split; [done|]. by rewrite fmap_app.
Qed.

Lemma pop_represents q m msgs :
  represents q (m :: msgs) ->
  exists q', events_list_pop q = Ok (Some m, q') /\ represents q' msgs /\
    pending_event_count q' = pending_event_count q - 1.
Proof.
  intros (pms & Hr & Hm). destruct pms as [|[p m'] pms]; [done|]. injection Hm as -> <-.
  destruct (pop_ring q p m pms Hr) as (q' & E & Hr' & Hc). exists q'. split; [done|].
  split; [|done]. by exists pms.
Qed.

Lemma pop_empty q : represents q [] -> events_list_pop q = Ok (None, q).
Proof.
  intros (pms & [_ Hend _ _ _] & Hm). destruct pms; [|done].
  unfold events_list_pop. by rewrite Hend.
Qed.

(** ** Property *)

(** A client of the queue: pushes and pops in any order. *)
Inductive queue_op := Push (m : PR1_MESSAGE) | Pop.

Fixpoint run_linked (q : event_queue) (ops : list queue_op)
  : res (list (option PR1_MESSAGE) * event_queue) :=
  match ops with
  | [] => Ok ([], q)
  | Push m :: ops => q ← events_list_push q m; run_linked q ops
  | Pop :: ops =>
      '(r, q) ← events_list_pop q;
      '(rs, q) ← run_linked q ops; Ok (r :: rs, q)
  end.

Fixpoint run_spec (msgs : list PR1_MESSAGE) (ops : list queue_op)
  : list (option PR1_MESSAGE) * list PR1_MESSAGE :=
  match ops with
  | [] => ([], msgs)
  | Push m :: ops => run_spec (Spec.push msgs m) ops
  | Pop :: ops =>
      let '(r, msgs) := Spec.pop msgs in
      let '(rs, msgs) := run_spec msgs ops in (r :: rs, msgs)
  end.

Lemma run_linked_simulates ops : forall q msgs,
  represents q msgs -> pending_event_count q = Z.of_nat (length msgs) ->
  exists q', run_linked q ops = Ok (fst (run_spec msgs ops), q') /\
    represents q' (snd (run_spec msgs ops)) /\
    pending_event_count q' = Z.of_nat (length (snd (run_spec msgs ops))).
Proof.
  induction ops as [|[m|] ops IH]; intros q msgs Hrep Hc; cbn [run_linked run_spec].
  - by exists q.
  - destruct (push_represents q msgs m Hrep) as (q' & -> & Hrep' & Hc'). mrun.
    apply IH; [done|]. unfold Spec.push. len.
  - destruct msgs as [|m msgs].
    + rewrite (pop_empty q Hrep). mrun. destruct (IH q [] Hrep Hc) as (q' & E & Hrep' & Hc').
      cbn [Spec.pop]. rewrite E. mrun. destruct (run_spec [] ops). by exists q'.
    + destruct (pop_represents q m msgs Hrep) as (q1 & -> & Hrep1 & Hc1). mrun.
      destruct (IH q1 msgs Hrep1) as (q' & E & Hrep' & Hc'); [rewrite Hc1, Hc; simpl length; lia|].
      cbn [Spec.pop]. rewrite E. mrun. destruct (run_spec msgs ops). by exists q'.
Qed.

(** C33. The linked list is a first-in first-out queue: for every sequence of
    pushes and pops, starting empty, no freed or missing node is touched, every
    pop returns what the list specification returns, and the counter is the
    number of messages waiting. *)
Theorem event_queue_refines_fifo ops :
  exists q', run_linked empty_queue ops = Ok (fst (run_spec [] ops), q') /\
    represents q' (snd (run_spec [] ops)) /\
    pending_event_count q' = Z.of_nat (length (snd (run_spec [] ops))).
Proof. apply run_linked_simulates; [apply empty_queue_represents | done]. Qed.

End EventQueue.
