(* ===== verification/Protocol.v ===== *)
(** * Command and event codes of the binary protocol

    [client/c/tioclient.h] and [client/c/tioclient_internals.h]: the codes a
    message carries in its COMMAND and EVENT_CODE fields, and the functions of
    [client/c/tioclient.c] that name them. *)
From S2P Require Import Prelude Pr1Message.

Module Protocol.
Import Pr1.

Definition TIO_COMMAND_PING : Z := 0x10.
Definition TIO_COMMAND_OPEN : Z := 0x11.
Definition TIO_COMMAND_CREATE : Z := 0x12.
Definition TIO_COMMAND_CLOSE : Z := 0x13.
Definition TIO_COMMAND_SET : Z := 0x14.
Definition TIO_COMMAND_INSERT : Z := 0x15.
Definition TIO_COMMAND_DELETE : Z := 0x16.
Definition TIO_COMMAND_PUSH_BACK : Z := 0x17.
Definition TIO_COMMAND_PUSH_FRONT : Z := 0x18.
Definition TIO_COMMAND_POP_BACK : Z := 0x19.
Definition TIO_COMMAND_POP_FRONT : Z := 0x1A.
Definition TIO_COMMAND_CLEAR : Z := 0x1B.
Definition TIO_COMMAND_COUNT : Z := 0x1C.
Definition TIO_COMMAND_GET : Z := 0x1D.
Definition TIO_COMMAND_SUBSCRIBE : Z := 0x1E.
Definition TIO_COMMAND_UNSUBSCRIBE : Z := 0x1F.
Definition TIO_COMMAND_QUERY : Z := 0x20.
Definition TIO_COMMAND_WAIT_AND_POP_NEXT : Z := 0x21.
Definition TIO_COMMAND_WAIT_AND_POP_KEY : Z := 0x22.

Definition TIO_EVENT_SNAPSHOT_END : Z := 0x23.

Definition TIO_COMMAND_PROPGET : Z := 0x30.
Definition TIO_COMMAND_PROPSET : Z := 0x31.
Definition TIO_COMMAND_GROUP_ADD : Z := 0x33.
Definition TIO_COMMAND_GROUP_SUBSCRIBE : Z := 0x34.

Definition TIO_COMMAND_ANSWER : Z := 0x1.
Definition TIO_COMMAND_EVENT : Z := 0x2.
Definition TIO_COMMAND_QUERY_ITEM : Z := 0x3.
Definition TIO_COMMAND_NEW_GROUP_CONTAINER : Z := 0x4.

(** The first entry whose code is [i]: a chain of [if]s. *)
Fixpoint name_of (table : list (Z * string)) (i : Z) (dflt : string) : string :=
  match table with
  | [] => dflt
  | (c, s) :: table => if i =? c then s else name_of table i dflt
  end.

Definition field_id_names : list (Z * string) := (
  [ (MESSAGE_FIELD_ID_COMMAND, "MESSAGE_FIELD_ID_COMMAND");
    (MESSAGE_FIELD_ID_HANDLE, "MESSAGE_FIELD_ID_HANDLE");
    (MESSAGE_FIELD_ID_KEY, "MESSAGE_FIELD_ID_KEY");
    (MESSAGE_FIELD_ID_VALUE, "MESSAGE_FIELD_ID_VALUE");
    (MESSAGE_FIELD_ID_METADATA, "MESSAGE_FIELD_ID_METADATA");
    (MESSAGE_FIELD_ID_NAME, "MESSAGE_FIELD_ID_NAME");
    (MESSAGE_FIELD_ID_TYPE, "MESSAGE_FIELD_ID_TYPE");
    (MESSAGE_FIELD_ID_ERROR_CODE, "MESSAGE_FIELD_ID_ERROR_CODE");
    (MESSAGE_FIELD_ID_ERROR_DESC, "MESSAGE_FIELD_ID_ERROR_DESC");
    (MESSAGE_FIELD_ID_EVENT_CODE, "MESSAGE_FIELD_ID_EVENT_CODE");
    (MESSAGE_FIELD_ID_START_RECORD, "MESSAGE_FIELD_ID_START_RECORD");
    (MESSAGE_FIELD_ID_END, "MESSAGE_FIELD_ID_END");
    (MESSAGE_FIELD_ID_QUERY_ID, "MESSAGE_FIELD_ID_QUERY_ID");
    (MESSAGE_FIELD_ID_GROUP_NAME, "MESSAGE_FIELD_ID_GROUP_NAME");
    (MESSAGE_FIELD_ID_CONTAINER_TYPE, "MESSAGE_FIELD_ID_CONTAINER_TYPE");
    (MESSAGE_FIELD_ID_CONTAINER_NAME, "MESSAGE_FIELD_ID_CONTAINER_NAME") ])%string.

Definition command_names : list (Z * string) := (
  [ (TIO_COMMAND_ANSWER, "TIO_COMMAND_ANSWER");
    (TIO_COMMAND_EVENT, "TIO_COMMAND_EVENT");
    (TIO_COMMAND_QUERY_ITEM, "TIO_COMMAND_QUERY_ITEM");
    (TIO_COMMAND_PING, "TIO_COMMAND_PING");
    (TIO_COMMAND_OPEN, "TIO_COMMAND_OPEN");
    (TIO_COMMAND_CREATE, "TIO_COMMAND_CREATE");
    (TIO_COMMAND_CLOSE, "TIO_COMMAND_CLOSE");
    (TIO_COMMAND_SET, "TIO_COMMAND_SET");
    (TIO_COMMAND_INSERT, "TIO_COMMAND_INSERT");
    (TIO_COMMAND_DELETE, "TIO_COMMAND_DELETE");
    (TIO_COMMAND_PUSH_BACK, "TIO_COMMAND_PUSH_BACK");
    (TIO_COMMAND_PUSH_FRONT, "TIO_COMMAND_PUSH_FRONT");
    (TIO_COMMAND_POP_BACK, "TIO_COMMAND_POP_BACK");
    (TIO_COMMAND_POP_FRONT, "TIO_COMMAND_POP_FRONT");
    (TIO_COMMAND_CLEAR, "TIO_COMMAND_CLEAR");
    (TIO_COMMAND_COUNT, "TIO_COMMAND_COUNT");
    (TIO_COMMAND_GET, "TIO_COMMAND_GET");
    (TIO_COMMAND_SUBSCRIBE, "TIO_COMMAND_SUBSCRIBE");
    (TIO_COMMAND_UNSUBSCRIBE, "TIO_COMMAND_UNSUBSCRIBE");
    (TIO_COMMAND_QUERY, "TIO_COMMAND_QUERY");
    (TIO_COMMAND_WAIT_AND_POP_NEXT, "TIO_COMMAND_WAIT_AND_POP_NEXT");
    (TIO_COMMAND_WAIT_AND_POP_KEY, "TIO_COMMAND_WAIT_AND_POP_KEY");
    (TIO_COMMAND_PROPGET, "TIO_COMMAND_PROPGET");
    (TIO_COMMAND_PROPSET, "TIO_COMMAND_PROPSET");
    (TIO_COMMAND_GROUP_ADD, "TIO_COMMAND_GROUP_ADD");
    (TIO_COMMAND_GROUP_SUBSCRIBE, "TIO_COMMAND_GROUP_SUBSCRIBE");
    (TIO_COMMAND_NEW_GROUP_CONTAINER, "TIO_COMMAND_NEW_GROUP_CONTAINER") ])%string.

Definition event_names : list (Z * string) := (
  [ (TIO_COMMAND_PUSH_BACK, "push_back");
    (TIO_COMMAND_PUSH_FRONT, "push_front");
    (TIO_COMMAND_SET, "set");
    (TIO_COMMAND_DELETE, "delete");
    (TIO_COMMAND_INSERT, "insert");
    (TIO_COMMAND_CLEAR, "clear");
    (TIO_EVENT_SNAPSHOT_END, "snapshot_end") ])%string.

Definition message_field_id_to_string (i : Z) : string := name_of field_id_names i "*UNKNOWN*"%string.
Definition tio_command_to_string (i : Z) : string := name_of command_names i "*UNKNOWN*"%string.
Definition tio_event_code_to_string (event_code : Z) : string :=
  name_of event_names event_code "INVALID_EVENT"%string.

End Protocol.
