(* ===== verification/ClientState.v ===== *)
(** * The state of the C client

    [client/c/tioclient_internals.h]: [struct TIO_CONTAINER] and
    [struct TIO_CONNECTION], and the memory they live in.  Pointers to
    connections and containers are addresses into two maps, so that two names of
    one object share its updates and a freed object is missing from its map.
    Callbacks are function pointers the application chose; calling one appends
    the call to [calls].  [errno], the current thread and the outcome of each
    attempt to connect come from the environment. *)
From S2P Require Import Prelude Pr1Message TioDataC Network EventQueue.

Module ClientState.
Import Pr1 TioDataC Net.
Export EventQueue(event_queue).

(** [event_callback_t] and cookies are opaque numbers; [None] is NULL.  The
    strings are without their terminator. *)
Record TIO_CONTAINER := mk_container {
  handle : Z;
  event_callback : option Z;
  wait_and_pop_next_callback : option Z;
  subscription_cookie : Z;
  group_name : option bytes;
  name : bytes;
  wait_and_pop_next_cookie : Z;
  connection : Z
}.

(** [event_list_queue_end] and [pending_event_count] are in [events].
    [clusters_connections] holds the first [clusters_connections_count] entries
    of the array, whose capacity is [clusters_connections_buffer_size]. *)
Record TIO_CONNECTION := mk_connection {
  socket : Z;
  host : bytes;
  port : Z;
  events : event_queue;
  max_pending_event_count : Z;
  total_messages_received : Z;
  containers : list (option Z);
  containers_buffer_size : Z;
  open_containers_count : Z;
  group_event_callback : option Z;
  group_event_cookie : Z;
  dispatch_events_on_receive : Z;
  thread_id : Z;
  wait_for_answer : bool;
  pending_answer_count : Z;
  debug_flags : Z;
  clusters_container : option Z;
  slaves_container : option Z;
  clusters_connections : list Z;
  clusters_connections_buffer_size : Z;
  last_error : Z
}.

Definition clusters_connections_count (c : TIO_CONNECTION) : Z :=
  Z.of_nat (length (clusters_connections c)).

(** A call of an [event_callback_t] or of a [query_callback_t]. *)
Inductive callback_call :=
| EventCall (callback result container cookie event_code : Z) (group_name : option bytes)
    (container_name : bytes) (key value metadata : TIO_DATA)
| QueryCall (callback result container cookie query_id : Z) (container_name : bytes)
    (key value metadata : TIO_DATA).

(** What [socket()], [getaddrinfo()] and [connect()] return in one attempt. *)
Record dial_event := { sockfd : Z; resolves : bool; connected : Z }.

Record client := mk_client {
  net : world;
  conns : gmap Z TIO_CONNECTION;
  conts : gmap Z TIO_CONTAINER;
  next_ptr : Z;
  calls : list callback_call;
  dial : list dial_event;
  closed : list Z;
  errno : Z;
  current_thread : Z;
  g_initialized : bool
}.

Definition set_net (x : world) (r : client) : client :=
  mk_client x (conns r) (conts r) (next_ptr r) (calls r) (dial r) (closed r) (errno r)
    (current_thread r) (g_initialized r).
Definition set_conns (x : gmap Z TIO_CONNECTION) (r : client) : client :=
  mk_client (net r) x (conts r) (next_ptr r) (calls r) (dial r) (closed r) (errno r)
    (current_thread r) (g_initialized r).
Definition set_conts (x : gmap Z TIO_CONTAINER) (r : client) : client :=
  mk_client (net r) (conns r) x (next_ptr r) (calls r) (dial r) (closed r) (errno r)
    (current_thread r) (g_initialized r).
Definition set_next_ptr (x : Z) (r : client) : client :=
  mk_client (net r) (conns r) (conts r) x (calls r) (dial r) (closed r) (errno r)
    (current_thread r) (g_initialized r).
Definition set_calls (x : list callback_call) (r : client) : client :=
  mk_client (net r) (conns r) (conts r) (next_ptr r) x (dial r) (closed r) (errno r)
    (current_thread r) (g_initialized r).
Definition set_dial (x : list dial_event) (r : client) : client :=
  mk_client (net r) (conns r) (conts r) (next_ptr r) (calls r) x (closed r) (errno r)
    (current_thread r) (g_initialized r).
Definition set_closed (x : list Z) (r : client) : client :=
  mk_client (net r) (conns r) (conts r) (next_ptr r) (calls r) (dial r) x (errno r)
    (current_thread r) (g_initialized r).
Definition set_g_initialized (x : bool) (r : client) : client :=
  mk_client (net r) (conns r) (conts r) (next_ptr r) (calls r) (dial r) (closed r) (errno r)
    (current_thread r) x.

Definition set_socket (x : Z) (r : TIO_CONNECTION) : TIO_CONNECTION :=
  mk_connection x (host r) (port r) (events r) (max_pending_event_count r)
    (total_messages_received r) (containers r) (containers_buffer_size r)
    (open_containers_count r) (group_event_callback r) (group_event_cookie r)
    (dispatch_events_on_receive r) (thread_id r) (wait_for_answer r) (pending_answer_count r)
    (debug_flags r) (clusters_container r) (slaves_container r) (clusters_connections r)
    (clusters_connections_buffer_size r) (last_error r).
Definition set_events (x : event_queue) (r : TIO_CONNECTION) : TIO_CONNECTION :=
  mk_connection (socket r) (host r) (port r) x (max_pending_event_count r)
    (total_messages_received r) (containers r) (containers_buffer_size r)
    (open_containers_count r) (group_event_callback r) (group_event_cookie r)
    (dispatch_events_on_receive r) (thread_id r) (wait_for_answer r) (pending_answer_count r)
    (debug_flags r) (clusters_container r) (slaves_container r) (clusters_connections r)
    (clusters_connections_buffer_size r) (last_error r).
Definition set_total_messages_received (x : Z) (r : TIO_CONNECTION) : TIO_CONNECTION :=
  mk_connection (socket r) (host r) (port r) (events r) (max_pending_event_count r) x
    (containers r) (containers_buffer_size r) (open_containers_count r) (group_event_callback
    r) (group_event_cookie r) (dispatch_events_on_receive r) (thread_id r) (wait_for_answer r)
    (pending_answer_count r) (debug_flags r) (clusters_container r) (slaves_container r)
    (clusters_connections r) (clusters_connections_buffer_size r) (last_error r).
Definition set_containers (x0 : list (option Z)) (x1 : Z) (r : TIO_CONNECTION) : TIO_CONNECTION :=
  mk_connection (socket r) (host r) (port r) (events r) (max_pending_event_count r)
    (total_messages_received r) x0 x1 (open_containers_count r) (group_event_callback r)
    (group_event_cookie r) (dispatch_events_on_receive r) (thread_id r) (wait_for_answer r)
    (pending_answer_count r) (debug_flags r) (clusters_container r) (slaves_container r)
    (clusters_connections r) (clusters_connections_buffer_size r) (last_error r).
Definition set_open_containers_count (x : Z) (r : TIO_CONNECTION) : TIO_CONNECTION :=
  mk_connection (socket r) (host r) (port r) (events r) (max_pending_event_count r)
    (total_messages_received r) (containers r) (containers_buffer_size r) x
    (group_event_callback r) (group_event_cookie r) (dispatch_events_on_receive r) (thread_id
    r) (wait_for_answer r) (pending_answer_count r) (debug_flags r) (clusters_container r)
    (slaves_container r) (clusters_connections r) (clusters_connections_buffer_size r)
    (last_error r).
Definition set_group_callback (x0 : option Z) (x1 : Z) (r : TIO_CONNECTION) : TIO_CONNECTION :=
  mk_connection (socket r) (host r) (port r) (events r) (max_pending_event_count r)
    (total_messages_received r) (containers r) (containers_buffer_size r)
    (open_containers_count r) x0 x1 (dispatch_events_on_receive r) (thread_id r)
    (wait_for_answer r) (pending_answer_count r) (debug_flags r) (clusters_container r)
    (slaves_container r) (clusters_connections r) (clusters_connections_buffer_size r)
    (last_error r).
Definition set_thread_id (x : Z) (r : TIO_CONNECTION) : TIO_CONNECTION :=
  mk_connection (socket r) (host r) (port r) (events r) (max_pending_event_count r)
    (total_messages_received r) (containers r) (containers_buffer_size r)
    (open_containers_count r) (group_event_callback r) (group_event_cookie r)
    (dispatch_events_on_receive r) x (wait_for_answer r) (pending_answer_count r) (debug_flags
    r) (clusters_container r) (slaves_container r) (clusters_connections r)
    (clusters_connections_buffer_size r) (last_error r).
Definition set_wait_for_answer (x : bool) (r : TIO_CONNECTION) : TIO_CONNECTION :=
  mk_connection (socket r) (host r) (port r) (events r) (max_pending_event_count r)
    (total_messages_received r) (containers r) (containers_buffer_size r)
    (open_containers_count r) (group_event_callback r) (group_event_cookie r)
    (dispatch_events_on_receive r) (thread_id r) x (pending_answer_count r) (debug_flags r)
    (clusters_container r) (slaves_container r) (clusters_connections r)
    (clusters_connections_buffer_size r) (last_error r).
Definition set_clusters_container (x : option Z) (r : TIO_CONNECTION) : TIO_CONNECTION :=
  mk_connection (socket r) (host r) (port r) (events r) (max_pending_event_count r)
    (total_messages_received r) (containers r) (containers_buffer_size r)
    (open_containers_count r) (group_event_callback r) (group_event_cookie r)
    (dispatch_events_on_receive r) (thread_id r) (wait_for_answer r) (pending_answer_count r)
    (debug_flags r) x (slaves_container r) (clusters_connections r)
    (clusters_connections_buffer_size r) (last_error r).
Definition set_slaves_container (x : option Z) (r : TIO_CONNECTION) : TIO_CONNECTION :=
  mk_connection (socket r) (host r) (port r) (events r) (max_pending_event_count r)
    (total_messages_received r) (containers r) (containers_buffer_size r)
    (open_containers_count r) (group_event_callback r) (group_event_cookie r)
    (dispatch_events_on_receive r) (thread_id r) (wait_for_answer r) (pending_answer_count r)
    (debug_flags r) (clusters_container r) x (clusters_connections r)
    (clusters_connections_buffer_size r) (last_error r).
Definition set_clusters_connections (x0 : list Z) (x1 : Z) (r : TIO_CONNECTION) : TIO_CONNECTION :=
  mk_connection (socket r) (host r) (port r) (events r) (max_pending_event_count r)
    (total_messages_received r) (containers r) (containers_buffer_size r)
    (open_containers_count r) (group_event_callback r) (group_event_cookie r)
    (dispatch_events_on_receive r) (thread_id r) (wait_for_answer r) (pending_answer_count r)
    (debug_flags r) (clusters_container r) (slaves_container r) x0 x1 (last_error r).
Definition set_last_error (x : Z) (r : TIO_CONNECTION) : TIO_CONNECTION :=
  mk_connection (socket r) (host r) (port r) (events r) (max_pending_event_count r)
    (total_messages_received r) (containers r) (containers_buffer_size r)
    (open_containers_count r) (group_event_callback r) (group_event_cookie r)
    (dispatch_events_on_receive r) (thread_id r) (wait_for_answer r) (pending_answer_count r)
    (debug_flags r) (clusters_container r) (slaves_container r) (clusters_connections r)
    (clusters_connections_buffer_size r) x.

Definition set_subscription (x0 : option Z) (x1 : Z) (r : TIO_CONTAINER) : TIO_CONTAINER :=
  mk_container (handle r) x0 (wait_and_pop_next_callback r) x1 (group_name r) (name r)
    (wait_and_pop_next_cookie r) (connection r).
Definition set_wait_and_pop_next (x0 : option Z) (x1 : Z) (r : TIO_CONTAINER) : TIO_CONTAINER :=
  mk_container (handle r) (event_callback r) x0 (subscription_cookie r) (group_name r) (name
    r) x1 (connection r).

(** ** Memory *)

(** A socket call of the client. *)
Definition on_net {A} (m : M world A) : M client A := fun c =>
  let '(r, w) := m (net c) in (r, set_net w c).

(** [*p] of a connection and of a container. *)
Definition conn_at (p : Z) : M client TIO_CONNECTION := fun c =>
  (match conns c !! p with Some x => Ok x | None => Throw (Fault UseAfterFree) end, c).

Definition cont_at (p : Z) : M client TIO_CONTAINER := fun c =>
  (match conts c !! p with Some x => Ok x | None => Throw (Fault UseAfterFree) end, c).

Definition store_conn (p : Z) (x : TIO_CONNECTION) : M client unit :=
  modify (fun c => set_conns (<[p := x]> (conns c)) c).

Definition store_cont (p : Z) (x : TIO_CONTAINER) : M client unit :=
  modify (fun c => set_conts (<[p := x]> (conts c)) c).

(** Assignments through a pointer. *)
Definition update_conn (p : Z) (f : TIO_CONNECTION -> TIO_CONNECTION) : M client unit :=
  x ← conn_at p; store_conn p (f x).

Definition update_cont (p : Z) (f : TIO_CONTAINER -> TIO_CONTAINER) : M client unit :=
  x ← cont_at p; store_cont p (f x).

(** [malloc]: a fresh address. *)
Definition new_ptr : M client Z := fun c => (Ok (next_ptr c), set_next_ptr (next_ptr c + 1) c).

Definition record_call (x : callback_call) : M client unit :=
  modify (fun c => set_calls (calls c ++ [x]) c).

(** ** Lemmas on single steps *)

Lemma conn_at_ok p c x : conns c !! p = Some x -> conn_at p c = (Ok x, c).
Proof. unfold conn_at. by intros ->. Qed.

Lemma cont_at_ok p c x : conts c !! p = Some x -> cont_at p c = (Ok x, c).
Proof. unfold cont_at. by intros ->. Qed.

Lemma update_conn_ok p f c x :
  conns c !! p = Some x ->
  update_conn p f c = (Ok tt, set_conns (<[p := f x]> (conns c)) c).
Proof. intros H. unfold update_conn. by mstep (conn_at_ok _ _ _ H). Qed.

Lemma update_cont_ok p f c x :
  conts c !! p = Some x ->
  update_cont p f c = (Ok tt, set_conts (<[p := f x]> (conts c)) c).
Proof. intros H. unfold update_cont. by mstep (cont_at_ok _ _ _ H). Qed.

Lemma on_net_ok {A} (m : M world A) c a w :
  m (net c) = (Ok a, w) -> on_net m c = (Ok a, set_net w c).
Proof. unfold on_net. by intros ->. Qed.

End ClientState.
