(* ===== verification/ClientReceive.v ===== *)
(** * Receiving answers and events

    [client/c/tioclient.c]: [check_correct_thread], [check_not_on_network_batch],
    [pr1_message_receive_from_any_cluster], [pr1_message_get_error_code],
    [register_container], [on_group_new_container],
    [tio_dispatch_pending_events], [on_event_receive], [tio_receive_message],
    [tio_receive_next_pending_event] and [tio_receive_until_not_event]. *)
From S2P Require Import Prelude StreamBuffer Pr1Message TioDataC Network EventQueue Protocol ClientState.

Module ClientReceive.
Import StreamBuffer Pr1 TioDataC Net Protocol ClientState.

(** The assertion on the thread is commented out in the source. *)
Definition check_correct_thread (p : Z) : M client unit :=
  conn ← conn_at p;
  if thread_id conn =? 0 then
    c ← get; update_conn p (set_thread_id (u32 (current_thread c)))
  else mret tt.

Definition check_not_on_network_batch (p : Z) : M client unit :=
  conn ← conn_at p; lift (assert_ (wait_for_answer conn)).

(** The sockets of a list of connections. *)
Fixpoint sockets_of (ps : list Z) : M client (list Z) :=
  match ps with
  | [] => mret []
  | p :: ps => conn ← conn_at p; l ← sockets_of ps; mret (socket conn :: l)
  end.

(** The first cluster connection whose socket is ready. *)
Fixpoint first_ready (ready : list Z) (ps socks : list Z) : option (Z * Z) :=
  match ps, socks with
  | p :: ps, s :: socks => if decide (s ∈ ready) then Some (p, s) else first_ready ready ps socks
  | _, _ => None
  end.

Definition clusters_error : string :=
  "Error reading data from clusters. Server is down or there is a network problem.".

(** Returns the result, the message and the connection it came from, which the
    callers store in their [connection] variable. *)
Definition pr1_message_receive_from_any_cluster (p : Z) (header_timeout payload_timeout : option Z)
  : M client (Z * option PR1_MESSAGE * Z) :=
  conn ← conn_at p;
  socks ← sockets_of (clusters_connections conn);
  '(result, ready) ← on_net (select (socket conn :: socks));
  if result =? -1 then
    _ ← on_net (pr1_set_last_error_description clusters_error);
    mret (TIO_ERROR_NETWORK, None, p)
  else if result =? 0 then mret (TIO_ERROR_TIMEOUT, None, p)
  else
    let '(from, s) :=
      if decide (socket conn ∈ ready) then (p, socket conn)
      else match first_ready ready (clusters_connections conn) socks with
           | Some (q, s) => (q, s)
           | None => (p, 0)
           end in
    _ ← lift (assert_ (negb (s =? 0)));
    '(result, m) ← on_net (pr1_message_receive s header_timeout payload_timeout);
    _ ← (if TIO_FAILED result then c ← get; update_conn p (set_last_error (errno c)) else mret tt);
    mret (result, m, from).

(** [g_last_error_description] written in place. *)
Definition store_description (d : bytes) : M client unit :=
  on_net (modify (fun w => {| rx := rx w; tx := tx w; send_script := send_script w;
                              select_script := select_script w; clock := clock w;
                              g_last_error_description := d |})).

Definition pr1_message_get_error_code (m : PR1_MESSAGE) : M client Z :=
  error_code ← lift (pr1_message_field_find_by_id m MESSAGE_FIELD_ID_ERROR_CODE);
  match error_code with
  | None => mret TIO_SUCCESS
  | Some error_code =>
      error_description ← lift (pr1_message_field_find_by_id m MESSAGE_FIELD_ID_ERROR_DESC);
      c ← get;
      let dst := g_last_error_description (net c) in
      d ← lift (match error_description with
                | Some f => pr1_message_field_get_string (blk_of m) f dst MAX_ERROR_DESCRIPTION_SIZE
                | None => mem_write dst 0 [x00]
                end);
      _ ← store_description d;
      lift (pr1_message_field_get_int (blk_of m) error_code)
  end.

(** [p[i]] of an array of pointers. *)
Definition array_get (a : list (option Z)) (i : Z) : res (option Z) :=
  if (0 <=? i) && (i <? Z.of_nat (length a)) then Ok (default None (a !! Z.to_nat i))
  else Throw (Fault OutOfBounds).

Definition array_set (a : list (option Z)) (i : Z) (v : option Z) : res (list (option Z)) :=
  if (0 <=? i) && (i <? Z.of_nat (length a)) then Ok (<[Z.to_nat i := v]> a)
  else Throw (Fault OutOfBounds).

(** The growth of the handle table: [handle * 2] slots, the new ones NULL.
    Returns the array and its size. *)
Definition grow_containers (handle : Z) (conn : TIO_CONNECTION) : res (list (option Z) * Z) :=
  if containers_buffer_size conn <=? handle then
    _ ← require (handle * 2 <=? INT_MAX) (Fault SignedOverflow);
    let n := handle * 2 in
    Ok (resize (Z.to_nat n) None (containers conn), n)
  else Ok (containers conn, containers_buffer_size conn).

(** Returns the result and the new container. *)
Definition register_container (p : Z) (m : PR1_MESSAGE) (nm : bytes) (group : option bytes)
  : M client (Z * option Z) :=
  handle_field ← lift (pr1_message_field_find_by_id m MESSAGE_FIELD_ID_HANDLE);
  match handle_field with
  | None => mret (TIO_ERROR_MISSING_PARAMETER, None)
  | Some f =>
      handle ← lift (pr1_message_field_get_int (blk_of m) f);
      _ ← lift (strlen32 nm);
      _ ← lift (match group with Some g => strlen32 g | None => Ok 0 end);
      new_container ← new_ptr;
      _ ← store_cont new_container
            {| handle := handle; event_callback := None; wait_and_pop_next_callback := None;
               subscription_cookie := 0; group_name := group; name := nm;
               wait_and_pop_next_cookie := 0; connection := p |};
      conn ← conn_at p;
      '(arr, size) ← lift (grow_containers handle conn);
      _ ← update_conn p (set_containers arr size);
      _ ← update_conn p (set_open_containers_count (open_containers_count conn + 1));
      arr ← lift (array_set arr handle (Some new_container));
      _ ← update_conn p (set_containers arr size);
      mret (TIO_SUCCESS, Some new_container)
  end.

Definition on_group_new_container (p : Z) (m : PR1_MESSAGE) : M client Z :=
  name_field ← lift (pr1_message_field_find_by_id m MESSAGE_FIELD_ID_CONTAINER_NAME);
  group_name_field ← lift (pr1_message_field_find_by_id m MESSAGE_FIELD_ID_GROUP_NAME);
  match name_field, group_name_field with
  | Some nf, Some gf =>
      container_name ← lift (pr1_message_field_get_string_malloc (blk_of m) nf);
      group ← lift (pr1_message_field_get_string_malloc (blk_of m) gf);
      '(ret, _) ← register_container p m (c_str container_name) (Some (c_str group));
      mret ret
  | _, _ => mret TIO_ERROR_MISSING_PARAMETER
  end.

(** ** Dispatching events *)

(** [events_list_pop] on a connection. *)
Definition pop_event (p : Z) : M client (option PR1_MESSAGE) :=
  conn ← conn_at p;
  '(m, q) ← lift (EventQueue.events_list_pop (events conn));
  _ ← store_conn p (set_events q conn);
  mret m.

(** The data a call of [tio_dispatch_pending_events] keeps between events. *)
Record dispatch_data := { d_key : TIO_DATA; d_value : TIO_DATA; d_metadata : TIO_DATA }.

(** A field the dispatcher accepts: present and of type INT. *)
Definition int_field_of (m : PR1_MESSAGE) (id : Z) : res (option Z) :=
  f ← pr1_message_field_find_by_id m id;
  match f with
  | None => Ok None
  | Some p => ty ← fh_data_type (blk_of m) p; Ok (if ty =? TIO_DATA_TYPE_INT then Some p else None)
  end.

Definition decode_data (m : PR1_MESSAGE) (id : Z) (td : TIO_DATA) : res TIO_DATA :=
  f ← pr1_message_field_find_by_id m id; pr1_message_field_to_tio_data (blk_of m) f td.

(** Which callback an event goes to, with its cookie. *)
Definition select_callback (conn : TIO_CONNECTION) (cont : TIO_CONTAINER) (event_code : Z)
  : option Z * Z :=
  if event_code =? TIO_COMMAND_WAIT_AND_POP_NEXT
  then (wait_and_pop_next_callback cont, wait_and_pop_next_cookie cont)
  else match group_name cont with
       | None => (event_callback cont, subscription_cookie cont)
       | Some _ => (group_event_callback conn, group_event_cookie conn)
       end.

(** The body of the loop for one event message. *)
Definition dispatch_event (p : Z) (m : PR1_MESSAGE) (d : dispatch_data) : M client dispatch_data :=
  handle_field ← lift (int_field_of m MESSAGE_FIELD_ID_HANDLE);
  event_code_field ← lift (int_field_of m MESSAGE_FIELD_ID_EVENT_CODE);
  match handle_field, event_code_field with
  | Some hf, Some ef =>
      handle ← lift (pr1_message_field_get_int (blk_of m) hf);
      event_code ← lift (pr1_message_field_get_int (blk_of m) ef);
      key ← lift (decode_data m MESSAGE_FIELD_ID_KEY (d_key d));
      value ← lift (decode_data m MESSAGE_FIELD_ID_VALUE (d_value d));
      metadata ← lift (decode_data m MESSAGE_FIELD_ID_METADATA (d_metadata d));
      conn ← conn_at p;
      container ← lift (array_get (containers conn) handle);
      match container with
      | None => throw (Fault NullDeref)
      | Some cp =>
          cont ← cont_at cp;
          let '(callback, cookie) := select_callback conn cont event_code in
          _ ← match callback with
              | Some f => record_call (EventCall f TIO_SUCCESS cp cookie (u32 event_code)
                            (group_name cont) (name cont) key value metadata)
              | None => mret tt
              end;
          mret {| d_key := key; d_value := value; d_metadata := metadata |}
      end
  | _, _ => mret d
  end.

Fixpoint dispatch_loop (fuel : nat) (p max_events a : Z) (d : dispatch_data) : M client Z :=
  match fuel with
  | O => throw (Fault OutOfFuel)
  | S fuel =>
      if negb (a <? max_events) then mret a
      else
        m ← pop_event p;
        match m with
        | None => mret a
        | Some m => d ← dispatch_event p m d; dispatch_loop fuel p max_events (a + 1) d
        end
  end.

(** Each iteration but the last frees a node, so the number of nodes bounds
    them. *)
Definition tio_dispatch_pending_events (p max_events : Z) : M client Z :=
  conn ← conn_at p;
  dispatch_loop (S (size (EventQueue.nodes (events conn)))) p max_events 0
    {| d_key := tiodata_init; d_value := tiodata_init; d_metadata := tiodata_init |}.

Definition on_event_receive (p : Z) (m : PR1_MESSAGE) : M client unit :=
  conn ← conn_at p;
  q ← lift (EventQueue.events_list_push (events conn) m);
  _ ← store_conn p (set_events q conn);
  if max_pending_event_count conn <=? EventQueue.pending_event_count q
  then _ ← tio_dispatch_pending_events p 0xFFFFFFFF; mret tt
  else mret tt.

(** ** Receiving *)

Definition count_message (p : Z) : M client unit :=
  update_conn p (fun conn => set_total_messages_received (u32 (total_messages_received conn + 1)) conn).

(** A received message; a successful receive stored one. *)
Definition received (m : option PR1_MESSAGE) : res PR1_MESSAGE :=
  match m with Some m => Ok m | None => Throw (Fault Uninitialised) end.

Record message_parts := { mp_command : Z; mp_key : TIO_DATA; mp_value : TIO_DATA; mp_metadata : TIO_DATA }.

(** The [switch] of [tio_receive_message] for one field. *)
Definition message_part (blk : bytes) (f : Z) (x : message_parts) : res message_parts :=
  id ← fh_field_id blk f;
  if id =? MESSAGE_FIELD_ID_COMMAND then
    v ← pr1_message_field_get_int blk f;
    Ok {| mp_command := u32 v; mp_key := mp_key x; mp_value := mp_value x; mp_metadata := mp_metadata x |}
  else if id =? MESSAGE_FIELD_ID_KEY then
    v ← pr1_message_field_to_tio_data blk (Some f) (mp_key x);
    Ok {| mp_command := mp_command x; mp_key := v; mp_value := mp_value x; mp_metadata := mp_metadata x |}
  else if id =? MESSAGE_FIELD_ID_VALUE then
    v ← pr1_message_field_to_tio_data blk (Some f) (mp_value x);
    Ok {| mp_command := mp_command x; mp_key := mp_key x; mp_value := v; mp_metadata := mp_metadata x |}
  else if id =? MESSAGE_FIELD_ID_METADATA then
    v ← pr1_message_field_to_tio_data blk (Some f) (mp_metadata x);
    Ok {| mp_command := mp_command x; mp_key := mp_key x; mp_value := mp_value x; mp_metadata := v |}
  else Ok x.

Fixpoint message_parts_loop (blk : bytes) (fs : list Z) (x : message_parts) : res message_parts :=
  match fs with
  | [] => Ok x
  | f :: fs => x ← message_part blk f x; message_parts_loop blk fs x
  end.

(** The caller's variables come in and go out as [message_parts]. *)
Definition tio_receive_message (p : Z) (x : message_parts) : M client (Z * message_parts) :=
  _ ← check_correct_thread p;
  _ ← check_not_on_network_batch p;
  '(result, m, _) ← pr1_message_receive_from_any_cluster p None None;
  _ ← count_message p;
  if TIO_FAILED result then mret (result, x)
  else
    m ← lift (received m);
    x ← lift (message_parts_loop (blk_of m)
            (take (Z.to_nat (field_count m)) (default [] (field_array m))) x);
    mret (result, x).

Definition tio_receive_next_pending_event (p : Z) (timeout : option Z) : M client Z :=
  _ ← check_correct_thread p;
  _ ← check_not_on_network_batch p;
  '(result, m, p) ← pr1_message_receive_from_any_cluster p timeout timeout;
  if TIO_FAILED result then mret result
  else if result =? 0 then
    _ ← lift (assert_ (match timeout with Some _ => true | None => false end)); mret 0
  else
    _ ← count_message p;
    m ← lift (received m);
    command_field ← lift (pr1_message_field_find_by_id m MESSAGE_FIELD_ID_COMMAND);
    match command_field with
    | None => mret TIO_ERROR_PROTOCOL
    | Some f =>
        command ← lift (pr1_message_field_get_int (blk_of m) f);
        if command =? TIO_COMMAND_NEW_GROUP_CONTAINER then
          _ ← on_group_new_container p m; mret 0
        else if negb (command =? TIO_COMMAND_EVENT) then mret TIO_ERROR_PROTOCOL
        else _ ← on_event_receive p m; mret 1
    end.

Definition missing_command : string :=
  "Missing field MESSAGE_FIELD_ID_COMMAND on the received packet".

(** The [for(;;)] loop; the connection of the last message is the one the next
    iteration reads. *)
Fixpoint until_not_event_loop (fuel : nat) (p : Z) : M client (Z * option PR1_MESSAGE) :=
  match fuel with
  | O => throw (Fault OutOfFuel)
  | S fuel =>
      '(result, m, p) ← pr1_message_receive_from_any_cluster p None None;
      if TIO_FAILED result then mret (result, None)
      else
        _ ← count_message p;
        m ← lift (received m);
        command_field ← lift (pr1_message_field_find_by_id m MESSAGE_FIELD_ID_COMMAND);
        match command_field with
        | None =>
            _ ← on_net (pr1_set_last_error_description missing_command);
            mret (TIO_ERROR_PROTOCOL, None)
        | Some f =>
            command ← lift (pr1_message_field_get_int (blk_of m) f);
            if command =? TIO_COMMAND_EVENT then
              _ ← on_event_receive p m; until_not_event_loop fuel p
            else if command =? TIO_COMMAND_NEW_GROUP_CONTAINER then
              _ ← on_group_new_container p m; until_not_event_loop fuel p
            else mret (result, Some m)
        end
  end.

(** The bytes all sockets can still deliver: every message received takes at
    least its header of 8 bytes from them, so they bound the iterations. *)
Definition script_bytes (evs : list recv_event) : nat :=
  sum_list_with (fun e => match e with Chunk bs => length bs | RecvError => 0%nat end) evs.

Definition total_rx (w : world) : nat := map_fold (fun _ evs n => (script_bytes evs + n)%nat) 0%nat (rx w).

Definition tio_receive_until_not_event (p : Z) : M client (Z * option PR1_MESSAGE) :=
  _ ← check_correct_thread p;
  _ ← check_not_on_network_batch p;
  c ← get;
  until_not_event_loop (S (total_rx (net c))) p.

End ClientReceive.
