(* ===== verification/ClientNotify.v ===== *)
(** * Notifications and answers: the client against its specification

    While the client waits for the answer to a command the server may send
    notifications: events of subscribed containers and announcements of new
    containers of a group.  The specification keeps a registry, a map from
    handles to containers, and says which callback each notification reaches.
    The theorems show that [tio_receive_until_not_event] handles any sequence
    of notifications as the registry says, in order, and returns the answer
    that follows them; the handle table of [register_container], its growth and
    the linked queue of events do not show. *)
From S2P Require Import Prelude StreamBuffer Pr1Message TioDataC Network EventQueue Protocol ClientState ClientReceive.

Module ClientNotify.
Import StreamBuffer Pr1 TioDataC Net Protocol ClientState ClientReceive.

(** ** The specification *)

Record event := {
  ev_handle : Z; ev_code : Z;
  ev_key : option tio_value; ev_value : option tio_value; ev_metadata : option tio_value
}.

Inductive notification :=
| Event (e : event)
| NewContainer (h : Z) (nm group : bytes).

(** The containers by handle, with the address each one is known by, the next
    free address, the callback of group subscriptions, and the number of commands
    of a batch whose answer is still to come. *)
Record registry := {
  table : gmap Z (Z * TIO_CONTAINER);
  fresh : Z;
  group_callback : option Z;
  group_cookie : Z;
  outstanding : Z
}.

(** A callback call with the values its data stand for. *)
Record expected_call := {
  x_callback : Z; x_container : Z; x_cookie : Z; x_code : Z;
  x_group : option bytes; x_name : bytes;
  x_key : tio_value; x_value : tio_value; x_metadata : tio_value
}.

Definition callback_for (r : registry) (cont : TIO_CONTAINER) (code : Z) : option Z * Z :=
  if code =? TIO_COMMAND_WAIT_AND_POP_NEXT
  then (wait_and_pop_next_callback cont, wait_and_pop_next_cookie cont)
  else if group_name cont then (group_callback r, group_cookie r)
  else (event_callback cont, subscription_cookie cont).

Definition event_calls (r : registry) (e : event) : list expected_call :=
  match table r !! ev_handle e with
  | None => []
  | Some (cp, cont) =>
      match callback_for r cont (ev_code e) with
      | (Some f, cookie) =>
          [ {| x_callback := f; x_container := cp; x_cookie := cookie; x_code := u32 (ev_code e);
               x_group := group_name cont; x_name := name cont;
               x_key := default VNone (ev_key e); x_value := default VNone (ev_value e);
               x_metadata := default VNone (ev_metadata e) |} ]
      | (None, _) => []
      end
  end.

(** A container as it is when its handle arrives. *)
Definition new_container (p h : Z) (nm : bytes) (group : option bytes) : TIO_CONTAINER :=
  {| handle := h; event_callback := None; wait_and_pop_next_callback := None;
     subscription_cookie := 0; group_name := group; name := nm;
     wait_and_pop_next_cookie := 0; connection := p |}.

Definition add_container (p h : Z) (nm : bytes) (group : option bytes) (r : registry) : registry :=
  {| table := <[h := (fresh r, new_container p h nm group)]> (table r);
     fresh := fresh r + 1; group_callback := group_callback r; group_cookie := group_cookie r;
     outstanding := outstanding r |}.

Definition spec_step (p : Z) (r : registry) (n : notification) : registry * list expected_call :=
  match n with
  | Event e => (r, event_calls r e)
  | NewContainer h nm group => (add_container p h nm (Some group) r, [])
  end.

Fixpoint spec_run (p : Z) (r : registry) (ns : list notification) : registry * list expected_call :=
  match ns with
  | [] => (r, [])
  | n :: ns =>
      let '(r, xs) := spec_step p r n in
      let '(r, ys) := spec_run p r ns in (r, xs ++ ys)
  end.

(** What the server may send: events of known containers, handles the client
    can store. *)
Definition admissible (r : registry) (n : notification) : Prop :=
  match n with
  | Event e =>
      is_Some (table r !! ev_handle e) /\ is_int (ev_handle e) /\ is_int (ev_code e) /\
      opt_ok (ev_key e) /\ opt_ok (ev_value e) /\ opt_ok (ev_metadata e)
  | NewContainer h nm group =>
      0 <= h < 2 ^ 30 /\ x00 ∉ nm /\ x00 ∉ group /\
      Z.of_nat (length nm) < 2 ^ 31 - 1 /\ Z.of_nat (length group) < 2 ^ 31 - 1
  end.

Fixpoint all_admissible (p : Z) (r : registry) (ns : list notification) : Prop :=
  match ns with
  | [] => True
  | n :: ns => admissible r n /\ all_admissible p (spec_step p r n).1 ns
  end.

(** ** How a message carries a notification *)

Definition string_field (id : Z) (s : bytes) : field := value_field id (VString s).

(** Other fields and their order are free. *)
Definition carries (fs : list field) (n : notification) : Prop :=
  match n with
  | Event e =>
      find_field MESSAGE_FIELD_ID_COMMAND fs = Some (int_field MESSAGE_FIELD_ID_COMMAND TIO_COMMAND_EVENT) /\
      find_field MESSAGE_FIELD_ID_HANDLE fs = Some (int_field MESSAGE_FIELD_ID_HANDLE (ev_handle e)) /\
      find_field MESSAGE_FIELD_ID_EVENT_CODE fs = Some (int_field MESSAGE_FIELD_ID_EVENT_CODE (ev_code e)) /\
      find_field MESSAGE_FIELD_ID_KEY fs = value_field MESSAGE_FIELD_ID_KEY <$> ev_key e /\
      find_field MESSAGE_FIELD_ID_VALUE fs = value_field MESSAGE_FIELD_ID_VALUE <$> ev_value e /\
      find_field MESSAGE_FIELD_ID_METADATA fs = value_field MESSAGE_FIELD_ID_METADATA <$> ev_metadata e
  | NewContainer h nm group =>
      find_field MESSAGE_FIELD_ID_COMMAND fs =
        Some (int_field MESSAGE_FIELD_ID_COMMAND TIO_COMMAND_NEW_GROUP_CONTAINER) /\
      find_field MESSAGE_FIELD_ID_HANDLE fs = Some (int_field MESSAGE_FIELD_ID_HANDLE h) /\
      find_field MESSAGE_FIELD_ID_CONTAINER_NAME fs = Some (string_field MESSAGE_FIELD_ID_CONTAINER_NAME nm) /\
      find_field MESSAGE_FIELD_ID_GROUP_NAME fs = Some (string_field MESSAGE_FIELD_ID_GROUP_NAME group)
  end.

(** A message the transport can carry. *)
Definition sendable (fs : list field) : Prop :=
  Forall field_wf fs /\ Z.of_nat (length fs) < 2 ^ 16 /\ 4096 + 2 * fields_size fs < 2 ^ 32.

(** ** The client stands for a registry *)

Definition call_matches (c : callback_call) (x : expected_call) : Prop :=
  match c with
  | EventCall f result cp cookie code group nm key value metadata =>
      f = x_callback x /\ result = TIO_SUCCESS /\ cp = x_container x /\ cookie = x_cookie x /\
      code = x_code x /\ group = x_group x /\ nm = x_name x /\
      represents key (x_key x) /\ represents value (x_value x) /\ represents metadata (x_metadata x)
  | QueryCall _ _ _ _ _ _ _ _ _ => False
  end.

(** A connection [p] on socket [s] that is alone (no cluster connections), is
    not in a batch and has no event waiting. *)
Record idle (p s : Z) (conn : TIO_CONNECTION) : Prop := {
  idle_socket : socket conn = s;
  idle_socket_nz : s <> 0;
  idle_alone : clusters_connections conn = [];
  idle_wait : wait_for_answer conn = true;
  idle_queue : EventQueue.represents (events conn) [];
  idle_max : max_pending_event_count conn = 0;
  idle_count : 0 <= EventQueue.pending_event_count (events conn);
  idle_size : containers_buffer_size conn = Z.of_nat (length (containers conn));
  idle_room : 0 < containers_buffer_size conn
}.

Record tracks (p : Z) (conn : TIO_CONNECTION) (c : client) (r : registry) : Prop := {
  tr_conn : conns c !! p = Some conn;
  tr_table : forall h cp cont, table r !! h = Some (cp, cont) ->
    0 <= h /\ containers conn !! Z.to_nat h = Some (Some cp) /\ conts c !! cp = Some cont;
  tr_fresh : fresh r = next_ptr c;
  tr_bound : forall cp, is_Some (conts c !! cp) -> cp < next_ptr c;
  tr_group : group_event_callback conn = group_callback r /\ group_event_cookie conn = group_cookie r;
  tr_count : EventQueue.pending_event_count (events conn) = outstanding r
}.

Definition serves (p s : Z) (c : client) (r : registry) : Prop :=
  exists conn, idle p s conn /\ tracks p conn c r.

(** What handling a notification leaves alone. *)
Record kept (p : Z) (c c' : client) : Prop := {
  kept_net : net c' = net c;
  kept_conns : forall q, q <> p -> conns c' !! q = conns c !! q
}.

#[export] Instance kept_refl p : Reflexive (kept p).
Proof. by intros c. Qed.

#[export] Instance kept_trans p : Transitive (kept p).
Proof. intros a b c [H1 H2] [H3 H4]. split; [congruence|]. intros q Hq. by rewrite H4, H2. Qed.

(** ** Reading the fields of a notification *)

Lemma int_field_of_ok m fs id z :
  parsed_as m fs -> find_field id fs = Some (int_field id z) -> is_int z ->
  exists q, int_field_of m id = Ok (Some q) /\ pr1_message_field_get_int (blk_of m) q = Ok z.
Proof.
  intros Hp Hf Hz. unfold int_field_of. destruct (find_by_id_ok m fs id Hp) as (r & -> & Hr).
  rewrite Hf in Hr. destruct Hr as (q & -> & Hq). mrun.
  destruct (points_to_header _ _ _ Hq) as (-> & _). mrun. exists q. split; [done|].
  by apply (field_get_int_ok _ _ _ _ Hq).
Qed.

Lemma find_int_ok m fs id z :
  parsed_as m fs -> find_field id fs = Some (int_field id z) -> is_int z ->
  exists q, pr1_message_field_find_by_id m id = Ok (Some q) /\
    pr1_message_field_get_int (blk_of m) q = Ok z.
Proof.
  intros Hp Hf Hz. destruct (find_by_id_ok m fs id Hp) as (r & -> & Hr).
  rewrite Hf in Hr. destruct Hr as (q & -> & Hq). exists q. split; [done|].
  by apply (field_get_int_ok _ _ _ _ Hq).
Qed.

Lemma decode_data_ok m fs id td v0 v :
  parsed_as m fs -> represents td v0 -> find_field id fs = value_field id <$> v -> opt_ok v ->
  exists td', decode_data m id td = Ok td' /\ represents td' (default VNone v).
Proof.
  intros Hp Hrep Hf Hok. unfold decode_data. destruct (find_by_id_ok m fs id Hp) as (r & -> & Hr).
  rewrite Hf in Hr. mrun. destruct v as [v|]; simpl in *.
  - destruct Hr as (q & -> & Hq). eapply field_to_tio_data_ok; eauto. by apply Hok.
  - subst r. eexists; split; [done|]. by eapply set_as_none_represents.
Qed.

(** ** Dispatching one event *)

Lemma init_represents : represents tiodata_init VNone.
Proof. by apply rep_none. Qed.

Lemma array_get_ok a h x : 0 <= h -> a !! Z.to_nat h = Some x -> array_get a h = Ok x.
Proof.
  intros H0 Hx. unfold array_get. apply lookup_lt_Some in Hx as Hl. ztest. by rewrite Hx.
Qed.

Lemma select_callback_for conn r cont code :
  group_event_callback conn = group_callback r -> group_event_cookie conn = group_cookie r ->
  select_callback conn cont code = callback_for r cont code.
Proof.
  intros H1 H2. unfold select_callback, callback_for. rewrite H1, H2. by destruct (_ =? _), (group_name cont).
Qed.

(** The data the dispatcher carries from one event to the next are well formed. *)
Definition data_wf (d : dispatch_data) : Prop :=
  exists k v m, represents (d_key d) k /\ represents (d_value d) v /\ represents (d_metadata d) m.

Lemma dispatch_event_ok p conn c r m fs e d :
  tracks p conn c r -> parsed_as m fs -> carries fs (Event e) -> admissible r (Event e) -> data_wf d ->
  exists d' cs, dispatch_event p m d c = (Ok d', set_calls (calls c ++ cs) c) /\ data_wf d' /\
    Forall2 call_matches cs (event_calls r e).
Proof.
  intros Htr Hp (_ & Fh & Fc & Fk & Fv & Fm) (([cp cont] & Ht) & Hh & Hc & Ok1 & Ok2 & Ok3)
    (k0 & v0 & m0 & R1 & R2 & R3).
  destruct Htr as [Tc Tt _ _ [Tg1 Tg2] _]. destruct (Tt _ _ _ Ht) as (H0 & Harr & Hcont).
  unfold dispatch_event.
  destruct (int_field_of_ok m fs _ _ Hp Fh Hh) as (hq & E1 & E2). mstep E1.
  destruct (int_field_of_ok m fs _ _ Hp Fc Hc) as (eq & E3 & E4). mstep E3. mstep E2. mstep E4.
  destruct (decode_data_ok m fs _ _ _ _ Hp R1 Fk Ok1) as (k & E5 & K). mstep E5.
  destruct (decode_data_ok m fs _ _ _ _ Hp R2 Fv Ok2) as (v & E6 & V). mstep E6.
  destruct (decode_data_ok m fs _ _ _ _ Hp R3 Fm Ok3) as (md & E7 & MD). mstep E7.
  mstep (conn_at_ok _ _ _ Tc). mstep (array_get_ok _ _ _ H0 Harr).
  mstep (cont_at_ok _ _ _ Hcont).
  rewrite (select_callback_for _ _ _ _ Tg1 Tg2). unfold event_calls. rewrite Ht.
  assert (Hwf : data_wf {| d_key := k; d_value := v; d_metadata := md |}) by (repeat eexists; eauto).
  destruct (callback_for r cont (ev_code e)) as [ [f|] cookie].
  - eexists _, [_]. split; [reflexivity|]. split; [done|].
    repeat constructor; done.
  - eexists _, []. split; [|split; [done|constructor]].
    rewrite app_nil_r. by destruct c.
Qed.

(** ** One event through the queue *)

Lemma pop_event_ok p c conn m q :
  conns c !! p = Some conn -> EventQueue.events_list_pop (events conn) = Ok (m, q) ->
  pop_event p c = (Ok m, set_conns (<[p := set_events q conn]> (conns c)) c).
Proof.
  intros Hc Hq. unfold pop_event. mstep (conn_at_ok _ _ _ Hc). mstep Hq. done.
Qed.

(** The queue of a connection can change under a registry. *)
Lemma tracks_set_conn p conn conn' c r :
  tracks p conn c r -> containers conn' = containers conn ->
  group_event_callback conn' = group_event_callback conn ->
  group_event_cookie conn' = group_event_cookie conn ->
  EventQueue.pending_event_count (events conn') = EventQueue.pending_event_count (events conn) ->
  tracks p conn' (set_conns (<[p := conn']> (conns c)) c) r.
Proof.
  intros [Tc Tt Tf Tb Tg Tn] E1 E2 E3 E4. split; simpl; auto; [| | |congruence].
  - by rewrite lookup_insert_eq.
  - intros h cp cont Hh. rewrite E1. auto.
  - by rewrite E2, E3.
Qed.

Lemma tracks_set_calls p conn c r cs : tracks p conn c r -> tracks p conn (set_calls cs c) r.
Proof. by intros []. Qed.

Lemma kept_set_conn p conn c : kept p c (set_conns (<[p := conn]> (conns c)) c).
Proof. split; [done|]. intros q Hq. simpl. by rewrite lookup_insert_ne. Qed.

Lemma kept_set_calls p c cs : kept p c (set_calls cs c).
Proof. done. Qed.
#[local] Hint Resolve kept_set_conn kept_set_calls tracks_set_calls : tio.

Lemma idle_set_events p s conn q :
  idle p s conn -> EventQueue.represents q [] -> 0 <= EventQueue.pending_event_count q ->
  idle p s (set_events q conn).
Proof. by intros []. Qed.

(** A node of the queue: the fuel of the dispatcher covers it. *)
Lemma represents_nodes q m msgs :
  EventQueue.represents q (m :: msgs) -> (1 <= size (EventQueue.nodes q))%nat.
Proof.
  intros (pms & Hr & Hm). destruct pms as [|[a x] pms]; [done|].
  destruct Hr as [Hs _ _ _ _]. destruct Hs as [Hl _].
  assert (EventQueue.nodes q <> ∅) by (intros E; by rewrite E in Hl).
  pose proof (map_size_non_empty_iff (EventQueue.nodes q)) as [_ Hz]. specialize (Hz H). lia.
Qed.

(** An event is queued, dispatched and forgotten. *)
Lemma on_event_receive_ok p s conn c r m fs e :
  idle p s conn -> tracks p conn c r -> parsed_as m fs -> carries fs (Event e) ->
  admissible r (Event e) ->
  exists c' cs, on_event_receive p m c = (Ok tt, c') /\ serves p s c' r /\ kept p c c' /\
    calls c' = calls c ++ cs /\ Forall2 call_matches cs (event_calls r e).
Proof.
  intros Hid Htr Hp Hcar Hadm. pose proof Htr as [Tc _ _ _ _ _]. pose proof Hid as [_ _ _ _ Iq Im Ic _ _].
  unfold on_event_receive. mstep (conn_at_ok _ _ _ Tc).
  destruct (EventQueue.push_represents _ [] m Iq) as (q1 & Eq1 & Hq1 & Hn1). mstep Eq1.
  unfold store_conn. rewrite bind_modify. rewrite Im. ztest.
  set (conn1 := set_events q1 conn). set (c1 := set_conns (<[p := conn1]> (conns c)) c).
  assert (Tc1 : conns c1 !! p = Some conn1) by (simpl; by rewrite lookup_insert_eq).
  unfold tio_dispatch_pending_events. unfold mbind at 1, M_bind at 1.
  rewrite (bind_ok _ _ _ _ _ (conn_at_ok _ _ _ Tc1)).
  pose proof (represents_nodes _ _ _ Hq1) as Hsz. change (events conn1) with q1.
  destruct (size (EventQueue.nodes q1)) as [|fuel]; [lia|]. cbn [dispatch_loop].
  change (0 <? 4294967295) with true. cbn [negb].
  destruct (EventQueue.pop_represents q1 m [] Hq1) as (q2 & Eq2 & Hq2 & Hn2).
  mstep (pop_event_ok p c1 conn1 _ _ Tc1 Eq2).
  set (conn2 := set_events q2 conn1). set (c2 := set_conns (<[p := conn2]> (conns c1)) c1).
  assert (T2 : tracks p conn2 c2 r).
  { subst c2 c1. cbn [conns set_conns]. rewrite insert_insert_eq.
    destruct (tracks_set_conn p conn conn2 c r Htr); auto; [simpl; lia|]. by split. }
  destruct (dispatch_event_ok p conn2 c2 r m fs e
    {| d_key := tiodata_init; d_value := tiodata_init; d_metadata := tiodata_init |})
    as (d' & cs & Ed & _ & Hcs); auto.
  { repeat eexists; apply init_represents. }
  mstep Ed. set (c3 := set_calls (calls c2 ++ cs) c2).
  assert (T3 : tracks p conn2 c3 r) by (by apply tracks_set_calls). pose proof T3 as [Tc3 _ _ _ _ _].
  change (0 + 1 <? 4294967295) with true. cbn [negb].
  mstep (pop_event_ok p c3 conn2 _ _ Tc3 (EventQueue.pop_empty q2 Hq2)).
  eexists _, cs. split; [reflexivity|]. split; [|split; [|split; [reflexivity|done]]].
  - exists conn2. split; [|by apply (tracks_set_conn p conn2)].
    change conn2 with (set_events q2 conn). apply idle_set_events; [done|done|lia].
  - etrans; [apply kept_set_conn|]. etrans; [apply kept_set_conn|].
    etrans; [apply kept_set_calls|]. apply kept_set_conn.
Qed.

(** ** A new container *)

Lemma c_str_terminated nm post : x00 ∉ nm -> c_str (nm ++ x00 :: post) = nm.
Proof.
  induction nm as [|b nm IH]; simpl; intros H; [done|].
  rewrite decide_False by set_solver. by rewrite IH by set_solver.
Qed.

Lemma get_string_malloc_ok blk q id nm :
  points_to_field blk q (string_field id nm) -> Z.of_nat (length nm) < 2 ^ 31 - 1 ->
  pr1_message_field_get_string_malloc blk q = Ok (nm ++ [x00]).
Proof.
  intros Hq Hl. destruct (points_to_header _ _ _ Hq) as (_ & Es & Ed).
  unfold pr1_message_field_get_string_malloc, pr1_message_field_get_string.
  unfold f_size in *. cbn [string_field value_field f_data] in *. rewrite Es. mrun.
  rewrite u32_small, i32_small by (try unfold is_int, INT_MIN, INT_MAX; lia). ztest. rewrite Ed. mrun.
  replace (Z.to_nat _) with (length nm + 1)%nat by lia.
  rewrite replicate_add, <- (app_nil_l (replicate (length nm) x00 ++ _)), mem_write_seg by (try done; len).
  mrun. rewrite app_nil_l, <- (app_nil_r (nm ++ _)), <- app_assoc, mem_write_seg by (try done; len). done.
Qed.

Lemma grow_containers_ok h conn :
  0 <= h < 2 ^ 30 -> containers_buffer_size conn = Z.of_nat (length (containers conn)) ->
  0 < containers_buffer_size conn ->
  exists arr size, grow_containers h conn = Ok (arr, size) /\ size = Z.of_nat (length arr) /\
    h < size /\ (length (containers conn) <= length arr)%nat /\
    forall i x, containers conn !! i = Some x -> arr !! i = Some x.
Proof.
  intros Hh Hs Hp. unfold grow_containers, require, INT_MAX. destruct (_ <=? h) eqn:E; bool_to_prop.
  - ztest. mrun. eexists _, _. split; [done|]. rewrite length_resize. split; [lia|]. split; [lia|].
    split; [lia|]. intros i x Hx. apply lookup_lt_Some in Hx as Hi. by rewrite lookup_resize by lia.
  - eexists _, _. split; [done|]. auto with lia.
Qed.

Lemma array_set_ok a h v :
  0 <= h < Z.of_nat (length a) -> array_set a h v = Ok (<[Z.to_nat h := v]> a).
Proof. intros H. unfold array_set. by ztest. Qed.

Lemma strlen32_ok s : Z.of_nat (length s) < 2 ^ 32 - 1 -> strlen32 s = Ok (Z.of_nat (length s)).
Proof. intros H. unfold strlen32, assert_. ztest. mrun. by rewrite u32_small by lia. Qed.

(** The registry after the handle of a new container arrived: nothing known is
    lost, whether or not the table had to grow. *)
Lemma tracks_register p conn c r h nm group arr size :
  tracks p conn c r -> 0 <= h < Z.of_nat (length arr) ->
  (forall i x, containers conn !! i = Some x -> arr !! i = Some x) ->
  let cp := next_ptr c in
  let arr' := <[Z.to_nat h := Some cp]> arr in
  let conn' := set_containers arr' size
    (set_open_containers_count (open_containers_count conn + 1) (set_containers arr size conn)) in
  let c1 := set_conts (<[cp := new_container p h nm group]> (conts c)) (set_next_ptr (cp + 1) c) in
  tracks p conn' (set_conns (<[p := conn']> (conns c)) c1) (add_container p h nm group r).
Proof.
  intros [Tc Tt Tf Tb [Tg1 Tg2] Tn] Hh Harr cp arr' conn' c1.
  split; simpl; auto.
  - by rewrite lookup_insert_eq.
  - intros h' cp' cont. destruct (decide (h' = h)) as [-> | Hne].
    + rewrite lookup_insert_eq. intros [= <- <-]. rewrite Tf. split; [lia|].
      unfold arr'. rewrite list_lookup_insert_eq by lia. by rewrite lookup_insert_eq.
    + rewrite lookup_insert_ne by done. intros Ht. destruct (Tt _ _ _ Ht) as (H0 & Ha & Hc).
      split; [done|]. split.
      * unfold arr'. rewrite list_lookup_insert_ne by lia. auto.
      * rewrite lookup_insert_ne; [done|]. assert (cp' < next_ptr c) by eauto. unfold cp. lia.
  - by rewrite Tf.
  - intros q. rewrite lookup_insert_is_Some. intros [<- | [_ Hq] ]; [unfold cp; lia|].
    apply Tb in Hq. unfold cp. lia.
Qed.

Lemma register_container_ok p s conn c r m fs h nm group :
  idle p s conn -> tracks p conn c r -> parsed_as m fs ->
  find_field MESSAGE_FIELD_ID_HANDLE fs = Some (int_field MESSAGE_FIELD_ID_HANDLE h) ->
  0 <= h < 2 ^ 30 -> Z.of_nat (length nm) < 2 ^ 31 - 1 ->
  (forall g, group = Some g -> Z.of_nat (length g) < 2 ^ 31 - 1) ->
  exists c', register_container p m nm group c = (Ok (TIO_SUCCESS, Some (next_ptr c)), c') /\
    serves p s c' (add_container p h nm group r) /\ kept p c c' /\ calls c' = calls c.
Proof.
  intros Hid Htr Hp Hf Hh Hn Hg. pose proof Htr as [Tc _ _ _ _ _]. pose proof Hid as [_ _ _ _ _ _ _ Is Ir].
  unfold register_container.
  destruct (find_int_ok m fs _ _ Hp Hf) as (q & E1 & E2); [unfold is_int, INT_MIN, INT_MAX; lia|].
  mstep E1. mstep E2. mstep (strlen32_ok nm ltac:(lia)).
  assert (exists n, match group with Some g => strlen32 g | None => Ok 0 end = Ok n) as [n En].
  { destruct group as [g|]; [|by eexists]. specialize (Hg g eq_refl). rewrite strlen32_ok by lia. by eexists. }
  mstep En. unfold new_ptr at 1. unfold mbind at 1, M_bind at 1. unfold store_cont.
  rewrite bind_modify. erewrite bind_ok; [|apply conn_at_ok; exact Tc].
  destruct (grow_containers_ok h conn Hh Is Ir) as (arr & size & E3 & Hs & Hlt & Hle & Harr).
  mstep E3. cbn iota beta.
  erewrite bind_ok; [|apply update_conn_ok; exact Tc].
  erewrite bind_ok; [|apply update_conn_ok; cbn; apply lookup_insert_eq].
  mstep (array_set_ok arr h (Some (next_ptr c)) ltac:(lia)).
  erewrite bind_ok; [|apply update_conn_ok; cbn; apply lookup_insert_eq].
  cbn [conns set_conns set_conts set_next_ptr]. rewrite !insert_insert_eq.
  eexists. split; [reflexivity|].
  pose proof (tracks_register p conn c r h nm group arr size Htr ltac:(lia) Harr) as Ht.
  cbn zeta in Ht. split; [|split; [|done]].
  - eexists. split; [|exact Ht]. destruct Hid. split; simpl; auto; [|lia].
    by rewrite length_insert.
  - split; [done|]. intros q' Hq. simpl. by rewrite lookup_insert_ne.
Qed.

(** ** Any notification *)

(** What the loop does with a message that is not an answer. *)
Definition handle_notification (p : Z) (m : PR1_MESSAGE) (n : notification) : M client unit :=
  match n with
  | Event _ => on_event_receive p m
  | NewContainer _ _ _ => _ ← on_group_new_container p m; mret tt
  end.

Lemma on_group_new_container_ok p s conn c r m fs h nm group :
  idle p s conn -> tracks p conn c r -> parsed_as m fs -> carries fs (NewContainer h nm group) ->
  admissible r (NewContainer h nm group) ->
  exists c', on_group_new_container p m c = (Ok TIO_SUCCESS, c') /\
    serves p s c' (add_container p h nm (Some group) r) /\ kept p c c' /\ calls c' = calls c.
Proof.
  intros Hid Htr Hp (_ & Fh & Fn & Fg) (Hh & Zn & Zg & Ln & Lg). unfold on_group_new_container.
  destruct (find_by_id_ok m fs MESSAGE_FIELD_ID_CONTAINER_NAME Hp) as (r1 & E1 & H1).
  rewrite Fn in H1. destruct H1 as (q1 & -> & Q1). mstep E1.
  destruct (find_by_id_ok m fs MESSAGE_FIELD_ID_GROUP_NAME Hp) as (r2 & E2 & H2).
  rewrite Fg in H2. destruct H2 as (q2 & -> & Q2). mstep E2.
  mstep (get_string_malloc_ok _ _ _ _ Q1 Ln). mstep (get_string_malloc_ok _ _ _ _ Q2 Lg).
  rewrite !c_str_terminated by done.
  destruct (register_container_ok p s conn c r m fs h nm (Some group)) as (c' & E & Hs & Hk & Hc); auto.
  { by intros g [= <-]. }
  mstep E. eauto.
Qed.

Lemma handle_notification_ok p s c r m fs n :
  serves p s c r -> parsed_as m fs -> carries fs n -> admissible r n ->
  exists c' cs, handle_notification p m n c = (Ok tt, c') /\ serves p s c' (spec_step p r n).1 /\
    kept p c c' /\ calls c' = calls c ++ cs /\ Forall2 call_matches cs (spec_step p r n).2.
Proof.
  intros (conn & Hid & Htr) Hp Hcar Hadm. destruct n as [e|h nm group]; simpl.
  - eapply on_event_receive_ok; eauto.
  - destruct (on_group_new_container_ok p s conn c r m fs h nm group) as (c' & E & Hs & Hk & Hc); auto.
    exists c', []. mstep E. rewrite app_nil_r. auto.
Qed.

(** ** One message from the socket *)

(** Only the input and the [select] script of the world moved. *)
Definition same_output (w w' : world) : Prop :=
  tx w' = tx w /\ send_script w' = send_script w /\
  g_last_error_description w' = g_last_error_description w.

Lemma select_ready s scr w :
  select_script w = SelReady [s] :: scr ->
  exists w', select [s] w = (Ok (1, [s]), w') /\ select_script w' = scr /\ rx w' = rx w /\
    same_output w w'.
Proof.
  intros E. unfold select. rewrite E. rewrite filter_cons, filter_nil, decide_True by set_solver.
  eexists. split; [reflexivity|]. split; [done|]. split; [done|]. done.
Qed.

Lemma receive_any_ok p s conn c fs seq rest scr :
  conns c !! p = Some conn -> idle p s conn -> sendable fs ->
  select_script (net c) = SelReady [s] :: scr ->
  stream (net c) s = enc_message fs seq ++ rest ->
  exists m w', pr1_message_receive_from_any_cluster p None None c
      = (Ok (fields_size fs, Some m, p), set_net w' c) /\
    parsed_as m fs /\ stream w' s = rest /\ select_script w' = scr /\ same_output (net c) w'.
Proof.
  intros Hc [Is Iz Ia _ _ _ _ _ _] (Hwf & Hn & Hsz) Hsel Hst.
  unfold pr1_message_receive_from_any_cluster. mstep (conn_at_ok _ _ _ Hc). rewrite Ia, Is.
  cbn [sockets_of]. rewrite (bind_ok (mret []) _ c [] c eq_refl).
  destruct (select_ready s scr _ Hsel) as (w1 & E1 & Hs1 & Hr1 & Ho1).
  mstep (on_net_ok _ _ _ _ E1). cbn iota beta. change (1 =? -1) with false. change (1 =? 0) with false.
  cbn iota. rewrite decide_True by set_solver. unfold assert_. ztest.
  rewrite (bind_lift_ok _ _ _ tt eq_refl).
  assert (Hst1 : stream w1 s = enc_message fs seq ++ rest)
    by (unfold stream in *; by rewrite (script_of_rx _ _ _ Hr1)).
  destruct (pr1_message_receive_ok s fs seq rest w1 Hst1 Hwf Hn Hsz)
    as (m & w2 & E2 & Hp & Hst2 & (Hrx & Htx & Hss & Hsel2 & _) & Hg).
  rewrite (bind_ok _ _ _ _ _ (on_net_ok _ (set_net w1 c) _ _ E2)). cbn iota beta.
  pose proof (fields_size_nonneg fs). unfold TIO_FAILED. ztest.
  eexists m, w2. split; [reflexivity|]. split; [done|]. split; [done|]. split; [congruence|].
  destruct Ho1 as (?&?&?). repeat split; congruence.
Qed.

Lemma count_message_ok p s c r :
  serves p s c r ->
  exists c', count_message p c = (Ok tt, c') /\ serves p s c' r /\ kept p c c' /\ calls c' = calls c.
Proof.
  intros (conn & Hid & Htr). pose proof Htr as [Tc _ _ _ _ _]. unfold count_message.
  rewrite (update_conn_ok _ _ _ _ Tc). eexists. split; [done|]. split; [|split; [apply kept_set_conn|done]].
  eexists. split; [|by eapply tracks_set_conn]. by destruct Hid.
Qed.

Lemma serves_set_net p s c r w : serves p s c r -> serves p s (set_net w c) r.
Proof. intros (conn & Hid & []). by exists conn. Qed.

(** ** The messages before the answer *)

Definition wire (l : list (list field * Z)) : bytes := mjoin ((fun x => enc_message x.1 x.2) <$> l).

(** An answer: any other command. *)
Definition is_answer (fs : list field) (command : Z) : Prop :=
  find_field MESSAGE_FIELD_ID_COMMAND fs = Some (int_field MESSAGE_FIELD_ID_COMMAND command) /\
  is_int command /\ command <> TIO_COMMAND_EVENT /\ command <> TIO_COMMAND_NEW_GROUP_CONTAINER.

Lemma carries_command fs n : carries fs n ->
  exists cmd, find_field MESSAGE_FIELD_ID_COMMAND fs = Some (int_field MESSAGE_FIELD_ID_COMMAND cmd) /\
    is_int cmd /\ cmd = match n with Event _ => TIO_COMMAND_EVENT
                                   | NewContainer _ _ _ => TIO_COMMAND_NEW_GROUP_CONTAINER end.
Proof.
  destruct n; intros (H & _); eexists; (split; [done|]); split; try done;
    unfold is_int, INT_MIN, INT_MAX, TIO_COMMAND_EVENT, TIO_COMMAND_NEW_GROUP_CONTAINER; lia.
Qed.

(** What the loop does with a notification it received from connection [p]. *)
Lemma after_notification fuel p s c r m fs n :
  serves p s c r -> parsed_as m fs -> carries fs n -> admissible r n ->
  exists c' cs,
    (_ ← count_message p;
     m ← lift (received (Some m));
     command_field ← lift (pr1_message_field_find_by_id m MESSAGE_FIELD_ID_COMMAND);
     match command_field with
     | None =>
         _ ← on_net (pr1_set_last_error_description missing_command);
         mret (TIO_ERROR_PROTOCOL, None)
     | Some f =>
         command ← lift (pr1_message_field_get_int (blk_of m) f);
         if command =? TIO_COMMAND_EVENT then
           _ ← on_event_receive p m; until_not_event_loop fuel p
         else if command =? TIO_COMMAND_NEW_GROUP_CONTAINER then
           _ ← on_group_new_container p m; until_not_event_loop fuel p
         else mret (fields_size fs, Some m)
     end) c = until_not_event_loop fuel p c' /\
    serves p s c' (spec_step p r n).1 /\ calls c' = calls c ++ cs /\
    Forall2 call_matches cs (spec_step p r n).2 /\ net c' = net c.
Proof.
  intros Hsv Hp Hcar Hadm.
  destruct (count_message_ok p s c r Hsv) as (c2 & E2 & Hsv2 & Hk2 & Hc2).
  mstep E2. rewrite (bind_lift_ok _ _ _ m eq_refl).
  destruct (carries_command fs n Hcar) as (cmd & Fc & Hint & Hcmd).
  destruct (find_int_ok m fs _ _ Hp Fc Hint) as (q & Eq & Eg). mstep Eq. mstep Eg.
  destruct (handle_notification_ok p s c2 r m fs n Hsv2 Hp Hcar Hadm) as (c3 & cs & E3 & Hsv3 & Hk3 & Hc3 & Hcs).
  exists c3, cs. split.
  - destruct n; subst cmd; cbn [Z.eqb Pos.eqb TIO_COMMAND_EVENT TIO_COMMAND_NEW_GROUP_CONTAINER].
    + by mstep E3.
    + cbn [handle_notification] in E3. destruct (on_group_new_container p m c2) as [ [z|e] c4] eqn:E4.
      * mstep E4. revert E3. mstep E4. by intros [= ->].
      * exfalso. revert E3. by mstep E4.
  - destruct Hk2 as [Hn2 _], Hk3 as [Hn3 _]. split; [done|].
    split; [by rewrite Hc3, Hc2|]. split; [done|congruence].
Qed.

(** One turn of the loop on a notification. *)
Lemma loop_notification fuel p s c r fs seq n rest scr :
  serves p s c r -> sendable fs -> carries fs n -> admissible r n ->
  select_script (net c) = SelReady [s] :: scr -> stream (net c) s = enc_message fs seq ++ rest ->
  exists c' cs, until_not_event_loop (S fuel) p c = until_not_event_loop fuel p c' /\
    serves p s c' (spec_step p r n).1 /\ calls c' = calls c ++ cs /\
    Forall2 call_matches cs (spec_step p r n).2 /\
    stream (net c') s = rest /\ select_script (net c') = scr /\ same_output (net c) (net c').
Proof.
  intros Hsv Hsend Hcar Hadm Hsel Hst. pose proof Hsv as (conn & Hid & Htr).
  destruct (receive_any_ok p s conn c fs seq rest scr (tr_conn _ _ _ _ Htr) Hid Hsend Hsel Hst)
    as (m & w1 & E1 & Hp & Hst1 & Hs1 & Ho1).
  cbn [until_not_event_loop]. mstep E1. cbn iota beta. pose proof (fields_size_nonneg fs).
  unfold TIO_FAILED. ztest.
  destruct (after_notification fuel p s (set_net w1 c) r m fs n)
    as (c' & cs & E & Hsv' & Hc & Hcs & Hn); auto; [by apply serves_set_net|].
  exists c', cs. split; [exact E|]. rewrite Hn. simpl. auto 10.
Qed.

(** What holds after the answer was returned. *)
Record answered (p s : Z) (c : client) (r : registry) (ns : list notification) (ans : list field)
    (rest : bytes) (scr : list select_event) (m : PR1_MESSAGE) (c' : client) : Prop := {
  an_message : parsed_as m ans;
  an_registry : serves p s c' (spec_run p r ns).1;
  an_calls : exists cs, calls c' = calls c ++ cs /\ Forall2 call_matches cs (spec_run p r ns).2;
  an_stream : stream (net c') s = rest;
  an_select : select_script (net c') = scr;
  an_output : same_output (net c) (net c')
}.

(** The sequence the server sends: notifications, then the answer. *)
Record exchange (p s : Z) (r : registry) (w : world) (msgs : list (list field * Z))
    (ns : list notification) (ans : list field) (seq : Z) (rest : bytes)
    (scr : list select_event) : Prop := {
  xc_carries : Forall2 (fun x n => carries x.1 n) msgs ns;
  xc_sendable : Forall (fun x => sendable x.1) msgs;
  xc_admissible : all_admissible p r ns;
  xc_answer : exists command, is_answer ans command;
  xc_answer_sendable : sendable ans;
  xc_stream : stream w s = wire msgs ++ enc_message ans seq ++ rest;
  xc_select : select_script w = replicate (S (length ns)) (SelReady [s]) ++ scr
}.

Lemma same_output_trans w1 w2 w3 : same_output w1 w2 -> same_output w2 w3 -> same_output w1 w3.
Proof. intros (?&?&?) (?&?&?). repeat split; congruence. Qed.

Lemma loop_answer fuel p s c r ans seq rest scr :
  serves p s c r -> sendable ans -> (exists command, is_answer ans command) ->
  select_script (net c) = SelReady [s] :: scr -> stream (net c) s = enc_message ans seq ++ rest ->
  exists m c', until_not_event_loop (S fuel) p c = (Ok (fields_size ans, Some m), c') /\
    answered p s c r [] ans rest scr m c'.
Proof.
  intros Hsv Hsend (command & Fc & Hi & N1 & N2) Hsel Hst.
  pose proof Hsv as (conn & Hid & Htr). pose proof Htr as [Tc _ _ _ _ _].
  destruct (receive_any_ok p s conn c ans seq rest scr Tc Hid Hsend Hsel Hst)
    as (m & w1 & E1 & Hp & Hst1 & Hs1 & Ho1).
  cbn [until_not_event_loop]. mstep E1. cbn iota beta. pose proof (fields_size_nonneg ans).
  unfold TIO_FAILED. ztest.
  destruct (count_message_ok p s (set_net w1 c) r) as (c2 & E2 & Hsv2 & [Hn2 _] & Hc2); [by apply serves_set_net|].
  mstep E2. rewrite (bind_lift_ok _ _ _ m eq_refl).
  destruct (find_int_ok m ans _ _ Hp Fc Hi) as (q & Eq & Eg). mstep Eq. mstep Eg.
  destruct (command =? TIO_COMMAND_EVENT) eqn:B1; [by bool_to_prop|].
  destruct (command =? TIO_COMMAND_NEW_GROUP_CONTAINER) eqn:B2; [by bool_to_prop|].
  exists m, c2. split; [done|]. simpl in Hn2. split; rewrite ?Hn2; auto.
  exists []. rewrite app_nil_r. split; [done|constructor].
Qed.

Lemma loop_exchange ans seq rest scr : forall msgs ns fuel p s c r,
  serves p s c r -> (length ns < fuel)%nat ->
  exchange p s r (net c) msgs ns ans seq rest scr ->
  exists m c', until_not_event_loop fuel p c = (Ok (fields_size ans, Some m), c') /\
    answered p s c r ns ans rest scr m c'.
Proof.
  induction msgs as [|[fs sq] msgs IH]; intros ns fuel p s c r Hsv Hfuel [Hcar Hsend Hadm Hans Hsa Hst Hsel];
    destruct fuel as [|fuel]; try lia.
  - apply Forall2_nil_inv_l in Hcar as ->. by apply (loop_answer _ _ _ _ _ _ seq).
  - apply Forall2_cons_inv_l in Hcar as (n & ns' & Hn & Hcar & ->).
    apply Forall_cons in Hsend as [Hs1 Hsend]. destruct Hadm as [Ha1 Hadm].
    destruct (loop_notification fuel p s c r fs sq n (wire msgs ++ enc_message ans seq ++ rest)
      (replicate (S (length ns')) (SelReady [s]) ++ scr)) as (c1 & cs & E1 & Hsv1 & Hc1 & Hcs & Hst1 & Hsel1 & Ho1);
      auto. { rewrite Hst. unfold wire. rewrite fmap_cons. cbn [mjoin list_join fst snd]. by rewrite <- app_assoc. }
    rewrite E1.
    destruct (IH ns' fuel p s c1 (spec_step p r n).1 Hsv1) as (m & c' & E & [Am Ar (cs' & Ac & Acs) As Ae Ao]).
    { simpl in Hfuel. lia. }
    { by split. }
    exists m, c'. split; [done|]. simpl spec_run in *.
    split; auto; simpl; destruct (spec_step p r n) as [r1 xs]; simpl in *;
      destruct (spec_run p r1 ns') as [r2 ys]; simpl in *; auto.
    + exists (cs ++ cs'). split; [by rewrite Ac, Hc1, app_assoc|by apply Forall2_app].
    + by eapply same_output_trans.
Qed.

(** ** The fuel is enough *)

Lemma pending_length evs : (length (pending evs) <= script_bytes evs)%nat.
Proof.
  induction evs as [|[bs|] evs IH]; simpl; [lia| |lia]. destruct bs as [|b bs]; simpl; [lia|]. len.
Qed.

Lemma stream_total w s : (length (stream w s) <= total_rx w)%nat.
Proof.
  unfold stream, script_of. destruct (rx w !! s) as [evs|] eqn:E; simpl; [|lia].
  unfold total_rx. rewrite <- (insert_delete_id _ _ _ E).
  rewrite (map_fold_insert_L _ _ s evs); [|lia|by rewrite lookup_delete_eq].
  pose proof (pending_length evs). lia.
Qed.

Lemma wire_length msgs : (8 * length msgs <= length (wire msgs))%nat.
Proof.
  unfold wire. induction msgs as [|[fs sq] msgs IH]; [simpl; lia|].
  assert (8 <= length (enc_message fs sq))%nat by (unfold enc_message; len).
  rewrite fmap_cons. cbn [mjoin list_join length fst snd].
  rewrite length_app, Nat.mul_succ_r, Nat.add_comm. by apply Nat.add_le_mono.
Qed.

Lemma check_correct_thread_ok p s c r :
  serves p s c r ->
  exists c', check_correct_thread p c = (Ok tt, c') /\ serves p s c' r /\ kept p c c' /\ calls c' = calls c.
Proof.
  intros (conn & Hid & Htr). pose proof Htr as [Tc _ _ _ _ _]. unfold check_correct_thread.
  mstep (conn_at_ok _ _ _ Tc). destruct (thread_id conn =? 0).
  - rewrite bind_get, (update_conn_ok _ _ _ _ Tc). eexists. split; [done|].
    split; [|split; [apply kept_set_conn|done]].
    eexists. split; [|by eapply tracks_set_conn]. by destruct Hid.
  - exists c. split; [done|]. split; [by exists conn|done].
Qed.

Lemma until_not_event_ok p s c r msgs ns ans seq rest scr :
  serves p s c r -> exchange p s r (net c) msgs ns ans seq rest scr ->
  exists m c', tio_receive_until_not_event p c = (Ok (fields_size ans, Some m), c') /\
    answered p s c r ns ans rest scr m c'.
Proof.
  intros Hsv Hex. unfold tio_receive_until_not_event.
  destruct (check_correct_thread_ok p s c r Hsv) as (c1 & E1 & Hsv1 & [Hn1 _] & Hc1). mstep E1.
  pose proof Hsv1 as (conn & Hid & Htr). unfold check_not_on_network_batch.
  assert (E2 : (conn0 ← conn_at p; lift (assert_ (wait_for_answer conn0))) c1 = (Ok tt, c1)).
  { mstep (conn_at_ok _ _ _ (tr_conn _ _ _ _ Htr)). by rewrite (idle_wait _ _ _ Hid). }
  mstep E2. rewrite bind_get, Hn1.
  destruct (loop_exchange ans seq rest scr msgs ns (S (total_rx (net c))) p s c1 r)
    as (m & c' & E & [Am Ar Ac As Ae Ao]); [done| |by rewrite Hn1|].
  { pose proof (stream_total (net c) s) as Ht. rewrite (xc_stream _ _ _ _ _ _ _ _ _ _ Hex) in Ht.
    pose proof (wire_length msgs). pose proof (Forall2_length _ _ _ (xc_carries _ _ _ _ _ _ _ _ _ _ Hex)).
    rewrite length_app in Ht. lia. }
  exists m, c'. split; [done|]. rewrite Hc1 in Ac. rewrite Hn1 in Ao. by split.
Qed.

(** ** Property *)


(** Receiving from a cluster connection of [p]. *)
Lemma receive_cluster_ok p s q t conn conn_q c fs seq rest scr :
  conns c !! p = Some conn -> socket conn = s -> clusters_connections conn = [q] ->
  conns c !! q = Some conn_q -> idle q t conn_q -> s <> t -> sendable fs ->
  select_script (net c) = SelReady [t] :: scr ->
  stream (net c) t = enc_message fs seq ++ rest ->
  exists m w', pr1_message_receive_from_any_cluster p None None c
      = (Ok (fields_size fs, Some m, q), set_net w' c) /\
    parsed_as m fs /\ stream w' t = rest /\ stream w' s = stream (net c) s /\ select_script w' = scr.
Proof.
  intros Hc Hs Ha Hq Hid Hst (Hwf & Hn & Hsz) Hsel Hstr. pose proof (idle_socket_nz _ _ _ Hid) as Hz.
  unfold pr1_message_receive_from_any_cluster. mstep (conn_at_ok _ _ _ Hc).
  rewrite Ha, Hs. cbn [sockets_of].
  assert (E0 : (conn0 ← conn_at q; l ← mret []; mret (socket conn0 :: l)) c = (Ok [t], c)).
  { mstep (conn_at_ok _ _ _ Hq). by rewrite (idle_socket _ _ _ Hid). }
  mstep E0.
  assert (E1 : exists w1, select [s; t] (net c) = (Ok (1, [t]), w1) /\ select_script w1 = scr /\ rx w1 = rx (net c)).
  { unfold select. rewrite Hsel, filter_cons, decide_False, filter_cons, decide_True by set_solver.
    by eexists. }
  destruct E1 as (w1 & E1 & Hs1 & Hr1). mstep (on_net_ok _ _ _ _ E1). cbn iota beta.
  change (1 =? -1) with false. change (1 =? 0) with false. cbn iota.
  rewrite decide_False by set_solver. cbn [first_ready]. rewrite decide_True by set_solver.
  unfold assert_. ztest. rewrite (bind_lift_ok _ _ _ tt eq_refl).
  destruct (pr1_message_receive_ok t fs seq rest w1) as (m & w2 & E2 & Hp & Hst2 & (Hrx & _ & _ & Hsel2 & _) & _); auto.
  { unfold stream in *. by rewrite (script_of_rx _ _ _ Hr1). }
  rewrite (bind_ok _ _ _ _ _ (on_net_ok _ (set_net w1 c) _ _ E2)). cbn iota beta.
  pose proof (fields_size_nonneg fs). unfold TIO_FAILED. ztest.
  exists m, w2. split; [reflexivity|]. split; [done|]. split; [done|]. split; [|congruence].
  unfold stream, script_of. by rewrite Hrx, Hr1.
Qed.

(** A notification from a cluster moves the wait.  When a connection with a
    cluster connection waits for an answer and a notification arrives from the
    cluster, [tio_receive_until_not_event] goes on as a wait on the cluster
    connection alone: its [connection] variable is overwritten, and nothing of
    the original connection's stream, where the answer will arrive, is read. *)
Theorem until_not_event_follows_cluster fuel p s q t conn conn_q c r fs seq n rest scr :
  conns c !! p = Some conn -> socket conn = s -> clusters_connections conn = [q] ->
  idle q t conn_q -> tracks q conn_q c r -> s <> t ->
  sendable fs -> carries fs n -> admissible r n ->
  select_script (net c) = SelReady [t] :: scr -> stream (net c) t = enc_message fs seq ++ rest ->
  exists c', until_not_event_loop (S fuel) p c = until_not_event_loop fuel q c' /\
    serves q t c' (spec_step q r n).1 /\ stream (net c') s = stream (net c) s.
Proof.
  intros Hc Hs Ha Hid Htr Hst Hsend Hcar Hadm Hsel Hstr.
  destruct (receive_cluster_ok p s q t conn conn_q c fs seq rest scr) as (m & w1 & E1 & Hp & _ & Hs1 & _);
    auto; [apply Htr|].
  cbn [until_not_event_loop]. mstep E1. cbn iota beta. pose proof (fields_size_nonneg fs).
  unfold TIO_FAILED. ztest.
  destruct (after_notification fuel q t (set_net w1 c) r m fs n)
    as (c' & cs & E & Hsv' & _ & _ & Hn); auto; [apply serves_set_net; by exists conn_q|].
  exists c'. split; [exact E|]. split; [done|]. by rewrite Hn.
Qed.

(** ** An example: a subscribed container, a group, an answer *)

Definition ex_container : TIO_CONTAINER :=
  {| handle := 5; event_callback := Some 77; wait_and_pop_next_callback := None;
     subscription_cookie := 1234; group_name := None; name := lit "prices";
     wait_and_pop_next_cookie := 0; connection := 1 |}.

Definition ex_connection : TIO_CONNECTION :=
  mk_connection 3 (lit "localhost") 2605 EventQueue.empty_queue 0 0
    (<[5%nat := Some 10]> (replicate 64 None)) 64 1 (Some 88) 4321 0 0 true 0 0 None None [] 0 0.

Definition ex_registry : registry :=
  {| table := {[5 := (10, ex_container)]}; fresh := 11; group_callback := Some 88; group_cookie := 4321;
     outstanding := 0 |}.

Definition ex_event (h : Z) (v : tio_value) : event :=
  {| ev_handle := h; ev_code := TIO_COMMAND_PUSH_BACK; ev_key := None; ev_value := Some v;
     ev_metadata := None |}.

Definition ex_event_fields (h : Z) (v : tio_value) : list field :=
  [ int_field MESSAGE_FIELD_ID_COMMAND TIO_COMMAND_EVENT; int_field MESSAGE_FIELD_ID_HANDLE h;
    int_field MESSAGE_FIELD_ID_EVENT_CODE TIO_COMMAND_PUSH_BACK; value_field MESSAGE_FIELD_ID_VALUE v ].

Definition ex_announcement : list field :=
  [ int_field MESSAGE_FIELD_ID_COMMAND TIO_COMMAND_NEW_GROUP_CONTAINER;
    int_field MESSAGE_FIELD_ID_HANDLE 70;
    string_field MESSAGE_FIELD_ID_GROUP_NAME (lit "g"); string_field MESSAGE_FIELD_ID_CONTAINER_NAME (lit "g/a") ].

(** A handle above 63 makes the table grow. *)
Definition ex_msgs : list (list field * Z) :=
  [ (ex_event_fields 5 (VString (lit "42.0")), 1); (ex_announcement, 2); (ex_event_fields 70 (VInt 7), 3) ].

Definition ex_notifications : list notification :=
  [ Event (ex_event 5 (VString (lit "42.0"))); NewContainer 70 (lit "g/a") (lit "g"); Event (ex_event 70 (VInt 7)) ].

Definition ex_answer : list field := [ int_field MESSAGE_FIELD_ID_COMMAND TIO_COMMAND_ANSWER ].

Definition ex_world (msgs : list (list field * Z)) (n : nat) : world :=
  {| rx := {[3 := [Chunk (wire msgs ++ enc_message ex_answer 4)]]}; tx := ∅; send_script := [];
     select_script := replicate n (SelReady [3]); clock := [];
     g_last_error_description := replicate 255 x00 |}.

Definition ex_client (w : world) : client :=
  mk_client w {[1 := ex_connection]} {[10 := ex_container]} 11 [] [] [] 0 55 true.

Lemma ex_serves w : serves 1 3 (ex_client w) ex_registry.
Proof.
  exists ex_connection. split.
  - split; try done. apply EventQueue.empty_queue_represents.
  - split; try reflexivity.
    + intros h cp cont H. simpl in H. by apply lookup_singleton_Some in H as [<- [= <- <-] ].
    + intros cp [x H]. simpl in H. by apply lookup_singleton_Some in H as [<- _].
    + done.
Qed.

Lemma ex_exchange : exchange 1 3 ex_registry (ex_world ex_msgs 4) ex_msgs ex_notifications ex_answer 4 [] [].
Proof.
  split.
  - repeat constructor.
  - repeat constructor; done.
  - split; [|split; [|split; [|done] ] ].
    + split; [by eexists|]. repeat split; try done. by intros v [= <-].
    + repeat split; try done; apply (bool_decide_unpack _); vm_compute; exact I.
    + split; [by eexists|]. repeat split; try done. by intros v [= <-].
  - exists TIO_COMMAND_ANSWER. repeat split; done.
  - repeat constructor; done.
  - vm_compute. reflexivity.
  - reflexivity.
Qed.


(** A connection 2 whose cluster connection is the one of the example; the
    answer waits on socket 9. *)
Definition ex_cluster_world : world :=
  {| rx := {[3 := [Chunk (enc_message (ex_event_fields 5 (VInt 1)) 0)];
             9 := [Chunk (enc_message ex_answer 0)]]};
     tx := ∅; send_script := []; select_script := [SelReady [3]; SelReady [3]]; clock := [];
     g_last_error_description := replicate 255 x00 |}.

Definition ex_front : TIO_CONNECTION :=
  mk_connection 9 (lit "localhost") 2605 EventQueue.empty_queue 0 0 (replicate 64 None) 64 1 None 0 0 0
    true 0 0 None None [1] 64 0.

Definition ex_cluster_client : client :=
  mk_client ex_cluster_world {[1 := ex_connection; 2 := ex_front]} {[10 := ex_container]} 11 [] [] [] 0 55 true.

Lemma until_not_event_follows_cluster_witness :
  exists c', until_not_event_loop 3 2 ex_cluster_client = until_not_event_loop 2 1 c' /\
    stream (net c') 9 = enc_message ex_answer 0.
Proof.
  destruct (until_not_event_follows_cluster 2 2 9 1 3 ex_front ex_connection ex_cluster_client ex_registry
    (ex_event_fields 5 (VInt 1)) 0 (Event (ex_event 5 (VInt 1))) [] [SelReady [3] ]) as (c' & E & _ & Hs).
  - reflexivity.
  - reflexivity.
  - reflexivity.
  - split; try done. apply EventQueue.empty_queue_represents.
  - split; try reflexivity.
    + intros h cp cont H. simpl in H. by apply lookup_singleton_Some in H as [<- [= <- <-] ].
    + intros cp [x H]. simpl in H. by apply lookup_singleton_Some in H as [<- _].
    + done.
  - lia.
  - repeat constructor; done.
  - repeat constructor.
  - split; [by eexists|]. repeat split; try done. by intros v [= <-].
  - reflexivity.
  - vm_compute. reflexivity.
  - exists c'. split; [exact E|]. rewrite Hs. vm_compute. reflexivity.
Defined.

End ClientNotify.
