(* ===== verification/ClientApi.v ===== *)
(** * The client's commands

    [client/c/tioclient.c]: [tio_container_send_command] and everything built on
    it, opening and closing containers, clusters, groups, queries, batches,
    [tio_connect] and [tio_disconnect].  Messages are values, so
    [pr1_message_delete] has nothing to do; [free] of a container or connection
    removes it from its map.  Allocation succeeds. *)
From S2P Require Import Prelude Decimal StreamBuffer Pr1Message TioDataC Network EventQueue Protocol ClientState ClientReceive.

Module ClientApi.
Import StreamBuffer Pr1 TioDataC Net Protocol ClientState ClientReceive.

(** ** Commands on a container *)

Definition tio_container_send_command (cp command_id : Z) (key value metadata : option TIO_DATA)
  : M client Z :=
  cont ← cont_at cp;
  conn ← conn_at (connection cont);
  m ← lift (tio_generate_data_message command_id (handle cont) key value metadata);
  _ ← check_correct_thread (connection cont);
  on_net (pr1_message_send_and_delete (socket conn) m 0).

Definition tio_container_send_command_and_get_response (cp command_id : Z)
    (key value metadata : option TIO_DATA) : M client (Z * option PR1_MESSAGE) :=
  result ← tio_container_send_command cp command_id key value metadata;
  if TIO_FAILED result then mret (result, None)
  else cont ← cont_at cp; tio_receive_until_not_event (connection cont).

(** An output argument: [None] for NULL, else the caller's datum. *)
Definition out_data := option TIO_DATA.

Definition read_out (m : PR1_MESSAGE) (id : Z) (o : out_data) : res out_data :=
  match o with
  | None => Ok None
  | Some td => td ← pr1_message_field_get_as_tio_data m id td; Ok (Some td)
  end.

(** Returns the result and the output arguments. *)
Definition tio_container_send_command_and_get_data_response (cp command_id : Z)
    (input_key : option TIO_DATA) (key value metadata : out_data)
  : M client (Z * (out_data * out_data * out_data)) :=
  let key := tiodata_set_as_none <$> key in
  let value := tiodata_set_as_none <$> value in
  let metadata := tiodata_set_as_none <$> metadata in
  result ← tio_container_send_command cp command_id input_key None None;
  if TIO_FAILED result then mret (result, (key, value, metadata))
  else
    cont ← cont_at cp;
    '(result, response) ← tio_receive_until_not_event (connection cont);
    if TIO_FAILED result then mret (result, (key, value, metadata))
    else
      response ← lift (received response);
      result ← pr1_message_get_error_code response;
      if TIO_FAILED result then mret (result, (key, value, metadata))
      else
        key ← lift (read_out response MESSAGE_FIELD_ID_KEY key);
        value ← lift (read_out response MESSAGE_FIELD_ID_VALUE value);
        metadata ← lift (read_out response MESSAGE_FIELD_ID_METADATA metadata);
        mret (result, (key, value, metadata)).

(** [connection->pending_event_count = n] *)
Definition set_pending_event_count (n : Z) (conn : TIO_CONNECTION) : TIO_CONNECTION :=
  let q := events conn in
  set_events {| EventQueue.nodes := EventQueue.nodes q;
                EventQueue.event_list_queue_end := EventQueue.event_list_queue_end q;
                EventQueue.pending_event_count := n;
                EventQueue.next_node := EventQueue.next_node q |} conn.

Definition bump_pending (p : Z) : M client unit :=
  update_conn p (fun conn =>
    set_pending_event_count (EventQueue.pending_event_count (events conn) + 1) conn).

Definition tio_container_input_command (cp command_id : Z) (key value metadata : option TIO_DATA)
  : M client Z :=
  cont ← cont_at cp;
  conn ← conn_at (connection cont);
  if wait_for_answer conn then
    '(result, response) ←
      tio_container_send_command_and_get_response cp (u16 command_id) key value metadata;
    if TIO_FAILED result then mret result
    else
      response ← lift (received response);
      result ← pr1_message_get_error_code response;
      if TIO_FAILED result then mret result else mret TIO_SUCCESS
  else
    result ← tio_container_send_command cp (u16 command_id) key value metadata;
    if TIO_FAILED result then mret result
    else _ ← bump_pending (connection cont); mret result.

Definition tio_container_name (cp : Z) : M client bytes := cont ← cont_at cp; mret (name cont).

Definition tio_container_propset (cp : Z) (key value : option TIO_DATA) : M client Z :=
  tio_container_input_command cp TIO_COMMAND_PROPSET key value None.

Definition tio_container_push_back (cp : Z) (key value metadata : option TIO_DATA) : M client Z :=
  tio_container_input_command cp TIO_COMMAND_PUSH_BACK key value metadata.

Definition tio_container_push_front (cp : Z) (key value metadata : option TIO_DATA) : M client Z :=
  tio_container_input_command cp TIO_COMMAND_PUSH_FRONT key value metadata.

Definition tio_container_set (cp : Z) (key value metadata : option TIO_DATA) : M client Z :=
  tio_container_input_command cp TIO_COMMAND_SET key value metadata.

Definition tio_container_insert (cp : Z) (key value metadata : option TIO_DATA) : M client Z :=
  tio_container_input_command cp TIO_COMMAND_INSERT key value metadata.

Definition tio_container_clear (cp : Z) : M client Z :=
  tio_container_input_command cp TIO_COMMAND_CLEAR None None None.

Definition tio_container_delete (cp : Z) (key : option TIO_DATA) : M client Z :=
  tio_container_input_command cp TIO_COMMAND_DELETE key None None.

Definition tio_container_pop_back (cp : Z) (key value metadata : out_data) :=
  tio_container_send_command_and_get_data_response cp TIO_COMMAND_POP_BACK None key value metadata.

Definition tio_container_pop_front (cp : Z) (key value metadata : out_data) :=
  tio_container_send_command_and_get_data_response cp TIO_COMMAND_POP_FRONT None key value metadata.

Definition tio_container_get (cp : Z) (search_key : option TIO_DATA) (key value metadata : out_data) :=
  tio_container_send_command_and_get_data_response cp TIO_COMMAND_GET search_key key value metadata.

Definition tio_container_propget (cp : Z) (search_key : option TIO_DATA) (value : out_data) :=
  tio_container_send_command_and_get_data_response cp TIO_COMMAND_PROPGET search_key None value None.

(** Returns the result and, on success, the count. *)
Definition tio_container_get_count (cp : Z) : M client (Z * option Z) :=
  '(result, (_, count_value, _)) ←
    tio_container_send_command_and_get_data_response cp TIO_COMMAND_COUNT None None
      (Some tiodata_init) None;
  if TIO_FAILED result then mret (result, None)
  else
    count_value ← lift (match count_value with Some v => Ok v | None => Throw (Fault Uninitialised) end);
    _ ← lift (assert_ (data_type count_value =? TIO_DATA_TYPE_INT));
    mret (TIO_SUCCESS, Some (int_ count_value)).

Definition tio_container_subscribe (cp : Z) (start : option TIO_DATA) (callback : option Z)
    (cookie : Z) : M client Z :=
  result ← tio_container_input_command cp TIO_COMMAND_SUBSCRIBE start None None;
  if TIO_FAILED result then mret result
  else _ ← update_cont cp (set_subscription callback cookie); mret TIO_SUCCESS.

Definition tio_container_wait_and_pop_next (cp : Z) (callback : option Z) (cookie : Z) : M client Z :=
  _ ← update_cont cp (set_wait_and_pop_next callback cookie);
  result ← tio_container_input_command cp TIO_COMMAND_WAIT_AND_POP_NEXT None None None;
  if TIO_FAILED result then mret result else mret TIO_SUCCESS.

Definition tio_container_unsubscribe (cp : Z) : M client Z :=
  _ ← update_cont cp (set_subscription None 0);
  result ← tio_container_input_command cp TIO_COMMAND_UNSUBSCRIBE None None None;
  if TIO_FAILED result then mret result else mret TIO_SUCCESS.

(** ** Batches *)

Definition tio_begin_network_batch (p : Z) : M client unit :=
  conn ← conn_at p;
  _ ← lift (assert_ (EventQueue.pending_event_count (events conn) =? 0));
  _ ← lift (assert_ (wait_for_answer conn));
  update_conn p (set_wait_for_answer false).

(** [for(a = 0 ; a < connection->pending_event_count ; a++)] *)
Fixpoint finish_loop (fuel : nat) (p a : Z) : M client unit :=
  match fuel with
  | O => throw (Fault OutOfFuel)
  | S fuel =>
      conn ← conn_at p;
      if negb (a <? EventQueue.pending_event_count (events conn)) then mret tt
      else _ ← tio_receive_until_not_event p; finish_loop fuel p (a + 1)
  end.

(** The count grows at most by the events that arrive meanwhile. *)
Definition tio_finish_network_batch (p : Z) : M client unit :=
  conn ← conn_at p;
  _ ← lift (assert_ (negb (wait_for_answer conn)));
  _ ← update_conn p (set_wait_for_answer true);
  c ← get;
  _ ← finish_loop (S (Z.to_nat (EventQueue.pending_event_count (events conn)) + total_rx (net c))) p 0;
  update_conn p (set_pending_event_count 0).

(** ** Ping *)

Definition ping_message (payload : bytes) : res PR1_MESSAGE :=
  m ← pr1_message_new;
  m ← pr1_message_add_field_int m MESSAGE_FIELD_ID_COMMAND TIO_COMMAND_PING;
  pr1_message_add_field_string m MESSAGE_FIELD_ID_VALUE payload.

(** The comparison of the answer with the payload. *)
Definition check_pong (response : PR1_MESSAGE) (payload : bytes) (payload_len result : Z) : res Z :=
  value_field ← pr1_message_field_find_by_id response MESSAGE_FIELD_ID_VALUE;
  match value_field with
  | None => Ok TIO_ERROR_PROTOCOL
  | Some f =>
      size ← fh_data_size (blk_of response) f;
      if negb (payload_len =? size) then Ok TIO_ERROR_PROTOCOL
      else
        data ← pr1_message_field_get_buffer (blk_of response) f payload_len;
        if decide (payload = data) then Ok result else Ok TIO_ERROR_PROTOCOL
  end.

Definition tio_ping (p : Z) (payload : bytes) : M client Z :=
  conn ← conn_at p;
  payload_len ← lift (strlen32 payload);
  m ← lift (ping_message payload);
  _ ← on_net (pr1_message_send_and_delete (socket conn) m 0);
  '(result, response) ← tio_receive_until_not_event p;
  if TIO_FAILED result then mret result
  else
    response ← lift (received response);
    lift (check_pong response payload payload_len result).

(** ** Closing *)

Definition close_message (handle : Z) : res PR1_MESSAGE :=
  m ← pr1_message_new;
  m ← pr1_message_add_field_int m MESSAGE_FIELD_ID_COMMAND TIO_COMMAND_CLOSE;
  pr1_message_add_field_int m MESSAGE_FIELD_ID_HANDLE handle.

Definition free_container (cp : Z) : M client unit :=
  modify (fun c => set_conts (delete cp (conts c)) c).

(** Up to the label [clean_up_and_return]. *)
Definition close_request (cont : TIO_CONTAINER) : M client Z :=
  conn ← conn_at (connection cont);
  m ← lift (close_message (handle cont));
  result ← on_net (pr1_message_send_and_delete (socket conn) m 0);
  if TIO_FAILED result then mret result
  else
    '(result, response) ← tio_receive_until_not_event (connection cont);
    if TIO_FAILED result then mret result
    else
      response ← lift (received response);
      result ← pr1_message_get_error_code response;
      if TIO_FAILED result then mret result
      else
        conn ← conn_at (connection cont);
        arr ← lift (array_set (containers conn) (handle cont) None);
        _ ← update_conn (connection cont) (set_containers arr (containers_buffer_size conn));
        mret result.

Definition tio_close (container : option Z) : M client Z :=
  match container with
  | None => mret TIO_SUCCESS
  | Some cp =>
      cont ← cont_at cp;
      result ← close_request cont;
      _ ← free_container cp;
      mret result
  end.

(** ** Groups *)

(** Sends a request and returns the error code of its answer. *)
Definition request_and_check (p : Z) (m : PR1_MESSAGE) : M client Z :=
  conn ← conn_at p;
  result ← on_net (pr1_message_send_and_delete (socket conn) m 0);
  if TIO_FAILED result then mret result
  else
    '(result, response) ← tio_receive_until_not_event p;
    if TIO_FAILED result then mret result
    else
      response ← lift (received response);
      result ← pr1_message_get_error_code response;
      if TIO_FAILED result then mret result else mret TIO_SUCCESS.

Definition tio_group_add (p : Z) (group_name container_name : bytes) : M client Z :=
  m ← lift (m ← pr1_message_new;
            m ← pr1_message_add_field_int m MESSAGE_FIELD_ID_COMMAND TIO_COMMAND_GROUP_ADD;
            m ← pr1_message_add_field_string m MESSAGE_FIELD_ID_GROUP_NAME group_name;
            pr1_message_add_field_string m MESSAGE_FIELD_ID_CONTAINER_NAME container_name);
  request_and_check p m.

Definition tio_group_set_subscription_callback (p : Z) (callback : option Z) (cookie : Z)
  : M client Z :=
  _ ← update_conn p (set_group_callback callback cookie); mret 0.

(** The request [tio_group_subscribe] sends on each connection. *)
Definition group_subscribe_message (group_name : bytes) (start : option bytes) : res PR1_MESSAGE :=
  m ← pr1_message_new;
  m ← pr1_message_add_field_int m MESSAGE_FIELD_ID_COMMAND TIO_COMMAND_GROUP_SUBSCRIBE;
  m ← pr1_message_add_field_string m MESSAGE_FIELD_ID_GROUP_NAME group_name;
  match start with
  | Some s => pr1_message_add_field_string m MESSAGE_FIELD_ID_START_RECORD s
  | None => Ok m
  end.

(** ** Queries *)

Definition query_message (handle start end_ : Z) (regex : option bytes) : res PR1_MESSAGE :=
  m ← pr1_message_new;
  m ← pr1_message_add_field_int m MESSAGE_FIELD_ID_COMMAND TIO_COMMAND_QUERY;
  m ← pr1_message_add_field_int m MESSAGE_FIELD_ID_HANDLE handle;
  m ← pr1_message_add_field_int m MESSAGE_FIELD_ID_START_RECORD start;
  m ← pr1_message_add_field_int m MESSAGE_FIELD_ID_END end_;
  match regex with
  | Some s => pr1_message_add_field_string m MESSAGE_FIELD_ID_QUERY_EXPRESSION s
  | None => Ok m
  end.

Definition is_query_item (m : PR1_MESSAGE) : res bool :=
  f ← pr1_message_field_find_by_id m MESSAGE_FIELD_ID_COMMAND;
  match f with
  | None => Ok false
  | Some f =>
      ty ← fh_data_type (blk_of m) f;
      if negb (ty =? TIO_DATA_TYPE_INT) then Ok false
      else v ← pr1_message_field_get_int (blk_of m) f; Ok (v =? TIO_COMMAND_QUERY_ITEM)
  end.

(** [callback] is what the loop calls for each item. *)
Fixpoint query_loop (fuel : nat) (p : Z) (key value metadata : TIO_DATA)
    (callback : TIO_DATA -> TIO_DATA -> TIO_DATA -> M client unit) : M client Z :=
  match fuel with
  | O => throw (Fault OutOfFuel)
  | S fuel =>
      '(result, query_item) ← tio_receive_until_not_event p;
      if TIO_FAILED result then mret result
      else
        query_item ← lift (received query_item);
        is_item ← lift (is_query_item query_item);
        if negb is_item then mret TIO_ERROR_PROTOCOL
        else
          key ← lift (pr1_message_field_get_as_tio_data query_item MESSAGE_FIELD_ID_KEY
                        (tiodata_set_as_none key));
          value ← lift (pr1_message_field_get_as_tio_data query_item MESSAGE_FIELD_ID_VALUE
                          (tiodata_set_as_none value));
          metadata ← lift (pr1_message_field_get_as_tio_data query_item MESSAGE_FIELD_ID_METADATA
                             (tiodata_set_as_none metadata));
          if data_type key =? TIO_DATA_TYPE_NONE then mret result
          else _ ← callback key value metadata; query_loop fuel p key value metadata callback
  end.

(** Before [tiodata_init] runs, the clean-up reads the type of three data that
    were never written. *)
Definition cleanup_uninitialised {A} : M client A := throw (Fault Uninitialised).

Definition container_query_with (cp start end_ : Z) (regex : option bytes)
    (callback : Z -> bytes -> TIO_DATA -> TIO_DATA -> TIO_DATA -> M client unit) : M client Z :=
  cont ← cont_at cp;
  conn ← conn_at (connection cont);
  m ← lift (query_message (handle cont) start end_ regex);
  result ← on_net (pr1_message_send_and_delete (socket conn) m 0);
  if TIO_FAILED result then cleanup_uninitialised
  else
    '(result, response) ← tio_receive_until_not_event (connection cont);
    if TIO_FAILED result then cleanup_uninitialised
    else
      response ← lift (received response);
      f ← lift (int_field_of response MESSAGE_FIELD_ID_QUERY_ID);
      match f with
      | None => cleanup_uninitialised
      | Some f =>
          query_id ← lift (pr1_message_field_get_int (blk_of response) f);
          c ← get;
          query_loop (S (total_rx (net c))) (connection cont) tiodata_init tiodata_init tiodata_init
            (callback (u32 query_id) (name cont))
      end.

(** A query whose callback is the application's. *)
Definition tio_container_query (cp start end_ : Z) (regex : option bytes) (query_callback cookie : Z)
  : M client Z :=
  container_query_with cp start end_ regex (fun query_id nm key value metadata =>
    record_call (QueryCall query_callback TIO_SUCCESS cp cookie query_id nm key value metadata)).

End ClientApi.
