(* ===== verification/ClientCluster.v ===== *)
(** * Connections and clusters

    [client/c/tioclient.c]: [tio_connect], [tio_disconnect], [tio_create],
    [tio_open], the cluster functions, [tio_group_subscribe] and
    [tio_initialize].  A container that the server does not know is looked up
    in the cluster directory, and opened on the server the directory names,
    through a connection the client keeps.  The recursion of the source
    ([tio_create_or_open] -> [tio_create_or_open_cluster] -> [tio_connect] ->
    [tio_open]) is a fixpoint on a number of nested connections; the functions
    in between take the recursive call as an argument. *)
From S2P Require Import Prelude Decimal StreamBuffer Pr1Message TioDataC Network EventQueue Protocol ClientState ClientReceive ClientApi.

Module ClientCluster.
Import StreamBuffer Pr1 TioDataC Net Protocol ClientState ClientReceive ClientApi.

Definition tio_initialize : M client unit := modify (set_g_initialized true).

(** A conversion to [short]. *)
Definition i16 (z : Z) : Z := (z + 2 ^ 15) mod 2 ^ 16 - 2 ^ 15.

(** [isspace] and [atoi], whose result must fit an [int]. *)
Definition is_space (b : Byte.byte) : bool :=
  let z := byte_Z b in ((9 <=? z) && (z <=? 13)) || (z =? 32).

Fixpoint skip_spaces (bs : bytes) : bytes :=
  match bs with b :: t => if is_space b then skip_spaces t else bs | [] => [] end.

Fixpoint leading_digits (bs : bytes) : bytes :=
  match bs with b :: t => if Decimal.is_digit b then b :: leading_digits t else [] | [] => [] end.

Definition atoi (s : bytes) : res Z :=
  let v := match skip_spaces s with
           | x2d :: t => - Decimal.digits_value 0 (leading_digits t)
           | x2b :: t => Decimal.digits_value 0 (leading_digits t)
           | t => Decimal.digits_value 0 (leading_digits t)
           end in
  _ ← require ((INT_MIN <=? v) && (v <=? INT_MAX)) (Fault SignedOverflow); Ok v.

(** The text before the first [:] and the one after it. *)
Fixpoint split_colon (s : bytes) : option (bytes * bytes) :=
  match s with
  | [] => None
  | b :: t => if decide (b = x3a) then Some ([], t)
              else '(h, p) ← split_colon t; Some (b :: h, p)
  end.

(** ["host:port"], or ["port"] with the host of the connection. *)
Definition parse_endpoint (dflt : bytes) (value : TIO_DATA) : res (bytes * Z) :=
  match string_ value with
  | None => Throw (Fault NullDeref)
  | Some blk =>
      let s := c_str blk in
      match split_colon s with
      | Some (host, port_string) => port ← atoi port_string; Ok (host, port)
      | None => port ← atoi s; Ok (dflt, port)
      end
  end.

(** ** Disconnecting *)

Fixpoint drain_events (fuel : nat) (p : Z) : M client unit :=
  match fuel with
  | O => throw (Fault OutOfFuel)
  | S fuel => m ← pop_event p; match m with Some _ => drain_events fuel p | None => mret tt end
  end.

(** [free] of a container that is still allocated. *)
Definition free_checked (cp : Z) : M client unit := _ ← cont_at cp; free_container cp.

(** The table from its last slot down. *)
Fixpoint free_table (slots : list (option Z)) : M client unit :=
  match slots with
  | [] => mret tt
  | Some cp :: slots => _ ← free_checked cp; free_table slots
  | None :: slots => free_table slots
  end.

Definition close_socket (s : Z) : M client unit := modify (fun c => set_closed (closed c ++ [s]) c).

Fixpoint iter_m {A} (f : A -> M client unit) (l : list A) : M client unit :=
  match l with [] => mret tt | a :: l => _ ← f a; iter_m f l end.

(** [fuel] bounds the depth of the tree of connections. *)
Fixpoint tio_disconnect (fuel : nat) (connection : option Z) : M client unit :=
  match fuel, connection with
  | _, None => mret tt
  | O, _ => throw (Fault OutOfFuel)
  | S fuel, Some p =>
      conn ← conn_at p;
      _ ← close_socket (socket conn);
      _ ← update_conn p (set_socket 0);
      _ ← drain_events (S (size (EventQueue.nodes (events conn)))) p;
      _ ← free_table (rev (take (Z.to_nat (containers_buffer_size conn)) (containers conn)));
      _ ← iter_m (fun q => tio_disconnect fuel (Some q)) (rev (clusters_connections conn));
      modify (fun c => set_conns (delete p (conns c)) c)
  end.

(** ** Connecting *)

Definition next_dial : M client dial_event := fun c =>
  match dial c with
  | [] => (Ok {| sockfd := -1; resolves := false; connected := -1 |}, c)
  | d :: ds => (Ok d, set_dial ds c)
  end.

Definition set_error (s : string) : M client unit := on_net (pr1_set_last_error_description s).

(** A [TIO_CONNECTION] as [tio_connect] fills it. *)
Definition new_connection (s : Z) (host : bytes) (port : Z) : TIO_CONNECTION :=
  mk_connection s host (u16 port) EventQueue.empty_queue 0 0 (replicate 64 None) 64 0 None 0 0 0
    true 0 0 None None [] 0 0.

Definition is_unix_socket (host : bytes) : bool :=
  match host with x2f :: _ => true | _ => false end.

(** [goto clean_up_and_return] after [socket()]: the socket is closed. *)
Definition connect_failed (s : Z) (result : Z) : M client (Z * option Z) :=
  _ ← (if negb (s =? -1) then close_socket s else mret tt); mret (result, None).

(** The exchange of greetings on a connected socket. *)
Definition negotiate (s : Z) : M client (option Z) :=
  result ← on_net (socket_send s (lit "protocol binary" ++ [x0d; x0a]));
  if TIO_FAILED result then
    _ ← set_error "Error sending data to server during protocol negotiation"; mret (Some TIO_ERROR_NETWORK)
  else
    '(result, buffer) ← on_net (socket_receive s 12 None);
    if TIO_FAILED result then
      _ ← set_error "Error receiving data to server during protocol negotiation"; mret (Some TIO_ERROR_NETWORK)
    else if decide (buffer = lit "going binary") then mret None
    else
      _ ← set_error "Invalid answer from server during protocol negotiation"; mret (Some TIO_ERROR_PROTOCOL).

Section Recursive.

(** [tio_create_or_open] for the connections below this one. *)
Context (create_or_open : Z -> Z -> bytes -> option bytes -> M client (Z * option Z)).

(** [port] is a [short]. *)
Definition tio_connect (host : bytes) (port : Z) : M client (Z * option Z) :=
  let isUnixSocket := is_unix_socket host in
  _ ← (c ← get; if g_initialized c then mret tt else tio_initialize);
  d ← next_dial;
  if sockfd d <? 0 then
    _ ← set_error "Can't create socket"; connect_failed (sockfd d) TIO_ERROR_NETWORK
  else
    _ ← lift (require (negb isUnixSocket ||
                       (Z.of_nat (length host + length (Decimal.print_int port)) <? 256))
                (Fault OutOfBounds));
    if negb isUnixSocket && negb (resolves d) then
      _ ← set_error "Can't resolve server name."; connect_failed (sockfd d) TIO_ERROR_NETWORK
    else if connected d <? 0 then
      _ ← set_error "Error while trying to connect to server"; connect_failed (sockfd d) TIO_ERROR_NETWORK
    else
      failure ← negotiate (sockfd d);
      match failure with
      | Some result => connect_failed (sockfd d) result
      | None =>
          p ← new_ptr;
          _ ← store_conn p (new_connection (sockfd d) host port);
          '(_, container) ← create_or_open p TIO_COMMAND_OPEN (lit "__meta__/clusters") (Some (lit "volatile_map"));
          _ ← update_conn p (set_clusters_container container);
          mret (TIO_SUCCESS, Some p)
      end.

(** The first kept connection to that host and port. *)
Fixpoint find_cluster (host : bytes) (port : Z) (ps : list Z) : M client (option Z) :=
  match ps with
  | [] => mret None
  | p :: ps =>
      conn ← conn_at p;
      if bool_decide (ClientState.host conn = host) && (ClientState.port conn =? port)
      then mret (Some p) else find_cluster host port ps
  end.

(** The array of cluster connections doubles from 64 when it is full. *)
Definition add_cluster (p q : Z) : M client unit :=
  update_conn p (fun conn =>
    let size := clusters_connections_buffer_size conn in
    let size := if size =? clusters_connections_count conn
                then (if size =? 0 then 64 else size * 2) else size in
    set_clusters_connections (clusters_connections conn ++ [q]) size conn).

Definition tio_connect_cluster (p : Z) (host : bytes) (port : Z) : M client (Z * option Z) :=
  let port := i16 port in
  conn ← conn_at p;
  found ← find_cluster host port (clusters_connections conn);
  match found with
  | Some q => mret (TIO_SUCCESS, Some q)
  | None =>
      '(ret, q) ← tio_connect host port;
      match q with
      | Some q => if ret =? TIO_SUCCESS then _ ← add_cluster p q; mret (ret, Some q) else mret (ret, Some q)
      | None => mret (ret, None)
      end
  end.

Definition tio_create_or_open_cluster (p command_id : Z) (nm : bytes) (type : option bytes)
  : M client (Z * option Z) :=
  conn ← conn_at p;
  search_key ← lift (tiodata_set_string_and_size tiodata_init nm (u32 (Z.of_nat (length nm))));
  _ ← update_conn p (set_last_error 0);
  directory ← lift (match clusters_container conn with
                    | Some cp => Ok cp | None => Throw (Fault NullDeref) end);
  '(result, (_, value, _)) ←
    tio_container_get directory (Some search_key) None (Some tiodata_init) None;
  if result =? TIO_SUCCESS then
    '(host, port) ← lift (parse_endpoint (ClientState.host conn) (default tiodata_init value));
    '(result, q) ← tio_connect_cluster p host port;
    if result =? TIO_SUCCESS then
      q ← lift (match q with Some q => Ok q | None => Throw (Fault Uninitialised) end);
      create_or_open q command_id nm type
    else mret (result, None)
  else
    c ← get;
    _ ← update_conn p (set_last_error (errno c));
    mret (result, None).

End Recursive.

Definition tio_generate_create_or_open_msg (command_id : Z) (nm : bytes) (type : option bytes)
  : res PR1_MESSAGE :=
  m ← pr1_message_new;
  m ← pr1_message_add_field_int m MESSAGE_FIELD_ID_COMMAND command_id;
  m ← pr1_message_add_field_string m MESSAGE_FIELD_ID_NAME nm;
  match type with
  | Some t => pr1_message_add_field_string m MESSAGE_FIELD_ID_TYPE t
  | None => Ok m
  end.

(** A failed [send] is noted, and the answer awaited all the same. *)
Fixpoint tio_create_or_open (fuel : nat) (p command_id : Z) (nm : bytes) (type : option bytes)
  : M client (Z * option Z) :=
  match fuel with
  | O => throw (Fault OutOfFuel)
  | S fuel =>
      conn ← conn_at p;
      _ ← update_conn p (set_last_error 0);
      m ← lift (tio_generate_create_or_open_msg command_id nm type);
      result ← on_net (pr1_message_send_and_delete (socket conn) m 0);
      _ ← (if TIO_FAILED result then c ← get; update_conn p (set_last_error (errno c)) else mret tt);
      '(result, response) ← tio_receive_until_not_event p;
      if TIO_FAILED result then mret (result, None)
      else
        response ← lift (received response);
        result ← pr1_message_get_error_code response;
        if TIO_FAILED result then
          conn ← conn_at p;
          match clusters_container conn with
          | Some _ => tio_create_or_open_cluster (tio_create_or_open fuel) p command_id nm type
          | None => mret (result, None)
          end
        else register_container p response nm None
  end.

Definition tio_create (fuel : nat) (p : Z) (nm : bytes) (type : option bytes) :=
  tio_create_or_open fuel p TIO_COMMAND_CREATE nm type.

Definition tio_open (fuel : nat) (p : Z) (nm : bytes) (type : option bytes) :=
  tio_create_or_open fuel p TIO_COMMAND_OPEN nm type.

(** [tio_connect] as the application calls it. *)
Definition connect (fuel : nat) (host : bytes) (port : Z) := tio_connect (tio_create_or_open fuel) host port.

(** ** Groups over the cluster *)

(** The query callback that connects to each slave. *)
Definition tio_slaves_container_callback (fuel : nat) (p : Z) (value : TIO_DATA) : M client unit :=
  conn ← conn_at p;
  '(host, port) ← lift (parse_endpoint (ClientState.host conn) value);
  _ ← tio_connect_cluster (tio_create_or_open fuel) p host port;
  mret tt.

(** Opens the list of slaves and connects to every one of them. *)
Definition open_slaves (fuel : nat) (p : Z) : M client unit :=
  conn ← conn_at p;
  match slaves_container conn with
  | Some _ => mret tt
  | None =>
      '(result, slaves) ← tio_open fuel p (lit "__meta__/cluster_slaves") (Some (lit "volatile_list"));
      _ ← update_conn p (set_slaves_container slaves);
      match slaves with
      | Some cp =>
          if result =? TIO_SUCCESS then
            _ ← container_query_with cp 0 255 None (fun _ _ _ value _ =>
                  tio_slaves_container_callback fuel p value);
            mret tt
          else mret tt
      | None => mret tt
      end
  end.

Fixpoint tio_group_subscribe (fuel : nat) (p : Z) (group_name : bytes) (start : option bytes)
  : M client Z :=
  match fuel with
  | O => throw (Fault OutOfFuel)
  | S fuel =>
      conn ← conn_at p;
      _ ← match clusters_container conn with
          | None => mret tt
          | Some _ =>
              _ ← open_slaves fuel p;
              conn ← conn_at p;
              match slaves_container conn with
              | None => mret tt
              | Some _ =>
                  iter_m (fun q =>
                    conn ← conn_at p;
                    _ ← update_conn q (set_group_callback (group_event_callback conn) (group_event_cookie conn));
                    _ ← tio_group_subscribe fuel q group_name start; mret tt)
                    (clusters_connections conn)
              end
          end;
      _ ← check_correct_thread p;
      m ← lift (group_subscribe_message group_name start);
      request_and_check p m
  end.

End ClientCluster.
