(* ===== verification/ClientCommands.v ===== *)
(** * What the client's commands do

    Each command is one request on the wire and one answer: the theorems give the
    bytes sent, the result for every kind of answer, the data returned, and the
    callbacks of the notifications that came before the answer; and for a batch,
    that the answers are read when it finishes, one for each command. *)
From S2P Require Import Prelude StreamBuffer Pr1Message TioDataC Network EventQueue Protocol ClientState ClientReceive ClientNotify ClientApi.

Module ClientCommands.
Import StreamBuffer Pr1 TioDataC Net Protocol ClientState ClientReceive ClientNotify ClientApi.

(** ** Sending *)

(** Everything a [send] on socket [s] of the bytes [bs] changes. *)
Record sent (s : Z) (bs : bytes) (w w' : world) : Prop := {
  sent_tx : tx w' !! s = Some (default [] (tx w !! s) ++ bs);
  sent_rx : rx w' = rx w;
  sent_script : send_script w' = [];
  sent_select : select_script w' = select_script w;
  sent_clock : clock w' = clock w;
  sent_description : g_last_error_description w' = g_last_error_description w
}.

Lemma send_message_ok s m fs w :
  built_as m fs -> Z.of_nat (length fs) < 2 ^ 16 -> fits fs -> send_script w = [] ->
  exists w', pr1_message_send_and_delete s m 0 w = (Ok (8 + fields_size fs), w') /\
    sent s (enc_message fs 0) w w'.
Proof.
  intros Hb Hn Hf Hs. pose proof (fields_size_nonneg fs). unfold fits, header_size in Hf.
  destruct (pr1_message_get_buffer_ok m fs 0 Hb Hn) as (m' & Eb & _); [unfold header_size; lia|].
  assert (Hl : Z.of_nat (length (enc_message fs 0)) = 8 + fields_size fs)
    by (unfold enc_message, fields_size; len).
  unfold pr1_message_send_and_delete, pr1_message_send. mstep Eb. cbn iota beta.
  unfold socket_send, mbind, M_bind, send. rewrite Hs, Hl. ztest.
  eexists. split; [reflexivity|]. split; simpl; try done.
  by rewrite lookup_insert_eq, take_ge by lia.
Qed.

(** The first command binds the connection to its thread. *)
Lemma check_thread_shape p conn c :
  conns c !! p = Some conn ->
  exists t, check_correct_thread p c = (Ok tt, set_conns (<[p := set_thread_id t conn]> (conns c)) c).
Proof.
  intros Hc. unfold check_correct_thread. mstep (conn_at_ok _ _ _ Hc).
  destruct (thread_id conn =? 0).
  - rewrite bind_get, (update_conn_ok _ _ _ _ Hc). by eexists.
  - exists (thread_id conn). unfold mret, M_ret. f_equal.
    replace (set_thread_id (thread_id conn) conn) with conn by by destruct conn.
    rewrite insert_id by done. by destruct c.
Qed.

(** The arguments of a command and the values they stand for. *)
Record command_args (key value metadata : option TIO_DATA) (kv vv mv : option tio_value) : Prop := {
  ca_key : opt_represents key kv;
  ca_value : opt_represents value vv;
  ca_metadata : opt_represents metadata mv
}.

Lemma send_command_ok p s conn c cp cont cmd key value metadata kv vv mv :
  conns c !! p = Some conn -> socket conn = s -> conts c !! cp = Some cont -> connection cont = p ->
  command_args key value metadata kv vv mv -> fits (data_fields cmd (handle cont) kv vv mv) ->
  send_script (net c) = [] ->
  exists t w', tio_container_send_command cp cmd key value metadata c
      = (Ok (8 + fields_size (data_fields cmd (handle cont) kv vv mv)),
         set_net w' (set_conns (<[p := set_thread_id t conn]> (conns c)) c)) /\
    sent s (enc_message (data_fields cmd (handle cont) kv vv mv) 0) (net c) w'.
Proof.
  intros Hc Hs Hct Hcn [Hk Hv Hm] Hf Hss. unfold tio_container_send_command.
  mstep (cont_at_ok _ _ _ Hct). rewrite Hcn. mstep (conn_at_ok _ _ _ Hc).
  destruct (tio_generate_data_message_ok cmd (handle cont) key value metadata kv vv mv Hk Hv Hm Hf)
    as (m & Em & Hb). mstep Em.
  destruct (check_thread_shape p conn c Hc) as (t & Et). mstep Et.
  pose proof (length_data_fields cmd (handle cont) kv vv mv).
  destruct (send_message_ok s m _ (net c) Hb ltac:(lia) Hf Hss) as (w' & Es & Hsent).
  exists t, w'. rewrite Hs. split; [|done]. by apply on_net_ok.
Qed.

(** Sending does not disturb what the connection serves. *)
Lemma serves_sent p s conn c r t w :
  idle p s conn -> tracks p conn c r ->
  serves p s (set_net w (set_conns (<[p := set_thread_id t conn]> (conns c)) c)) r.
Proof.
  intros Hid Htr. apply serves_set_net. exists (set_thread_id t conn).
  split; [by destruct Hid|by eapply tracks_set_conn].
Qed.

Lemma exchange_sent p s r w w' s' bs msgs ns ans seq rest scr :
  exchange p s r w msgs ns ans seq rest scr -> sent s' bs w w' ->
  exchange p s r w' msgs ns ans seq rest scr.
Proof.
  intros [] [_ Hrx _ Hsel _ _]. split; auto; [|congruence].
  unfold stream in *. by rewrite (script_of_rx _ _ _ Hrx).
Qed.

(** ** The error code of an answer *)

(** The error an answer carries: a code and perhaps a description. *)
Definition answer_error (ans : list field) (error : option (Z * option bytes)) : Prop :=
  match error with
  | None => find_field MESSAGE_FIELD_ID_ERROR_CODE ans = None
  | Some (code, desc) =>
      find_field MESSAGE_FIELD_ID_ERROR_CODE ans = Some (int_field MESSAGE_FIELD_ID_ERROR_CODE code) /\
      is_int code /\
      find_field MESSAGE_FIELD_ID_ERROR_DESC ans = string_field MESSAGE_FIELD_ID_ERROR_DESC <$> desc
  end.

(** The description kept: the first 255 bytes, terminated only when there is
    room. *)
Definition described (desc old : bytes) : bytes :=
  if Z.of_nat (length desc) <? 255 then desc ++ [x00] ++ drop (length desc + 1) old
  else take 255 desc.

Definition error_result (error : option (Z * option bytes)) : Z :=
  match error with None => TIO_SUCCESS | Some (code, _) => code end.

Definition error_description (error : option (Z * option bytes)) (old : bytes) : bytes :=
  match error with
  | None => old
  | Some (_, Some desc) => described desc old
  | Some (_, None) => x00 :: drop 1 old
  end.

Lemma get_string_described blk q id desc dst :
  points_to_field blk q (string_field id desc) -> length dst = 255%nat ->
  pr1_message_field_get_string blk q dst MAX_ERROR_DESCRIPTION_SIZE = Ok (described desc dst).
Proof.
  intros Hq Hd. destruct (points_to_header _ _ _ Hq) as (_ & Es & Ed).
  unfold pr1_message_field_get_string, MAX_ERROR_DESCRIPTION_SIZE, described.
  unfold f_size in *; cbn [string_field value_field f_data] in *. rewrite Es. mrun.
  destruct (Z.of_nat (length desc) <? 255) eqn:E; bool_to_prop.
  - ztest. rewrite Ed. mrun.
    rewrite <- (take_drop (length desc) dst) at 1.
    rewrite <- (app_nil_l (take (length desc) dst ++ _)), mem_write_seg by (try done; len). mrun.
    rewrite app_nil_l. ztest.
    rewrite <- (take_drop 1 (drop (length desc) dst)), drop_drop.
    rewrite mem_write_seg by len. done.
  - assert (Er : mem_read blk (q + field_header_size) 255 = Ok (take 255 desc)).
    { destruct (Z.eq_dec (Z.of_nat (length desc)) 255) as [El|El].
      - rewrite <- El, Ed, take_ge by lia. done.
      - destruct Hq as (a & post & -> & -> & _). unfold enc_field. cbn [string_field value_field f_data f_id f_type].
        rewrite <- (take_drop 255 desc) at 2. rewrite <- !app_assoc.
        rewrite !app_assoc. rewrite <- (app_assoc _ (drop 255 desc)).
        rewrite <- (app_assoc _ (take 255 desc)). apply mem_read_seg; unfold field_header_size; len. }
    destruct (255 <? Z.of_nat (length desc)) eqn:E2; bool_to_prop.
    + rewrite Er. mrun. rewrite <- (app_nil_r dst), <- (app_nil_l (dst ++ [])), mem_write_seg by (try done; len).
      mrun. by rewrite app_nil_l, app_nil_r.
    + replace (Z.of_nat (length desc)) with 255 by lia. rewrite Er. mrun.
      rewrite <- (app_nil_r dst), <- (app_nil_l (dst ++ [])), mem_write_seg by (try done; len).
      mrun. by rewrite app_nil_l, app_nil_r.
Qed.

Definition with_description (d : bytes) (w : world) : world :=
  {| rx := rx w; tx := tx w; send_script := send_script w; select_script := select_script w;
     clock := clock w; g_last_error_description := d |}.

Lemma get_error_code_ok m ans error c :
  parsed_as m ans -> answer_error ans error -> length (g_last_error_description (net c)) = 255%nat ->
  pr1_message_get_error_code m c =
    (Ok (error_result error),
     set_net (with_description (error_description error (g_last_error_description (net c))) (net c)) c).
Proof.
  intros Hp Herr Hlen. unfold pr1_message_get_error_code. destruct error as [ [code desc]|]; simpl in Herr.
  - destruct Herr as (Fe & Hi & Fd).
    destruct (find_int_ok m ans _ _ Hp Fe Hi) as (q & E1 & E2). mstep E1. cbn iota.
    destruct (find_by_id_ok m ans MESSAGE_FIELD_ID_ERROR_DESC Hp) as (rd & E3 & Hd).
    rewrite Fd in Hd. mstep E3. rewrite bind_get. cbn zeta. destruct desc as [desc|]; simpl in Hd.
    + destruct Hd as (qd & -> & Hqd). mstep (get_string_described _ _ _ _ _ Hqd Hlen).
      unfold store_description. erewrite bind_ok; [|by apply on_net_ok]. by rewrite E2.
    + subst rd. destruct (g_last_error_description (net c)) as [|b old] eqn:Eo; [simpl in Hlen; lia|].
      assert (Ew : mem_write (b :: old) 0 [x00] = Ok (x00 :: old)).
      { unfold mem_write. ztest. done. }
      mstep Ew. unfold store_description. erewrite bind_ok; [|by apply on_net_ok]. by rewrite E2.
  - destruct (find_by_id_ok m ans MESSAGE_FIELD_ID_ERROR_CODE Hp) as (rd & E1 & Hd).
    rewrite Herr in Hd. subst rd. mstep E1. simpl. unfold mret, M_ret, with_description.
    by destruct c as [ [] ].
Qed.

(** ** Commands that return data *)

(** The output arguments the caller passes, and the values they come back with. *)
Definition out_wf (o : out_data) : Prop := forall td, o = Some td -> exists v, represents td v.

Definition out_represents (before after : out_data) (v : tio_value) : Prop :=
  match before, after with
  | None, None => True
  | Some _, Some td => represents td v
  | _, _ => False
  end.

(** The data fields of an answer. *)
Definition answer_data (ans : list field) (k v md : option tio_value) : Prop :=
  find_field MESSAGE_FIELD_ID_KEY ans = value_field MESSAGE_FIELD_ID_KEY <$> k /\
  find_field MESSAGE_FIELD_ID_VALUE ans = value_field MESSAGE_FIELD_ID_VALUE <$> v /\
  find_field MESSAGE_FIELD_ID_METADATA ans = value_field MESSAGE_FIELD_ID_METADATA <$> md /\
  opt_ok k /\ opt_ok v /\ opt_ok md.

Lemma read_out_ok m ans id o v :
  parsed_as m ans -> out_wf o -> find_field id ans = value_field id <$> v -> opt_ok v ->
  exists o', read_out m id (tiodata_set_as_none <$> o) = Ok o' /\ out_represents o o' (default VNone v).
Proof.
  intros Hp Hwf Hf Hok. destruct o as [td|]; simpl; [|by eexists].
  destruct (Hwf td eq_refl) as (v0 & Hrep). apply set_as_none_represents in Hrep.
  destruct (get_as_tio_data_ok m ans id _ _ v Hp Hrep Hf Hok) as (td' & -> & Hrep'). mrun.
  by eexists.
Qed.

Lemma cleared_represents o : out_wf o -> out_represents o (tiodata_set_as_none <$> o) VNone.
Proof.
  intros Hwf. destruct o as [td|]; simpl; [|done]. destruct (Hwf td eq_refl) as (v0 & Hrep).
  by eapply set_as_none_represents.
Qed.

(** A connection ready for a command on one of its containers: the other end
    will send [msgs], then the answer. *)
Record ready (p s cp : Z) (cont : TIO_CONTAINER) (c : client) (r : registry)
    (msgs : list (list field * Z)) (ns : list notification) (ans : list field) (seq : Z)
    (rest : bytes) (scr : list select_event) : Prop := {
  rd_serves : serves p s c r;
  rd_container : conts c !! cp = Some cont;
  rd_connection : connection cont = p;
  rd_send : send_script (net c) = [];
  rd_description : length (g_last_error_description (net c)) = 255%nat;
  rd_exchange : exchange p s r (net c) msgs ns ans seq rest scr
}.

(** What a completed command leaves: the request on the wire, the notifications
    delivered, the answer consumed and its error description kept. *)
Record completed (p s : Z) (c : client) (r : registry) (ns : list notification)
    (request rest : bytes) (scr : list select_event) (error : option (Z * option bytes))
    (c' : client) : Prop := {
  cm_serves : serves p s c' (spec_run p r ns).1;
  cm_request : tx (net c') !! s = Some (default [] (tx (net c) !! s) ++ request);
  cm_calls : exists cs, calls c' = calls c ++ cs /\ Forall2 call_matches cs (spec_run p r ns).2;
  cm_stream : stream (net c') s = rest;
  cm_select : select_script (net c') = scr;
  cm_description : g_last_error_description (net c') =
    error_description error (g_last_error_description (net c))
}.

(** One request and its answer: the command is sent, the answer received. *)
Lemma command_answered p s cp cont c r msgs ns ans seq rest scr cmd key value metadata kv vv mv :
  ready p s cp cont c r msgs ns ans seq rest scr ->
  command_args key value metadata kv vv mv -> fits (data_fields cmd (handle cont) kv vv mv) ->
  exists n c1 m c2,
    tio_container_send_command cp cmd key value metadata c = (Ok n, c1) /\ 0 <= n /\
    conts c1 !! cp = Some cont /\
    tio_receive_until_not_event p c1 = (Ok (fields_size ans, Some m), c2) /\ parsed_as m ans /\
    length (g_last_error_description (net c2)) = 255%nat /\
    completed p s c r ns (enc_message (data_fields cmd (handle cont) kv vv mv) 0) rest scr None c2.
Proof.
  intros [Hsv Hct Hcn Hss Hd Hex] Hargs Hfits. pose proof Hsv as (conn & Hid & Htr).
  destruct (send_command_ok p s conn c cp cont cmd key value metadata kv vv mv) as (t & w & E1 & Hsent);
    auto; [apply Htr|apply Hid|].
  eexists _, _. destruct (until_not_event_ok p s
    (set_net w (set_conns (<[p := set_thread_id t conn]> (conns c)) c)) r msgs ns ans seq rest scr)
    as (m & c2 & E2 & [Am Ar Ac As Ae (Ao1 & Ao2 & Ao3)]).
  { by apply serves_sent. }
  { by eapply exchange_sent. }
  exists m, c2. split; [done|]. split; [pose proof (fields_size_nonneg (data_fields cmd (handle cont) kv vv mv)); lia|].
  split; [done|]. split; [done|]. split; [done|].
  destruct Hsent as [St _ _ _ _ Sd]. simpl in *. split; [congruence|].
  split; auto; [congruence|]. simpl. congruence.
Qed.

Lemma completed_error p s c r ns req rest scr error c2 :
  completed p s c r ns req rest scr None c2 ->
  completed p s c r ns req rest scr error
    (set_net (with_description (error_description error (g_last_error_description (net c2))) (net c2)) c2).
Proof.
  intros [C1 C2 C3 C4 C5 C6]. split; simpl; auto; [by apply serves_set_net|].
  simpl in C6. by rewrite C6.
Qed.

Lemma not_failed n : 0 <= n -> TIO_FAILED n = false.
Proof. intros H. unfold TIO_FAILED. by ztest. Qed.

Lemma fields_size_not_failed ans : TIO_FAILED (fields_size ans) = false.
Proof. apply not_failed, fields_size_nonneg. Qed.

Lemma data_response_ok p s cp cont c r msgs ns ans seq rest scr cmd input kv key value metadata
    error k v md :
  ready p s cp cont c r msgs ns ans seq rest scr ->
  opt_represents input kv -> fits (data_fields cmd (handle cont) kv None None) ->
  out_wf key -> out_wf value -> out_wf metadata ->
  answer_error ans error -> answer_data ans k v md ->
  let failed := TIO_FAILED (error_result error) in
  exists key' value' metadata' c',
    tio_container_send_command_and_get_data_response cp cmd input key value metadata c
      = (Ok (error_result error, (key', value', metadata')), c') /\
    completed p s c r ns (enc_message (data_fields cmd (handle cont) kv None None) 0) rest scr error c' /\
    out_represents key key' (if failed then VNone else default VNone k) /\
    out_represents value value' (if failed then VNone else default VNone v) /\
    out_represents metadata metadata' (if failed then VNone else default VNone md).
Proof.
  intros Hrd Hin Hfits Wk Wv Wm Herr (Fk & Fv & Fm & Ok1 & Ok2 & Ok3).
  destruct (command_answered p s cp cont c r msgs ns ans seq rest scr cmd input None None kv None None)
    as (n & c1 & m & c2 & E1 & Hn & Hct & E2 & Hp & Hd & Hcm); [done|by split|done|].
  unfold tio_container_send_command_and_get_data_response. cbn zeta. mstep E1.
  rewrite (not_failed n Hn). mstep (cont_at_ok _ _ _ Hct).
  rewrite (rd_connection _ _ _ _ _ _ _ _ _ _ _ _ Hrd). mstep E2. cbn iota beta.
  rewrite fields_size_not_failed. rewrite (bind_lift_ok _ _ _ m eq_refl).
  mstep (get_error_code_ok m ans error c2 Hp Herr Hd).
  destruct (TIO_FAILED (error_result error)).
  - eexists _, _, _, _. split; [reflexivity|]. split; [by apply completed_error|].
    auto using cleared_represents.
  - destruct (read_out_ok m ans _ key k Hp Wk Fk Ok1) as (k' & Ek & Rk). mstep Ek.
    destruct (read_out_ok m ans _ value v Hp Wv Fv Ok2) as (v' & Ev & Rv). mstep Ev.
    destruct (read_out_ok m ans _ metadata md Hp Wm Fm Ok3) as (m' & Em & Rm). mstep Em.
    eexists _, _, _, _. split; [reflexivity|]. split; [by apply completed_error|]. auto.
Qed.

(** A command that changes a container, outside a batch. *)
Lemma input_command_ok p s cp cont c r msgs ns ans seq rest scr cmd key value metadata kv vv mv error :
  ready p s cp cont c r msgs ns ans seq rest scr -> 0 <= cmd < 2 ^ 16 ->
  command_args key value metadata kv vv mv -> fits (data_fields cmd (handle cont) kv vv mv) ->
  answer_error ans error ->
  exists c', tio_container_input_command cp cmd key value metadata c
      = (Ok (if TIO_FAILED (error_result error) then error_result error else TIO_SUCCESS), c') /\
    completed p s c r ns (enc_message (data_fields cmd (handle cont) kv vv mv) 0) rest scr error c'.
Proof.
  intros Hrd Hcmd Hargs Hfits Herr.
  destruct (command_answered p s cp cont c r msgs ns ans seq rest scr cmd key value metadata kv vv mv)
    as (n & c1 & m & c2 & E1 & Hn & Hct & E2 & Hp & Hd & Hcm); auto.
  destruct Hrd as [ (conn & Hid & Htr) Hc Hcn _ _ _].
  unfold tio_container_input_command. mstep (cont_at_ok _ _ _ Hc). rewrite Hcn.
  mstep (conn_at_ok _ _ _ (tr_conn _ _ _ _ Htr)). rewrite (idle_wait _ _ _ Hid).
  rewrite u16_small by lia.
  assert (E : tio_container_send_command_and_get_response cp cmd key value metadata c
      = (Ok (fields_size ans, Some m), c2)).
  { unfold tio_container_send_command_and_get_response. mstep E1. rewrite (not_failed n Hn).
    mstep (cont_at_ok _ _ _ Hct). by rewrite Hcn. }
  mstep E. cbn iota beta. rewrite fields_size_not_failed, (bind_lift_ok _ _ _ m eq_refl).
  mstep (get_error_code_ok m ans error c2 Hp Herr Hd).
  destruct (TIO_FAILED (error_result error)); (eexists; split; [reflexivity|by apply completed_error]).
Qed.

(** A command that changes a container ([tio_container_push_back], [_set],
    [_insert], [_delete], [_clear], [_propset], subscriptions) outside a batch is
    exactly one request on the wire and one answer: it returns the server's
    error code when that is negative and [TIO_SUCCESS] otherwise, delivers the
    notifications that came first, and keeps the server's error description. *)
Theorem tio_container_input_command_answer p s cp cont c r msgs ns ans seq rest scr cmd key value metadata kv vv mv error :
  ready p s cp cont c r msgs ns ans seq rest scr -> 0 <= cmd < 2 ^ 16 ->
  command_args key value metadata kv vv mv -> fits (data_fields cmd (handle cont) kv vv mv) ->
  answer_error ans error ->
  exists c', tio_container_input_command cp cmd key value metadata c
      = (Ok (if TIO_FAILED (error_result error) then error_result error else TIO_SUCCESS), c') /\
    completed p s c r ns (enc_message (data_fields cmd (handle cont) kv vv mv) 0) rest scr error c'.
Proof. apply input_command_ok. Qed.

(** ** Batches *)

(** A connection inside a batch. *)
Definition batching (p s : Z) (c : client) (r : registry) : Prop :=
  exists conn, idle p s (set_wait_for_answer true conn) /\ wait_for_answer conn = false /\
    tracks p conn c r.

Definition set_outstanding (n : Z) (r : registry) : registry :=
  {| table := table r; fresh := fresh r; group_callback := group_callback r;
     group_cookie := group_cookie r; outstanding := n |}.

(** A connection whose counter alone changed. *)
Lemma idle_set_pending p s n conn :
  0 <= n -> idle p s conn -> idle p s (set_pending_event_count n conn).
Proof.
  intros Hn [I1 I2 I3 I4 (pms & [] & H) I6 I7 I8 I9]. split; simpl; auto. by exists pms.
Qed.

Lemma tracks_set_pending p n conn c r :
  tracks p conn c r ->
  tracks p (set_pending_event_count n conn)
    (set_conns (<[p := set_pending_event_count n conn]> (conns c)) c) (set_outstanding n r).
Proof. intros []. split; simpl; auto. by rewrite lookup_insert_eq. Qed.

Lemma begin_batch_ok p s c r :
  serves p s c r -> outstanding r = 0 ->
  exists c', tio_begin_network_batch p c = (Ok tt, c') /\ batching p s c' r /\
    net c' = net c /\ calls c' = calls c /\ conts c' = conts c.
Proof.
  intros (conn & Hid & Htr) H0. pose proof (tr_conn _ _ _ _ Htr) as Hc. unfold tio_begin_network_batch.
  mstep (conn_at_ok _ _ _ Hc). unfold assert_.
  rewrite (tr_count _ _ _ _ Htr), H0, (idle_wait _ _ _ Hid).
  rewrite !(bind_lift_ok _ _ _ tt eq_refl), (update_conn_ok _ _ _ _ Hc).
  eexists. split; [done|]. split; [|done]. eexists. split; [|split; [|by eapply tracks_set_conn] ]; [|done].
  by destruct Hid.
Qed.

Lemma batch_command_ok p s c r cp cont cmd key value metadata kv vv mv :
  batching p s c r -> conts c !! cp = Some cont -> connection cont = p -> 0 <= outstanding r ->
  send_script (net c) = [] -> 0 <= cmd < 2 ^ 16 ->
  command_args key value metadata kv vv mv -> fits (data_fields cmd (handle cont) kv vv mv) ->
  exists result c', tio_container_input_command cp cmd key value metadata c = (Ok result, c') /\
    0 < result /\ batching p s c' (set_outstanding (outstanding r + 1) r) /\
    sent s (enc_message (data_fields cmd (handle cont) kv vv mv) 0) (net c) (net c') /\
    conts c' = conts c /\ calls c' = calls c.
Proof.
  intros (conn & Hid & Hw & Htr) Hct Hcn Hn0 Hss Hcmd Hargs Hfits.
  pose proof (tr_conn _ _ _ _ Htr) as Hc. unfold tio_container_input_command.
  mstep (cont_at_ok _ _ _ Hct). rewrite Hcn. mstep (conn_at_ok _ _ _ Hc). rewrite Hw, u16_small by lia.
  destruct (send_command_ok p s conn c cp cont cmd key value metadata kv vv mv) as (t & w & E & Hsent); auto.
  { by destruct Hid. }
  mstep E. pose proof (fields_size_nonneg (data_fields cmd (handle cont) kv vv mv)).
  rewrite not_failed by lia. unfold bump_pending.
  erewrite bind_ok; [|apply update_conn_ok; cbn; apply lookup_insert_eq].
  eexists _, _. split; [reflexivity|]. split; [lia|]. split; [|done].
  rewrite <- (tr_count _ _ _ _ Htr). cbn [conns set_conns set_net].
  set (conn' := set_thread_id t conn).
  exists (set_pending_event_count (EventQueue.pending_event_count (events conn) + 1) conn').
  split; [|split; [done|]].
  - apply (idle_set_pending p s _ (set_thread_id t (set_wait_for_answer true conn)));
      [rewrite (tr_count _ _ _ _ Htr); lia|by destruct Hid].
  - pose proof (tracks_set_conn p conn conn' c r Htr eq_refl eq_refl eq_refl eq_refl) as T.
    destruct (tracks_set_pending p (EventQueue.pending_event_count (events conn) + 1) conn' _ r T). by split.
Qed.

(** The answers to the commands of a batch, each with the notifications that
    come before it. *)
Record reply := {
  rp_msgs : list (list field * Z); rp_ns : list notification; rp_ans : list field; rp_seq : Z
}.

Definition reply_wire (x : reply) : bytes := wire (rp_msgs x) ++ enc_message (rp_ans x) (rp_seq x).

Fixpoint replies_ok (p : Z) (r : registry) (l : list reply) : Prop :=
  match l with
  | [] => True
  | x :: l =>
      Forall2 (fun y n => carries y.1 n) (rp_msgs x) (rp_ns x) /\
      Forall (fun y => sendable y.1) (rp_msgs x) /\ all_admissible p r (rp_ns x) /\
      (exists command, is_answer (rp_ans x) command) /\ sendable (rp_ans x) /\
      replies_ok p (spec_run p r (rp_ns x)).1 l
  end.

Definition replies_wire (l : list reply) : bytes := mjoin (reply_wire <$> l).
Definition replies_select (s : Z) (l : list reply) : list select_event :=
  mjoin ((fun x => replicate (S (length (rp_ns x))) (SelReady [s])) <$> l).
Definition replies_ns (l : list reply) : list notification := mjoin (rp_ns <$> l).

Lemma spec_run_app p ms : forall r ns,
  spec_run p r (ms ++ ns) =
    ((spec_run p (spec_run p r ms).1 ns).1, (spec_run p r ms).2 ++ (spec_run p (spec_run p r ms).1 ns).2).
Proof.
  induction ms as [|m ms IH]; intros r ns; simpl; [by destruct (spec_run p r ns)|].
  destruct (spec_step p r m) as [r1 xs]. rewrite IH. destruct (spec_run p r1 ms) as [r2 ys]. simpl.
  by rewrite app_assoc.
Qed.

Lemma spec_run_outstanding p ns : forall r, outstanding (spec_run p r ns).1 = outstanding r.
Proof.
  induction ns as [|n ns IH]; intros r; [done|]. simpl.
  destruct (spec_step p r n) as [r1 xs] eqn:E. specialize (IH r1). destruct (spec_run p r1 ns). simpl in *.
  rewrite IH. destruct n; by injection E as <- _.
Qed.

(** What the loop of [tio_finish_network_batch] leaves. *)
Record drained (p s : Z) (c : client) (r : registry) (ns : list notification) (rest : bytes)
    (scr : list select_event) (c' : client) : Prop := {
  dr_serves : serves p s c' (spec_run p r ns).1;
  dr_calls : exists cs, calls c' = calls c ++ cs /\ Forall2 call_matches cs (spec_run p r ns).2;
  dr_stream : stream (net c') s = rest;
  dr_select : select_script (net c') = scr;
  dr_output : same_output (net c) (net c')
}.

Lemma finish_loop_ok rest scr : forall l fuel p s c r a,
  serves p s c r -> replies_ok p r l ->
  stream (net c) s = replies_wire l ++ rest -> select_script (net c) = replies_select s l ++ scr ->
  outstanding r = a + Z.of_nat (length l) -> (length l < fuel)%nat ->
  exists c', finish_loop fuel p a c = (Ok tt, c') /\ drained p s c r (replies_ns l) rest scr c'.
Proof.
  induction l as [|x l IH]; intros fuel p s c r a Hsv Hok Hst Hsel Hout Hfuel;
    (destruct fuel as [|fuel]; [simpl in Hfuel; lia|]); cbn [finish_loop];
    pose proof Hsv as (conn & Hid & Htr); mstep (conn_at_ok _ _ _ (tr_conn _ _ _ _ Htr));
    rewrite (tr_count _ _ _ _ Htr), Hout; simpl length in *; ztest.
  - exists c. split; [done|]. split; auto; [|done]. exists []. rewrite app_nil_r. split; [done|constructor].
  - destruct Hok as (H1 & H2 & H3 & H4 & H5 & Hok).
    destruct (until_not_event_ok p s c r (rp_msgs x) (rp_ns x) (rp_ans x) (rp_seq x)
      (replies_wire l ++ rest) (replies_select s l ++ scr))
      as (m & c1 & E & [Am Ar (cs & Ac & Acs) As Ae Ao]); [done| |].
    { split; auto.
      - rewrite Hst. unfold replies_wire, reply_wire at 1. rewrite fmap_cons. cbn [mjoin list_join].
        unfold reply_wire at 1. by rewrite <- !app_assoc.
      - rewrite Hsel. unfold replies_select. rewrite fmap_cons. cbn [mjoin list_join].
        by rewrite <- !app_assoc. }
    mstep E. cbn iota beta.
    destruct (IH fuel p s c1 (spec_run p r (rp_ns x)).1 (a + 1)) as (c' & E' & [Dr (cs' & Dc & Dcs) Ds De Do]); auto.
    { rewrite spec_run_outstanding. lia. }
    { lia. }
    exists c'. split; [done|]. unfold replies_ns. rewrite fmap_cons. cbn [mjoin list_join].
    split; rewrite ?spec_run_app; auto.
    + exists (cs ++ cs'). split; [by rewrite Dc, Ac, app_assoc|]. simpl. by apply Forall2_app.
    + by eapply same_output_trans.
Qed.

(** The number of outstanding answers does not change what notifications do. *)
Lemma spec_run_set_outstanding p n ns : forall r,
  spec_run p (set_outstanding n r) ns =
    (set_outstanding n (spec_run p r ns).1, (spec_run p r ns).2).
Proof.
  induction ns as [|x ns IH]; intros r; [done|]. simpl.
  assert (E : spec_step p (set_outstanding n r) x =
    (set_outstanding n (spec_step p r x).1, (spec_step p r x).2)) by by destruct x.
  rewrite E. destruct (spec_step p r x) as [r1 xs]. simpl. rewrite IH. by destruct (spec_run p r1 ns).
Qed.

Lemma all_admissible_set_outstanding p n ns : forall r,
  all_admissible p r ns -> all_admissible p (set_outstanding n r) ns.
Proof.
  induction ns as [|x ns IH]; intros r; [done|]. intros [H1 H2]. split; [by destruct x|].
  assert ((spec_step p (set_outstanding n r) x).1 = set_outstanding n (spec_step p r x).1) as -> by by destruct x.
  by apply IH.
Qed.

Lemma replies_ok_set_outstanding p n l : forall r,
  replies_ok p r l -> replies_ok p (set_outstanding n r) l.
Proof.
  induction l as [|x l IH]; intros r; [done|]. intros (H1 & H2 & H3 & H4 & H5 & H6).
  do 2 (split; [done|]). split; [by apply all_admissible_set_outstanding|]. do 2 (split; [done|]).
  rewrite spec_run_set_outstanding. by apply IH.
Qed.

Lemma finish_batch_ok p s c r l rest scr :
  batching p s c r -> replies_ok p r l -> outstanding r = Z.of_nat (length l) ->
  stream (net c) s = replies_wire l ++ rest -> select_script (net c) = replies_select s l ++ scr ->
  exists c', tio_finish_network_batch p c = (Ok tt, c') /\
    drained p s c (set_outstanding 0 r) (replies_ns l) rest scr c'.
Proof.
  intros (conn & Hid & Hw & Htr) Hok Hout Hst Hsel. pose proof (tr_conn _ _ _ _ Htr) as Hc.
  unfold tio_finish_network_batch. mstep (conn_at_ok _ _ _ Hc). rewrite Hw.
  rewrite (bind_lift_ok _ _ _ tt eq_refl). mstep (update_conn_ok _ (set_wait_for_answer true) _ _ Hc).
  rewrite bind_get. set (conn1 := set_wait_for_answer true conn).
  set (c1 := set_conns (<[p := conn1]> (conns c)) c).
  assert (Hsv : serves p s c1 r) by (exists conn1; split; [done|by eapply tracks_set_conn]).
  destruct (finish_loop_ok rest scr l
    (S (Z.to_nat (EventQueue.pending_event_count (events conn)) + total_rx (net c1))) p s c1 r 0)
    as (c2 & E2 & [(conn2 & Hid2 & Htr2) Dc Ds De Do]); auto.
  { rewrite (tr_count _ _ _ _ Htr). lia. }
  mstep E2. rewrite (update_conn_ok _ _ _ _ (tr_conn _ _ _ _ Htr2)).
  eexists. split; [done|]. split; rewrite ?spec_run_set_outstanding; auto.
  exists (set_pending_event_count 0 conn2).
  split; [by apply idle_set_pending|by apply tracks_set_pending].
Qed.

(** A command of a batch, its container and its arguments. *)
Record batch_command := {
  bc_container : Z; bc_handle : Z; bc_command : Z;
  bc_key : option TIO_DATA; bc_value : option TIO_DATA; bc_metadata : option TIO_DATA;
  bc_kv : option tio_value; bc_vv : option tio_value; bc_mv : option tio_value
}.

Definition bc_fields (b : batch_command) : list field :=
  data_fields (bc_command b) (bc_handle b) (bc_kv b) (bc_vv b) (bc_mv b).

Definition batch_command_wf (p : Z) (c : client) (b : batch_command) : Prop :=
  (exists cont, conts c !! bc_container b = Some cont /\ connection cont = p /\ handle cont = bc_handle b) /\
  0 <= bc_command b < 2 ^ 16 /\
  command_args (bc_key b) (bc_value b) (bc_metadata b) (bc_kv b) (bc_vv b) (bc_mv b) /\
  fits (bc_fields b).

Fixpoint send_all (bs : list batch_command) : M client unit :=
  match bs with
  | [] => mret tt
  | b :: bs =>
      _ ← tio_container_input_command (bc_container b) (bc_command b) (bc_key b) (bc_value b) (bc_metadata b);
      send_all bs
  end.

(** What an application does with a batch. *)
Definition run_batch (p : Z) (bs : list batch_command) : M client unit :=
  _ ← tio_begin_network_batch p; _ ← send_all bs; tio_finish_network_batch p.

Definition requests (bs : list batch_command) : bytes :=
  mjoin ((fun b => enc_message (bc_fields b) 0) <$> bs).

(** A socket on which nothing was sent has no entry yet. *)
Definition tx_of (w : world) (s : Z) : bytes := default [] (tx w !! s).

Lemma send_all_ok bs : forall p s c r,
  batching p s c r -> 0 <= outstanding r -> send_script (net c) = [] ->
  Forall (batch_command_wf p c) bs ->
  exists c', send_all bs c = (Ok tt, c') /\
    batching p s c' (set_outstanding (outstanding r + Z.of_nat (length bs)) r) /\
    tx_of (net c') s = tx_of (net c) s ++ requests bs /\ calls c' = calls c /\
    rx (net c') = rx (net c) /\ select_script (net c') = select_script (net c).
Proof.
  induction bs as [|b bs IH]; intros p s c r Hb Hn Hss Hwf.
  - exists c. split; [done|]. rewrite Z.add_0_r, app_nil_r. split; [|done].
    by replace (set_outstanding (outstanding r) r) with r by by destruct r.
  - apply Forall_cons in Hwf as [ ( (cont & Hct & Hcn & Hh) & Hcmd & Hargs & Hfits) Hwf].
    unfold bc_fields in Hfits. rewrite <- Hh in Hfits.
    destruct (batch_command_ok p s c r (bc_container b) cont (bc_command b) (bc_key b) (bc_value b)
      (bc_metadata b) (bc_kv b) (bc_vv b) (bc_mv b)) as (result & c1 & E & _ & Hb1 & Hsent & Hcts & Hcl); auto.
    destruct Hsent as [St Sr Ss Se _ _].
    cbn [send_all]. mstep E.
    destruct (IH p s c1 (set_outstanding (outstanding r + 1) r)) as (c' & E' & Hb' & Htx & Hcl' & Hrx & Hse); auto.
    { simpl. lia. }
    { eapply Forall_impl; [done|]. intros b' (Hx & Hy). split; [by rewrite Hcts|done]. }
    exists c'. split; [done|]. split; [|split; [|split; [congruence|split; congruence] ] ].
    + simpl in Hb'. simpl length. by replace (outstanding r + Z.of_nat (S (length bs)))
        with (outstanding r + 1 + Z.of_nat (length bs)) by lia.
    + rewrite Htx. unfold tx_of at 1. rewrite St. unfold requests. rewrite fmap_cons. cbn [mjoin list_join].
      unfold bc_fields at 2. rewrite <- Hh. simpl. by rewrite <- app_assoc.
Qed.

(** ** Properties *)

(** A command that returns data ([tio_container_get], [_pop_back],
    [_pop_front], [_propget], [_get_count]) sends its key and returns what the
    server answers: on success the key, value and metadata of the answer, on
    an error the code and cleared outputs, whatever the outputs held before and
    whatever notifications come before the answer. *)
Theorem tio_container_data_response p s cp cont c r msgs ns ans seq rest scr cmd input kv
    key value metadata error k v md :
  ready p s cp cont c r msgs ns ans seq rest scr ->
  opt_represents input kv -> fits (data_fields cmd (handle cont) kv None None) ->
  out_wf key -> out_wf value -> out_wf metadata ->
  answer_error ans error -> answer_data ans k v md ->
  let failed := TIO_FAILED (error_result error) in
  exists key' value' metadata' c',
    tio_container_send_command_and_get_data_response cp cmd input key value metadata c
      = (Ok (error_result error, (key', value', metadata')), c') /\
    completed p s c r ns (enc_message (data_fields cmd (handle cont) kv None None) 0) rest scr error c' /\
    out_represents key key' (if failed then VNone else default VNone k) /\
    out_represents value value' (if failed then VNone else default VNone v) /\
    out_represents metadata metadata' (if failed then VNone else default VNone md).
Proof. apply data_response_ok. Qed.

(** C30. A batch pairs every command with its answer.  Between
    [tio_begin_network_batch] and [tio_finish_network_batch] the commands are
    only sent, in order; finishing reads exactly one answer for each, handles
    the notifications among them in order, and leaves the connection ready for
    the next command with nothing outstanding. *)
Theorem network_batch p s c r bs l rest scr :
  serves p s c r -> outstanding r = 0 -> send_script (net c) = [] ->
  Forall (batch_command_wf p c) bs -> length l = length bs -> replies_ok p r l ->
  stream (net c) s = replies_wire l ++ rest -> select_script (net c) = replies_select s l ++ scr ->
  exists c' cs, run_batch p bs c = (Ok tt, c') /\
    serves p s c' (spec_run p r (replies_ns l)).1 /\ stream (net c') s = rest /\
    tx_of (net c') s = tx_of (net c) s ++ requests bs /\
    calls c' = calls c ++ cs /\ Forall2 call_matches cs (spec_run p r (replies_ns l)).2.
Proof.
  intros Hsv H0 Hss Hwf Hlen Hok Hst Hsel. unfold run_batch.
  destruct (begin_batch_ok p s c r Hsv H0) as (c1 & E1 & Hb1 & Hn1 & Hc1 & Hct1). mstep E1.
  destruct (send_all_ok bs p s c1 r Hb1) as (c2 & E2 & Hb2 & Htx & Hc2 & Hrx & Hse); rewrite ?Hn1; auto; [lia| |].
  { eapply Forall_impl; [done|]. intros b (Hx & Hy). split; [by rewrite Hct1|done]. }
  mstep E2. rewrite Hn1 in *. rewrite H0 in Hb2.
  destruct (finish_batch_ok p s c2 (set_outstanding (0 + Z.of_nat (length bs)) r) l rest scr)
    as (c3 & E3 & [Dr (cs & Dc & Dcs) Ds _ (Do & _)]); auto.
  { by apply replies_ok_set_outstanding. }
  { simpl. lia. }
  { unfold stream in *. by rewrite (script_of_rx _ _ _ Hrx). }
  { congruence. }
  assert (Hr : set_outstanding 0 (set_outstanding (0 + Z.of_nat (length bs)) r) = r)
    by (destruct r; simpl in *; by subst).
  rewrite Hr in *. exists c3, cs. split; [done|]. split; [done|]. split; [done|].
  split; [|split; [congruence|done] ]. unfold tx_of in *. by rewrite Do.
Qed.

(** A long error description is kept without its end.  When the server
    describes an error in 255 or more bytes, none of them NUL, the buffer
    [g_last_error_description] holds its first 255 bytes and no NUL, so the
    string [tio_get_last_error_description] returns runs past the buffer. *)
Theorem error_description_unterminated m ans code desc c :
  parsed_as m ans -> answer_error ans (Some (code, Some desc)) ->
  length (g_last_error_description (net c)) = 255%nat ->
  255 <= Z.of_nat (length desc) -> x00 ∉ desc ->
  exists c', pr1_message_get_error_code m c = (Ok code, c') /\
    pr1_get_last_error_description (net c') = take 255 desc /\
    x00 ∉ pr1_get_last_error_description (net c').
Proof.
  intros Hp Herr Hlen Hd Hz. rewrite (get_error_code_ok m ans _ c Hp Herr Hlen).
  eexists. split; [done|]. unfold pr1_get_last_error_description. simpl. unfold described. ztest.
  split; [done|]. intros Hin. apply Hz. rewrite <- (take_drop 255 desc), elem_of_app. by left.
Qed.

(** ** Witnesses *)

Definition ex_reply_world (bs : bytes) (n : nat) : world :=
  {| rx := {[3 := [Chunk bs]]}; tx := ∅; send_script := [];
     select_script := replicate n (SelReady [3]); clock := [];
     g_last_error_description := replicate 255 x00 |}.

(** The answer to a [get], after an event. *)
Definition ex_data_answer : list field :=
  [ int_field MESSAGE_FIELD_ID_COMMAND TIO_COMMAND_ANSWER;
    string_field MESSAGE_FIELD_ID_VALUE (lit "99") ].

Definition ex_error_answer : list field :=
  [ int_field MESSAGE_FIELD_ID_COMMAND TIO_COMMAND_ANSWER;
    int_field MESSAGE_FIELD_ID_ERROR_CODE TIO_ERROR_NO_SUCH_OBJECT;
    string_field MESSAGE_FIELD_ID_ERROR_DESC (lit "key not found") ].

Definition ex_one_event : list (list field * Z) := [ (ex_event_fields 5 (VInt 1), 0) ].

Lemma ex_ready ans :
  sendable ans -> is_answer ans TIO_COMMAND_ANSWER ->
  stream (ex_reply_world (wire ex_one_event ++ enc_message ans 0) 2) 3
    = wire ex_one_event ++ enc_message ans 0 ++ [] ->
  ready 1 3 10 ex_container (ex_client (ex_reply_world (wire ex_one_event ++ enc_message ans 0) 2))
    ex_registry ex_one_event [Event (ex_event 5 (VInt 1))] ans 0 [] [].
Proof.
  intros Hs Ha Hst. split; [apply ex_serves|done|done|done|done|].
  split; [repeat constructor|repeat constructor; done| |by eexists|done|done|done].
  split; [|done]. split; [by eexists|]. repeat split; try done. by intros v [= <-].
Qed.

Lemma tio_container_data_response_witness :
  exists value' c',
    tio_container_get 10 (Some (tiodata_set_int tiodata_init 2)) None (Some tiodata_init) None
      (ex_client (ex_reply_world (wire ex_one_event ++ enc_message ex_data_answer 0) 2))
      = (Ok (0, (None, Some value', None)), c') /\ represents value' (VString (lit "99")).
Proof.
  destruct (tio_container_data_response 1 3 10 ex_container
    (ex_client (ex_reply_world (wire ex_one_event ++ enc_message ex_data_answer 0) 2)) ex_registry
    ex_one_event [Event (ex_event 5 (VInt 1))] ex_data_answer 0 [] [] TIO_COMMAND_GET
    (Some (tiodata_set_int tiodata_init 2)) (Some (VInt 2)) None (Some tiodata_init) None None
    None (Some (VString (lit "99"))) None) as (k' & v' & m' & c' & E & _ & Hk & Hv & Hm).
  - apply ex_ready; [repeat constructor; done|repeat split; done|vm_compute; reflexivity].
  - apply rep_int; done.
  - vm_compute. reflexivity.
  - intros td [=].
  - intros td [= <-]. exists VNone. apply init_represents.
  - intros td [=].
  - reflexivity.
  - repeat split; try done. intros v [= <-]. done.
  - destruct k' as [k'|]; [destruct Hk|]. destruct m' as [m'|]; [destruct Hm|].
    destruct v' as [v'|]; [|destruct Hv]. exists v', c'. split; [exact E|exact Hv].
Defined.

Lemma tio_container_input_command_answer_witness :
  exists c', tio_container_delete 10 (Some (tiodata_set_int tiodata_init 2))
      (ex_client (ex_reply_world (wire ex_one_event ++ enc_message ex_error_answer 0) 2))
      = (Ok TIO_ERROR_NO_SUCH_OBJECT, c') /\ stream (net c') 3 = [].
Proof.
  destruct (tio_container_input_command_answer 1 3 10 ex_container
    (ex_client (ex_reply_world (wire ex_one_event ++ enc_message ex_error_answer 0) 2)) ex_registry
    ex_one_event [Event (ex_event 5 (VInt 1))] ex_error_answer 0 [] [] TIO_COMMAND_DELETE
    (Some (tiodata_set_int tiodata_init 2)) None None (Some (VInt 2)) None None
    (Some (TIO_ERROR_NO_SUCH_OBJECT, Some (lit "key not found")))) as (c' & E & Hcm).
  - apply ex_ready; [repeat constructor; done|repeat split; done|vm_compute; reflexivity].
  - done.
  - split; [apply rep_int; done|done|done].
  - vm_compute. reflexivity.
  - repeat split; done.
  - exists c'. split; [exact E|]. apply Hcm.
Defined.

Definition ex_batch_command (z : Z) : batch_command :=
  {| bc_container := 10; bc_handle := 5; bc_command := TIO_COMMAND_PUSH_BACK; bc_key := None;
     bc_value := Some (tiodata_set_int tiodata_init z); bc_metadata := None;
     bc_kv := None; bc_vv := Some (VInt z); bc_mv := None |}.

Definition ex_replies : list reply :=
  [ {| rp_msgs := []; rp_ns := []; rp_ans := ex_answer; rp_seq := 0 |};
    {| rp_msgs := ex_one_event; rp_ns := [Event (ex_event 5 (VInt 1))]; rp_ans := ex_error_answer; rp_seq := 0 |} ].

Lemma ex_batch_command_wf z w : is_int z -> batch_command_wf 1 (ex_client w) (ex_batch_command z).
Proof.
  intros Hz. split; [by exists ex_container|]. split; [done|]. split; [by split; [|apply rep_int|] |].
  vm_compute. reflexivity.
Qed.

Lemma network_batch_witness :
  exists c', run_batch 1 [ex_batch_command 1; ex_batch_command 2]
      (ex_client (ex_reply_world (replies_wire ex_replies) 3)) = (Ok tt, c') /\ stream (net c') 3 = [].
Proof.
  destruct (network_batch 1 3 (ex_client (ex_reply_world (replies_wire ex_replies) 3)) ex_registry
    [ex_batch_command 1; ex_batch_command 2] ex_replies [] []) as (c' & cs & E & _ & Hs & _).
  - apply ex_serves.
  - reflexivity.
  - reflexivity.
  - repeat apply Forall_cons_2; [apply ex_batch_command_wf; done|apply ex_batch_command_wf; done|apply Forall_nil_2].
  - reflexivity.
  - split; [constructor|]. split; [constructor|]. split; [done|].
    split; [exists TIO_COMMAND_ANSWER; repeat split; done|]. split; [repeat constructor; done|].
    split; [repeat constructor|]. split; [repeat constructor; done|].
    split; [split; [|done]; split; [by eexists|]; repeat split; try done; by intros v [= <-]|].
    split; [exists TIO_COMMAND_ANSWER; repeat split; done|]. split; [repeat constructor; done|done].
  - vm_compute. reflexivity.
  - reflexivity.
  - exists c'. split; [exact E|exact Hs].
Defined.

(** A message as the parser leaves it. *)
Definition ex_long_answer : list field :=
  [ int_field MESSAGE_FIELD_ID_ERROR_CODE TIO_ERROR_GENERIC;
    string_field MESSAGE_FIELD_ID_ERROR_DESC (replicate 300 x61) ].

Definition ex_parsed (fs : list field) : PR1_MESSAGE :=
  {| stream_buffer := {| buffer := enc_message fs 0; current := 0; buffer_size := 8 + fields_size fs |};
     field_array := Some (offsets header_size fs); field_count := Z.of_nat (length fs) |}.

Lemma error_description_unterminated_witness :
  exists c', pr1_message_get_error_code (ex_parsed ex_long_answer) (ex_client (ex_reply_world [] 0))
    = (Ok TIO_ERROR_GENERIC, c') /\ x00 ∉ pr1_get_last_error_description (net c').
Proof.
  destruct (error_description_unterminated (ex_parsed ex_long_answer) ex_long_answer TIO_ERROR_GENERIC
    (replicate 300 x61) (ex_client (ex_reply_world [] 0))) as (c' & E & _ & Hz).
  - split; [|reflexivity|reflexivity|repeat constructor; done].
    exists (take 8 (enc_message ex_long_answer 0)), []. split; [vm_compute; reflexivity|reflexivity].
  - repeat split; done.
  - reflexivity.
  - vm_compute. congruence.
  - apply (bool_decide_unpack _). vm_compute. exact I.
  - exists c'. split; [exact E|exact Hz].
Defined.

End ClientCommands.
