(* ===== verification/ClientConnect.v ===== *)
(** * Opening, closing and pinging

    What [tio_ping], [tio_open], [tio_create], [tio_close] and [tio_connect] do
    with the answers of the server: a container that is opened can receive
    events and one that is closed is forgotten, except when closing fails. *)
From S2P Require Import Prelude Decimal StreamBuffer Pr1Message TioDataC Network EventQueue Protocol ClientState ClientReceive ClientNotify ClientApi ClientCluster ClientCommands.

Module ClientConnect.
Import StreamBuffer Pr1 TioDataC Net Protocol ClientState ClientReceive ClientNotify ClientApi
  ClientCluster ClientCommands.

(** ** Building requests *)

Lemma string_fits id v fs :
  string_field id v ∈ fs -> Z.of_nat (length v) + 8 <= fields_size fs.
Proof. apply (fields_size_in (string_field id v)). Qed.

Lemma add_field_string_ok m fs id v :
  built_as m fs -> fits (fs ++ [string_field id v]) ->
  exists m', pr1_message_add_field_string m id v = Ok m' /\ built_as m' (fs ++ [string_field id v]).
Proof.
  intros Hb Hf. unfold pr1_message_add_field_string.
  assert (Hs : Z.of_nat (length v) + 8 <= fields_size (fs ++ [string_field id v])) 
    by (apply (string_fits id); set_solver).
  unfold fits, header_size in Hf.
  rewrite strlen32_ok by lia. mrun.
  destruct (pr1_message_add_field_ok m fs (string_field id v)) as (m' & E & Hb'); auto.
  { unfold f_size; cbn [string_field value_field f_data]. lia. }
  by exists m'.
Qed.

(** Requests made of a command and strings. *)
Definition string_fields (l : list (Z * bytes)) : list field :=
  (fun x => string_field x.1 x.2) <$> l.

Definition request_fields (command : Z) (l : list (Z * bytes)) : list field :=
  int_field MESSAGE_FIELD_ID_COMMAND command :: string_fields l.

Lemma new_command_ok command :
  fits [int_field MESSAGE_FIELD_ID_COMMAND command] ->
  exists m0 m, pr1_message_new = Ok m0 /\
    pr1_message_add_field_int m0 MESSAGE_FIELD_ID_COMMAND command = Ok m /\
    built_as m [int_field MESSAGE_FIELD_ID_COMMAND command].
Proof.
  intros Hf. destruct pr1_message_new_ok as (m0 & E0 & Hb0).
  destruct (add_field_int_ok m0 [] MESSAGE_FIELD_ID_COMMAND command Hb0 Hf) as (m & E & Hb).
  by exists m0, m.
Qed.

Lemma ping_message_ok payload :
  let fs := request_fields TIO_COMMAND_PING [(MESSAGE_FIELD_ID_VALUE, payload)] in
  fits fs -> exists m, ping_message payload = Ok m /\ built_as m fs.
Proof.
  intros fs Hf. unfold ping_message.
  destruct (new_command_ok TIO_COMMAND_PING) as (m0 & m1 & -> & E1 & Hb1);
    [by apply (fits_app _ [string_field MESSAGE_FIELD_ID_VALUE payload])|].
  mrun. rewrite E1. mrun. by apply (add_field_string_ok m1 [_]).
Qed.

(** The fields of [tio_create] and [tio_open]. *)
Definition open_fields (command : Z) (nm : bytes) (type : option bytes) : list field :=
  request_fields command
    ((MESSAGE_FIELD_ID_NAME, nm) :: match type with Some t => [(MESSAGE_FIELD_ID_TYPE, t)] | None => [] end).

Lemma open_message_ok command nm type :
  fits (open_fields command nm type) ->
  exists m, tio_generate_create_or_open_msg command nm type = Ok m /\ built_as m (open_fields command nm type).
Proof.
  intros Hf. unfold tio_generate_create_or_open_msg.
  assert (Hf1 : fits ([int_field MESSAGE_FIELD_ID_COMMAND command] ++ [string_field MESSAGE_FIELD_ID_NAME nm])).
  { destruct type as [t|]; [|exact Hf]. by apply (fits_app _ [string_field MESSAGE_FIELD_ID_TYPE t]). }
  destruct (new_command_ok command) as (m0 & m1 & -> & E1 & Hb1); [by eapply fits_app|].
  mrun. rewrite E1. mrun.
  destruct (add_field_string_ok m1 [_] MESSAGE_FIELD_ID_NAME nm Hb1 Hf1) as (m2 & -> & Hb2). mrun.
  destruct type as [t|]; [|by exists m2]. by apply (add_field_string_ok m2 [_; _]).
Qed.

Lemma close_message_ok h :
  let fs := [int_field MESSAGE_FIELD_ID_COMMAND TIO_COMMAND_CLOSE; int_field MESSAGE_FIELD_ID_HANDLE h] in
  exists m, close_message h = Ok m /\ built_as m fs.
Proof.
  intros fs. unfold close_message.
  destruct (new_command_ok TIO_COMMAND_CLOSE) as (m0 & m1 & -> & E1 & Hb1); [done|].
  mrun. rewrite E1. mrun. by apply (add_field_int_ok m1 [_]).
Qed.

(** ** A request on the connection and its answer *)

Lemma request_answered p s c r fs m msgs ns ans seq rest scr :
  serves p s c r -> built_as m fs -> Z.of_nat (length fs) < 2 ^ 16 -> fits fs ->
  send_script (net c) = [] -> length (g_last_error_description (net c)) = 255%nat ->
  exchange p s r (net c) msgs ns ans seq rest scr ->
  exists w1 m' c2,
    on_net (pr1_message_send_and_delete s m 0) c = (Ok (8 + fields_size fs), set_net w1 c) /\
    tio_receive_until_not_event p (set_net w1 c) = (Ok (fields_size ans, Some m'), c2) /\
    parsed_as m' ans /\ length (g_last_error_description (net c2)) = 255%nat /\
    completed p s c r ns (enc_message fs 0) rest scr None c2.
Proof.
  intros Hsv Hb Hn Hf Hss Hd Hex.
  destruct (send_message_ok s m fs (net c) Hb Hn Hf Hss) as (w1 & Es & Hsent).
  destruct (until_not_event_ok p s (set_net w1 c) r msgs ns ans seq rest scr)
    as (m' & c2 & E2 & [Am Ar Ac As Ae (Ao1 & Ao2 & Ao3)]).
  { by apply serves_set_net. }
  { by eapply exchange_sent. }
  exists w1, m', c2. split; [by apply on_net_ok|]. split; [done|]. split; [done|].
  destruct Hsent as [St _ _ _ _ Sd]. simpl in *. split; [congruence|].
  split; auto; [congruence|]. simpl. congruence.
Qed.

(** ** Ping *)

(** What [tio_ping] returns for an answer. *)
Definition pong_result (ans : list field) (payload : bytes) : Z :=
  match find_field MESSAGE_FIELD_ID_VALUE ans with
  | Some f => if decide (f_data f = payload) then fields_size ans else TIO_ERROR_PROTOCOL
  | None => TIO_ERROR_PROTOCOL
  end.

Lemma check_pong_ok m ans payload :
  parsed_as m ans -> check_pong m payload (Z.of_nat (length payload)) (fields_size ans) = Ok (pong_result ans payload).
Proof.
  intros Hp. unfold check_pong, pong_result.
  destruct (find_by_id_ok m ans MESSAGE_FIELD_ID_VALUE Hp) as (q & -> & Hq). mrun.
  destruct (find_field MESSAGE_FIELD_ID_VALUE ans) as [f|].
  - destruct Hq as (a & -> & Ha). destruct (points_to_header _ _ _ Ha) as (_ & -> & Ed). mrun.
    unfold f_size in *. destruct (Z.of_nat (length payload) =? Z.of_nat (length (f_data f))) eqn:E; bool_to_prop; cbn [negb].
    + unfold pr1_message_field_get_buffer. rewrite E, Ed. mrun.
      destruct (decide (payload = f_data f)), (decide (f_data f = payload)); congruence.
    + rewrite decide_False by (intros <-; congruence). done.
  - by subst q.
Qed.

(** A ping succeeds exactly when the server echoes the payload: the result
    is the size of the answer when its value is the payload and
    [TIO_ERROR_PROTOCOL] when it has none or another. *)
Theorem tio_ping_echo p s c r payload msgs ns ans seq rest scr :
  serves p s c r -> fits (request_fields TIO_COMMAND_PING [(MESSAGE_FIELD_ID_VALUE, payload)]) ->
  send_script (net c) = [] -> length (g_last_error_description (net c)) = 255%nat ->
  exchange p s r (net c) msgs ns ans seq rest scr ->
  exists c', tio_ping p payload c = (Ok (pong_result ans payload), c') /\
    completed p s c r ns
      (enc_message (request_fields TIO_COMMAND_PING [(MESSAGE_FIELD_ID_VALUE, payload)]) 0) rest scr None c'.
Proof.
  intros Hsv Hf Hss Hd Hex. pose proof Hsv as (conn & Hid & Htr). unfold tio_ping.
  mstep (conn_at_ok _ _ _ (tr_conn _ _ _ _ Htr)). rewrite (idle_socket _ _ _ Hid).
  assert (Hs : Z.of_nat (length payload) + 8 <=
    fields_size (request_fields TIO_COMMAND_PING [(MESSAGE_FIELD_ID_VALUE, payload)]))
    by (apply (string_fits MESSAGE_FIELD_ID_VALUE); by right; left).
  pose proof Hf as Hf'. unfold fits, header_size in Hf'.
  mstep (strlen32_ok payload ltac:(lia)).
  destruct (ping_message_ok payload Hf) as (m & Em & Hb). mstep Em.
  destruct (request_answered p s c r _ m msgs ns ans seq rest scr Hsv Hb) as (w1 & m' & c2 & E1 & E2 & Hp & _ & Hcm); auto; [done|].
  mstep E1. mstep E2. cbn iota beta. rewrite fields_size_not_failed, (bind_lift_ok _ _ _ m' eq_refl).
  rewrite (check_pong_ok m' ans payload Hp). by exists c2.
Qed.

(** ** Opening *)

(** An update of [last_error] does not show. *)
Lemma set_last_error_ok p s c r n :
  serves p s c r ->
  exists c', update_conn p (set_last_error n) c = (Ok tt, c') /\ serves p s c' r /\
    net c' = net c /\ calls c' = calls c.
Proof.
  intros (conn & Hid & Htr). rewrite (update_conn_ok _ _ _ _ (tr_conn _ _ _ _ Htr)).
  eexists. split; [done|]. split; [|done]. eexists. split; [|by eapply tracks_set_conn]. by destruct Hid.
Qed.

(** What an opened container leaves behind. *)
Record opened (p s : Z) (c : client) (r : registry) (ns : list notification) (h : Z) (nm : bytes)
    (request rest : bytes) (c' : client) : Prop := {
  op_serves : serves p s c' (add_container p h nm None (spec_run p r ns).1);
  op_request : tx_of (net c') s = tx_of (net c) s ++ request;
  op_calls : exists cs, calls c' = calls c ++ cs /\ Forall2 call_matches cs (spec_run p r ns).2;
  op_stream : stream (net c') s = rest
}.

(** Opening or creating a container registers it.  When the server answers
    with a handle, [tio_open] and [tio_create] return success and a container
    that the registry has under that handle with that name, next to everything
    it had before, so that later events for the handle reach it. *)
Theorem tio_create_or_open_registers fuel p s c r command nm type msgs ns ans seq rest scr h :
  serves p s c r -> fits (open_fields command nm type) -> send_script (net c) = [] ->
  length (g_last_error_description (net c)) = 255%nat ->
  exchange p s r (net c) msgs ns ans seq rest scr ->
  answer_error ans None ->
  find_field MESSAGE_FIELD_ID_HANDLE ans = Some (int_field MESSAGE_FIELD_ID_HANDLE h) -> 0 <= h < 2 ^ 30 ->
  exists c', tio_create_or_open (S fuel) p command nm type c
      = (Ok (TIO_SUCCESS, Some (fresh (spec_run p r ns).1)), c') /\
    opened p s c r ns h nm (enc_message (open_fields command nm type) 0) rest c'.
Proof.
  intros Hsv Hf Hss Hd Hex Herr Hh Hr. pose proof Hsv as (conn & Hid & Htr).
  cbn [tio_create_or_open]. mstep (conn_at_ok _ _ _ (tr_conn _ _ _ _ Htr)). rewrite (idle_socket _ _ _ Hid).
  destruct (set_last_error_ok p s c r 0 Hsv) as (c1 & E1 & Hsv1 & Hn1 & Hc1). mstep E1.
  destruct (open_message_ok command nm type Hf) as (m & Em & Hb). mstep Em.
  assert (Hlen : Z.of_nat (length (open_fields command nm type)) < 2 ^ 16) by by destruct type.
  assert (Hnm : Z.of_nat (length nm) + 8 <= fields_size (open_fields command nm type))
    by (apply (string_fits MESSAGE_FIELD_ID_NAME); by right; left).
  destruct (request_answered p s c1 r _ m msgs ns ans seq rest scr Hsv1 Hb Hlen Hf)
    as (w1 & m' & c2 & E2 & E3 & Hp & Hd2 & Hcm); rewrite ?Hn1; auto.
  mstep E2. rewrite not_failed by (pose proof (fields_size_nonneg (open_fields command nm type)); lia).
  rewrite (bind_ok (mret tt) _ _ tt (set_net w1 c1) eq_refl).
  mstep E3. cbn iota beta. rewrite fields_size_not_failed, (bind_lift_ok _ _ _ m' eq_refl).
  mstep (get_error_code_ok m' ans None c2 Hp Herr Hd2). cbn [error_result TIO_SUCCESS].
  change (TIO_FAILED 0) with false. cbn iota.
  pose proof (completed_error _ _ _ _ _ _ _ _ None _ Hcm) as Hcm'. set (c3 := set_net _ c2) in *.
  destruct Hcm' as [(conn3 & Hid3 & Htr3) C2 C3 C4 _ _].
  destruct (register_container_ok p s conn3 c3 (spec_run p r ns).1 m' ans h nm None)
    as (c4 & E4 & Hsv4 & [Hn4 _] & Hc4); auto.
  { unfold fits, header_size in Hf. lia. }
  { by intros g [=]. }
  rewrite (tr_fresh _ _ _ _ Htr3). exists c4. split; [exact E4|].
  split; rewrite ?Hn4; auto.
  - unfold tx_of. rewrite C2. by rewrite Hn1.
  - by rewrite Hc4, <- Hc1.
Qed.

(** ** Closing *)

Definition close_fields (h : Z) : list field :=
  [int_field MESSAGE_FIELD_ID_COMMAND TIO_COMMAND_CLOSE; int_field MESSAGE_FIELD_ID_HANDLE h].

Definition forget (h : Z) (r : registry) : registry :=
  {| table := delete h (table r); fresh := fresh r; group_callback := group_callback r;
     group_cookie := group_cookie r; outstanding := outstanding r |}.

(** The request of [tio_close] and its answer, before anything is freed. *)
Lemma close_answered p s cp cont c r msgs ns ans seq rest scr error :
  ready p s cp cont c r msgs ns ans seq rest scr -> answer_error ans error ->
  exists c2 conn2, completed p s c r ns (enc_message (close_fields (handle cont)) 0) rest scr error c2 /\
    idle p s conn2 /\ tracks p conn2 c2 (spec_run p r ns).1 /\
    close_request cont c =
      if TIO_FAILED (error_result error) then (Ok (error_result error), c2)
      else (conn ← conn_at p;
            arr ← lift (array_set (containers conn) (handle cont) None);
            _ ← update_conn p (set_containers arr (containers_buffer_size conn));
            mret (error_result error)) c2.
Proof.
  intros [Hsv Hct Hcn Hss Hd Hex] Herr. pose proof Hsv as (conn & Hid & Htr). unfold close_request.
  rewrite Hcn. mstep (conn_at_ok _ _ _ (tr_conn _ _ _ _ Htr)). rewrite (idle_socket _ _ _ Hid).
  destruct (close_message_ok (handle cont)) as (m & Em & Hb). mstep Em.
  destruct (request_answered p s c r _ m msgs ns ans seq rest scr Hsv Hb) as (w1 & m' & c2 & E2 & E3 & Hp & Hd2 & Hcm);
    auto; [done|done|].
  mstep E2. rewrite not_failed by (pose proof (fields_size_nonneg (close_fields (handle cont))); unfold close_fields in *; lia).
  mstep E3. cbn iota beta. rewrite fields_size_not_failed, (bind_lift_ok _ _ _ m' eq_refl).
  mstep (get_error_code_ok m' ans error c2 Hp Herr Hd2).
  pose proof (completed_error _ _ _ _ _ _ _ _ error _ Hcm) as Hcm'. set (c3 := set_net _ c2) in *.
  pose proof (cm_serves _ _ _ _ _ _ _ _ _ _ Hcm') as (conn3 & Hid3 & Htr3).
  exists c3, conn3. split; [done|]. split; [done|]. split; [done|].
  by destruct (TIO_FAILED (error_result error)).
Qed.

(** The answer may only free one container: no other handle names it. *)
Definition owned_once (cp h : Z) (r : registry) : Prop :=
  forall h' x, table r !! h' = Some (cp, x) -> h' = h.

(** Closing a container forgets it: after [tio_close] succeeds, the handle
    names no container, the container is freed, and every other one is served
    as before. *)
Theorem tio_close_forgets p s cp cont c r msgs ns ans seq rest scr :
  ready p s cp cont c r msgs ns ans seq rest scr -> answer_error ans None ->
  let r' := (spec_run p r ns).1 in
  table r' !! handle cont = Some (cp, cont) -> owned_once cp (handle cont) r' ->
  exists c', tio_close (Some cp) c = (Ok TIO_SUCCESS, c') /\
    serves p s c' (forget (handle cont) r') /\ conts c' !! cp = None /\ stream (net c') s = rest.
Proof.
  intros Hrd Herr r' Ht Hown.
  destruct (close_answered p s cp cont c r msgs ns ans seq rest scr None Hrd Herr)
    as (c2 & conn2 & Hcm & Hid & Htr & E). change (TIO_FAILED (error_result None)) with false in E. cbn iota in E.
  unfold tio_close. mstep (cont_at_ok _ _ _ (rd_container _ _ _ _ _ _ _ _ _ _ _ _ Hrd)).
  destruct (tr_table _ _ _ _ Htr _ _ _ Ht) as (H0 & Harr & _). apply lookup_lt_Some in Harr as Hlt.
  set (arr := <[Z.to_nat (handle cont) := None]> (containers conn2)).
  set (conn3 := set_containers arr (containers_buffer_size conn2) conn2).
  assert (E' : close_request cont c = (Ok TIO_SUCCESS, set_conns (<[p := conn3]> (conns c2)) c2)).
  { rewrite E. mstep (conn_at_ok _ _ _ (tr_conn _ _ _ _ Htr)).
    mstep (array_set_ok (containers conn2) (handle cont) None ltac:(lia)).
    by mstep (update_conn_ok p (set_containers arr (containers_buffer_size conn2)) _ _ (tr_conn _ _ _ _ Htr)). }
  mstep E'. eexists. split; [reflexivity|]. simpl. rewrite lookup_delete_eq.
  split; [|split; [done|by destruct Hcm]].
  exists conn3. split.
  - destruct Hid. split; simpl; auto. unfold arr. by rewrite length_insert.
  - destruct Htr as [Tc Tt Tf Tb Tg Tn]. split; simpl; auto.
    + by rewrite lookup_insert_eq.
    + intros h' cp' x Hx. apply lookup_delete_Some in Hx as [Hne Hx].
      destruct (Tt _ _ _ Hx) as (Hp0 & Ha & Hc). split; [done|]. split.
      * unfold arr. rewrite list_lookup_insert_ne by lia. done.
      * rewrite lookup_delete_ne; [done|]. intros <-. apply Hne. symmetry. by eapply Hown.
    + intros q [x Hq]. apply lookup_delete_Some in Hq as [_ Hq]. eauto.
Qed.

(** The table still names a container that has been freed. *)
Definition dangling (cp h : Z) (conn : TIO_CONNECTION) (c : client) : Prop :=
  conts c !! cp = None /\ containers conn !! Z.to_nat h = Some (Some cp).

(** A refused close leaves a dangling container.  When the server answers
    [tio_close] with an error, the container is freed all the same but stays in
    the table of handles, and the next event for that handle reads freed
    memory. *)
Theorem tio_close_failed_dangles p s cp cont c r msgs ns ans seq rest scr code desc :
  ready p s cp cont c r msgs ns ans seq rest scr -> answer_error ans (Some (code, desc)) -> code < 0 ->
  table (spec_run p r ns).1 !! handle cont = Some (cp, cont) ->
  exists c' conn', tio_close (Some cp) c = (Ok code, c') /\
    conns c' !! p = Some conn' /\ dangling cp (handle cont) conn' c' /\
    forall m fs e d, parsed_as m fs -> carries fs (Event e) -> ev_handle e = handle cont ->
      admissible (spec_run p r ns).1 (Event e) -> data_wf d ->
      fst (dispatch_event p m d c') = Throw (Fault UseAfterFree).
Proof.
  intros Hrd Herr Hneg Ht.
  destruct (close_answered p s cp cont c r msgs ns ans seq rest scr _ Hrd Herr)
    as (c2 & conn2 & Hcm & Hid & Htr & E). unfold TIO_FAILED in E. cbn [error_result] in E.
  revert E. ztest. intros E.
  unfold tio_close. mstep (cont_at_ok _ _ _ (rd_container _ _ _ _ _ _ _ _ _ _ _ _ Hrd)). mstep E.
  destruct (tr_table _ _ _ _ Htr _ _ _ Ht) as (H0 & Harr & _).
  eexists _, conn2. split; [reflexivity|]. split; [apply Htr|].
  split; [split; [simpl; by rewrite lookup_delete_eq|done] |].
  intros m fs e d Hp (_ & Fh & Fc & Fk & Fv & Fm) He (_ & Hh & Hc & Ok1 & Ok2 & Ok3) (k0 & v0 & m0 & R1 & R2 & R3).
  unfold dispatch_event.
  destruct (int_field_of_ok m fs _ _ Hp Fh Hh) as (hq & E1 & E2). mstep E1.
  destruct (int_field_of_ok m fs _ _ Hp Fc Hc) as (eq & E3 & E4). mstep E3. mstep E2. mstep E4.
  destruct (decode_data_ok m fs _ _ _ _ Hp R1 Fk Ok1) as (k & E5 & K). mstep E5.
  destruct (decode_data_ok m fs _ _ _ _ Hp R2 Fv Ok2) as (v & E6 & V). mstep E6.
  destruct (decode_data_ok m fs _ _ _ _ Hp R3 Fm Ok3) as (md & E7 & MD). mstep E7.
  erewrite bind_ok; [|apply conn_at_ok; exact (tr_conn _ _ _ _ Htr)].
  rewrite He. mstep (array_get_ok _ _ _ H0 Harr).
  unfold cont_at at 1, mbind at 1, M_bind at 1. simpl. by rewrite lookup_delete_eq.
Qed.

(** ** Witnesses *)

Definition ex_pong : list field :=
  [ int_field MESSAGE_FIELD_ID_COMMAND TIO_COMMAND_ANSWER; string_field MESSAGE_FIELD_ID_VALUE (lit "hello") ].

Lemma tio_ping_echo_witness :
  exists c', tio_ping 1 (lit "hello") (ex_client (ex_reply_world (wire ex_one_event ++ enc_message ex_pong 0) 2))
    = (Ok 25, c').
Proof.
  destruct (tio_ping_echo 1 3 (ex_client (ex_reply_world (wire ex_one_event ++ enc_message ex_pong 0) 2))
    ex_registry (lit "hello") ex_one_event [Event (ex_event 5 (VInt 1))] ex_pong 0 [] []) as (c' & E & _).
  - apply ex_serves.
  - vm_compute. reflexivity.
  - reflexivity.
  - reflexivity.
  - apply ex_ready; [repeat constructor; done|repeat split; done|vm_compute; reflexivity].
  - exists c'. rewrite E. vm_compute. reflexivity.
Defined.

Definition ex_handle_answer : list field :=
  [ int_field MESSAGE_FIELD_ID_COMMAND TIO_COMMAND_ANSWER; int_field MESSAGE_FIELD_ID_HANDLE 200 ].

Lemma tio_create_or_open_registers_witness :
  exists c', tio_open 1 1 (lit "orders") (Some (lit "volatile_list"))
      (ex_client (ex_reply_world (wire ex_one_event ++ enc_message ex_handle_answer 0) 2))
    = (Ok (TIO_SUCCESS, Some 11), c').
Proof.
  destruct (tio_create_or_open_registers 0 1 3
    (ex_client (ex_reply_world (wire ex_one_event ++ enc_message ex_handle_answer 0) 2)) ex_registry
    TIO_COMMAND_OPEN (lit "orders") (Some (lit "volatile_list")) ex_one_event [Event (ex_event 5 (VInt 1))]
    ex_handle_answer 0 [] [] 200) as (c' & E & _).
  - apply ex_serves.
  - vm_compute. reflexivity.
  - reflexivity.
  - reflexivity.
  - apply ex_ready; [repeat constructor; done|repeat split; done|vm_compute; reflexivity].
  - reflexivity.
  - reflexivity.
  - lia.
  - exists c'. exact E.
Defined.

Lemma tio_close_forgets_witness :
  exists c', tio_close (Some 10) (ex_client (ex_reply_world (wire ex_one_event ++ enc_message ex_answer 0) 2))
    = (Ok TIO_SUCCESS, c') /\ conts c' !! 10 = None.
Proof.
  destruct (tio_close_forgets 1 3 10 ex_container
    (ex_client (ex_reply_world (wire ex_one_event ++ enc_message ex_answer 0) 2)) ex_registry
    ex_one_event [Event (ex_event 5 (VInt 1))] ex_answer 0 [] []) as (c' & E & _ & Hc & _).
  - apply ex_ready; [repeat constructor; done|repeat split; done|vm_compute; reflexivity].
  - reflexivity.
  - reflexivity.
  - intros h' x H. simpl in H. by apply lookup_singleton_Some in H as [<- _].
  - exists c'. split; [exact E|exact Hc].
Defined.

Lemma tio_close_failed_dangles_witness :
  exists c', tio_close (Some 10)
      (ex_client (ex_reply_world (wire ex_one_event ++ enc_message ex_error_answer 0) 2))
    = (Ok TIO_ERROR_NO_SUCH_OBJECT, c') /\ conts c' !! 10 = None.
Proof.
  destruct (tio_close_failed_dangles 1 3 10 ex_container
    (ex_client (ex_reply_world (wire ex_one_event ++ enc_message ex_error_answer 0) 2)) ex_registry
    ex_one_event [Event (ex_event 5 (VInt 1))] ex_error_answer 0 [] [] TIO_ERROR_NO_SUCH_OBJECT
    (Some (lit "key not found"))) as (c' & conn' & E & _ & [Hc _] & _).
  - apply ex_ready; [repeat constructor; done|repeat split; done|vm_compute; reflexivity].
  - repeat split; done.
  - done.
  - reflexivity.
  - exists c'. split; [exact E|exact Hc].
Defined.

End ClientConnect.
