(* ===== verification/StdMap.v ===== *)
(** * [std::map] with string keys

    The standard map as the association list its iterators see: sorted by key,
    each key once.  Every operation keeps the order, and the list stands for the
    finite map [to_map] of the specification. *)
From Stdlib Require Import Sorting.Sorted.
From S2P Require Import Prelude.

Module StdMap.

(** [std::less<string>]: byte by byte, a prefix before its extensions. *)
Fixpoint key_lt (a b : bytes) : bool :=
  match a, b with
  | _, [] => false
  | [], _ :: _ => true
  | x :: a, y :: b =>
      if byte_Z x <? byte_Z y then true else if byte_Z y <? byte_Z x then false else key_lt a b
  end.

(** ** The order of the keys *)

Lemma key_lt_irrefl a : key_lt a a = false.
Proof. induction a as [|x a IH]; simpl; [done|]. by rewrite Z.ltb_irrefl. Qed.

Lemma key_lt_trans : forall a b c, key_lt a b = true -> key_lt b c = true -> key_lt a c = true.
Proof.
  induction a as [|x a IH]; intros [|y b] [|z c]; simpl; try done.
  intros H1 H2. repeat (case_match; bool_to_prop; try done); try lia.
  apply (IH b c); done.
Qed.

Lemma key_lt_total : forall a b, a <> b -> key_lt a b = false -> key_lt b a = true.
Proof.
  induction a as [|x a IH]; intros [|y b] Hne; simpl; try done.
  intros H. repeat (case_match; bool_to_prop; try done); try lia.
  assert (x = y) as -> by (apply byte_Z_inj; lia). apply IH; [congruence|done].
Qed.

Section StdMap.
Context {V : Type}.

Fixpoint find (k : bytes) (l : list (bytes * V)) : option V :=
  match l with
  | [] => None
  | (k', v) :: l => if decide (k' = k) then Some v else find k l
  end.

(** [data_[k] = v] *)
Fixpoint assign_at (k : bytes) (v : V) (l : list (bytes * V)) : list (bytes * V) :=
  match l with
  | [] => [(k, v)]
  | (k', v') :: l' =>
      if decide (k' = k) then (k, v) :: l'
      else if key_lt k k' then (k, v) :: l
      else (k', v') :: assign_at k v l'
  end.

(** [data_.erase(i)] of the element with key [k]. *)
Fixpoint erase (k : bytes) (l : list (bytes * V)) : list (bytes * V) :=
  match l with
  | [] => []
  | (k', v) :: l => if decide (k' = k) then l else (k', v) :: erase k l
  end.

Definition sorted (l : list (bytes * V)) : Prop := StronglySorted (fun p q => key_lt p.1 q.1 = true) l.

(** ** The map a list stands for *)

Definition to_map (l : list (bytes * V)) : gmap bytes V := list_to_map l.

Lemma find_to_map k l : find k l = to_map l !! k.
Proof.
  unfold to_map. induction l as [|[k' v] l IH]; [done|]. simpl. rewrite lookup_insert.
  by case_decide.
Qed.

Lemma to_map_assign k v l : to_map (assign_at k v l) = <[k := v]> (to_map l).
Proof.
  unfold to_map. induction l as [|[k' v'] l IH]; [done|]. simpl. case_decide as E.
  - subst. simpl. by rewrite insert_insert_eq.
  - destruct (key_lt k k'); simpl; [done|]. rewrite IH. by rewrite insert_insert_ne.
Qed.

Lemma assign_Forall (P : bytes * V -> Prop) k v l :
  Forall P l -> P (k, v) -> Forall P (assign_at k v l).
Proof.
  intros Hl Hp. induction Hl as [|[k' v'] l H1 H2 IH]; simpl; [by constructor|].
  repeat case_match; by repeat constructor.
Qed.

Lemma sorted_assign k v l : sorted l -> sorted (assign_at k v l).
Proof.
  unfold sorted. induction 1 as [|[k' v'] l Hs IH Hf]; simpl; [by repeat constructor|].
  case_decide as E; [subst; by constructor|]. destruct (key_lt k k') eqn:El.
  - constructor; [by constructor|]. constructor; [done|]. simpl.
    eapply Forall_impl; [done|]. intros q Hq. simpl in *. by eapply key_lt_trans.
  - constructor; [done|]. apply assign_Forall; [done|]. simpl. by apply key_lt_total.
Qed.

(** In a sorted list the first key occurs once. *)
Lemma find_above k l : Forall (fun q => key_lt k q.1 = true) l -> find k l = None.
Proof.
  induction 1 as [|[k' v] l H1 H2 IH]; [done|]. simpl in *. rewrite decide_False; [done|].
  intros ->. by rewrite key_lt_irrefl in H1.
Qed.

Lemma to_map_erase k l : sorted l -> to_map (erase k l) = delete k (to_map l).
Proof.
  unfold to_map. induction 1 as [|[k' v] l Hs IH Hf]; simpl; [by rewrite delete_empty|].
  case_decide as E.
  - subst. rewrite delete_insert_eq. symmetry. apply delete_id. fold (to_map l). rewrite <- find_to_map. by apply find_above.
  - simpl. rewrite IH. by rewrite delete_insert_ne.
Qed.

Lemma erase_Forall (P : bytes * V -> Prop) k l : Forall P l -> Forall P (erase k l).
Proof. induction 1 as [|[k' v'] l H1 H2 IH]; simpl; [done|]. case_decide; [done|]. by constructor. Qed.

Lemma sorted_erase k l : sorted l -> sorted (erase k l).
Proof.
  unfold sorted. induction 1 as [|[k' v'] l Hs IH Hf]; simpl; [constructor|].
  case_decide; [done|]. constructor; [done|]. by apply erase_Forall.
Qed.

Lemma sorted_keys l : sorted l -> NoDup l.*1.
Proof.
  unfold sorted. induction 1 as [|[k v] l Hs IH Hf]; [constructor|]. simpl. constructor; [|done].
  intros Hin. apply list_elem_of_fmap in Hin as (q & -> & Hq). rewrite Forall_forall in Hf.
  specialize (Hf q Hq). simpl in Hf. by rewrite key_lt_irrefl in Hf.
Qed.

Lemma length_to_map l : sorted l -> size (to_map l) = length l.
Proof.
  intros Hs. unfold to_map. rewrite <- (length_map_to_list (list_to_map l)).
  apply Permutation_length. apply map_to_list_to_map. by apply sorted_keys.
Qed.

Lemma sorted_take n l : sorted l -> sorted (take n l).
Proof.
  unfold sorted. intros H. revert n. induction H as [|p l Hs IH Hf]; intros [|n]; simpl; try constructor; [done|].
  by apply Forall_take.
Qed.

Lemma sorted_drop n l : sorted l -> sorted (drop n l).
Proof.
  unfold sorted. intros H. revert n. induction H as [|p l Hs IH Hf]; intros [|n]; simpl; try by constructor. done.
Qed.

(** Reading after writing, on the lists themselves. *)
Lemma find_assign k k' v l : find k' (assign_at k v l) = if decide (k = k') then Some v else find k' l.
Proof. by rewrite !find_to_map, to_map_assign, lookup_insert. Qed.

Lemma find_erase k k' l : sorted l -> find k' (erase k l) = if decide (k = k') then None else find k' l.
Proof. intros Hs. by rewrite !find_to_map, to_map_erase, lookup_delete. Qed.

Lemma assign_assign k v v' l : assign_at k v (assign_at k v' l) = assign_at k v l.
Proof.
  induction l as [|[k' x] l IH]; simpl; [by rewrite decide_True|].
  case_decide as E; [subst; simpl; by rewrite decide_True|].
  destruct (key_lt k k') eqn:El; simpl; [by rewrite decide_True|].
  by rewrite decide_False, El, IH by done.
Qed.

(** A key that is there is not below the head. *)
Lemma assign_id k v l : sorted l -> find k l = Some v -> assign_at k v l = l.
Proof.
  unfold sorted. induction 1 as [|[k' x] l Hs IH Hf]; [done|]. simpl. case_decide as E.
  - intros [= ->]. by subst.
  - intros Hk. destruct (key_lt k k') eqn:El; [|by rewrite IH]. exfalso.
    rewrite (find_above k l) in Hk; [done|]. eapply Forall_impl; [done|]. simpl. intros q Hq.
    by eapply key_lt_trans.
Qed.

Lemma find_elem k v l : find k l = Some v -> (k, v) ∈ l.
Proof.
  induction l as [|[k' x] l IH]; [done|]. simpl. case_decide; intros H'.
  - simplify_eq. apply list_elem_of_here.
  - apply list_elem_of_further. auto.
Qed.

Lemma elem_find k v l : sorted l -> (k, v) ∈ l -> find k l = Some v.
Proof.
  intros Hs Hin. rewrite find_to_map. apply elem_of_list_to_map_1; [by apply sorted_keys|done].
Qed.

End StdMap.

End StdMap.
