(* ===== verification/TioDataS.v ===== *)
(** * The server's [class TioData]

    [server/tio/Container.h]: the tagged value that containers store, its
    accessors, comparison, textual form, and the binary form that is written to
    disk.  A [double] is its 8 bytes; converting one to text is left to the C++
    library and is a parameter of the functions that do it.  Values are copied
    on assignment, so they are plain Rocq values; the NUL the class keeps behind
    a string is not part of the data. *)
From S2P Require Import Prelude Decimal.

Module TioData.

Inductive TioData :=
| None_
| Int (i : Z)
| Double (d : bytes)
| String (s : bytes).

#[export] Instance TioData_eq_dec : EqDecision TioData.
Proof. solve_decision. Defined.

#[export] Instance TioData_inhabited : Inhabited TioData := populate None_.

Definition TIONULL : TioData := None_.

(** [enum Type] *)
Definition GetDataType (t : TioData) : Z :=
  match t with None_ => 0 | Int _ => 1 | Double _ => 2 | String _ => 3 end.

Definition Empty (t : TioData) : bool := GetDataType t =? 0.
Definition IsNull (t : TioData) : bool := GetDataType t =? 0.

(** [operator bool] *)
Definition operator_bool (t : TioData) : bool := negb (GetDataType t =? 0).

Definition wrong_data_type : exn := runtime_error "wrong data type".

Definition AsInt (t : TioData) : res Z :=
  match t with Int i => Ok i | _ => Throw wrong_data_type end.

Definition AsDouble (t : TioData) : res bytes :=
  match t with Double d => Ok d | _ => Throw wrong_data_type end.

(** [AsSz] returns a C string: what its callers see ends at the first NUL. *)
Definition AsSz (t : TioData) : res bytes :=
  match t with String s => Ok (c_str s) | _ => Throw wrong_data_type end.

(** [to_string(double)] is the library's. *)
Definition AsString (to_string_double : bytes -> bytes) (t : TioData) : res bytes :=
  match t with
  | Int i => Ok (Decimal.print_int i)
  | Double d => Ok (to_string_double d)
  | String s => Ok (c_str s)
  | None_ => Ok []
  end.

Definition AsRaw (t : TioData) : res bytes :=
  match t with
  | Int i => Ok (le_encode 4 i)
  | Double d => Ok d
  | String s => Ok s
  | None_ => Throw wrong_data_type
  end.

Definition GetSize (t : TioData) : res Z :=
  match t with
  | Int _ => Ok 4
  | Double _ => Ok 8
  | String s => Ok (Z.of_nat (length s))
  | None_ => Throw wrong_data_type
  end.

(** [operator==]: a null equals only a null, else type, size and bytes. *)
Definition operator_eq (a b : TioData) : res bool :=
  if GetDataType a =? 0 then Ok (GetDataType b =? 0)
  else if GetDataType b =? 0 then Ok false
  else if negb (GetDataType a =? GetDataType b) then Ok false
  else
    n ← GetSize a; k ← GetSize b;
    if negb (n =? k) then Ok false
    else x ← AsRaw a; y ← AsRaw b; Ok (bool_decide (take (Z.to_nat n) x = take (Z.to_nat n) y)).

(** [operator<<]; [print_double] is the stream's. *)
Definition print (print_double : bytes -> bytes) (t : TioData) : bytes :=
  match t with
  | Int i => Decimal.print_int i
  | Double d => print_double d
  | String s => s
  | None_ => lit "**NULL**"
  end.

Definition GetDataTypeAsString (t : TioData) : bytes :=
  match t with
  | Int _ => lit "int"
  | Double _ => lit "double"
  | String _ => lit "string"
  | None_ => lit "INTERNAL_ERROR"
  end.

(** ** The binary form *)

Definition SERIALIZE_HEADER_SIZE : Z := 8.

Definition GetSerializedSize (t : TioData) : res Z := n ← GetSize t; Ok (n + 8).

(** Writes type, size and bytes at the start of the buffer; returns the size
    written and the buffer. *)
Definition Serialize (t : TioData) (buffer : bytes) : res (Z * bytes) :=
  needSize ← GetSerializedSize t;
  _ ← require (needSize <=? Z.of_nat (length buffer)) (invalid_argument "buffer too small");
  rawSize ← GetSize t;
  buffer ← write_le buffer 0 4 (GetDataType t);
  buffer ← write_le buffer 4 4 rawSize;
  raw ← AsRaw t;
  buffer ← mem_write buffer 8 (take (Z.to_nat rawSize) raw);
  Ok (needSize, buffer).

(** Returns the number of bytes used and the value; an empty buffer gives none. *)
Definition Deserialize (buffer : bytes) : res (Z * TioData) :=
  if Z.of_nat (length buffer) =? 0 then Ok (0, None_)
  else
    type ← read_le buffer 0 4;
    size ← read_le buffer 4 4;
    _ ← require (negb (Z.of_nat (length buffer) <? size + SERIALIZE_HEADER_SIZE))
          (invalid_argument "incomplete buffer");
    v ← (if type =? 3 then s ← mem_read buffer 8 size; Ok (String s)
         else if type =? 1 then
           _ ← require (size =? 4) (invalid_argument "invalid data size to int data type");
           i ← read_le buffer 8 4; Ok (Int (i32 i))
         else if type =? 2 then
           _ ← require (size =? 8) (invalid_argument "invalid data size to double data type");
           d ← mem_read buffer 8 8; Ok (Double d)
         else Throw (invalid_argument "invalid data type"));
    Ok (size + SERIALIZE_HEADER_SIZE, v).

(** ** Round trip *)

(** Values the class can hold: an [int], 8 bytes of a double, a string whose size
    fits the 32 bits of the binary form. *)
Definition data_ok (t : TioData) : Prop :=
  match t with
  | None_ => True
  | Int i => is_int i
  | Double d => length d = 8%nat
  | String s => Z.of_nat (length s) < 2 ^ 32
  end.

Lemma raw_size t raw n : AsRaw t = Ok raw -> GetSize t = Ok n -> data_ok t ->
  Z.of_nat (length raw) = n /\ 0 <= n < 2 ^ 32.
Proof.
  destruct t; simpl; intros H1 H2 Hok; simplify_eq; len.
Qed.

(** The bytes of a value. *)
Definition encoding (t : TioData) (raw : bytes) : bytes :=
  le_encode 4 (GetDataType t) ++ le_encode 4 (Z.of_nat (length raw)) ++ raw.

Lemma serialize_ok t raw room post :
  AsRaw t = Ok raw -> data_ok t -> length room = (8 + length raw)%nat ->
  Serialize t (room ++ post) = Ok (Z.of_nat (8 + length raw), encoding t raw ++ post).
Proof.
  intros Hr Hok Hl.
  assert (exists n, GetSize t = Ok n) as [n Hn] by (destruct t; simpl in *; try done; eauto).
  destruct (raw_size t raw n Hr Hn Hok) as (Hlen & Hb).
  unfold Serialize, GetSerializedSize. rewrite Hn. mrun. unfold require. ztest. mrun. rewrite Hr. subst n.
  assert (exists a b c, room = a ++ b ++ c /\ length a = 4%nat /\ length b = 4%nat /\ length c = length raw)
    as (a & b & c & -> & Ha & Hb' & Hc).
  { exists (take 4 room), (take 4 (drop 4 room)), (drop 8 room).
    split; [|len]. rewrite <- (take_drop 4 room) at 1. rewrite <- (take_drop 4 (drop 4 room)) at 1.
    by rewrite drop_drop. }
  rewrite <- !app_assoc, <- (app_nil_l (a ++ _)), write_le_seg by (try done; len). mrun. rewrite app_nil_l.
  rewrite write_le_seg by len. mrun. rewrite Nat2Z.id, firstn_all.
  rewrite !app_assoc, <- (app_assoc _ c), mem_write_seg by len. mrun.
  unfold encoding. rewrite <- !app_assoc. do 2 f_equal. lia.
Qed.

(** The binary form of a value reads back as the value: what [Serialize]
    writes for any value but null, [Deserialize] returns, using exactly the
    bytes written, whatever follows them. *)
Theorem serialize_roundtrip t buffer post :
  t <> None_ -> data_ok t ->
  (forall n, GetSerializedSize t = Ok n -> Z.of_nat (length buffer) = n) ->
  exists n buffer', Serialize t (buffer ++ post) = Ok (n, buffer' ++ post) /\
    length buffer' = length buffer /\ Deserialize (buffer' ++ post) = Ok (n, t).
Proof.
  intros Ht Hok Hl.
  assert (exists raw, AsRaw t = Ok raw) as [raw Hr] by (destruct t; simpl; eauto; done).
  assert (exists n, GetSize t = Ok n) as [n Hn] by (destruct t; simpl in *; try done; eauto).
  destruct (raw_size t raw n Hr Hn Hok) as (Hlen & Hb).
  assert (Hroom : length buffer = (8 + length raw)%nat).
  { specialize (Hl (n + 8)). unfold GetSerializedSize in Hl. rewrite Hn in Hl. specialize (Hl eq_refl). lia. }
  eexists _, _. split; [by apply serialize_ok|]. unfold encoding at 1.
  split; [len|]. unfold Deserialize, encoding, SERIALIZE_HEADER_SIZE.
  rewrite <- !app_assoc. ztest.
  pose proof (read_le_seg [] (le_encode 4 (Z.of_nat (length raw)) ++ raw ++ post) 4 (GetDataType t) 0 eq_refl) as E1.
  rewrite app_nil_l in E1. rewrite E1. mrun.
  rewrite (read_le_seg (le_encode 4 (GetDataType t)) (raw ++ post) 4 (Z.of_nat (length raw)) 4 eq_refl). mrun.
  change (256 ^ Z.of_nat 4) with (2 ^ 32). rewrite !Z.mod_small by (try (destruct t; simpl; lia); lia).
  unfold require. ztest. mrun.
  assert (Em : mem_read (le_encode 4 (GetDataType t) ++ le_encode 4 (Z.of_nat (length raw)) ++ raw ++ post) 8
    (Z.of_nat (length raw)) = Ok raw) by (rewrite !app_assoc, <- (app_assoc _ raw); apply mem_read_seg; len).
  destruct t; simpl in Hr; simplify_eq; cbn [GetDataType Z.eqb Pos.eqb] in *.
  - rewrite length_le_encode in *. ztest. mrun. unfold read_le.
    change (Z.of_nat 4) with 4 in *. rewrite Em. mrun. rewrite le_decode_encode.
    change (256 ^ Z.of_nat 4) with (2 ^ 32). do 2 f_equal. f_equal. by apply i32_u32.
  - simpl in Hok. rewrite Hok in *. ztest. mrun. change (Z.of_nat 8) with 8 in *. by rewrite Em.
  - rewrite Em. mrun. do 2 f_equal. lia.
Qed.

Lemma serialize_roundtrip_witness :
  exists n buffer', Serialize (String (lit "tio")) (replicate 11 x00 ++ lit "rest") = Ok (n, buffer' ++ lit "rest") /\
    Deserialize (buffer' ++ lit "rest") = Ok (n, String (lit "tio")).
Proof.
  destruct (serialize_roundtrip (String (lit "tio")) (replicate 11 x00) (lit "rest")) as (n & b & E1 & _ & E2).
  - congruence.
  - reflexivity.
  - intros n [= <-]. reflexivity.
  - exists n, b. split; [exact E1|exact E2].
Defined.

End TioData.
