(* ===== verification/Containers.v ===== *)
(** * Containers: indexes, result sets, the storage interface

    [server/tio/Container.h]: Python-like indexes, query limits, result sets,
    records with a schema, the interfaces [ITioStorage] and [ITioPropertyMap] and
    the [Container] that puts the two together.  A storage publishes an event
    for each change; [published] is what its subscriber has been told.  A
    [TioData*] output argument is an option, [None] for NULL. *)
From S2P Require Import Prelude Decimal Protocol TioDataS.

Module Containers.
Import TioData Protocol.

(** ** Indexes *)

(** [abs(index)] of an [int]. *)
Definition abs_int (i : Z) : res Z :=
  if i =? INT_MIN then Throw (Fault SignedOverflow) else Ok (Z.abs i).

(** [NormalizeIndex]: negative indexes count from the end. *)
Definition NormalizeIndex (index size : Z) (checkBounds : bool) : res Z :=
  if index =? 0 then Ok 0
  else
    index ←
      (if index <? 0 then
         i ← abs_int index;
         _ ← require (negb (checkBounds && (size <? i))) (invalid_argument "out of bounds");
         Ok (if size - i <? 0 then 0 else size - i)
       else
         _ ← require (negb (checkBounds && (size <=? index))) (invalid_argument "out of bounds");
         Ok index);
    _ ← assert_ (0 <=? index);
    Ok (u32 index).

(** [if(size == 0 || (index < 0 && abs(index) > size))] *)
Definition NormalizeForQueries (index size : Z) : res Z :=
  beyond ← (if size =? 0 then Ok true
            else if index <? 0 then i ← abs_int index; Ok (size <? i)
            else Ok false);
  if (beyond : bool) then Ok 0
  else if size <=? index then Ok size
  else i ← NormalizeIndex index size true; Ok (i32 i).

Definition NormalizeQueryLimits (start end_ containerSize : Z) : res (Z * Z) :=
  start ← NormalizeForQueries start containerSize;
  end_ ← (if end_ =? 0 then Ok containerSize else NormalizeForQueries end_ containerSize);
  Ok (if end_ <? start then end_ else start, end_).

(** *** What the index functions compute *)

(** The position a Python-like index names in a sequence of [n]. *)
Definition python_index (k n : Z) : option Z :=
  if (0 <=? k) && (k <? n) then Some k
  else if (k <? 0) && (- n <=? k) then Some (n + k)
  else None.

(** An index brought to the nearest bound. *)
Definition clamp (k n : Z) : Z := if k <? 0 then Z.max 0 (n + k) else Z.min k n.

(** Index arguments whose absolute value is an [int]. *)
Definition index_ok (k : Z) : Prop := k <> INT_MIN.

#[export] Instance index_ok_dec k : Decision (index_ok k).
Proof. unfold index_ok. apply _. Defined.

Lemma abs_int_ok k : index_ok k -> abs_int k = Ok (Z.abs k).
Proof. intros H. unfold index_ok in H. unfold abs_int. by ztest. Qed.

Lemma NormalizeIndex_spec k n :
  index_ok k -> 0 <= n < 2 ^ 31 ->
  NormalizeIndex k n true =
    if k =? 0 then Ok 0
    else match python_index k n with Some i => Ok i | None => Throw (invalid_argument "out of bounds") end.
Proof.
  intros Hk Hn. unfold NormalizeIndex, python_index, require, assert_.
  destruct (k =? 0) eqn:E0; [done|]. bool_to_prop. destruct (k <? 0) eqn:E1; bool_to_prop.
  - rewrite abs_int_ok by done. mrun. ztest. cbn [andb].
    destruct (- n <=? k) eqn:E2; bool_to_prop; ztest; mrun; [|done].
    ztest. mrun. rewrite u32_small by lia. f_equal. lia.
  - ztest. cbn [andb]. destruct (k <? n) eqn:E2; bool_to_prop; ztest; mrun; [|done].
    ztest. mrun. by rewrite u32_small by lia.
Qed.

Lemma python_index_bound k n i : python_index k n = Some i -> 0 <= i < n.
Proof. unfold python_index. repeat case_match; intros; simplify_eq; bool_to_prop; lia. Qed.

Lemma NormalizeForQueries_spec k n :
  index_ok k -> 0 <= n < 2 ^ 31 -> NormalizeForQueries k n = Ok (clamp k n).
Proof.
  intros Hk Hn. unfold NormalizeForQueries, clamp. destruct (n =? 0) eqn:E0; bool_to_prop; mrun.
  { subst n. f_equal. destruct (k <? 0) eqn:E1; bool_to_prop; lia. }
  destruct (k <? 0) eqn:E1; bool_to_prop; mrun.
  - rewrite abs_int_ok by done. mrun. destruct (n <? Z.abs k) eqn:E2; bool_to_prop; [f_equal; lia|].
    ztest. rewrite NormalizeIndex_spec by done. ztest. unfold python_index. ztest. mrun.
    rewrite i32_small by (unfold is_int, INT_MIN, INT_MAX; lia). f_equal. lia.
  - destruct (n <=? k) eqn:E2; bool_to_prop; [f_equal; lia|].
    rewrite NormalizeIndex_spec by done. destruct (k =? 0) eqn:E3; bool_to_prop; mrun; [f_equal; change (i32 0) with 0; lia|].
    unfold python_index. ztest. mrun. rewrite i32_small by (unfold is_int, INT_MIN, INT_MAX; lia). f_equal. lia.
Qed.

(** The bounds of a query: both clamped, an end of 0 meaning the whole rest, and
    a start after the end moved to it. *)
Definition query_end (end_ n : Z) : Z := if end_ =? 0 then n else clamp end_ n.
Definition query_start (start end_ n : Z) : Z := Z.min (clamp start n) (query_end end_ n).

Lemma NormalizeQueryLimits_spec start end_ n :
  index_ok start -> index_ok end_ -> 0 <= n < 2 ^ 31 ->
  NormalizeQueryLimits start end_ n = Ok (query_start start end_ n, query_end end_ n).
Proof.
  intros Hs He Hn. unfold NormalizeQueryLimits, query_start, query_end.
  rewrite !NormalizeForQueries_spec by done. mrun.
  destruct (end_ =? 0); mrun; do 2 f_equal; case_match; bool_to_prop; lia.
Qed.

Lemma query_bounds start end_ n :
  0 <= n -> 0 <= query_start start end_ n <= query_end end_ n /\ query_end end_ n <= n.
Proof. intros Hn. unfold query_start, query_end, clamp. repeat case_match; bool_to_prop; lia. Qed.

(** ** Events *)

Inductive ContainerEventCode :=
| EVENT_CODE_SET | EVENT_CODE_INSERT | EVENT_CODE_DELETE | EVENT_CODE_CLEAR
| EVENT_CODE_PUSH_BACK | EVENT_CODE_PUSH_FRONT | EVENT_CODE_SNAPSHOT_END.

#[export] Instance ContainerEventCode_eq_dec : EqDecision ContainerEventCode.
Proof. solve_decision. Defined.

Definition event_code_value (c : ContainerEventCode) : Z :=
  match c with
  | EVENT_CODE_SET => TIO_COMMAND_SET
  | EVENT_CODE_INSERT => TIO_COMMAND_INSERT
  | EVENT_CODE_DELETE => TIO_COMMAND_DELETE
  | EVENT_CODE_CLEAR => TIO_COMMAND_CLEAR
  | EVENT_CODE_PUSH_BACK => TIO_COMMAND_PUSH_BACK
  | EVENT_CODE_PUSH_FRONT => TIO_COMMAND_PUSH_FRONT
  | EVENT_CODE_SNAPSHOT_END => TIO_EVENT_SNAPSHOT_END
  end.

(** A call of an [EventSink], but for the storage's own id. *)
Record event := { e_code : ContainerEventCode; e_key : TioData; e_value : TioData; e_metadata : TioData }.

Record ValueAndMetadata := { value : TioData; metadata : TioData }.

#[export] Instance ValueAndMetadata_eq_dec : EqDecision ValueAndMetadata.
Proof. solve_decision. Defined.

#[export] Instance ValueAndMetadata_inhabited : Inhabited ValueAndMetadata :=
  populate {| value := None_; metadata := None_ |}.

(** ** The members every storage has *)

(** [sink_] is whether a subscriber is set, [locked] whether [mutex_] is held. *)
Record storage (D : Type) := mk_storage {
  data_ : D; name_ : bytes; type_ : bytes; sink_ : bool; revNum_ : Z; locked : bool;
  published : list event
}.
Arguments mk_storage {D}.
Arguments data_ {D}.
Arguments name_ {D}.
Arguments type_ {D}.
Arguments sink_ {D}.
Arguments revNum_ {D}.
Arguments locked {D}.
Arguments published {D}.

Section Members.
Context {D : Type}.
Implicit Types s : storage D.

Definition set_data (d : D) s : storage D :=
  mk_storage d (name_ s) (type_ s) (sink_ s) (revNum_ s) (locked s) (published s).
Definition set_sink (b : bool) s : storage D :=
  mk_storage (data_ s) (name_ s) (type_ s) b (revNum_ s) (locked s) (published s).
Definition set_revNum (n : Z) s : storage D :=
  mk_storage (data_ s) (name_ s) (type_ s) (sink_ s) n (locked s) (published s).
Definition set_locked (b : bool) s : storage D :=
  mk_storage (data_ s) (name_ s) (type_ s) (sink_ s) (revNum_ s) b (published s).
Definition add_published (e : event) s : storage D :=
  mk_storage (data_ s) (name_ s) (type_ s) (sink_ s) (revNum_ s) (locked s) (published s ++ [e]).

(** A [lock_guard] on a [std::mutex]: taking it again in the same thread never
    returns; it is released also when the body throws. *)
Definition with_lock {A} (m : M (storage D) A) : M (storage D) A := fun s =>
  if locked s then (Throw (Fault Deadlock), s)
  else let '(r, s') := m (set_locked true s) in (r, set_locked false s').

Lemma with_lock_ok {A} (m : M (storage D) A) s r s' :
  locked s = false -> m (set_locked true s) = (r, s') -> with_lock m s = (r, set_locked false s').
Proof. intros Hl Hm. unfold with_lock. by rewrite Hl, Hm. Qed.

Lemma with_lock_twice {A} (m : M (storage D) A) s :
  locked s = true -> with_lock m s = (Throw (Fault Deadlock), s).
Proof. intros Hl. unfold with_lock. by rewrite Hl. Qed.

Lemma unlock s : locked s = false -> set_locked false (set_locked true s) = s.
Proof. destruct s; simpl. by intros ->. Qed.

Lemma unlock_data d s : locked s = false -> set_locked false (set_data d (set_locked true s)) = set_data d s.
Proof. destruct s; simpl. by intros ->. Qed.

(** Calling the sink. *)
Definition call_sink (c : ContainerEventCode) (k v m : TioData) : M (storage D) unit :=
  modify (add_published {| e_code := c; e_key := k; e_value := v; e_metadata := m |}).

(** *** What no command changes *)

Definition header s : bytes * bytes * bool * bool := (name_ s, type_ s, sink_ s, locked s).

(** The name, the type and the subscriber stay, and the lock is as it was. *)
Definition framed {A} (m : M (storage D) A) : Prop := forall s, header (m s).2 = header s.

Lemma framed_pure {A} (r : res A) : framed (lift r).
Proof. done. Qed.

Lemma framed_ret {A} (a : A) : framed (mret a).
Proof. done. Qed.

Lemma framed_throw {A} e : framed (throw (A := A) e).
Proof. done. Qed.

Lemma framed_get : framed get.
Proof. done. Qed.

Lemma framed_set_data d : framed (modify (set_data d)).
Proof. done. Qed.

Lemma framed_set_revNum n : framed (modify (set_revNum n)).
Proof. done. Qed.

Lemma framed_call_sink c k v m : framed (call_sink c k v m).
Proof. done. Qed.

Lemma framed_bind {A B} (m : M (storage D) A) (f : A -> M (storage D) B) :
  framed m -> (forall a, framed (f a)) -> framed (m ≫= f).
Proof.
  intros Hm Hf s. unfold mbind, M_bind. specialize (Hm s). destruct (m s) as [ [a|e] s']; simpl in *; [|done].
  by rewrite Hf.
Qed.

Lemma framed_with_lock {A} (m : M (storage D) A) : framed m -> framed (with_lock m).
Proof.
  intros Hm s. unfold with_lock. destruct (locked s) eqn:El; [done|]. specialize (Hm (set_locked true s)).
  destruct (m (set_locked true s)) as [r s']. unfold header in *. simpl in *. rewrite El. congruence.
Qed.

End Members.

Create HintDb framed.
#[export] Hint Resolve framed_pure framed_ret framed_throw framed_get framed_set_data framed_set_revNum
  framed_call_sink framed_with_lock : framed.

(** Goes through a command call by call. *)
Ltac solve_framed :=
  repeat first
    [ solve [auto with framed]
    | apply framed_bind; [|intros]
    | apply framed_with_lock
    | progress cbn zeta
    | case_match ].

(** Output arguments. *)
Definition out := option TioData.
Definition outs : Type := out * out * out.
Definition assign (o : out) (v : TioData) : out := match o with Some _ => Some v | None => None end.

(** ** Result sets *)

Definition item : Type := TioData * TioData * TioData.

Record VectorResultSet := { items_ : list item; source_ : TioData; current_ : nat }.

Definition new_result_set (items : list item) (source : TioData) : VectorResultSet :=
  {| items_ := items; source_ := source; current_ := 0 |}.

Module ResultSet.
Definition at_end (r : VectorResultSet) : bool := bool_decide (current_ r = length (items_ r)).
Definition with_current (n : nat) (r : VectorResultSet) : VectorResultSet :=
  {| items_ := items_ r; source_ := source_ r; current_ := n |}.
Definition GetRecord (r : VectorResultSet) : option item :=
  if at_end r then None else items_ r !! current_ r.
Definition MoveNext (r : VectorResultSet) : bool * VectorResultSet :=
  if at_end r then (false, r)
  else let r := with_current (S (current_ r)) r in (negb (at_end r), r).
Definition MovePrevious (r : VectorResultSet) : bool * VectorResultSet :=
  if bool_decide (current_ r = 0%nat) then (false, r)
  else (true, with_current (pred (current_ r)) r).
Definition AtBegin (r : VectorResultSet) : bool := bool_decide (current_ r = 0%nat).
Definition AtEnd (r : VectorResultSet) : bool := at_end r.
Definition Source (r : VectorResultSet) : TioData := source_ r.
Definition RecordCount (r : VectorResultSet) : Z := u32 (Z.of_nat (length (items_ r))).
End ResultSet.

(** ** Records with a schema *)

(** [boost::algorithm::split] on a separator: one piece more than separators. *)
Fixpoint split (sep : Byte.byte) (s : bytes) : list bytes :=
  match s with
  | [] => [ [] ]
  | b :: t =>
      if decide (b = sep) then [] :: split sep t
      else match split sep t with [] => [ [b] ] | w :: ws => (b :: w) :: ws end
  end.

Module ContainerRecord.
Record t := { fields_ : list bytes; fieldsNames_ : gmap bytes nat }.

(** [for(a...) fieldsNames_[names[a]] = a] *)
Fixpoint index_names (a : nat) (names : list bytes) (acc : gmap bytes nat) : gmap bytes nat :=
  match names with [] => acc | n :: names => index_names (S a) names (<[n := a]> acc) end.

Definition SetSchema (schema : bytes) (r : t) : t :=
  {| fields_ := fields_ r; fieldsNames_ := index_names 0 (split x5e schema) (fieldsNames_ r) |}.
Definition SetRecord (record : bytes) (r : t) : t :=
  {| fields_ := split x5e record; fieldsNames_ := fieldsNames_ r |}.
Definition make (schema : bytes) : t := SetSchema schema {| fields_ := []; fieldsNames_ := ∅ |}.
Definition GetFieldCount (r : t) : nat := length (fields_ r).
Definition GetField_at (r : t) (index : nat) : bytes := default [] (fields_ r !! index).
Definition GetField (r : t) (fieldName : bytes) : bytes :=
  match fieldsNames_ r !! fieldName with Some i => GetField_at r i | None => [] end.
End ContainerRecord.

(** ** The storage interface *)

Class ITioStorage (S : Type) := {
  GetRecordCount : M S Z;
  PushBack : TioData -> TioData -> TioData -> M S unit;
  PushFront : TioData -> TioData -> TioData -> M S unit;
  PopBack : out -> out -> out -> M S outs;
  PopFront : out -> out -> out -> M S outs;
  GetRecord : TioData -> out -> out -> out -> M S outs;
  Set_ : TioData -> TioData -> TioData -> M S unit;
  Insert : TioData -> TioData -> TioData -> M S unit;
  Delete : TioData -> TioData -> TioData -> M S unit;
  Clear : M S unit;
  Query : Z -> Z -> TioData -> M S VectorResultSet;
  GetRevNum : M S Z;
  Command : bytes -> M S bytes;
  SetSubscriber : bool -> M S unit;
  RemoveSubscriber : M S unit
}.

(** Commands of a client, as data. *)
Inductive op :=
| OpPushBack (k v m : TioData) | OpPushFront (k v m : TioData)
| OpPopBack (k v m : TioData) | OpPopFront (k v m : TioData)
| OpSet (k v m : TioData) | OpInsert (k v m : TioData) | OpDelete (k v m : TioData)
| OpClear | OpGet (k : TioData) | OpQuery (start end_ : Z).

(** The numbers in a command are [int]s, and a query does not start or end at
    [INT_MIN], whose absolute value is none. *)
Definition key_ok (k : TioData) : Prop := match k with Int i => is_int i | _ => True end.

Definition op_ok (o : op) : Prop :=
  match o with
  | OpSet k _ _ | OpInsert k _ _ | OpDelete k _ _ | OpGet k => key_ok k
  | OpQuery a b => index_ok a /\ index_ok b
  | _ => True
  end.

Section Run.
Context {S : Type} `{ITioStorage S}.

(** The output arguments of pops hold some value of the caller's. *)
Definition run_op (o : op) : M S unit :=
  match o with
  | OpPushBack k v m => PushBack k v m
  | OpPushFront k v m => PushFront k v m
  | OpPopBack k v m => _ ← PopBack (Some k) (Some v) (Some m); mret tt
  | OpPopFront k v m => _ ← PopFront (Some k) (Some v) (Some m); mret tt
  | OpSet k v m => Set_ k v m
  | OpInsert k v m => Insert k v m
  | OpDelete k v m => Delete k v m
  | OpClear => Clear
  | OpGet k => _ ← GetRecord k (Some None_) (Some None_) (Some None_); mret tt
  | OpQuery a b => _ ← Query a b None_; mret tt
  end.

(** A sequence of commands: an exception is reported to its client and the
    server goes on; a fault ends the run. *)
Fixpoint run_ops (os : list op) (s : S) : option S :=
  match os with
  | [] => Some s
  | o :: os =>
      match run_op o s with
      | (Throw (Fault _), _) => None
      | (_, s) => run_ops os s
      end
  end.

End Run.

(** What a storage promises to those who subscribe: each command either throws
    and changes nothing, or changes the contents exactly as the events it
    publishes say.  [step] is what a replica does with an event; [small] are the
    sizes for which the promise holds (record numbers are [int]s). *)
Class Replicates (S C : Type) `{ITioStorage S} (wf small : S -> Prop) (contents : S -> C)
    (log : S -> list event) (step : C -> event -> C) : Prop := {
  replicates_step o s r s' :
    wf s -> small s -> op_ok o -> run_op o s = (r, s') ->
    match r with
    | Throw (Fault _) => True
    | Throw _ => contents s' = contents s /\ log s' = log s /\ wf s'
    | Ok _ => wf s' /\ exists evs, log s' = log s ++ evs /\ contents s' = fold_left step evs (contents s)
    end
}.

(** A run during which the storage stays small. *)
Definition stays_small {S} `{ITioStorage S} (small : S -> Prop) (os : list op) (s : S) : Prop :=
  forall n s1, run_ops (take n os) s = Some s1 -> small s1.

Lemma stays_small_cons {S} `{ITioStorage S} (small : S -> Prop) o os s r s1 :
  stays_small small (o :: os) s -> run_op o s = (r, s1) -> (forall f, r <> Throw (Fault f)) ->
  small s /\ stays_small small os s1.
Proof.
  intros H1 H2 H3. split; [by apply (H1 0%nat)|]. intros n s2 Hn. apply (H1 (Datatypes.S n)). simpl.
  rewrite H2. destruct r as [|[]]; try done. by destruct (H3 f).
Qed.

(** Against that promise alone: a replica that starts equal and follows the
    events stays equal, over any sequence of commands. *)
Lemma replica_follows {S C} `{!ITioStorage S} {wf small : S -> Prop} {contents : S -> C} {log step}
    `{!Replicates S C wf small contents log step} os : forall s s',
  wf s -> stays_small small os s -> Forall op_ok os -> run_ops os s = Some s' ->
  wf s' /\ exists evs, log s' = log s ++ evs /\ contents s' = fold_left step evs (contents s).
Proof.
  induction os as [|o os IH]; intros s s' Hwf Hsm Hok Hrun; simpl in Hrun.
  - injection Hrun as <-. split; [done|]. exists []. by rewrite app_nil_r.
  - apply Forall_cons in Hok as [Ho Hok]. destruct (run_op o s) as [r s1] eqn:E.
    pose proof (replicates_step o s r s1 Hwf (Hsm 0%nat s eq_refl) Ho E) as Hs.
    destruct (stays_small_cons small o os s r s1 Hsm E) as [_ Hsm1]; [by intros f ->|].
    destruct r as [u|e].
    + destruct Hs as (Hwf1 & evs & El & Ec). destruct (IH s1 s' Hwf1 Hsm1 Hok Hrun) as (Hwf' & evs' & El' & Ec').
      split; [done|]. exists (evs ++ evs'). rewrite El', El, app_assoc. split; [done|].
      by rewrite Ec', Ec, fold_left_app.
    + destruct e; try discriminate; destruct Hs as (Ec & El & Hwf1);
        destruct (IH s1 s' Hwf1 Hsm1 Hok Hrun) as (Hwf' & evs & El' & Ec');
        (split; [done|]); exists evs; by rewrite El', El, Ec', Ec.
Qed.

(** ** [Container]: a storage and its properties *)

Class ITioPropertyMap (P : Type) := {
  GetProp : bytes -> M P bytes;
  SetProp : bytes -> bytes -> M P unit
}.

Module Container.
Section Container.
Context {S P : Type} `{ITioStorage S} `{ITioPropertyMap P}.

Record t := { storage_ : S; propertyMap_ : P }.

Definition on_storage {A} (m : M S A) : M t A := fun c =>
  let '(r, s) := m (storage_ c) in (r, {| storage_ := s; propertyMap_ := propertyMap_ c |}).
Definition on_properties {A} (m : M P A) : M t A := fun c =>
  let '(r, p) := m (propertyMap_ c) in (r, {| storage_ := storage_ c; propertyMap_ := p |}).

(** Every operation goes to the storage unchanged. *)
#[export] Instance container_storage : ITioStorage t := {
  GetRecordCount := on_storage GetRecordCount;
  PushBack k v m := on_storage (PushBack k v m);
  PushFront k v m := on_storage (PushFront k v m);
  PopBack k v m := on_storage (PopBack k v m);
  PopFront k v m := on_storage (PopFront k v m);
  GetRecord sk k v m := on_storage (GetRecord sk k v m);
  Set_ k v m := on_storage (Set_ k v m);
  Insert k v m := on_storage (Insert k v m);
  Delete k v m := on_storage (Delete k v m);
  Clear := on_storage Clear;
  Query a b q := on_storage (Query a b q);
  GetRevNum := on_storage GetRevNum;
  Command c := on_storage (Command c);
  SetSubscriber b := on_storage (SetSubscriber b);
  RemoveSubscriber := on_storage RemoveSubscriber
}.

Definition SetProperty (key v : bytes) : M t unit := on_properties (SetProp key v).
Definition GetProperty (key : bytes) : M t bytes := on_properties (GetProp key).

(** [GetRealRecordNumber] *)
Definition GetRealRecordNumber (recNumber : Z) : M t Z :=
  count ← GetRecordCount;
  if 0 <=? recNumber then
    if i32 count - 1 <? recNumber then throw (out_of_range "invalid record number") else mret recNumber
  else
    let realRecNumber := i32 count + recNumber in
    if realRecNumber <? 0 then throw (out_of_range "invalid record number") else mret realRecNumber.

End Container.
Arguments t : clear implicits.
End Container.

Definition IsListContainer (type : bytes) : bool :=
  bool_decide (type ∈ [lit "volatile_list"; lit "persistent_list"; lit "volatile_vector"; lit "persistent_vector"]).

Definition IsMapContainer (type : bytes) : bool :=
  bool_decide (type ∈ [lit "volatile_map"; lit "persistent_map"]).

End Containers.
