(* ===== verification/ListStorage.v ===== *)
(** * Lists: [server/tio/ListStorage.h]

    A [std::list] of values with metadata.  An iterator is a position of the
    list, its length standing for [end()].  The mutex is recursive and the
    storage is used by one thread here, so taking it changes nothing.  Its
    sink is called with the lock held. *)
From S2P Require Import Prelude TioDataS Containers.

Module ListStorage.
Import TioData Containers.

Notation ListType := (list ValueAndMetadata).
Definition t := storage ListType.

Definition make (name type : bytes) : t := mk_storage [] name type false 0 false [].

(** [static_cast<int>(data_.size())] *)
Definition int_size (d : ListType) : Z := i32 (Z.of_nat (length d)).

Definition UpdateRevNumAndPublish (c : ContainerEventCode) (k v m : TioData) : M t unit :=
  s ← get;
  _ ← modify (set_revNum (u64 (revNum_ s + 1)));
  if sink_ s then call_sink c k v m else mret tt.

Definition GetRevNum : M t Z := s ← get; mret (revNum_ s).
Definition GetName (s : t) : bytes := name_ s.
Definition GetType (s : t) : bytes := type_ s.
(** The source quotes the word with double quotes. *)
Definition Command (command : bytes) : M t bytes :=
  throw (invalid_argument "'command' not supported by the container").
Definition GetRecordCount : M t Z := s ← get; mret (Z.of_nat (length (data_ s))).

Definition CheckValue (v : TioData) : res unit :=
  require (operator_bool v) (invalid_argument "value??").

Definition PushBack (key v m : TioData) : M t unit :=
  _ ← lift (CheckValue v);
  s ← get;
  let d := data_ s ++ [ {| value := v; metadata := m |} ] in
  _ ← modify (set_data d);
  UpdateRevNumAndPublish EVENT_CODE_PUSH_BACK (Int (i32 (Z.of_nat (length d) - 1))) v m.

Definition PushFront (key v m : TioData) : M t unit :=
  _ ← lift (CheckValue v);
  s ← get;
  _ ← modify (set_data ({| value := v; metadata := m |} :: data_ s));
  UpdateRevNumAndPublish EVENT_CODE_PUSH_FRONT (Int 0) v m.

(** What an output argument holds before it is assigned. *)
Definition current (o : out) : TioData := default TIONULL o.

Definition PopBack (key v m : out) : M t outs :=
  s ← get;
  match last (data_ s) with
  | None => throw (invalid_argument "empty")
  | Some data =>
      let d := removelast (data_ s) in
      let index := int_size d in
      _ ← modify (set_data d);
      _ ← UpdateRevNumAndPublish EVENT_CODE_DELETE (Int index) (current v) (current m);
      mret (assign key (Int index), assign v (value data), assign m (metadata data))
  end.

Definition PopFront (key v m : out) : M t outs :=
  s ← get;
  match data_ s with
  | [] => throw (invalid_argument "empty")
  | data :: d =>
      _ ← modify (set_data d);
      _ ← UpdateRevNumAndPublish EVENT_CODE_DELETE (Int 0) (current v) (current m);
      mret (assign key (Int 0), assign v (value data), assign m (metadata data))
  end.

(** [GetOffset]: the iterator and [*realIndex].  Near the end of the list it
    walks backwards from [end()]. *)
Definition GetOffset (d : ListType) (key : TioData) : res (nat * Z) :=
  k ← AsInt key;
  n ← NormalizeIndex k (int_size d) true;
  let index := i32 n in
  Ok (match d with
      | [] => length d
      | _ =>
          if index <=? Z.of_nat (length d / 2) then Nat.iter (Z.to_nat index) S 0%nat
          else
            let walk := i32 (Z.of_nat (length d) - index) in
            Nat.iter (Z.to_nat walk) pred (length d)
      end, index).

(** [*i] *)
Definition deref (d : ListType) (i : nat) : res ValueAndMetadata :=
  match d !! i with Some x => Ok x | None => Throw (Fault EndDeref) end.

(** The element is written after the event is published. *)
Definition Set_ (key v m : TioData) : M t unit :=
  s ← get;
  '(i, _) ← lift (GetOffset (data_ s) key);
  x ← lift (deref (data_ s) i);
  _ ← UpdateRevNumAndPublish EVENT_CODE_SET key v m;
  let x := {| value := if operator_bool v then v else value x;
              metadata := if operator_bool m then m else metadata x |} in
  modify (set_data (<[i := x]> (data_ s))).

(** [size_t index = key.AsInt()] *)
Definition Insert (key v m : TioData) : M t unit :=
  k ← lift (AsInt key);
  let index := u64 k in
  let x := {| value := v; metadata := m |} in
  s ← get;
  d ← lift (if index =? 0 then Ok (x :: data_ s)
            else if index =? Z.of_nat (length (data_ s)) then Ok (data_ s ++ [x])
            else '(i, _) ← GetOffset (data_ s) key; Ok (take i (data_ s) ++ [x] ++ drop i (data_ s)));
  _ ← modify (set_data d);
  UpdateRevNumAndPublish EVENT_CODE_INSERT key v m.

Definition Delete (key v m : TioData) : M t unit :=
  s ← get;
  '(i, realIndex) ← lift (GetOffset (data_ s) key);
  if bool_decide (i = length (data_ s)) then throw (runtime_error "invalid index")
  else
    _ ← modify (set_data (delete i (data_ s)));
    UpdateRevNumAndPublish EVENT_CODE_DELETE (Int (i32 realIndex)) v m.

Definition Clear : M t unit :=
  _ ← modify (set_data []);
  UpdateRevNumAndPublish EVENT_CODE_CLEAR TIONULL TIONULL TIONULL.

(** [for (key = startOffset; begin != end; ++begin, ++key)] *)
Fixpoint result_items (key : Z) (l : ListType) : list item :=
  match l with
  | [] => []
  | x :: l => (Int key, value x, metadata x) :: result_items (i32 (key + 1)) l
  end.

(** The iterator of a query limit. *)
Definition limit (d : ListType) (offset recordCount : Z) : res nat :=
  if offset =? 0 then Ok 0%nat
  else if offset =? recordCount then Ok (length d)
  else '(i, _) ← GetOffset d (Int offset); Ok i.

Definition Query (startOffset endOffset : Z) (query : TioData) : M t VectorResultSet :=
  if negb (IsNull query) then throw (runtime_error "query type not supported by this container")
  else
    s ← get;
    let d := data_ s in
    '(start, b, e) ← lift (
      if bool_decide (length d = 0%nat) then Ok (0, 0%nat, 0%nat)
      else
        let recordCount := int_size d in
        '(start, end_) ← NormalizeQueryLimits startOffset endOffset recordCount;
        b ← limit d start recordCount;
        e ← limit d end_ recordCount;
        Ok (start, b, e));
    mret (new_result_set (result_items start (take (e - b) (drop b d))) TIONULL).

Definition GetRecord (searchKey : TioData) (key v m : out) : M t outs :=
  s ← get;
  '(i, realIndex) ← lift (GetOffset (data_ s) searchKey);
  x ← lift (match v, m with None, None => Ok inhabitant | _, _ => deref (data_ s) i end);
  mret (assign key (Int (i32 realIndex)), assign v (value x), assign m (metadata x)).

(** The argument is whether the function passed is not empty. *)
Definition SetSubscriber (sink : bool) : M t unit := modify (set_sink sink).
Definition RemoveSubscriber : M t unit := modify (set_sink false).

#[export] Instance list_storage : ITioStorage t := {
  Containers.GetRecordCount := GetRecordCount;
  Containers.PushBack := PushBack;
  Containers.PushFront := PushFront;
  Containers.PopBack := PopBack;
  Containers.PopFront := PopFront;
  Containers.GetRecord := GetRecord;
  Containers.Set_ := Set_;
  Containers.Insert := Insert;
  Containers.Delete := Delete;
  Containers.Clear := Clear;
  Containers.Query := Query;
  Containers.GetRevNum := GetRevNum;
  Containers.Command := Command;
  Containers.SetSubscriber := SetSubscriber;
  Containers.RemoveSubscriber := RemoveSubscriber
}.

(** ** Positions *)

Definition small (s : t) : Prop := Z.of_nat (length (data_ s)) < 2 ^ 31.

Lemma int_size_small d : Z.of_nat (length d) < 2 ^ 31 -> int_size d = Z.of_nat (length d).
Proof. intros H. unfold int_size. apply i32_small. unfold is_int, INT_MIN, INT_MAX. lia. Qed.

Lemma iter_S n : Nat.iter n S 0%nat = n.
Proof. induction n as [|n IH]; simpl; lia. Qed.

Lemma iter_pred n m : Nat.iter n pred m = (m - n)%nat.
Proof. induction n as [|n IH]; simpl; lia. Qed.

(** Both walks reach the index: the one from the front and the one from the
    back. *)
Lemma GetOffset_at d k n :
  Z.of_nat (length d) < 2 ^ 31 -> NormalizeIndex k (Z.of_nat (length d)) true = Ok n ->
  0 <= n < Z.of_nat (length d) \/ (d = [] /\ n = 0) ->
  GetOffset d (Int k) = Ok (Z.to_nat n, n).
Proof.
  intros Hd E Hn. unfold GetOffset. cbn [AsInt]. mrun. rewrite int_size_small, E by done. mrun.
  assert (Hi : i32 n = n) by (apply i32_small; unfold is_int, INT_MIN, INT_MAX; destruct Hn as [Hn|[-> ->] ]; simpl; lia).
  rewrite Hi. do 2 f_equal. destruct Hn as [Hn|[-> ->] ]; [|done].
  destruct d as [|x d]; [simpl in Hn; lia|]. set (len := length (x :: d)) in *.
  destruct (n <=? _) eqn:Eh; bool_to_prop; [apply iter_S|].
  rewrite iter_pred. rewrite i32_small by (unfold is_int, INT_MIN, INT_MAX; lia). lia.
Qed.

(** The position a key names, in the way of Python. *)
Definition position (d : ListType) (key : TioData) : option nat :=
  match key with Int k => Z.to_nat <$> python_index k (Z.of_nat (length d)) | _ => None end.

Lemma position_bound d key i : position d key = Some i -> (i < length d)%nat.
Proof.
  unfold position. destruct key; try done. intros H. apply fmap_Some in H as (z & Hz & ->).
  apply python_index_bound in Hz. lia.
Qed.

(** A key that is no position: an exception, or index 0 of an empty list. *)
Lemma GetOffset_cases d key :
  Z.of_nat (length d) < 2 ^ 31 ->
  match position d key with
  | Some i => GetOffset d key = Ok (i, Z.of_nat i)
  | None => (d = [] /\ key = Int 0 /\ GetOffset d key = Ok (0%nat, 0)) \/
            exists e, GetOffset d key = Throw e /\ ((forall f, e <> Fault f) \/ key = Int INT_MIN)
  end.
Proof.
  intros Hd. destruct key as [|k|x|x]; try (right; eexists; split; [reflexivity|]; left; by intros f).
  unfold position. destruct (decide (k = INT_MIN)) as [-> | Hk].
  { unfold python_index, INT_MIN. ztest. simpl. right. unfold GetOffset, NormalizeIndex, abs_int, INT_MIN. simpl.
    eexists. split; [reflexivity|]. by right. }
  pose proof (NormalizeIndex_spec k (Z.of_nat (length d)) Hk ltac:(lia)) as E.
  destruct (python_index k _) as [i|] eqn:Ep; simpl.
  - pose proof (python_index_bound _ _ _ Ep) as Hb. rewrite Z2Nat.id by lia.
    apply GetOffset_at; [done| |by left]. rewrite E. destruct (k =? 0) eqn:E0; bool_to_prop; [|done].
    subst k. unfold python_index in Ep. revert Ep. ztest. by intros [= <-].
  - destruct (k =? 0) eqn:E0; bool_to_prop.
    + subst k. left. unfold python_index in Ep. destruct d as [|x d]; [|revert Ep; simpl length; ztest; done].
      split; [done|]. split; [done|]. by apply (GetOffset_at [] 0 0); [|rewrite E|right].
    + right. unfold GetOffset. cbn [AsInt]. mrun. rewrite int_size_small, E by done. mrun.
      eexists. split; [done|]. by left.
Qed.

(** ** Specification: a Python-like list *)

Definition record (v m : TioData) : ValueAndMetadata := {| value := v; metadata := m |}.

(** A null value or metadata leaves the old one. *)
Definition merge (v m : TioData) (x : ValueAndMetadata) : ValueAndMetadata :=
  {| value := if operator_bool v then v else value x;
     metadata := if operator_bool m then m else metadata x |}.

Definition insert_at (i : nat) (x : ValueAndMetadata) (d : ListType) : ListType := take i d ++ [x] ++ drop i d.

(** Where an insertion goes: index 0 and the length are always possible. *)
Definition insert_position (d : ListType) (key : TioData) : option nat :=
  match key with
  | Int k => if k =? 0 then Some 0%nat
             else if k =? Z.of_nat (length d) then Some (length d) else position d key
  | _ => None
  end.

(** The list after a command; [None] when it must throw. *)
Definition spec (o : op) (d : ListType) : option ListType :=
  match o with
  | OpPushBack _ v m => if operator_bool v then Some (d ++ [record v m]) else None
  | OpPushFront _ v m => if operator_bool v then Some (record v m :: d) else None
  | OpPopBack _ _ _ => match d with [] => None | _ => Some (removelast d) end
  | OpPopFront _ _ _ => match d with [] => None | _ :: d => Some d end
  | OpSet key v m => i ← position d key; x ← d !! i; Some (<[i := merge v m x]> d)
  | OpInsert key v m => i ← insert_position d key; Some (insert_at i (record v m) d)
  | OpDelete key _ _ => i ← position d key; Some (delete i d)
  | OpClear => Some []
  | OpGet key => _ ← position d key; Some d
  | OpQuery _ _ => Some d
  end.

(** What an event tells a replica to do. *)
Definition list_step (d : ListType) (e : event) : ListType :=
  let x := record (e_value e) (e_metadata e) in
  match e_code e with
  | EVENT_CODE_PUSH_BACK => d ++ [x]
  | EVENT_CODE_PUSH_FRONT => x :: d
  | EVENT_CODE_CLEAR => []
  | EVENT_CODE_INSERT => default d ((fun i => insert_at i x d) <$> insert_position d (e_key e))
  | EVENT_CODE_DELETE => default d ((fun i => delete i d) <$> position d (e_key e))
  | EVENT_CODE_SET => default d (i ← position d (e_key e); y ← d !! i;
                                 Some (<[i := merge (e_value e) (e_metadata e) y]> d))
  | EVENT_CODE_SNAPSHOT_END => d
  end.

(** ** Publishing *)

(** A storage after a change that was published. *)
Definition after (d : ListType) (e : event) (s : t) : t :=
  let s := set_data d (set_revNum (u64 (revNum_ s + 1)) s) in
  if sink_ s then add_published e s else s.

Lemma publish_ok c k v m d s :
  (_ ← modify (set_data d); UpdateRevNumAndPublish c k v m) s
  = (Ok tt, after d {| e_code := c; e_key := k; e_value := v; e_metadata := m |} s).
Proof. unfold after. rewrite bind_modify. unfold UpdateRevNumAndPublish. rewrite bind_get, bind_modify. simpl. by destruct (sink_ s). Qed.

Lemma data_after d e s : data_ (after d e s) = d.
Proof. unfold after. by destruct (sink_ _). Qed.

Lemma position_int d i : (i < length d)%nat -> position d (Int (Z.of_nat i)) = Some i.
Proof. intros H. unfold position, python_index. ztest. simpl. by rewrite Nat2Z.id. Qed.

Lemma removelast_delete (d : ListType) : d <> [] -> removelast d = delete (length d - 1)%nat d.
Proof.
  intros Hd. destruct d as [|y l] using rev_ind; [done|].
  rewrite removelast_last. replace (length (l ++ [y]) - 1)%nat with (length l) by len.
  rewrite delete_middle. by rewrite app_nil_r.
Qed.

Lemma last_removelast (d : ListType) x : last d = Some x -> d = removelast d ++ [x].
Proof.
  intros H. apply last_Some in H as [l ->]. by rewrite removelast_last.
Qed.

(** The faults: index 0 of an empty list is read or written, or the absolute
    value of [INT_MIN] is taken. *)
Definition faulty (o : op) (d : ListType) : Prop :=
  match o with
  | OpSet key _ _ | OpGet key => (d = [] /\ key = Int 0) \/ key = Int INT_MIN
  | OpInsert key _ _ | OpDelete key _ _ => key = Int INT_MIN
  | _ => False
  end.

(** One command on a small list: the new list is the specified one, published as
    an event that a replica turns into the same list; or the command throws
    and changes nothing; or it is one of the faults. *)
Inductive outcome (o : op) (s : t) : res unit -> t -> Prop :=
| Changed d e :
    spec o (data_ s) = Some d -> list_step (data_ s) e = d -> outcome o s (Ok tt) (after d e s)
| Unchanged : spec o (data_ s) = Some (data_ s) -> outcome o s (Ok tt) s
| Rejected e : spec o (data_ s) = None -> (forall f, e <> Fault f) -> outcome o s (Throw e) s
| Faulted f s' : faulty o (data_ s) -> outcome o s (Throw (Fault f)) s'.

(** ** Queries *)

Lemma limit_ok d z :
  Z.of_nat (length d) < 2 ^ 31 -> 0 <= z <= Z.of_nat (length d) ->
  limit d z (Z.of_nat (length d)) = Ok (Z.to_nat z).
Proof.
  intros Hd Hz. unfold limit. destruct (z =? 0) eqn:E0; bool_to_prop; [by subst|].
  destruct (z =? _) eqn:E1; bool_to_prop; [f_equal; lia|].
  pose proof (GetOffset_cases d (Int z) Hd) as H. unfold position, python_index in H. revert H. ztest.
  simpl. intros ->. done.
Qed.

Lemma result_items_lookup l : forall key i,
  0 <= key -> key + Z.of_nat (length l) < 2 ^ 31 ->
  result_items key l !! i = (fun x => (Int (key + Z.of_nat i), value x, metadata x)) <$> l !! i.
Proof.
  induction l as [|x l IH]; intros key i Hk Hl; simpl; [done|]. simpl length in Hl.
  destruct i as [|i]; simpl; [by rewrite Z.add_0_r|].
  rewrite i32_small by (unfold is_int, INT_MIN, INT_MAX; lia). rewrite IH by lia.
  destruct (l !! i); simpl; [|done]. do 4 f_equal. lia.
Qed.

Lemma result_items_length l : forall key, length (result_items key l) = length l.
Proof. induction l as [|x l IH]; intros key; simpl; auto. Qed.

(** The records from one position to another with their numbers as keys. *)
Definition slice (d : ListType) (lo hi : Z) : list item :=
  result_items lo (take (Z.to_nat hi - Z.to_nat lo) (drop (Z.to_nat lo) d)).

Lemma query_ok a b s :
  small s -> index_ok a -> index_ok b ->
  let n := Z.of_nat (length (data_ s)) in
  Query a b None_ s = (Ok (new_result_set (slice (data_ s) (query_start a b n) (query_end b n)) TIONULL), s).
Proof.
  intros Hs Ha Hb n. unfold Query. cbn [IsNull GetDataType negb Z.eqb]. rewrite bind_get. cbn zeta.
  unfold small in Hs. destruct (query_bounds a b n ltac:(lia)) as [Hq1 Hq2].
  destruct (bool_decide (length (data_ s) = 0%nat)) eqn:E; [apply bool_decide_eq_true in E|].
  - rewrite (bind_lift_ok _ _ _ (0, 0%nat, 0%nat) eq_refl). destruct (data_ s); [|done].
    unfold slice. by rewrite !drop_nil, !take_nil.
  - rewrite int_size_small by done. fold n. rewrite (NormalizeQueryLimits_spec a b n Ha Hb ltac:(lia)). mrun.
    rewrite !limit_ok by lia. mrun. done.
Qed.

(** ** Commands *)

Lemma reject_ok {A} o (m : res A) (f : A -> M t unit) s e :
  m = Throw e -> spec o (data_ s) = None -> (forall x, e <> Fault x) ->
  outcome o s ((lift m ≫= f) s).1 ((lift m ≫= f) s).2.
Proof. intros H Hs He. rewrite (bind_lift_throw _ _ _ _ H). by apply Rejected. Qed.

Lemma push_back_outcome k v m s :
  outcome (OpPushBack k v m) s (PushBack k v m s).1 (PushBack k v m s).2.
Proof.
  unfold PushBack, CheckValue, require. destruct (operator_bool v) eqn:Ev.
  - rewrite (bind_lift_ok _ _ _ tt eq_refl), bind_get. cbn zeta. rewrite publish_ok.
    apply Changed; simpl; [by rewrite Ev|done].
  - apply (reject_ok (OpPushBack k v m) _ _ _ _ eq_refl); [simpl; by rewrite Ev|by intros x].
Qed.

Lemma push_front_outcome k v m s :
  outcome (OpPushFront k v m) s (PushFront k v m s).1 (PushFront k v m s).2.
Proof.
  unfold PushFront, CheckValue, require. destruct (operator_bool v) eqn:Ev.
  - rewrite (bind_lift_ok _ _ _ tt eq_refl), bind_get. rewrite publish_ok.
    apply Changed; simpl; [by rewrite Ev|done].
  - apply (reject_ok (OpPushFront k v m) _ _ _ _ eq_refl); [simpl; by rewrite Ev|by intros x].
Qed.

(** [publish_ok] in front of a value. *)
Lemma publish_then {A} c k v m d (x : M t A) s :
  (_ ← modify (set_data d); _ ← UpdateRevNumAndPublish c k v m; x) s
  = x (after d {| e_code := c; e_key := k; e_value := v; e_metadata := m |} s).
Proof.
  rewrite bind_modify. pose proof (publish_ok c k v m d s) as H. rewrite bind_modify in H.
  by rewrite (bind_ok _ _ _ _ _ H).
Qed.

Lemma pop_back_outcome k v m s :
  small s -> outcome (OpPopBack k v m) s (run_op (OpPopBack k v m) s).1 (run_op (OpPopBack k v m) s).2.
Proof.
  intros Hs. unfold small in Hs. cbn [run_op Containers.PopBack list_storage].
  destruct (last (data_ s)) as [x|] eqn:E.
  - pose proof (last_removelast _ _ E) as Hd.
    assert (Hne : data_ s <> []) by (intros H; by rewrite H in E).
    assert (Hl : length (removelast (data_ s)) = (length (data_ s) - 1)%nat) by (rewrite Hd at 2; len).
    assert (Hpop : PopBack (Some k) (Some v) (Some m) s =
      (Ok (Some (Int (Z.of_nat (length (removelast (data_ s))))), Some (value x), Some (metadata x)),
       after (removelast (data_ s)) {| e_code := EVENT_CODE_DELETE;
         e_key := Int (Z.of_nat (length (removelast (data_ s)))); e_value := v; e_metadata := m |} s)).
    { unfold PopBack. rewrite bind_get, E. cbn zeta. rewrite int_size_small by lia. by rewrite publish_then. }
    mstep Hpop. cbn [fst snd mret M_ret]. apply Changed; [cbn [spec]; by destruct (data_ s)|].
    unfold list_step. cbn [e_code e_key]. rewrite Hl.
    rewrite position_int by (destruct (data_ s); simpl length; [done|lia]).
    by rewrite removelast_delete.
  - apply last_None in E. unfold PopBack, mbind, M_bind, get. rewrite E. simpl.
    apply Rejected; [simpl; by rewrite E|by intros f].
Qed.

Lemma pop_front_outcome k v m s :
  outcome (OpPopFront k v m) s (run_op (OpPopFront k v m) s).1 (run_op (OpPopFront k v m) s).2.
Proof.
  cbn [run_op Containers.PopFront list_storage]. unfold PopFront. destruct (data_ s) as [|x d] eqn:E.
  - unfold mbind, M_bind, get. rewrite E. simpl. apply Rejected; [simpl; by rewrite E|by intros f].
  - assert (Hpop : PopFront (Some k) (Some v) (Some m) s =
      (Ok (Some (Int 0), Some (value x), Some (metadata x)),
       after d {| e_code := EVENT_CODE_DELETE; e_key := Int 0; e_value := v; e_metadata := m |} s)).
    { unfold PopFront. rewrite bind_get, E. by rewrite publish_then. }
    unfold PopFront in Hpop. mstep Hpop. cbn [fst snd mret M_ret].
    apply Changed; [cbn [spec]; by rewrite E|]. rewrite E.
    unfold list_step. cbn [e_code e_key]. change (Int 0) with (Int (Z.of_nat 0)).
    by rewrite position_int by (simpl; lia).
Qed.

(** A command that starts with [GetOffset]: only a position goes on. *)
Lemma offset_outcome o key s (f : nat * Z -> M t unit) :
  small s ->
  (forall i, position (data_ s) key = Some i -> outcome o s (f (i, Z.of_nat i) s).1 (f (i, Z.of_nat i) s).2) ->
  (data_ s = [] -> key = Int 0 -> outcome o s (f (0%nat, 0) s).1 (f (0%nat, 0) s).2) ->
  (position (data_ s) key = None -> spec o (data_ s) = None) -> (key = Int INT_MIN -> faulty o (data_ s)) ->
  outcome o s ((lift (GetOffset (data_ s) key) ≫= f) s).1 ((lift (GetOffset (data_ s) key) ≫= f) s).2.
Proof.
  intros Hs H1 H2 H3 H4. pose proof (GetOffset_cases (data_ s) key Hs) as Hc.
  destruct (position (data_ s) key) as [i|] eqn:Ep.
  - rewrite (bind_lift_ok _ _ _ _ Hc). auto.
  - destruct Hc as [(Hd & Hk & E) | (e & E & He)].
    + rewrite (bind_lift_ok _ _ _ _ E). auto.
    + rewrite (bind_lift_throw _ _ _ _ E). destruct e as [| | | | |f0];
        try (apply Rejected; [by apply H3|by intros x]).
      apply Faulted. destruct He as [He|He]; [by destruct (He f0)|auto].
Qed.

Lemma set_outcome key v m s :
  small s -> outcome (OpSet key v m) s (Set_ key v m s).1 (Set_ key v m s).2.
Proof.
  intros Hs. unfold Set_. rewrite bind_get. apply offset_outcome; [done| | | |].
  - intros i Hi. pose proof (position_bound _ _ _ Hi) as Hb.
    destruct (lookup_lt_is_Some_2 (data_ s) i Hb) as [x Hx].
    assert (Ed : deref (data_ s) i = Ok x) by (unfold deref; by rewrite Hx). cbn iota beta. mstep Ed. cbn zeta.
    assert (E : (_ ← UpdateRevNumAndPublish EVENT_CODE_SET key v m; modify (set_data (<[i := merge v m x]> (data_ s)))) s
      = (Ok tt, after (<[i := merge v m x]> (data_ s))
          {| e_code := EVENT_CODE_SET; e_key := key; e_value := v; e_metadata := m |} s)).
    { unfold UpdateRevNumAndPublish, after, mbind, M_bind, get, modify, call_sink. simpl. by destruct (sink_ s). }
    unfold merge in E. rewrite E. cbn [fst snd]. apply Changed; [cbn [spec]; by rewrite Hi; simpl; rewrite Hx|].
    unfold list_step. cbn [e_code e_key e_value e_metadata]. rewrite Hi. simpl. by rewrite Hx.
  - intros Hd ->. cbn iota beta. rewrite (bind_lift_throw (deref (data_ s) 0) _ _ (Fault EndDeref)) by by rewrite Hd.
    apply Faulted. by left.
  - intros Hp. cbn [spec]. by rewrite Hp.
  - intros ->. by right.
Qed.

Lemma delete_outcome key v m s :
  small s -> outcome (OpDelete key v m) s (Delete key v m s).1 (Delete key v m s).2.
Proof.
  intros Hs. unfold Delete. rewrite bind_get. apply offset_outcome; [done| | | |].
  - intros i Hi. pose proof (position_bound _ _ _ Hi) as Hb. cbn iota beta.
    rewrite bool_decide_false by lia. unfold small in Hs. rewrite i32_small by (unfold is_int, INT_MIN, INT_MAX; lia).
    rewrite publish_ok. apply Changed; [cbn [spec]; by rewrite Hi|].
    unfold list_step. cbn [e_code e_key]. by rewrite position_int.
  - intros Hd ->. cbn iota beta. rewrite (bool_decide_true (0%nat = length (data_ s))) by by rewrite Hd.
    unfold throw. cbn [fst snd]. apply Rejected; [|by intros x]. cbn [spec]. by rewrite Hd.
  - intros Hp. cbn [spec]. by rewrite Hp.
  - done.
Qed.

Lemma insert_outcome key v m s :
  small s -> key_ok key -> outcome (OpInsert key v m) s (Insert key v m s).1 (Insert key v m s).2.
Proof.
  intros Hs Hint. destruct key as [|k| |]; try (by apply Rejected; [|intros x]).
  unfold small in Hs. unfold key_ok, is_int, INT_MIN, INT_MAX in Hint.
  unfold Insert. cbn [AsInt]. rewrite (bind_lift_ok _ _ _ k eq_refl). cbn zeta. rewrite bind_get.
  assert (Hfin : forall i, insert_position (data_ s) (Int k) = Some i ->
    outcome (OpInsert (Int k) v m) s
      ((_ ← modify (set_data (insert_at i (record v m) (data_ s)));
        UpdateRevNumAndPublish EVENT_CODE_INSERT (Int k) v m) s).1
      ((_ ← modify (set_data (insert_at i (record v m) (data_ s)));
        UpdateRevNumAndPublish EVENT_CODE_INSERT (Int k) v m) s).2).
  { intros i Hi. rewrite publish_ok. apply Changed; [cbn [spec]; by rewrite Hi|].
    unfold list_step. cbn [e_code e_key e_value e_metadata]. by rewrite Hi. }
  unfold insert_position in Hfin. destruct (u64 k =? 0) eqn:E0; bool_to_prop.
  { assert (k = 0) as -> by (revert E0; unfold u64; destruct (Z.lt_ge_cases k 0);
      [rewrite <- (Z.mod_add _ 1), Z.mod_small by lia; lia|rewrite Z.mod_small by lia; lia]).
    rewrite (bind_lift_ok _ _ _ (record v m :: data_ s) eq_refl). apply (Hfin 0%nat eq_refl). }
  assert (k <> 0) by (intros ->; by apply E0). revert Hfin. ztest. intros Hfin.
  destruct (u64 k =? Z.of_nat (length (data_ s))) eqn:E1; bool_to_prop.
  { assert (k = Z.of_nat (length (data_ s))) as -> by (revert E1; unfold u64; destruct (Z.lt_ge_cases k 0);
      [rewrite <- (Z.mod_add _ 1), Z.mod_small by lia; lia|rewrite Z.mod_small by lia; lia]).
    rewrite (bind_lift_ok _ _ _ (data_ s ++ [record v m]) eq_refl).
    specialize (Hfin (length (data_ s))). rewrite Z.eqb_refl in Hfin.
    unfold insert_at in Hfin. rewrite firstn_all, drop_all in Hfin. by apply Hfin. }
  assert (k <> Z.of_nat (length (data_ s))) by (intros ->; apply E1; unfold u64; apply Z.mod_small; lia).
  revert Hfin. ztest. intros Hfin.
  pose proof (GetOffset_cases (data_ s) (Int k) Hs) as Hc.
  destruct (position (data_ s) (Int k)) as [i|] eqn:Ep.
  - rewrite Hc. mrun. cbn iota beta.
    rewrite (bind_lift_ok _ _ _ (insert_at i (record v m) (data_ s)) eq_refl). by apply Hfin.
  - destruct Hc as [(_ & [= ->] & _) | (e & E & He)]; [done|]. rewrite E. mrun.
    rewrite (bind_lift_throw _ _ _ e eq_refl). cbn [fst snd].
    assert (Hsp : spec (OpInsert (Int k) v m) (data_ s) = None).
    { cbn [spec]. unfold insert_position. rewrite Ep. by ztest. }
    destruct e as [| | | | |f0]; try (apply Rejected; [done|by intros x]).
    apply Faulted. destruct He as [He|He]; [by destruct (He f0)|done].
Qed.

Lemma get_outcome key s :
  small s -> outcome (OpGet key) s (run_op (OpGet key) s).1 (run_op (OpGet key) s).2.
Proof.
  intros Hs. assert (E : run_op (OpGet key) s =
    (lift (GetOffset (data_ s) key) ≫= fun x => _ ← lift (deref (data_ s) x.1); mret tt) s).
  { cbn [run_op Containers.GetRecord list_storage]. unfold GetRecord, mbind, M_bind, get, lift.
    destruct (GetOffset (data_ s) key) as [ [i n]|e]; [|done]. simpl. by destruct (deref (data_ s) i). }
  rewrite E. apply offset_outcome; [done| | | |].
  - intros i Hi. destruct (lookup_lt_is_Some_2 _ _ (position_bound _ _ _ Hi)) as [x Hx].
    assert (Ed : deref (data_ s) i = Ok x) by (unfold deref; by rewrite Hx). cbn [fst]. mstep Ed.
    cbn [fst snd mret M_ret]. apply Unchanged. cbn [spec]. by rewrite Hi.
  - intros Hd ->. cbn [fst]. rewrite (bind_lift_throw (deref (data_ s) 0) _ _ (Fault EndDeref)) by by rewrite Hd.
    apply Faulted. by left.
  - intros Hp. cbn [spec]. by rewrite Hp.
  - intros ->. by right.
Qed.

Lemma query_outcome a b s :
  small s -> op_ok (OpQuery a b) -> outcome (OpQuery a b) s (run_op (OpQuery a b) s).1 (run_op (OpQuery a b) s).2.
Proof.
  intros Hs [Ha Hb]. cbn [run_op Containers.Query list_storage].
  mstep (query_ok a b s Hs Ha Hb). by apply Unchanged.
Qed.

Lemma run_op_outcome o (s : t) : small s -> op_ok o -> outcome o s (run_op o s).1 (run_op o s).2.
Proof.
  intros Hs Ho. destruct o.
  - apply push_back_outcome.
  - apply push_front_outcome.
  - by apply pop_back_outcome.
  - apply pop_front_outcome.
  - by apply set_outcome.
  - by apply insert_outcome.
  - by apply delete_outcome.
  - cbn [run_op Containers.Clear list_storage]. unfold Clear. rewrite publish_ok. by apply Changed.
  - by apply get_outcome.
  - by apply query_outcome.
Qed.

(** A command adds at most one record. *)
Lemma spec_length o d d' : spec o d = Some d' -> (length d' <= S (length d))%nat.
Proof.
  destruct o as [k v m|k v m|k v m|k v m|key v m|key v m|key v m| |key|a b]; cbn [spec].
  - destruct (operator_bool v); [|done]. intros [= <-]. len.
  - destruct (operator_bool v); [|done]. intros [= <-]. len.
  - intros H. assert (Hd : d' = removelast d) by (destruct d; congruence).
    rewrite Hd, removelast_firstn_len, length_take. lia.
  - destruct d as [|x l]; [done|]. intros [= <-]. len.
  - intros (i & _ & (x & _ & [= <-])%bind_Some)%bind_Some. len.
  - intros (i & _ & [= <-])%bind_Some. unfold insert_at. len.
  - intros (i & Hi & [= <-])%bind_Some.
    rewrite length_delete by (apply lookup_lt_is_Some_2; by eapply position_bound). lia.
  - intros [= <-]. simpl. lia.
  - intros (i & _ & [= <-])%bind_Some. lia.
  - intros [= <-]. lia.
Qed.

Lemma stays_small_intro os : forall s : t,
  Forall op_ok os -> Z.of_nat (length (data_ s) + length os) < 2 ^ 31 -> stays_small small os s.
Proof.
  induction os as [|o os IH]; intros s Hok Hl n s1 Hrun; unfold small.
  - rewrite take_nil in Hrun. injection Hrun as <-. lia.
  - apply Forall_cons in Hok as [Ho Hok]. simpl in Hl. destruct n as [|n]; [injection Hrun as <-; lia|].
    simpl in Hrun. pose proof (run_op_outcome o s ltac:(unfold small; lia) Ho) as H.
    destruct (run_op o s) as [r s2]. simpl in H.
    assert (Hs2 : (exists f, r = Throw (Fault f)) \/ (length (data_ s2) <= S (length (data_ s)))%nat).
    { inversion H as [d e Hd _ Hr Hs|Hd Hr Hs|e _ _ Hr Hs|f s' _ Hr Hs]; subst;
        [right; rewrite data_after; by eapply spec_length|right; lia|right; lia|].
      left. by eexists. }
    destruct Hs2 as [ [f ->]|Hs2]; [done|].
    assert (Hrun' : run_ops (take n os) s2 = Some s1) by (destruct r as [|[] ]; try done).
    apply (IH s2 Hok ltac:(lia) n s1 Hrun').
Qed.

Definition subscribed (s : t) : Prop := sink_ s = true.

(** What the list storage promises its subscribers. *)
#[export] Instance list_replicates : Replicates t ListType subscribed small data_ published list_step.
Proof.
  split. intros o s r s' Hsub Hs Ho E. pose proof (run_op_outcome o s Hs Ho) as H. rewrite E in H. simpl in H.
  destruct H as [d e Hd He|Hd|e Hd He|f s' Hf].
  - unfold after, subscribed in *. simpl. rewrite Hsub. split; [done|]. exists [e]. by simpl.
  - split; [done|]. exists []. by rewrite app_nil_r.
  - destruct e; try done.
  - done.
Qed.

(** Commands keep the name, the type, the subscriber and the lock. *)
Lemma list_framed o : framed (D := ListType) (run_op (S := t) o).
Proof.
  destruct o; cbn [run_op list_storage Containers.PushBack Containers.PushFront Containers.PopBack Containers.PopFront
    Containers.Set_ Containers.Insert Containers.Delete Containers.Clear Containers.GetRecord Containers.Query];
    unfold UpdateRevNumAndPublish, PushBack, PushFront, PopBack, PopFront, Set_, Insert, Delete, Clear, GetRecord, Query; solve_framed.
Qed.

(** ** Properties *)

(** C22. The list container is a Python-like list.  Every command with [int]
    arguments on a list of fewer than 2^31 records either gives exactly the
    list the specification gives (negative indexes from the end, insertion at
    the front and at the end always possible, a null value or metadata leaving
    the old one in a [set]), or throws and leaves the storage as it was; the
    only faults are index 0 of an empty list and the index [INT_MIN]. *)
Theorem list_refines_spec o (s : t) :
  small s -> op_ok o -> ~ faulty o (data_ s) ->
  match spec o (data_ s) with
  | Some d => (run_op o s).1 = Ok tt /\ data_ (run_op o s).2 = d
  | None => (exists e, (run_op o s).1 = Throw e /\ forall f, e <> Fault f) /\ (run_op o s).2 = s
  end.
Proof.
  intros Hs Ho Hf. destruct (run_op_outcome o s Hs Ho) as [d e Hd He|Hd|e Hd He|f s' Hff].
  - rewrite Hd. split; [done|]. apply data_after.
  - by rewrite Hd.
  - rewrite Hd. split; [by exists e|done].
  - done.
Qed.

(** C24. Subscribers can rebuild the list.  A replica that starts as a copy and
    applies the published events, whatever commands are run and however many
    of them fail, is equal to the list at the end. *)
Theorem list_replica os (s s' : t) :
  subscribed s -> Z.of_nat (length (data_ s) + length os) < 2 ^ 31 -> Forall op_ok os ->
  run_ops os s = Some s' ->
  exists evs, published s' = published s ++ evs /\ data_ s' = fold_left list_step evs (data_ s).
Proof.
  intros H1 H2 H3 H4.
  by destruct (replica_follows os s s' H1 (stays_small_intro os s H3 H2) H3 H4).
Qed.

(** A query returns the records between its limits, each with its number:
    limits are clamped to the list, negative ones count from the end, an end
    of 0 means all the rest, and a start past the end gives nothing.  The
    storage is not changed. *)
Theorem list_query a b s :
  small s -> index_ok a -> index_ok b ->
  let n := Z.of_nat (length (data_ s)) in
  let lo := query_start a b n in let hi := query_end b n in
  0 <= lo <= hi /\ hi <= n /\
  exists rs, Query a b None_ s = (Ok rs, s) /\ length (items_ rs) = Z.to_nat (hi - lo) /\
    forall i, (i < Z.to_nat (hi - lo))%nat -> exists x,
      data_ s !! (Z.to_nat lo + i)%nat = Some x /\
      items_ rs !! i = Some (Int (lo + Z.of_nat i), value x, metadata x).
Proof.
  intros Hs Ha Hb n lo hi. destruct (query_bounds a b n ltac:(lia)) as [Hq1 Hq2].
  split; [done|]. split; [done|]. rewrite (query_ok a b s Hs Ha Hb). eexists. split; [reflexivity|]. simpl.
  unfold slice. fold n lo hi. fold lo hi in Hq1, Hq2. unfold small in Hs. fold n in Hs.
  assert (Hl : length (take (Z.to_nat hi - Z.to_nat lo) (drop (Z.to_nat lo) (data_ s))) = Z.to_nat (hi - lo))
    by (rewrite length_take, length_drop; unfold n in *; lia).
  split; [by rewrite result_items_length|]. intros i Hi.
  destruct (lookup_lt_is_Some_2 (data_ s) (Z.to_nat lo + i)%nat) as [x Hx]; [unfold n in *; lia|].
  exists x. split; [done|]. rewrite result_items_lookup by lia.
  rewrite lookup_take_lt, lookup_drop, Hx by lia. done.
Qed.

(** Index 0 of an empty list is not checked.  [set] and [get] with key 0 on
    an empty list pass the index check and use the past-the-end iterator. *)
Theorem empty_list_index_zero v m s :
  data_ s = [] ->
  (Set_ (Int 0) v m s).1 = Throw (Fault EndDeref) /\
  (GetRecord (Int 0) (Some None_) (Some None_) (Some None_) s).1 = Throw (Fault EndDeref) /\
  (exists e, (Delete (Int 0) v m s).1 = Throw e /\ e = runtime_error "invalid index").
Proof.
  intros Hd. pose proof (GetOffset_cases (data_ s) (Int 0)) as Hc. rewrite Hd in Hc.
  destruct Hc as [(_ & _ & E) | (e & E & _)]; [done| |by simpl in E].
  unfold Set_, GetRecord, Delete. rewrite !bind_get, Hd, !(bind_lift_ok _ _ _ _ E). cbn iota beta.
  rewrite bool_decide_true by done. split; [done|]. split; [done|]. by eexists.
Qed.

(** ** Witnesses *)

Definition ex_record (z : Z) : ValueAndMetadata := {| value := Int z; metadata := None_ |}.

Definition ex_list : t := mk_storage (ex_record <$> [10; 20; 30; 40]) (lit "l") (lit "volatile_list") true 7 false [].

Lemma list_refines_spec_witness :
  (run_op (OpInsert (Int (-1)) (Int 35) None_) ex_list).1 = Ok tt /\
  data_ (run_op (OpInsert (Int (-1)) (Int 35) None_) ex_list).2 = ex_record <$> [10; 20; 30; 35; 40].
Proof.
  apply (list_refines_spec (OpInsert (Int (-1)) (Int 35) None_) ex_list).
  - reflexivity.
  - unfold op_ok, key_ok, is_int, INT_MIN, INT_MAX. lia.
  - intros H. discriminate H.
Defined.

Definition ex_ops : list op :=
  [ OpPushBack None_ (Int 50) None_; OpDelete (Int 9) None_ None_; OpSet (Int (-2)) (Int 41) None_;
    OpPopFront None_ None_ None_; OpInsert (Int 1) (Int 25) None_; OpPopBack None_ None_ None_ ].

Lemma list_replica_witness :
  exists s' evs, run_ops ex_ops ex_list = Some s' /\ published s' = [] ++ evs /\
    data_ s' = fold_left list_step evs (data_ ex_list).
Proof.
  destruct (run_ops ex_ops ex_list) as [s'|] eqn:E; [|vm_compute in E; discriminate E].
  destruct (list_replica ex_ops ex_list s') as (evs & Hp & Hd).
  - reflexivity.
  - vm_compute. reflexivity.
  - repeat constructor; unfold op_ok, key_ok, is_int, INT_MIN, INT_MAX; lia.
  - exact E.
  - exists s', evs. split; [reflexivity|]. split; [exact Hp|exact Hd].
Defined.

Lemma list_query_witness :
  exists rs, Query (-3) 0 None_ ex_list = (Ok rs, ex_list) /\ length (items_ rs) = 3%nat.
Proof.
  destruct (list_query (-3) 0 ex_list) as (_ & _ & rs & E & Hl & _).
  - reflexivity.
  - discriminate.
  - discriminate.
  - exists rs. split; [exact E|exact Hl].
Defined.

Lemma empty_list_index_zero_witness :
  (Set_ (Int 0) (Int 1) None_ (make (lit "l") (lit "volatile_list"))).1 = Throw (Fault EndDeref).
Proof. apply (empty_list_index_zero (Int 1) None_ (make (lit "l") (lit "volatile_list"))). reflexivity. Defined.

End ListStorage.
