(* ===== verification/MapStorage.v ===== *)
(** * Maps: [server/tio/MapStorage.h]

    A [std::map<string, ValueAndMetadata>]: the elements in the order of their
    keys, as an association list that every operation keeps sorted.  The keys
    are C strings ([AsSz]), so a key ends at its first NUL.  The mutex is a
    [std::mutex], held in a scope of its own before the event is published. *)
From S2P Require Import Prelude StdMap TioDataS Containers.

Module MapStorage.
Import StdMap TioData Containers.

Notation DataMap := (list (bytes * ValueAndMetadata)).

(** ** The storage *)

Definition t := storage DataMap.

Definition make (name type : bytes) : t := mk_storage [] name type false 0 false [].

Definition int_size (d : DataMap) : Z := i32 (Z.of_nat (length d)).

(** The revision is counted under the lock, the sink called after it. *)
Definition UpdateRevNumAndPublish (c : ContainerEventCode) (k v m : TioData) : M t unit :=
  sink ← with_lock (s ← get; _ ← modify (set_revNum (u64 (revNum_ s + 1))); mret (sink_ s));
  if (sink : bool) then call_sink c k v m else mret tt.

Definition key_not_found : exn := invalid_argument "key not found".

(** A copy of the element a key names; a number names a position. *)
Definition GetInternalRecord (d : DataMap) (key : TioData) : res (bytes * ValueAndMetadata) :=
  match key with
  | Int k =>
      offset ← NormalizeIndex k (int_size d) true;
      match d !! Z.to_nat offset with Some p => Ok p | None => Throw (Fault EndDeref) end
  | _ =>
      k ← AsSz key;
      match find k d with Some v => Ok (k, v) | None => Throw key_not_found end
  end.

Definition GetRevNum : M t Z := with_lock (s ← get; mret (revNum_ s)).
Definition GetName (s : t) : bytes := name_ s.
Definition GetType (s : t) : bytes := type_ s.
(** In the source the words of these messages are in double quotes. *)
Definition Command (command : bytes) : M t bytes := throw (invalid_argument "'command' not supported").
Definition GetRecordCount : M t Z := with_lock (s ← get; mret (Z.of_nat (length (data_ s)))).
Definition PushBack (key v m : TioData) : M t unit :=
  throw (invalid_argument "'push_back' not supported by this container").
Definition PushFront (key v m : TioData) : M t unit :=
  throw (invalid_argument "'push_front' not supported by this container").
Definition PopBack (key v m : out) : M t outs :=
  throw (invalid_argument "'pop_back' not supported by this container").
Definition PopFront (key v m : out) : M t outs :=
  throw (invalid_argument "'pop_front' not supported by this container").

(** The special properties of a map. *)
Definition SetSpecial (key v : bytes) : M t unit := throw (runtime_error "can't change special property").

Fixpoint keys_text (l : DataMap) : bytes :=
  match l with [] => [] | (k, _) :: l => k ++ [x0d; x0a] ++ keys_text l end.

(** All keys, a line each, without the end of the last line. *)
Definition GetSpecial (key : bytes) : M t bytes :=
  if negb (bool_decide (key = lit "__keys__")) then throw key_not_found
  else with_lock (s ← get;
    match data_ s with
    | [] => mret []
    | _ => let str := keys_text (data_ s) in mret (take (length str - 2) str)
    end).

Definition require_key (key : TioData) : res unit :=
  require (operator_bool key) (invalid_argument "invalid key").

Definition Set_ (key v m : TioData) : M t unit :=
  _ ← lift (require_key key);
  _ ← with_lock (
    s ← get;
    k ← lift (AsSz key);
    modify (set_data (assign_at k {| value := v; metadata := m |} (data_ s))));
  UpdateRevNumAndPublish EVENT_CODE_SET key v m.

(** An insertion is published as a [set]. *)
Definition Insert (key v m : TioData) : M t unit :=
  _ ← lift (require_key key);
  k ← lift (AsSz key);
  _ ← with_lock (
    s ← get;
    match find k (data_ s) with
    | Some _ => throw (invalid_argument "already exits")
    | None => modify (set_data (assign_at k {| value := v; metadata := m |} (data_ s)))
    end);
  UpdateRevNumAndPublish EVENT_CODE_SET key v m.

Definition Delete (key v m : TioData) : M t unit :=
  _ ← lift (require_key key);
  k ← lift (AsSz key);
  _ ← with_lock (
    s ← get;
    match find k (data_ s) with
    | None => throw key_not_found
    | Some _ => modify (set_data (erase k (data_ s)))
    end);
  UpdateRevNumAndPublish EVENT_CODE_DELETE key v m.

Definition Clear : M t unit :=
  _ ← with_lock (modify (set_data []));
  UpdateRevNumAndPublish EVENT_CODE_CLEAR TIONULL TIONULL TIONULL.

(** The positions a query goes from and to. *)
Definition query_range (startOffset endOffset : Z) (d : DataMap) : res (Z * Z) :=
  if (startOffset =? 0) && (endOffset =? 0) then Ok (0, Z.of_nat (length d))
  else if endOffset =? 0 then
    start ← NormalizeForQueries startOffset (int_size d); Ok (start, Z.of_nat (length d))
  else NormalizeQueryLimits startOffset endOffset (int_size d).

Definition result_item (p : bytes * ValueAndMetadata) : item := (String p.1, value p.2, metadata p.2).

Definition Query (startOffset endOffset : Z) (query : TioData) : M t VectorResultSet :=
  if negb (IsNull query) then throw (runtime_error "this container supports only querystr=null")
  else with_lock (
    s ← get;
    '(start, end_) ← lift (query_range startOffset endOffset (data_ s));
    mret (new_result_set
      (result_item <$> take (Z.to_nat end_ - Z.to_nat start) (drop (Z.to_nat start) (data_ s))) TIONULL)).

Definition GetRecord (searchKey : TioData) (key v m : out) : M t outs :=
  p ← with_lock (s ← get; lift (GetInternalRecord (data_ s) searchKey));
  mret (assign key (String p.1), assign v (value p.2), assign m (metadata p.2)).

(** The argument is whether the function passed is not empty. *)
Definition SetSubscriber (sink : bool) : M t unit := with_lock (modify (set_sink sink)).
Definition RemoveSubscriber : M t unit := with_lock (modify (set_sink false)).

#[export] Instance map_storage : ITioStorage t := {
  Containers.GetRecordCount := GetRecordCount;
  Containers.PushBack := PushBack;
  Containers.PushFront := PushFront;
  Containers.PopBack := PopBack;
  Containers.PopFront := PopFront;
  Containers.GetRecord := GetRecord;
  Containers.Set_ := Set_;
  Containers.Insert := Insert;
  Containers.Delete := Delete;
  Containers.Clear := Clear;
  Containers.Query := Query;
  Containers.GetRevNum := GetRevNum;
  Containers.Command := Command;
  Containers.SetSubscriber := SetSubscriber;
  Containers.RemoveSubscriber := RemoveSubscriber
}.

#[export] Instance map_special_properties : ITioPropertyMap t := {
  GetProp := GetSpecial;
  SetProp := SetSpecial
}.

(** ** Specification: a finite map *)

Definition record (v m : TioData) : ValueAndMetadata := {| value := v; metadata := m |}.

(** A key of the map: a non-null string up to its first NUL. *)
Definition map_key (k : TioData) : option bytes := match k with String s => Some (c_str s) | _ => None end.

Definition spec (o : op) (m : gmap bytes ValueAndMetadata) : option (gmap bytes ValueAndMetadata) :=
  match o with
  | OpSet k v md => k ← map_key k; Some (<[k := record v md]> m)
  | OpInsert k v md => k ← map_key k; match m !! k with Some _ => None | None => Some (<[k := record v md]> m) end
  | OpDelete k _ _ => k ← map_key k; match m !! k with Some _ => Some (delete k m) | None => None end
  | OpClear => Some ∅
  | OpGet k =>
      match k with
      | Int i => _ ← python_index i (Z.of_nat (size m)); Some m
      | _ => k ← map_key k; _ ← m !! k; Some m
      end
  | OpQuery _ _ => Some m
  | OpPushBack _ _ _ | OpPushFront _ _ _ | OpPopBack _ _ _ | OpPopFront _ _ _ => None
  end.

(** What an event tells a replica to do. *)
Definition map_step (m : gmap bytes ValueAndMetadata) (e : event) : gmap bytes ValueAndMetadata :=
  match e_code e, map_key (e_key e) with
  | EVENT_CODE_SET, Some k => <[k := record (e_value e) (e_metadata e)]> m
  | EVENT_CODE_DELETE, Some k => delete k m
  | EVENT_CODE_CLEAR, _ => ∅
  | _, _ => m
  end.

Definition wf (s : t) : Prop := sorted (data_ s) /\ locked s = false.
Definition small (s : t) : Prop := Z.of_nat (length (data_ s)) < 2 ^ 31.

(** The faults: position 0 of an empty map and the position [INT_MIN]. *)
Definition faulty (o : op) (s : t) : Prop :=
  match o with
  | OpGet k => (data_ s = [] /\ k = Int 0) \/ k = Int INT_MIN
  | _ => False
  end.

(** A storage after a change that was published. *)
Definition after (d : DataMap) (e : event) (s : t) : t :=
  let s := set_data d (set_revNum (u64 (revNum_ s + 1)) s) in
  if sink_ s then add_published e s else s.

Lemma map_publish_ok c k v m d (s : t) :
  locked s = false ->
  UpdateRevNumAndPublish c k v m (set_data d s)
  = (Ok tt, after d {| e_code := c; e_key := k; e_value := v; e_metadata := m |} s).
Proof.
  intros Hl. unfold UpdateRevNumAndPublish, with_lock, after, mbind, M_bind, get, modify, call_sink. simpl.
  rewrite Hl. simpl. destruct s; simpl in *; subst. by destruct sink_0.
Qed.

Lemma map_data_after d e s : data_ (after d e s) = d.
Proof. unfold after. by destruct (sink_ _). Qed.

Lemma wf_after d e s : wf s -> sorted d -> wf (after d e s).
Proof. intros [_ Hl] Hd. unfold after. simpl. by destruct (sink_ s). Qed.

Inductive outcome (o : op) (s : t) : res unit -> t -> Prop :=
| Changed d e :
    spec o (to_map (data_ s)) = Some (to_map d) -> sorted d ->
    map_step (to_map (data_ s)) e = to_map d -> outcome o s (Ok tt) (after d e s)
| Unchanged : spec o (to_map (data_ s)) = Some (to_map (data_ s)) -> outcome o s (Ok tt) s
| Rejected e : spec o (to_map (data_ s)) = None -> (forall f, e <> Fault f) -> outcome o s (Throw e) s
| Faulted f s' : faulty o s -> outcome o s (Throw (Fault f)) s'.

(** A change made under the lock and then published. *)
Lemma change_outcome o (s : t) (m : M t unit) d c k v md :
  wf s -> m (set_locked true s) = (Ok tt, set_data d (set_locked true s)) ->
  spec o (to_map (data_ s)) = Some (to_map d) -> sorted d ->
  map_step (to_map (data_ s)) {| e_code := c; e_key := k; e_value := v; e_metadata := md |} = to_map d ->
  outcome o s ((_ ← with_lock m; UpdateRevNumAndPublish c k v md) s).1
    ((_ ← with_lock m; UpdateRevNumAndPublish c k v md) s).2.
Proof.
  intros [Hs Hl] Hm H1 H2 H3. rewrite (bind_ok _ _ _ _ _ (with_lock_ok _ _ _ _ Hl Hm)).
  rewrite unlock_data, map_publish_ok by done. by apply Changed.
Qed.

(** An exception under the lock. *)
Lemma throw_outcome {A} o (s : t) (m : M t A) (f : A -> M t unit) e :
  wf s -> m (set_locked true s) = (Throw e, set_locked true s) ->
  spec o (to_map (data_ s)) = None -> (forall x, e <> Fault x) ->
  outcome o s ((with_lock m ≫= f) s).1 ((with_lock m ≫= f) s).2.
Proof.
  intros [Hs Hl] Hm H1 H2. rewrite (bind_throw _ _ _ _ _ (with_lock_ok _ _ _ _ Hl Hm)), unlock by done.
  by apply Rejected.
Qed.

Lemma map_set_outcome k v md (s : t) : wf s -> outcome (OpSet k v md) s (Set_ k v md s).1 (Set_ k v md s).2.
Proof.
  intros Hwf. unfold Set_. destruct k as [|i|x|x]; [by apply Rejected| | |];
    rewrite (bind_lift_ok _ _ _ tt eq_refl).
  - by eapply throw_outcome.
  - by eapply throw_outcome.
  - eapply change_outcome; [done|reflexivity| |apply sorted_assign, Hwf|]; simpl;
      by rewrite to_map_assign.
Qed.

Lemma map_insert_outcome k v md (s : t) : wf s -> outcome (OpInsert k v md) s (Insert k v md s).1 (Insert k v md s).2.
Proof.
  intros Hwf. unfold Insert. destruct k as [|i|x|x]; [by apply Rejected|by apply Rejected|by apply Rejected|].
  rewrite (bind_lift_ok _ _ _ tt eq_refl). cbn [AsSz]. rewrite (bind_lift_ok _ _ _ (c_str x) eq_refl).
  destruct (find (c_str x) (data_ s)) as [y|] eqn:E; rewrite find_to_map in E.
  - apply (throw_outcome _ _ _ _ (invalid_argument "already exits")); [done| |simpl; by rewrite E|by intros f].
    unfold mbind, M_bind, get. simpl. by rewrite find_to_map, E.
  - eapply change_outcome; [done| | |apply sorted_assign, Hwf|]; simpl.
    + unfold mbind, M_bind, get. simpl. by rewrite find_to_map, E.
    + by rewrite E, to_map_assign.
    + by rewrite to_map_assign.
Qed.

Lemma map_delete_outcome k v md (s : t) : wf s -> outcome (OpDelete k v md) s (Delete k v md s).1 (Delete k v md s).2.
Proof.
  intros Hwf. unfold Delete. destruct k as [|i|x|x]; [by apply Rejected|by apply Rejected|by apply Rejected|].
  rewrite (bind_lift_ok _ _ _ tt eq_refl). cbn [AsSz]. rewrite (bind_lift_ok _ _ _ (c_str x) eq_refl).
  destruct (find (c_str x) (data_ s)) as [y|] eqn:E; rewrite find_to_map in E.
  - eapply change_outcome; [done| | |apply sorted_erase, Hwf|]; simpl.
    + unfold mbind, M_bind, get. simpl. by rewrite find_to_map, E.
    + by rewrite E, to_map_erase by apply Hwf.
    + by rewrite to_map_erase by apply Hwf.
  - apply (throw_outcome _ _ _ _ key_not_found); [done| |simpl; by rewrite E|by intros f].
    unfold mbind, M_bind, get. simpl. by rewrite find_to_map, E.
Qed.

(** ** Reading *)

Lemma map_int_size_small (s : t) : small s -> int_size (data_ s) = Z.of_nat (length (data_ s)).
Proof. intros H. unfold small in H. unfold int_size. apply i32_small. unfold is_int, INT_MIN, INT_MAX. lia. Qed.

Lemma query_range_spec a b (s : t) :
  small s -> index_ok a -> index_ok b -> let n := Z.of_nat (length (data_ s)) in
  query_range a b (data_ s) = Ok (query_start a b n, query_end b n).
Proof.
  intros Hs Ha Hb n. unfold query_range. rewrite map_int_size_small by done. fold n. unfold small in Hs.
  destruct (b =? 0) eqn:Eb; bool_to_prop.
  - subst b. unfold query_start, query_end. simpl. destruct (a =? 0) eqn:Ea; bool_to_prop; simpl.
    + subst a. do 2 f_equal. unfold clamp. simpl. lia.
    + rewrite NormalizeForQueries_spec by (done || lia). mrun. do 2 f_equal.
      unfold clamp. case_match; bool_to_prop; lia.
  - rewrite andb_false_r. apply NormalizeQueryLimits_spec; (done || lia).
Qed.

Definition slice (d : DataMap) (lo hi : Z) : list item :=
  result_item <$> take (Z.to_nat hi - Z.to_nat lo) (drop (Z.to_nat lo) d).

Lemma map_query_ok a b (s : t) :
  wf s -> small s -> index_ok a -> index_ok b -> let n := Z.of_nat (length (data_ s)) in
  Query a b None_ s = (Ok (new_result_set (slice (data_ s) (query_start a b n) (query_end b n)) TIONULL), s).
Proof.
  intros [_ Hl] Hs Ha Hb n. unfold Query. cbn [IsNull GetDataType negb Z.eqb].
  erewrite with_lock_ok; [|done|rewrite bind_get; cbn [data_ set_locked]; mstep (query_range_spec a b s Hs Ha Hb); reflexivity].
  by rewrite unlock.
Qed.

(** What a key finds. *)
Definition found (d : DataMap) (key : TioData) : option (bytes * ValueAndMetadata) :=
  match key with
  | Int k => i ← python_index k (Z.of_nat (length d)); d !! Z.to_nat i
  | String x => v ← find (c_str x) d; Some (c_str x, v)
  | _ => None
  end.

Lemma GetInternalRecord_cases (s : t) key :
  small s ->
  match found (data_ s) key with
  | Some p => GetInternalRecord (data_ s) key = Ok p
  | None => exists e, GetInternalRecord (data_ s) key = Throw e /\
      ((forall f, e <> Fault f) \/ faulty (OpGet key) s)
  end \/ key = Int INT_MIN.
Proof.
  intros Hs. destruct key as [|k|x|x]; simpl.
  - left. eexists. split; [reflexivity|]. left. by intros f.
  - destruct (decide (k = INT_MIN)) as [->|Hk]; [by right|left].
    rewrite map_int_size_small by done. unfold small in Hs. rewrite NormalizeIndex_spec by (done || lia).
    destruct (k =? 0) eqn:E0; bool_to_prop.
    + subst k. unfold python_index. simpl. destruct (data_ s) as [|p l] eqn:Ed; simpl.
      * eexists. split; [reflexivity|]. right. by left.
      * mrun. done.
    + destruct (python_index k (Z.of_nat (length (data_ s)))) as [i|] eqn:Ei; mrun.
      * apply python_index_bound in Ei.
        destruct (lookup_lt_is_Some_2 (data_ s) (Z.to_nat i)) as [p Hp]; [lia|]. simpl. by rewrite !Hp.
      * eexists. split; [reflexivity|]. left. by intros f.
  - left. eexists. split; [reflexivity|]. left. by intros f.
  - left. mrun. destruct (find (c_str x) (data_ s)); [done|].
    eexists. split; [reflexivity|]. left. by intros f.
Qed.

Lemma get_run (s : t) searchKey k v m :
  locked s = false ->
  GetRecord searchKey k v m s =
    (match GetInternalRecord (data_ s) searchKey with
     | Ok p => Ok (assign k (String p.1), assign v (value p.2), assign m (metadata p.2))
     | Throw e => Throw e
     end, s).
Proof.
  intros Hl. unfold GetRecord, with_lock, mbind, M_bind, get, lift. rewrite Hl. simpl.
  destruct (GetInternalRecord (data_ s) searchKey); simpl; by rewrite unlock.
Qed.

Lemma spec_get key (s : t) :
  sorted (data_ s) ->
  spec (OpGet key) (to_map (data_ s)) =
    match found (data_ s) key with Some _ => Some (to_map (data_ s)) | None => None end.
Proof.
  intros Hs. destruct key as [|k|x|x]; simpl; [done| |done|].
  - rewrite length_to_map by done. destruct (python_index k _) as [i|] eqn:Ei; simpl; [|done].
    apply python_index_bound in Ei.
    destruct (lookup_lt_is_Some_2 (data_ s) (Z.to_nat i)) as [p Hp]; [lia|]. by rewrite Hp.
  - rewrite <- find_to_map. by destruct (find (c_str x) (data_ s)).
Qed.

Lemma map_get_outcome key (s : t) :
  wf s -> small s -> outcome (OpGet key) s (run_op (OpGet key) s).1 (run_op (OpGet key) s).2.
Proof.
  intros [Hs Hl] Hsm. cbn [run_op Containers.GetRecord map_storage].
  destruct (GetInternalRecord_cases s key Hsm) as [H| ->].
  - pose proof (spec_get key s Hs) as Hsp. destruct (found (data_ s) key) as [p|].
    + erewrite bind_ok; [|rewrite get_run by done; rewrite H; reflexivity]. by apply Unchanged.
    + destruct H as (e & E & He). erewrite bind_throw; [|rewrite get_run by done; rewrite E; reflexivity].
      cbn [fst snd]. destruct e as [| | | | |f]; try (apply Rejected; [done|by intros f]).
      apply Faulted. destruct He as [He|He]; [by destruct (He f)|done].
  - erewrite bind_throw; [|rewrite get_run by done; reflexivity]. apply Faulted. by right.
Qed.

Lemma map_run_op_outcome o (s : t) : wf s -> small s -> op_ok o -> outcome o s (run_op o s).1 (run_op o s).2.
Proof.
  intros Hwf Hs Ho. destruct o; try by apply Rejected.
  - by apply map_set_outcome.
  - by apply map_insert_outcome.
  - by apply map_delete_outcome.
  - apply (change_outcome OpClear s (modify (set_data [])) []); done || constructor.
  - by apply map_get_outcome.
  - destruct Ho as [Ha Hb]. cbn [run_op Containers.Query map_storage].
    mstep (map_query_ok start end_ s Hwf Hs Ha Hb). by apply Unchanged.
Qed.

(** A command adds at most one element. *)
Lemma spec_size o m m' : spec o m = Some m' -> (size m' <= S (size m))%nat.
Proof.
  assert (Hins : forall k v, (size (<[k := v]> m) <= S (size m))%nat)
    by (intros k v; rewrite map_size_insert; case_match; unfold id; lia).
  destruct o as [| | | |k v md|k v md|k v md| |k|a b]; cbn [spec]; try done.
  - intros (i & _ & [= <-])%bind_Some. auto.
  - intros (i & _ & H)%bind_Some. case_match; [done|]. injection H as <-. auto.
  - intros (i & _ & H)%bind_Some. case_match; [|done]. injection H as <-.
    rewrite map_size_delete. case_match; unfold id; lia.
  - intros [= <-]. rewrite map_size_empty. lia.
  - destruct k as [|k|x|x]; intros H; simpl in *; try done.
    + apply bind_Some in H as (_ & _ & [= <-]). lia.
    + apply bind_Some in H as (_ & _ & [= <-]). lia.
  - intros [= <-]. lia.
Qed.

Lemma outcome_size o (s : t) r s' :
  outcome o s r s' -> wf s -> (exists f, r = Throw (Fault f)) \/
  (wf s' /\ (length (data_ s') <= S (length (data_ s)))%nat).
Proof.
  intros H Hwf. inversion H as [d e Hd Hsd _ Hr Hs|Hd Hr Hs|e _ _ Hr Hs|f s1 _ Hr Hs]; subst;
    [right| right; split; [done|lia] | right; split; [done|lia] | left; by eexists].
  split; [by apply wf_after|]. rewrite map_data_after.
  rewrite <- !length_to_map by (done || apply Hwf). by eapply spec_size.
Qed.

Lemma map_stays_small_intro os : forall s : t,
  wf s -> Forall op_ok os -> Z.of_nat (length (data_ s) + length os) < 2 ^ 31 -> stays_small small os s.
Proof.
  induction os as [|o os IH]; intros s Hwf Hok Hl n s1 Hrun; unfold small.
  - rewrite take_nil in Hrun. injection Hrun as <-. lia.
  - apply Forall_cons in Hok as [Ho Hok]. simpl in Hl. destruct n as [|n]; [injection Hrun as <-; lia|].
    simpl in Hrun. pose proof (map_run_op_outcome o s Hwf ltac:(unfold small; lia) Ho) as H.
    destruct (run_op o s) as [r s2]. simpl in H.
    destruct (outcome_size _ _ _ _ H Hwf) as [ [f ->]|[Hwf2 Hs2] ]; [done|].
    assert (Hrun' : run_ops (take n os) s2 = Some s1) by (destruct r as [|[] ]; try done).
    apply (IH s2 Hwf2 Hok ltac:(lia) n s1 Hrun').
Qed.

Definition subscribed (s : t) : Prop := wf s /\ sink_ s = true.

(** What the map storage promises its subscribers. *)
#[export] Instance map_replicates :
  Replicates t (gmap bytes ValueAndMetadata) subscribed small (fun s => to_map (data_ s)) published map_step.
Proof.
  split. intros o s r s' [Hwf Hsub] Hs Ho E. pose proof (map_run_op_outcome o s Hwf Hs Ho) as H. rewrite E in H. simpl in H.
  destruct H as [d e Hd Hsd He|Hd|e Hd He|f s' Hf].
  - split; [split; [by apply wf_after|unfold after; simpl; by rewrite Hsub]|].
    unfold after. simpl. rewrite Hsub. exists [e]. by simpl.
  - split; [done|]. exists []. by rewrite app_nil_r.
  - destruct e; try done.
  - done.
Qed.

Lemma map_set_run x v m (s : t) :
  wf s -> (Set_ (String x) v m s).1 = Ok tt /\
  (Set_ (String x) v m s).2 = after (assign_at (c_str x) (record v m) (data_ s))
    {| e_code := EVENT_CODE_SET; e_key := String x; e_value := v; e_metadata := m |} s.
Proof.
  intros [_ Hl]. unfold Set_. rewrite (bind_lift_ok _ _ _ tt eq_refl).
  erewrite bind_ok; [|by apply with_lock_ok; [|reflexivity] ].
  rewrite unlock_data by done. by rewrite map_publish_ok.
Qed.

(** Commands keep the name, the type, the subscriber and the lock. *)
Lemma map_framed o : framed (D := DataMap) (run_op (S := t) o).
Proof.
  destruct o; cbn [run_op map_storage Containers.PushBack Containers.PushFront Containers.PopBack Containers.PopFront
    Containers.Set_ Containers.Insert Containers.Delete Containers.Clear Containers.GetRecord Containers.Query];
    unfold UpdateRevNumAndPublish, PushBack, PushFront, PopBack, PopFront, Set_, Insert, Delete, Clear, GetRecord, Query; solve_framed.
Qed.

(** ** Properties *)

(** C23. The map container is a finite map.  Every command, on a map of fewer
    than 2^31 elements, either gives exactly the map the specification gives
    or throws and leaves the storage as it was, its lock free in both cases
    and its keys in order; only strings are keys, [insert] refuses a key that
    is there, [delete] one that is not, and pushes and pops are not supported.
    The only faults are position 0 of an empty map and the position [INT_MIN]. *)
Theorem map_refines_spec o (s : t) :
  wf s -> small s -> op_ok o -> ~ faulty o s ->
  wf (run_op o s).2 /\
  match spec o (to_map (data_ s)) with
  | Some m => (run_op o s).1 = Ok tt /\ to_map (data_ (run_op o s).2) = m
  | None => (exists e, (run_op o s).1 = Throw e /\ forall f, e <> Fault f) /\ (run_op o s).2 = s
  end.
Proof.
  intros Hwf Hs Ho Hf. destruct (map_run_op_outcome o s Hwf Hs Ho) as [d e Hd Hsd He|Hd|e Hd He|f s' Hff].
  - rewrite Hd, map_data_after. split; [by apply wf_after|done].
  - by rewrite Hd.
  - rewrite Hd. split; [done|]. split; [by exists e|done].
  - done.
Qed.

(** C25. Subscribers can rebuild the map.  A replica that starts as a copy and
    applies the published events ends equal to the map, whatever the commands
    and however many of them fail; the keys stay in order and the lock free. *)
Theorem map_replica os (s s' : t) :
  subscribed s -> Z.of_nat (length (data_ s) + length os) < 2 ^ 31 -> Forall op_ok os ->
  run_ops os s = Some s' ->
  wf s' /\ exists evs, published s' = published s ++ evs /\
    to_map (data_ s') = fold_left map_step evs (to_map (data_ s)).
Proof.
  intros H1 H2 H3 H4.
  destruct (replica_follows os s s' H1 (map_stays_small_intro os s (proj1 H1) H3 H2) H3 H4) as [ [Hwf _] H].
  by split.
Qed.

(** What is set is what is read.  After a [set] of a string key, reading
    that key gives the value and metadata that were set, and reading any other
    string key gives what it gave before. *)
Theorem map_set_get x y v m (s : t) :
  wf s -> let s' := (Set_ (String x) v m s).2 in
  (Set_ (String x) v m s).1 = Ok tt /\
  (GetRecord (String y) (Some None_) (Some None_) (Some None_) s').1 =
    if decide (c_str y = c_str x) then Ok (Some (String (c_str x)), Some v, Some m)
    else (GetRecord (String y) (Some None_) (Some None_) (Some None_) s).1.
Proof.
  intros Hwf s'.
  destruct (map_set_run x v m s Hwf) as [E1 E2]. split; [exact E1|]. subst s'.
  rewrite E2, (get_run s), get_run by (apply Hwf || by apply wf_after, sorted_assign, Hwf).
  rewrite map_data_after. simpl. mrun. rewrite !find_to_map, to_map_assign.
  case_decide as E; [rewrite E, lookup_insert_eq|rewrite lookup_insert_ne by done]; done.
Qed.

(** A query of a map returns the elements between two positions in the
    order of the keys, without changing the storage: the limits are clamped,
    negative ones count from the end, and limits 0 and 0 give every element. *)
Theorem map_query a b (s : t) :
  wf s -> small s -> index_ok a -> index_ok b ->
  let n := Z.of_nat (length (data_ s)) in
  exists l0 l l1,
    Query a b None_ s = (Ok (new_result_set (result_item <$> l) TIONULL), s) /\
    data_ s = l0 ++ l ++ l1 /\ sorted l /\
    Z.of_nat (length l0) = query_start a b n /\ Z.of_nat (length (l0 ++ l)) = query_end b n /\
    (a = 0 -> b = 0 -> to_map l = to_map (data_ s)).
Proof.
  intros Hwf Hs Ha Hb n. destruct (query_bounds a b n ltac:(lia)) as [Hq1 Hq2].
  set (lo := query_start a b n) in *. set (hi := query_end b n) in *.
  exists (take (Z.to_nat lo) (data_ s)), (take (Z.to_nat hi - Z.to_nat lo) (drop (Z.to_nat lo) (data_ s))),
    (drop (Z.to_nat hi - Z.to_nat lo) (drop (Z.to_nat lo) (data_ s))).
  split; [by apply map_query_ok|]. rewrite !take_drop. split; [done|].
  split; [apply sorted_take, sorted_drop, Hwf|].
  rewrite length_app, !length_take, length_drop. unfold n in *. split; [lia|]. split; [lia|].
  intros -> ->. subst lo hi. unfold query_start, query_end, clamp. simpl.
  rewrite !Z.min_l, Nat2Z.id by lia. change (Z.to_nat 0) with 0%nat. by rewrite Nat.sub_0_r, drop_0, firstn_all.
Qed.

(** ** Witnesses *)

Definition ex_entry (k : string) (z : Z) : bytes * ValueAndMetadata := (lit k, record (Int z) None_).

Definition ex_map : t :=
  mk_storage [ex_entry "ask" 10; ex_entry "bid" 9; ex_entry "last" 8] (lit "book") (lit "volatile_map") true 3 false [].

Lemma ex_map_wf : wf ex_map.
Proof. split; [repeat constructor|reflexivity]. Qed.

Lemma map_refines_spec_witness :
  (run_op (OpDelete (String (lit "bid")) None_ None_) ex_map).1 = Ok tt /\
  to_map (data_ (run_op (OpDelete (String (lit "bid")) None_ None_) ex_map).2)
  = delete (lit "bid") (to_map (data_ ex_map)).
Proof.
  refine (proj2 (map_refines_spec (OpDelete (String (lit "bid")) None_ None_) ex_map ex_map_wf _ _ _)).
  - reflexivity.
  - exact I.
  - intros H. exact H.
Defined.

Definition ex_ops : list op :=
  [ OpSet (String (lit "open")) (Int 7) None_; OpInsert (String (lit "ask")) (Int 1) None_;
    OpDelete (String (lit "last")) None_ None_; OpPushBack None_ (Int 1) None_; OpGet (Int (-1)) ].

Lemma map_replica_witness :
  exists s' evs, run_ops ex_ops ex_map = Some s' /\ published s' = [] ++ evs /\
    to_map (data_ s') = fold_left map_step evs (to_map (data_ ex_map)).
Proof.
  destruct (run_ops ex_ops ex_map) as [s'|] eqn:E; [|vm_compute in E; discriminate E].
  destruct (map_replica ex_ops ex_map s') as (_ & evs & Hp & Hd).
  - split; [exact ex_map_wf|reflexivity].
  - vm_compute. reflexivity.
  - repeat constructor; unfold op_ok, key_ok, is_int, INT_MIN, INT_MAX; lia.
  - exact E.
  - exists s', evs. split; [reflexivity|]. split; [exact Hp|exact Hd].
Defined.

Lemma map_set_get_witness :
  (GetRecord (String (lit "bid")) (Some None_) (Some None_) (Some None_)
     (Set_ (String (lit "bid")) (Int 11) (Int 1) ex_map).2).1
  = Ok (Some (String (lit "bid")), Some (Int 11), Some (Int 1)).
Proof. apply (map_set_get (lit "bid") (lit "bid") (Int 11) (Int 1) ex_map ex_map_wf). Defined.

Lemma map_query_witness :
  exists l0 l l1, Query (-2) 0 None_ ex_map = (Ok (new_result_set (result_item <$> l) TIONULL), ex_map) /\
    data_ ex_map = l0 ++ l ++ l1 /\ length l0 = 1%nat.
Proof.
  destruct (map_query (-2) 0 ex_map) as (l0 & l & l1 & E & Ed & _ & H0 & _).
  - exact ex_map_wf.
  - reflexivity.
  - discriminate.
  - discriminate.
  - exists l0, l, l1. split; [exact E|]. split; [exact Ed|]. apply (Nat2Z.inj (length l0) 1). exact H0.
Defined.

End MapStorage.
