(* ===== verification/VectorStorage.v ===== *)
(** * Vectors: [server/tio/VectorStorage.h]

    A [std::vector] of values with metadata, its mutex a [std::mutex] that is
    taken in a scope of its own before the event is published.  [Insert],
    [Delete] and [Query] call a locking operation with the lock already held.
    A vector never counts its revisions. *)
From S2P Require Import Prelude TioDataS Containers ListStorage.

Module VectorStorage.
Import TioData Containers.

Notation DataContainerT := (list ValueAndMetadata).
Definition t := storage DataContainerT.

Definition make (name type : bytes) : t := mk_storage [] name type false 0 false [].

Definition Publish (c : ContainerEventCode) (k v m : TioData) : M t unit :=
  sink ← with_lock (s ← get; mret (sink_ s));
  if (sink : bool) then call_sink c k v m else mret tt.

(** [GetRecordNumber(int)]: the test is on [int]s, the sum on [size_t]s. *)
Definition GetRecordNumber (d : DataContainerT) (index : Z) : res Z :=
  if index <? 0 then
    negated ← (if index =? INT_MIN then Throw (Fault SignedOverflow) else Ok (- index));
    _ ← require (negb (i32 (Z.of_nat (length d)) <? negated)) (invalid_argument "invalid subscript");
    Ok (u64 (i32 (u64 (Z.of_nat (length d) + index))))
  else Ok (u64 index).

Definition GetRecordNumber_key (d : DataContainerT) (td : TioData) : res Z :=
  i ← AsInt td; GetRecordNumber d i.

(** [data_.at(n)], as the position of the element. *)
Definition at_ (d : DataContainerT) (n : Z) : res (nat * ValueAndMetadata) :=
  match d !! Z.to_nat n with
  | Some x => Ok (Z.to_nat n, x)
  | None => Throw (out_of_range "vector")
  end.

Definition GetInternalRecord (d : DataContainerT) (key : TioData) : res (nat * ValueAndMetadata) :=
  n ← GetRecordNumber_key d key; at_ d n.

Definition GetRevNum : M t Z := with_lock (s ← get; mret (revNum_ s)).
Definition GetName : M t bytes := with_lock (s ← get; mret (name_ s)).
Definition GetType (s : t) : bytes := type_ s.
Definition Command (command : bytes) : M t bytes := throw (invalid_argument "command not supported").
Definition GetRecordCount : M t Z := with_lock (s ← get; mret (Z.of_nat (length (data_ s)))).

Definition CheckValue (v : TioData) : res unit :=
  require (negb (Empty v)) (invalid_argument "value??").

Definition PushBack (key v m : TioData) : M t unit :=
  _ ← lift (CheckValue v);
  _ ← with_lock (s ← get; modify (set_data (data_ s ++ [ {| value := v; metadata := m |} ])));
  s ← get;
  Publish EVENT_CODE_INSERT (Int (i32 (Z.of_nat (length (data_ s)) - 1))) v m.

Definition PushFront (key v m : TioData) : M t unit :=
  _ ← lift (CheckValue v);
  _ ← with_lock (s ← get; modify (set_data ({| value := v; metadata := m |} :: data_ s)));
  Publish EVENT_CODE_INSERT (Int 0) v m.

(** [_Pop] of the element at an iterator. *)
Definition _Pop (i : nat) (v m : out) : M t (out * out) :=
  s ← get;
  match data_ s !! i with
  | None => throw (Fault EndDeref)
  | Some data =>
      _ ← modify (set_data (delete i (data_ s)));
      mret (assign v (value data), assign m (metadata data))
  end.

Definition PopBack (key v m : out) : M t outs :=
  s ← get;
  if bool_decide (length (data_ s) = 0%nat) then throw (invalid_argument "empty")
  else
    let key := assign key (Int (i32 (Z.of_nat (length (data_ s)) - 1))) in
    '(v, m) ← with_lock (s ← get; _Pop (length (data_ s) - 1) v m);
    _ ← Publish EVENT_CODE_DELETE (default TIONULL key) (default TIONULL v) (default TIONULL m);
    mret (key, v, m).

(** The key is not assigned. *)
Definition PopFront (key v m : out) : M t outs :=
  s ← get;
  if bool_decide (length (data_ s) = 0%nat) then throw (invalid_argument "empty")
  else
    '(v, m) ← with_lock (_Pop 0 v m);
    _ ← Publish EVENT_CODE_DELETE (Int 0) (default TIONULL v) (default TIONULL m);
    mret (key, v, m).

Definition GetRecord (searchKey : TioData) (key v m : out) : M t outs :=
  with_lock (
    s ← get;
    '(_, data) ← lift (GetInternalRecord (data_ s) searchKey);
    mret (assign key searchKey, assign v (value data), assign m (metadata data))).

Definition Set_ (key v m : TioData) : M t unit :=
  _ ← lift (CheckValue v);
  _ ← with_lock (
    s ← get;
    '(i, _) ← lift (GetInternalRecord (data_ s) key);
    modify (set_data (<[i := {| value := v; metadata := m |}]> (data_ s))));
  Publish EVENT_CODE_SET key v m.

Definition Insert (key v m : TioData) : M t unit :=
  _ ← lift (CheckValue v);
  _ ← with_lock (
    s ← get;
    recordNumber ← lift (GetRecordNumber_key (data_ s) key);
    _ ← GetRecord key None None None;
    let i := Z.to_nat recordNumber in
    modify (set_data (take i (data_ s) ++ [ {| value := v; metadata := m |} ] ++ drop i (data_ s))));
  Publish EVENT_CODE_INSERT key v m.

Definition Delete (key v m : TioData) : M t unit :=
  s ← get;
  recordNumber ← lift (GetRecordNumber_key (data_ s) key);
  _ ← with_lock (
    _ ← GetRecord key None None None;
    modify (set_data (delete (Z.to_nat recordNumber) (data_ s))));
  Publish EVENT_CODE_DELETE key v m.

Definition Clear : M t unit :=
  _ ← with_lock (modify (set_data []));
  Publish EVENT_CODE_CLEAR TIONULL TIONULL TIONULL.

(** [for(key = startOffset; key != endOffset; ++key)], [n] times; [data_[key]]
    is not checked. *)
Fixpoint query_items (d : DataContainerT) (key : Z) (n : nat) : res (list item) :=
  match n with
  | O => Ok []
  | S n =>
      match d !! Z.to_nat key with
      | None => Throw (Fault OutOfBounds)
      | Some x => l ← query_items d (key + 1) n; Ok ((Int key, value x, metadata x) :: l)
      end
  end.

(** [reserve] of a negative number throws, so the loop ends. *)
Definition Query (startOffset endOffset : Z) (query : TioData) : M t VectorResultSet :=
  if negb (IsNull query) then throw (runtime_error "query type not supported by this container")
  else with_lock (
    count ← GetRecordCount;
    '(start, end_) ←
      (if count =? 0 then mret (0, endOffset)
       else recordCount ← GetRecordCount;
            lift (NormalizeQueryLimits startOffset endOffset (i32 recordCount)));
    _ ← lift (require (start <=? end_) (length_error "vector::reserve"));
    s ← get;
    items ← lift (query_items (data_ s) start (Z.to_nat (end_ - start)));
    mret (new_result_set items TIONULL)).

(** The argument is whether the function passed is not empty. *)
Definition SetSubscriber (sink : bool) : M t unit := with_lock (modify (set_sink sink)).
Definition RemoveSubscriber : M t unit := with_lock (modify (set_sink false)).

#[export] Instance vector_storage : ITioStorage t := {
  Containers.GetRecordCount := GetRecordCount;
  Containers.PushBack := PushBack;
  Containers.PushFront := PushFront;
  Containers.PopBack := PopBack;
  Containers.PopFront := PopFront;
  Containers.GetRecord := GetRecord;
  Containers.Set_ := Set_;
  Containers.Insert := Insert;
  Containers.Delete := Delete;
  Containers.Clear := Clear;
  Containers.Query := Query;
  Containers.GetRevNum := GetRevNum;
  Containers.Command := Command;
  Containers.SetSubscriber := SetSubscriber;
  Containers.RemoveSubscriber := RemoveSubscriber
}.

(** ** Positions *)

Definition position (d : DataContainerT) (key : TioData) : option nat := ListStorage.position d key.

Definition small (s : t) : Prop := Z.of_nat (length (data_ s)) < 2 ^ 31.
Definition wf (s : t) : Prop := locked s = false.

(** Keys that name no number: [AsInt] or the test of [GetRecordNumber] throws. *)
Definition numbered (d : DataContainerT) (key : TioData) : bool :=
  match key with Int k => - Z.of_nat (length d) <=? k | _ => false end.

Lemma position_numbered d key : numbered d key = false -> position d key = None.
Proof.
  destruct key as [|k|x|x]; try done. unfold numbered, position, ListStorage.position, python_index. simpl.
  intros H. bool_to_prop. by ztest.
Qed.

Lemma GetRecordNumber_cases d key :
  Z.of_nat (length d) < 2 ^ 31 -> key_ok key -> key <> Int INT_MIN ->
  if numbered d key then exists n, GetRecordNumber_key d key = Ok n
  else exists e, GetRecordNumber_key d key = Throw e /\ forall f, e <> Fault f.
Proof.
  intros Hd Hk Hm. destruct key as [|k|x|x]; try (by eexists; split; [reflexivity|]).
  assert (k <> INT_MIN) by congruence. unfold GetRecordNumber_key, GetRecordNumber. cbn [AsInt numbered]. mrun.
  rewrite (i32_small (Z.of_nat (length d))) by (unfold is_int, INT_MIN, INT_MAX; lia).
  destruct (k <? 0) eqn:E; bool_to_prop.
  - ztest. mrun. unfold require. destruct (- _ <=? k) eqn:E1; bool_to_prop; ztest; mrun; by eexists.
  - ztest. by eexists.
Qed.

Lemma GetInternalRecord_vector d key :
  Z.of_nat (length d) < 2 ^ 31 -> key_ok key -> key <> Int INT_MIN ->
  match position d key with
  | Some i => exists x, d !! i = Some x /\ GetInternalRecord d key = Ok (i, x)
  | None => exists e, GetInternalRecord d key = Throw e /\ forall f, e <> Fault f
  end.
Proof.
  intros Hd Hk Hm. destruct key as [|k|x|x]; try (by eexists; split; [reflexivity|]).
  assert (k <> INT_MIN) by congruence. unfold key_ok, is_int, INT_MIN, INT_MAX in Hk.
  unfold GetInternalRecord, GetRecordNumber_key, GetRecordNumber, position, ListStorage.position, python_index, at_.
  cbn [AsInt]. mrun. rewrite (i32_small (Z.of_nat (length d))) by (unfold is_int, INT_MIN, INT_MAX; lia).
  destruct (k <? 0) eqn:E; bool_to_prop; ztest; mrun.
  - unfold require. cbn [andb]. destruct (- _ <=? k) eqn:E1; bool_to_prop; ztest; mrun; [|by eexists].
    assert (Hn : u64 (i32 (u64 (Z.of_nat (length d) + k))) = Z.of_nat (length d) + k).
    { unfold u64. rewrite (Z.mod_small (Z.of_nat (length d) + k)) by lia.
      rewrite i32_small by (unfold is_int, INT_MIN, INT_MAX; lia). apply Z.mod_small. lia. }
    rewrite Hn. destruct (lookup_lt_is_Some_2 d (Z.to_nat (Z.of_nat (length d) + k))) as [x Hx]; [lia|].
    simpl. exists x. by rewrite Hx.
  - assert (Hn : u64 k = k) by (apply Z.mod_small; lia). rewrite Hn. cbn [andb].
    destruct (k <? _) eqn:E1; bool_to_prop.
    + destruct (lookup_lt_is_Some_2 d (Z.to_nat k)) as [x Hx]; [lia|]. simpl. exists x. by rewrite Hx.
    + rewrite lookup_ge_None_2 by lia. by eexists.
Qed.

(** ** Specification *)

Definition record (v m : TioData) : ValueAndMetadata := {| value := v; metadata := m |}.

Definition spec (o : op) (d : DataContainerT) : option DataContainerT :=
  match o with
  | OpPushBack _ v m => if Empty v then None else Some (d ++ [record v m])
  | OpPushFront _ v m => if Empty v then None else Some (record v m :: d)
  | OpPopBack _ _ _ => match d with [] => None | _ => Some (removelast d) end
  | OpPopFront _ _ _ => match d with [] => None | _ :: d => Some d end
  | OpSet key v m => if Empty v then None else i ← position d key; Some (<[i := record v m]> d)
  | OpInsert key v m => if Empty v then None else i ← position d key; Some (ListStorage.insert_at i (record v m) d)
  | OpDelete key _ _ => i ← position d key; Some (delete i d)
  | OpClear => Some []
  | OpGet key => _ ← position d key; Some d
  | OpQuery _ _ => Some d
  end.

(** The commands that take the mutex twice. *)
Definition deadlocks (o : op) (d : DataContainerT) : bool :=
  match o with
  | OpInsert key v _ => negb (Empty v) && numbered d key
  | OpDelete key _ _ => numbered d key
  | OpQuery _ _ => true
  | _ => false
  end.

(** The key whose negation overflows. *)
Definition int_min_key (o : op) : Prop :=
  match o with
  | OpSet key _ _ | OpInsert key _ _ | OpDelete key _ _ | OpGet key => key = Int INT_MIN
  | _ => False
  end.

(** What an event tells a replica to do. *)
Definition vector_step (d : DataContainerT) (e : event) : DataContainerT :=
  let x := record (e_value e) (e_metadata e) in
  match e_code e with
  | EVENT_CODE_CLEAR => []
  | EVENT_CODE_INSERT => default d ((fun i => ListStorage.insert_at i x d) <$> ListStorage.insert_position d (e_key e))
  | EVENT_CODE_DELETE => default d ((fun i => delete i d) <$> position d (e_key e))
  | EVENT_CODE_SET => default d ((fun i => <[i := x]> d) <$> position d (e_key e))
  | _ => d
  end.

(** ** Running *)

(** A storage after a change that was published. *)
Definition after (d : DataContainerT) (e : event) (s : t) : t :=
  let s := set_data d s in if sink_ s then add_published e s else s.

Lemma vector_publish_ok c k v m d (s : t) :
  wf s ->
  Publish c k v m (set_data d s)
  = (Ok tt, after d {| e_code := c; e_key := k; e_value := v; e_metadata := m |} s).
Proof.
  intros Hl. unfold wf in Hl. unfold Publish, with_lock, after, mbind, M_bind, get, modify, call_sink. simpl.
  rewrite Hl. simpl. destruct s; simpl in *; subst. by destruct sink_0.
Qed.

Lemma vector_data_after d e (s : t) : data_ (after d e s) = d.
Proof. unfold after. simpl. by destruct (sink_ s). Qed.

Lemma vector_wf_after d e (s : t) : wf s -> wf (after d e s).
Proof. unfold after, wf. simpl. by destruct (sink_ s). Qed.

Lemma revNum_after d e (s : t) : revNum_ (after d e s) = revNum_ s.
Proof. unfold after. simpl. by destruct (sink_ s). Qed.

Inductive outcome (o : op) (s : t) : res unit -> t -> Prop :=
| Changed d e :
    deadlocks o (data_ s) = false -> spec o (data_ s) = Some d ->
    vector_step (data_ s) e = d -> outcome o s (Ok tt) (after d e s)
| Unchanged : deadlocks o (data_ s) = false -> spec o (data_ s) = Some (data_ s) -> outcome o s (Ok tt) s
| Rejected e :
    deadlocks o (data_ s) = false -> spec o (data_ s) = None -> (forall f, e <> Fault f) ->
    outcome o s (Throw e) s
| Locked s' : deadlocks o (data_ s) = true -> outcome o s (Throw (Fault Deadlock)) s'.

(** A change made under the lock and then published. *)
Lemma vector_change_outcome o (s : t) (m : M t unit) d c k v md :
  wf s -> m (set_locked true s) = (Ok tt, set_data d (set_locked true s)) ->
  deadlocks o (data_ s) = false -> spec o (data_ s) = Some d ->
  vector_step (data_ s) {| e_code := c; e_key := k; e_value := v; e_metadata := md |} = d ->
  outcome o s ((_ ← with_lock m; Publish c k v md) s).1 ((_ ← with_lock m; Publish c k v md) s).2.
Proof.
  intros Hl Hm H0 H1 H2. rewrite (bind_ok _ _ _ _ _ (with_lock_ok _ _ _ _ Hl Hm)).
  rewrite unlock_data, vector_publish_ok by done. by apply Changed.
Qed.

(** An exception under the lock. *)
Lemma vector_throw_outcome {A} o (s : t) (m : M t A) (f : A -> M t unit) e :
  wf s -> m (set_locked true s) = (Throw e, set_locked true s) ->
  (deadlocks o (data_ s) = false /\ spec o (data_ s) = None /\ (forall x, e <> Fault x)) \/
  (deadlocks o (data_ s) = true /\ e = Fault Deadlock) ->
  outcome o s ((with_lock m ≫= f) s).1 ((with_lock m ≫= f) s).2.
Proof.
  intros Hl Hm H. rewrite (bind_throw _ _ _ _ _ (with_lock_ok _ _ _ _ Hl Hm)), unlock by done.
  destruct H as [(H0 & H1 & H2)|[H0 ->] ]; [by apply Rejected|by apply Locked].
Qed.

Lemma vector_push_back_outcome k v m (s : t) :
  wf s -> small s -> outcome (OpPushBack k v m) s (PushBack k v m s).1 (PushBack k v m s).2.
Proof.
  intros Hl Hs. unfold PushBack, CheckValue, require. destruct (Empty v) eqn:E; simpl negb; cbn iota.
  { apply Rejected; simpl; by rewrite ?E. }
  rewrite (bind_lift_ok _ _ _ tt eq_refl).
  erewrite bind_ok; [|by apply with_lock_ok; [|reflexivity] ].
  cbn [data_ set_locked]. rewrite unlock_data by done. rewrite bind_get.
  rewrite vector_publish_ok by done. cbn [data_ set_data fst snd]. apply Changed; [done|simpl; by rewrite E|].
  unfold vector_step. cbn [e_code e_key e_value e_metadata]. rewrite length_app, Nat2Z.inj_add, Z.add_simpl_r.
  unfold small in Hs. rewrite i32_small by (unfold is_int, INT_MIN, INT_MAX; lia).
  unfold ListStorage.insert_position. rewrite Z.eqb_refl. destruct (data_ s) as [|x l] eqn:Ed; [done|].
  cbn [length]. ztest. simpl default. unfold ListStorage.insert_at.
  change (S (length l)) with (length (x :: l)). by rewrite firstn_all, drop_all.
Qed.

Lemma vector_push_front_outcome k v m (s : t) :
  wf s -> outcome (OpPushFront k v m) s (PushFront k v m s).1 (PushFront k v m s).2.
Proof.
  intros Hl. unfold PushFront, CheckValue, require. destruct (Empty v) eqn:E; simpl negb; cbn iota.
  { apply Rejected; simpl; by rewrite ?E. }
  rewrite (bind_lift_ok _ _ _ tt eq_refl).
  eapply vector_change_outcome; [done|reflexivity|done|simpl; by rewrite E|done].
Qed.

(** The element a pop removes, under the lock. *)
Lemma pop_run i v m x (s : t) :
  wf s -> data_ s !! i = Some x ->
  with_lock (_Pop i v m) s = (Ok (assign v (value x), assign m (metadata x)), set_data (delete i (data_ s)) s).
Proof.
  intros Hl Hx. erewrite with_lock_ok; [|done|unfold _Pop; rewrite bind_get; cbn [data_ set_locked];
    rewrite Hx, bind_modify; reflexivity]. by rewrite unlock_data.
Qed.

Lemma pop_back_run k v m x (s : t) :
  wf s -> last (data_ s) = Some x -> let i := (length (data_ s) - 1)%nat in
  let k' := assign k (Int (i32 (Z.of_nat (length (data_ s)) - 1))) in
  PopBack k v m s = (Ok (k', assign v (value x), assign m (metadata x)),
    after (delete i (data_ s))
      {| e_code := EVENT_CODE_DELETE; e_key := default TIONULL k';
         e_value := default TIONULL (assign v (value x)); e_metadata := default TIONULL (assign m (metadata x)) |} s).
Proof.
  intros Hl Hx i k'. rewrite last_lookup in Hx.
  replace (pred (length (data_ s))) with (length (data_ s) - 1)%nat in Hx by lia.
  pose proof (lookup_lt_Some _ _ _ Hx) as Hlen. unfold PopBack. rewrite bind_get.
  rewrite bool_decide_false by lia. cbn zeta.
  assert (E : with_lock (s ← get; _Pop (length (data_ s) - 1) v m) s = with_lock (_Pop i v m) s).
  { unfold with_lock. by rewrite Hl, bind_get. }
  rewrite (pop_run i v m x s Hl Hx) in E. mstep E. cbn iota beta. mstep (vector_publish_ok EVENT_CODE_DELETE
    (default TIONULL k') (default TIONULL (assign v (value x))) (default TIONULL (assign m (metadata x)))
    (delete i (data_ s)) s Hl). done.
Qed.

Lemma vector_pop_back_outcome k v m (s : t) :
  wf s -> small s -> outcome (OpPopBack k v m) s (run_op (OpPopBack k v m) s).1 (run_op (OpPopBack k v m) s).2.
Proof.
  intros Hl Hs. cbn [run_op Containers.PopBack vector_storage].
  destruct (last (data_ s)) as [x|] eqn:Ex.
  - mstep (pop_back_run (Some k) (Some v) (Some m) x s Hl Ex). cbn [fst snd mret M_ret].
    assert (Hne : data_ s <> []) by (by intros E; rewrite E in Ex).
    assert (Hlen : (0 < length (data_ s))%nat) by (destruct (data_ s); [done|simpl; lia]).
    unfold small in Hs. apply Changed; [done| |].
    + rewrite <- ListStorage.removelast_delete by done. simpl. by destruct (data_ s).
    + unfold vector_step. cbn [e_code e_key assign default from_option id].
      rewrite i32_small by (unfold is_int, INT_MIN, INT_MAX; lia).
      replace (Z.of_nat (length (data_ s)) - 1) with (Z.of_nat (length (data_ s) - 1)) by lia.
      unfold position. by rewrite ListStorage.position_int by lia.
  - apply last_None in Ex. assert (E : PopBack (Some k) (Some v) (Some m) s = (Throw (invalid_argument "empty"), s)).
    { unfold PopBack. rewrite bind_get, bool_decide_true by by rewrite Ex. done. }
    rewrite (bind_throw _ _ _ _ _ E). apply Rejected; simpl; by rewrite ?Ex.
Qed.

Lemma vector_pop_front_outcome k v m (s : t) :
  wf s -> outcome (OpPopFront k v m) s (run_op (OpPopFront k v m) s).1 (run_op (OpPopFront k v m) s).2.
Proof.
  intros Hl. cbn [run_op Containers.PopFront vector_storage]. destruct (data_ s) as [|x l] eqn:Ed.
  - assert (E : PopFront (Some k) (Some v) (Some m) s = (Throw (invalid_argument "empty"), s)).
    { unfold PopFront. rewrite bind_get, bool_decide_true by by rewrite Ed. done. }
    rewrite (bind_throw _ _ _ _ _ E). apply Rejected; simpl; by rewrite ?Ed.
  - assert (E : PopFront (Some k) (Some v) (Some m) s = (Ok (Some k, Some (value x), Some (metadata x)),
      after l {| e_code := EVENT_CODE_DELETE; e_key := Int 0; e_value := value x; e_metadata := metadata x |} s)).
    { unfold PopFront. rewrite bind_get, bool_decide_false by by rewrite Ed.
      mstep (pop_run 0 (Some v) (Some m) x s Hl ltac:(by rewrite Ed)). rewrite Ed. cbn iota beta.
      erewrite bind_ok; [|by apply vector_publish_ok]. done. }
    mstep E. cbn [fst snd mret M_ret]. apply Changed; [done|simpl; by rewrite Ed|].
    unfold vector_step. cbn [e_code e_key]. rewrite Ed. unfold position.
    assert (Ep : ListStorage.position (x :: l) (Int 0) = Some 0%nat) by (apply (ListStorage.position_int (x :: l) 0); simpl; lia).
    by rewrite Ep.
Qed.

Lemma vector_set_outcome key v m (s : t) :
  wf s -> small s -> key_ok key -> key <> Int INT_MIN ->
  outcome (OpSet key v m) s (Set_ key v m s).1 (Set_ key v m s).2.
Proof.
  intros Hl Hs Hk Hm. unfold Set_, CheckValue, require. destruct (Empty v) eqn:E; simpl negb; cbn iota.
  { apply Rejected; simpl; by rewrite ?E. }
  rewrite (bind_lift_ok _ _ _ tt eq_refl). pose proof (GetInternalRecord_vector _ _ Hs Hk Hm) as H.
  destruct (position (data_ s) key) as [i|] eqn:Ep.
  - destruct H as (x & Hx & E1). apply vector_change_outcome with (d := <[i := record v m]> (data_ s)).
    + done.
    + rewrite bind_get. cbn [data_ set_locked]. mstep E1. done.
    + done.
    + simpl. by rewrite E, Ep.
    + unfold vector_step. cbn [e_code e_key e_value e_metadata]. by rewrite Ep.
  - destruct H as (e & E1 & He). apply (vector_throw_outcome _ _ _ _ e); [done| |].
    + rewrite bind_get. cbn [data_ set_locked]. by rewrite (bind_lift_throw _ _ _ _ E1).
    + left. split; [done|]. split; [|done]. simpl. by rewrite E, Ep.
Qed.

Lemma vector_get_outcome key (s : t) :
  wf s -> small s -> key_ok key -> key <> Int INT_MIN ->
  outcome (OpGet key) s (run_op (OpGet key) s).1 (run_op (OpGet key) s).2.
Proof.
  intros Hl Hs Hk Hm. cbn [run_op Containers.GetRecord vector_storage]. unfold GetRecord.
  pose proof (GetInternalRecord_vector _ _ Hs Hk Hm) as H.
  destruct (position (data_ s) key) as [i|] eqn:Ep.
  - destruct H as (x & Hx & E1).
    erewrite bind_ok; [|apply with_lock_ok; [done|]; rewrite bind_get; cbn [data_ set_locked]; mstep E1; reflexivity].
    rewrite unlock by done. apply Unchanged; [done|]. simpl. by rewrite Ep.
  - destruct H as (e & E1 & He). apply (vector_throw_outcome _ _ _ _ e); [done| |].
    + rewrite bind_get. cbn [data_ set_locked]. by rewrite (bind_lift_throw _ _ _ _ E1).
    + left. split; [done|]. split; [|done]. simpl. by rewrite Ep.
Qed.

(** A locking operation with the lock held. *)
Lemma get_locked key k v m (s : t) : GetRecord key k v m (set_locked true s) = (Throw (Fault Deadlock), set_locked true s).
Proof. by apply with_lock_twice. Qed.

Lemma vector_insert_outcome key v m (s : t) :
  wf s -> small s -> key_ok key -> key <> Int INT_MIN ->
  outcome (OpInsert key v m) s (Insert key v m s).1 (Insert key v m s).2.
Proof.
  intros Hl Hs Hk Hm. unfold Insert, CheckValue, require. destruct (Empty v) eqn:E; simpl negb; cbn iota.
  { apply Rejected; simpl; by rewrite ?E. }
  rewrite (bind_lift_ok _ _ _ tt eq_refl). pose proof (GetRecordNumber_cases _ _ Hs Hk Hm) as H.
  destruct (numbered (data_ s) key) eqn:En.
  - destruct H as [n E1]. apply (vector_throw_outcome _ _ _ _ (Fault Deadlock)); [done| |].
    + rewrite bind_get. cbn [data_ set_locked]. mstep E1. by rewrite (bind_throw _ _ _ _ _ (get_locked _ _ _ _ _)).
    + right. simpl. by rewrite E, En.
  - destruct H as (e & E1 & He). apply (vector_throw_outcome _ _ _ _ e); [done| |].
    + rewrite bind_get. cbn [data_ set_locked]. by rewrite (bind_lift_throw _ _ _ _ E1).
    + left. simpl. by rewrite E, En, (position_numbered _ _ En).
Qed.

Lemma vector_delete_outcome key v m (s : t) :
  wf s -> small s -> key_ok key -> key <> Int INT_MIN ->
  outcome (OpDelete key v m) s (Delete key v m s).1 (Delete key v m s).2.
Proof.
  intros Hl Hs Hk Hm. unfold Delete. rewrite bind_get. pose proof (GetRecordNumber_cases _ _ Hs Hk Hm) as H.
  destruct (numbered (data_ s) key) eqn:En.
  - destruct H as [n E1]. mstep E1. apply (vector_throw_outcome _ _ _ _ (Fault Deadlock)); [done| |].
    + by rewrite (bind_throw _ _ _ _ _ (get_locked _ _ _ _ _)).
    + right. by simpl.
  - destruct H as (e & E1 & He). rewrite (bind_lift_throw _ _ _ _ E1). apply Rejected; [done| |done].
    simpl. by rewrite (position_numbered _ _ En).
Qed.

Lemma vector_run_op_outcome o (s : t) :
  wf s -> small s -> op_ok o -> ~ int_min_key o -> outcome o s (run_op o s).1 (run_op o s).2.
Proof.
  intros Hl Hs Ho Hm. destruct o.
  - by apply vector_push_back_outcome.
  - by apply vector_push_front_outcome.
  - by apply vector_pop_back_outcome.
  - by apply vector_pop_front_outcome.
  - by apply vector_set_outcome.
  - by apply vector_insert_outcome.
  - by apply vector_delete_outcome.
  - by apply vector_change_outcome with (d := []).
  - by apply vector_get_outcome.
  - apply (vector_throw_outcome (OpQuery start end_) s _ _ (Fault Deadlock)); [done| |by right].
    apply bind_throw. by apply with_lock_twice.
Qed.

(** With the key [INT_MIN] a command throws or overflows. *)
Lemma int_min_run o (s : t) :
  wf s -> int_min_key o -> exists e s', run_op o s = (Throw e, s') /\ ((forall f, e <> Fault f) -> s' = s).
Proof.
  intros Hl Hm. assert (E : GetRecordNumber_key (data_ s) (Int INT_MIN) = Throw (Fault SignedOverflow)) by done.
  assert (Ei : GetInternalRecord (data_ s) (Int INT_MIN) = Throw (Fault SignedOverflow)) by done.
  destruct o as [| | | |key v m|key v m|key v m| |key|]; simpl in Hm; try done; subst key;
    cbn [run_op vector_storage Containers.Set_ Containers.Insert Containers.Delete Containers.GetRecord].
  - unfold Set_, CheckValue, require. destruct (Empty v); simpl negb; cbn iota; [by do 2 eexists|].
    rewrite (bind_lift_ok _ _ _ tt eq_refl).
    erewrite bind_throw; [|apply with_lock_ok; [done|]; rewrite bind_get; cbn [data_ set_locked];
      rewrite (bind_lift_throw _ _ _ _ Ei); reflexivity]. do 2 eexists. split; [done|]. intros Hf. by destruct (Hf SignedOverflow).
  - unfold Insert, CheckValue, require. destruct (Empty v); simpl negb; cbn iota; [by do 2 eexists|].
    rewrite (bind_lift_ok _ _ _ tt eq_refl).
    erewrite bind_throw; [|apply with_lock_ok; [done|]; rewrite bind_get; cbn [data_ set_locked];
      rewrite (bind_lift_throw _ _ _ _ E); reflexivity]. do 2 eexists. split; [done|]. intros Hf. by destruct (Hf SignedOverflow).
  - unfold Delete. rewrite bind_get, (bind_lift_throw _ _ _ _ E). by do 2 eexists.
  - unfold GetRecord. erewrite bind_throw; [|apply with_lock_ok; [done|]; rewrite bind_get; cbn [data_ set_locked];
      rewrite (bind_lift_throw _ _ _ _ Ei); reflexivity]. do 2 eexists. split; [done|]. intros Hf. by destruct (Hf SignedOverflow).
Qed.

#[export] Instance int_min_key_dec o : Decision (int_min_key o).
Proof. destruct o; simpl; apply _. Defined.

(** A command that does not fault changes nothing, or makes one change and
    publishes it. *)
Inductive effect (s : t) : t -> Prop :=
| NoEffect : effect s s
| OneEvent e d : vector_step (data_ s) e = d -> (length d <= S (length (data_ s)))%nat -> effect s (after d e s).

Lemma vector_spec_length o d d' : spec o d = Some d' -> (length d' <= S (length d))%nat.
Proof.
  destruct o as [k v m|k v m|k v m|k v m|key v m|key v m|key v m| |key|a b]; cbn [spec].
  - destruct (Empty v); [done|]. intros [= <-]. len.
  - destruct (Empty v); [done|]. intros [= <-]. len.
  - intros H. assert (Hd : d' = removelast d) by (destruct d; congruence).
    rewrite Hd, removelast_firstn_len, length_take. lia.
  - destruct d as [|x l]; [done|]. intros [= <-]. len.
  - destruct (Empty v); [done|]. intros (i & _ & [= <-])%bind_Some. len.
  - destruct (Empty v); [done|]. intros (i & _ & [= <-])%bind_Some. unfold ListStorage.insert_at. len.
  - intros (i & Hi & [= <-])%bind_Some.
    rewrite length_delete by (apply lookup_lt_is_Some_2; by eapply ListStorage.position_bound). lia.
  - intros [= <-]. simpl. lia.
  - intros (i & _ & [= <-])%bind_Some. lia.
  - intros [= <-]. lia.
Qed.

Lemma run_op_effect o (s : t) :
  wf s -> small s -> op_ok o ->
  match run_op o s with
  | (Ok _, s') => effect s s'
  | (Throw (Fault _), _) => True
  | (Throw _, s') => s' = s
  end.
Proof.
  intros Hl Hs Ho. destruct (decide (int_min_key o)) as [Hm|Hm].
  - destruct (int_min_run o s Hl Hm) as (e & s' & -> & H). destruct e; try done; by apply H.
  - pose proof (vector_run_op_outcome o s Hl Hs Ho Hm) as H. destruct (run_op o s) as [r s']. simpl in H.
    destruct H as [d e _ Hd He|_ Hd|e _ Hd He|s' _].
    + apply OneEvent; [done|]. by eapply vector_spec_length.
    + constructor.
    + by destruct e.
    + done.
Qed.

Lemma vector_stays_small_intro os : forall s : t,
  wf s -> Forall op_ok os -> Z.of_nat (length (data_ s) + length os) < 2 ^ 31 -> stays_small small os s.
Proof.
  induction os as [|o os IH]; intros s Hl Hok Hsz n s1 Hrun; unfold small.
  - rewrite take_nil in Hrun. injection Hrun as <-. lia.
  - apply Forall_cons in Hok as [Ho Hok]. simpl in Hsz. destruct n as [|n]; [injection Hrun as <-; lia|].
    simpl in Hrun. pose proof (run_op_effect o s Hl ltac:(unfold small; lia) Ho) as H.
    destruct (run_op o s) as [ [u|e] s2].
    + destruct H as [|e d _ Hd]; [apply (IH s Hl Hok ltac:(lia) n s1 Hrun)|].
      refine (IH _ (vector_wf_after d e s Hl) Hok _ n s1 Hrun). rewrite vector_data_after. lia.
    + destruct e; try done; subst s2; apply (IH s Hl Hok ltac:(lia) n s1 Hrun).
Qed.

Definition subscribed (s : t) : Prop := wf s /\ sink_ s = true.

(** What the vector storage promises its subscribers. *)
#[export] Instance vector_replicates : Replicates t DataContainerT subscribed small data_ published vector_step.
Proof.
  split. intros o s r s' [Hl Hsub] Hs Ho E. pose proof (run_op_effect o s Hl Hs Ho) as H. rewrite E in H.
  destruct r as [u|e].
  - destruct H as [|e d Hd _]; [split; [done|]; exists []; by rewrite app_nil_r|].
    unfold after, subscribed. simpl. rewrite Hsub. split; [done|]. exists [e]. by simpl.
  - destruct e; try done; by subst s'.
Qed.

(** Commands keep the name, the type, the subscriber and the lock. *)
Lemma vector_framed o : framed (D := DataContainerT) (run_op (S := t) o).
Proof.
  destruct o; cbn [run_op vector_storage Containers.PushBack Containers.PushFront Containers.PopBack Containers.PopFront
    Containers.Set_ Containers.Insert Containers.Delete Containers.Clear Containers.GetRecord Containers.Query];
    unfold _Pop, Publish, PushBack, PushFront, PopBack, PopFront, Set_, Insert, Delete, Clear, GetRecord, Query, GetRecordCount; solve_framed.
Qed.

(** ** Properties *)

(** C37. The vector container, as far as it returns.  A command with a key other
    than [INT_MIN] either takes the mutex twice and never returns ([deadlocks]
    says when), or gives exactly the vector the specification gives, or throws
    and leaves the storage as it was.  The revision number never changes. *)
Theorem vector_refines_spec o (s : t) :
  wf s -> small s -> op_ok o -> ~ int_min_key o ->
  if deadlocks o (data_ s) then (run_op o s).1 = Throw (Fault Deadlock)
  else match spec o (data_ s) with
       | Some d => (run_op o s).1 = Ok tt /\ data_ (run_op o s).2 = d /\ revNum_ (run_op o s).2 = revNum_ s
       | None => (exists e, (run_op o s).1 = Throw e /\ forall f, e <> Fault f) /\ (run_op o s).2 = s
       end.
Proof.
  intros Hl Hs Ho Hm. destruct (vector_run_op_outcome o s Hl Hs Ho Hm) as [d e H0 Hd He|H0 Hd|e H0 Hd He|s' H0];
    rewrite H0, ?Hd.
  - by rewrite vector_data_after, revNum_after.
  - done.
  - split; [by exists e|done].
  - done.
Qed.

(** Subscribers can rebuild the vector: a replica that starts as a copy and
    applies the published events ends equal to it, over any run that does not
    fault; both pushes are published as insertions. *)
Theorem vector_replica os (s s' : t) :
  subscribed s -> Z.of_nat (length (data_ s) + length os) < 2 ^ 31 -> Forall op_ok os ->
  run_ops os s = Some s' ->
  exists evs, published s' = published s ++ evs /\ data_ s' = fold_left vector_step evs (data_ s).
Proof.
  intros H1 H2 H3 H4.
  by destruct (replica_follows os s s' H1 (vector_stays_small_intro os s (proj1 H1) H3 H2) H3 H4).
Qed.

(** Inserting into a vector, deleting from it and querying it never return.
    For any record that is in the vector, [insert] before it and [delete] of it
    lock the mutex that they already hold, and so does any query. *)
Theorem vector_insert_delete_query_deadlock k v m a b (s : t) :
  wf s -> small s -> Empty v = false -> 0 <= k < Z.of_nat (length (data_ s)) ->
  (Insert (Int k) v m s).1 = Throw (Fault Deadlock) /\
  (Delete (Int k) v m s).1 = Throw (Fault Deadlock) /\
  (Query a b None_ s).1 = Throw (Fault Deadlock).
Proof.
  intros Hl Hs Hv Hk. unfold small in Hs.
  assert (Hkk : key_ok (Int k)) by (unfold key_ok, is_int, INT_MIN, INT_MAX; lia).
  assert (Hkm : Int k <> Int INT_MIN) by (unfold INT_MIN; intros [= ->]; lia).
  assert (Hn : numbered (data_ s) (Int k) = true) by (simpl; apply Z.leb_le; lia).
  split; [|split].
  - pose proof (vector_insert_outcome (Int k) v m s Hl Hs Hkk Hkm) as H.
    destruct (Insert (Int k) v m s) as [r s1]. simpl in H |- *.
    destruct H as [d e H0|H0|e H0|s' H0]; cbn [deadlocks] in H0; by rewrite ?Hv, ?Hn in H0.
  - pose proof (vector_delete_outcome (Int k) v m s Hl Hs Hkk Hkm) as H.
    destruct (Delete (Int k) v m s) as [r s1]. simpl in H |- *.
    destruct H as [d e H0|H0|e H0|s' H0]; cbn [deadlocks] in H0; by rewrite ?Hn in H0.
  - unfold Query. cbn [IsNull GetDataType negb Z.eqb].
    erewrite with_lock_ok; [|done|apply bind_throw; by apply with_lock_twice]. done.
Qed.

(** ** Witnesses *)

Definition ex_vector : t :=
  mk_storage (ListStorage.ex_record <$> [1; 2; 3]) (lit "v") (lit "volatile_vector") true 0 false [].

Lemma vector_refines_spec_witness :
  (run_op (OpSet (Int (-1)) (Int 9) None_) ex_vector).1 = Ok tt /\
  data_ (run_op (OpSet (Int (-1)) (Int 9) None_) ex_vector).2 = ListStorage.ex_record <$> [1; 2; 9] /\
  revNum_ (run_op (OpSet (Int (-1)) (Int 9) None_) ex_vector).2 = 0.
Proof.
  apply (vector_refines_spec (OpSet (Int (-1)) (Int 9) None_) ex_vector).
  - reflexivity.
  - reflexivity.
  - unfold op_ok, key_ok, is_int, INT_MIN, INT_MAX. lia.
  - discriminate.
Defined.

Definition ex_ops : list op :=
  [ OpPushBack None_ (Int 50) None_; OpSet (Int 7) (Int 1) None_; OpSet (Int (-2)) (Int 41) None_;
    OpPopFront None_ None_ None_; OpPushFront None_ (Int 25) None_; OpPopBack None_ None_ None_ ].

Lemma vector_replica_witness :
  exists s' evs, run_ops ex_ops ex_vector = Some s' /\ published s' = [] ++ evs /\
    data_ s' = fold_left vector_step evs (data_ ex_vector).
Proof.
  destruct (run_ops ex_ops ex_vector) as [s'|] eqn:E; [|vm_compute in E; discriminate E].
  destruct (vector_replica ex_ops ex_vector s') as (evs & Hp & Hd).
  - split; reflexivity.
  - vm_compute. reflexivity.
  - repeat constructor; unfold op_ok, key_ok, is_int, INT_MIN, INT_MAX; lia.
  - exact E.
  - exists s', evs. split; [reflexivity|]. split; [exact Hp|exact Hd].
Defined.

Lemma vector_insert_delete_query_deadlock_witness :
  (Insert (Int 1) (Int 5) None_ ex_vector).1 = Throw (Fault Deadlock) /\
  (Delete (Int 1) (Int 5) None_ ex_vector).1 = Throw (Fault Deadlock) /\
  (Query 0 0 None_ ex_vector).1 = Throw (Fault Deadlock).
Proof.
  apply (vector_insert_delete_query_deadlock 1 (Int 5) None_ 0 0 ex_vector);
    [reflexivity|reflexivity|reflexivity|vm_compute; split; [discriminate|reflexivity]].
Defined.

End VectorStorage.
