(* ===== verification/MemoryStorage.v ===== *)
(** * Storages in memory: [server/tio/MemoryStorage.h], [MemoryPropertyMap.h]

    The manager of the volatile containers.  It keeps a map from
    [type/name] to shared pointers to a storage and its property map; the
    objects live in a heap of their own, so that a container created, opened
    twice or kept after a deletion is one object.  [AnyStorage] is the dynamic
    type behind an [ITioStorage*]. *)
From S2P Require Import Prelude Decimal StdMap TioDataS Containers ListStorage MapStorage VectorStorage.

Module MemoryStorage.
Import Decimal StdMap TioData Containers.

(** ** Dynamic types *)

Inductive AnyStorage :=
| AnyVector (s : VectorStorage.t)
| AnyMap (s : MapStorage.t)
| AnyList (s : ListStorage.t).

(** A virtual call. *)
Definition dispatch {A} (m : forall S, ITioStorage S -> M S A) : M AnyStorage A := fun a =>
  match a with
  | AnyVector s => let '(r, s) := m _ VectorStorage.vector_storage s in (r, AnyVector s)
  | AnyMap s => let '(r, s) := m _ MapStorage.map_storage s in (r, AnyMap s)
  | AnyList s => let '(r, s) := m _ ListStorage.list_storage s in (r, AnyList s)
  end.

#[export] Instance any_storage : ITioStorage AnyStorage := {
  GetRecordCount := dispatch (fun _ _ => GetRecordCount);
  PushBack k v m := dispatch (fun _ _ => PushBack k v m);
  PushFront k v m := dispatch (fun _ _ => PushFront k v m);
  PopBack k v m := dispatch (fun _ _ => PopBack k v m);
  PopFront k v m := dispatch (fun _ _ => PopFront k v m);
  GetRecord sk k v m := dispatch (fun _ _ => GetRecord sk k v m);
  Set_ k v m := dispatch (fun _ _ => Set_ k v m);
  Insert k v m := dispatch (fun _ _ => Insert k v m);
  Delete k v m := dispatch (fun _ _ => Delete k v m);
  Clear := dispatch (fun _ _ => Clear);
  Query a b q := dispatch (fun _ _ => Query a b q);
  GetRevNum := dispatch (fun _ _ => GetRevNum);
  Command c := dispatch (fun _ _ => Command c);
  SetSubscriber b := dispatch (fun _ _ => SetSubscriber b);
  RemoveSubscriber := dispatch (fun _ _ => RemoveSubscriber)
}.

Definition any_name (a : AnyStorage) : bytes :=
  match a with AnyVector s => name_ s | AnyMap s => name_ s | AnyList s => name_ s end.
Definition any_type (a : AnyStorage) : bytes :=
  match a with AnyVector s => type_ s | AnyMap s => type_ s | AnyList s => type_ s end.
Definition any_sink (a : AnyStorage) : bool :=
  match a with AnyVector s => sink_ s | AnyMap s => sink_ s | AnyList s => sink_ s end.

(** ** Objects *)

Notation loc := nat (only parsing).

(** [specialPropertiesMap_] is the map storage itself, or NULL. *)
Record MemoryPropertyMap := { specialPropertiesMap_ : option loc; properties : list (bytes * bytes) }.

Record heap := { storages : gmap loc AnyStorage; propertyMaps : gmap loc MemoryPropertyMap; next : loc }.

Record StorageInfoEx := { storage : option loc; propertyMap : option loc; name : bytes; type : bytes }.

Record MemoryStorageManager := mk_manager {
  containers_ : list (bytes * StorageInfoEx); manager_sink_ : bool; objects : heap
}.

Definition set_containers c m := mk_manager c (manager_sink_ m) (objects m).
Definition set_manager_sink b m := mk_manager (containers_ m) b (objects m).
Definition set_objects h m := mk_manager (containers_ m) (manager_sink_ m) h.

(** A call through a [shared_ptr<ITioStorage>]. *)
Definition call {A} (p : option loc) (m : M AnyStorage A) : M MemoryStorageManager A := fun s =>
  match p with
  | None => (Throw (Fault NullDeref), s)
  | Some l =>
      match storages (objects s) !! l with
      | None => (Throw (Fault UseAfterFree), s)
      | Some a =>
          let '(r, a) := m a in
          (r, set_objects {| storages := <[l := a]> (storages (objects s));
                             propertyMaps := propertyMaps (objects s); next := next (objects s) |} s)
      end
  end.

(** ** [MemoryPropertyMap] *)

(** [key.size() > 2 && key[0] == '_' && key[1] == '_'] *)
Definition is_special (key : bytes) : bool :=
  bool_decide (2 < length key)%nat && bool_decide (take 2 key = lit "__").

Definition GetProperty (p : loc) (key : bytes) : M MemoryStorageManager bytes :=
  s ← get;
  match propertyMaps (objects s) !! p with
  | None => throw (Fault UseAfterFree)
  | Some pm =>
      let own :=
        match find key (properties pm) with
        | Some v => mret v
        | None => throw (invalid_argument "key not found")
        end in
      match specialPropertiesMap_ pm with
      | Some l =>
          if is_special key then
            match storages (objects s) !! l with
            | Some (AnyMap ms) =>
                let '(r, ms) := MapStorage.GetSpecial key ms in
                _ ← call (Some l) (fun _ => (Ok tt, AnyMap ms)); lift r
            | _ => throw (Fault UseAfterFree)
            end
          else own
      | None => own
      end
  end.

Definition SetProperty (p : loc) (key v : bytes) : M MemoryStorageManager unit :=
  s ← get;
  match propertyMaps (objects s) !! p with
  | None => throw (Fault UseAfterFree)
  | Some pm =>
      let pm := {| specialPropertiesMap_ := specialPropertiesMap_ pm;
                   properties := assign_at key v (properties pm) |} in
      modify (set_objects {| storages := storages (objects s);
        propertyMaps := <[p := pm]> (propertyMaps (objects s)); next := next (objects s) |})
  end.

(** ** [MemoryStorageManager] *)

(** The two objects of a new container; [special] when the property map is given
    the storage. *)
Definition new_objects (a : AnyStorage) (special : bool) : M MemoryStorageManager (option loc * option loc) :=
  s ← get;
  let l := next (objects s) in
  let pm := {| specialPropertiesMap_ := if special then Some l else None; properties := [] |} in
  _ ← modify (set_objects {| storages := <[l := a]> (storages (objects s));
        propertyMaps := <[l := pm]> (propertyMaps (objects s)); next := S l |});
  mret (Some l, Some l).

Definition CreateVectorStorage (name type : bytes) := new_objects (AnyVector (VectorStorage.make name type)) false.
Definition CreateMapStorage (name type : bytes) := new_objects (AnyMap (MapStorage.make name type)) true.
Definition CreateListStorage (name type : bytes) := new_objects (AnyList (ListStorage.make name type)) false.

Definition supportedTypes_ : list (bytes * (bytes -> bytes -> M MemoryStorageManager (option loc * option loc))) :=
  assign_at (lit "volatile_list") CreateListStorage
    (assign_at (lit "volatile_map") CreateMapStorage
      (assign_at (lit "volatile_vector") CreateVectorStorage [])).

Definition make : MemoryStorageManager :=
  mk_manager [] false {| storages := ∅; propertyMaps := ∅; next := 0%nat |}.

Definition GetSupportedTypes : list bytes := fst <$> supportedTypes_.

Definition GenerateName (containerType containerName : bytes) : bytes :=
  containerType ++ lit "/" ++ containerName.

(** The static counter is never incremented. *)
Definition nameless : Z := 0.
Definition GenerateNamelessName : bytes := lit "__nameless" ++ print_int nameless ++ lit "__".

Definition Exists (containerType containerName : bytes) (m : MemoryStorageManager) : bool :=
  match find (GenerateName containerType containerName) (containers_ m) with Some _ => true | None => false end.

Definition DeleteStorage (containerType containerName : bytes) : M MemoryStorageManager unit :=
  s ← get;
  let n := GenerateName containerType containerName in
  match find n (containers_ s) with
  | None => throw (invalid_argument "no such data container")
  | Some _ => modify (set_containers (erase n (containers_ s)))
  end.

Definition not_supported : exn := invalid_argument "storage type not supported".

(** [containers_[k]] adds a default entry when there is none. *)
Definition no_info : StorageInfoEx := {| storage := None; propertyMap := None; name := []; type := [] |}.

Definition CreateStorage (type name : bytes) : M MemoryStorageManager (option loc * option loc) :=
  match find type supportedTypes_ with
  | None => throw not_supported
  | Some create =>
      let actualName := if bool_decide (name = []) then GenerateNamelessName else name in
      let n := GenerateName type actualName in
      s ← get;
      let info := default no_info (find n (containers_ s)) in
      _ ← modify (set_containers (assign_at n info (containers_ s)));
      ret ←
        match storage info with
        | None =>
            ret ← create actualName type;
            s ← get;
            _ ← modify (set_containers (assign_at n
                  {| storage := ret.1; propertyMap := ret.2; name := name; type := type |} (containers_ s)));
            mret ret
        | Some _ => mret (storage info, propertyMap info)
        end;
      s ← get;
      _ ← call ret.1 (SetSubscriber (manager_sink_ s));
      mret ret
  end.

Definition OpenStorage (type name : bytes) : M MemoryStorageManager (option loc * option loc) :=
  match find type supportedTypes_ with
  | None => throw not_supported
  | Some _ =>
      s ← get;
      match find (type ++ lit "/" ++ name) (containers_ s) with
      | None => throw (invalid_argument "no such data storage")
      | Some info =>
          _ ← call (storage info) (SetSubscriber (manager_sink_ s));
          mret (storage info, propertyMap info)
      end
  end.

(** [for (auto& v : containers_) v.second.storage->SetSubscriber(sink)] *)
Fixpoint subscribe_all (sink : bool) (l : list (bytes * StorageInfoEx)) : M MemoryStorageManager unit :=
  match l with
  | [] => mret tt
  | (_, info) :: l => _ ← call (storage info) (SetSubscriber sink); subscribe_all sink l
  end.

Definition ManagerSetSubscriber (sink : bool) : M MemoryStorageManager unit :=
  _ ← modify (set_manager_sink sink);
  s ← get;
  subscribe_all sink (containers_ s).

Definition ManagerRemoveSubscriber : M MemoryStorageManager unit :=
  _ ← modify (set_manager_sink false);
  s ← get;
  subscribe_all false (containers_ s).

(** The [StorageInfo] part of each entry, in the order of the keys. *)
Definition GetStorageList (m : MemoryStorageManager) : list (bytes * bytes) :=
  (fun p => (name (snd p), type (snd p))) <$> containers_ m.

(** ** Names *)

Definition actual_name (n : bytes) : bytes := if bool_decide (n = []) then GenerateNamelessName else n.

(** Types have no slash, so the first slash of a full name ends the type. *)
Lemma GenerateName_inj t1 n1 t2 n2 :
  Forall (fun b => b <> x2f) t1 -> Forall (fun b => b <> x2f) t2 ->
  GenerateName t1 n1 = GenerateName t2 n2 -> t1 = t2 /\ n1 = n2.
Proof.
  unfold GenerateName. intros H1. revert t2. induction H1 as [|b t1 Hb H1 IH]; intros t2 H2 E.
  - destruct H2 as [|c t2 Hc H2]; simpl in E; [by simplify_eq|]. by injection E as <- _.
  - destruct H2 as [|c t2 Hc H2]; simpl in E; [by injection E as -> _|].
    injection E as -> E. destruct (IH t2 H2 E) as [-> ->]. done.
Qed.

(** ** What each type is created as *)

Definition fresh (type name : bytes) : option (AnyStorage * bool) :=
  if decide (type = lit "volatile_list") then Some (AnyList (ListStorage.make name type), false)
  else if decide (type = lit "volatile_map") then Some (AnyMap (MapStorage.make name type), true)
  else if decide (type = lit "volatile_vector") then Some (AnyVector (VectorStorage.make name type), false)
  else None.

Lemma find_supported type :
  (find type supportedTypes_ = None /\ forall n, fresh type n = None) \/
  (exists c, find type supportedTypes_ = Some c /\
     forall n, exists a sp, fresh type n = Some (a, sp) /\ c n type = new_objects a sp).
Proof.
  unfold supportedTypes_. rewrite !find_assign. unfold fresh.
  destruct (decide (lit "volatile_list" = type)) as [<-|H1].
  { right. eexists. split; [done|]. intros n. rewrite decide_True by done. by do 2 eexists. }
  destruct (decide (lit "volatile_map" = type)) as [<-|H2].
  { right. eexists. split; [done|]. intros n. rewrite decide_False, decide_True by done. by do 2 eexists. }
  destruct (decide (lit "volatile_vector" = type)) as [<-|H3].
  { right. eexists. split; [done|]. intros n. rewrite !decide_False, decide_True by done. by do 2 eexists. }
  left. split; [done|]. intros n. by rewrite !decide_False by congruence.
Qed.

Definition any_locked (a : AnyStorage) : bool :=
  match a with AnyVector s => locked s | AnyMap s => locked s | AnyList s => locked s end.

Definition any_empty (a : AnyStorage) : Prop :=
  match a with AnyVector s => data_ s = [] | AnyMap s => data_ s = [] | AnyList s => data_ s = [] end.

Lemma fresh_ok type n a sp :
  fresh type n = Some (a, sp) ->
  any_locked a = false /\ any_sink a = false /\ any_name a = n /\ any_type a = type /\ any_empty a /\
  Forall (fun b => b <> x2f) type /\ sp = match a with AnyMap _ => true | _ => false end.
Proof.
  unfold fresh. repeat case_decide; intros H'; simplify_eq; repeat split; repeat constructor; done.
Qed.

(** ** Subscribing one storage *)

Definition any_set_sink (b : bool) (a : AnyStorage) : AnyStorage :=
  match a with
  | AnyVector s => AnyVector (set_sink b s) | AnyMap s => AnyMap (set_sink b s) | AnyList s => AnyList (set_sink b s)
  end.

Lemma set_subscriber_any b a : any_locked a = false -> SetSubscriber b a = (Ok tt, any_set_sink b a).
Proof.
  destruct a as [s|s|s]; simpl; intros Hl.
  - unfold VectorStorage.SetSubscriber, with_lock, modify. rewrite Hl. by destruct s; simpl in *; subst.
  - unfold MapStorage.SetSubscriber, with_lock, modify. rewrite Hl. by destruct s; simpl in *; subst.
  - done.
Qed.

Lemma any_set_sink_id a : any_set_sink (any_sink a) a = a.
Proof. by destruct a as [ [] | [] | [] ]. Qed.

Lemma any_set_sink_fields b a :
  any_locked (any_set_sink b a) = any_locked a /\ any_sink (any_set_sink b a) = b /\
  any_name (any_set_sink b a) = any_name a /\ any_type (any_set_sink b a) = any_type a.
Proof. by destruct a. Qed.

(** ** The invariant of the manager *)

(** Only the property map of a map has special properties, those of the map. *)
Definition special_of (l : loc) (a : AnyStorage) : option loc :=
  match a with AnyMap _ => Some l | _ => None end.

Definition entry_ok (m : MemoryStorageManager) (k : bytes) (info : StorageInfoEx) : Prop :=
  exists l a, storage info = Some l /\ propertyMap info = Some l /\ (l < next (objects m))%nat /\
    storages (objects m) !! l = Some a /\
    (exists pm, propertyMaps (objects m) !! l = Some pm /\ specialPropertiesMap_ pm = special_of l a) /\
    any_locked a = false /\ any_sink a = manager_sink_ m /\
    k = GenerateName (any_type a) (any_name a) /\ any_type a = type info /\
    any_name a = actual_name (name info) /\ Forall (fun b => b <> x2f) (any_type a).

(** Entries are complete, name their own storage, and have its subscriber. *)
Record wf (m : MemoryStorageManager) : Prop := {
  wf_sorted : sorted (containers_ m);
  wf_entries : forall k info, find k (containers_ m) = Some info -> entry_ok m k info
}.

(** Two entries with one storage are one entry. *)
Lemma wf_distinct m k1 k2 i1 i2 :
  wf m -> find k1 (containers_ m) = Some i1 -> find k2 (containers_ m) = Some i2 ->
  storage i1 = storage i2 -> k1 = k2.
Proof.
  intros Hwf H1 H2 E. destruct (wf_entries m Hwf _ _ H1) as (l1 & a1 & S1 & _ & _ & A1 & _ & _ & _ & K1 & _).
  destruct (wf_entries m Hwf _ _ H2) as (l2 & a2 & S2 & _ & _ & A2 & _ & _ & _ & K2 & _). congruence.
Qed.

Lemma set_objects_id (m : MemoryStorageManager) l a :
  storages (objects m) !! l = Some a ->
  set_objects {| storages := <[l := a]> (storages (objects m));
                 propertyMaps := propertyMaps (objects m); next := next (objects m) |} m = m.
Proof. intros H. destruct m as [c b [st pm nx] ]; simpl in *. unfold set_objects. simpl. by rewrite insert_id. Qed.

Lemma call_subscriber l a b (m : MemoryStorageManager) :
  storages (objects m) !! l = Some a -> any_locked a = false ->
  call (Some l) (SetSubscriber b) m =
    (Ok tt, set_objects {| storages := <[l := any_set_sink b a]> (storages (objects m));
                           propertyMaps := propertyMaps (objects m); next := next (objects m) |} m).
Proof. intros H1 H2. unfold call. by rewrite H1, set_subscriber_any. Qed.

(** Subscribing a storage of the manager again changes nothing. *)
Lemma call_subscriber_same m k info :
  wf m -> find k (containers_ m) = Some info ->
  call (storage info) (SetSubscriber (manager_sink_ m)) m = (Ok tt, m).
Proof.
  intros Hwf Hk. destruct (wf_entries m Hwf _ _ Hk) as (l & a & S1 & _ & _ & A1 & _ & L1 & K1 & _).
  rewrite S1, (call_subscriber l a) by done. rewrite <- K1, any_set_sink_id. by rewrite set_objects_id.
Qed.

(** ** Creating *)

Definition full_name (type name : bytes) : bytes := GenerateName type (actual_name name).

(** The manager after the storage [a] was created for [type] and [name]. *)
Definition created (type name : bytes) (a : AnyStorage) (sp : bool) (m : MemoryStorageManager) : MemoryStorageManager :=
  let l := next (objects m) in
  mk_manager
    (assign_at (full_name type name)
       {| storage := Some l; propertyMap := Some l; name := name; type := type |} (containers_ m))
    (manager_sink_ m)
    {| storages := <[l := any_set_sink (manager_sink_ m) a]> (storages (objects m));
       propertyMaps := <[l := {| specialPropertiesMap_ := if sp then Some l else None; properties := [] |}]>
         (propertyMaps (objects m));
       next := S l |}.

Lemma create_existing type name a sp info m :
  wf m -> fresh type (actual_name name) = Some (a, sp) ->
  find (full_name type name) (containers_ m) = Some info ->
  CreateStorage type name m = (Ok (storage info, propertyMap info), m).
Proof.
  intros Hwf Hf Hi. unfold CreateStorage. destruct (find_supported type) as [ [_ H]|(c & -> & _)]; [by rewrite H in Hf|].
  cbn zeta. fold (actual_name name). fold (full_name type name). rewrite bind_get, Hi. cbn [default from_option id].
  rewrite bind_modify, assign_id by (done || apply Hwf).
  replace (set_containers (containers_ m) m) with m by by destruct m.
  destruct (storage info) as [l|] eqn:Es; [|by destruct (wf_entries m Hwf _ _ Hi) as (? & ? & ? & _); congruence].
  rewrite (bind_ok _ _ _ (Some l, propertyMap info) m eq_refl), bind_get. cbn [fst].
  rewrite <- Es. erewrite bind_ok; [|by eapply call_subscriber_same]. done.
Qed.

Lemma create_new type name a sp m :
  fresh type (actual_name name) = Some (a, sp) ->
  find (full_name type name) (containers_ m) = None ->
  CreateStorage type name m =
    (Ok (Some (next (objects m)), Some (next (objects m))), created type name a sp m).
Proof.
  intros Hf Hi. unfold CreateStorage. destruct (find_supported type) as [ [_ H]|(c & -> & Hc)]; [by rewrite H in Hf|].
  cbn zeta. fold (actual_name name). fold (full_name type name). rewrite bind_get, Hi.
  cbn [default from_option no_info storage]. rewrite bind_modify.
  destruct (Hc (actual_name name)) as (a' & sp' & Ha & Ec). rewrite Ha in Hf. injection Hf as -> ->. rewrite Ec.
  destruct (fresh_ok _ _ _ _ Ha) as (Hl & _).
  erewrite bind_ok; [|unfold new_objects, mbind, M_bind, get, modify, mret, M_ret; simpl; reflexivity].
  rewrite bind_get. cbn [fst]. erewrite bind_ok; [|apply call_subscriber; [apply lookup_insert_eq|done] ].
  unfold created, set_objects, set_containers. cbn. by rewrite insert_insert_eq, assign_assign.
Qed.

(** Entries of other storages do not notice a new object. *)
Lemma entry_created type name a sp m k info :
  entry_ok m k info -> entry_ok (created type name a sp m) k info.
Proof.
  intros (l & b & H1 & H2 & Hlt & H3 & H4 & H5 & H6). exists l, b. simpl.
  rewrite !lookup_insert_ne by lia. repeat (split; [done || lia|]). done.
Qed.

Lemma wf_created type name a sp m :
  wf m -> fresh type (actual_name name) = Some (a, sp) -> wf (created type name a sp m).
Proof.
  intros [Hs He] Hf. split; [by apply sorted_assign|]. intros k info. cbn [containers_ created]. rewrite find_assign.
  case_decide as E; [|intros Hk; by apply entry_created, He]. intros [= <-]. subst k.
  destruct (fresh_ok _ _ _ _ Hf) as (Hl & _ & Hn & Ht & _ & Hsl & Hsp).
  destruct (any_set_sink_fields (manager_sink_ m) a) as (F1 & F2 & F3 & F4).
  exists (next (objects m)), (any_set_sink (manager_sink_ m) a). simpl.
  rewrite !lookup_insert_eq, F1, F2, F3, F4, Hn, Ht. repeat (split; [done || lia|]).
  split; [eexists; split; [done|]; rewrite Hsp; by destruct a|]. done.
Qed.

Lemma open_run type name info m :
  wf m -> is_Some (fresh type []) -> find (GenerateName type name) (containers_ m) = Some info ->
  OpenStorage type name m = (Ok (storage info, propertyMap info), m).
Proof.
  intros Hwf [x Hf] Hi. unfold OpenStorage. destruct (find_supported type) as [ [_ H]|(c & -> & _)]; [by rewrite H in Hf|].
  rewrite bind_get. change (type ++ lit "/" ++ name) with (GenerateName type name). rewrite Hi.
  erewrite bind_ok; [|by eapply call_subscriber_same]. done.
Qed.

Lemma open_missing type name m :
  is_Some (fresh type []) -> find (GenerateName type name) (containers_ m) = None ->
  OpenStorage type name m = (Throw (invalid_argument "no such data storage"), m).
Proof.
  intros [x Hf] Hi. unfold OpenStorage. destruct (find_supported type) as [ [_ H]|(c & -> & _)]; [by rewrite H in Hf|].
  rewrite bind_get. change (type ++ lit "/" ++ name) with (GenerateName type name). by rewrite Hi.
Qed.

(** What is created is in the manager. *)
Lemma create_find type name a sp m p m' :
  wf m -> fresh type (actual_name name) = Some (a, sp) -> CreateStorage type name m = (Ok p, m') ->
  wf m' /\ exists info, find (full_name type name) (containers_ m') = Some info /\
    p = (storage info, propertyMap info) /\
    (forall k i, find k (containers_ m) = Some i -> find k (containers_ m') = Some i).
Proof.
  intros Hwf Hf E. destruct (find (full_name type name) (containers_ m)) as [info|] eqn:Ei.
  - rewrite (create_existing _ _ _ _ _ _ Hwf Hf Ei) in E. simplify_eq. split; [done|]. exists info. by rewrite Ei.
  - rewrite (create_new _ _ _ _ _ Hf Ei) in E. simplify_eq. split; [by apply wf_created|].
    eexists. cbn [containers_ created]. rewrite find_assign, decide_True by done. split; [done|]. split; [done|].
    intros k i Hk. rewrite find_assign. case_decide; [|done]. congruence.
Qed.

Lemma fresh_some type n n' x : fresh type n = Some x -> is_Some (fresh type n').
Proof. unfold fresh. repeat case_decide; intros; by try eexists. Qed.

(** ** Everything else that can happen to a manager *)

(** What identifies a storage: its kind, name, type, subscriber and lock. *)
Definition any_header (a : AnyStorage) : nat * (bytes * bytes * bool * bool) :=
  match a with AnyVector s => (0%nat, header s) | AnyMap s => (1%nat, header s) | AnyList s => (2%nat, header s) end.

Lemma dispatch_then {A} (m : forall S, ITioStorage S -> M S A) a :
  (_ ← dispatch m; mret tt) a = dispatch (fun S H => _ ← m S H; mret tt) a.
Proof.
  destruct a as [s|s|s]; unfold mbind, M_bind, dispatch.
  - by destruct (m _ VectorStorage.vector_storage s) as [ [] ].
  - by destruct (m _ MapStorage.map_storage s) as [ [] ].
  - by destruct (m _ ListStorage.list_storage s) as [ [] ].
Qed.

Lemma any_framed o a : any_header (run_op o a).2 = any_header a.
Proof.
  assert (E : run_op o a = dispatch (fun S H => run_op o) a).
  { destruct o; try done; apply dispatch_then. }
  rewrite E. destruct a as [s|s|s]; simpl.
  - pose proof (VectorStorage.vector_framed o s) as H. destruct (run_op o s). simpl in *. by rewrite H.
  - pose proof (MapStorage.map_framed o s) as H. destruct (run_op o s). simpl in *. by rewrite H.
  - pose proof (ListStorage.list_framed o s) as H. destruct (run_op o s). simpl in *. by rewrite H.
Qed.

Lemma header_fields a b :
  any_header a = any_header b ->
  any_locked a = any_locked b /\ any_sink a = any_sink b /\ any_name a = any_name b /\ any_type a = any_type b /\
  forall l, special_of l a = special_of l b.
Proof. destruct a, b; simpl; try done; unfold header; intros H; simplify_eq; auto. Qed.

(** A manager whose objects changed, but not what identifies them. *)
Lemma wf_same_headers m m' :
  wf m -> containers_ m' = containers_ m -> manager_sink_ m' = manager_sink_ m ->
  next (objects m') = next (objects m) ->
  (forall l, any_header <$> storages (objects m') !! l = any_header <$> storages (objects m) !! l) ->
  (forall l, specialPropertiesMap_ <$> propertyMaps (objects m') !! l
           = specialPropertiesMap_ <$> propertyMaps (objects m) !! l) ->
  wf m'.
Proof.
  intros [Hs He] Hc Hk Hn Hh Hp. split; [by rewrite Hc|]. intros k info. rewrite Hc. intros Hi.
  destruct (He k info Hi) as (l & a & H1 & H2 & H3 & H4 & (pm & H5 & H6) & H7 & H8 & H9 & H10 & H11 & H12).
  specialize (Hh l). rewrite H4 in Hh. apply fmap_Some in Hh as (b & Hb & Hab).
  specialize (Hp l). rewrite H5 in Hp. apply fmap_Some in Hp as (pm' & Hpm & Hpm').
  destruct (header_fields a b Hab) as (F1 & F2 & F3 & F4 & F5).
  exists l, b. rewrite <- F1, <- F2, <- F3, <- F4, Hk, Hn. repeat (split; [done|]).
  split; [|done]. exists pm'. split; [done|]. by rewrite <- F5, <- H6.
Qed.

Lemma wf_command m l o r m' : wf m -> call (Some l) (run_op o) m = (r, m') -> wf m'.
Proof.
  intros Hwf E. unfold call in E. destruct (storages (objects m) !! l) as [a|] eqn:Ea; [|by simplify_eq].
  pose proof (any_framed o a) as Hh. destruct (run_op o a) as [r' a']. simplify_eq. simpl in Hh.
  apply (wf_same_headers m); try done. intros x. simpl. rewrite lookup_insert.
  case_decide; [subst; by rewrite Ea; simpl; rewrite Hh|done].
Qed.

Lemma wf_set_property m p k v r m' : wf m -> SetProperty p k v m = (r, m') -> wf m'.
Proof.
  intros Hwf E. unfold SetProperty in E. rewrite bind_get in E.
  destruct (propertyMaps (objects m) !! p) as [pm|] eqn:Ep; [|by unfold throw in E; simplify_eq].
  unfold modify in E. simplify_eq. apply (wf_same_headers m); try done. intros x. simpl. rewrite lookup_insert.
  case_decide; [subst; by rewrite Ep|done].
Qed.

Lemma GetSpecial_keeps key (ms : MapStorage.t) : locked ms = false -> (MapStorage.GetSpecial key ms).2 = ms.
Proof.
  intros Hl. unfold MapStorage.GetSpecial. destruct (negb _); [done|]. 
  destruct ms as [d n t b r k pu]. simpl in Hl. subst k. unfold with_lock. simpl. rewrite bind_get. simpl. by destruct d.
Qed.

Lemma wf_delete m t n r m' : wf m -> DeleteStorage t n m = (r, m') -> wf m'.
Proof.
  intros [Hs He] E. unfold DeleteStorage in E. rewrite bind_get in E. cbn zeta in E.
  destruct (find (GenerateName t n) (containers_ m)) as [i|] eqn:Ei; [|by unfold throw in E; simplify_eq].
  unfold modify in E. simplify_eq. split; [by apply sorted_erase|]. intros k info. cbn [containers_ set_containers].
  rewrite find_erase by done. case_decide; [done|]. apply He.
Qed.

Lemma wf_create m t n r m' : wf m -> CreateStorage t n m = (r, m') -> wf m'.
Proof.
  intros Hwf E. destruct (fresh t (actual_name n)) as [ [a sp]|] eqn:Ef.
  - destruct (find (full_name t n) (containers_ m)) as [info|] eqn:Ei.
    + rewrite (create_existing _ _ _ _ _ _ Hwf Ef Ei) in E. by simplify_eq.
    + rewrite (create_new _ _ _ _ _ Ef Ei) in E. simplify_eq. by apply wf_created.
  - unfold CreateStorage in E. destruct (find_supported t) as [ [H _]|(c & _ & Hc)].
    + rewrite H in E. unfold throw in E. by simplify_eq.
    + destruct (Hc (actual_name n)) as (a & sp & H & _). congruence.
Qed.

Lemma open_keeps m t n : wf m -> (OpenStorage t n m).2 = m.
Proof.
  intros Hwf. unfold OpenStorage. destruct (find t supportedTypes_); [|done]. rewrite bind_get.
  destruct (find (t ++ lit "/" ++ n) (containers_ m)) as [info|] eqn:Ei; [|done].
  erewrite bind_ok; [|by eapply call_subscriber_same]. done.
Qed.

(** ** Subscribing all storages *)

Definition locs (l : list (bytes * StorageInfoEx)) : list (option loc) := (fun p => storage p.2) <$> l.

Lemma subscribe_all_run b l : forall m,
  (forall p, p ∈ l -> exists x a, storage p.2 = Some x /\ storages (objects m) !! x = Some a /\ any_locked a = false) ->
  exists st, subscribe_all b l m =
    (Ok tt, set_objects {| storages := st; propertyMaps := propertyMaps (objects m); next := next (objects m) |} m) /\
    forall x, st !! x = (if decide (Some x ∈ locs l) then any_set_sink b <$> storages (objects m) !! x
                         else storages (objects m) !! x).
Proof.
  induction l as [|[k i] l IH]; intros m H; simpl.
  - exists (storages (objects m)). split; [by destruct m as [c s [] ]|done].
  - destruct (H (k, i)) as (x & a & Hx & Ha & Hl); [apply list_elem_of_here|]. simpl in Hx. rewrite Hx.
    rewrite (bind_ok _ _ _ _ _ (call_subscriber x a b m Ha Hl)).
    destruct (IH (set_objects {| storages := <[x:=any_set_sink b a]> (storages (objects m));
      propertyMaps := propertyMaps (objects m); next := next (objects m) |} m)) as (st & E & Hst).
    { intros p Hp. destruct (H p) as (y & c & Hy & Hc & Hlc); [by apply list_elem_of_further|]. simpl.
      exists y. rewrite lookup_insert. case_decide; [subst|by eexists].
      eexists. split; [done|]. split; [done|]. by rewrite (proj1 (any_set_sink_fields b a)). }
    exists st. split; [by rewrite E|]. intros y. rewrite Hst. simpl.
    rewrite lookup_insert. destruct (decide (x = y)) as [->|Hxy].
    + rewrite Ha. rewrite (decide_True (P := Some y ∈ Some y :: locs l)) by apply list_elem_of_here.
      case_decide; simpl; [by destruct a|done].
    + destruct (decide (Some y ∈ locs l)) as [Hin|Hin].
      * by rewrite decide_True by by apply list_elem_of_further.
      * rewrite decide_False; [done|]. rewrite elem_of_cons. naive_solver.
Qed.

Lemma manager_subscriber_run b m :
  wf m -> exists m', ManagerSetSubscriber b m = (Ok tt, m') /\ containers_ m' = containers_ m /\
    manager_sink_ m' = b /\ next (objects m') = next (objects m) /\ propertyMaps (objects m') = propertyMaps (objects m) /\
    forall x, storages (objects m') !! x =
      (if decide (Some x ∈ locs (containers_ m)) then any_set_sink b <$> storages (objects m) !! x
       else storages (objects m) !! x).
Proof.
  intros [Hs He]. unfold ManagerSetSubscriber. rewrite bind_modify, bind_get. cbn [containers_ set_manager_sink].
  destruct (subscribe_all_run b (containers_ m) (set_manager_sink b m)) as (st & E & Hst).
  - intros [k i] Hp. destruct (He k i (elem_find _ _ _ Hs Hp)) as (l & a & H1 & _ & _ & H2 & _ & H3 & _).
    by exists l, a.
  - rewrite E. eexists. split; [done|]. by repeat (split; [done|]).
Qed.

Lemma wf_subscriber b m r m' : wf m -> ManagerSetSubscriber b m = (r, m') -> wf m'.
Proof.
  intros Hwf E. destruct (manager_subscriber_run b m Hwf) as (m1 & E1 & Hc & Hb & Hn & Hp & Hst).
  rewrite E1 in E. injection E as _ <-. destruct Hwf as [Hs He]. split; [by rewrite Hc|]. intros k info. rewrite Hc. intros Hi.
  destruct (He k info Hi) as (l & a & H1 & H2 & H3 & H4 & (pm & H5 & H6) & H7 & H8 & H9 & H10 & H11 & H12).
  destruct (any_set_sink_fields b a) as (F1 & F2 & F3 & F4).
  exists l, (any_set_sink b a). rewrite Hp, Hn, Hst, F1, F2, F3, F4, Hb, decide_True, H4.
  2: { rewrite <- H1. unfold locs. apply list_elem_of_fmap. exists (k, info). split; [done|]. by apply find_elem. }
  repeat (split; [done|]). split; [|done]. exists pm. split; [done|]. rewrite H6. by destruct a.
Qed.

(** ** Reachable managers *)

(** One call on the manager, on a storage it gave out, or on a property map. *)
Inductive step (m : MemoryStorageManager) : MemoryStorageManager -> Prop :=
| step_create t n r m' : CreateStorage t n m = (r, m') -> step m m'
| step_open t n r m' : OpenStorage t n m = (r, m') -> step m m'
| step_delete t n r m' : DeleteStorage t n m = (r, m') -> step m m'
| step_set_subscriber b r m' : ManagerSetSubscriber b m = (r, m') -> step m m'
| step_remove_subscriber r m' : ManagerRemoveSubscriber m = (r, m') -> step m m'
| step_command l o r m' : call (Some l) (run_op o) m = (r, m') -> (forall f, r <> Throw (Fault f)) -> step m m'
| step_set_property p k v r m' : SetProperty p k v m = (r, m') -> step m m'.

Lemma step_wf m m' : wf m -> step m m' -> wf m'.
Proof.
  intros Hwf H. destruct H as [t n r m' E|t n r m' E|t n r m' E|b r m' E|r m' E|l o r m' E _|p k v r m' E].
  - by eapply wf_create.
  - pose proof (open_keeps m t n Hwf) as H. rewrite E in H. by simpl in H; subst.
  - by eapply wf_delete.
  - by eapply wf_subscriber.
  - by eapply (wf_subscriber false).
  - by eapply wf_command.
  - by eapply wf_set_property.
Qed.

Lemma make_wf : wf make.
Proof. split; [constructor|]. intros k info. done. Qed.

Definition reachable (m : MemoryStorageManager) : Prop := rtc step make m.

Lemma reachable_wf m : reachable m -> wf m.
Proof.
  intros H. unfold reachable in H. remember make as m0 eqn:E0.
  assert (Hwf : wf m0) by (subst; apply make_wf). clear E0. induction H; [done|]. by eapply IHrtc, step_wf.
Qed.

Lemma actual_name_nonempty n : n <> [] -> actual_name n = n.
Proof. intros H. unfold actual_name. by rewrite bool_decide_false. Qed.

Lemma fresh_some_at t n : is_Some (fresh t []) -> exists a sp, fresh t n = Some (a, sp).
Proof. intros [x H]. destruct (fresh_some t [] n x H) as [ [a sp] Hf]. by exists a, sp. Qed.

Lemma fresh_no_slash t : is_Some (fresh t []) -> Forall (fun b => b <> x2f) t.
Proof. intros [ [a sp] H]. by destruct (fresh_ok _ _ _ _ H) as (_ & _ & _ & _ & _ & Hs & _). Qed.

(** Creating a container of a supported type always succeeds. *)
Lemma create_total m t n :
  wf m -> is_Some (fresh t []) ->
  exists p m' info, CreateStorage t n m = (Ok p, m') /\ wf m' /\
    find (full_name t n) (containers_ m') = Some info /\ p.1 = storage info /\ p.2 = propertyMap info /\
    (forall k i, find k (containers_ m) = Some i -> find k (containers_ m') = Some i).
Proof.
  intros Hwf H. destruct (fresh_some_at t (actual_name n) H) as (a & sp & Hf).
  assert (Hc : exists p m', CreateStorage t n m = (Ok p, m')).
  { destruct (find (full_name t n) (containers_ m)) as [i|] eqn:Ei; do 2 eexists;
      [by eapply create_existing|by eapply create_new]. }
  destruct Hc as (p & m' & E). destruct (create_find _ _ _ _ _ _ _ Hwf Hf E) as (Hwf' & info & Hi & -> & Hk).
  by exists (storage info, propertyMap info), m', info.
Qed.

(** The special map of a property map. *)
Definition special_at (l : loc) (m : MemoryStorageManager) : option loc :=
  match propertyMaps (objects m) !! l with Some pm => specialPropertiesMap_ pm | None => None end.

(** What reading a property gives. *)
Lemma property_read l key a pm m :
  storages (objects m) !! l = Some a -> propertyMaps (objects m) !! l = Some pm ->
  specialPropertiesMap_ pm = special_of l a -> any_locked a = false ->
  (GetProperty l key m).1 =
    match specialPropertiesMap_ pm, is_special key, a with
    | Some _, true, AnyMap ms => (MapStorage.GetSpecial key ms).1
    | _, _, _ => match find key (properties pm) with Some v => Ok v | None => Throw (invalid_argument "key not found") end
    end.
Proof.
  intros H4 H5 H6 H7. unfold GetProperty. rewrite bind_get, H5. cbn zeta. rewrite H6.
  destruct a as [s|s|s]; simpl; try by destruct (find key _).
  destruct (is_special key); [|by destruct (find key _)]. rewrite H4.
  destruct (MapStorage.GetSpecial key s) as [r s']. unfold mbind, M_bind, call, lift. simpl. by rewrite H4.
Qed.

(** ** Properties *)

(** C32. The catalogue of volatile containers is always consistent.  After any
    sequence of creations, openings, deletions, subscriptions, property
    changes and commands on the storages, each entry has a storage and a
    property map that exist, is filed under the type and the name of that
    storage, and has the manager's subscriber; and no two entries share a
    storage. *)
Theorem manager_invariant m k info :
  reachable m -> find k (containers_ m) = Some info ->
  entry_ok m k info /\
  forall k' info', find k' (containers_ m) = Some info' -> storage info' = storage info -> k' = k.
Proof.
  intros Hr Hi. pose proof (reachable_wf m Hr) as Hwf. split; [by apply Hwf|].
  intros k' info' Hi' E. by eapply (wf_distinct m).
Qed.

(** A container is identified by its type and name.  Creating two
    containers of supported types gives the same storage exactly when types
    and names agree; opening the first by its type and name then gives the
    storage that creating it gave, and no creation throws. *)
Theorem container_identity m t1 n1 t2 n2 :
  reachable m -> is_Some (fresh t1 []) -> is_Some (fresh t2 []) -> n1 <> [] -> n2 <> [] ->
  exists p1 m1 p2 m2,
    CreateStorage t1 n1 m = (Ok p1, m1) /\ CreateStorage t2 n2 m1 = (Ok p2, m2) /\
    (p1.1 = p2.1 <-> t1 = t2 /\ n1 = n2) /\ OpenStorage t1 n1 m2 = (Ok p1, m2).
Proof.
  intros Hr H1 H2 N1 N2. pose proof (reachable_wf m Hr) as Hwf.
  destruct (create_total m t1 n1 Hwf H1) as ([p1 q1] & m1 & i1 & E1 & Hwf1 & F1 & P1 & Q1 & _).
  destruct (create_total m1 t2 n2 Hwf1 H2) as ([p2 q2] & m2 & i2 & E2 & Hwf2 & F2 & P2 & Q2 & K2).
  simpl in P1, Q1, P2, Q2. subst. do 4 eexists. split; [exact E1|]. split; [exact E2|]. apply K2 in F1. split.
  - simpl. split; [|intros [-> ->]; congruence]. intros E.
    pose proof (wf_distinct m2 _ _ _ _ Hwf2 F1 F2 E) as En. unfold full_name in En.
    apply GenerateName_inj in En as [-> En]; [|by apply fresh_no_slash..]. split; [done|].
    by rewrite !actual_name_nonempty in En.
  - apply open_run; [done|done|]. unfold full_name in F1. by rewrite actual_name_nonempty in F1.
Qed.

(** All nameless containers of a type are one container.  The counter that
    should tell them apart is never incremented: creating a second container
    without a name gives the first one, with everything that is in it. *)
Theorem nameless_containers_shared m t :
  reachable m -> is_Some (fresh t []) ->
  exists p m', CreateStorage t [] m = (Ok p, m') /\ CreateStorage t [] m' = (Ok p, m') /\
    CreateStorage t (lit "__nameless0__") m' = (Ok p, m').
Proof.
  intros Hr H1. pose proof (reachable_wf m Hr) as Hwf.
  destruct (create_total m t [] Hwf H1) as ([p q] & m' & i & E & Hwf' & F & Ep & Eq & _). simpl in Ep, Eq. subst.
  exists (storage i, propertyMap i), m'. split; [done|].
  destruct (fresh_some_at t (actual_name []) H1) as (a & sp & Hf).
  split; eapply create_existing; try done.
Qed.

(** Deleting forgets.  After a deletion the container does not exist, is not
    opened, and creating it again gives an object that did not exist before,
    while the old storage stays as it was for those who still have it. *)
Theorem delete_forgets m t n m' :
  reachable m -> is_Some (fresh t []) -> n <> [] -> DeleteStorage t n m = (Ok tt, m') ->
  Exists t n m' = false /\ objects m' = objects m /\
  (exists e, OpenStorage t n m' = (Throw e, m')) /\
  exists a m2, CreateStorage t n m' = (Ok (Some (next (objects m)), Some (next (objects m))), m2) /\
    storages (objects m2) !! next (objects m) = Some a /\ any_empty a.
Proof.
  intros Hr H1 Hn E. pose proof (reachable_wf m Hr) as Hwf. unfold DeleteStorage in E. rewrite bind_get in E. cbn zeta in E.
  destruct (find (GenerateName t n) (containers_ m)) as [i|] eqn:Ei; [|by unfold throw in E].
  unfold modify in E. injection E as <-.
  assert (Hgone : find (GenerateName t n) (containers_ (set_containers (erase (GenerateName t n) (containers_ m)) m)) = None)
    by (cbn [containers_ set_containers]; by rewrite find_erase, decide_True by (done || apply Hwf)).
  split; [unfold Exists; by rewrite Hgone|]. split; [done|]. split; [eexists; by apply open_missing|].
  destruct (fresh_some_at t (actual_name n) H1) as (a & sp & Hf).
  eexists _, _. split.
  { rewrite (create_new t n a sp); [reflexivity|done|]. unfold full_name. by rewrite actual_name_nonempty. }
  cbn [objects created storages set_containers]. rewrite lookup_insert_eq. split; [done|].
  destruct (fresh_ok _ _ _ _ Hf) as (_ & _ & _ & _ & He & _). by destruct a.
Qed.

(** Subscribing to the manager subscribes to every container it has, and
    changes nothing else: each storage in the catalogue differs only in its
    subscriber, all other objects and the catalogue stay as they were. *)
Theorem manager_subscribes_all m b :
  reachable m -> exists m', ManagerSetSubscriber b m = (Ok tt, m') /\ containers_ m' = containers_ m /\
    (forall k info, find k (containers_ m) = Some info -> exists l a, storage info = Some l /\
       storages (objects m) !! l = Some a /\ storages (objects m') !! l = Some (any_set_sink b a)) /\
    (forall l, (forall k info, find k (containers_ m) = Some info -> storage info <> Some l) ->
       storages (objects m') !! l = storages (objects m) !! l).
Proof.
  intros Hr. pose proof (reachable_wf m Hr) as Hwf.
  destruct (manager_subscriber_run b m Hwf) as (m' & E & Hc & _ & _ & _ & Hst). exists m'. split; [done|].
  split; [done|]. split.
  - intros k info Hi. destruct (wf_entries m Hwf _ _ Hi) as (l & a & S1 & _ & _ & A1 & _). exists l, a.
    split; [done|]. split; [done|]. rewrite Hst, decide_True, A1; [done|]. rewrite <- S1. unfold locs.
    apply list_elem_of_fmap. exists (k, info). split; [done|]. by apply find_elem.
  - intros l Hl. rewrite Hst, decide_False; [done|]. unfold locs. intros Hin.
    apply list_elem_of_fmap in Hin as ([k info] & Hs & Hin). apply (Hl k info); [|done].
    apply elem_find; [apply Hwf|done].
Qed.

(** Properties are kept.  A property that is set is read back, and setting it
    changes no other one; the special properties of a map (names that start
    with two underscores) are not stored ones and keep their value. *)
Theorem property_set_get m k info l key v key' :
  reachable m -> find k (containers_ m) = Some info -> propertyMap info = Some l ->
  exists m', SetProperty l key v m = (Ok tt, m') /\
    (GetProperty l key' m').1 =
      if decide (key = key') then
        if bool_decide (is_Some (special_at l m)) && is_special key then (GetProperty l key' m).1 else Ok v
      else (GetProperty l key' m).1.
Proof.
  intros Hr Hi Hl. pose proof (reachable_wf m Hr) as Hwf.
  destruct (wf_entries m Hwf _ _ Hi) as (l' & a & _ & H2 & _ & H4 & (pm & H5 & H6) & H7 & _).
  assert (l' = l) as -> by congruence.
  eexists. split; [unfold SetProperty; rewrite bind_get, H5; reflexivity|].
  rewrite (property_read l key' a _ m H4 H5 H6 H7).
  erewrite (property_read l key' a _ _); [|exact H4|apply lookup_insert_eq|exact H6|exact H7].
  unfold special_at. rewrite H5. simpl. rewrite find_assign.
  destruct (decide (key = key')) as [<-|Hk]; [|done].
  rewrite H6. destruct a; simpl; try done. by destruct (is_special key).
Qed.

(** ** Witnesses *)

Definition ex_commands : M MemoryStorageManager (option loc * option loc) :=
  _ ← ManagerSetSubscriber true;
  _ ← CreateStorage (lit "volatile_list") (lit "orders");
  _ ← CreateStorage (lit "volatile_map") (lit "prices");
  CreateStorage (lit "volatile_vector") (lit "log").

Definition ex_manager : MemoryStorageManager := (ex_commands make).2.

Lemma ex_reachable : reachable ex_manager.
Proof.
  unfold reachable, ex_manager.
  eapply rtc_l; [eapply (step_set_subscriber _ true); vm_compute; reflexivity|].
  eapply rtc_l; [eapply (step_create _ (lit "volatile_list") (lit "orders")); vm_compute; reflexivity|].
  eapply rtc_l; [eapply (step_create _ (lit "volatile_map") (lit "prices")); vm_compute; reflexivity|].
  eapply rtc_l; [eapply (step_create _ (lit "volatile_vector") (lit "log")); vm_compute; reflexivity|].
  vm_compute. apply rtc_refl.
Qed.

Lemma manager_invariant_witness :
  entry_ok ex_manager (lit "volatile_map/prices")
    {| storage := Some 1%nat; propertyMap := Some 1%nat; name := lit "prices"; type := lit "volatile_map" |}.
Proof.
  apply (manager_invariant ex_manager (lit "volatile_map/prices") _ ex_reachable). vm_compute. reflexivity.
Defined.

Lemma container_identity_witness :
  exists p1 m1 p2 m2,
    CreateStorage (lit "volatile_list") (lit "a") ex_manager = (Ok p1, m1) /\
    CreateStorage (lit "volatile_map") (lit "a") m1 = (Ok p2, m2) /\
    (p1.1 = p2.1 <-> lit "volatile_list" = lit "volatile_map" /\ lit "a" = lit "a") /\
    OpenStorage (lit "volatile_list") (lit "a") m2 = (Ok p1, m2).
Proof.
  apply (container_identity ex_manager (lit "volatile_list") (lit "a") (lit "volatile_map") (lit "a")).
  - exact ex_reachable.
  - eexists. reflexivity.
  - eexists. reflexivity.
  - discriminate.
  - discriminate.
Defined.

Lemma nameless_containers_shared_witness :
  exists p m', CreateStorage (lit "volatile_list") [] ex_manager = (Ok p, m') /\
    CreateStorage (lit "volatile_list") [] m' = (Ok p, m') /\
    CreateStorage (lit "volatile_list") (lit "__nameless0__") m' = (Ok p, m').
Proof.
  apply (nameless_containers_shared ex_manager (lit "volatile_list")); [exact ex_reachable|eexists; reflexivity].
Defined.

Lemma delete_forgets_witness :
  exists m', DeleteStorage (lit "volatile_list") (lit "orders") ex_manager = (Ok tt, m') /\
    Exists (lit "volatile_list") (lit "orders") m' = false.
Proof.
  eexists. split; [vm_compute; reflexivity|].
  apply (delete_forgets ex_manager (lit "volatile_list") (lit "orders")).
  - exact ex_reachable.
  - eexists. reflexivity.
  - discriminate.
  - vm_compute. reflexivity.
Defined.

Lemma manager_subscribes_all_witness :
  exists m', ManagerSetSubscriber false ex_manager = (Ok tt, m') /\ containers_ m' = containers_ ex_manager.
Proof.
  destruct (manager_subscribes_all ex_manager false ex_reachable) as (m' & E & Hc & _). exists m'.
  split; [exact E|exact Hc].
Defined.

Lemma property_set_get_witness :
  exists m', SetProperty 0 (lit "schema") (lit "bid^ask") ex_manager = (Ok tt, m') /\
    (GetProperty 0 (lit "schema") m').1 = Ok (lit "bid^ask").
Proof.
  apply (property_set_get ex_manager (lit "volatile_list/orders")
    {| storage := Some 0%nat; propertyMap := Some 0%nat; name := lit "orders"; type := lit "volatile_list" |}
    0%nat (lit "schema") (lit "bid^ask") (lit "schema")).
  - exact ex_reachable.
  - vm_compute. reflexivity.
  - reflexivity.
Defined.

End MemoryStorage.
