(* ===== verification/Auth.v ===== *)
(** * Access rules: [server/tio/auth.h]

    For each object the rules of its commands: tokens that are denied, tokens
    that are allowed and a default.  A [COMMAND] or [OBJECT] that [operator[]]
    of a map adds is value-initialised, so its default rule is the enumerator
    with value 0, [allow]. *)
From S2P Require Import Prelude StdMap.

Module Auth.
Import StdMap.

Inductive RuleResult := allow | deny | none.

#[export] Instance RuleResult_eq_dec : EqDecision RuleResult.
Proof. solve_decision. Defined.

Record COMMAND := { denies : gset bytes; allows : gset bytes; command_default : RuleResult }.
Record OBJECT := { object_default : RuleResult; commands : list (bytes * COMMAND) }.

Record t := mk_auth {
  objectRules_ : list (bytes * OBJECT); objectDefaultRule_ : RuleResult;
  commandRules_ : list (bytes * COMMAND); commandDefaultRule_ : RuleResult
}.

Definition make : t := mk_auth [] allow [] allow.

Definition no_command : COMMAND := {| denies := ∅; allows := ∅; command_default := allow |}.
Definition no_object : OBJECT := {| object_default := allow; commands := [] |}.

Fixpoint FindRuleForTokens (commandTokens : gset bytes) (tokens : list bytes) : bool :=
  match tokens with
  | [] => false
  | token :: tokens => if decide (token ∈ commandTokens) then true else FindRuleForTokens commandTokens tokens
  end.

Definition check_command (cmd : COMMAND) (tokens : list bytes) : RuleResult :=
  if FindRuleForTokens (denies cmd) tokens then deny
  else if FindRuleForTokens (allows cmd) tokens then allow
  else command_default cmd.

Definition fullQualifiedName (objectType objectName : bytes) : bytes := objectType ++ lit "/" ++ objectName.

Definition set_rules (r : list (bytes * OBJECT)) (a : t) : t :=
  mk_auth r (objectDefaultRule_ a) (commandRules_ a) (commandDefaultRule_ a).

Definition add_token (cmd : COMMAND) (token : bytes) (r : RuleResult) : COMMAND :=
  match r with
  | allow => {| denies := denies cmd; allows := {[token]} ∪ allows cmd; command_default := command_default cmd |}
  | deny => {| denies := {[token]} ∪ denies cmd; allows := allows cmd; command_default := command_default cmd |}
  | none => cmd
  end.

Definition AddObjectRule (objectType objectName command token : bytes) (r : RuleResult) (a : t) : t :=
  let n := fullQualifiedName objectType objectName in
  let obj := default no_object (find n (objectRules_ a)) in
  let cmd := add_token (default no_command (find command (commands obj))) token r in
  set_rules (assign_at n {| object_default := object_default obj;
                            commands := assign_at command cmd (commands obj) |} (objectRules_ a)) a.

Definition SetObjectDefaultRule (objectType objectName : bytes) (r : RuleResult) (a : t) : t :=
  let n := fullQualifiedName objectType objectName in
  let obj := default no_object (find n (objectRules_ a)) in
  set_rules (assign_at n {| object_default := r; commands := commands obj |} (objectRules_ a)) a.

Definition SetDefaultRule (r : RuleResult) (a : t) : t :=
  mk_auth (objectRules_ a) r (commandRules_ a) (commandDefaultRule_ a).

Definition CheckCommandAccess (command : bytes) (tokens : list bytes) (a : t) : RuleResult :=
  match find command (commandRules_ a) with
  | None => commandDefaultRule_ a
  | Some cmd => check_command cmd tokens
  end.

(** A single [*] stands for every command. *)
Definition CheckObjectAccess (objectType objectName command : bytes) (tokens : list bytes) (a : t) : RuleResult :=
  match find (fullQualifiedName objectType objectName) (objectRules_ a) with
  | None => objectDefaultRule_ a
  | Some obj =>
      let icmd :=
        match commands obj with
        | [(n, c)] => if bool_decide (n = lit "*") then Some c else find command (commands obj)
        | _ => find command (commands obj)
        end in
      match icmd with
      | None => object_default obj
      | Some cmd => check_command cmd tokens
      end
  end.

(** The overload for one token. *)
Definition CheckObjectAccess_token (objectType objectName command token : bytes) (a : t) : RuleResult :=
  CheckObjectAccess objectType objectName command [token] a.

(** The rules of the users' container when the server starts. *)
Definition users_rules (userContainerType : bytes) (a : t) : t :=
  AddObjectRule userContainerType (lit "__meta__/users") (lit "*") (lit "__admin__") allow
    (SetObjectDefaultRule userContainerType (lit "__meta__/users") deny a).

(** ** Histories *)

(** A call that changes the rules. *)
Inductive rule :=
| AddRule (objectType objectName command token : bytes) (r : RuleResult)
| DefaultRule (objectType objectName : bytes) (r : RuleResult)
| GlobalDefault (r : RuleResult).

Definition apply_rule (a : t) (x : rule) : t :=
  match x with
  | AddRule ty n c tok r => AddObjectRule ty n c tok r a
  | DefaultRule ty n r => SetObjectDefaultRule ty n r a
  | GlobalDefault r => SetDefaultRule r a
  end.

(** Rules about the object with full name [o]. *)
Definition about (o : bytes) (x : rule) : bool :=
  match x with
  | AddRule ty n _ _ _ | DefaultRule ty n _ => bool_decide (fullQualifiedName ty n = o)
  | GlobalDefault _ => false
  end.

Definition adds (o c : bytes) (x : rule) : bool :=
  match x with
  | AddRule ty n c' _ _ => bool_decide (fullQualifiedName ty n = o) && bool_decide (c' = c)
  | _ => false
  end.

(** A rule of object [o] for a command other than [*]. *)
Definition adds_other (o : bytes) (x : rule) : bool :=
  match x with
  | AddRule ty n c' _ _ => bool_decide (fullQualifiedName ty n = o) && negb (bool_decide (c' = lit "*"))
  | _ => false
  end.

Definition denies_token (o c tok : bytes) (x : rule) : bool :=
  match x with
  | AddRule ty n c' tok' deny =>
      bool_decide (fullQualifiedName ty n = o) && bool_decide (c' = c) && bool_decide (tok' = tok)
  | _ => false
  end.

Definition last_default (o : bytes) (h : list rule) : RuleResult :=
  fold_left (fun acc x => match x with
    | DefaultRule ty n r => if bool_decide (fullQualifiedName ty n = o) then r else acc
    | _ => acc end) h allow.

Definition last_global (h : list rule) : RuleResult :=
  fold_left (fun acc x => match x with GlobalDefault r => r | _ => acc end) h allow.

(** The decision, from the history alone. *)
Definition decision (h : list rule) (o command : bytes) (tokens : list bytes) : RuleResult :=
  if negb (existsb (about o) h) then last_global h
  else
    let c := if existsb (adds o (lit "*")) h && negb (existsb (adds_other o) h) then lit "*" else command in
    if existsb (adds o c) h then
      if existsb (fun tok => existsb (denies_token o c tok) h) tokens then deny else allow
    else last_default o h.

(** ** The rules a history leaves *)

(** The entry of command [c] of object [o]. *)
Definition command_ok (h : list rule) (o c : bytes) (x : option COMMAND) : Prop :=
  match x with
  | None => existsb (adds o c) h = false
  | Some cmd => existsb (adds o c) h = true /\ command_default cmd = allow /\
      forall tok, tok ∈ denies cmd <-> existsb (denies_token o c tok) h = true
  end.

Definition object_ok (h : list rule) (o : bytes) (x : option OBJECT) : Prop :=
  match x with
  | None => existsb (about o) h = false
  | Some obj => existsb (about o) h = true /\ object_default obj = last_default o h /\ sorted (commands obj) /\
      forall c, command_ok h o c (find c (commands obj))
  end.

Record auth_ok (h : list rule) (a : t) : Prop := {
  ok_objects : forall o, object_ok h o (find o (objectRules_ a));
  ok_global : objectDefaultRule_ a = last_global h
}.

Lemma not_about_adds h o c : existsb (about o) h = false -> existsb (adds o c) h = false.
Proof.
  induction h as [|x h IH]; [done|]. simpl. rewrite !orb_false_iff. intros [H1 H2]. split; [|auto].
  destruct x; simpl in *; try done. by rewrite H1.
Qed.

Lemma not_adds_denies h o c tok : existsb (adds o c) h = false -> existsb (denies_token o c tok) h = false.
Proof.
  induction h as [|x h IH]; [done|]. simpl. rewrite !orb_false_iff. intros [H1 H2]. split; [|auto].
  destruct x as [ty n c' tok' r| |]; simpl in *; try done. destruct r; try done. by rewrite H1.
Qed.

Lemma not_about_default h o : existsb (about o) h = false -> last_default o h = allow.
Proof.
  unfold last_default. induction h as [|x h IH] using rev_ind; [done|].
  rewrite existsb_app, orb_false_iff. intros [H1 H2]. rewrite fold_left_app. simpl in *. rewrite orb_false_r in H2.
  destruct x; simpl in *; [auto| |auto]. rewrite H2. auto.
Qed.

(** The object of the history so far, as [operator[]] sees it. *)
Lemma default_object h o x :
  object_ok h o x ->
  object_default (default no_object x) = last_default o h /\ sorted (commands (default no_object x)) /\
  forall c, command_ok h o c (find c (commands (default no_object x))).
Proof.
  destruct x as [obj|]; simpl; [by intros (_ & H)|]. intros H. split; [by rewrite not_about_default|].
  split; [constructor|]. intros c. by apply not_about_adds.
Qed.

Lemma default_command h o c x :
  command_ok h o c x -> command_default (default no_command x) = allow /\
  forall tok, tok ∈ denies (default no_command x) <-> existsb (denies_token o c tok) h = true.
Proof.
  destruct x as [cmd|]; simpl; [by intros (_ & H)|]. intros H. split; [done|]. intros tok.
  rewrite not_adds_denies by done. set_solver.
Qed.

Lemma add_token_ok ty n c tok r h cmd :
  command_default cmd = allow ->
  (forall tok', tok' ∈ denies cmd <-> existsb (denies_token (fullQualifiedName ty n) c tok') h = true) ->
  command_ok (h ++ [AddRule ty n c tok r]) (fullQualifiedName ty n) c (Some (add_token cmd tok r)).
Proof.
  intros H1 H2. simpl. rewrite existsb_app. simpl. rewrite !bool_decide_true by done. rewrite orb_true_r.
  split; [done|]. split; [by destruct r|]. intros tok'. rewrite existsb_app. simpl. rewrite orb_false_r.
  destruct r; simpl; rewrite ?orb_false_r; try apply H2.
  rewrite !(bool_decide_true (_ = _)) by done. simpl. rewrite orb_true_iff, bool_decide_eq_true, <- H2. set_solver.
Qed.

Lemma denies_adds o c tok x : adds o c x = false -> denies_token o c tok x = false.
Proof. destruct x as [ty n c' tok' r| |]; simpl; try done. destruct r; try done. by intros ->. Qed.

Lemma adds_about o c x : about o x = false -> adds o c x = false.
Proof. destruct x; simpl; try done. by intros ->. Qed.

(** Rules for other commands and other objects. *)
Lemma command_frame h o c x y : adds o c x = false -> command_ok h o c y -> command_ok (h ++ [x]) o c y.
Proof.
  intros Hx H. destruct y as [cmd|]; simpl in *; rewrite existsb_app; simpl; rewrite Hx, !orb_false_r; [|done].
  destruct H as (H1 & H2 & H3). split; [done|]. split; [done|]. intros tok. rewrite existsb_app. simpl.
  by rewrite denies_adds, !orb_false_r.
Qed.

Lemma last_default_app o h x :
  last_default o (h ++ [x]) =
    match x with DefaultRule ty n r => if bool_decide (fullQualifiedName ty n = o) then r else last_default o h
               | _ => last_default o h end.
Proof. unfold last_default. by rewrite fold_left_app. Qed.

Lemma object_frame h o x y : about o x = false -> object_ok h o y -> object_ok (h ++ [x]) o y.
Proof.
  intros Hx H. destruct y as [obj|]; simpl in *; rewrite existsb_app; simpl; rewrite Hx, !orb_false_r; [|done].
  destruct H as (H1 & H2 & H3 & H4). split; [done|]. split.
  - rewrite last_default_app. destruct x; simpl in Hx; try done. by rewrite Hx.
  - split; [done|]. intros c. apply command_frame; [by apply adds_about|done].
Qed.

Lemma apply_ok h a x : auth_ok h a -> auth_ok (h ++ [x]) (apply_rule a x).
Proof.
  intros [Ho Hg]. unfold last_global in Hg. destruct x as [ty n c tok r|ty n r|r].
  - split; [|unfold last_global; by rewrite fold_left_app]. intros o. cbn [apply_rule objectRules_ AddObjectRule set_rules].
    cbn zeta. unfold AddObjectRule. cbn [objectRules_ set_rules]. rewrite find_assign. case_decide as E.
    + subst o. destruct (default_object h _ _ (Ho (fullQualifiedName ty n))) as (H1 & H2 & H3).
      cbn [object_ok object_default commands]. rewrite existsb_app. cbn [existsb about]. rewrite (bool_decide_true (_ = _)) by done.
      split; [apply orb_true_r|]. rewrite last_default_app. split; [done|]. split; [by apply sorted_assign|].
      intros c'. rewrite find_assign. case_decide as Ec.
      * subst c'. destruct (default_command h _ c _ (H3 c)) as [H4 H5]. by apply add_token_ok.
      * apply command_frame; [|done]. simpl. by rewrite (bool_decide_false (c = c')), andb_false_r by done.
    + apply object_frame; [simpl; by apply bool_decide_eq_false|done].
  - split; [|unfold last_global; by rewrite fold_left_app]. intros o. unfold apply_rule, SetObjectDefaultRule.
    cbn [objectRules_ set_rules]. rewrite find_assign. case_decide as E.
    + subst o. destruct (default_object h _ _ (Ho (fullQualifiedName ty n))) as (H1 & H2 & H3).
      cbn [object_ok object_default commands]. rewrite existsb_app. cbn [existsb about]. rewrite (bool_decide_true (_ = _)) by done.
      split; [apply orb_true_r|]. rewrite last_default_app, bool_decide_true by done. split; [done|].
      split; [done|]. intros c. by apply command_frame.
    + apply object_frame; [simpl; by apply bool_decide_eq_false|done].
  - split; [|unfold last_global; by rewrite fold_left_app]. intros o. by apply object_frame.
Qed.

Lemma history_ok h : auth_ok h (fold_left apply_rule h make).
Proof.
  induction h as [|x h IH] using rev_ind; [by split|]. rewrite fold_left_app. by apply apply_ok.
Qed.

Lemma find_rule_tokens s tokens : FindRuleForTokens s tokens = existsb (fun tok => bool_decide (tok ∈ s)) tokens.
Proof.
  induction tokens as [|tok l IH]; [done|]. simpl. case_decide as E; [by rewrite bool_decide_true|].
  by rewrite bool_decide_false, IH.
Qed.

Lemma check_command_ok h o c cmd tokens :
  command_ok h o c (Some cmd) ->
  check_command cmd tokens = if existsb (fun tok => existsb (denies_token o c tok) h) tokens then deny else allow.
Proof.
  intros (_ & H1 & H2). unfold check_command. rewrite find_rule_tokens, H1.
  replace (existsb (fun tok => bool_decide (tok ∈ denies cmd)) tokens)
    with (existsb (fun tok => existsb (denies_token o c tok) h) tokens).
  - destruct (existsb (fun tok => existsb _ h) tokens); [done|]. by destruct (FindRuleForTokens _ _).
  - induction tokens as [|tok l IH]; [done|]. simpl. rewrite IH. f_equal.
    apply eq_true_iff_eq. rewrite bool_decide_eq_true. by rewrite H2.
Qed.

(** The one-command case. *)
Lemma adds_other_ex h o : existsb (adds_other o) h = true <-> exists c, c <> lit "*" /\ existsb (adds o c) h = true.
Proof.
  split.
  - intros (x & Hx & H)%existsb_exists. destruct x as [ty n c tok r| |]; simpl in H; try done.
    apply andb_true_iff in H as [H1 H2]. apply negb_true_iff, bool_decide_eq_false in H2. exists c. split; [done|].
    apply existsb_exists. eexists. split; [done|]. simpl. by rewrite H1, bool_decide_true.
  - intros (c & Hc & (x & Hx & H)%existsb_exists). apply existsb_exists. exists x. split; [done|].
    destruct x as [ty n c' tok r| |]; simpl in *; try done. apply andb_true_iff in H as [H1 H2].
    apply bool_decide_eq_true in H2. subst c'. rewrite H1. by rewrite bool_decide_false.
Qed.

Lemma adds_found h o obj c :
  object_ok h o (Some obj) -> existsb (adds o c) h = true <-> is_Some (find c (commands obj)).
Proof.
  intros (_ & _ & _ & H). specialize (H c). destruct (find c (commands obj)); simpl in H.
  - split; [by eexists|by destruct H].
  - rewrite H. split; [done|by intros [? ?] ].
Qed.

(** Which entry a check uses. *)
Definition entry (obj : OBJECT) (command : bytes) : bytes :=
  match commands obj with [(n, _)] => if bool_decide (n = lit "*") then lit "*" else command | _ => command end.

Lemma entry_ok h o obj command :
  object_ok h o (Some obj) ->
  entry obj command =
    if existsb (adds o (lit "*")) h && negb (existsb (adds_other o) h) then lit "*" else command.
Proof.
  intros H. pose proof (fun c => adds_found h o obj c H) as Hf. destruct H as (_ & _ & Hs & _).
  apply sorted_keys in Hs. unfold entry.
  assert (Hother : existsb (adds_other o) h = true <-> exists c, c <> lit "*" /\ is_Some (find c (commands obj))).
  { rewrite adds_other_ex. setoid_rewrite Hf. done. }
  destruct (existsb (adds o (lit "*")) h) eqn:Es; simpl.
  - apply Hf in Es. destruct (commands obj) as [|[k1 c1] [|[k2 c2] l] ] eqn:Ec; [by destruct Es| |].
    + simpl in Es. destruct (decide (k1 = lit "*")) as [->|]; [|by destruct Es].
      rewrite bool_decide_true by done. destruct (existsb (adds_other o) h) eqn:Eo; [exfalso|done].
      destruct (proj1 Hother eq_refl) as (c & Hc & Hsome). simpl in Hsome. rewrite decide_False in Hsome by done. by destruct Hsome.
    + replace (existsb (adds_other o) h) with true; [done|]. symmetry. apply Hother.
      apply NoDup_cons in Hs as [Hk Hs]. destruct (decide (k1 = lit "*")) as [->|Hne].
      * exists k2. split; [intros ->; apply Hk; simpl; apply list_elem_of_here|]. simpl.
        case_decide; [by eexists|]. rewrite decide_True by done. by eexists.
      * exists k1. split; [done|]. simpl. rewrite decide_True by done. by eexists.
  - destruct (commands obj) as [|[k1 c1] [|] ] eqn:Ec; try done. rewrite bool_decide_false; [done|]. intros ->.
    assert (existsb (adds o (lit "*")) h = true) as E; [|congruence]. apply Hf. by eexists.
Qed.

Lemma entry_find obj command :
  match commands obj with
  | [(n, c)] => if bool_decide (n = lit "*") then Some c else find command (commands obj)
  | _ => find command (commands obj)
  end = find (entry obj command) (commands obj).
Proof.
  unfold entry. destruct (commands obj) as [|[n c] [|] ]; try done. case_bool_decide; [|done].
  subst n. cbn [find]. by rewrite decide_True by done.
Qed.

(** ** Properties *)

(** C36. What the access rules decide, from the calls that set them alone.  An
    object nothing was said about follows the last global default.  Otherwise
    the rules looked at are those of the command, or those of [*] when that is
    the only command with rules; with such rules the answer is [deny] exactly
    when one of the tokens was denied and [allow] otherwise, whatever was
    allowed and whatever the defaults; without, it is the object's default. *)
Theorem auth_decision h objectType objectName command tokens :
  CheckObjectAccess objectType objectName command tokens (fold_left apply_rule h make)
  = decision h (fullQualifiedName objectType objectName) command tokens.
Proof.
  destruct (history_ok h) as [Ho Hg]. unfold CheckObjectAccess, decision.
  set (o := fullQualifiedName objectType objectName). specialize (Ho o).
  destruct (find o _) as [obj|] eqn:E; [|by rewrite Ho, Hg].
  pose proof (entry_ok h o obj command Ho) as He. destruct Ho as (H1 & H2 & H3 & H4). rewrite H1. cbn [negb].
  cbn zeta. rewrite <- He. rewrite entry_find. specialize (H4 (entry obj command)).
  destruct (find (entry obj command) (commands obj)) as [cmd|]; [|by simpl in H4; rewrite H4].
  rewrite (check_command_ok _ _ _ _ tokens H4). by rewrite (proj1 H4).
Qed.

(** The users' container is open to everyone.  The rules the server starts
    with, deny by default and allow the token of the administrator for every
    command, allow every command to every session, whatever tokens it has: the
    rules of [*] have the default [allow], and it hides the object's. *)
Theorem users_container_open userContainerType command tokens :
  CheckObjectAccess userContainerType (lit "__meta__/users") command tokens (users_rules userContainerType make) = allow.
Proof.
  unfold users_rules. unfold CheckObjectAccess, AddObjectRule, SetObjectDefaultRule. cbn [objectRules_ set_rules make].
  rewrite !find_assign, !decide_True by done. unfold no_object.
  cbn [find default from_option id commands assign_at]. rewrite bool_decide_true by done. unfold check_command.
  assert (E : forall l, FindRuleForTokens ∅ l = false)
    by (induction l as [|x l IH]; [done|]; simpl; by rewrite decide_False by set_solver).
  cbn. rewrite E. by destruct (FindRuleForTokens _ tokens).
Qed.

End Auth.
