(* ===== verification/TextProtocol.v ===== *)
(** * The text protocol: [server/tio/TioTcpProtocol.h]

    Answers and events as lines of words, followed by the bytes of their fields.
    A stream that is written to is the bytes it receives.  How a [double] is
    printed and read is the library's: [print_double] and [lexical_cast_double].
    [ParseAnswerLine] fills a [ProtocolAnswer] that exists before the call. *)
From S2P Require Import Prelude Decimal TioDataS Containers.

Module TextProtocol.
Import Decimal TioData Containers.

Section TextProtocol.
Context (print_double : bytes -> bytes) (lexical_cast_double : bytes -> res bytes).

(** ** Writing *)

Inductive AnswerType := success | error.

Definition crlf : bytes := [x0d; x0a].
Definition space : bytes := [x20].

Definition GenerateSimpleOkAnswer : bytes := lit "answer ok" ++ crlf.

(** [answer] is a C string, [None] for NULL. *)
Definition MakeAnswerStart (type : AnswerType) (answer : option bytes) : bytes :=
  lit "answer " ++ (match type with success => lit "ok" | error => lit "error" end) ++ space ++
  match answer with Some a => c_str a | None => [] end.

Definition MakeAnswerEnd : bytes := crlf.

Definition MakeAnswer (type : AnswerType) (answer : option bytes) : bytes :=
  MakeAnswerStart type answer ++ MakeAnswerEnd.

Definition MakeAnswer2 (type : AnswerType) (answer1 answer2 : bytes) : bytes :=
  MakeAnswer type (Some (answer1 ++ space ++ answer2)).

Definition MakeAnswer3 (type : AnswerType) (answer1 answer2 answer3 : bytes) : bytes :=
  MakeAnswerStart type None ++ (answer1 ++ space ++ answer2 ++ space ++ answer3) ++ MakeAnswerEnd.

(** The overload for a range of strings. *)
Definition MakeAnswer_range (strs : list bytes) (type : AnswerType) (answer : option bytes) : bytes :=
  MakeAnswerStart type answer ++ concat ((fun str => space ++ str) <$> strs) ++ MakeAnswerEnd.

(** One turn of each loop of [SerializeData]. *)
Definition field_header (name : bytes) (t : TioData) : bytes :=
  if Empty t then []
  else space ++ name ++ space ++ GetDataTypeAsString t ++ space ++
       print_nat (Z.of_nat (length (print print_double t))).

Definition field_data (t : TioData) : bytes :=
  if Empty t then [] else print print_double t ++ crlf.

(** Nothing at all, not even the end of the line, when there is no data. *)
Definition SerializeData (key v m : TioData) : bytes :=
  if negb (operator_bool key) && negb (operator_bool v) && negb (operator_bool m) then []
  else
    (field_header (lit "key") key ++ field_header (lit "value") v ++ field_header (lit "metadata") m) ++ crlf ++
    (field_data key ++ field_data v ++ field_data m).

Definition MakeEventAnswer (eventName : bytes) (handle : Z) (key v m : TioData) : bytes :=
  lit "event " ++ print_nat handle ++ space ++ eventName ++ SerializeData key v m.

Definition MakeDataAnswer (key v m : TioData) : bytes :=
  MakeAnswerStart success (Some (lit "data")) ++ SerializeData key v m.

(** ** Fields *)

Definition IsValidFieldName (fieldName : bytes) : bool :=
  bool_decide (fieldName = lit "key") || bool_decide (fieldName = lit "value") ||
  bool_decide (fieldName = lit "metadata").

Record FieldInfo := { f_name : bytes; f_type : bytes; f_size : Z }.

(** What [SetTioData] stores, for the bytes of the field. *)
Definition SetTioData (fieldInfo : FieldInfo) (str : bytes) : res TioData :=
  if bool_decide (f_type fieldInfo = lit "int") then i ← lexical_cast_int str; Ok (Int i)
  else if bool_decide (f_type fieldInfo = lit "double") then d ← lexical_cast_double str; Ok (Double d)
  else if bool_decide (f_type fieldInfo = lit "string") then Ok (String str)
  else Throw (invalid_argument "invalid data type").

(** The output argument a field goes to. *)
Definition set_field (fieldInfo : FieldInfo) (str : res bytes) (o : outs) : res outs :=
  let '(key, v, m) := o in
  let set (x : out) : res out :=
    match x with None => Ok None | Some _ => s ← str; d ← SetTioData fieldInfo s; Ok (Some d) end in
  if bool_decide (f_name fieldInfo = lit "key") then k ← set key; Ok (k, v, m)
  else if bool_decide (f_name fieldInfo = lit "value") then v ← set v; Ok (key, v, m)
  else if bool_decide (f_name fieldInfo = lit "metadata") then m ← set m; Ok (key, v, m)
  else Ok o.

(** The fields one after the other from [offset]; the size of the buffer is in
    an assertion that always holds, so nothing checks a read but the memory. *)
Fixpoint extract_loop (fields : list FieldInfo) (buffer : bytes) (offset : Z) (o : outs) : res outs :=
  match fields with
  | [] => Ok o
  | f :: fields =>
      o ← set_field f (mem_read buffer offset (f_size f)) o;
      extract_loop fields buffer (offset + f_size f + 2) o
  end.

Definition ExtractFieldsFromBuffer (fields : list FieldInfo) (buffer : bytes) (o : outs) : res outs :=
  extract_loop fields buffer 0 o.

(** The words three by three; the total size is a [size_t]. *)
Fixpoint extract_set (params : list bytes) (fields : list FieldInfo) (totalSize : Z) : res (list FieldInfo * Z) :=
  match params with
  | [] => Ok (fields, totalSize)
  | name :: rest =>
      if negb (IsValidFieldName name) then Throw (invalid_argument "invalid field name")
      else match rest with
      | [] | [_] => Throw (invalid_argument "invalid number of parameters")
      | type :: size :: rest =>
          n ← lexical_cast_size_t size;
          extract_set rest (fields ++ [ {| f_name := name; f_type := type; f_size := n |} ]) (u64 (totalSize + (n + 2)))
      end
  end.

Definition ExtractFieldSet (params : list bytes) : res (list FieldInfo * Z) := extract_set params [] 0.

(** The server's own overload: how much data is still to come, or the fields. *)
Definition ExtractFieldSet_data (params : list bytes) (buffer : bytes) (o : outs) : res (Z * outs) :=
  '(fields, fieldsTotalSize) ← ExtractFieldSet params;
  if Z.of_nat (length buffer) <? fieldsTotalSize then Ok (fieldsTotalSize, o)
  else o ← ExtractFieldsFromBuffer fields buffer o; Ok (0, o).

(** ** Reading an answer *)

Inductive AnswerKind := TypeUndefined | TypeAnswer | TypeEvent.

Record ProtocolAnswer := {
  rawRequest : bytes; pendingDataSize : Z; a_type : AnswerKind; rawAnswerLine : bytes;
  eventName : bytes; parameter : bytes; parameterType : bytes; fieldSet : list FieldInfo;
  a_error : bool; errorMessage : bytes; a_key : TioData; a_value : TioData; a_metadata : TioData
}.

Definition Reset : ProtocolAnswer :=
  {| rawRequest := []; pendingDataSize := 0; a_type := TypeUndefined; rawAnswerLine := [];
     eventName := []; parameter := []; parameterType := []; fieldSet := [];
     a_error := false; errorMessage := []; a_key := None_; a_value := None_; a_metadata := None_ |}.

Definition with_line (l : bytes) (a : ProtocolAnswer) : ProtocolAnswer :=
  {| rawRequest := rawRequest a; pendingDataSize := pendingDataSize a; a_type := a_type a; rawAnswerLine := l;
     eventName := eventName a; parameter := parameter a; parameterType := parameterType a; fieldSet := fieldSet a;
     a_error := a_error a; errorMessage := errorMessage a; a_key := a_key a; a_value := a_value a;
     a_metadata := a_metadata a |}.
Definition with_kind (t : AnswerKind) (a : ProtocolAnswer) : ProtocolAnswer :=
  {| rawRequest := rawRequest a; pendingDataSize := pendingDataSize a; a_type := t; rawAnswerLine := rawAnswerLine a;
     eventName := eventName a; parameter := parameter a; parameterType := parameterType a; fieldSet := fieldSet a;
     a_error := a_error a; errorMessage := errorMessage a; a_key := a_key a; a_value := a_value a;
     a_metadata := a_metadata a |}.
Definition with_error (e : bool) (msg : bytes) (a : ProtocolAnswer) : ProtocolAnswer :=
  {| rawRequest := rawRequest a; pendingDataSize := pendingDataSize a; a_type := a_type a; rawAnswerLine := rawAnswerLine a;
     eventName := eventName a; parameter := parameter a; parameterType := parameterType a; fieldSet := fieldSet a;
     a_error := e; errorMessage := msg; a_key := a_key a; a_value := a_value a; a_metadata := a_metadata a |}.
Definition with_parameter (ty p : bytes) (a : ProtocolAnswer) : ProtocolAnswer :=
  {| rawRequest := rawRequest a; pendingDataSize := pendingDataSize a; a_type := a_type a; rawAnswerLine := rawAnswerLine a;
     eventName := eventName a; parameter := p; parameterType := ty; fieldSet := fieldSet a;
     a_error := a_error a; errorMessage := errorMessage a; a_key := a_key a; a_value := a_value a;
     a_metadata := a_metadata a |}.
Definition with_event (e : bytes) (a : ProtocolAnswer) : ProtocolAnswer :=
  {| rawRequest := rawRequest a; pendingDataSize := pendingDataSize a; a_type := a_type a; rawAnswerLine := rawAnswerLine a;
     eventName := e; parameter := parameter a; parameterType := parameterType a; fieldSet := fieldSet a;
     a_error := a_error a; errorMessage := errorMessage a; a_key := a_key a; a_value := a_value a;
     a_metadata := a_metadata a |}.
Definition with_fields (f : list FieldInfo) (n : Z) (a : ProtocolAnswer) : ProtocolAnswer :=
  {| rawRequest := rawRequest a; pendingDataSize := n; a_type := a_type a; rawAnswerLine := rawAnswerLine a;
     eventName := eventName a; parameter := parameter a; parameterType := parameterType a; fieldSet := f;
     a_error := a_error a; errorMessage := errorMessage a; a_key := a_key a; a_value := a_value a;
     a_metadata := a_metadata a |}.

(** [line.erase(line.end() - 1)] of a final carriage return. *)
Definition strip_cr (line : bytes) : bytes :=
  match last line with
  | Some b => if decide (b = x0d) then removelast line else line
  | None => line
  end.

Definition set_fields (params : list bytes) : M ProtocolAnswer unit :=
  '(fields, size) ← lift (ExtractFieldSet params); modify (with_fields fields size).

(** After [answer ok]. *)
Definition parse_ok (current : list bytes) : M ProtocolAnswer unit :=
  match current with
  | [] => mret tt
  | answerType :: current =>
      if bool_decide (answerType = []) then mret tt
      else if bool_decide (answerType = lit "data") then set_fields current
      else if bool_decide (answerType ∈ [lit "handle"; lit "count"; lit "type"]) then
        a ← get;
        _ ← modify (with_parameter answerType (parameter a));
        match current with
        | [] => throw (invalid_argument "invalid answer. dataType specified but no data.")
        | p :: _ => modify (with_parameter answerType p)
        end
      else mret tt
  end.

(** In the source the message of a wrong result has its words in double quotes. *)
Definition parse_answer (current : list bytes) : M ProtocolAnswer unit :=
  _ ← modify (with_kind TypeAnswer);
  match current with
  | [] => throw (Fault EndDeref)
  | result :: current =>
      if bool_decide (result = lit "ok") then
        _ ← modify (with_error false []); parse_ok current
      else if bool_decide (result = lit "error") then
        modify (with_error true (concat ((fun w => w ++ space) <$> current)))
      else throw (invalid_argument "invalid line. Result must be 'ok' or 'error'")
  end.

Definition parse_event (current : list bytes) : M ProtocolAnswer unit :=
  _ ← modify (with_kind TypeEvent);
  _ ← modify (with_parameter (lit "handle") []);
  match current with
  | [] => throw (runtime_error "invalid answer: no handle value")
  | p :: current =>
      _ ← modify (with_parameter (lit "handle") p);
      match current with
      | [] => throw (runtime_error "invalid answer: no data")
      | name :: current => _ ← modify (with_event name); set_fields current
      end
  end.

Definition ParseAnswerLine (line : bytes) : M ProtocolAnswer unit :=
  if bool_decide (line = []) then throw (invalid_argument "empty command line")
  else
    let line := strip_cr line in
    _ ← modify (fun _ => with_line line Reset);
    match split x20 line with
    | [] => throw (Fault EndDeref)
    | answerType :: current =>
        if bool_decide (answerType = lit "answer") then parse_answer current
        else if bool_decide (answerType = lit "event") then parse_event current
        else mret tt
    end.

(** ** Words *)

(** No space and no line feed. *)
Definition no_space (w : bytes) : Prop := Forall (fun b => b <> x20 /\ b <> x0a) w.

Lemma split_word w : no_space w -> split x20 w = [w].
Proof.
  induction 1 as [|b w [Hb _] Hw IH]; [done|]. cbn [split]. by rewrite decide_False, IH by done.
Qed.

Lemma split_cons w rest : no_space w -> split x20 (w ++ space ++ rest) = w :: split x20 rest.
Proof.
  change (space ++ rest) with (x20 :: rest).
  induction 1 as [|b w [Hb _] Hw IH]; cbn [app split]; [by rewrite decide_True by done|].
  rewrite decide_False by done. simpl in IH |- *. by rewrite IH.
Qed.

Definition spaced (ws : list bytes) : bytes := concat ((fun w => space ++ w) <$> ws).

Lemma split_words ws : forall w, no_space w -> Forall no_space ws -> split x20 (w ++ spaced ws) = w :: ws.
Proof.
  induction ws as [|v ws IH]; intros w Hw Hws; unfold spaced; cbn [fmap list_fmap concat].
  - rewrite app_nil_r. by apply split_word.
  - apply Forall_cons in Hws as [Hv Hws]. rewrite <- !app_assoc, split_cons by done. f_equal. by apply IH.
Qed.

(** The words of a split, each with a space, are the text with a space. *)
Lemma split_concat s : concat ((fun w => w ++ space) <$> split x20 s) = s ++ space.
Proof.
  induction s as [|b s IH]; [done|]. cbn [split]. case_decide as E; [subst; cbn; by rewrite IH|].
  destruct (split x20 s) as [|w ws] eqn:Es; [by destruct s; simpl in Es; repeat case_match|].
  simpl in *. by rewrite IH.
Qed.

Lemma digits_no_space ds : forallb is_digit ds = true -> no_space ds.
Proof.
  induction ds as [|b ds IH]; [constructor|]. simpl. intros [H1 H2]%andb_true_iff. constructor; [|by apply IH].
  split; intros ->; by vm_compute in H1.
Qed.

Lemma print_nat_no_space n : 0 <= n -> no_space (print_nat n).
Proof. intros H. apply digits_no_space. by destruct (print_nat_spec n H) as (_ & ? & _). Qed.

(** ** The fields of a message *)

Notation named := (list (bytes * TioData)).

Definition present (l : named) : named := filter (fun p => Empty p.2 = false) l.

Definition text_size (t : TioData) : Z := Z.of_nat (length (print print_double t)).

Definition info (p : bytes * TioData) : FieldInfo :=
  {| f_name := p.1; f_type := GetDataTypeAsString p.2; f_size := text_size p.2 |}.

Definition info_words (p : bytes * TioData) : list bytes :=
  [p.1; GetDataTypeAsString p.2; print_nat (text_size p.2)].

Definition field_bytes (l : named) : bytes := concat ((fun p => print print_double p.2 ++ crlf) <$> l).

(** Values whose text is read back: any [int], any string, and the doubles that
    the library prints exactly. *)
Definition text_ok (t : TioData) : Prop :=
  match t with Int i => is_int i | Double d => lexical_cast_double (print_double d) = Ok d | _ => True end.

Lemma SetTioData_print p : text_ok p.2 -> Empty p.2 = false -> SetTioData (info p) (print print_double p.2) = Ok p.2.
Proof.
  destruct p as [n [|i|d|s] ]; intros H He; try done; unfold SetTioData; simpl in *.
  - by rewrite lexical_cast_int_print.
  - by rewrite H.
Qed.

Lemma type_no_space t : no_space (GetDataTypeAsString t).
Proof. destruct t; repeat (constructor; try (split; discriminate)). Qed.

Lemma extract_set_words l : forall fields total,
  Forall (fun p => IsValidFieldName p.1 = true) l -> 0 <= total ->
  total + Z.of_nat (length (field_bytes l)) < 2 ^ 64 ->
  extract_set (concat (info_words <$> l)) fields total
  = Ok (fields ++ (info <$> l), total + Z.of_nat (length (field_bytes l))).
Proof.
  induction l as [|[n t] l IH]; intros fields total Hv Ht Hb.
  - simpl. rewrite app_nil_r, Z.add_0_r. done.
  - apply Forall_cons in Hv as [Hn Hv]. simpl in Hn.
    unfold field_bytes in *. cbn [fmap list_fmap concat snd] in *. rewrite !length_app in *. cbn [length crlf] in *.
    cbn [info_words app extract_set fst snd]. rewrite Hn. cbn [negb].
    unfold text_size. rewrite lexical_cast_size_t_print by lia. mrun.
    set (len := length (print print_double t)) in *.
    assert (Hu : u64 (total + (Z.of_nat len + 2)) = total + (Z.of_nat len + 2)) by (unfold u64; apply Z.mod_small; lia).
    rewrite Hu, IH by (done || lia). rewrite <- app_assoc. do 2 f_equal. lia.
Qed.

(** What a field does to the output arguments. *)
Definition put_field (o : outs) (p : bytes * TioData) : outs :=
  let '(k, v, m) := o in
  if bool_decide (p.1 = lit "key") then (assign k p.2, v, m)
  else if bool_decide (p.1 = lit "value") then (k, assign v p.2, m)
  else if bool_decide (p.1 = lit "metadata") then (k, v, assign m p.2)
  else o.

Definition good (p : bytes * TioData) : Prop := text_ok p.2 /\ Empty p.2 = false.

Lemma set_field_print p o :
  good p -> set_field (info p) (Ok (print print_double p.2)) o = Ok (put_field o p).
Proof.
  intros [H1 H2]. destruct o as [ [k v] m]. unfold set_field, put_field. cbn [info f_name].
  pose proof (SetTioData_print p H1 H2) as E. cbn zeta.
  repeat case_bool_decide; destruct k, v, m; mrun; rewrite ?E; mrun; done.
Qed.

Lemma extract_loop_data l : forall pre o,
  Forall good l ->
  extract_loop (info <$> l) (pre ++ field_bytes l) (Z.of_nat (length pre)) o = Ok (fold_left put_field l o).
Proof.
  induction l as [|p l IH]; intros pre o Hl; [done|]. apply Forall_cons in Hl as [Hp Hl].
  unfold field_bytes. cbn [fmap list_fmap concat extract_loop fold_left]. rewrite <- app_assoc.
  rewrite mem_read_seg by done. rewrite set_field_print by done. mrun.
  specialize (IH (pre ++ print print_double p.2 ++ crlf) (put_field o p) Hl).
  rewrite <- IH. unfold field_bytes, text_size. rewrite <- !app_assoc. f_equal.
  rewrite !length_app. cbn [length crlf info f_size]. unfold text_size. lia.
Qed.

(** *** A message as words and data *)

Definition fields3 (key v m : TioData) : named :=
  present [(lit "key", key); (lit "value", v); (lit "metadata", m)].

Lemma spaced_app a b : spaced (a ++ b) = spaced a ++ spaced b.
Proof. unfold spaced. by rewrite fmap_app, concat_app. Qed.

Lemma header_words n t : field_header n t = spaced (concat (info_words <$> present [(n, t)])).
Proof.
  unfold field_header, present. cbn [filter list_filter]. destruct (Empty t) eqn:E.
  - by rewrite decide_False by (simpl; congruence).
  - rewrite decide_True by done. unfold spaced. cbn. unfold text_size. by rewrite app_nil_r, <- ?app_assoc.
Qed.

Lemma data_bytes n t : field_data t = field_bytes (present [(n, t)]).
Proof.
  unfold field_data, present, field_bytes. cbn [filter list_filter]. destruct (Empty t) eqn:E.
  - by rewrite decide_False by (simpl; congruence).
  - rewrite decide_True by done. cbn. by rewrite app_nil_r.
Qed.

Lemma fields3_app key v m :
  fields3 key v m = present [(lit "key", key)] ++ present [(lit "value", v)] ++ present [(lit "metadata", m)].
Proof. unfold fields3, present. by rewrite <- !filter_app. Qed.

Definition all_null (key v m : TioData) : bool := Empty key && Empty v && Empty m.

Lemma SerializeData_words key v m :
  all_null key v m = false ->
  SerializeData key v m
  = spaced (concat (info_words <$> fields3 key v m)) ++ crlf ++ field_bytes (fields3 key v m).
Proof.
  intros Hn. unfold SerializeData. replace (negb _ && negb _ && negb _) with (all_null key v m).
  2: { unfold all_null, Empty, operator_bool. by rewrite !negb_involutive. }
  rewrite Hn, fields3_app. rewrite !fmap_app, !concat_app, !spaced_app, <- !header_words.
  unfold field_bytes. rewrite !fmap_app, !concat_app. fold (field_bytes (present [(lit "key", key)])).
  fold (field_bytes (present [(lit "value", v)])). fold (field_bytes (present [(lit "metadata", m)])).
  by rewrite <- !data_bytes.
Qed.

Lemma fields3_good key v m :
  text_ok key -> text_ok v -> text_ok m ->
  Forall good (fields3 key v m) /\ Forall (fun p => IsValidFieldName p.1 = true) (fields3 key v m) /\
  Forall no_space (concat (info_words <$> fields3 key v m)) /\
  fold_left put_field (fields3 key v m) (Some None_, Some None_, Some None_) = (Some key, Some v, Some m).
Proof.
  intros H1 H2 H3.
  assert (Hone : forall n t, IsValidFieldName n = true -> no_space n -> text_ok t ->
    Forall good (present [(n, t)]) /\ Forall (fun p => IsValidFieldName p.1 = true) (present [(n, t)]) /\
    Forall no_space (concat (info_words <$> present [(n, t)]))).
  { intros n t Hn Hs Ht. unfold present. cbn [filter list_filter]. case_decide as E; [|by repeat split; constructor].
    split; [by repeat constructor|]. split; [by repeat constructor|]. cbn. unfold text_size.
    repeat constructor; [done|apply type_no_space|apply print_nat_no_space; lia]. }
  destruct (Hone (lit "key") key) as (A1 & A2 & A3); [done|repeat (constructor; try (split; discriminate))|done|].
  destruct (Hone (lit "value") v) as (B1 & B2 & B3); [done|repeat (constructor; try (split; discriminate))|done|].
  destruct (Hone (lit "metadata") m) as (C1 & C2 & C3); [done|repeat (constructor; try (split; discriminate))|done|].
  rewrite fields3_app, !fmap_app, !concat_app, !Forall_app, !fold_left_app. do 3 (split; [done|]).
  clear. destruct key, v, m; done.
Qed.

(** ** Lines *)

Lemma strip_cr_end l : strip_cr (l ++ [x0d]) = l.
Proof. unfold strip_cr. rewrite last_snoc. rewrite decide_True by done. apply removelast_last. Qed.

Lemma spaced_no_lf ws : Forall no_space ws -> x0a ∉ spaced ws.
Proof.
  induction 1 as [|w ws Hw Hws IH]; unfold spaced; cbn [fmap list_fmap concat]; [apply not_elem_of_nil|].
  rewrite !elem_of_app. intros [ [H|H]|H]; [|by eapply Forall_forall in Hw as [_ Hw]; [|exact H]|by apply IH].
  apply list_elem_of_singleton in H. discriminate.
Qed.

(** A line of words, with its carriage return, as the parser sees it. *)
Lemma parse_words w ws a :
  no_space w -> Forall no_space ws ->
  ParseAnswerLine ((w ++ spaced ws) ++ [x0d]) a =
    (if bool_decide (w = lit "answer") then parse_answer ws
     else if bool_decide (w = lit "event") then parse_event ws else mret tt) (with_line (w ++ spaced ws) Reset).
Proof.
  intros Hw Hws. unfold ParseAnswerLine. rewrite bool_decide_false by by intros [_ ?]%app_eq_nil.
  cbn zeta. rewrite strip_cr_end, bind_modify, split_words by done. done.
Qed.

(** What receiving a message gives: the line up to its line feed is parsed, then
    as many bytes as it announces are taken for the fields. *)
Definition received (message : bytes) (a : ProtocolAnswer) (key v m : TioData) : Prop :=
  exists line data, message = line ++ [x0a] ++ data /\ x0a ∉ line /\
    (forall a0, ParseAnswerLine line a0 = (Ok tt, a)) /\ pendingDataSize a = Z.of_nat (length data) /\
    ExtractFieldsFromBuffer (fieldSet a) data (Some None_, Some None_, Some None_) = Ok (Some key, Some v, Some m).

Lemma set_fields_run key v m a :
  text_ok key -> text_ok v -> text_ok m ->
  Z.of_nat (length (field_bytes (fields3 key v m))) < 2 ^ 64 ->
  set_fields (concat (info_words <$> fields3 key v m)) a =
    (Ok tt, with_fields (info <$> fields3 key v m) (Z.of_nat (length (field_bytes (fields3 key v m)))) a).
Proof.
  intros H1 H2 H3 Hb. destruct (fields3_good key v m H1 H2 H3) as (_ & Hv & _).
  unfold set_fields. assert (E : ExtractFieldSet (concat (info_words <$> fields3 key v m)) =
    Ok (info <$> fields3 key v m, Z.of_nat (length (field_bytes (fields3 key v m))))).
  { unfold ExtractFieldSet. by rewrite extract_set_words by (done || lia). }
  mstep E. done.
Qed.

Lemma lit_no_space_words :
  no_space (lit "answer") /\ no_space (lit "event") /\ no_space (lit "ok") /\ no_space (lit "data").
Proof. repeat split; repeat (constructor; try (split; discriminate)). Qed.

Lemma word_no_lf w : no_space w -> x0a ∉ w.
Proof. intros Hw Hin. eapply Forall_forall in Hw as [_ Hw]; [|exact Hin]. done. Qed.

(** The message whose line has the words [w], [ws] and those of the fields. *)
Lemma received_words w ws key v m a :
  no_space w -> Forall no_space ws -> text_ok key -> text_ok v -> text_ok m -> all_null key v m = false ->
  (forall a0, ParseAnswerLine ((w ++ spaced (ws ++ concat (info_words <$> fields3 key v m))) ++ [x0d]) a0
    = (Ok tt, with_fields (info <$> fields3 key v m) (Z.of_nat (length (field_bytes (fields3 key v m)))) a)) ->
  received (w ++ spaced ws ++ SerializeData key v m)
    (with_fields (info <$> fields3 key v m) (Z.of_nat (length (field_bytes (fields3 key v m)))) a) key v m.
Proof.
  intros Hw Hws H1 H2 H3 Hn Hp. destruct (fields3_good key v m H1 H2 H3) as (Hg & _ & Hsp & Hput).
  rewrite SerializeData_words by done.
  exists ((w ++ spaced (ws ++ concat (info_words <$> fields3 key v m))) ++ [x0d]), (field_bytes (fields3 key v m)).
  split; [rewrite spaced_app; change crlf with ([x0d] ++ [x0a]); by rewrite <- !app_assoc|].
  split.
  { rewrite !elem_of_app. intros [ [H|H]|H].
    - by apply (word_no_lf w).
    - eapply spaced_no_lf; [|exact H]. by apply Forall_app.
    - apply list_elem_of_singleton in H. discriminate. }
  split; [done|]. split; [done|]. cbn [fieldSet with_fields]. unfold ExtractFieldsFromBuffer.
  rewrite <- Hput. by apply (extract_loop_data _ []).
Qed.

Lemma parse_data_words key v m a0 :
  text_ok key -> text_ok v -> text_ok m ->
  Z.of_nat (length (field_bytes (fields3 key v m))) < 2 ^ 64 ->
  let ws := concat (info_words <$> fields3 key v m) in
  let line := lit "answer" ++ spaced ([lit "ok"; lit "data"] ++ ws) in
  ParseAnswerLine (line ++ [x0d]) a0 =
    (Ok tt, with_fields (info <$> fields3 key v m) (Z.of_nat (length (field_bytes (fields3 key v m))))
       (with_error false [] (with_kind TypeAnswer (with_line line Reset)))).
Proof.
  intros H1 H2 H3 Hb ws line. destruct (fields3_good key v m H1 H2 H3) as (_ & _ & Hsp & _).
  destruct lit_no_space_words as (Ha & _ & Hok & Hd).
  unfold line, ws. rewrite parse_words by (try apply Forall_app; repeat constructor; done).
  rewrite bool_decide_true by done. unfold parse_answer. rewrite bind_modify. cbn [app].
  rewrite bool_decide_true by done. rewrite bind_modify. unfold parse_ok.
  rewrite bool_decide_false, bool_decide_true by done. by rewrite set_fields_run.
Qed.

Lemma parse_event_words name handle key v m a0 :
  no_space name -> 0 <= handle -> text_ok key -> text_ok v -> text_ok m ->
  Z.of_nat (length (field_bytes (fields3 key v m))) < 2 ^ 64 ->
  let ws := concat (info_words <$> fields3 key v m) in
  let line := lit "event" ++ spaced ([print_nat handle; name] ++ ws) in
  ParseAnswerLine (line ++ [x0d]) a0 =
    (Ok tt, with_fields (info <$> fields3 key v m) (Z.of_nat (length (field_bytes (fields3 key v m))))
       (with_event name (with_parameter (lit "handle") (print_nat handle)
          (with_kind TypeEvent (with_line line Reset))))).
Proof.
  intros Hn Hh H1 H2 H3 Hb ws line. destruct (fields3_good key v m H1 H2 H3) as (_ & _ & Hsp & _).
  destruct lit_no_space_words as (_ & He & _). pose proof (print_nat_no_space handle Hh) as Hp.
  unfold line, ws. rewrite parse_words by (try apply Forall_app; repeat constructor; done).
  rewrite bool_decide_false, bool_decide_true by done. unfold parse_event. rewrite !bind_modify. cbn [app].
  rewrite !bind_modify. by rewrite set_fields_run.
Qed.

End TextProtocol.

(** ** Properties *)

(** C35. Data answers of the text protocol are read back.  A data answer with at
    least one non-null value is a line and then the bytes of its fields; the
    client's parser takes the line for a successful answer that announces
    exactly those bytes, and gets from them the key, value and metadata that
    were sent: any integer, any string (line ends and spaces included), and any
    double whose printed form reads back as itself. *)
Theorem data_answer_roundtrip print_double lexical_cast_double key v m :
  let ok := text_ok print_double lexical_cast_double in
  ok key -> ok v -> ok m -> all_null key v m = false ->
  Z.of_nat (length (MakeDataAnswer print_double key v m)) < 2 ^ 64 ->
  exists a, received lexical_cast_double (MakeDataAnswer print_double key v m) a key v m /\
    a_type a = TypeAnswer /\ a_error a = false.
Proof.
  intros ok H1 H2 H3 Hn Hb. destruct lit_no_space_words as (Ha & _ & Hok & Hd).
  assert (E : MakeDataAnswer print_double key v m
    = lit "answer" ++ spaced [lit "ok"; lit "data"] ++ SerializeData print_double key v m) by done.
  assert (Hs : Z.of_nat (length (field_bytes print_double (fields3 key v m))) < 2 ^ 64).
  { rewrite E, !length_app, (SerializeData_words print_double key v m Hn), !length_app in Hb. lia. }
  rewrite E. eexists. split; [eapply (received_words _ lexical_cast_double); try done; [repeat constructor; done|]|].
  - intros a0. by apply parse_data_words with (lexical_cast_double := lexical_cast_double).
  - done.
Qed.

(** Events of the text protocol are read back: the parser gets the handle,
    the name of the event and the key, value and metadata that were sent. *)
Theorem event_answer_roundtrip print_double lexical_cast_double name handle key v m :
  let ok := text_ok print_double lexical_cast_double in
  ok key -> ok v -> ok m -> all_null key v m = false -> no_space name -> 0 <= handle ->
  Z.of_nat (length (MakeEventAnswer print_double name handle key v m)) < 2 ^ 64 ->
  exists a, received lexical_cast_double (MakeEventAnswer print_double name handle key v m) a key v m /\
    a_type a = TypeEvent /\ eventName a = name /\ parameter a = print_nat handle.
Proof.
  intros ok H1 H2 H3 Hn Hname Hh Hb. destruct lit_no_space_words as (_ & He & _).
  assert (E : MakeEventAnswer print_double name handle key v m
    = lit "event" ++ spaced [print_nat handle; name] ++ SerializeData print_double key v m).
  { unfold MakeEventAnswer, spaced. cbn [fmap list_fmap concat]. rewrite app_nil_r, <- !app_assoc. done. }
  assert (Hs : Z.of_nat (length (field_bytes print_double (fields3 key v m))) < 2 ^ 64).
  { rewrite E, !length_app, (SerializeData_words print_double key v m Hn), !length_app in Hb. lia. }
  rewrite E. eexists. split; [eapply (received_words _ lexical_cast_double); try done|].
  - repeat constructor; [by apply print_nat_no_space|done].
  - intros a0. by apply parse_event_words with (lexical_cast_double := lexical_cast_double).
  - done.
Qed.

(** The sizes of fields are not checked against the data.  The total is a
    64-bit sum and a size may be negative: a command that announces a key of
    -2 bytes asks for no data, and the server takes a key from outside of the
    buffer. *)
Theorem field_size_wraps lexical_cast_double buffer v m :
  Z.of_nat (length buffer) < 2 ^ 63 ->
  ExtractFieldSet_data lexical_cast_double [lit "key"; lit "string"; lit "-2"] buffer (Some None_, v, m)
  = Throw (Fault OutOfBounds).
Proof.
  intros Hb.
  assert (E : ExtractFieldSet [lit "key"; lit "string"; lit "-2"] =
    Ok ([ {| f_name := lit "key"; f_type := lit "string"; f_size := 2 ^ 64 - 2 |} ], 0)) by reflexivity.
  unfold ExtractFieldSet_data. rewrite E. mrun. ztest. unfold ExtractFieldsFromBuffer. cbn [extract_loop].
  unfold mem_read. cbn [f_size]. ztest. cbn [andb]. ztest. reflexivity.
Qed.

(** ** Witnesses *)

(** A library whose doubles print as their bytes. *)
Definition ex_print (d : bytes) : bytes := d.
Definition ex_read (s : bytes) : res bytes := Ok s.

Lemma data_answer_roundtrip_witness :
  exists a, received ex_read (MakeDataAnswer ex_print (Int (-7)) (String (lit "two words")) None_) a
      (Int (-7)) (String (lit "two words")) None_ /\ a_type a = TypeAnswer /\ a_error a = false.
Proof.
  apply (data_answer_roundtrip ex_print ex_read (Int (-7)) (String (lit "two words")) None_).
  - unfold text_ok, is_int, INT_MIN, INT_MAX. lia.
  - exact I.
  - exact I.
  - reflexivity.
  - vm_compute. reflexivity.
Defined.

Lemma event_answer_roundtrip_witness :
  exists a, received ex_read (MakeEventAnswer ex_print (lit "push_back") 12 (Int 3) (Double (lit "12345678")) None_) a
      (Int 3) (Double (lit "12345678")) None_ /\
    a_type a = TypeEvent /\ eventName a = lit "push_back" /\ parameter a = print_nat 12.
Proof.
  apply (event_answer_roundtrip ex_print ex_read (lit "push_back") 12 (Int 3) (Double (lit "12345678")) None_).
  - unfold text_ok, is_int, INT_MIN, INT_MAX. lia.
  - reflexivity.
  - exact I.
  - reflexivity.
  - repeat (constructor; try (split; discriminate)).
  - lia.
  - vm_compute. reflexivity.
Defined.

Lemma field_size_wraps_witness :
  ExtractFieldSet_data ex_read [lit "key"; lit "string"; lit "-2"] (lit "abc") (Some None_, None, None)
  = Throw (Fault OutOfBounds).
Proof. apply (field_size_wraps ex_read (lit "abc") None None). vm_compute. reflexivity. Defined.

End TextProtocol.
