(* ===== verification/ContainerManager.v ===== *)
(** * The container manager: [server/tio/ContainerManager.cpp] and [.h]

    The catalogue of the server's containers.  A [Container] object is a storage
    and its property map; the manager keeps weak pointers to the container
    objects it gave out, by name, and two containers of its own: a map from
    the names of the containers to their types, and a vector of the types.
    Container objects live in a heap of their own ([live]): one expires when the
    last of its users drops it.  The storages live in the one
    [MemoryStorageManager] that [tio.cpp] registers for all types.  [events] are
    the calls of the subscriber [sink_], with the id of the storage, in order. *)
From S2P Require Import Prelude StdMap TioDataS Containers ListStorage MapStorage VectorStorage MemoryStorage.

Module ContainerManager.
Import StdMap TioData Containers.

Notation loc := nat (only parsing).
#[local] Existing Instances MemoryStorage.any_storage MapStorage.map_storage.

(** ** State *)

(** [class Container]: its two pointers. *)
Record Container := { storage_ : option loc; propertyMap_ : option loc }.

(** The objects behind a [shared_ptr<ITioStorageManager>]: [LoadStorageTypes]
    makes one. *)
Inductive StorageManager := mem.

Inductive OperationType := create | open.

Record t := mk {
  managerByType_ : list (bytes * StorageManager);
  aliases_ : list (bytes * bytes);
  subscriber_ : bool;                               (* whether [sink_] is set *)
  openContainers_ : list (bytes * loc);             (* weak pointers *)
  meta_containers_ : option loc;
  meta_availableTypes_ : option loc;
  memory : MemoryStorage.MemoryStorageManager;
  live : gmap loc Container;
  next_container : loc;
  events : list (loc * event)
}.

Definition set_managers x s := mk x (aliases_ s) (subscriber_ s) (openContainers_ s) (meta_containers_ s)
  (meta_availableTypes_ s) (memory s) (live s) (next_container s) (events s).
Definition set_aliases x s := mk (managerByType_ s) x (subscriber_ s) (openContainers_ s) (meta_containers_ s)
  (meta_availableTypes_ s) (memory s) (live s) (next_container s) (events s).
Definition set_subscriber x s := mk (managerByType_ s) (aliases_ s) x (openContainers_ s) (meta_containers_ s)
  (meta_availableTypes_ s) (memory s) (live s) (next_container s) (events s).
Definition set_open x s := mk (managerByType_ s) (aliases_ s) (subscriber_ s) x (meta_containers_ s)
  (meta_availableTypes_ s) (memory s) (live s) (next_container s) (events s).
Definition set_meta_containers x s := mk (managerByType_ s) (aliases_ s) (subscriber_ s) (openContainers_ s) x
  (meta_availableTypes_ s) (memory s) (live s) (next_container s) (events s).
Definition set_meta_types x s := mk (managerByType_ s) (aliases_ s) (subscriber_ s) (openContainers_ s)
  (meta_containers_ s) x (memory s) (live s) (next_container s) (events s).
Definition set_memory x s := mk (managerByType_ s) (aliases_ s) (subscriber_ s) (openContainers_ s)
  (meta_containers_ s) (meta_availableTypes_ s) x (live s) (next_container s) (events s).
Definition set_live x n s := mk (managerByType_ s) (aliases_ s) (subscriber_ s) (openContainers_ s)
  (meta_containers_ s) (meta_availableTypes_ s) (memory s) x n (events s).
Definition add_events x s := mk (managerByType_ s) (aliases_ s) (subscriber_ s) (openContainers_ s)
  (meta_containers_ s) (meta_availableTypes_ s) (memory s) (live s) (next_container s) (events s ++ x).

Definition make : t := mk [] [] false [] None None MemoryStorage.make ∅ 0%nat [].

(** ** Calls *)

Definition on_memory {A} (m : M MemoryStorage.MemoryStorageManager A) : M t A := fun s =>
  let '(r, x) := m (memory s) in (r, set_memory x s).

Definition any_published (a : MemoryStorage.AnyStorage) : list event :=
  match a with
  | MemoryStorage.AnyVector s => published s
  | MemoryStorage.AnyMap s => published s
  | MemoryStorage.AnyList s => published s
  end.

(** The storage at [l]. *)
Definition at_loc (l : loc) (m : MemoryStorage.MemoryStorageManager) : option MemoryStorage.AnyStorage :=
  MemoryStorage.storages (MemoryStorage.objects m) !! l.

(** What storage [l] published between two states, with its id. *)
Definition published_since (l : loc) (m m' : MemoryStorage.MemoryStorageManager) : list (loc * event) :=
  match at_loc l m, at_loc l m' with
  | Some a, Some a' => pair l <$> drop (length (any_published a)) (any_published a')
  | _, _ => []
  end.

(** A call of the storage behind a [shared_ptr<ITioContainer>]; what the storage
    publishes goes to the subscriber. *)
Definition call {A} (p : option loc) (f : M MemoryStorage.AnyStorage A) : M t A := fun s =>
  match p with
  | None => (Throw (Fault NullDeref), s)
  | Some c =>
      match live s !! c with
      | None => (Throw (Fault UseAfterFree), s)
      | Some o =>
          let '(r, m) := MemoryStorage.call (storage_ o) f (memory s) in
          (r, add_events (match storage_ o with Some l => published_since l (memory s) m | None => [] end)
                (set_memory m s))
      end
  end.

(** [Container::GetProperty] and [Container::SetProperty] *)
Definition with_properties {A} (p : option loc) (f : loc -> M MemoryStorage.MemoryStorageManager A) : M t A := fun s =>
  match p with
  | None => (Throw (Fault NullDeref), s)
  | Some c =>
      match live s !! c with
      | None => (Throw (Fault UseAfterFree), s)
      | Some o =>
          match propertyMap_ o with
          | None => (Throw (Fault NullDeref), s)
          | Some l => on_memory (f l) s
          end
      end
  end.

Definition GetProperty (p : option loc) (key : bytes) : M t bytes :=
  with_properties p (fun l => MemoryStorage.GetProperty l key).
Definition SetProperty (p : option loc) (key v : bytes) : M t unit :=
  with_properties p (fun l => MemoryStorage.SetProperty l key v).

(** [new Container(storage, propertyMap)] *)
Definition new_container (p : option loc * option loc) : M t loc :=
  s ← get;
  let c := next_container s in
  _ ← modify (set_live (<[c := {| storage_ := p.1; propertyMap_ := p.2 |}]> (live s)) (S c));
  mret c.

(** The last user of a container object dropped it. *)
Definition expire (c : loc) (s : t) : t := set_live (delete c (live s)) (next_container s) s.

(** [i != openContainers_.end() && !i->second.expired()], then [lock()]. *)
Definition open_container (name : bytes) (s : t) : option loc :=
  match find name (openContainers_ s) with
  | Some c => match live s !! c with Some _ => Some c | None => None end
  | None => None
  end.

(** ** Operations *)

Definition ResolveAlias (type : bytes) (s : t) : bytes :=
  if bool_decide (type = []) then type
  else match find type (aliases_ s) with Some x => x | None => type end.

Definition invalid_type (type : bytes) : exn :=
  invalid_argument (string_of_list_byte (lit "invalid type: " ++ type)).

Definition GetStorageManagerByType (type : bytes) : M t StorageManager :=
  s ← get;
  let type := ResolveAlias type s in
  match find type (managerByType_ s) with
  | None => throw (invalid_type type)
  | Some m => mret m
  end.

Definition is_set {A} (o : option A) : bool := match o with Some _ => true | None => false end.

Definition CreateOrOpen (type : bytes) (op : OperationType) (name : bytes) : M t loc :=
  s ← get;
  let type := ResolveAlias type s in
  match open_container name s with
  | Some c => mret c
  | None =>
      p ←
        match op with
        | create =>
            _ ← GetStorageManagerByType type;
            p ← on_memory (MemoryStorage.CreateStorage type name);
            s ← get;
            _ ← (if is_set (meta_containers_ s)
                 then call (meta_containers_ s) (Set_ (String name) (String type) TIONULL)
                 else mret tt);
            mret p
        | open =>
            type ←
              (if bool_decide (type = []) then
                 s ← get;
                 '(_, value, _) ← call (meta_containers_ s) (GetRecord (String name) None (Some None_) None);
                 lift (AsSz (default None_ value))
               else mret type);
            _ ← GetStorageManagerByType type;
            on_memory (MemoryStorage.OpenStorage type name)
        end;
      c ← new_container p;
      s ← get;
      _ ← modify (set_open (assign_at name c (openContainers_ s)));
      mret c
  end.

Definition CreateContainer (type name : bytes) : M t loc := CreateOrOpen type create name.
Definition OpenContainer (type name : bytes) : M t loc := CreateOrOpen type open name.

Definition DeleteContainer (type name : bytes) : M t unit :=
  s ← get;
  let realType := ResolveAlias type s in
  _ ← GetStorageManagerByType realType;
  _ ← on_memory (MemoryStorage.DeleteStorage realType name);
  s ← get;
  call (meta_containers_ s) (Delete (String name) TIONULL TIONULL).

Definition AddAlias (alias type : bytes) : M t unit :=
  s ← get; modify (set_aliases (assign_at alias type (aliases_ s))).

Definition Exists (containerType containerName : bytes) : M t bool :=
  _ ← GetStorageManagerByType containerType;
  s ← get;
  mret (MemoryStorage.Exists containerType containerName (memory s)).

(** [manager->SetSubscriber(sink)] of a registered manager. *)
Definition subscribe_manager (m : StorageManager) (sink : bool) : M t unit :=
  match m with mem => on_memory (MemoryStorage.ManagerSetSubscriber sink) end.

Fixpoint subscribe_managers (sink : bool) (l : list (bytes * StorageManager)) : M t unit :=
  match l with
  | [] => mret tt
  | (_, m) :: l => _ ← subscribe_manager m sink; subscribe_managers sink l
  end.

Definition SetSubscriber (sink : bool) : M t unit :=
  _ ← modify (set_subscriber sink);
  s ← get;
  subscribe_managers sink (managerByType_ s).

Definition RemoveSubscriber : M t unit :=
  _ ← modify (set_subscriber false);
  s ← get;
  subscribe_managers false (managerByType_ s).

Definition RegisterFundamentalStorageManagers (vector_ list_ map_ : StorageManager) : M t unit :=
  s ← get;
  _ ← subscribe_manager vector_ (subscriber_ s);
  _ ← subscribe_manager list_ (subscriber_ s);
  _ ← subscribe_manager map_ (subscriber_ s);
  _ ← modify (fun s => set_managers
        (assign_at (lit "volatile_map") map_ (assign_at (lit "volatile_list") list_
          (assign_at (lit "volatile_vector") vector_ (managerByType_ s)))) s);
  c ← CreateContainer (lit "volatile_map") (lit "__meta__/containers");
  _ ← modify (set_meta_containers (Some c));
  c ← CreateContainer (lit "volatile_vector") (lit "__meta__/available_types");
  _ ← modify (set_meta_types (Some c));
  c ← CreateContainer (lit "volatile_map") (lit "__meta__/containers");
  _ ← modify (set_meta_containers (Some c));
  s ← get;
  _ ← call (meta_availableTypes_ s) (PushBack None_ (String (lit "volatile_vector")) TIONULL);
  _ ← call (meta_availableTypes_ s) (PushBack None_ (String (lit "volatile_list")) TIONULL);
  call (meta_availableTypes_ s) (PushBack None_ (String (lit "volatile_map")) TIONULL).

(** [BOOST_FOREACH(si, storageList) meta_containers_->Set(si.name, si.type)] *)
Fixpoint list_storages (l : list (bytes * bytes)) : M t unit :=
  match l with
  | [] => mret tt
  | (n, ty) :: l =>
      s ← get;
      _ ← call (meta_containers_ s) (Set_ (String n) (String ty) TIONULL);
      list_storages l
  end.

Definition RegisterStorageManager (type : bytes) (manager : StorageManager) : M t unit :=
  s ← get;
  _ ← subscribe_manager manager (subscriber_ s);
  _ ← modify (fun s => set_managers (assign_at type manager (managerByType_ s)) s);
  s ← get;
  _ ← call (meta_availableTypes_ s) (PushBack TIONULL (String type) TIONULL);
  list_storages (match manager with mem => MemoryStorage.GetStorageList (memory s) end).

(** [LoadStorageTypes] and [SetupContainerManager] of [tio.cpp]. *)
Definition LoadStorageTypes : M t unit := RegisterFundamentalStorageManagers mem mem mem.

Fixpoint add_aliases (aliases : list (bytes * bytes)) : M t unit :=
  match aliases with
  | [] => mret tt
  | (a, x) :: l => _ ← AddAlias a x; add_aliases l
  end.

Definition SetupContainerManager (aliases : list (bytes * bytes)) : M t unit :=
  _ ← LoadStorageTypes; add_aliases aliases.

(** ** Lemmas on calls *)

Definition set_storage (l : loc) (a : MemoryStorage.AnyStorage) (m : MemoryStorage.MemoryStorageManager) :=
  MemoryStorage.set_objects {|
    MemoryStorage.storages := <[l := a]> (MemoryStorage.storages (MemoryStorage.objects m));
    MemoryStorage.propertyMaps := MemoryStorage.propertyMaps (MemoryStorage.objects m);
    MemoryStorage.next := MemoryStorage.next (MemoryStorage.objects m) |} m.

Lemma at_set_storage l a m l' : at_loc l' (set_storage l a m) = if decide (l = l') then Some a else at_loc l' m.
Proof. unfold at_loc, set_storage. simpl. apply lookup_insert. Qed.

(** The storage behind a container pointer. *)
Definition storage_of (c : loc) (s : t) : option loc := o ← live s !! c; storage_ o.

(** What a call does, once the storage and its answer are known. *)
Lemma call_run {A} c l a (f : M MemoryStorage.AnyStorage A) r a' s :
  storage_of c s = Some l -> at_loc l (memory s) = Some a -> f a = (r, a') ->
  call (Some c) f s =
    (r, add_events (pair l <$> drop (length (any_published a)) (any_published a'))
          (set_memory (set_storage l a' (memory s)) s)).
Proof.
  unfold storage_of. intros (o & Ho & Hl)%bind_Some Ha Hf. unfold call. rewrite Ho, Hl. unfold MemoryStorage.call.
  unfold at_loc in Ha. rewrite Ha, Hf. unfold published_since, at_loc. simpl. by rewrite Ha, lookup_insert_eq.
Qed.

Lemma set_memory_id s : set_memory (memory s) s = s.
Proof. by destruct s. Qed.

(** The storages that exist, and what every one of them satisfies: it is not
    locked, a map is sorted, and its property map is there. *)
Definition storage_ok (a : MemoryStorage.AnyStorage) : Prop :=
  MemoryStorage.any_locked a = false /\
  match a with MemoryStorage.AnyMap s => sorted (data_ s) | _ => True end.

Definition heap_ok (m : MemoryStorage.MemoryStorageManager) : Prop :=
  forall l a, at_loc l m = Some a ->
    (l < MemoryStorage.next (MemoryStorage.objects m))%nat /\ storage_ok a /\
    exists pm, MemoryStorage.propertyMaps (MemoryStorage.objects m) !! l = Some pm /\
      MemoryStorage.specialPropertiesMap_ pm = MemoryStorage.special_of l a.

Lemma wf_set_storage l a a' m :
  MemoryStorage.wf m -> at_loc l m = Some a -> MemoryStorage.any_header a' = MemoryStorage.any_header a ->
  MemoryStorage.wf (set_storage l a' m).
Proof.
  intros Hwf Ha Hh. apply (MemoryStorage.wf_same_headers m); try done. intros x. simpl. rewrite lookup_insert.
  case_decide; [subst; unfold at_loc in Ha; rewrite Ha; simpl; by rewrite Hh|done].
Qed.

Lemma heap_set_storage l a a' m :
  heap_ok m -> at_loc l m = Some a -> MemoryStorage.any_header a' = MemoryStorage.any_header a -> storage_ok a' ->
  heap_ok (set_storage l a' m).
Proof.
  intros Hh Ha Hd Hok x b. rewrite at_set_storage. case_decide as E; [|apply Hh]. intros [= <-]. subst x.
  destruct (Hh l a Ha) as (Hlt & _ & pm & Hpm & Hsp). split; [done|]. split; [done|]. exists pm. split; [done|].
  rewrite Hsp. by destruct (MemoryStorage.header_fields a' a Hd) as (_ & _ & _ & _ & ->).
Qed.

(** Commands keep maps sorted, whatever they answer. *)
Definition keeps_sorted {A} (m : M MapStorage.t A) : Prop :=
  forall s, sorted (data_ s) -> sorted (data_ (m s).2).

Lemma keeps_bind {A B} (m : M MapStorage.t A) (f : A -> M MapStorage.t B) :
  keeps_sorted m -> (forall a, keeps_sorted (f a)) -> keeps_sorted (m ≫= f).
Proof.
  intros Hm Hf s Hs. unfold mbind, M_bind. specialize (Hm s Hs). destruct (m s) as [ [a|e] s']; simpl in *; [|done].
  by apply Hf.
Qed.

Lemma keeps_with_lock {A} (m : M MapStorage.t A) : keeps_sorted m -> keeps_sorted (with_lock m).
Proof.
  intros Hm s Hs. unfold with_lock. destruct (locked s); [done|]. specialize (Hm (set_locked true s) Hs).
  by destruct (m (set_locked true s)).
Qed.

Lemma keeps_same {A} (m : M MapStorage.t A) : (forall s, (m s).2 = s) -> keeps_sorted m.
Proof. intros H s Hs. by rewrite H. Qed.

Lemma keeps_publish c k v m : keeps_sorted (MapStorage.UpdateRevNumAndPublish c k v m).
Proof. apply keeps_bind; [apply keeps_with_lock; by intros s Hs|]. by intros [] s Hs. Qed.

Lemma keeps_get {A} (f : MapStorage.t -> M MapStorage.t A) :
  (forall s, sorted (data_ s) -> sorted (data_ (f s s).2)) -> keeps_sorted (get ≫= f).
Proof. intros H s Hs. rewrite bind_get. auto. Qed.

Lemma map_keeps_sorted o : keeps_sorted (run_op o).
Proof.
  destruct o; cbn [run_op MapStorage.map_storage PushBack PushFront PopBack PopFront Set_ Insert Delete Clear GetRecord
    Query]; try (by apply keeps_same); unfold MapStorage.Set_, MapStorage.Insert, MapStorage.Delete, MapStorage.Clear,
    MapStorage.GetRecord, MapStorage.Query; try case_match;
    repeat first [ by apply keeps_same | apply keeps_publish | apply keeps_with_lock | apply keeps_get; intros s Hs
                 | apply keeps_bind; [|intros] ]; try done.
  - destruct (AsSz k); [|done]. by apply sorted_assign.
  - case_match; [done|]. by apply sorted_assign.
  - case_match; [|done]. by apply sorted_erase.
  - intros s _. constructor.
  - by destruct (MapStorage.query_range _ _ _) as [ []|].
Qed.

(** Any command keeps what every storage satisfies. *)
Lemma run_op_keeps o a :
  storage_ok a -> storage_ok (run_op o a).2 /\ MemoryStorage.any_header (run_op o a).2 = MemoryStorage.any_header a.
Proof.
  intros [Hl Hs]. pose proof (MemoryStorage.any_framed o a) as Hf. split; [|done].
  destruct (MemoryStorage.header_fields _ _ Hf) as (Hl' & _). split; [by rewrite Hl'|].
  destruct a as [s|s|s]; destruct (run_op o _).2 as [s'|s'|s'] eqn:E; try done.
  pose proof (map_keeps_sorted o s Hs) as H.
  replace s' with (run_op o s).2; [done|].
  assert (E' : run_op o (MemoryStorage.AnyMap s) = MemoryStorage.dispatch (fun S H => run_op o) (MemoryStorage.AnyMap s))
    by (destruct o; try done; apply MemoryStorage.dispatch_then).
  rewrite E' in E. simpl in E. destruct (run_op o s). simpl in *. congruence.
Qed.

(** ** The invariant *)

Definition fundamental : list (bytes * StorageManager) :=
  assign_at (lit "volatile_map") mem (assign_at (lit "volatile_list") mem (assign_at (lit "volatile_vector") mem [])).

(** All pointers the manager and its users hold lead to storages that exist, and
    a container that is open under a name is a container of that name. *)
Record wf (s : t) : Prop := {
  wf_managers : managerByType_ s = fundamental;
  wf_memory : MemoryStorage.wf (memory s);
  wf_heap : heap_ok (memory s);
  wf_sink : MemoryStorage.manager_sink_ (memory s) = subscriber_ s;
  wf_live : forall c o, live s !! c = Some o ->
    (c < next_container s)%nat /\
    exists l, storage_ o = Some l /\ propertyMap_ o = Some l /\ is_Some (at_loc l (memory s));
  wf_open : forall n c, find n (openContainers_ s) = Some c -> (c < next_container s)%nat;
  wf_open_name : forall n c l a, open_container n s = Some c -> storage_of c s = Some l ->
    at_loc l (memory s) = Some a -> MemoryStorage.any_name a = MemoryStorage.actual_name n;
  wf_meta : exists c l ms, meta_containers_ s = Some c /\ storage_of c s = Some l /\
    at_loc l (memory s) = Some (MemoryStorage.AnyMap ms)
}.

(** A pointer some user holds leads to a storage. *)
Lemma live_storage s c :
  wf s -> is_Some (live s !! c) ->
  exists l a, storage_of c s = Some l /\ at_loc l (memory s) = Some a /\ storage_ok a /\
    live s !! c = Some {| storage_ := Some l; propertyMap_ := Some l |}.
Proof.
  intros Hwf [o Ho]. destruct (wf_live s Hwf c o Ho) as (_ & l & H1 & H2 & a & Ha). exists l, a.
  destruct o as [x y]; simpl in *; subst. unfold storage_of. rewrite Ho. split; [done|]. split; [done|].
  split; [|done]. apply (wf_heap s Hwf l a Ha).
Qed.

(** Replacing a storage by one with the same header. *)
Lemma wf_update s l a a' evs :
  wf s -> at_loc l (memory s) = Some a -> MemoryStorage.any_header a' = MemoryStorage.any_header a -> storage_ok a' ->
  wf (add_events evs (set_memory (set_storage l a' (memory s)) s)).
Proof.
  intros Hwf Ha Hh Hok. destruct Hwf as [W1 W2 W3 W4 W5 W6 W7 (c & lm & ms & M1 & M2 & M3)].
  destruct (MemoryStorage.header_fields a' a Hh) as (_ & _ & Hn & _).
  split; cbn [memory live openContainers_ managerByType_ subscriber_ next_container meta_containers_ add_events set_memory].
  - done.
  - by eapply wf_set_storage.
  - by eapply heap_set_storage.
  - done.
  - intros c' o Ho. destruct (W5 c' o Ho) as (Hc & l' & E1 & E2 & E3). split; [done|]. exists l'. split; [done|].
    split; [done|]. rewrite at_set_storage. by case_decide.
  - done.
  - intros n c' l' b Hop Hs Hb. rewrite at_set_storage in Hb. case_decide; [|by eapply W7]. subst. simplify_eq.
    rewrite Hn. by eapply W7.
  - exists c, lm. rewrite at_set_storage. case_decide; [|by eauto]. subst. rewrite M3 in Ha. simplify_eq.
    destruct a'; simpl in Hh; simplify_eq. by eauto.
Qed.

(** A command on a container, whatever it answers. *)
Lemma wf_catalogue_command s c o r s' : wf s -> call c (run_op o) s = (r, s') -> wf s'.
Proof.
  intros Hwf E. destruct c as [c|]; [|by simplify_eq/=]. destruct (live s !! c) as [x|] eqn:Ex.
  - destruct (live_storage s c Hwf) as (l & a & Hs & Ha & Hok & _); [by eexists|].
    destruct (run_op o a) as [r' a'] eqn:Er. rewrite (call_run c l a _ r' a' s Hs Ha Er) in E. simplify_eq.
    pose proof (run_op_keeps o a Hok) as [H1 H2]. rewrite Er in H1, H2. by eapply wf_update.
  - unfold call in E. rewrite Ex in E. by simplify_eq.
Qed.

Lemma wf_add_alias s a x : wf s -> wf (AddAlias a x s).2.
Proof. intros []. by split. Qed.

(** Dropping a container other than the manager's own. *)
Lemma wf_expire s c : wf s -> meta_containers_ s <> Some c -> wf (expire c s).
Proof.
  intros [W1 W2 W3 W4 W5 W6 W7 (m & l & ms & M1 & M2 & M3)] Hc.
  assert (Hs : forall x, x <> c -> storage_of x (expire c s) = storage_of x s)
    by (intros x Hx; unfold storage_of; cbn [live expire set_live]; by rewrite lookup_delete_ne by congruence).
  split; cbn [memory live openContainers_ managerByType_ subscriber_ next_container meta_containers_ expire set_live]; try done.
  - intros x o. rewrite lookup_delete. case_decide; [done|]. apply W5.
  - intros n x l' a Hop Hst Ha. unfold open_container in Hop. cbn [openContainers_ expire set_live live] in Hop.
    destruct (find n (openContainers_ s)) as [y|] eqn:Ey; [|done]. rewrite lookup_delete in Hop.
    case_decide; [done|]. destruct (live s !! y) eqn:El; [|done]. simplify_eq.
    apply (W7 n x l' a); [unfold open_container; by rewrite Ey, El| |done]. by rewrite <- Hs.
  - exists m, l, ms. split; [done|]. rewrite Hs by congruence. done.
Qed.

(** *** Creating storages and containers *)

Definition next_storage (s : t) : loc := MemoryStorage.next (MemoryStorage.objects (memory s)).

Lemma at_created ty n a sp m l :
  at_loc l (MemoryStorage.created ty n a sp m) =
    if decide (MemoryStorage.next (MemoryStorage.objects m) = l)
    then Some (MemoryStorage.any_set_sink (MemoryStorage.manager_sink_ m) a) else at_loc l m.
Proof. unfold at_loc. simpl. apply lookup_insert. Qed.

Lemma heap_created ty n a sp m :
  heap_ok m -> MemoryStorage.fresh ty (MemoryStorage.actual_name n) = Some (a, sp) ->
  heap_ok (MemoryStorage.created ty n a sp m).
Proof.
  intros Hh Hf l b. destruct (MemoryStorage.fresh_ok _ _ _ _ Hf) as (Hl & _ & _ & _ & He & _ & Hsp).
  rewrite at_created. case_decide as E.
  - intros [= <-]. subst l. simpl. split; [lia|]. split.
    + destruct a; (split; [done|]); simpl in *; try done. rewrite He. constructor.
    + rewrite lookup_insert_eq. eexists. split; [done|]. simpl. rewrite Hsp. by destruct a.
  - intros Hb. destruct (Hh l b Hb) as (H1 & H2 & pm & H3 & H4). simpl. split; [lia|]. split; [done|].
    exists pm. by rewrite lookup_insert_ne.
Qed.

Lemma wf_grow s ty n a sp :
  wf s -> MemoryStorage.fresh ty (MemoryStorage.actual_name n) = Some (a, sp) ->
  wf (set_memory (MemoryStorage.created ty n a sp (memory s)) s).
Proof.
  intros [W1 W2 W3 W4 W5 W6 W7 (c & l & ms & M1 & M2 & M3)] Hf.
  assert (Hat : forall x b, at_loc x (memory s) = Some b ->
    at_loc x (MemoryStorage.created ty n a sp (memory s)) = Some b).
  { intros x b Hb. rewrite at_created, decide_False; [done|]. intros <-. destruct (W3 _ b Hb) as [Hlt _]. lia. }
  split; cbn [memory live openContainers_ managerByType_ subscriber_ next_container meta_containers_ set_memory]; try done.
  - by apply MemoryStorage.wf_created.
  - by apply heap_created.
  - intros x o Ho. destruct (W5 x o Ho) as (Hx & y & H1 & H2 & b & Hb). split; [done|]. exists y. eauto.
  - intros x y z b H1 H2 H3. apply (W7 x y z b); [done|done|].
    assert (exists o, live s !! y = Some o /\ storage_ o = Some z) as (o & Ho & Hz) by (by apply bind_Some in H2).
    destruct (W5 y o Ho) as (_ & z' & Hz' & _ & b' & Hb'). assert (z' = z) as -> by congruence.
    pose proof (Hat z b' Hb'). congruence.
  - exists c, l, ms. eauto.
Qed.

Lemma open_add s c o n n' :
  wf s -> c = next_container s ->
  open_container n' (set_open (assign_at n c (openContainers_ s)) (set_live (<[c := o]> (live s)) (S c) s)) =
    if decide (n = n') then Some c else open_container n' s.
Proof.
  intros Hwf ->. unfold open_container. cbn [openContainers_ set_open live set_live]. rewrite find_assign.
  destruct (decide (n = n')) as [->|Hn]; [by rewrite lookup_insert_eq|].
  destruct (find n' (openContainers_ s)) as [x|] eqn:Ex; [|done].
  pose proof (wf_open s Hwf n' x Ex). by rewrite lookup_insert_ne by lia.
Qed.

Lemma storage_of_add s c o x f :
  storage_of x (set_open f (set_live (<[c := o]> (live s)) (S c) s)) =
    if decide (c = x) then storage_ o else storage_of x s.
Proof. unfold storage_of. cbn [live set_open set_live]. rewrite lookup_insert. by case_decide. Qed.

Lemma live_of_storage s c l : storage_of c s = Some l -> exists o, live s !! c = Some o.
Proof. intros (o & Ho & _)%bind_Some. by exists o. Qed.

(** A new container object, open under [n]. *)
Lemma wf_new_container s n l a :
  wf s -> at_loc l (memory s) = Some a -> MemoryStorage.any_name a = MemoryStorage.actual_name n ->
  let c := next_container s in
  wf (set_open (assign_at n c (openContainers_ s))
       (set_live (<[c := {| storage_ := Some l; propertyMap_ := Some l |}]> (live s)) (S c) s)).
Proof.
  intros Hwf Ha Hn c. pose proof Hwf as [W1 W2 W3 W4 W5 W6 W7 (m & lm & ms & M1 & M2 & M3)].
  assert (Hm : m <> c).
  { destruct (live_of_storage s m lm M2) as [o Ho]. destruct (W5 m o Ho). unfold c. lia. }
  split; cbn [memory live openContainers_ managerByType_ subscriber_ next_container meta_containers_ set_open set_live]; try done.
  - intros x o. rewrite lookup_insert. case_decide as E.
    + intros [= <-]. split; [lia|]. exists l. by rewrite Ha.
    + intros Ho. destruct (W5 x o Ho) as [Hx H]. split; [lia|done].
  - intros x y. rewrite find_assign. case_decide; [intros [= <-]; lia|]. intros Hxy. pose proof (W6 x y Hxy). lia.
  - intros x y z b Hop Hst Hb. rewrite open_add in Hop by done. rewrite storage_of_add in Hst.
    destruct (decide (n = x)) as [->|Hx].
    + injection Hop as <-. rewrite decide_True in Hst by done. simpl in Hst. congruence.
    + assert (c <> y).
      { intros <-. unfold open_container in Hop. destruct (find x (openContainers_ s)) as [w|] eqn:Ew; [|done].
        destruct (live s !! w); [|done]. simplify_eq. pose proof (W6 x _ Ew). unfold c in *. lia. }
      rewrite decide_False in Hst by done. by apply (W7 x y z b).
  - exists m, lm, ms. rewrite storage_of_add, decide_False by congruence. done.
Qed.

(** ** The abstract catalogue *)

(** What the manager does, seen from its users: which storage is open under a
    name, which storage [type/name] has, the listed type of a name, and the
    next new storage. *)
Record registry := {
  r_open : gmap bytes loc;
  r_store : gmap bytes loc;
  r_types : gmap bytes TioData;
  r_next : loc
}.

Definition resolve (aliases : list (bytes * bytes)) (type : bytes) : bytes :=
  if bool_decide (type = []) then type else default type (find type aliases).

Definition supported (aliases : list (bytes * bytes)) (type : bytes) : bool :=
  is_set (MemoryStorage.fresh type []) && is_set (MemoryStorage.fresh (resolve aliases type) []).

(** The type to open a name with: the one given, else the listed one. *)
Definition open_type (type name : bytes) (r : registry) : option bytes :=
  if bool_decide (type = []) then
    match r_types r !! c_str name with Some (String x) => Some (c_str x) | _ => None end
  else Some type.

Definition r_create_or_open (aliases : list (bytes * bytes)) (op : OperationType) (type name : bytes) (r : registry)
  : option (loc * registry) :=
  let type := resolve aliases type in
  match r_open r !! name with
  | Some l => Some (l, r)
  | None =>
      match op with
      | create =>
          if supported aliases type then
            let key := MemoryStorage.full_name type name in
            let l := default (r_next r) (r_store r !! key) in
            Some (l, {| r_open := <[name := l]> (r_open r);
                        r_store := <[key := l]> (r_store r);
                        r_types := <[c_str name := String type]> (r_types r);
                        r_next := if is_set (r_store r !! key) then r_next r else S (r_next r) |})
          else None
      | open =>
          type ← open_type type name r;
          if supported aliases type then
            l ← r_store r !! MemoryStorage.GenerateName type name;
            Some (l, {| r_open := <[name := l]> (r_open r); r_store := r_store r; r_types := r_types r;
                        r_next := r_next r |})
          else None
      end
  end.

(** Deletion removes the storage first and the listing after it; whether both
    were there is the first component. *)
Definition r_delete (aliases : list (bytes * bytes)) (type name : bytes) (r : registry) : bool * registry :=
  let type := resolve aliases type in
  let key := MemoryStorage.GenerateName type name in
  if is_set (MemoryStorage.fresh (resolve aliases type) []) && is_set (r_store r !! key) then
    let r := {| r_open := r_open r; r_store := delete key (r_store r); r_types := r_types r; r_next := r_next r |} in
    if is_set (r_types r !! c_str name) then
      (true, {| r_open := r_open r; r_store := r_store r; r_types := delete (c_str name) (r_types r);
                r_next := r_next r |})
    else (false, r)
  else (false, r).

(** The listing: the contents of the manager's map of containers. *)
Definition meta_data (s : t) : list (bytes * ValueAndMetadata) :=
  match c ← meta_containers_ s; l ← storage_of c s; at_loc l (memory s) with
  | Some (MemoryStorage.AnyMap ms) => data_ ms
  | _ => []
  end.

Record represents (s : t) (r : registry) : Prop := {
  rep_open : forall n, r_open r !! n = (c ← open_container n s; storage_of c s);
  rep_store : forall k, r_store r !! k =
    (i ← find k (MemoryStorage.containers_ (memory s)); MemoryStorage.storage i);
  rep_types : forall k, r_types r !! k = value <$> find k (meta_data s);
  rep_next : r_next r = next_storage s
}.

Lemma resolve_alias type s : ResolveAlias type s = resolve (aliases_ s) type.
Proof. unfold ResolveAlias, resolve. case_bool_decide; [done|]. by destruct (find type (aliases_ s)). Qed.

Lemma find_fundamental type : is_set (find type fundamental) = is_set (MemoryStorage.fresh type []).
Proof.
  unfold fundamental, MemoryStorage.fresh. rewrite !find_assign. cbn [find].
  repeat (case_decide; simplify_eq; try done).
Qed.

Lemma get_manager_run type s :
  wf s ->
  (is_set (MemoryStorage.fresh (resolve (aliases_ s) type) []) = true /\ GetStorageManagerByType type s = (Ok mem, s)) \/
  (is_set (MemoryStorage.fresh (resolve (aliases_ s) type) []) = false /\
   GetStorageManagerByType type s = (Throw (invalid_type (resolve (aliases_ s) type)), s)).
Proof.
  intros Hwf. unfold GetStorageManagerByType. rewrite bind_get, resolve_alias, (wf_managers s Hwf). cbn zeta.
  pose proof (find_fundamental (resolve (aliases_ s) type)) as H.
  destruct (find _ fundamental) as [ []|]; [left|right]; by rewrite <- H.
Qed.

(** A storage has the same name and type in the catalogue and in the heap. *)
Lemma store_lookup s k i :
  wf s -> find k (MemoryStorage.containers_ (memory s)) = Some i ->
  exists l a, MemoryStorage.storage i = Some l /\ MemoryStorage.propertyMap i = Some l /\
    at_loc l (memory s) = Some a /\ k = MemoryStorage.GenerateName (MemoryStorage.any_type a) (MemoryStorage.any_name a) /\
    MemoryStorage.any_name a = MemoryStorage.actual_name (MemoryStorage.name i) /\
    Forall (fun b => b <> x2f) (MemoryStorage.any_type a).
Proof.
  intros Hwf Hi. destruct (MemoryStorage.wf_entries _ (wf_memory s Hwf) k i Hi)
    as (l & a & H1 & H2 & _ & H3 & _ & _ & _ & H4 & _ & H5 & H6). by exists l, a.
Qed.

(** States that differ only in the contents of storages. *)
Record same_catalogue (s s' : t) : Prop := {
  same_aliases : aliases_ s' = aliases_ s;
  same_open : openContainers_ s' = openContainers_ s;
  same_live : live s' = live s;
  same_next_container : next_container s' = next_container s;
  same_containers : MemoryStorage.containers_ (memory s') = MemoryStorage.containers_ (memory s);
  same_next : next_storage s' = next_storage s;
  same_meta : meta_containers_ s' = meta_containers_ s;
  same_headers : forall x,
    MemoryStorage.any_header <$> at_loc x (memory s') = MemoryStorage.any_header <$> at_loc x (memory s)
}.

Lemma same_name s s' l a :
  same_catalogue s s' -> at_loc l (memory s) = Some a ->
  exists a', at_loc l (memory s') = Some a' /\ MemoryStorage.any_name a' = MemoryStorage.any_name a.
Proof.
  intros H Ha. pose proof (same_headers _ _ H l) as Hh. rewrite Ha in Hh. apply fmap_Some in Hh as (a' & Ha' & Hh).
  exists a'. split; [done|]. by destruct (MemoryStorage.header_fields a a' Hh) as (_ & _ & -> & _).
Qed.

Lemma same_storage_of s s' c : same_catalogue s s' -> storage_of c s' = storage_of c s.
Proof. intros H. unfold storage_of. by rewrite (same_live _ _ H). Qed.

Lemma same_open_container s s' n : same_catalogue s s' -> open_container n s' = open_container n s.
Proof. intros H. unfold open_container. by rewrite (same_open _ _ H), (same_live _ _ H). Qed.

Lemma call_frame {A} s c l a (f : M MemoryStorage.AnyStorage A) r a' :
  wf s -> storage_of c s = Some l -> at_loc l (memory s) = Some a -> f a = (r, a') ->
  MemoryStorage.any_header a' = MemoryStorage.any_header a -> storage_ok a' ->
  exists s', call (Some c) f s = (r, s') /\ wf s' /\ same_catalogue s s' /\
    (forall x, at_loc x (memory s') = if decide (l = x) then Some a' else at_loc x (memory s)) /\
    events s' = events s ++ (pair l <$> drop (length (any_published a)) (any_published a')).
Proof.
  intros Hwf Hs Ha Hf Hh Hok. eexists. split; [by apply (call_run c l a f r a')|]. split; [by eapply wf_update|].
  split; [|split; [intros x; cbn [memory add_events set_memory]; apply at_set_storage|done] ].
  split; try done. intros x. cbn [memory add_events set_memory]. rewrite at_set_storage.
  case_decide; [subst; by rewrite Ha; simpl; rewrite Hh|done].
Qed.

Lemma represents_same s s' r :
  same_catalogue s s' -> represents s r -> (forall k, value <$> find k (meta_data s') = r_types r !! k) ->
  represents s' r.
Proof.
  intros Hsame [R1 R2 R3 R4] Hm. split.
  - intros n. rewrite R1, (same_open_container s s') by done. destruct (open_container n s); simpl; [|done].
    by rewrite (same_storage_of s s').
  - intros k. by rewrite R2, (same_containers s s').
  - done.
  - by rewrite R4, (same_next s s').
Qed.

(** *** The manager's own calls on the listing *)

Lemma meta_data_at s c l ms :
  meta_containers_ s = Some c -> storage_of c s = Some l -> at_loc l (memory s) = Some (MemoryStorage.AnyMap ms) ->
  meta_data s = data_ ms.
Proof. intros H1 H2 H3. unfold meta_data. rewrite H1. simpl. rewrite H2. simpl. by rewrite H3. Qed.

(** A change of the listing by a map operation that ends well. *)
Lemma meta_change {A} s (f : M MemoryStorage.AnyStorage A) x d :
  wf s -> sorted d ->
  (forall ms, data_ ms = meta_data s -> locked ms = false -> exists e,
     f (MemoryStorage.AnyMap ms) = (Ok x, MemoryStorage.AnyMap (MapStorage.after d e ms))) ->
  exists s', call (meta_containers_ s) f s = (Ok x, s') /\ wf s' /\ same_catalogue s s' /\ meta_data s' = d.
Proof.
  intros Hwf Hd Hf. destruct (wf_meta s Hwf) as (c & l & ms & M1 & M2 & M3).
  destruct (wf_heap s Hwf _ _ M3) as (_ & [Hl _] & _).
  destruct (Hf ms) as [e He]; [by erewrite meta_data_at|done|].
  destruct (call_frame s c l _ f _ _ Hwf M2 M3 He) as (s' & E & Hwf' & Hsame & Hat & _).
  - unfold MapStorage.after. simpl. by destruct (sink_ ms).
  - split; [unfold MapStorage.after; simpl; by destruct (sink_ ms)|]. by rewrite MapStorage.map_data_after.
  - exists s'. rewrite M1. split; [done|]. split; [done|]. split; [done|].
    erewrite meta_data_at; [apply MapStorage.map_data_after|by rewrite (same_meta s s')|by rewrite (same_storage_of s s')|].
    by rewrite Hat, decide_True.
Qed.

Lemma meta_sorted s : wf s -> sorted (meta_data s).
Proof.
  intros Hwf. destruct (wf_meta s Hwf) as (c & l & ms & M1 & M2 & M3).
  destruct (wf_heap s Hwf _ _ M3) as (_ & [_ Hs] & _). by rewrite (meta_data_at s c l ms).
Qed.

Lemma list_run s n ty :
  wf s -> exists s', call (meta_containers_ s) (Set_ (String n) (String ty) TIONULL) s = (Ok tt, s') /\ wf s' /\
    same_catalogue s s' /\ meta_data s' = assign_at (c_str n) (MapStorage.record (String ty) TIONULL) (meta_data s).
Proof.
  intros Hwf. apply meta_change; [done|by apply sorted_assign, meta_sorted|]. intros ms Hd Hl.
  destruct (MapStorage.map_set_run n (String ty) TIONULL ms) as [H1 H2]; [split; [rewrite Hd; by apply meta_sorted|done]|].
  simpl. destruct (MapStorage.Set_ _ _ _ ms). simpl in H1, H2. subst. rewrite Hd. by eexists.
Qed.

Lemma unlist_run s n :
  wf s ->
  match find (c_str n) (meta_data s) with
  | Some _ => exists s', call (meta_containers_ s) (Delete (String n) TIONULL TIONULL) s = (Ok tt, s') /\ wf s' /\
      same_catalogue s s' /\ meta_data s' = erase (c_str n) (meta_data s)
  | None => exists s', call (meta_containers_ s) (Delete (String n) TIONULL TIONULL) s = (Throw MapStorage.key_not_found, s') /\
      wf s' /\ same_catalogue s s' /\ meta_data s' = meta_data s
  end.
Proof.
  intros Hwf. destruct (find (c_str n) (meta_data s)) as [v|] eqn:Ev.
  - apply meta_change; [done|by apply sorted_erase, meta_sorted|]. intros ms Hd Hl. eexists. simpl.
    unfold MapStorage.Delete. rewrite (bind_lift_ok _ _ _ tt eq_refl), (bind_lift_ok _ _ _ (c_str n) eq_refl).
    erewrite bind_ok; [|apply with_lock_ok; [done|rewrite bind_get; simpl; rewrite Hd, Ev; reflexivity] ].
    by rewrite unlock_data, MapStorage.map_publish_ok.
  - destruct (wf_meta s Hwf) as (c & l & ms & M1 & M2 & M3). destruct (wf_heap s Hwf _ _ M3) as (_ & [Hl Hs] & _).
    pose proof (meta_data_at s c l ms M1 M2 M3) as Hd.
    assert (He : Delete (String n) TIONULL TIONULL (MemoryStorage.AnyMap ms) =
      (Throw MapStorage.key_not_found, MemoryStorage.AnyMap ms)).
    { simpl. unfold MapStorage.Delete. rewrite (bind_lift_ok _ _ _ tt eq_refl), (bind_lift_ok _ _ _ (c_str n) eq_refl).
      erewrite bind_throw; [|apply with_lock_ok; [done|rewrite bind_get; simpl; rewrite <- Hd, Ev; reflexivity] ].
      by rewrite unlock. }
    destruct (call_frame s c l _ _ _ _ Hwf M2 M3 He) as (s' & E & Hwf' & Hsame & Hat & _); [done|done|].
    exists s'. rewrite M1. split; [done|]. split; [done|]. split; [done|].
    rewrite Hd. apply (meta_data_at s' c l ms); [by rewrite (same_meta s s')|by rewrite (same_storage_of s s')|].
    by rewrite Hat, decide_True.
Qed.

(** Asking the listing changes nothing. *)
Lemma ask_run s n :
  wf s ->
  call (meta_containers_ s) (GetRecord (String n) None (Some None_) None) s =
    (match find (c_str n) (meta_data s) with
     | Some v => Ok (None, Some (value v), None)
     | None => Throw MapStorage.key_not_found
     end, s).
Proof.
  intros Hwf. destruct (wf_meta s Hwf) as (c & l & ms & M1 & M2 & M3). destruct (wf_heap s Hwf _ _ M3) as (_ & [Hl Hs] & _).
  rewrite (meta_data_at s c l ms M1 M2 M3), M1.
  erewrite (call_run c l (MemoryStorage.AnyMap ms)); [|done|done|].
  2: { simpl. rewrite MapStorage.get_run by done. unfold MapStorage.GetInternalRecord. mrun. reflexivity. }
  simpl. rewrite drop_all. unfold set_storage. rewrite MemoryStorage.set_objects_id by done.
  f_equal; [by destruct (find (c_str n) (data_ ms))|]. destruct s. unfold add_events, set_memory. simpl. by rewrite app_nil_r.
Qed.

(** *** The two halves of [CreateOrOpen] *)

(** A container made for storage [l] and opened under [n]. *)
Lemma finish_run s n l a r :
  wf s -> at_loc l (memory s) = Some a -> MemoryStorage.any_name a = MemoryStorage.actual_name n -> represents s r ->
  exists c s',
    (c ← new_container (Some l, Some l); s ← get; _ ← modify (set_open (assign_at n c (openContainers_ s))); mret c) s
      = (Ok c, s') /\ storage_of c s' = Some l /\ wf s' /\ aliases_ s' = aliases_ s /\
    represents s' {| r_open := <[n := l]> (r_open r); r_store := r_store r; r_types := r_types r; r_next := r_next r |}.
Proof.
  intros Hwf Ha Hn [R1 R2 R3 R4]. pose proof (wf_new_container s n l a Hwf Ha Hn) as Hwf'. cbn zeta in Hwf'.
  eexists _, _. split; [reflexivity|]. cbn [fst snd openContainers_ set_live].
  change (set_open ?x (set_live ?y ?z ?w)) with (set_open x (set_live y z w)).
  split; [rewrite storage_of_add; by rewrite decide_True|]. split; [exact Hwf'|]. split; [done|].
  split; cbn [r_open r_store r_types r_next].
  - intros x. rewrite lookup_insert, open_add by done. destruct (decide (n = x)) as [->|Hx].
    + simpl. by rewrite storage_of_add, decide_True.
    + rewrite R1. destruct (open_container x s) as [y|] eqn:Ey; [|done]. simpl. rewrite storage_of_add.
      rewrite decide_False; [done|]. intros <-. unfold open_container in Ey.
      destruct (find x (openContainers_ s)) as [w|] eqn:Ew; [|done]. destruct (live s !! w); [|done]. simplify_eq.
      pose proof (wf_open s Hwf x _ Ew). lia.
  - done.
  - intros k. rewrite R3. do 2 f_equal. destruct (wf_meta s Hwf) as (m & lm & ms & M1 & M2 & M3).
    rewrite (meta_data_at s m lm ms M1 M2 M3). symmetry. apply (meta_data_at _ m lm ms); [done| |done].
    rewrite storage_of_add, decide_False; [done|]. destruct (live_of_storage s m lm M2) as [o Ho].
    destruct (wf_live s Hwf m o Ho). lia.
  - done.
Qed.

Lemma fresh_is_set ty n : is_set (MemoryStorage.fresh ty []) = true -> exists a sp, MemoryStorage.fresh ty n = Some (a, sp).
Proof. intros H. apply MemoryStorage.fresh_some_at. by destruct (MemoryStorage.fresh ty []). Qed.

Lemma fresh_unset ty n : is_set (MemoryStorage.fresh ty []) = false -> MemoryStorage.fresh ty n = None.
Proof.
  intros H. destruct (MemoryStorage.fresh ty n) as [x|] eqn:E; [|done].
  destruct (MemoryStorage.fresh_some ty n [] x E) as [y Hy]. by rewrite Hy in H.
Qed.

Lemma unsupported_run {A} (f : _ -> M MemoryStorage.MemoryStorageManager A) ty m :
  is_set (MemoryStorage.fresh ty []) = false ->
  match find ty MemoryStorage.supportedTypes_ with None => throw MemoryStorage.not_supported | Some c => f c end m
  = (Throw MemoryStorage.not_supported, m).
Proof.
  intros H. destruct (MemoryStorage.find_supported ty) as [ [-> _]|(c & _ & Hc)]; [done|].
  destruct (Hc []) as (a & sp & E & _). by rewrite E in H.
Qed.

(** Creating the storage. *)
Lemma create_storage_run s r ty n :
  wf s -> represents s r -> is_set (MemoryStorage.fresh ty []) = true ->
  let key := MemoryStorage.full_name ty n in
  let l := default (r_next r) (r_store r !! key) in
  exists s' a, on_memory (MemoryStorage.CreateStorage ty n) s = (Ok (Some l, Some l), s') /\ wf s' /\
    at_loc l (memory s') = Some a /\ MemoryStorage.any_name a = MemoryStorage.actual_name n /\
    aliases_ s' = aliases_ s /\ meta_containers_ s' = meta_containers_ s /\
    represents s' {| r_open := r_open r; r_store := <[key := l]> (r_store r); r_types := r_types r;
                     r_next := if is_set (r_store r !! key) then r_next r else S (r_next r) |}.
Proof.
  intros Hwf [R1 R2 R3 R4] Hf key l. destruct (fresh_is_set ty (MemoryStorage.actual_name n) Hf) as (a & sp & Ha).
  unfold on_memory. pose proof (R2 key) as Hk. subst l. destruct (find key _) as [i|] eqn:Ei.
  - rewrite (MemoryStorage.create_existing ty n a sp i) by (done || apply Hwf).
    destruct (store_lookup s key i Hwf Ei) as (l & b & H1 & H2 & H3 & H4 & H5 & H6). simpl in Hk. rewrite H1 in Hk.
    rewrite Hk, H1, H2. simpl. replace (set_memory (memory s) s) with s by by destruct s. exists s, b.
    repeat (split; [done|]). split.
    { unfold key, MemoryStorage.full_name in H4.
      apply MemoryStorage.GenerateName_inj in H4 as [_ <-]; [done| |done].
      apply MemoryStorage.fresh_no_slash. by destruct (MemoryStorage.fresh ty []). }
    split; [done|]. split; [done|]. rewrite insert_id by done. by split.
  - rewrite (MemoryStorage.create_new ty n a sp) by done. simpl in Hk. rewrite Hk. simpl. rewrite R4. unfold next_storage.
    destruct (MemoryStorage.fresh_ok _ _ _ _ Ha) as (_ & _ & Hn & _).
    eexists _, _. split; [done|]. split; [by apply wf_grow|].
    split; [cbn [memory set_memory]; by rewrite at_created, decide_True|].
    split; [by destruct (MemoryStorage.any_set_sink_fields (MemoryStorage.manager_sink_ (memory s)) a) as (_ & _ & -> & _)|].
    split; [done|]. split; [done|]. split; cbn [r_open r_store r_types r_next].
    + done.
    + intros k. cbn [memory set_memory MemoryStorage.containers_ MemoryStorage.created].
      rewrite find_assign, lookup_insert. change (MemoryStorage.full_name ty n) with key. case_decide; [done|]. apply R2.
    + intros k. rewrite R3. do 2 f_equal. destruct (wf_meta s Hwf) as (m & lm & ms & M1 & M2 & M3).
      rewrite (meta_data_at s m lm ms M1 M2 M3). symmetry. apply (meta_data_at _ m lm ms); [done|done|].
      cbn [memory set_memory]. rewrite at_created, decide_False; [done|]. intros <-.
      destruct (wf_heap s Hwf _ _ M3) as [H _]. lia.
    + done.
Qed.

(** What [CreateOrOpen] has to give for an answer of the abstract catalogue. *)
Definition agrees (run : res loc * t) (s : t) (answer : option (loc * registry)) : Prop :=
  match answer with
  | Some (l, r') => exists c s', run = (Ok c, s') /\ storage_of c s' = Some l /\ wf s' /\ represents s' r' /\
      aliases_ s' = aliases_ s
  | None => exists e, run = (Throw e, s) /\ forall f, e <> Fault f
  end.

Lemma represents_listed s s' r n ty :
  same_catalogue s s' -> represents s r ->
  meta_data s' = assign_at (c_str n) (MapStorage.record (String ty) TIONULL) (meta_data s) ->
  represents s' {| r_open := r_open r; r_store := r_store r; r_types := <[c_str n := String ty]> (r_types r);
                   r_next := r_next r |}.
Proof.
  intros Hsame [R1 R2 R3 R4] Hm. split; cbn [r_open r_store r_types r_next].
  - intros x. rewrite R1, (same_open_container s s') by done. destruct (open_container x s); simpl; [|done].
    by rewrite (same_storage_of s s').
  - intros k. by rewrite R2, (same_containers s s').
  - intros k. rewrite Hm, find_assign, lookup_insert. by case_decide.
  - by rewrite R4, (same_next s s').
Qed.

Lemma create_agrees s r type n :
  wf s -> represents s r -> open_container n s = None ->
  agrees (CreateOrOpen type create n s) s (r_create_or_open (aliases_ s) create type n r).
Proof.
  intros Hwf Hr Ho. unfold r_create_or_open, CreateOrOpen. rewrite (rep_open s r Hr), Ho. simpl.
  rewrite bind_get, Ho, resolve_alias. cbn zeta. set (ty := resolve (aliases_ s) type). unfold supported.
  destruct (get_manager_run ty s Hwf) as [ [-> E]|[-> E] ]; [|rewrite andb_false_r; simpl; eexists; split;
    [erewrite bind_throw; [done|by apply bind_throw]|intros f; discriminate] ].
  rewrite andb_true_r. destruct (is_set (MemoryStorage.fresh ty [])) eqn:Ef; simpl.
  - destruct (create_storage_run s r ty n Hwf Hr Ef) as (s1 & a & E1 & Hwf1 & Ha & Hn & Hal & Hmeta & Hr1).
    destruct (list_run s1 n ty Hwf1) as (s2 & E2 & Hwf2 & Hsame & Hm).
    pose proof (represents_listed s1 s2 _ n ty Hsame Hr1 Hm) as Hr2.
    set (l := default (r_next r) _) in *.
    destruct (wf_meta s1 Hwf1) as (c0 & _ & _ & M1 & _).
    destruct (same_name s1 s2 l a Hsame Ha) as (a2 & Ha2 & Hn2). rewrite Hn in Hn2.
    destruct (finish_run s2 n l a2 _ Hwf2 Ha2 Hn2 Hr2) as (c & s3 & E3 & Hs3 & Hwf3 & Hal3 & Hr3).
    exists c, s3. split; [|by rewrite Hal3, (same_aliases s1 s2)].
    erewrite bind_ok; [exact E3|]. rewrite (bind_ok _ _ _ _ _ E), (bind_ok _ _ _ _ _ E1), bind_get, M1. simpl.
    rewrite <- M1, (bind_ok _ _ _ _ _ E2). done.
  - eexists. split.
    + erewrite bind_throw; [done|]. rewrite (bind_ok _ _ _ _ _ E). apply bind_throw. unfold on_memory.
      unfold MemoryStorage.CreateStorage. rewrite unsupported_run by done. by rewrite set_memory_id.
    + intros f. discriminate.
Qed.

Lemma open_agrees s r type n :
  wf s -> represents s r -> open_container n s = None ->
  agrees (CreateOrOpen type open n s) s (r_create_or_open (aliases_ s) open type n r).
Proof.
  intros Hwf Hr Ho. unfold r_create_or_open, CreateOrOpen. rewrite (rep_open s r Hr), Ho. simpl.
  rewrite bind_get, Ho, resolve_alias. cbn zeta. set (ty := resolve (aliases_ s) type).
  set (pick := (if bool_decide (ty = []) then _ else _) : M t bytes).
  assert (Hpick : match open_type ty n r with
    | Some x => pick s = (Ok x, s)
    | None => exists e, pick s = (Throw e, s) /\ forall f, e <> Fault f end).
  { unfold pick, open_type. case_bool_decide; [|done]. rewrite bind_get, (rep_types s r Hr).
    pose proof (ask_run s n Hwf) as Ha. destruct (find (c_str n) (meta_data s)) as [v|]; simpl.
    - rewrite (bind_ok _ _ _ _ _ Ha). destruct (value v); simpl; try done; eexists; split; done.
    - rewrite (bind_throw _ _ _ _ _ Ha). by eexists. }
  destruct (open_type ty n r) as [ty'|]; simpl.
  2: { destruct Hpick as (e & E & He). exists e. split; [|done]. erewrite bind_throw; [done|]. by apply bind_throw. }
  unfold supported. destruct (get_manager_run ty' s Hwf) as [ [-> E]|[-> E] ].
  2: { rewrite andb_false_r. eexists. split; [|shelve]. erewrite bind_throw; [done|].
       rewrite (bind_ok _ _ _ _ _ Hpick). by apply bind_throw. }
  rewrite andb_true_r. destruct (is_set (MemoryStorage.fresh ty' [])) eqn:Ef.
  2: { eexists. split; [|shelve]. erewrite bind_throw; [done|].
       rewrite (bind_ok _ _ _ _ _ Hpick), (bind_ok _ _ _ _ _ E). unfold on_memory, MemoryStorage.OpenStorage.
       rewrite unsupported_run by done. by rewrite set_memory_id. }
  assert (Hfs : is_Some (MemoryStorage.fresh ty' [])) by by destruct (MemoryStorage.fresh ty' []).
  rewrite (rep_store s r Hr). destruct (find _ _) as [i|] eqn:Ei; simpl.
  - destruct (store_lookup s _ i Hwf Ei) as (l & a & H1 & H2 & H3 & H4 & H5 & H6). rewrite H1. simpl.
    assert (Hn : MemoryStorage.any_name a = MemoryStorage.actual_name n).
    { apply MemoryStorage.GenerateName_inj in H4 as [_ H4]; [|by apply MemoryStorage.fresh_no_slash|done].
      rewrite H5 in *. unfold MemoryStorage.actual_name in *. repeat case_bool_decide; subst; try done. }
    destruct (finish_run s n l a r Hwf H3 Hn Hr) as (c & s3 & E3 & Hs3 & Hwf3 & Hal3 & Hr3).
    exists c, s3. split; [|done]. erewrite bind_ok; [exact E3|]. rewrite (bind_ok _ _ _ _ _ Hpick), (bind_ok _ _ _ _ _ E).
    unfold on_memory. rewrite (MemoryStorage.open_run ty' n i) by (done || apply Hwf).
    by rewrite H1, H2, set_memory_id.
  - eexists. split; [|shelve]. erewrite bind_throw; [done|].
    rewrite (bind_ok _ _ _ _ _ Hpick), (bind_ok _ _ _ _ _ E). unfold on_memory.
    rewrite MemoryStorage.open_missing by done. by rewrite set_memory_id.
  Unshelve. all: intros f; discriminate.
Qed.

(** ** Deleting *)

Lemma delete_storage_run s r ty n :
  wf s -> represents s r ->
  match r_store r !! MemoryStorage.GenerateName ty n with
  | Some _ => exists s', on_memory (MemoryStorage.DeleteStorage ty n) s = (Ok tt, s') /\ wf s' /\
      meta_containers_ s' = meta_containers_ s /\ meta_data s' = meta_data s /\ live s' = live s /\
      represents s' {| r_open := r_open r; r_store := delete (MemoryStorage.GenerateName ty n) (r_store r);
                       r_types := r_types r; r_next := r_next r |}
  | None => on_memory (MemoryStorage.DeleteStorage ty n) s = (Throw (invalid_argument "no such data container"), s)
  end.
Proof.
  intros Hwf [R1 R2 R3 R4]. rewrite R2. unfold on_memory, MemoryStorage.DeleteStorage. rewrite bind_get. cbn zeta.
  destruct (find _ _) as [i|] eqn:Ei; simpl; [|by rewrite set_memory_id].
  destruct (store_lookup s _ i Hwf Ei) as (l & a & H1 & _). rewrite H1. eexists. split; [done|].
  pose proof (MemoryStorage.wf_delete (memory s) ty n (Ok tt)
    (MemoryStorage.set_containers (erase (MemoryStorage.GenerateName ty n) (MemoryStorage.containers_ (memory s))) (memory s)))
    as Hd. specialize (Hd (wf_memory s Hwf)).
  unfold MemoryStorage.DeleteStorage in Hd. rewrite bind_get in Hd. cbn zeta in Hd. rewrite Ei in Hd. specialize (Hd eq_refl).
  split.
  - destruct Hwf as [W1 W2 W3 W4 W5 W6 W7 W8]. by split.
  - repeat (split; [done|]). split; cbn [r_open r_store r_types r_next]; try done. intros k.
    cbn [memory set_memory MemoryStorage.containers_ MemoryStorage.set_containers].
    rewrite find_erase by apply (wf_memory s Hwf). rewrite lookup_delete. case_decide; [done|]. apply R2.
Qed.

Lemma delete_refined s r type n :
  wf s -> represents s r ->
  let '(ok, r') := r_delete (aliases_ s) type n r in
  exists s', wf s' /\ represents s' r' /\ live s' = live s /\
    if ok then DeleteContainer type n s = (Ok tt, s')
    else exists e, DeleteContainer type n s = (Throw e, s') /\ forall f, e <> Fault f.
Proof.
  intros Hwf Hr. unfold r_delete, DeleteContainer. rewrite bind_get, resolve_alias. cbn zeta.
  set (ty := resolve (aliases_ s) type).
  destruct (get_manager_run ty s Hwf) as [ [-> E]|[-> E] ]; cbn [andb].
  2: { exists s. do 3 (split; [done|]). eexists. split; [by apply bind_throw|intros f; discriminate]. }
  pose proof (delete_storage_run s r ty n Hwf Hr) as Hd.
  destruct (r_store r !! MemoryStorage.GenerateName ty n) as [l|]; simpl.
  2: { exists s. do 3 (split; [done|]). eexists. rewrite (bind_ok _ _ _ _ _ E).
       split; [by apply bind_throw|intros f; discriminate]. }
  destruct Hd as (s1 & E1 & Hwf1 & Hm1 & Hd1 & Hl1 & Hr1). pose proof (unlist_run s1 n Hwf1) as Hu.
  rewrite (bind_ok _ _ _ _ _ E), (bind_ok _ _ _ _ _ E1), bind_get.
  pose proof (rep_types s1 _ Hr1) as Ht. cbn [r_types] in Ht. rewrite Ht. destruct (find (c_str n) (meta_data s1)) as [v|]; simpl.
  - destruct Hu as (s2 & E2 & Hwf2 & Hsame & Hm2). exists s2. split; [done|]. split; [|by rewrite (same_live s1 s2)].
    destruct Hr1 as [R1 R2 R3 R4]. split; cbn [r_open r_store r_types r_next] in *.
    + intros x. rewrite R1, (same_open_container s1 s2) by done. destruct (open_container x s1); simpl; [|done].
      by rewrite (same_storage_of s1 s2).
    + intros k. by rewrite R2, (same_containers s1 s2).
    + intros k. rewrite Hm2, find_erase by by apply meta_sorted. rewrite lookup_delete. case_decide; [done|]. apply R3.
    + by rewrite R4, (same_next s1 s2).
  - destruct Hu as (s2 & E2 & Hwf2 & Hsame & Hm2). exists s2. split; [done|]. split.
    + eapply represents_same; [done|done|]. intros k. by rewrite Hm2, Ht.
    + split; [by rewrite (same_live s1 s2)|]. eexists. split; [exact E2|intros f; discriminate].
Qed.

(** ** Subscribing *)

(** Managers whose storages differ only in their subscriber. *)
Record resubscribed (b : bool) (m m' : MemoryStorage.MemoryStorageManager) : Prop := {
  res_wf : MemoryStorage.wf m'; res_heap : heap_ok m'; res_sink : MemoryStorage.manager_sink_ m' = b;
  res_storages : forall l, MemoryStorage.any_set_sink false <$> at_loc l m' = MemoryStorage.any_set_sink false <$> at_loc l m
}.

Lemma memory_subscribe b m :
  MemoryStorage.wf m -> heap_ok m ->
  exists m', MemoryStorage.ManagerSetSubscriber b m = (Ok tt, m') /\ resubscribed b m m'.
Proof.
  intros Hwf Hh. destruct (MemoryStorage.manager_subscriber_run b m Hwf) as (m' & E & Hc & Hb & Hn & Hp & Hst).
  assert (Hat : forall l a', at_loc l m' = Some a' -> exists a, at_loc l m = Some a /\
    (a' = a \/ a' = MemoryStorage.any_set_sink b a)).
  { intros l a'. unfold at_loc. rewrite Hst. case_decide; [|by eauto]. intros (a & Ha & ->)%fmap_Some. eauto. }
  exists m'. split; [done|]. split.
  - by apply (MemoryStorage.wf_subscriber b m (Ok tt)).
  - intros l a' Ha'. destruct (Hat l a' Ha') as (a & Ha & Hor). destruct (Hh l a Ha) as (H1 & [H2 H3] & pm & H4 & H5).
    split; [by rewrite Hn|]. rewrite Hp. destruct Hor as [->| ->]; [split; [done|by exists pm]|].
    split; [by destruct a; split|]. exists pm. split; [done|]. rewrite H5. by destruct a.
  - done.
  - intros l. unfold at_loc. rewrite Hst. case_decide; [|done].
    destruct (MemoryStorage.storages (MemoryStorage.objects m) !! l) as [a|]; simpl; [by destruct a|done].
Qed.

Lemma resubscribed_at b m m' l a' :
  resubscribed b m m' -> at_loc l m' = Some a' ->
  exists a, at_loc l m = Some a /\ MemoryStorage.any_set_sink false a' = MemoryStorage.any_set_sink false a.
Proof.
  intros H Ha. pose proof (res_storages b m m' H l) as Hl. rewrite Ha in Hl. symmetry in Hl.
  apply fmap_Some in Hl as (a & Ha2 & E). eauto.
Qed.

Lemma resubscribed_back b m m' l a :
  resubscribed b m m' -> at_loc l m = Some a ->
  exists a', at_loc l m' = Some a' /\ MemoryStorage.any_set_sink false a' = MemoryStorage.any_set_sink false a.
Proof.
  intros H Ha. pose proof (res_storages b m m' H l) as Hl. rewrite Ha in Hl.
  apply fmap_Some in Hl as (a' & Ha2 & E). eauto.
Qed.

Lemma subscribe_managers_run b l : forall s,
  MemoryStorage.wf (memory s) -> heap_ok (memory s) -> MemoryStorage.manager_sink_ (memory s) = b ->
  exists m', subscribe_managers b l s = (Ok tt, set_memory m' s) /\ resubscribed b (memory s) m'.
Proof.
  induction l as [|[k []] l IH]; intros s Hwf Hh Hb.
  - exists (memory s). split; [by rewrite set_memory_id|]. by split.
  - cbn [subscribe_managers subscribe_manager]. destruct (memory_subscribe b (memory s) Hwf Hh) as (m1 & E1 & H1).
    erewrite bind_ok; [|unfold on_memory; rewrite E1; reflexivity].
    destruct (IH (set_memory m1 s)) as (m2 & E2 & H2); [apply H1|apply H1|apply H1|].
    exists m2. split; [by rewrite E2|]. split; [apply H2|apply H2|apply H2|].
    intros x. rewrite (res_storages _ _ _ H2). apply H1.
Qed.

Lemma wf_subscribe s b :
  wf s -> exists s', SetSubscriber b s = (Ok tt, s') /\ wf s'.
Proof.
  intros Hwf. unfold SetSubscriber. rewrite bind_modify, bind_get.
  cbn [managerByType_ set_subscriber]. rewrite (wf_managers s Hwf).
  change fundamental with ((lit "volatile_list", mem) :: [(lit "volatile_map", mem); (lit "volatile_vector", mem)]).
  cbn [subscribe_managers subscribe_manager].
  destruct (memory_subscribe b (memory s) (wf_memory s Hwf) (wf_heap s Hwf)) as (m1 & E1 & H1).
  erewrite bind_ok; [|unfold on_memory; cbn [memory set_subscriber]; rewrite E1; reflexivity].
  destruct (subscribe_managers_run b [(lit "volatile_map", mem); (lit "volatile_vector", mem)]
    (set_memory m1 (set_subscriber b s))) as (m2 & E2 & H2); [apply H1|apply H1|apply H1|].
  eexists. split; [exact E2|]. pose proof Hwf as [W1 W2 W3 W4 W5 W6 W7 (c & l & ms & M1 & M2 & M3)].
  cbn [memory set_memory] in H2.
  split; cbn [memory live openContainers_ managerByType_ subscriber_ next_container meta_containers_ set_memory set_subscriber];
    try done; try apply H2.
  - intros x o Ho. destruct (W5 x o Ho) as (Hx & y & Y1 & Y2 & a & Ha). split; [done|]. exists y. split; [done|].
    split; [done|]. destruct (resubscribed_back _ _ _ _ _ H1 Ha) as (a1 & Ha1 & _).
    destruct (resubscribed_back _ _ _ _ _ H2 Ha1) as (a2 & Ha2 & _). eauto.
  - intros n x y a Hop Hs Ha. destruct (resubscribed_at _ _ _ _ _ H2 Ha) as (a1 & Ha1 & E).
    destruct (resubscribed_at _ _ _ _ _ H1 Ha1) as (a0 & Ha0 & E0). rewrite <- (W7 n x y a0 Hop Hs Ha0).
    assert (Hany : forall z, MemoryStorage.any_name (MemoryStorage.any_set_sink false z) = MemoryStorage.any_name z) by by intros [].
    by rewrite <- (Hany a), <- (Hany a0), E, E0.
  - destruct (resubscribed_back _ _ _ _ _ H1 M3) as (a1 & Ha1 & E1').
    destruct (resubscribed_back _ _ _ _ _ H2 Ha1) as (a2 & Ha2 & E2'). rewrite E1' in E2'.
    destruct a2; simpl in E2'; simplify_eq. by exists c, l, s0.
Qed.

(** ** Reachable states *)

Lemma wf_set_property_c s c k v r s' : wf s -> SetProperty c k v s = (r, s') -> wf s'.
Proof.
  intros Hwf E. unfold SetProperty, with_properties in E. destruct c as [c|]; [|by simplify_eq].
  destruct (live s !! c) as [o|] eqn:Eo; [|by simplify_eq]. destruct (wf_live s Hwf c o Eo) as (_ & l & _ & Hp & a & Ha).
  rewrite Hp in E. unfold on_memory in E. destruct (MemoryStorage.SetProperty l k v (memory s)) as [r' m'] eqn:Em. simplify_eq.
  pose proof (MemoryStorage.wf_set_property _ _ _ _ _ _ (wf_memory s Hwf) Em) as Hm.
  destruct (wf_heap s Hwf l a Ha) as (_ & _ & pm & Hpm & Hsp).
  unfold MemoryStorage.SetProperty in Em. rewrite bind_get, Hpm in Em. unfold modify in Em. simplify_eq.
  destruct Hwf as [W1 W2 W3 W4 W5 W6 W7 W8]. split; try done. intros x b Hb. destruct (W3 x b Hb) as (H1 & H2 & pm' & H3 & H4).
  split; [done|]. split; [done|]. simpl. rewrite lookup_insert. case_decide; [subst x|by eauto].
  assert (a = b) as -> by (unfold at_loc in *; simpl in *; congruence). by eexists.
Qed.

(** What the users of a manager do: they create, open and delete containers,
    add aliases, subscribe, use the containers they were given (the listing
    too), and drop them; the manager keeps its own two. *)
Inductive step (s : t) : t -> Prop :=
| step_create_or_open type op n r s' : CreateOrOpen type op n s = (r, s') -> step s s'
| step_delete type n r s' : DeleteContainer type n s = (r, s') -> step s s'
| step_alias a x r s' : AddAlias a x s = (r, s') -> step s s'
| step_subscribe b r s' : SetSubscriber b s = (r, s') -> step s s'
| step_command c o r s' : call c (run_op o) s = (r, s') -> step s s'
| step_set_property c k v r s' : SetProperty c k v s = (r, s') -> step s s'
| step_expire c : meta_containers_ s <> Some c -> step s (expire c s).

Definition start : t := (LoadStorageTypes make).2.

Definition reachable (s : t) : Prop := rtc step start s.

(** The abstract catalogue of a state. *)
Definition abstract (s : t) : registry := {|
  r_open := omap (fun c => storage_of c s) (to_map (openContainers_ s));
  r_store := omap MemoryStorage.storage (to_map (MemoryStorage.containers_ (memory s)));
  r_types := value <$> to_map (meta_data s);
  r_next := next_storage s
|}.

Lemma abstract_represents s : represents s (abstract s).
Proof.
  split; cbn [r_open r_store r_types r_next abstract]; try done.
  - intros n. rewrite lookup_omap, <- find_to_map. unfold open_container, storage_of.
    destruct (find n (openContainers_ s)) as [c|]; simpl; [|done]. by destruct (live s !! c) eqn:E; simpl; rewrite ?E.
  - intros k. by rewrite lookup_omap, <- find_to_map.
  - intros k. by rewrite lookup_fmap, <- find_to_map.
Qed.

Lemma create_or_open_agrees s r type op n :
  wf s -> represents s r -> agrees (CreateOrOpen type op n s) s (r_create_or_open (aliases_ s) op type n r).
Proof.
  intros Hwf Hr. destruct (open_container n s) as [c|] eqn:Eo; [|destruct op; [by apply create_agrees|by apply open_agrees] ].
  assert (E : CreateOrOpen type op n s = (Ok c, s)) by (unfold CreateOrOpen; rewrite bind_get; cbn zeta; by rewrite Eo).
  unfold r_create_or_open. rewrite (rep_open s r Hr), Eo. simpl.
  assert (is_Some (live s !! c)) as Hc.
  { unfold open_container in Eo. destruct (find n (openContainers_ s)) as [x|]; [|done].
    destruct (live s !! x) eqn:Ex; [|done]. simplify_eq. by rewrite Ex. }
  destruct (live_storage s c Hwf Hc) as (l & a & Hl & _). rewrite Hl. simpl. by exists c, s.
Qed.

Lemma catalogue_step_wf s s' : wf s -> step s s' -> wf s'.
Proof.
  intros Hwf H. destruct H as [type op n r s' E|type n r s' E|a x r s' E|b r s' E|c o r s' E|c k v r s' E|c Hc].
  - pose proof (create_or_open_agrees s (abstract s) type op n Hwf (abstract_represents s)) as H. unfold agrees in H.
    rewrite E in H. destruct (r_create_or_open _ _ _ _ _) as [ [l r']|].
    + destruct H as (c & s1 & [= -> ->] & _ & H & _). done.
    + destruct H as (e & [= -> ->] & _). done.
  - pose proof (delete_refined s (abstract s) type n Hwf (abstract_represents s)) as H.
    destruct (r_delete _ _ _ _) as [ok r']. destruct H as (s1 & H1 & _ & _ & H2).
    destruct ok; [|destruct H2 as (e & H2 & _)]; rewrite E in H2; by injection H2 as -> ->.
  - pose proof (wf_add_alias s a x Hwf) as H. by rewrite E in H.
  - destruct (wf_subscribe s b Hwf) as (s1 & E1 & H). rewrite E in E1. by injection E1 as -> ->.
  - by eapply wf_catalogue_command.
  - by eapply wf_set_property_c.
  - by apply wf_expire.
Qed.

(** The start, with the manager's own two containers. *)
Lemma heap_by_list (m : MemoryStorage.MemoryStorageManager) (P : loc -> MemoryStorage.AnyStorage -> Prop) :
  Forall (fun p => P p.1 p.2) (map_to_list (MemoryStorage.storages (MemoryStorage.objects m))) ->
  forall l a, at_loc l m = Some a -> P l a.
Proof.
  intros H l a Ha. rewrite Forall_forall in H. apply (H (l, a)). by apply elem_of_map_to_list.
Qed.

Lemma start_memory : MemoryStorage.wf (memory start) /\ heap_ok (memory start).
Proof.
  assert (Hh : heap_ok (memory start)).
  { refine (heap_by_list (memory start) (fun l a => (l < next_storage start)%nat /\ storage_ok a /\
      exists pm, MemoryStorage.propertyMaps (MemoryStorage.objects (memory start)) !! l = Some pm /\
      MemoryStorage.specialPropertiesMap_ pm = MemoryStorage.special_of l a) _). vm_compute. repeat constructor; try lia; eexists; split; reflexivity. }
  split; [|done]. split; [vm_compute; repeat constructor|]. intros k info Hk. apply find_elem in Hk.
  vm_compute in Hk. repeat (apply elem_of_cons in Hk as [Hk|Hk]; [injection Hk as -> ->|]); [| |by apply not_elem_of_nil in Hk];
    (eexists _, _; do 2 (split; [reflexivity|]); split; [vm_compute; lia|]; split; [vm_compute; reflexivity|];
     split; [eexists; split; vm_compute; reflexivity|]; repeat (split; [vm_compute; reflexivity|]);
     vm_compute; repeat constructor; discriminate).
Qed.

Lemma open_elem s n c : open_container n s = Some c -> (n, c) ∈ openContainers_ s.
Proof.
  unfold open_container. intros Ho. destruct (find n (openContainers_ s)) as [x|] eqn:Ex; [|done].
  destruct (live s !! x); [|done]. injection Ho as ->. by apply find_elem.
Qed.

Lemma start_wf : wf start.
Proof.
  destruct start_memory as [H1 H2].
  split; [vm_compute; reflexivity|exact H1|exact H2|vm_compute; reflexivity| | | |].
  - intros c o Hc. apply elem_of_map_to_list in Hc. revert c o Hc.
    assert (H : Forall (fun p => (p.1 < next_container start)%nat /\ exists l, storage_ p.2 = Some l /\
      propertyMap_ p.2 = Some l /\ is_Some (at_loc l (memory start))) (map_to_list (live start))).
    { vm_compute. repeat constructor; try lia; eexists; repeat (split; [reflexivity|]); eexists; reflexivity. }
    intros c o Hc. rewrite Forall_forall in H. apply (H (c, o) Hc).
  - intros n c Hc. apply find_elem in Hc. vm_compute in Hc |- *.
    repeat (apply elem_of_cons in Hc as [Hc|Hc]; [injection Hc as -> ->; lia|]). by apply not_elem_of_nil in Hc.
  - intros n c l a Ex%open_elem. vm_compute in Ex.
    repeat (apply elem_of_cons in Ex as [Ex|Ex]; [injection Ex as -> ->; intros Hs Ha; vm_compute in Hs; injection Hs as <-;
      vm_compute in Ha; injection Ha as <-; reflexivity|]). exfalso. exact (not_elem_of_nil _ Ex).
  - eexists _, _, _. do 2 (split; [vm_compute; reflexivity|]). vm_compute. reflexivity.
Qed.

Lemma catalogue_reachable_wf s : reachable s -> wf s.
Proof.
  intros H. unfold reachable in H. remember start as s0 eqn:E0.
  assert (Hwf : wf s0) by (subst; apply start_wf). clear E0. induction H; [done|]. by eapply IHrtc, catalogue_step_wf.
Qed.

(** ** Properties *)

(** C14. Creating, opening and deleting follow the abstract catalogue.  In every
    reachable state, also after users changed or dropped containers, [CreateOrOpen]
    answers what the catalogue says and leaves a state that represents the new
    catalogue, or throws an exception and changes nothing: a name that is open gives the
    open storage, whatever type is asked for; creating gives the storage of the
    type and name, a new one if there is none, and lists it; opening without a
    type takes the listed one.  Deleting removes the storage and its listing,
    but not the open container. *)
Theorem manager_refines_catalogue s type op n :
  reachable s ->
  agrees (CreateOrOpen type op n s) s (r_create_or_open (aliases_ s) op type n (abstract s)) /\
  exists s', represents s' (r_delete (aliases_ s) type n (abstract s)).2 /\ live s' = live s /\
    if (r_delete (aliases_ s) type n (abstract s)).1 then DeleteContainer type n s = (Ok tt, s')
    else exists e, DeleteContainer type n s = (Throw e, s') /\ forall f, e <> Fault f.
Proof.
  intros Hr. pose proof (catalogue_reachable_wf s Hr) as Hwf. split; [by apply create_or_open_agrees, abstract_represents|].
  pose proof (delete_refined s (abstract s) type n Hwf (abstract_represents s)) as H.
  destruct (r_delete _ _ _ _) as [ok r']. destruct H as (s' & _ & H). by exists s'.
Qed.

(** Container pointers stay good.  In every reachable state a container object
    some user holds has a storage and a property map that exist, the storage is
    not locked, and the container that is open under a name is one of that
    name. *)
Theorem container_pointers_valid s c o :
  reachable s -> live s !! c = Some o ->
  exists l a pm, storage_ o = Some l /\ propertyMap_ o = Some l /\ at_loc l (memory s) = Some a /\
    MemoryStorage.propertyMaps (MemoryStorage.objects (memory s)) !! l = Some pm /\
    MemoryStorage.any_locked a = false /\
    forall n, open_container n s = Some c -> MemoryStorage.any_name a = MemoryStorage.actual_name n.
Proof.
  intros Hr Hc. pose proof (catalogue_reachable_wf s Hr) as Hwf. destruct (wf_live s Hwf c o Hc) as (_ & l & H1 & H2 & a & Ha).
  destruct (wf_heap s Hwf l a Ha) as (_ & [Hl _] & pm & Hpm & _). exists l, a, pm. repeat (split; [done|]).
  intros n Hn. apply (wf_open_name s Hwf n c l a); [done| |done]. unfold storage_of. by rewrite Hc.
Qed.

(** A deleted container comes back while it is open.  After a container was
    created and deleted, creating that name again, with any type, gives the
    deleted storage with its contents as long as somebody has it open, and the
    name is neither in the catalogue nor listed. *)
Theorem deleted_container_comes_back s type type' n :
  reachable s -> supported (aliases_ s) (resolve (aliases_ s) type) = true ->
  open_container n s = None -> n <> [] ->
  exists c s1 s2 c', CreateContainer type n s = (Ok c, s1) /\ DeleteContainer type n s1 = (Ok tt, s2) /\
    CreateContainer type' n s2 = (Ok c', s2) /\ storage_of c' s2 = storage_of c s1 /\
    r_store (abstract s2) !! MemoryStorage.GenerateName (resolve (aliases_ s) type) n = None /\
    r_types (abstract s2) !! c_str n = None.
Proof.
  intros Hr Hsup Ho Hn. pose proof (catalogue_reachable_wf s Hr) as Hwf.
  pose proof (create_or_open_agrees s (abstract s) type create n Hwf (abstract_represents s)) as H.
  unfold r_create_or_open in H. rewrite (rep_open s _ (abstract_represents s)), Ho in H. simpl in H. rewrite Hsup in H.
  destruct H as (c & s1 & E1 & Hs1 & Hwf1 & Hr1 & Hal). set (l := default _ _) in *. set (ty := resolve (aliases_ s) type) in *.
  pose proof (delete_refined s1 _ type n Hwf1 Hr1) as H. unfold r_delete in H. rewrite Hal in H. fold ty in H.
  unfold supported in Hsup. apply andb_prop in Hsup as [_ Hsup]. rewrite Hsup in H. cbn [r_store r_types andb] in H.
  unfold MemoryStorage.full_name in H. rewrite MemoryStorage.actual_name_nonempty in H by done.
  rewrite !lookup_insert_eq in H. cbn [is_set] in H. destruct H as (s2 & Hwf2 & Hr2 & Hl2 & E2).
  pose proof (rep_open s2 _ Hr2 n) as Hop. cbn [r_open] in Hop. rewrite lookup_insert_eq in Hop. symmetry in Hop.
  apply bind_Some in Hop as (c' & Hc' & Hs').
  exists c, s1, s2, c'. split; [done|]. split; [done|]. split.
  { unfold CreateContainer, CreateOrOpen. rewrite bind_get. cbn zeta. by rewrite Hc'. }
  split; [congruence|]. split.
  - rewrite (rep_store s2 _ (abstract_represents s2)), <- (rep_store s2 _ Hr2). cbn [r_store]. apply lookup_delete_eq.
  - rewrite (rep_types s2 _ (abstract_represents s2)), <- (rep_types s2 _ Hr2). cbn [r_types]. apply lookup_delete_eq.
Qed.

(** ** Witnesses *)

Lemma start_reachable : reachable start.
Proof. apply rtc_refl. Qed.

Lemma manager_refines_catalogue_witness :
  agrees (CreateOrOpen [] open (lit "__meta__/available_types") start) start
    (r_create_or_open [] open [] (lit "__meta__/available_types") (abstract start)).
Proof.
  pose proof (manager_refines_catalogue start [] open (lit "__meta__/available_types") start_reachable) as [H _].
  exact H.
Defined.

Lemma container_pointers_valid_witness :
  exists l a, at_loc l (memory start) = Some a /\ MemoryStorage.any_name a = lit "__meta__/containers".
Proof.
  destruct (container_pointers_valid start 0%nat {| storage_ := Some 0%nat; propertyMap_ := Some 0%nat |} start_reachable)
    as (l & a & pm & _ & _ & Ha & _ & _ & Hn).
  - vm_compute. reflexivity.
  - exists l, a. split; [exact Ha|]. apply (Hn (lit "__meta__/containers")). vm_compute. reflexivity.
Defined.

Lemma deleted_container_comes_back_witness :
  exists c s1 s2 c', CreateContainer (lit "volatile_list") (lit "orders") start = (Ok c, s1) /\
    DeleteContainer (lit "volatile_list") (lit "orders") s1 = (Ok tt, s2) /\
    CreateContainer (lit "volatile_map") (lit "orders") s2 = (Ok c', s2) /\ storage_of c' s2 = storage_of c s1.
Proof.
  destruct (deleted_container_comes_back start (lit "volatile_list") (lit "volatile_map") (lit "orders") start_reachable)
    as (c & s1 & s2 & c' & E1 & E2 & E3 & E4 & _).
  - vm_compute. reflexivity.
  - vm_compute. reflexivity.
  - discriminate.
  - exists c, s1, s2, c'. split; [exact E1|]. split; [exact E2|]. split; [exact E3|exact E4].
Defined.

End ContainerManager.
