(* ===== verification/SessionMessages.v ===== *)
(** * Messages on the server's side: [server/tio/TioTcpSession.h]

    The inline functions that put [TioData] values into PR1 messages and take
    them out, on top of the message functions the server shares with the
    client ([Pr1Message.v]).  What they build and read is stated with the
    client's fields, so that the two sides meet in one notion of a message. *)
From S2P Require Import Prelude StreamBuffer Pr1Message TioDataC Protocol TioDataS Containers.

Module SessionMessages.
Import Pr1 TioDataC Protocol TioData Containers.

(** ** Reading *)

Definition Pr1MessageToCppTioData (blk : bytes) (field : Z) : res TioData :=
  data_type ← fh_data_type blk field;
  if data_type =? MESSAGE_FIELD_TYPE_NONE then Ok None_
  else if data_type =? TIO_DATA_TYPE_STRING then
    data_size ← fh_data_size blk field;
    s ← mem_read blk (field + field_header_size) data_size; Ok (String s)
  else if data_type =? TIO_DATA_TYPE_INT then i ← pr1_message_field_get_int blk field; Ok (Int i)
  else if data_type =? TIO_DATA_TYPE_DOUBLE then d ← pr1_message_field_get_double blk field; Ok (Double d)
  else Ok None_.

(** The three overloads of [Pr1MessageGetField]; [None] is the answer [false],
    after which the output argument is as it was. *)
Definition Pr1MessageGetField_data (message : PR1_MESSAGE) (fieldId : Z) : res (option TioData) :=
  field ← pr1_message_field_find_by_id message fieldId;
  match field with
  | None => Ok None
  | Some p => t ← Pr1MessageToCppTioData (blk_of message) p; Ok (Some t)
  end.

Definition Pr1MessageGetField_string (message : PR1_MESSAGE) (fieldId : Z) : res (option bytes) :=
  field ← pr1_message_field_find_by_id message fieldId;
  match field with
  | None => Ok None
  | Some p =>
      data_type ← fh_data_type (blk_of message) p;
      if negb (data_type =? TIO_DATA_TYPE_STRING) then Ok None
      else
        data_size ← fh_data_size (blk_of message) p;
        s ← mem_read (blk_of message) (p + field_header_size) data_size; Ok (Some s)
  end.

Definition Pr1MessageGetField_int (message : PR1_MESSAGE) (fieldId : Z) : res (option Z) :=
  field ← pr1_message_field_find_by_id message fieldId;
  match field with
  | None => Ok None
  | Some p =>
      data_type ← fh_data_type (blk_of message) p;
      if negb (data_type =? TIO_DATA_TYPE_INT) then Ok None
      else i ← pr1_message_field_get_int (blk_of message) p; Ok (Some i)
  end.

(** An output argument that is given, and its value when the field is there. *)
Definition get_into (message : PR1_MESSAGE) (fieldId : Z) (o : out) : res out :=
  match o with
  | None => Ok None
  | Some old => v ← Pr1MessageGetField_data message fieldId; Ok (Some (default old v))
  end.

Definition Pr1MessageGetHandleKeyValueAndMetadata (message : PR1_MESSAGE) (key value metadata : out)
  : res (Z * outs) :=
  handle ← Pr1MessageGetField_int message MESSAGE_FIELD_ID_HANDLE;
  key ← get_into message MESSAGE_FIELD_ID_KEY key;
  value ← get_into message MESSAGE_FIELD_ID_VALUE value;
  metadata ← get_into message MESSAGE_FIELD_ID_METADATA metadata;
  Ok (default 0 handle, (key, value, metadata)).

(** ** Building *)

Definition Pr1CreateMessage : res PR1_MESSAGE := pr1_message_new.

Definition Pr1MessageAddField_int (message : PR1_MESSAGE) (fieldId value : Z) : res PR1_MESSAGE :=
  pr1_message_add_field_int message fieldId value.

(** [value.c_str()] *)
Definition Pr1MessageAddField_string (message : PR1_MESSAGE) (fieldId : Z) (value : bytes) : res PR1_MESSAGE :=
  pr1_message_add_field_string message fieldId (c_str value).

Definition Pr1MessageAddField (message : PR1_MESSAGE) (fieldId : Z) (tiodata : TioData) : res PR1_MESSAGE :=
  let add fieldType :=
    raw ← AsRaw tiodata;
    size ← GetSize tiodata;
    pr1_message_add_field message fieldId fieldType raw size in
  match tiodata with
  | String _ => add TIO_DATA_TYPE_STRING
  | Int _ => add TIO_DATA_TYPE_INT
  | Double _ => add TIO_DATA_TYPE_DOUBLE
  | None_ => pr1_message_add_field message fieldId TIO_DATA_TYPE_NONE [] 0
  end.

Definition add_if_set (message : PR1_MESSAGE) (fieldId : Z) (v : option TioData) : res PR1_MESSAGE :=
  match v with
  | Some v => if negb (GetDataType v =? 0) then Pr1MessageAddField message fieldId v else Ok message
  | None => Ok message
  end.

Definition Pr1MessageAddFields (message : PR1_MESSAGE) (key value metadata : option TioData) : res PR1_MESSAGE :=
  message ← add_if_set message MESSAGE_FIELD_ID_KEY key;
  message ← add_if_set message MESSAGE_FIELD_ID_VALUE value;
  add_if_set message MESSAGE_FIELD_ID_METADATA metadata.

Definition Pr1CreateAnswerMessage : res PR1_MESSAGE :=
  answer ← Pr1CreateMessage;
  pr1_message_add_field_int answer MESSAGE_FIELD_ID_COMMAND TIO_COMMAND_ANSWER.

Definition Pr1CreateAnswerMessage_data (key value metadata : option TioData) : res PR1_MESSAGE :=
  answer ← Pr1CreateAnswerMessage;
  Pr1MessageAddFields answer key value metadata.

(** ** What the two sides agree on *)

(** The value a client sees. *)
Definition client_value (t : TioData) : tio_value :=
  match t with None_ => VNone | Int i => VInt i | Double d => VDouble d | String s => VString s end.

Definition server_value (v : tio_value) : TioData :=
  match v with VNone => None_ | VInt i => Int i | VDouble d => Double d | VString s => String s end.

Lemma server_client_value t : server_value (client_value t) = t.
Proof. by destruct t. Qed.

Lemma client_server_value v : client_value (server_value v) = v.
Proof. by destruct v. Qed.

(** Values that fit a field. *)
Definition value_fits (t : TioData) : Prop := value_ok (client_value t).

Lemma read_value_ok blk p id v :
  points_to_field blk p (value_field id v) -> value_ok v -> Pr1MessageToCppTioData blk p = Ok (server_value v).
Proof.
  intros Hp Hv. destruct (points_to_header _ _ _ Hp) as (Et & Es & Ed). unfold Pr1MessageToCppTioData. rewrite Et. mrun.
  destruct v as [|s|z|d]; cbn [value_field f_type MESSAGE_FIELD_TYPE_NONE MESSAGE_FIELD_TYPE_STRING
    MESSAGE_FIELD_TYPE_INT MESSAGE_FIELD_TYPE_DOUBLE TIO_DATA_TYPE_STRING TIO_DATA_TYPE_INT
    TIO_DATA_TYPE_DOUBLE] in *; cbn [Z.eqb Pos.eqb].
  - done.
  - rewrite Es. mrun. rewrite Ed. done.
  - by rewrite (field_get_int_ok _ _ _ _ Hp eq_refl Hv).
  - unfold pr1_message_field_get_double. rewrite Es. mrun. unfold f_size in *; cbn [f_data] in *. simpl in Hv.
    rewrite Hv in Ed |- *. unfold assert_. cbn [Z.eqb Z.of_nat Pos.of_succ_nat Pos.succ Pos.eqb] in *.
    mrun. change 8 with (Z.of_nat 8). rewrite Ed. done.
Qed.

(** Reading a field of a parsed message. *)
Lemma get_data_ok m fs id v :
  parsed_as m fs -> find_field id fs = value_field id <$> v -> (forall x, v = Some x -> value_ok x) ->
  Pr1MessageGetField_data m id = Ok (server_value <$> v).
Proof.
  intros Hp Hf Hv. unfold Pr1MessageGetField_data. destruct (find_by_id_ok m fs id Hp) as (r & E & Hr). rewrite E. mrun.
  rewrite Hf in Hr. destruct v as [v|]; simpl in Hr; [|by subst]. destruct Hr as (p & -> & Hpt).
  rewrite (read_value_ok _ _ _ _ Hpt) by auto. done.
Qed.

Lemma get_int_ok m fs id v :
  parsed_as m fs -> find_field id fs = int_field id <$> v -> (forall x, v = Some x -> is_int x) ->
  Pr1MessageGetField_int m id = Ok v.
Proof.
  intros Hp Hf Hv. unfold Pr1MessageGetField_int. destruct (find_by_id_ok m fs id Hp) as (r & E & Hr). rewrite E. mrun.
  rewrite Hf in Hr. destruct v as [v|]; simpl in Hr; [|by subst]. destruct Hr as (p & -> & Hpt).
  destruct (points_to_header _ _ _ Hpt) as (Et & _). rewrite Et. mrun.
  change (f_type (int_field id v)) with TIO_DATA_TYPE_INT. cbn [TIO_DATA_TYPE_INT Z.eqb Pos.eqb negb].
  by rewrite (field_get_int_ok _ _ _ v Hpt eq_refl) by auto.
Qed.

Lemma get_string_ok m fs id v :
  parsed_as m fs -> find_field id fs = (fun s => value_field id (VString s)) <$> v ->
  Pr1MessageGetField_string m id = Ok v.
Proof.
  intros Hp Hf. unfold Pr1MessageGetField_string. destruct (find_by_id_ok m fs id Hp) as (r & E & Hr). rewrite E. mrun.
  rewrite Hf in Hr. destruct v as [v|]; simpl in Hr; [|by subst]. destruct Hr as (p & -> & Hpt).
  destruct (points_to_header _ _ _ Hpt) as (Et & Es & Ed). rewrite Et. mrun.
  cbn [value_field f_type MESSAGE_FIELD_TYPE_STRING TIO_DATA_TYPE_STRING Z.eqb Pos.eqb negb]. rewrite Es. mrun. by rewrite Ed.
Qed.

(** A field of another type is as good as none for these two. *)
Lemma get_int_other m fs id v :
  parsed_as m fs -> find_field id fs = Some (value_field id v) -> (forall z, v <> VInt z) ->
  Pr1MessageGetField_int m id = Ok None.
Proof.
  intros Hp Hf Hv. unfold Pr1MessageGetField_int. destruct (find_by_id_ok m fs id Hp) as (r & E & Hr). rewrite E. mrun.
  rewrite Hf in Hr. destruct Hr as (p & -> & Hpt). destruct (points_to_header _ _ _ Hpt) as (Et & _). rewrite Et. mrun.
  destruct v; simpl; try done. by destruct (Hv z).
Qed.

Lemma get_string_other m fs id v :
  parsed_as m fs -> find_field id fs = Some (value_field id v) -> (forall s, v <> VString s) ->
  Pr1MessageGetField_string m id = Ok None.
Proof.
  intros Hp Hf Hv. unfold Pr1MessageGetField_string. destruct (find_by_id_ok m fs id Hp) as (r & E & Hr). rewrite E. mrun.
  rewrite Hf in Hr. destruct Hr as (p & -> & Hpt). destruct (points_to_header _ _ _ Hpt) as (Et & _). rewrite Et. mrun.
  destruct v; simpl; try done. by destruct (Hv s).
Qed.

(** *** Building *)

Definition data_field (id : Z) (t : TioData) : field := value_field id (client_value t).

Lemma add_data_ok m fs id t :
  built_as m fs -> value_fits t -> fits (fs ++ [data_field id t]) ->
  exists m', Pr1MessageAddField m id t = Ok m' /\ built_as m' (fs ++ [data_field id t]).
Proof.
  intros Hb Hv Hf. destruct (pr1_message_add_field_ok m fs (data_field id t)) as (m' & E & Hb'); auto.
  { pose proof (fields_size_in (data_field id t) (fs ++ [data_field id t]) ltac:(set_solver)).
    unfold fits, header_size in *. lia. }
  exists m'. split; [|done]. rewrite <- E. unfold Pr1MessageAddField, data_field, f_size.
  destruct t as [|i|d|s]; simpl in *; try done. by rewrite Hv.
Qed.

(** The fields of the values that are set. *)
Definition set_field (id : Z) (v : option TioData) : list field :=
  match v with Some None_ | None => [] | Some t => [data_field id t] end.

Lemma add_if_set_ok m fs id v :
  built_as m fs -> (forall t, v = Some t -> value_fits t) -> fits (fs ++ set_field id v) ->
  exists m', add_if_set m id v = Ok m' /\ built_as m' (fs ++ set_field id v).
Proof.
  intros Hb Hv Hf. destruct v as [t|]; cbn [add_if_set set_field] in *; [|exists m; by rewrite app_nil_r].
  destruct t as [|i|d|s]; cbn [set_field GetDataType Z.eqb negb] in *; [exists m; by rewrite app_nil_r| | |];
    apply add_data_ok; auto.
Qed.

Definition values_fields (key value metadata : option TioData) : list field :=
  set_field MESSAGE_FIELD_ID_KEY key ++ set_field MESSAGE_FIELD_ID_VALUE value ++
  set_field MESSAGE_FIELD_ID_METADATA metadata.

Lemma add_fields_built m fs key value metadata :
  built_as m fs -> (forall t, key = Some t -> value_fits t) -> (forall t, value = Some t -> value_fits t) ->
  (forall t, metadata = Some t -> value_fits t) -> fits (fs ++ values_fields key value metadata) ->
  exists m', Pr1MessageAddFields m key value metadata = Ok m' /\
    built_as m' (fs ++ values_fields key value metadata).
Proof.
  intros Hb Hk Hv Hm Hf. unfold values_fields in *. rewrite !app_assoc in *. unfold Pr1MessageAddFields.
  destruct (add_if_set_ok m fs MESSAGE_FIELD_ID_KEY key Hb Hk) as (m1 & E1 & H1); [by do 2 eapply fits_app|].
  rewrite E1. mrun.
  destruct (add_if_set_ok m1 _ MESSAGE_FIELD_ID_VALUE value H1 Hv) as (m2 & E2 & H2); [by eapply fits_app|].
  rewrite E2. mrun. by apply add_if_set_ok.
Qed.

Lemma add_int_built m fs id z :
  built_as m fs -> fits (fs ++ [int_field id z]) ->
  exists m', Pr1MessageAddField_int m id z = Ok m' /\ built_as m' (fs ++ [int_field id z]).
Proof. apply add_field_int_ok. Qed.

Lemma add_string_built m fs id s :
  built_as m fs -> fits (fs ++ [value_field id (VString (c_str s))]) ->
  exists m', Pr1MessageAddField_string m id s = Ok m' /\ built_as m' (fs ++ [value_field id (VString (c_str s))]).
Proof.
  intros Hb Hf. set (f := value_field id (VString (c_str s))) in *.
  pose proof (fields_size_in f (fs ++ [f]) ltac:(set_solver)) as Hs. unfold fits, header_size in Hf.
  destruct (pr1_message_add_field_ok m fs f) as (m' & E & Hb'); [done|lia|done|].
  unfold f_size in Hs. change (f_data f) with (c_str s) in Hs.
  exists m'. split; [|done]. rewrite <- E. unfold Pr1MessageAddField_string, pr1_message_add_field_string, strlen32, assert_.
  ztest. mrun. rewrite u32_small by lia. reflexivity.
Qed.

Definition answer_fields (key value metadata : option TioData) : list field :=
  int_field MESSAGE_FIELD_ID_COMMAND TIO_COMMAND_ANSWER :: values_fields key value metadata.

Lemma fits_small fs : fields_size fs < 2 ^ 30 -> fits fs.
Proof. intros H. unfold fits, header_size. lia. Qed.

Lemma answer_built : exists m, Pr1CreateAnswerMessage = Ok m /\
  built_as m [int_field MESSAGE_FIELD_ID_COMMAND TIO_COMMAND_ANSWER].
Proof.
  unfold Pr1CreateAnswerMessage, Pr1CreateMessage. destruct pr1_message_new_ok as (m & E & Hb). rewrite E. mrun.
  apply (add_field_int_ok m []); [done|]. by apply fits_small.
Qed.

Lemma answer_data_built key value metadata :
  (forall t, key = Some t -> value_fits t) -> (forall t, value = Some t -> value_fits t) ->
  (forall t, metadata = Some t -> value_fits t) -> fits (answer_fields key value metadata) ->
  exists m, Pr1CreateAnswerMessage_data key value metadata = Ok m /\ built_as m (answer_fields key value metadata).
Proof.
  intros. unfold Pr1CreateAnswerMessage_data. destruct answer_built as (m & E & Hb). rewrite E. mrun.
  by apply (add_fields_built m [int_field MESSAGE_FIELD_ID_COMMAND TIO_COMMAND_ANSWER]).
Qed.

End SessionMessages.
