(* ===== verification/Session.v ===== *)
(** * Sessions: [server/tio/TioTcpSession.cpp] and [.h]

    A session is one connection of a client: the containers it has opened, by
    handle and by name, and what is still to be sent to it.  [async_write] is the
    start of a write: its buffer joins [in_flight_] and [wire_] (all bytes ever
    given to the socket, in order), and its completion is a later call of
    [OnBinaryMessageSent] or [OnWrite].  A container is a pointer into the
    container manager's heap.  The locks are taken by one thread at a time. *)
From S2P Require Import Prelude Decimal StreamBuffer Pr1Message TioDataC Protocol TioDataS Containers SessionMessages.

Module Session.
Import Pr1 TioDataC Protocol TioData Containers SessionMessages.

Notation loc := nat (only parsing).

(** ** State *)

Record session := mk_session {
  id_ : Z;
  handles_ : gmap Z loc;                     (* HandleInfo: the container *)
  containerNameToHandle_ : gmap bytes Z;
  lastHandle_ : Z;
  sentBytes_ : Z;
  pendingSendSize_ : Z;
  maxPendingSendingSize_ : Z;
  binaryProtocol_ : bool;
  pendingSendData_ : list bytes;
  pendingBinarySendData_ : list PR1_MESSAGE;
  binarySendInProgress_ : bool;
  tokens_ : list bytes;
  valid_ : bool;
  debugSeqNum_ : Z;
  in_flight_ : list bytes;
  wire_ : bytes;
  failed_ : nat                              (* calls of OnClientFailed *)
}.

Definition new_session (id : Z) : session :=
  mk_session id ∅ ∅ 0 0 0 0 false [] [] false [] true 0 [] [] 0%nat.

Definition set_handles h n l s := mk_session (id_ s) h n l (sentBytes_ s) (pendingSendSize_ s)
  (maxPendingSendingSize_ s) (binaryProtocol_ s) (pendingSendData_ s) (pendingBinarySendData_ s)
  (binarySendInProgress_ s) (tokens_ s) (valid_ s) (debugSeqNum_ s) (in_flight_ s) (wire_ s) (failed_ s).
Definition set_sizes sent pending mx s := mk_session (id_ s) (handles_ s) (containerNameToHandle_ s) (lastHandle_ s)
  sent pending mx (binaryProtocol_ s) (pendingSendData_ s) (pendingBinarySendData_ s)
  (binarySendInProgress_ s) (tokens_ s) (valid_ s) (debugSeqNum_ s) (in_flight_ s) (wire_ s) (failed_ s).
Definition set_binary b s := mk_session (id_ s) (handles_ s) (containerNameToHandle_ s) (lastHandle_ s)
  (sentBytes_ s) (pendingSendSize_ s) (maxPendingSendingSize_ s) b (pendingSendData_ s) (pendingBinarySendData_ s)
  (binarySendInProgress_ s) (tokens_ s) (valid_ s) (debugSeqNum_ s) (in_flight_ s) (wire_ s) (failed_ s).
Definition set_pending_data d s := mk_session (id_ s) (handles_ s) (containerNameToHandle_ s) (lastHandle_ s)
  (sentBytes_ s) (pendingSendSize_ s) (maxPendingSendingSize_ s) (binaryProtocol_ s) d (pendingBinarySendData_ s)
  (binarySendInProgress_ s) (tokens_ s) (valid_ s) (debugSeqNum_ s) (in_flight_ s) (wire_ s) (failed_ s).
Definition set_pending_binary d p q s := mk_session (id_ s) (handles_ s) (containerNameToHandle_ s) (lastHandle_ s)
  (sentBytes_ s) (pendingSendSize_ s) (maxPendingSendingSize_ s) (binaryProtocol_ s) (pendingSendData_ s) d
  p (tokens_ s) (valid_ s) q (in_flight_ s) (wire_ s) (failed_ s).
Definition set_tokens t s := mk_session (id_ s) (handles_ s) (containerNameToHandle_ s) (lastHandle_ s)
  (sentBytes_ s) (pendingSendSize_ s) (maxPendingSendingSize_ s) (binaryProtocol_ s) (pendingSendData_ s)
  (pendingBinarySendData_ s) (binarySendInProgress_ s) t (valid_ s) (debugSeqNum_ s) (in_flight_ s) (wire_ s) (failed_ s).
Definition set_valid v s := mk_session (id_ s) (handles_ s) (containerNameToHandle_ s) (lastHandle_ s)
  (sentBytes_ s) (pendingSendSize_ s) (maxPendingSendingSize_ s) (binaryProtocol_ s) (pendingSendData_ s)
  (pendingBinarySendData_ s) (binarySendInProgress_ s) (tokens_ s) v (debugSeqNum_ s) (in_flight_ s) (wire_ s) (failed_ s).
Definition set_socket f w s := mk_session (id_ s) (handles_ s) (containerNameToHandle_ s) (lastHandle_ s)
  (sentBytes_ s) (pendingSendSize_ s) (maxPendingSendingSize_ s) (binaryProtocol_ s) (pendingSendData_ s)
  (pendingBinarySendData_ s) (binarySendInProgress_ s) (tokens_ s) (valid_ s) (debugSeqNum_ s) f w (failed_ s).
Definition fail_client s := mk_session (id_ s) (handles_ s) (containerNameToHandle_ s) (lastHandle_ s)
  (sentBytes_ s) (pendingSendSize_ s) (maxPendingSendingSize_ s) (binaryProtocol_ s) (pendingSendData_ s)
  (pendingBinarySendData_ s) (binarySendInProgress_ s) (tokens_ s) (valid_ s) (debugSeqNum_ s) (in_flight_ s) (wire_ s)
  (S (failed_ s)).

(** [asio::async_write] *)
Definition async_write (buffer : bytes) : M session unit :=
  modify (fun s => set_socket (in_flight_ s ++ [buffer]) (wire_ s ++ buffer) s).

(** [a += b] of [int]s. *)
Definition add_int (a b : Z) : res Z :=
  if (INT_MIN <=? a + b) && (a + b <=? INT_MAX) then Ok (a + b) else Throw (Fault SignedOverflow).

(** ** Handles *)

Definition invalid_handle : exn := invalid_argument "invalid handle".

Definition RegisterContainer (containerName : bytes) (container : loc) : M session Z :=
  s ← get;
  match containerNameToHandle_ s !! containerName with
  | Some h => mret h
  | None =>
      let handle := u32 (lastHandle_ s + 1) in
      (* emplace does not replace an element that is there *)
      let handles := match handles_ s !! handle with Some _ => handles_ s | None => <[handle := container]> (handles_ s) end in
      _ ← modify (set_handles handles (<[containerName := handle]> (containerNameToHandle_ s)) handle);
      mret handle
  end.

Definition RegisterNewGroupContainer (groupName containerName : bytes) (container : loc) : M session Z :=
  RegisterContainer containerName container.

Definition GetRegisteredContainer (handle : Z) : M session loc :=
  s ← get;
  match handles_ s !! u32 handle with
  | None => throw invalid_handle
  | Some c => mret c
  end.

(** [Unsubscribe] has no body. *)
Definition Unsubscribe (handle : Z) : M session unit := mret tt.
Definition UnsubscribeAll : M session unit := mret tt.

(** [GetName] is that of the container objects. *)
Definition CloseContainerHandle (GetName : loc -> bytes) (handle : Z) : M session unit :=
  s ← get;
  match handles_ s !! u32 handle with
  | None => throw invalid_handle
  | Some c =>
      _ ← modify (set_handles (handles_ s) (delete (GetName c) (containerNameToHandle_ s)) (lastHandle_ s));
      _ ← Unsubscribe handle;
      modify (fun s => set_handles (delete (u32 handle) (handles_ s)) (containerNameToHandle_ s) (lastHandle_ s) s)
  end.

Definition GetTokens (s : session) : list bytes := tokens_ s.
Definition AddToken (token : bytes) : M session unit := modify (fun s => set_tokens (tokens_ s ++ [token]) s).

(** ** Errors *)

Definition InvalidateConnection : M session unit :=
  s ← get;
  if negb (valid_ s) then mret tt
  else
    _ ← modify (set_valid false);
    _ ← modify (fun s => set_pending_binary [] (binarySendInProgress_ s) (debugSeqNum_ s) s);
    _ ← modify (set_pending_data []);
    _ ← UnsubscribeAll;
    _ ← modify (fun s => set_handles ∅ (containerNameToHandle_ s) (lastHandle_ s) s);
    modify fail_client.

(** [err] is whether the operation failed. *)
Definition CheckError (err : bool) : M session bool :=
  if err then _ ← InvalidateConnection; mret true else mret false.

(** ** Binary output *)

Definition IncreasePendingSendSize (size : Z) : M session unit :=
  s ← get;
  pending ← lift (add_int (pendingSendSize_ s) size);
  modify (set_sizes (sentBytes_ s) pending
    (if maxPendingSendingSize_ s <? pending then pending else maxPendingSendingSize_ s)).

(** Nobody registers a callback for low pending bytes. *)
Definition DecreasePendingSendSize (size : Z) : M session unit :=
  s ← get;
  pending ← lift (add_int (pendingSendSize_ s) (- size));
  _ ← modify (set_sizes (sentBytes_ s) pending (maxPendingSendingSize_ s));
  lift (assert_ (0 <=? pending)).

Definition SEND_BUFFER_SIZE : Z := 10 * 1024 * 1024.

(** [while(!pendingBinarySendData_.empty())]: the messages that are left, the
    sequence number and the contents of the send buffer.  The sum in the test is
    an [unsigned]. *)
Fixpoint fill_buffer (pending : list PR1_MESSAGE) (seq : Z) (buffer : bytes)
  : res (list PR1_MESSAGE * Z * bytes) :=
  match pending with
  | [] => Ok ([], seq, buffer)
  | item :: rest =>
      let seq := u16 (seq + 1) in
      '(bs, item) ← pr1_message_get_buffer item seq;
      let size := Z.of_nat (length bs) in
      let used := Z.of_nat (length buffer) in
      if SEND_BUFFER_SIZE <? u32 (used + size) then Ok (item :: rest, seq, buffer)
      else if SEND_BUFFER_SIZE <? used + size then Throw (Fault OutOfBounds)
      else fill_buffer rest seq (buffer ++ bs)
  end.

Definition SendPendingBinaryData : M session unit :=
  s ← get;
  if binarySendInProgress_ s then mret tt
  else if negb (valid_ s) then mret tt
  else if bool_decide (pendingBinarySendData_ s = []) then mret tt
  else
    '(pending, seq, buffer) ← lift (fill_buffer (pendingBinarySendData_ s) (debugSeqNum_ s) []);
    _ ← modify (set_pending_binary pending true seq);
    async_write buffer.

Definition OnBinaryMessageSent (err : bool) (sent : Z) : M session unit :=
  failed ← CheckError err;
  if (failed : bool) then mret tt
  else
    _ ← DecreasePendingSendSize sent;
    s ← get;
    total ← lift (add_int (sentBytes_ s) sent);
    _ ← modify (set_sizes total (pendingSendSize_ s) (maxPendingSendingSize_ s));
    _ ← lift (assert_ (0 <=? pendingSendSize_ s));
    _ ← modify (fun s => set_pending_binary (pendingBinarySendData_ s) false (debugSeqNum_ s) s);
    SendPendingBinaryData.

Definition SendBinaryMessage (message : PR1_MESSAGE) : M session unit :=
  s ← get;
  if negb (valid_ s) then mret tt
  else
    _ ← modify (set_pending_binary (pendingBinarySendData_ s ++ [message]) (binarySendInProgress_ s) (debugSeqNum_ s));
    _ ← IncreasePendingSendSize (pr1_message_get_data_size message);
    SendPendingBinaryData.

Fixpoint push_messages (messages : list PR1_MESSAGE) : M session unit :=
  match messages with
  | [] => mret tt
  | message :: rest =>
      _ ← modify (fun s => set_pending_binary (pendingBinarySendData_ s ++ [message]) (binarySendInProgress_ s)
            (debugSeqNum_ s) s);
      _ ← IncreasePendingSendSize (pr1_message_get_data_size message);
      push_messages rest
  end.

Definition SendBinaryMessages (messages : list PR1_MESSAGE) : M session unit :=
  s ← get;
  if negb (valid_ s) then mret tt
  else _ ← push_messages messages; SendPendingBinaryData.

Definition SendBinaryAnswer_data (key value metadata : option TioData) : M session unit :=
  m ← lift (Pr1CreateAnswerMessage_data key value metadata); SendBinaryMessage m.

Definition SendBinaryAnswer : M session unit :=
  m ← lift (Pr1CreateAnswerMessage_data None None None); SendBinaryMessage m.

Definition SendBinaryErrorAnswer (errorCode : Z) (description : bytes) : M session unit :=
  m ← lift (
    answer ← Pr1CreateMessage;
    answer ← pr1_message_add_field_int answer MESSAGE_FIELD_ID_COMMAND TIO_COMMAND_ANSWER;
    answer ← pr1_message_add_field_int answer MESSAGE_FIELD_ID_ERROR_CODE errorCode;
    pr1_message_add_field_string answer MESSAGE_FIELD_ID_ERROR_DESC (c_str description));
  SendBinaryMessage m.

(** *** Events and result sets *)

(** The three fields every event message starts with. *)
Definition event_message (handle eventCode : Z) : res PR1_MESSAGE :=
  message ← Pr1CreateMessage;
  message ← Pr1MessageAddField_int message MESSAGE_FIELD_ID_COMMAND TIO_COMMAND_EVENT;
  message ← Pr1MessageAddField_int message MESSAGE_FIELD_ID_HANDLE handle;
  Pr1MessageAddField_int message MESSAGE_FIELD_ID_EVENT_CODE eventCode.

Definition SendBinaryEvent (handle : Z) (eventCode : ContainerEventCode) (k v m : TioData) : M session unit :=
  let add message id t := if operator_bool t then Pr1MessageAddField message id t else Ok message in
  message ← lift (
    message ← event_message handle (event_code_value eventCode);
    message ← add message MESSAGE_FIELD_ID_KEY k;
    message ← add message MESSAGE_FIELD_ID_VALUE v;
    add message MESSAGE_FIELD_ID_METADATA m);
  SendBinaryMessage message.

(** One message for each record, in a vector of [RecordCount] elements. *)
Fixpoint snapshot_messages (handle code : Z) (items : list item) : res (list PR1_MESSAGE) :=
  match items with
  | [] => Ok []
  | (key, value, metadata) :: items =>
      message ← event_message handle code;
      message ← Pr1MessageAddFields message (Some key) (Some value) (Some metadata);
      rest ← snapshot_messages handle code items;
      Ok (message :: rest)
  end.

(** What a loop over [GetRecord] and [MoveNext] sees. *)
Definition remaining (r : VectorResultSet) : list item := drop (current_ r) (items_ r).

Definition SendBinarySubscriptionSnapshot (resultSet : VectorResultSet) (handle : Z) (eventCode : ContainerEventCode)
  : M session unit :=
  _ ← lift (if bool_decide (Z.of_nat (length (remaining resultSet)) <= ResultSet.RecordCount resultSet)
            then Ok tt else Throw (Fault OutOfBounds));
  messages ← lift (snapshot_messages handle (event_code_value eventCode) (remaining resultSet));
  snapshotEndEvent ← lift (event_message handle TIO_EVENT_SNAPSHOT_END);
  (* elements of the vector beyond the records stay null *)
  _ ← lift (if bool_decide (ResultSet.RecordCount resultSet = Z.of_nat (length messages))
            then Ok tt else Throw (Fault NullDeref));
  SendBinaryMessages (messages ++ [snapshotEndEvent]).

(** [for(unsigned a = 0; a < maxRecords; )] over the records. *)
Fixpoint send_items (queryID : Z) (filterFunction : option (TioData -> bool)) (items : list item) (a maxRecords : Z)
  : M session unit :=
  match items with
  | [] => mret tt
  | (key, value, metadata) :: items =>
      if maxRecords <=? a then mret tt
      else if match filterFunction with Some f => negb (f key) | None => false end
      then send_items queryID filterFunction items a maxRecords
      else
        message ← lift (
          message ← Pr1CreateMessage;
          message ← Pr1MessageAddField_int message MESSAGE_FIELD_ID_COMMAND TIO_COMMAND_QUERY_ITEM;
          message ← Pr1MessageAddField_int message MESSAGE_FIELD_ID_QUERY_ID queryID;
          Pr1MessageAddFields message (Some key) (Some value) (Some metadata));
        _ ← SendBinaryMessage message;
        send_items queryID filterFunction items (a + 1) maxRecords
  end.

Definition SendBinaryResultSet (resultSet : VectorResultSet) (queryID : Z) (filterFunction : option (TioData -> bool))
    (maxRecords : Z) : M session unit :=
  answer ← lift (
    answer ← Pr1CreateAnswerMessage;
    pr1_message_add_field_int answer MESSAGE_FIELD_ID_QUERY_ID queryID);
  _ ← SendBinaryMessage answer;
  let maxRecords := if maxRecords =? 0 then 0xFFFFFFFF else maxRecords in
  _ ← send_items queryID filterFunction (remaining resultSet) 0 maxRecords;
  queryEnd ← lift (
    message ← Pr1CreateMessage;
    message ← Pr1MessageAddField_int message MESSAGE_FIELD_ID_COMMAND TIO_COMMAND_QUERY_ITEM;
    Pr1MessageAddField_int message MESSAGE_FIELD_ID_QUERY_ID queryID);
  SendBinaryMessage queryEnd.

(** ** Text output *)

Definition SendStringNow (str : bytes) : M session unit :=
  s ← get;
  if negb (valid_ s) then mret tt
  else
    _ ← IncreasePendingSendSize (Z.of_nat (length str));
    async_write str.

(** A client that lets 100 MB pile up is dropped. *)
Definition SendString (str : bytes) : M session unit :=
  s ← get;
  if negb (valid_ s) then mret tt
  else if negb (pendingSendSize_ s =? 0) then
    if 100 * 1024 * 1024 <? pendingSendSize_ s then _ ← UnsubscribeAll; modify fail_client
    else modify (set_pending_data (pendingSendData_ s ++ [str]))
  else SendStringNow str.

Definition OnWrite (bufferSize : Z) (err : bool) (sent : Z) : M session unit :=
  s ← get;
  pending ← lift (add_int (pendingSendSize_ s) (- bufferSize));
  total ← lift (add_int (sentBytes_ s) sent);
  _ ← modify (set_sizes total pending (maxPendingSendingSize_ s));
  failed ← CheckError err;
  if (failed : bool) then mret tt
  else
    s ← get;
    match pendingSendData_ s with
    | [] => mret tt
    | front :: rest =>
        _ ← SendStringNow front;
        modify (set_pending_data rest)
    end.

Definition SendAnswer (answer : bytes) : M session unit := SendString answer.

Definition EventNameToEventCode (eventName : bytes) : Z :=
  if bool_decide (eventName = lit "push_back") then TIO_COMMAND_PUSH_BACK
  else if bool_decide (eventName = lit "push_front") then TIO_COMMAND_PUSH_FRONT
  else if bool_decide (eventName ∈ [lit "pop_back"; lit "pop_front"; lit "delete"]) then TIO_COMMAND_DELETE
  else if bool_decide (eventName = lit "clear") then TIO_COMMAND_CLEAR
  else if bool_decide (eventName = lit "set") then TIO_COMMAND_SET
  else if bool_decide (eventName = lit "insert") then TIO_COMMAND_INSERT
  else if bool_decide (eventName = lit "snapshot_end") then TIO_EVENT_SNAPSHOT_END
  else 0.

Definition EventCodeToEventName (eventCode : ContainerEventCode) : bytes :=
  match eventCode with
  | EVENT_CODE_PUSH_BACK => lit "push_back"
  | EVENT_CODE_PUSH_FRONT => lit "push_front"
  | EVENT_CODE_SET => lit "set"
  | EVENT_CODE_DELETE => lit "delete"
  | EVENT_CODE_INSERT => lit "insert"
  | EVENT_CODE_CLEAR => lit "clear"
  | EVENT_CODE_SNAPSHOT_END => lit "snapshot_end"
  end.

Definition crlf : bytes := [x0d; x0a].

Section Text.
(** How a stream prints a [double]. *)
Variable print_double : bytes -> bytes.

Definition TioDataToString (data : TioData) : bytes :=
  if negb (operator_bool data) then [] else TioData.print print_double data.

(** [" key " << type << " " << length], when there is anything to print. *)
Definition text_header (word : string) (t : TioData) : bytes :=
  let str := TioDataToString t in
  if bool_decide (str = []) then []
  else lit " " ++ lit word ++ lit " " ++ GetDataTypeAsString t ++ lit " " ++ Decimal.print_int (Z.of_nat (length str)).

Definition text_line (t : TioData) : bytes :=
  let str := TioDataToString t in
  if bool_decide (str = []) then [] else str ++ crlf.

Definition text_record (start : bytes) (key value metadata : TioData) : bytes :=
  start ++ text_header "key" key ++ text_header "value" value ++ text_header "metadata" metadata ++ crlf ++
  text_line key ++ text_line value ++ text_line metadata.

Definition SendTextEvent (handle : Z) (eventCode : ContainerEventCode) (key value metadata : TioData) : M session unit :=
  SendString (text_record (lit "event " ++ Decimal.print_int handle ++ lit " " ++ EventCodeToEventName eventCode)
    key value metadata).

Definition SendTextResultSetStart (queryID : Z) : M session unit :=
  SendAnswer (lit "answer ok query " ++ Decimal.print_int queryID ++ crlf).

Definition SendTextResultSetEnd (queryID : Z) : M session unit :=
  SendAnswer (lit "query " ++ Decimal.print_int queryID ++ lit " end" ++ crlf).

Definition SendTextResultSetItem (queryID : Z) (key value metadata : TioData) : M session unit :=
  SendString (text_record (lit "query " ++ Decimal.print_int queryID ++ lit " item") key value metadata).

Fixpoint send_text_items (queryID : Z) (items : list item) : M session unit :=
  match items with
  | [] => mret tt
  | (key, value, metadata) :: items =>
      _ ← SendTextResultSetItem queryID key value metadata; send_text_items queryID items
  end.

Definition SendTextResultSet (resultSet : VectorResultSet) (queryID : Z) : M session unit :=
  _ ← SendTextResultSetStart queryID;
  _ ← send_text_items queryID (remaining resultSet);
  SendTextResultSetEnd queryID.

Fixpoint send_text_events (handle : Z) (eventCode : ContainerEventCode) (items : list item) : M session unit :=
  match items with
  | [] => mret tt
  | (key, value, metadata) :: items =>
      _ ← SendTextEvent handle eventCode key value metadata; send_text_events handle eventCode items
  end.

Definition SendTextSubscriptionSnapshot (resultSet : VectorResultSet) (handle : Z) (eventCode : ContainerEventCode)
  : M session unit :=
  _ ← send_text_events handle eventCode (remaining resultSet);
  SendTextEvent handle EVENT_CODE_SNAPSHOT_END None_ None_ None_.

(** ** What the publisher calls *)

Definition SendSubscriptionSnapshot (resultSet : VectorResultSet) (handle : Z) (eventCode : ContainerEventCode)
  : M session unit :=
  s ← get;
  if binaryProtocol_ s then SendBinarySubscriptionSnapshot resultSet handle eventCode
  else SendTextSubscriptionSnapshot resultSet handle eventCode.

Definition PublishEvent (handle : Z) (eventCode : ContainerEventCode) (k v m : TioData) : M session unit :=
  s ← get;
  if binaryProtocol_ s then SendBinaryEvent handle eventCode k v m else SendTextEvent handle eventCode k v m.

(** [name] and [type] are those of the container. *)
Definition PublishNewGroupContainer (groupName : bytes) (handle : Z) (name type : bytes) : M session unit :=
  s ← get;
  if binaryProtocol_ s then
    message ← lift (
      message ← Pr1CreateMessage;
      message ← Pr1MessageAddField_int message MESSAGE_FIELD_ID_COMMAND TIO_COMMAND_NEW_GROUP_CONTAINER;
      message ← Pr1MessageAddField_int message MESSAGE_FIELD_ID_HANDLE handle;
      message ← Pr1MessageAddField_string message MESSAGE_FIELD_ID_GROUP_NAME groupName;
      message ← Pr1MessageAddField_string message MESSAGE_FIELD_ID_CONTAINER_NAME name;
      Pr1MessageAddField_string message MESSAGE_FIELD_ID_CONTAINER_TYPE type);
    SendBinaryMessage message
  else
    SendAnswer (lit "group_container " ++ groupName ++ lit " " ++ name ++ lit " " ++ type ++ lit " " ++
      Decimal.print_int handle ++ crlf).

End Text.

End Session.
