(* ===== verification/SessionOutput.v ===== *)
(** * The output of a session

    [TioTcpSession.cpp], the queue of binary messages and the writes it starts:
    what has been given to the socket is a prefix of what was sent, in order,
    each message complete; the size the session thinks is pending is what is
    pending; and completed writes drain the queue, unless a message is larger
    than the send buffer. *)
From S2P Require Import Prelude StreamBuffer Pr1Message TioDataC Protocol ClientNotify TioDataS Containers SessionMessages Session.

Module SessionOutput.
Import Pr1 TioDataC ClientNotify Session.

(** ** Messages and sizes *)

Definition message_size (fs : list field) : Z := header_size + fields_size fs.

Definition total_size (l : list (list field)) : Z := foldr (fun fs n => message_size fs + n) 0 l.

(** Messages a buffer can take. *)
Definition message_ok (fs : list field) : Prop := Z.of_nat (length fs) < 2 ^ 16 /\ fits fs.

Lemma message_size_pos fs : 8 <= message_size fs.
Proof. unfold message_size, header_size. pose proof (fields_size_nonneg fs). lia. Qed.

Lemma total_size_app a b : total_size (a ++ b) = total_size a + total_size b.
Proof. induction a as [|x a IH]; simpl; [done|]. rewrite IH. lia. Qed.

Lemma total_size_nonneg a : 0 <= total_size a.
Proof. induction a as [|x a IH]; simpl; [done|]. pose proof (message_size_pos x). lia. Qed.

Lemma length_message fs q : Z.of_nat (length (enc_message fs q)) = message_size fs.
Proof. unfold enc_message, message_size, header_size, fields_size. len. Qed.

Lemma wire_app a b : wire (a ++ b) = wire a ++ wire b.
Proof. unfold wire. by rewrite fmap_app, join_app. Qed.

Lemma length_wire done seqs :
  length seqs = length done -> Z.of_nat (length (wire (zip done seqs))) = total_size done.
Proof.
  revert seqs. induction done as [|fs l IH]; intros [|q seqs] H; try done. simpl in H. injection H as H.
  cbn [zip zip_with]. change (wire ((fs, q) :: zip l seqs)) with (enc_message fs q ++ wire (zip l seqs)).
  rewrite length_app, Nat2Z.inj_add, length_message, IH by done. done.
Qed.

Lemma data_size_built m fs : built_as m fs -> message_ok fs -> pr1_message_get_data_size m = message_size fs.
Proof.
  intros [Hwf (hdr & Hd & Hh) _ _ _] [_ Hf]. unfold pr1_message_get_data_size. rewrite StreamBuffer.space_used_wf by done.
  pose proof (StreamBuffer.sb_data_length _ Hwf) as Hl. rewrite Hd, length_app, Hh in Hl.
  unfold fits, header_size in Hf. unfold message_size, header_size, fields_size in *. pose proof (fields_size_nonneg fs).
  rewrite i32_small; [lia|]. unfold is_int, INT_MIN, INT_MAX. lia.
Qed.

(** ** One buffer *)

(** [fill_buffer] takes a prefix of the messages, whole; if the first message
    fits an empty buffer the prefix is not empty. *)
Lemma fill_buffer_run pending : forall todo seq buffer,
  Forall2 built_as pending todo -> Forall message_ok todo -> Z.of_nat (length buffer) <= SEND_BUFFER_SIZE ->
  exists pending' seq' seqs t1 t2,
    fill_buffer pending seq buffer = Ok (pending', seq', buffer ++ wire (zip t1 seqs)) /\
    todo = t1 ++ t2 /\ length seqs = length t1 /\ Forall2 built_as pending' t2 /\
    Z.of_nat (length buffer) + total_size t1 <= SEND_BUFFER_SIZE /\
    match t2 with
    | [] => True
    | fs :: _ => SEND_BUFFER_SIZE < Z.of_nat (length buffer) + total_size t1 + message_size fs
    end.
Proof.
  induction pending as [|m pending IH]; intros todo seq buffer Hb Hok Hl.
  - inversion Hb; subst. exists [], seq, [], [], []. simpl. rewrite app_nil_r. repeat (split; [done || lia|]). done.
  - inversion Hb as [|? fs ? todo' Hm Hb']; subst. apply Forall_cons in Hok as [ [Hn Hf] Hok].
    cbn [fill_buffer]. set (q := u16 (seq + 1)).
    destruct (pr1_message_get_buffer_ok m fs q Hm Hn) as (m' & E & Hm').
    { unfold fits, header_size in *. lia. }
    rewrite E. mrun. rewrite length_message. pose proof (message_size_pos fs).
    assert (message_size fs < 2 ^ 31) by (unfold fits, message_size, header_size in *; lia).
    unfold SEND_BUFFER_SIZE in *. rewrite u32_small by lia.
    destruct (10 * 1024 * 1024 <? Z.of_nat (length buffer) + message_size fs) eqn:Eb; bool_to_prop.
    + exists (m' :: pending), q, [], [], (fs :: todo'). simpl. rewrite app_nil_r.
      repeat (split; [done || lia || by constructor|]). lia.
    + destruct (IH todo' q (buffer ++ enc_message fs q)) as (p & q' & seqs & t1 & t2 & E2 & Ht & Hs & Hp & Hle & Hprog);
        [done|done|rewrite length_app, Nat2Z.inj_add, length_message; lia|].
      rewrite length_app, Nat2Z.inj_add, length_message in Hle, Hprog.
      exists p, q', (q :: seqs), (fs :: t1), t2. split.
      { rewrite E2. by rewrite <- app_assoc. }
      split; [by rewrite Ht|]. split; [simpl; by rewrite Hs|]. split; [done|]. simpl. split; [lia|].
      destruct t2; [done|]. lia.
Qed.

(** ** The queue *)

(** What has been sent to the session: [done] is on the wire, with the sequence
    numbers [seqs], and [todo] waits. *)
Record sending (w0 : bytes) (done todo : list (list field)) (seqs : list Z) (s : session) : Prop := {
  snd_valid : valid_ s = true;
  snd_wire : wire_ s = w0 ++ wire (zip done seqs);
  snd_seqs : length seqs = length done;
  snd_queue : Forall2 built_as (pendingBinarySendData_ s) todo;
  snd_ok : Forall message_ok (done ++ todo);
  snd_flight : exists b, in_flight_ s = (if binarySendInProgress_ s then [b] else []) /\
    pendingSendSize_ s = total_size todo + (if binarySendInProgress_ s then Z.of_nat (length b) else 0) /\
    sentBytes_ s + (if binarySendInProgress_ s then Z.of_nat (length b) else 0) = total_size done;
  snd_idle : binarySendInProgress_ s = false -> todo = [];
  snd_sent : 0 <= sentBytes_ s
}.

(** Starting a write when none is in progress. *)
Lemma send_pending_run w0 done todo seqs s :
  valid_ s = true -> wire_ s = w0 ++ wire (zip done seqs) -> length seqs = length done ->
  Forall2 built_as (pendingBinarySendData_ s) todo -> Forall message_ok (done ++ todo) ->
  binarySendInProgress_ s = false -> in_flight_ s = [] -> pendingSendSize_ s = total_size todo ->
  sentBytes_ s = total_size done ->
  exists t1 t2 qs s', SendPendingBinaryData s = (Ok tt, s') /\ todo = t1 ++ t2 /\
    sending w0 (done ++ t1) t2 (seqs ++ qs) s' /\ total_size t1 <= SEND_BUFFER_SIZE /\ sentBytes_ s' = sentBytes_ s /\ pendingSendSize_ s' = pendingSendSize_ s /\
    match todo with fs :: _ => message_size fs <= SEND_BUFFER_SIZE -> t1 <> [] | [] => binarySendInProgress_ s' = false end /\
    (binarySendInProgress_ s' = true -> exists b, in_flight_ s' = [b] /\ Z.of_nat (length b) = total_size t1).
Proof.
  intros Hv Hw Hs Hq Hok Hp Hf Hsz Hsent. unfold SendPendingBinaryData. rewrite bind_get, Hp, Hv. cbn [negb].
  destruct (pendingBinarySendData_ s) as [|m pending] eqn:Epend.
  { inversion Hq; subst. exists [], [], [], s. rewrite !app_nil_r in *. split; [done|]. split; [done|]. split.
    { split; try done; [by rewrite Epend|by rewrite app_nil_r| |rewrite Hsent; apply total_size_nonneg].
      exists []. rewrite Hp. split; [done|]. simpl in *. lia. }
    rewrite Hp. split; [done|]. done. }
  rewrite bool_decide_false by done. rewrite <- Epend in *.
  assert (Hok' : Forall message_ok todo) by by apply Forall_app in Hok as [_ ?].
  destruct (fill_buffer_run (pendingBinarySendData_ s) todo (debugSeqNum_ s) []) as
    (pending' & seq' & qs & t1 & t2 & E & Ht & Hqs & Hb & Hle & Hprog); [done|done|unfold SEND_BUFFER_SIZE; simpl; lia|].
  rewrite app_nil_l in E. rewrite (bind_lift_ok _ _ _ _ E), bind_modify.
  exists t1, t2, qs. eexists. split; [reflexivity|]. split; [done|].
  assert (Hlen : Z.of_nat (length (wire (zip t1 qs))) = total_size t1) by by apply length_wire.
  split.
  { split; cbn [valid_ wire_ pendingBinarySendData_ in_flight_ binarySendInProgress_ pendingSendSize_ sentBytes_
      set_socket set_pending_binary]; try done.
    - by rewrite Hw, zip_with_app, wire_app, app_assoc.
    - rewrite !length_app. lia.
    - rewrite <- app_assoc, <- Ht. done.
    - exists (wire (zip t1 qs)). rewrite Hf. split; [done|].
      rewrite Hlen, Hsz, Ht, Hsent, !total_size_app. lia.
    - rewrite Hsent. apply total_size_nonneg. }
  split; [simpl in Hle; lia|]. split; [done|]. split; [done|]. split.
  - destruct todo as [|fs todo]; [apply Forall2_nil_inv_r in Hq; congruence|]. intros Hfs Ht1. subst t1. simpl in Ht. subst t2.
    simpl in Hprog. lia.
  - intros _. exists (wire (zip t1 qs)). cbn [in_flight_ set_socket set_pending_binary]. by rewrite Hf.
Qed.

Lemma bind_then {S} (m : M S unit) s s' : (_ ← m; mret tt) s = (Ok tt, s') -> m s = (Ok tt, s').
Proof. unfold mbind, M_bind. destruct (m s) as [ [ []|e] s1]; [|done]. unfold mret, M_ret. by intros [= <-]. Qed.

Lemma add_int_ok a b : is_int (a + b) -> add_int a b = Ok (a + b).
Proof. unfold is_int, add_int. intros H. by ztest. Qed.

Lemma increase_run n s :
  is_int (pendingSendSize_ s + n) ->
  exists mx, IncreasePendingSendSize n s = (Ok tt, set_sizes (sentBytes_ s) (pendingSendSize_ s + n) mx s).
Proof.
  intros H. unfold IncreasePendingSendSize. rewrite bind_get, (bind_lift_ok _ _ _ _ (add_int_ok _ _ H)).
  eexists. reflexivity.
Qed.

(** Putting messages into the queue. *)
Definition queued (ms : list PR1_MESSAGE) (n mx : Z) (s : session) : session :=
  set_sizes (sentBytes_ s) (pendingSendSize_ s + n) mx
    (set_pending_binary (pendingBinarySendData_ s ++ ms) (binarySendInProgress_ s) (debugSeqNum_ s) s).

Lemma push_messages_run ms : forall fss s,
  Forall2 built_as ms fss -> Forall message_ok fss -> 0 <= pendingSendSize_ s ->
  pendingSendSize_ s + total_size fss < 2 ^ 31 ->
  exists mx, push_messages ms s = (Ok tt, queued ms (total_size fss) mx s).
Proof.
  induction ms as [|m ms IH]; intros fss s Hb Hok H0 Hmax.
  - inversion Hb; subst. exists (maxPendingSendingSize_ s). unfold queued. simpl. rewrite app_nil_r, Z.add_0_r. by destruct s.
  - inversion Hb as [|? fs ? fss' Hm Hb']; subst. apply Forall_cons in Hok as [Hfs Hok]. cbn [push_messages].
    rewrite bind_modify. simpl in Hmax. pose proof (message_size_pos fs). pose proof (total_size_nonneg fss').
    rewrite (data_size_built m fs Hm Hfs).
    set (s1 := set_pending_binary (pendingBinarySendData_ s ++ [m]) (binarySendInProgress_ s) (debugSeqNum_ s) s).
    destruct (increase_run (message_size fs) s1) as [mx1 E1].
    { unfold is_int, INT_MIN, INT_MAX. simpl. lia. }
    rewrite (bind_ok _ _ _ _ _ E1).
    destruct (IH fss' (set_sizes (sentBytes_ s1) (pendingSendSize_ s1 + message_size fs) mx1 s1) Hb' Hok) as [mx E];
      [simpl; lia|simpl; lia|].
    exists mx. rewrite E. unfold queued, s1. simpl. rewrite <- app_assoc, Z.add_assoc. done.
Qed.

(** A state with more messages in its queue, before and after a write starts. *)
Lemma sending_more w0 done todo seqs s ms fss mx :
  sending w0 done todo seqs s -> Forall2 built_as ms fss -> Forall message_ok fss ->
  exists t1 t2 qs s', SendPendingBinaryData (queued ms (total_size fss) mx s) = (Ok tt, s') /\ todo ++ fss = t1 ++ t2 /\
    sending w0 (done ++ t1) t2 (seqs ++ qs) s' /\ total_size t1 <= SEND_BUFFER_SIZE.
Proof.
  intros [Hv Hw Hs Hq Hok (b & Hf & Hsz & Hsent) Hidle Hpos] Hm Hfs.
  assert (Hq' : Forall2 built_as (pendingBinarySendData_ s ++ ms) (todo ++ fss)) by by apply Forall2_app.
  assert (Hok' : Forall message_ok (done ++ todo ++ fss)) by (rewrite app_assoc; by apply Forall_app).
  destruct (binarySendInProgress_ s) eqn:Ep.
  - exists [], (todo ++ fss), []. eexists. split; [unfold SendPendingBinaryData; rewrite bind_get; simpl; rewrite Ep; reflexivity|].
    split; [done|]. rewrite !app_nil_r. split; [|done]. split; simpl; try done; try rewrite Ep; try done.
    exists b. split; [done|]. rewrite total_size_app, Hsz. split; [lia|done].
  - destruct (send_pending_run w0 done (todo ++ fss) seqs (queued ms (total_size fss) mx s)) as (t1 & t2 & qs & s' & E & Ht & Hsend & Hle & _);
      try done.
    + simpl. rewrite Hsz, total_size_app. lia.
    + simpl. lia.
    + by exists t1, t2, qs, s'.
Qed.

Lemma sending_size w0 done todo seqs s : sending w0 done todo seqs s ->
  0 <= pendingSendSize_ s /\ pendingSendSize_ s + sentBytes_ s = total_size done + total_size todo.
Proof.
  intros [_ _ _ _ _ (b & _ & Hsz & Hsent) _ _]. pose proof (total_size_nonneg todo).
  destruct (binarySendInProgress_ s); lia.
Qed.

(** Sending one message. *)
Lemma send_run w0 done todo seqs s m fs :
  sending w0 done todo seqs s -> built_as m fs -> message_ok fs ->
  total_size done + total_size todo + message_size fs < 2 ^ 31 ->
  exists t1 t2 qs s', SendBinaryMessage m s = (Ok tt, s') /\ todo ++ [fs] = t1 ++ t2 /\
    sending w0 (done ++ t1) t2 (seqs ++ qs) s' /\ total_size t1 <= SEND_BUFFER_SIZE.
Proof.
  intros Hsend Hm Hfs Hmax. pose proof (snd_sent _ _ _ _ _ Hsend). destruct (sending_size _ _ _ _ _ Hsend) as [Hp Hps].
  assert (Hms : Forall2 built_as [m] [fs]) by by apply Forall2_cons.
  assert (Hoks : Forall message_ok [fs]) by by apply Forall_singleton.
  destruct (push_messages_run [m] [fs] s Hms Hoks Hp) as [mx E]; [simpl; lia|].
  destruct (sending_more w0 done todo seqs s [m] [fs] mx Hsend Hms Hoks) as (t1 & t2 & qs & s' & E2 & Ht & Hs').
  exists t1, t2, qs, s'. split; [|done]. unfold SendBinaryMessage. rewrite bind_get, (snd_valid _ _ _ _ _ Hsend). cbn [negb].
  rewrite <- E2. cbn [push_messages] in E.
  rewrite bind_modify in E |- *. apply bind_then in E. by rewrite (bind_ok _ _ _ _ _ E).
Qed.

(** Sending several, as a snapshot does. *)
Lemma send_messages_run w0 done todo seqs s ms fss :
  sending w0 done todo seqs s -> Forall2 built_as ms fss -> Forall message_ok fss ->
  total_size done + total_size todo + total_size fss < 2 ^ 31 ->
  exists t1 t2 qs s', SendBinaryMessages ms s = (Ok tt, s') /\ todo ++ fss = t1 ++ t2 /\
    sending w0 (done ++ t1) t2 (seqs ++ qs) s' /\ total_size t1 <= SEND_BUFFER_SIZE.
Proof.
  intros Hsend Hm Hfs Hmax. pose proof (snd_sent _ _ _ _ _ Hsend). destruct (sending_size _ _ _ _ _ Hsend) as [Hp Hps].
  destruct (push_messages_run ms fss s) as [mx E]; [done..|lia|].
  destruct (sending_more w0 done todo seqs s ms fss mx Hsend Hm Hfs) as (t1 & t2 & qs & s' & E2 & Ht & Hs').
  exists t1, t2, qs, s'. split; [|done]. unfold SendBinaryMessages. rewrite bind_get, (snd_valid _ _ _ _ _ Hsend). cbn [negb].
  by rewrite (bind_ok _ _ _ _ _ E).
Qed.

(** ** Runs *)

(** What happens to a binary session whose client keeps reading: messages are
    sent, and writes complete with all their bytes. *)
Inductive output_event := Send (m : PR1_MESSAGE) | Written.

Definition output (e : output_event) : M session unit :=
  match e with
  | Send m => SendBinaryMessage m
  | Written =>
      s ← get;
      match in_flight_ s with
      | [] => mret tt
      | b :: rest => _ ← modify (set_socket rest (wire_ s)); OnBinaryMessageSent false (Z.of_nat (length b))
      end
  end.

Fixpoint outputs (es : list output_event) : M session unit :=
  match es with [] => mret tt | e :: es => _ ← output e; outputs es end.

Inductive sends : list output_event -> list (list field) -> Prop :=
| sends_nil : sends [] []
| sends_send m fs es l : built_as m fs -> message_ok fs -> sends es l -> sends (Send m :: es) (fs :: l)
| sends_written es l : sends es l -> sends (Written :: es) l.

(** A session that has just gone binary. *)
Definition binary_session (id : Z) : session := set_binary true (new_session id).

Lemma written_run w0 done todo seqs s :
  sending w0 done todo seqs s -> total_size done + total_size todo < 2 ^ 31 ->
  exists t1 t2 qs s', output Written s = (Ok tt, s') /\ todo = t1 ++ t2 /\
    sending w0 (done ++ t1) t2 (seqs ++ qs) s' /\ total_size t1 <= SEND_BUFFER_SIZE /\
    match todo with
    | [] => binarySendInProgress_ s' = false
    | fs :: _ => message_size fs <= SEND_BUFFER_SIZE -> t1 <> []
    end /\
    (binarySendInProgress_ s = true -> binarySendInProgress_ s' = true ->
     exists b, in_flight_ s' = [b] /\ Z.of_nat (length b) = total_size t1).
Proof.
  intros Hsend Hmax. destruct (sending_size _ _ _ _ _ Hsend) as [Hp Hps].
  destruct Hsend as [Hv Hw Hs Hq Hok (b & Hf & Hsz & Hsent) Hidle Hpos]. cbn [output]. rewrite bind_get, Hf.
  pose proof (total_size_nonneg todo). pose proof (total_size_nonneg done).
  destruct (binarySendInProgress_ s) eqn:Ep.
  - rewrite bind_modify. unfold OnBinaryMessageSent, CheckError. erewrite (bind_ok _ _ _ false); [|reflexivity].
    set (n := Z.of_nat (length b)) in *. unfold DecreasePendingSendSize.
    erewrite bind_ok.
    2: { rewrite bind_get. cbn [pendingSendSize_ set_socket].
      rewrite (bind_lift_ok _ _ _ (pendingSendSize_ s + - n)) by (apply add_int_ok; unfold is_int, INT_MIN, INT_MAX; lia).
      rewrite bind_modify. unfold assert_. ztest. reflexivity. }
    rewrite bind_get. cbn [sentBytes_ set_sizes set_socket pendingSendSize_ maxPendingSendingSize_].
    rewrite (bind_lift_ok _ _ _ (sentBytes_ s + n)) by (apply add_int_ok; unfold is_int, INT_MIN, INT_MAX; lia).
    rewrite bind_modify. unfold assert_. ztest. rewrite (bind_lift_ok _ _ _ tt eq_refl), bind_modify.
    match goal with |- context [SendPendingBinaryData ?x] => set (s1 := x) end.
    destruct (send_pending_run w0 done todo seqs s1) as (t1 & t2 & qs & s' & E & Ht & Hsend' & Hle & Es & _ & Hprog & Hlast);
      try done; try (unfold s1; simpl; lia).
    exists t1, t2, qs, s'. split; [done|]. split; [done|]. split; [done|].
    split; [done|]. split; [done|]. intros _. exact Hlast.
  - specialize (Hidle eq_refl). subst todo. exists [], [], [], s. rewrite !app_nil_r. split; [done|]. split; [done|]. split.
    { split; try done. exists b. by rewrite Ep. }
    split; [done|]. split; [done|]. done.
Qed.

(** The invariant along a run. *)
Lemma outputs_run w0 es : forall l done todo seqs s,
  sends es l -> sending w0 done todo seqs s -> total_size done + total_size todo + total_size l < 2 ^ 31 ->
  exists t1 t2 qs s', outputs es s = (Ok tt, s') /\ todo ++ l = t1 ++ t2 /\ sending w0 (done ++ t1) t2 (seqs ++ qs) s'.
Proof.
  induction es as [|e es IH]; intros l done todo seqs s Hl Hsend Hmax.
  - inversion Hl; subst. exists [], todo, [], s. by rewrite !app_nil_r.
  - assert (Hstep : exists t1 t2 qs s1 l', output e s = (Ok tt, s1) /\ sends es l' /\ todo ++ l = t1 ++ t2 ++ l' /\
      sending w0 (done ++ t1) t2 (seqs ++ qs) s1).
    { inversion Hl as [|m fs es' l' Hm Hfs Hl'|es' l' Hl']; subst.
      - simpl in Hmax. destruct (send_run w0 done todo seqs s m fs) as (t1 & t2 & qs & s1 & E & Ht & Hs1 & _); auto.
        { pose proof (total_size_nonneg l'). lia. }
        exists t1, t2, qs, s1, l'. split; [done|]. split; [done|]. split; [|done].
        by rewrite (app_assoc t1), <- Ht, <- app_assoc.
      - destruct (written_run w0 done todo seqs s) as (t1 & t2 & qs & s1 & E & Ht & Hs1 & _); auto.
        { pose proof (total_size_nonneg l). lia. }
        exists t1, t2, qs, s1, l. split; [done|]. split; [done|]. split; [by rewrite (app_assoc t1), <- Ht|]. done. }
    destruct Hstep as (t1 & t2 & qs & s1 & l' & E & Hl' & Ht & Hs1).
    assert (Hsum : total_size todo + total_size l = total_size t1 + total_size t2 + total_size l')
      by (rewrite <- total_size_app, Ht, !total_size_app; lia).
    destruct (IH l' (done ++ t1) t2 (seqs ++ qs) s1 Hl' Hs1) as (u1 & u2 & qs' & s' & E' & Hu & Hs');
      [rewrite total_size_app; lia|].
    exists (t1 ++ u1), u2, (qs ++ qs'), s'. cbn [outputs]. rewrite (bind_ok _ _ _ _ _ E), E'.
    rewrite Ht, Hu, !app_assoc in *. done.
Qed.

Lemma binary_session_sending id : sending [] [] [] [] (binary_session id).
Proof. split; try done. by exists []. Qed.

(** Completed writes shorten the queue when every message fits the buffer. *)
Lemma writes_drain w0 n : forall done todo seqs s,
  sending w0 done todo seqs s -> total_size done + total_size todo < 2 ^ 31 ->
  Forall (fun fs => message_size fs <= SEND_BUFFER_SIZE) todo -> (length todo < n)%nat ->
  exists qs s', outputs (replicate n Written) s = (Ok tt, s') /\ sending w0 (done ++ todo) [] (seqs ++ qs) s' /\
    binarySendInProgress_ s' = false.
Proof.
  induction n as [|n IH]; intros done todo seqs s Hsend Hmax Hfit Hn; [lia|].
  destruct (written_run w0 done todo seqs s Hsend Hmax) as (t1 & t2 & qs & s1 & E & Ht & Hs1 & _ & Hprog & _).
  cbn [replicate outputs]. rewrite (bind_ok _ _ _ _ _ E).
  destruct todo as [|fs todo].
  - destruct t1; [|done]. simpl in Ht. subst t2. destruct n as [|n].
    + exists qs, s1. rewrite app_nil_r in *. done.
    + destruct (IH done [] (seqs ++ qs) s1) as (qs' & s' & E' & Hs' & Hf).
      * by rewrite app_nil_r in Hs1.
      * done.
      * done.
      * simpl. lia.
      * exists (qs ++ qs'), s'. by rewrite app_assoc.
  - assert (Hne : t1 <> []) by (apply Hprog; by apply Forall_cons in Hfit as [? _]).
    assert (Hlt : (length t2 < length (fs :: todo))%nat) by (rewrite Ht, length_app; destruct t1; [done|simpl; lia]).
    destruct (IH (done ++ t1) t2 (seqs ++ qs) s1 Hs1) as (qs' & s' & E' & Hs' & Hf).
    + rewrite Ht, !total_size_app in *. lia.
    + rewrite Ht in Hfit. by apply Forall_app in Hfit as [_ ?].
    + lia.
    + exists (qs ++ qs'), s'. rewrite E'. split; [done|]. rewrite Ht, !app_assoc in *. done.
Qed.

(** A message that is larger than the buffer stays at the head of the queue. *)
Lemma outputs_blocked w0 es : forall l done fs todo seqs s,
  sends es l -> sending w0 done (fs :: todo) seqs s -> SEND_BUFFER_SIZE < message_size fs ->
  total_size done + total_size (fs :: todo) + total_size l < 2 ^ 31 ->
  exists qs s', outputs es s = (Ok tt, s') /\ sending w0 done (fs :: todo ++ l) (seqs ++ qs) s'.
Proof.
  assert (Hnone : forall fs t1 t2 l, SEND_BUFFER_SIZE < message_size fs -> fs :: l = t1 ++ t2 ->
    total_size t1 <= SEND_BUFFER_SIZE -> t1 = [] /\ t2 = fs :: l).
  { intros fs [|x t1] t2 l Hbig E Hle; [done|]. injection E as <- E. simpl in Hle. pose proof (total_size_nonneg t1). lia. }
  induction es as [|e es IH]; intros l done fs todo seqs s Hl Hsend Hbig Hmax.
  - inversion Hl; subst. exists [], s. by rewrite !app_nil_r.
  - simpl in Hmax. inversion Hl as [|m gs es' l' Hm Hgs Hl'|es' l' Hl']; subst; cbn [outputs output]; simpl in Hmax.
    + pose proof (total_size_nonneg l').
      destruct (send_run w0 done (fs :: todo) seqs s m gs) as (t1 & t2 & qs & s1 & E & Ht & Hs1 & Hle); auto; [simpl; lia|].
      destruct (Hnone fs t1 t2 (todo ++ [gs])) as [-> ->]; [done..|]. rewrite app_nil_r in Hs1.
      destruct (IH l' done fs (todo ++ [gs]) (seqs ++ qs) s1 Hl' Hs1 Hbig) as (qs' & s' & E' & Hs').
      { simpl. rewrite total_size_app. simpl. lia. }
      exists (qs ++ qs'), s'. rewrite (bind_ok _ _ _ _ _ E), E'. rewrite <- app_assoc in Hs'. by rewrite app_assoc.
    + pose proof (total_size_nonneg l).
      destruct (written_run w0 done (fs :: todo) seqs s) as (t1 & t2 & qs & s1 & E & Ht & Hs1 & Hle & _); auto; [simpl; lia|].
      destruct (Hnone fs t1 t2 todo) as [-> ->]; [done..|]. rewrite app_nil_r in Hs1.
      destruct (IH l done fs todo (seqs ++ qs) s1 Hl' Hs1 Hbig) as (qs' & s' & E' & Hs'); [simpl; lia|].
      exists (qs ++ qs'), s'. unfold output in E.
      rewrite (bind_ok _ _ _ _ _ E), E'. by rewrite app_assoc.
Qed.

(** ** Properties *)

(** C26. Messages go out complete and in order.  Whatever messages of less than 2 GB
    in all are sent to a session, and whenever its writes complete, no call
    faults; the bytes on the wire are the encodings of a prefix of the messages;
    the rest is queued, and only while a write is in progress; and the pending
    size is the size of the rest and of that write. *)
Theorem session_output_fifo es l id :
  sends es l -> total_size l < 2 ^ 31 ->
  exists done todo seqs s' flight, outputs es (binary_session id) = (Ok tt, s') /\ l = done ++ todo /\
    wire_ s' = wire (zip done seqs) /\ length seqs = length done /\
    Forall2 built_as (pendingBinarySendData_ s') todo /\
    in_flight_ s' = flight /\ pendingSendSize_ s' = total_size todo + Z.of_nat (length (mjoin flight)) /\
    (flight = [] -> todo = []).
Proof.
  intros Hl Hmax.
  destruct (outputs_run [] es l [] [] [] (binary_session id) Hl (binary_session_sending id)) as (t1 & t2 & qs & s' & E & Ht & Hs);
    [done|]. simpl in Ht, Hs. destruct Hs as [_ Hw Hq Hb _ (b & Hf & Hsz & _) Hi _].
  exists t1, t2, qs, s', (in_flight_ s'). split; [done|]. split; [done|]. split; [done|]. split; [done|]. split; [done|].
  split; [done|]. rewrite Hf. destruct (binarySendInProgress_ s'); simpl; [rewrite app_nil_r|].
  - split; [lia|done].
  - split; [lia|]. intros _. by apply Hi.
Qed.

(** C27. Everything is sent.  If no message is larger than the send buffer of 10 MB,
    then after as many completed writes as there are messages, and one more, all
    messages are on the wire, in order, and nothing is pending. *)
Theorem session_output_drains es l id :
  sends es l -> total_size l < 2 ^ 31 -> Forall (fun fs => message_size fs <= SEND_BUFFER_SIZE) l ->
  exists seqs s1 s', outputs es (binary_session id) = (Ok tt, s1) /\
    outputs (replicate (S (length l)) Written) s1 = (Ok tt, s') /\
    wire_ s' = wire (zip l seqs) /\ length seqs = length l /\ pendingSendSize_ s' = 0 /\
    pendingBinarySendData_ s' = [] /\ in_flight_ s' = [].
Proof.
  intros Hl Hmax Hfit.
  destruct (outputs_run [] es l [] [] [] (binary_session id) Hl (binary_session_sending id)) as (t1 & t2 & qs & s1 & E & Ht & Hs);
    [done|]. simpl in Ht, Hs. subst l.
  destruct (writes_drain [] (S (length (t1 ++ t2))) t1 t2 qs s1 Hs) as (qs' & s' & E' & Hs' & Hp).
  - by rewrite <- total_size_app.
  - by apply Forall_app in Hfit as [_ ?].
  - rewrite length_app. lia.
  - destruct Hs' as [_ Hw Hq Hb _ (b & Hf & Hsz & _) Hi _]. rewrite Hp in *. exists (qs ++ qs'), s1, s'.
    repeat (split; [done|]). split; [|done]. by apply Forall2_nil_inv_r in Hb.
Qed.

(** A message larger than the send buffer blocks its session for good: it is
    never sent, and nothing after it is, however many writes complete. *)
Theorem oversized_message_blocks m fs es l id :
  built_as m fs -> message_ok fs -> SEND_BUFFER_SIZE < message_size fs -> sends es l ->
  message_size fs + total_size l < 2 ^ 31 ->
  exists s', outputs (Send m :: es) (binary_session id) = (Ok tt, s') /\ wire_ s' = [] /\
    length (pendingBinarySendData_ s') = S (length l).
Proof.
  intros Hm Hfs Hbig Hl Hmax. pose proof (total_size_nonneg l). cbn [outputs output].
  destruct (send_run [] [] [] [] (binary_session id) m fs (binary_session_sending id) Hm Hfs)
    as (t1 & t2 & qs & s1 & E & Ht & Hs1 & Hle); [simpl; lia|].
  assert (t1 = [] /\ t2 = [fs]) as [-> ->].
  { destruct t1 as [|x t1]; [done|]. injection Ht as <- Ht. simpl in Hle. pose proof (total_size_nonneg t1). lia. }
  destruct (outputs_blocked [] es l [] fs [] ([] ++ qs) s1 Hl Hs1 Hbig) as (qs' & s' & E' & Hs'); [simpl; lia|].
  exists s'. rewrite (bind_ok _ _ _ _ _ E). split; [done|]. destruct Hs' as [_ Hw Hq Hb _ _ _ _].
  split; [|by apply Forall2_length in Hb]. rewrite Hw. by destruct qs, qs'.
Qed.

(** ** Witnesses *)

Definition ex_fields : list field := [int_field MESSAGE_FIELD_ID_COMMAND 1].
Definition ex_message : PR1_MESSAGE :=
  match SessionMessages.Pr1CreateAnswerMessage with Ok m => m | Throw _ => {| stream_buffer := StreamBuffer.stream_buffer_new; field_array := None; field_count := 0 |} end.

Lemma ex_message_built : built_as ex_message ex_fields.
Proof. unfold ex_message. destruct SessionMessages.answer_built as (m & E & Hb). by rewrite E. Qed.

Lemma ex_message_ok : message_ok ex_fields.
Proof. split; [done|]. by apply SessionMessages.fits_small. Qed.

Lemma ex_sends : sends [Send ex_message; Send ex_message; Written] [ex_fields; ex_fields].
Proof.
  do 2 (apply sends_send; [apply ex_message_built|apply ex_message_ok|]). apply sends_written, sends_nil.
Qed.

Lemma session_output_fifo_witness :
  exists done todo seqs s', outputs [Send ex_message; Send ex_message; Written] (binary_session 1) = (Ok tt, s') /\
    [ex_fields; ex_fields] = done ++ todo /\ wire_ s' = wire (zip done seqs).
Proof.
  destruct (session_output_fifo [Send ex_message; Send ex_message; Written] [ex_fields; ex_fields] 1)
    as (done & todo & seqs & s' & flight & E & Hl & Hw & _).
  - exact ex_sends.
  - reflexivity.
  - exists done, todo, seqs, s'. split; [exact E|]. split; [exact Hl|exact Hw].
Defined.

Lemma session_output_drains_witness :
  exists seqs s1 s', outputs [Send ex_message; Send ex_message; Written] (binary_session 1) = (Ok tt, s1) /\
    outputs (replicate 3 Written) s1 = (Ok tt, s') /\ wire_ s' = wire (zip [ex_fields; ex_fields] seqs).
Proof.
  destruct (session_output_drains [Send ex_message; Send ex_message; Written] [ex_fields; ex_fields] 1)
    as (seqs & s1 & s' & E1 & E2 & Hw & _).
  - exact ex_sends.
  - reflexivity.
  - repeat constructor; vm_compute; discriminate.
  - exists seqs, s1, s'. split; [exact E1|]. split; [exact E2|exact Hw].
Defined.

(** An answer with a value of [n] bytes. *)
Definition ex_large (n : nat) : list field :=
  SessionMessages.answer_fields None (Some (TioData.String (replicate n x61))) None.

Lemma ex_large_size n : fields_size (ex_large n) = 20 + Z.of_nat n.
Proof.
  change (ex_large n) with
    (([] ++ [int_field MESSAGE_FIELD_ID_COMMAND Protocol.TIO_COMMAND_ANSWER]) ++
     [value_field MESSAGE_FIELD_ID_VALUE (VString (replicate n x61))]).
  rewrite !fields_size_snoc. unfold f_size. cbn [value_field int_field f_data]. rewrite length_replicate, length_le_encode.
  change (fields_size []) with 0. lia.
Qed.

Lemma ex_large_ok n : Z.of_nat n < 2 ^ 29 -> message_ok (ex_large n).
Proof. intros H. split; [done|]. apply SessionMessages.fits_small. rewrite ex_large_size. lia. Qed.

Lemma ex_large_built n : Z.of_nat n < 2 ^ 29 -> exists m, built_as m (ex_large n).
Proof.
  intros H. destruct (SessionMessages.answer_data_built None (Some (TioData.String (replicate n x61))) None) as (m & _ & Hm).
  - done.
  - intros t [= <-]. unfold SessionMessages.value_fits. cbn [SessionMessages.client_value value_ok].
    rewrite length_replicate. lia.
  - done.
  - by apply ex_large_ok.
  - by exists m.
Qed.

Lemma oversized_message_blocks_witness :
  exists m s', outputs [Send m; Written; Send ex_message; Written] (binary_session 1) = (Ok tt, s') /\ wire_ s' = [].
Proof.
  assert (Hn : exists n, Z.of_nat n = SEND_BUFFER_SIZE) by (exists (Z.to_nat SEND_BUFFER_SIZE); apply Z2Nat.id; discriminate).
  destruct Hn as [n Hn]. destruct (ex_large_built n) as [m Hm]; [rewrite Hn; reflexivity|].
  destruct (oversized_message_blocks m (ex_large n) [Written; Send ex_message; Written] [ex_fields] 1) as (s' & E & Hw & _).
  - exact Hm.
  - apply ex_large_ok. rewrite Hn. reflexivity.
  - unfold message_size. rewrite ex_large_size, Hn. reflexivity.
  - apply sends_written, sends_send; [apply ex_message_built|apply ex_message_ok|]. apply sends_written, sends_nil.
  - unfold message_size at 1. rewrite ex_large_size, Hn. reflexivity.
  - exists m, s'. split; [exact E|exact Hw].
Defined.

End SessionOutput.
