(* ===== verification/Sound.v ===== *)
(** * Calls that follow no bad pointer

    The building blocks of the server, messages, storages and sessions, never
    end in a use after free or a null dereference of their own, whatever bytes
    a message consists of.  [Server]'s invariant rests on this. *)
From S2P Require Import Prelude Decimal StdMap StreamBuffer Pr1Message TioDataC Protocol TioDataS Containers ListStorage MapStorage VectorStorage MemoryStorage SessionMessages Session.

Module Sound.
Import StreamBuffer Pr1 TioData Containers SessionMessages Session.

(** ** Results *)

(** A result that is no use of a pointer to nothing. *)
Definition dangling {A} (r : res A) : bool :=
  match r with Throw (Fault UseAfterFree) | Throw (Fault NullDeref) => true | _ => false end.

Definition sound {A} (r : res A) : Prop := dangling r = false.

Definition clean {S A} (m : M S A) : Prop := forall s, sound (m s).1.

Lemma sound_bind {A B} (r : res A) (f : A -> res B) :
  sound r -> (forall a, r = Ok a -> sound (f a)) -> sound (r ≫= f).
Proof. intros Hr Hf. destruct r as [a|e]; simpl; [by apply Hf|done]. Qed.

Lemma sound_throw {A B} e : sound (Throw (A := A) e) -> sound (Throw (A := B) e).
Proof. done. Qed.

Lemma clean_bind {S A B} (m : M S A) (f : A -> M S B) :
  clean m -> (forall a, clean (f a)) -> clean (m ≫= f).
Proof.
  intros Hm Hf s. specialize (Hm s). unfold mbind, M_bind. destruct (m s) as [ [a|e] s']; simpl in *; [apply Hf|done].
Qed.

Lemma clean_lift {S A} (r : res A) : sound r -> clean (S := S) (lift r).
Proof. by intros H s. Qed.

Lemma clean_get {S A} (f : S -> M S A) : (forall s, sound (f s s).1) -> clean (get ≫= f).
Proof. intros H s. rewrite bind_get. apply H. Qed.

Lemma clean_with_lock {D A} (m : M (storage D) A) : clean m -> clean (with_lock m).
Proof.
  intros H s. unfold with_lock. destruct (locked s); [done|]. specialize (H (set_locked true s)).
  by destruct (m (set_locked true s)).
Qed.

Create HintDb sound discriminated.
#[export] Hint Constants Opaque : sound.

(** Goes through a call, bind by bind. *)
Ltac solve_sound :=
  repeat (cbn zeta; unfold require, assert_; match goal with
  | |- sound (Ok _) => reflexivity
  | |- sound (mret _) => reflexivity
  | |- sound (Throw _) => reflexivity
  | |- sound (_ ≫= _) => apply sound_bind; [|intros]
  | |- sound (match _ with _ => _ end) => case_match
  | |- clean (_ ≫= _) => apply clean_bind; [|intros]
  | |- clean (lift _) => apply clean_lift
  | |- clean (with_lock _) => apply clean_with_lock
  | |- clean (match _ with _ => _ end) => case_match
  | |- _ => solve [auto with sound]
  end).

(** ** Messages *)

Lemma sound_mem_read b off n : sound (mem_read b off n).
Proof. unfold mem_read. by case_match. Qed.
Lemma sound_mem_write b off src : sound (mem_write b off src).
Proof. unfold mem_write. by case_match. Qed.
#[export] Hint Resolve sound_mem_read sound_mem_write : sound.
Lemma sound_read_le b off n : sound (read_le b off n).
Proof. unfold read_le. solve_sound. Qed.
Lemma sound_write_le b off n z : sound (write_le b off n z).
Proof. apply sound_mem_write. Qed.
#[export] Hint Resolve sound_read_le sound_write_le : sound.

(** A message that [pr1_message_parse] returned. *)
Definition is_parsed (m : PR1_MESSAGE) : Prop := is_Some (field_array m).

Lemma sound_parse_loop b ms n : forall cur total arr, sound (parse_loop b ms n cur total arr).
Proof. induction n as [|n IH]; intros; simpl; unfold fh_data_size, fh_field_id, fh_data_type; solve_sound. Qed.

Lemma sound_parse m : sound (pr1_message_parse m) /\ forall m', pr1_message_parse m = Ok m' -> is_parsed m'.
Proof.
  split.
  - unfold pr1_message_parse. pose proof (sound_parse_loop (blk_of m)). solve_sound.
  - unfold pr1_message_parse. intros m'. destruct (read_le _ 0 4); [|done]. mrun. destruct (assert_ _); [|done]. mrun.
    destruct (read_le _ 4 2); [|done]. mrun. destruct (parse_loop _ _ _ _ _ _) as [ [arr total]|]; [|done]. mrun.
    destruct (assert_ _); [|done]. mrun. intros [= <-]. by eexists.
Qed.

Lemma sound_find_loop b n : forall arr id, sound (find_loop b n arr id).
Proof. induction n as [|n IH]; intros [|p arr] id; simpl; unfold fh_field_id; solve_sound. Qed.

Lemma sound_find m id : is_parsed m -> sound (pr1_message_field_find_by_id m id).
Proof. intros [arr E]. unfold pr1_message_field_find_by_id. rewrite E. apply sound_find_loop. Qed.
#[export] Hint Resolve sound_find : sound.

Lemma sound_get_int b p : sound (pr1_message_field_get_int b p).
Proof. unfold pr1_message_field_get_int, fh_data_size. solve_sound. Qed.
Lemma sound_get_double b p : sound (pr1_message_field_get_double b p).
Proof. unfold pr1_message_field_get_double, fh_data_size. solve_sound. Qed.
#[export] Hint Resolve sound_get_int sound_get_double : sound.

Lemma sound_field_int m id : is_parsed m -> sound (Pr1MessageGetField_int m id).
Proof. intros. unfold Pr1MessageGetField_int, fh_data_type. solve_sound. Qed.
Lemma sound_field_string m id : is_parsed m -> sound (Pr1MessageGetField_string m id).
Proof. intros. unfold Pr1MessageGetField_string, fh_data_type, fh_data_size. solve_sound. Qed.
Lemma sound_field_data m id : is_parsed m -> sound (Pr1MessageGetField_data m id).
Proof. intros. unfold Pr1MessageGetField_data, Pr1MessageToCppTioData, fh_data_type, fh_data_size. solve_sound. Qed.
#[export] Hint Resolve sound_field_int sound_field_string sound_field_data : sound.

Lemma sound_get_all m k v md : is_parsed m -> sound (Pr1MessageGetHandleKeyValueAndMetadata m k v md).
Proof. intros. unfold Pr1MessageGetHandleKeyValueAndMetadata, get_into. solve_sound. Qed.
#[export] Hint Resolve sound_get_all : sound.

(** Building a message. *)
Lemma sound_ensure sb n : sound (stream_buffer_ensure_space_left sb n).
Proof. unfold stream_buffer_ensure_space_left. solve_sound. Qed.
#[export] Hint Resolve sound_ensure : sound.
Lemma sound_add_field m id ty src n : sound (pr1_message_add_field m id ty src n).
Proof. unfold pr1_message_add_field, stream_buffer_get_write_pointer, stream_buffer_write. solve_sound. Qed.
Lemma sound_new : sound pr1_message_new.
Proof. unfold pr1_message_new, stream_buffer_get_write_pointer. solve_sound. Qed.
#[export] Hint Resolve sound_add_field sound_new : sound.

Lemma sound_add_int m id z : sound (pr1_message_add_field_int m id z).
Proof. apply sound_add_field. Qed.
Lemma sound_add_string m id x : sound (pr1_message_add_field_string m id x).
Proof. unfold pr1_message_add_field_string, strlen32. solve_sound. Qed.
#[export] Hint Resolve sound_add_int sound_add_string : sound.

Lemma sound_add_data m id t : sound (Pr1MessageAddField m id t).
Proof. unfold Pr1MessageAddField, AsRaw, GetSize. solve_sound. Qed.
#[export] Hint Resolve sound_add_data : sound.

Lemma sound_add_fields m k v md : sound (Pr1MessageAddFields m k v md).
Proof. unfold Pr1MessageAddFields, add_if_set. solve_sound. Qed.
#[export] Hint Resolve sound_add_fields : sound.

Lemma sound_answer : sound Pr1CreateAnswerMessage.
Proof. unfold Pr1CreateAnswerMessage, Pr1CreateMessage. solve_sound. Qed.
#[export] Hint Resolve sound_answer : sound.

Lemma sound_answer_data k v md : sound (Pr1CreateAnswerMessage_data k v md).
Proof. unfold Pr1CreateAnswerMessage_data. solve_sound. Qed.
#[export] Hint Resolve sound_answer_data : sound.

Lemma sound_get_buffer m q : sound (pr1_message_get_buffer m q).
Proof. unfold pr1_message_get_buffer, pr1_message_fill_header_info. solve_sound. Qed.
#[export] Hint Resolve sound_get_buffer : sound.

#[local] Opaque pr1_message_new pr1_message_add_field pr1_message_get_buffer pr1_message_add_field_int
  pr1_message_add_field_string Pr1CreateAnswerMessage Pr1CreateAnswerMessage_data Pr1MessageAddFields.

(** ** Sessions *)

(** A call on a session that follows no bad pointer and adds no handle. *)
Definition quiet {A} (m : M session A) : Prop :=
  forall x, sound (m x).1 /\ forall h c, handles_ (m x).2 !! h = Some c -> handles_ x !! h = Some c.

Lemma quiet_bind {A B} (m : M session A) (f : A -> M session B) :
  quiet m -> (forall a, quiet (f a)) -> quiet (m ≫= f).
Proof.
  intros Hm Hf x. destruct (Hm x) as [H1 H2]. unfold mbind, M_bind. destruct (m x) as [ [a|e] x']; simpl in *; [|done].
  destruct (Hf a x') as [H3 H4]. split; [done|]. auto.
Qed.

Lemma quiet_lift {A} (r : res A) : sound r -> quiet (lift r).
Proof. intros H x. by split. Qed.

Lemma quiet_ret {A} (a : A) : quiet (mret a).
Proof. intros x. by split. Qed.

Lemma quiet_get {A} (f : session -> M session A) : (forall s, quiet (f s)) -> quiet (get ≫= f).
Proof. intros H x. rewrite bind_get. apply H. Qed.

Lemma quiet_modify (g : session -> session) :
  (forall x h c, handles_ (g x) !! h = Some c -> handles_ x !! h = Some c) -> quiet (modify g).
Proof. intros H x. split; [done|apply H]. Qed.

Create HintDb quiet discriminated.
#[export] Hint Constants Opaque : quiet.

Ltac solve_quiet :=
  repeat (cbn zeta; match goal with
  | |- quiet (get ≫= _) => apply quiet_get; intros
  | |- quiet (_ ≫= _) => apply quiet_bind; [|intros]
  | |- quiet (lift _) => apply quiet_lift; solve [solve_sound]
  | |- quiet (mret _) => apply quiet_ret
  | |- quiet (modify _) => apply quiet_modify; intros; solve [done | by simplify_map_eq]
  | |- quiet (match _ with _ => _ end) => case_match
  | |- quiet _ => solve [auto with quiet]
  end).

Lemma sound_add_ints a b : sound (add_int a b).
Proof. unfold add_int. by case_match. Qed.
#[export] Hint Resolve sound_add_ints : sound.

Lemma quiet_increase n : quiet (IncreasePendingSendSize n).
Proof. unfold IncreasePendingSendSize. solve_quiet. Qed.
Lemma quiet_decrease n : quiet (DecreasePendingSendSize n).
Proof. unfold DecreasePendingSendSize. solve_quiet. Qed.
Lemma quiet_write b : quiet (async_write b).
Proof. unfold async_write. solve_quiet. Qed.
#[export] Hint Resolve quiet_increase quiet_decrease quiet_write : quiet.

Lemma sound_fill l : forall q b, sound (fill_buffer l q b).
Proof. induction l as [|m l IH]; intros q b; simpl; solve_sound. Qed.
#[export] Hint Resolve sound_fill : sound.

Lemma quiet_pending : quiet SendPendingBinaryData.
Proof. unfold SendPendingBinaryData. solve_quiet. Qed.
#[export] Hint Resolve quiet_pending : quiet.

Lemma quiet_send m : quiet (SendBinaryMessage m).
Proof. unfold SendBinaryMessage. solve_quiet. Qed.
Lemma quiet_push l : quiet (push_messages l).
Proof. induction l as [|m l IH]; simpl; solve_quiet. Qed.
#[export] Hint Resolve quiet_send quiet_push : quiet.

Lemma quiet_sends l : quiet (SendBinaryMessages l).
Proof. unfold SendBinaryMessages. solve_quiet. Qed.
Lemma quiet_answer : quiet SendBinaryAnswer.
Proof. unfold SendBinaryAnswer. solve_quiet. Qed.
Lemma quiet_answer_data k v m : quiet (SendBinaryAnswer_data k v m).
Proof. unfold SendBinaryAnswer_data. solve_quiet. Qed.
Lemma quiet_error_answer z d : quiet (SendBinaryErrorAnswer z d).
Proof. unfold SendBinaryErrorAnswer, Pr1CreateMessage. solve_quiet. Qed.
#[export] Hint Resolve quiet_sends quiet_answer quiet_answer_data quiet_error_answer : quiet.

Lemma sound_event_message h c : sound (event_message h c).
Proof. unfold event_message, Pr1CreateMessage, Pr1MessageAddField_int. solve_sound. Qed.
#[export] Hint Resolve sound_event_message : sound.
#[local] Opaque event_message.

Lemma sound_snapshot h c l : sound (snapshot_messages h c l) /\
  forall ms, snapshot_messages h c l = Ok ms -> length ms = length l.
Proof.
  induction l as [|[ [k v] m] l [IH1 IH2] ]; simpl; [by split; [|intros ms [= <-] ]|]. split; [solve_sound|].
  intros ms. destruct (event_message h c); [|done]. mrun. destruct (Pr1MessageAddFields _ _ _ _); [|done]. mrun.
  destruct (snapshot_messages h c l) as [rest|]; [|done]. mrun. intros [= <-]. simpl. by rewrite IH2.
Qed.

Lemma quiet_event h c k v m : quiet (SendBinaryEvent h c k v m).
Proof. unfold SendBinaryEvent. solve_quiet. Qed.

(** The vector of messages is as long as the result set, if that is at its
    begin. *)
Lemma quiet_binary_snapshot r h c : current_ r = 0%nat -> quiet (SendBinarySubscriptionSnapshot r h c).
Proof.
  intros Hr x. unfold SendBinarySubscriptionSnapshot, remaining, ResultSet.RecordCount. rewrite Hr, drop_0.
  case_bool_decide as Hn; [|done]. rewrite (bind_lift_ok _ _ _ tt eq_refl).
  destruct (sound_snapshot h (event_code_value c) (items_ r)) as [H1 H2].
  destruct (snapshot_messages _ _ _) as [ms|e]; [|by rewrite (bind_lift_throw _ _ _ e eq_refl)].
  rewrite (bind_lift_ok _ _ _ ms eq_refl), (H2 ms eq_refl).
  destruct (event_message h _) as [m|e] eqn:Em;
    [|rewrite (bind_lift_throw _ _ _ e eq_refl); split; [|done]; pose proof (sound_event_message h Protocol.TIO_EVENT_SNAPSHOT_END) as H;
      by rewrite Em in H].
  rewrite (bind_lift_ok _ _ _ m eq_refl). rewrite bool_decide_true.
  - apply quiet_sends.
  - pose proof (Z.mod_le (Z.of_nat (length (items_ r))) (2 ^ 32)). unfold u32 in *. lia.
Qed.

Lemma quiet_items q f l : forall a n, quiet (send_items q f l a n).
Proof.
  induction l as [|[ [k v] m] l IH]; intros a n; simpl; unfold Pr1CreateMessage, Pr1MessageAddField_int; solve_quiet.
Qed.

Lemma quiet_result_set r q f n : quiet (SendBinaryResultSet r q f n).
Proof.
  unfold SendBinaryResultSet, Pr1CreateMessage, Pr1MessageAddField_int. pose proof (quiet_items q f). solve_quiet.
Qed.
#[export] Hint Resolve quiet_event quiet_binary_snapshot quiet_result_set : quiet.

Lemma quiet_invalidate : quiet InvalidateConnection.
Proof. unfold InvalidateConnection, UnsubscribeAll. solve_quiet. Qed.
#[export] Hint Resolve quiet_invalidate : quiet.

Lemma quiet_check b : quiet (CheckError b).
Proof. unfold CheckError. solve_quiet. Qed.
#[export] Hint Resolve quiet_check : quiet.

Lemma quiet_sent b n : quiet (OnBinaryMessageSent b n).
Proof. unfold OnBinaryMessageSent. solve_quiet. Qed.

Lemma quiet_string_now x : quiet (SendStringNow x).
Proof. unfold SendStringNow. solve_quiet. Qed.
#[export] Hint Resolve quiet_sent quiet_string_now : quiet.

Lemma quiet_string x : quiet (SendString x).
Proof. unfold SendString, UnsubscribeAll. solve_quiet. Qed.
Lemma quiet_on_write n b k : quiet (OnWrite n b k).
Proof. unfold OnWrite. solve_quiet. Qed.
#[export] Hint Resolve quiet_string quiet_on_write : quiet.

Lemma quiet_text_event p h c k v m : quiet (SendTextEvent p h c k v m).
Proof. apply quiet_string. Qed.
Lemma quiet_text_events p h c l : quiet (send_text_events p h c l).
Proof. pose proof (quiet_text_event p h c). induction l as [|[ [k v] m] l IH]; simpl; solve_quiet. Qed.
#[export] Hint Resolve quiet_text_event quiet_text_events : quiet.

Lemma quiet_snapshot p r h c : current_ r = 0%nat -> quiet (SendSubscriptionSnapshot p r h c).
Proof. intros. unfold SendSubscriptionSnapshot, SendTextSubscriptionSnapshot. solve_quiet. Qed.
Lemma quiet_publish p h c k v m : quiet (PublishEvent p h c k v m).
Proof. unfold PublishEvent. solve_quiet. Qed.
Lemma quiet_new_container g h n t : quiet (PublishNewGroupContainer g h n t).
Proof.
  unfold PublishNewGroupContainer, Pr1CreateMessage, Pr1MessageAddField_int, Pr1MessageAddField_string, SendAnswer.
  solve_quiet.
Qed.
#[export] Hint Resolve quiet_snapshot quiet_publish quiet_new_container : quiet.

Lemma quiet_answer_text x : quiet (SendAnswer x).
Proof. apply quiet_string. Qed.
#[export] Hint Resolve quiet_answer_text : quiet.

Lemma quiet_close f h : quiet (CloseContainerHandle f h).
Proof.
  intros x. unfold CloseContainerHandle. rewrite bind_get. destruct (handles_ x !! u32 h) as [c|]; [|done].
  split; [done|]. intros k d H.
  change (delete (u32 h) (handles_ x) !! k = Some d) in H. by apply lookup_delete_Some in H as [_ H].
Qed.
Lemma quiet_unsubscribe h : quiet (Unsubscribe h).
Proof. apply quiet_ret. Qed.
#[export] Hint Resolve quiet_close quiet_unsubscribe : quiet.

(** ** Storages *)

Ltac solve_clean :=
  repeat (cbn zeta; unfold require, assert_; match goal with
  | |- clean (mret _) => intros ?; reflexivity
  | |- clean (throw _) => intros ?; reflexivity
  | |- clean (modify _) => intros ?; reflexivity
  | |- clean (call_sink _ _ _ _) => intros ?; reflexivity
  | |- clean get => intros ?; reflexivity
  | |- sound (mret _) => reflexivity
  | |- sound _ => solve_sound
  | |- clean (_ ≫= _) => apply clean_bind; [|intros]
  | |- clean (lift _) => apply clean_lift
  | |- clean (with_lock _) => apply clean_with_lock
  | |- clean (match _ with _ => _ end) => case_match
  | |- clean _ => solve [auto with sound]
  end).

Lemma sound_as_int t : sound (AsInt t).
Proof. by destruct t. Qed.
Lemma sound_as_sz t : sound (AsSz t).
Proof. by destruct t. Qed.
Lemma sound_index i n b : sound (NormalizeIndex i n b).
Proof. unfold NormalizeIndex, abs_int. solve_sound. Qed.
#[export] Hint Resolve sound_as_int sound_as_sz sound_index : sound.

Lemma sound_for_queries i n : sound (NormalizeForQueries i n).
Proof. unfold NormalizeForQueries, abs_int. solve_sound. Qed.
#[export] Hint Resolve sound_for_queries : sound.

Lemma sound_limits a b n : sound (NormalizeQueryLimits a b n).
Proof. unfold NormalizeQueryLimits. solve_sound. Qed.
#[export] Hint Resolve sound_limits : sound.

Lemma clean_map_publish c k v m : clean (MapStorage.UpdateRevNumAndPublish c k v m).
Proof. unfold MapStorage.UpdateRevNumAndPublish. solve_clean. Qed.
Lemma clean_list_publish c k v m : clean (ListStorage.UpdateRevNumAndPublish c k v m).
Proof. unfold ListStorage.UpdateRevNumAndPublish. solve_clean. Qed.
Lemma clean_vector_publish c k v m : clean (VectorStorage.Publish c k v m).
Proof. unfold VectorStorage.Publish. solve_clean. Qed.
#[export] Hint Resolve clean_map_publish clean_list_publish clean_vector_publish : sound.

Lemma sound_list_offset d k : sound (ListStorage.GetOffset d k).
Proof. unfold ListStorage.GetOffset. solve_sound. Qed.
Lemma sound_list_deref d i : sound (ListStorage.deref d i).
Proof. unfold ListStorage.deref. by case_match. Qed.
#[export] Hint Resolve sound_list_offset sound_list_deref : sound.

Lemma sound_list_limit d a n : sound (ListStorage.limit d a n).
Proof. unfold ListStorage.limit. solve_sound. Qed.
#[export] Hint Resolve sound_list_limit : sound.

Lemma sound_record_number d i : sound (VectorStorage.GetRecordNumber_key d i).
Proof. unfold VectorStorage.GetRecordNumber_key, VectorStorage.GetRecordNumber. solve_sound. Qed.
Lemma sound_vector_items d n : forall k, sound (VectorStorage.query_items d k n).
Proof. induction n as [|n IH]; intros k; simpl; solve_sound. Qed.
#[export] Hint Resolve sound_record_number sound_vector_items : sound.

Lemma sound_vector_at d n : sound (VectorStorage.at_ d n).
Proof. unfold VectorStorage.at_. by case_match. Qed.
#[export] Hint Resolve sound_vector_at : sound.

Lemma sound_vector_record d i : sound (VectorStorage.GetInternalRecord d i).
Proof. unfold VectorStorage.GetInternalRecord. solve_sound. Qed.
Lemma sound_map_record d k : sound (MapStorage.GetInternalRecord d k).
Proof. unfold MapStorage.GetInternalRecord. solve_sound. Qed.
Lemma sound_map_range a b d : sound (MapStorage.query_range a b d).
Proof. unfold MapStorage.query_range. solve_sound. Qed.
#[export] Hint Resolve sound_vector_record sound_map_record sound_map_range : sound.

Lemma clean_vector_record sk k v m : clean (VectorStorage.GetRecord sk k v m).
Proof. unfold VectorStorage.GetRecord. solve_clean. Qed.
Lemma clean_vector_count : clean VectorStorage.GetRecordCount.
Proof. unfold VectorStorage.GetRecordCount. solve_clean. Qed.
#[export] Hint Resolve clean_vector_record clean_vector_count : sound.
#[export] Hint Transparent VectorStorage.t MapStorage.t ListStorage.t : sound.

Lemma clean_map o : clean (@run_op _ MapStorage.map_storage o).
Proof.
  destruct o; cbn [run_op MapStorage.map_storage PushBack PushFront PopBack PopFront Set_ Insert Delete Clear GetRecord Query];
    unfold MapStorage.PushBack, MapStorage.PushFront, MapStorage.PopBack, MapStorage.PopFront, MapStorage.Set_,
    MapStorage.Insert, MapStorage.Delete, MapStorage.Clear, MapStorage.GetRecord, MapStorage.Query, MapStorage.require_key;
    solve_clean.
Qed.

Lemma clean_list o : clean (@run_op _ ListStorage.list_storage o).
Proof.
  destruct o; cbn [run_op ListStorage.list_storage PushBack PushFront PopBack PopFront Set_ Insert Delete Clear GetRecord Query];
    unfold ListStorage.PushBack, ListStorage.PushFront, ListStorage.PopBack, ListStorage.PopFront, ListStorage.Set_,
    ListStorage.Insert, ListStorage.Delete, ListStorage.Clear, ListStorage.GetRecord, ListStorage.Query, ListStorage.CheckValue;
    solve_clean.
Qed.

Lemma clean_vector o : clean (@run_op _ VectorStorage.vector_storage o).
Proof.
  destruct o; cbn [run_op VectorStorage.vector_storage PushBack PushFront PopBack PopFront Set_ Insert Delete Clear GetRecord Query];
    unfold VectorStorage.PushBack, VectorStorage.PushFront, VectorStorage.PopBack, VectorStorage.PopFront, VectorStorage.Set_,
    VectorStorage.Insert, VectorStorage.Delete, VectorStorage.Clear, VectorStorage._Pop, VectorStorage.Query,
    VectorStorage.CheckValue;
    solve_clean.
Qed.

#[local] Existing Instance MemoryStorage.any_storage.

Lemma clean_any o : clean (run_op (S := MemoryStorage.AnyStorage) o).
Proof.
  intros a. assert (E : run_op o a = MemoryStorage.dispatch (fun S H => run_op o) a).
  { destruct o; try done; apply MemoryStorage.dispatch_then. }
  rewrite E. destruct a as [s|s|s]; simpl;
    [pose proof (clean_vector o s) as H|pose proof (clean_map o s) as H|pose proof (clean_list o s) as H];
    by destruct (@run_op _ _ o s).
Qed.

(** A query gives a result set at its begin. *)
Definition gives {S A} (P : A -> Prop) (m : M S A) : Prop := forall s a, (m s).1 = Ok a -> P a.

Lemma gives_bind {S A B} (P : B -> Prop) (m : M S A) (f : A -> M S B) :
  (forall a, gives P (f a)) -> gives P (m ≫= f).
Proof. intros Hf s b. unfold mbind, M_bind. destruct (m s) as [ [a|e] s']; simpl; [apply Hf|done]. Qed.

Lemma gives_with_lock {D A} (P : A -> Prop) (m : M (storage D) A) : gives P m -> gives P (with_lock m).
Proof.
  intros H s a. unfold with_lock. destruct (locked s); [done|]. specialize (H (set_locked true s) a).
  by destruct (m (set_locked true s)).
Qed.

Lemma gives_ret {S A} (P : A -> Prop) a : P a -> gives (S := S) P (mret a).
Proof. by intros H s b [= <-]. Qed.

Ltac solve_gives :=
  repeat match goal with
  | |- gives _ (_ ≫= _) => apply gives_bind; intros ?
  | |- gives _ (match ?p with _ => _ end) => destruct p
  | |- gives _ (mret _) => by apply gives_ret
  end.

Lemma query_at_begin a b (s : MemoryStorage.AnyStorage) r :
  (Query a b None_ s).1 = Ok r -> current_ r = 0%nat.
Proof.
  set (P := fun r => current_ r = 0%nat).
  assert (H1 : gives P (VectorStorage.Query a b None_)).
  { apply gives_with_lock. solve_gives. }
  assert (H2 : gives P (MapStorage.Query a b None_)).
  { apply gives_with_lock. solve_gives. }
  assert (H3 : gives P (ListStorage.Query a b None_)).
  { unfold ListStorage.Query. cbn [IsNull GetDataType Z.eqb negb].
    solve_gives. }
  destruct s as [s|s|s]; simpl; [specialize (H1 s r)|specialize (H2 s r)|specialize (H3 s r)];
    match goal with |- context [let '(r, s) := ?m in _] => destruct m end; auto.
Qed.

(** ** Calls that only read *)

(** Calls that change nothing. *)
Definition reads {D A} (m : M (storage D) A) : Prop := forall s, (m s).2 = s.

Lemma reads_bind {D A B} (m : M (storage D) A) (f : A -> M (storage D) B) : reads m -> (forall a, reads (f a)) -> reads (m ≫= f).
Proof.
  intros Hm Hf s. specialize (Hm s). unfold mbind, M_bind. destruct (m s) as [ [a|e] s1]; simpl in *; [|done].
  by rewrite (Hf a s1).
Qed.

Lemma reads_with_lock {D A} (m : M (storage D) A) : reads m -> reads (with_lock m).
Proof.
  intros Hm s. unfold with_lock. destruct (locked s) eqn:El; [done|]. specialize (Hm (set_locked true s)).
  destruct (m (set_locked true s)) as [r s1]. simpl in *. subst s1. destruct s. by simpl in El; subst.
Qed.

Ltac solve_reads :=
  repeat (cbn zeta; match goal with
  | |- reads (_ ≫= _) => apply reads_bind; [|intros]
  | |- reads (with_lock _) => apply reads_with_lock
  | |- reads (match _ with _ => _ end) => case_match
  | |- reads _ => by intros ?
  end).

Lemma query_reads a b (x : MemoryStorage.AnyStorage) : (Query a b None_ x).2 = x.
Proof.
  destruct x as [s|s|s]; simpl.
  - assert (H : reads (VectorStorage.Query a b None_)) by (unfold VectorStorage.Query, VectorStorage.GetRecordCount; solve_reads).
    specialize (H s). destruct (VectorStorage.Query a b None_ s). simpl in *. by subst.
  - assert (H : reads (MapStorage.Query a b None_)) by (unfold MapStorage.Query; solve_reads).
    specialize (H s). destruct (MapStorage.Query a b None_ s). simpl in *. by subst.
  - assert (H : reads (ListStorage.Query a b None_)) by (unfold ListStorage.Query; solve_reads).
    specialize (H s). destruct (ListStorage.Query a b None_ s). simpl in *. by subst.
Qed.

Lemma record_reads k o v m (x : MemoryStorage.AnyStorage) : (GetRecord k o v m x).2 = x.
Proof.
  destruct x as [s|s|s]; simpl.
  - assert (H : reads (VectorStorage.GetRecord k o v m)) by (unfold VectorStorage.GetRecord; solve_reads).
    specialize (H s). destruct (VectorStorage.GetRecord k o v m s). simpl in *. by subst.
  - assert (H : reads (MapStorage.GetRecord k o v m)) by (unfold MapStorage.GetRecord; solve_reads).
    specialize (H s). destruct (MapStorage.GetRecord k o v m s). simpl in *. by subst.
  - assert (H : reads (ListStorage.GetRecord k o v m)) by (unfold ListStorage.GetRecord; solve_reads).
    specialize (H s). destruct (ListStorage.GetRecord k o v m s). simpl in *. by subst.
Qed.

Lemma sound_record k o v m (x : MemoryStorage.AnyStorage) : sound (GetRecord k o v m x).1.
Proof.
  destruct x as [s|s|s]; simpl.
  - assert (H : clean (VectorStorage.GetRecord k o v m)) by (unfold VectorStorage.GetRecord; solve_clean).
    specialize (H s). by destruct (VectorStorage.GetRecord k o v m s).
  - assert (H : clean (MapStorage.GetRecord k o v m)) by (unfold MapStorage.GetRecord; solve_clean).
    specialize (H s). by destruct (MapStorage.GetRecord k o v m s).
  - assert (H : clean (ListStorage.GetRecord k o v m)) by (unfold ListStorage.GetRecord; solve_clean).
    specialize (H s). by destruct (ListStorage.GetRecord k o v m s).
Qed.

End Sound.
