(* ===== verification/Server.v ===== *)
(** * The server: [server/tio/TioTcpServer.cpp] and [.h]

    Sessions, subscriptions, groups, the queue of events and the publisher
    thread, and the handler of the binary protocol's commands.  Container
    pointers lead into the container manager's heap, subscription pointers into
    [subscriptions]; sessions are known by their id, and a weak pointer to a
    session finds it as long as it is in [sessions_].  A command is one step; the
    publisher handles one subscriber of one event in a step of its own, so that
    commands come between any two of them.  [regex] and [print_double] stand for
    [boost::regex] and the printing of doubles. *)
From S2P Require Import Prelude Decimal StdMap StreamBuffer Pr1Message TioDataC Network Protocol TioDataS Containers MapStorage MemoryStorage Auth ContainerManager SessionMessages Session.

Module Server.
Import StdMap Pr1 TioDataC Protocol TioData Containers SessionMessages Session.

Notation loc := nat (only parsing).
#[local] Existing Instance MemoryStorage.any_storage.

(** ** State *)

Record SubscriptionInfo := {
  si_handle : Z;
  snapshotPending : bool;
  si_groupName : bytes;
  start : bytes;
  si_session : Z;
  si_container : loc
}.

Record EventInfo := { storageId : loc; eventInfo : event }.

(** [GroupInfo] *)
Record GroupInfo := { containerListContainer : loc; containersMap : list (bytes * loc) }.

Record server := mk_server {
  containerManager_ : ContainerManager.t;
  sessions_ : gmap Z session;
  subscriptions : gmap loc SubscriptionInfo;
  next_subscription : loc;
  subscribers_ : gmap loc (list loc);
  eventQueue_ : list EventInfo;
  localEventQueue : list EventInfo;                      (* the publisher's batch *)
  interestedSubscribers : option (EventInfo * list loc); (* the event at hand, who is still to be told *)
  groups_ : gmap bytes GroupInfo;
  groupSubscriptions_ : gmap bytes (list Z);
  lastSessionID_ : Z;
  lastQueryID_ : Z;
  auth_ : Auth.t;
  users : option loc;
  meta_sessions : option loc;
  serverPaused_ : bool
}.

Definition set_manager x s := mk_server x (sessions_ s) (subscriptions s) (next_subscription s) (subscribers_ s)
  (eventQueue_ s) (localEventQueue s) (interestedSubscribers s) (groups_ s) (groupSubscriptions_ s) (lastSessionID_ s)
  (lastQueryID_ s) (auth_ s) (users s) (meta_sessions s) (serverPaused_ s).
Definition set_sessions x s := mk_server (containerManager_ s) x (subscriptions s) (next_subscription s) (subscribers_ s)
  (eventQueue_ s) (localEventQueue s) (interestedSubscribers s) (groups_ s) (groupSubscriptions_ s) (lastSessionID_ s)
  (lastQueryID_ s) (auth_ s) (users s) (meta_sessions s) (serverPaused_ s).
Definition set_subscriptions x n y s := mk_server (containerManager_ s) (sessions_ s) x n y
  (eventQueue_ s) (localEventQueue s) (interestedSubscribers s) (groups_ s) (groupSubscriptions_ s) (lastSessionID_ s)
  (lastQueryID_ s) (auth_ s) (users s) (meta_sessions s) (serverPaused_ s).
Definition set_queues q l i s := mk_server (containerManager_ s) (sessions_ s) (subscriptions s) (next_subscription s)
  (subscribers_ s) q l i (groups_ s) (groupSubscriptions_ s) (lastSessionID_ s)
  (lastQueryID_ s) (auth_ s) (users s) (meta_sessions s) (serverPaused_ s).
Definition set_groups g x s := mk_server (containerManager_ s) (sessions_ s) (subscriptions s) (next_subscription s)
  (subscribers_ s) (eventQueue_ s) (localEventQueue s) (interestedSubscribers s) g x (lastSessionID_ s)
  (lastQueryID_ s) (auth_ s) (users s) (meta_sessions s) (serverPaused_ s).
Definition set_ids x y s := mk_server (containerManager_ s) (sessions_ s) (subscriptions s) (next_subscription s)
  (subscribers_ s) (eventQueue_ s) (localEventQueue s) (interestedSubscribers s) (groups_ s) (groupSubscriptions_ s) x
  y (auth_ s) (users s) (meta_sessions s) (serverPaused_ s).
Definition set_meta a u m s := mk_server (containerManager_ s) (sessions_ s) (subscriptions s) (next_subscription s)
  (subscribers_ s) (eventQueue_ s) (localEventQueue s) (interestedSubscribers s) (groups_ s) (groupSubscriptions_ s)
  (lastSessionID_ s) (lastQueryID_ s) a u m (serverPaused_ s).

Definition make (manager : ContainerManager.t) : server :=
  mk_server manager ∅ ∅ 0%nat ∅ [] [] None ∅ ∅ 0 0 Auth.make None None false.

(** ** Calls into the other parts *)

(** [OnAnyContainerEvent], the subscriber of the container manager. *)
Definition OnAnyContainerEvent (storageId : loc) (e : event) (s : server) : server :=
  match subscribers_ s !! storageId with
  | None => s
  | Some _ => set_queues (eventQueue_ s ++ [ {| storageId := storageId; eventInfo := e |} ]) (localEventQueue s)
                (interestedSubscribers s) s
  end.

(** A call into the container manager; the events it publishes on the way reach
    the server. *)
Definition on_manager {A} (m : M ContainerManager.t A) : M server A := fun s =>
  let '(r, c) := m (containerManager_ s) in
  let published := drop (length (ContainerManager.events (containerManager_ s))) (ContainerManager.events c) in
  (r, fold_left (fun s p => OnAnyContainerEvent p.1 p.2 s) published (set_manager c s)).

(** A call on a session that exists. *)
Definition on_session {A} (sid : Z) (m : M session A) : M server A := fun s =>
  match sessions_ s !! sid with
  | None => (Throw (Fault UseAfterFree), s)
  | Some x => let '(r, x) := m x in (r, set_sessions (<[sid := x]> (sessions_ s)) s)
  end.

(** The storage behind a container, for its name and type. *)
Definition storage_at (c : loc) (s : server) : option MemoryStorage.AnyStorage :=
  l ← ContainerManager.storage_of c (containerManager_ s);
  ContainerManager.at_loc l (ContainerManager.memory (containerManager_ s)).

Definition GetName (c : loc) (s : server) : bytes :=
  match storage_at c s with Some a => MemoryStorage.any_name a | None => [] end.
Definition GetType (c : loc) (s : server) : bytes :=
  match storage_at c s with Some a => MemoryStorage.any_type a | None => [] end.

(** [try { m } catch(std::exception& ex) { handler(ex.what()) }]; a fault is no
    exception. *)
Definition what (e : exn) : bytes :=
  match e with
  | invalid_argument w | runtime_error w | out_of_range w | length_error w => lit w
  | bad_lexical_cast => lit "bad lexical cast: source type value could not be interpreted as target"
  | Fault _ => []
  end.

Definition try_catch {A} (m : M server A) (handler : exn -> M server A) : M server A := fun s =>
  match m s with
  | (Throw (Fault f), s') => (Throw (Fault f), s')
  | (Throw e, s') => handler e s'
  | x => x
  end.

(** *** Lifetime of container objects *)

Definition handle_containers (s : server) : list loc :=
  (map_to_list (sessions_ s)) ≫= (fun p => (map_to_list (handles_ p.2)).*2).
Definition group_containers (s : server) : list loc :=
  (map_to_list (groups_ s)) ≫= (fun p => containerListContainer p.2 :: (containersMap p.2).*2).

(** Who holds a [shared_ptr] to a container: the handles of sessions, the groups,
    the subscriptions, the server and the manager. *)
Definition owned (s : server) : list loc :=
  handle_containers s ++ group_containers s ++
  (si_container <$> (map_to_list (subscriptions s)).*2) ++
  option_list (users s) ++ option_list (meta_sessions s) ++
  option_list (ContainerManager.meta_containers_ (containerManager_ s)) ++
  option_list (ContainerManager.meta_availableTypes_ (containerManager_ s)).

(** Containers nobody holds are destroyed. *)
Definition collect (s : server) : server :=
  let c := containerManager_ s in
  set_manager (ContainerManager.set_live (filter (fun p => p.1 ∈ owned s) (ContainerManager.live c))
                 (ContainerManager.next_container c) c) s.

(** The end of a function that held containers in its variables. *)
Definition end_scope {A} (m : M server A) : M server A := fun s => let '(r, s') := m s in (r, collect s').

(** ** Subscriptions *)

Definition new_subscription_info (groupName : bytes) (container : loc) (handle session : Z) (start : bytes)
  : SubscriptionInfo :=
  {| si_handle := handle; snapshotPending := true; si_groupName := groupName; start := start;
     si_session := session; si_container := container |}.

Definition no_event : event := {| e_code := EVENT_CODE_SNAPSHOT_END; e_key := None_; e_value := None_; e_metadata := None_ |}.

Definition SessionAsyncSubscribe (info : SubscriptionInfo) : M server unit :=
  s ← get;
  match ContainerManager.storage_of (si_container info) (containerManager_ s) with
  | None => throw (Fault UseAfterFree)
  | Some storage =>
      _ ← modify (set_queues (eventQueue_ s ++ [ {| storageId := storage; eventInfo := no_event |} ]) (localEventQueue s)
            (interestedSubscribers s));
      let n := next_subscription s in
      modify (set_subscriptions (<[n := info]> (subscriptions s)) (S n)
        (<[storage := default [] (subscribers_ s !! storage) ++ [n]]> (subscribers_ s)))
  end.

(** ** Groups *)

Definition GetGroup (groupName : bytes) : M server GroupInfo :=
  s ← get;
  match groups_ s !! groupName with
  | Some g => mret g
  | None =>
      c ← on_manager (ContainerManager.CreateContainer (lit "volatile_map") (lit "__meta__/groups/" ++ groupName));
      let g := {| containerListContainer := c; containersMap := [] |} in
      s ← get;
      _ ← modify (set_groups (<[groupName := g]> (groups_ s)) (groupSubscriptions_ s));
      mret g
  end.

Definition AddContainer (groupName : bytes) (container : loc) : M server unit :=
  g ← GetGroup groupName;
  s ← get;
  let name := GetName container s in
  match find name (containersMap g) with
  | Some _ => mret tt
  | None =>
      modify (set_groups (<[groupName := {| containerListContainer := containerListContainer g;
                             containersMap := assign_at name container (containersMap g) |}]> (groups_ s))
        (groupSubscriptions_ s))
  end.

Definition GetGroupContainers (groupName : bytes) (s : server) : list (bytes * loc) :=
  match groups_ s !! groupName with None => [] | Some g => containersMap g end.

(** [for(auto& weakSession: groupSubscriptions_[groupName])] *)
Fixpoint subscribe_sessions (groupName containerName : bytes) (container : loc) (l : list Z) : M server unit :=
  match l with
  | [] => mret tt
  | sid :: l =>
      s ← get;
      _ ← match sessions_ s !! sid with
          | None => mret tt
          | Some x =>
              if negb (valid_ x) then mret tt
              else
                handle ← on_session sid (RegisterNewGroupContainer groupName containerName container);
                SessionAsyncSubscribe (new_subscription_info groupName container handle sid (lit "0"))
          end;
      subscribe_sessions groupName containerName container l
  end.

(** [for(auto& p : groupContainers)] *)
Fixpoint subscribe_containers (groupName start : bytes) (sid : Z) (l : list (bytes * loc)) : M server unit :=
  match l with
  | [] => mret tt
  | (containerName, container) :: l =>
      handle ← on_session sid (RegisterNewGroupContainer groupName containerName container);
      _ ← SessionAsyncSubscribe (new_subscription_info groupName container handle sid start);
      subscribe_containers groupName start sid l
  end.

(** ** Commands of the binary protocol *)

Definition CreateNewQueryId : M server Z :=
  s ← get;
  let n := u32 (lastQueryID_ s + 1) in
  _ ← modify (set_ids (lastSessionID_ s) n);
  mret n.

Definition missing (sid : Z) (description : string) : M server unit :=
  on_session sid (SendBinaryErrorAnswer Net.TIO_ERROR_MISSING_PARAMETER (lit description)).

Definition GetContainerAndParametersFromRequest (sid : Z) (message : PR1_MESSAGE) (key value metadata : out)
  : M server (loc * outs) :=
  '(handle, o) ← lift (Pr1MessageGetHandleKeyValueAndMetadata message key value metadata);
  _ ← lift (require (negb (handle =? 0)) (runtime_error "handle?"));
  c ← on_session sid (GetRegisteredContainer handle);
  mret (c, o).

(** A call on a container of a session. *)
Definition call {A} (c : loc) (f : M MemoryStorage.AnyStorage A) : M server A :=
  on_manager (ContainerManager.call (Some c) f).

Definition on_ping (sid : Z) (message : PR1_MESSAGE) : M server unit :=
  payload ← lift (Pr1MessageGetField_string message MESSAGE_FIELD_ID_VALUE);
  match payload with
  | None => missing sid "missing MESSAGE_FIELD_ID_VALUE"
  | Some payload =>
      answer ← lift (
        answer ← Pr1CreateMessage;
        answer ← pr1_message_add_field_int answer MESSAGE_FIELD_ID_COMMAND TIO_COMMAND_ANSWER;
        pr1_message_add_field_string answer MESSAGE_FIELD_ID_VALUE (c_str payload));
      on_session sid (SendBinaryMessage answer)
  end.

Definition on_open_create (command sid : Z) (message : PR1_MESSAGE) : M server unit :=
  name ← lift (Pr1MessageGetField_string message MESSAGE_FIELD_ID_NAME);
  match name with
  | None => missing sid "missing container name (MESSAGE_FIELD_ID_NAME)"
  | Some name =>
      type ← lift (Pr1MessageGetField_string message MESSAGE_FIELD_ID_TYPE);
      let type := default [] type in
      if (command =? TIO_COMMAND_CREATE) && bool_decide (type = []) then
        missing sid "must inform type on container creation (MESSAGE_FIELD_ID_TYPE)"
      else
        container ← on_manager (if command =? TIO_COMMAND_CREATE then ContainerManager.CreateContainer type name
                                else ContainerManager.OpenContainer type name);
        handle ← on_session sid (RegisterContainer name container);
        answer ← lift (
          answer ← Pr1CreateMessage;
          answer ← pr1_message_add_field_int answer MESSAGE_FIELD_ID_COMMAND TIO_COMMAND_ANSWER;
          pr1_message_add_field_int answer MESSAGE_FIELD_ID_HANDLE handle);
        on_session sid (SendBinaryMessage answer)
  end.

Definition on_close (sid : Z) (message : PR1_MESSAGE) : M server unit :=
  handle ← lift (Pr1MessageGetField_int message MESSAGE_FIELD_ID_HANDLE);
  match handle with
  | None => missing sid "missing handle (MESSAGE_FIELD_ID_HANDLE)"
  | Some handle =>
      s ← get;
      _ ← on_session sid (CloseContainerHandle (fun c => GetName c s) handle);
      on_session sid SendBinaryAnswer
  end.

Definition on_get (command sid : Z) (message : PR1_MESSAGE) : M server unit :=
  '(c, (searchKey, _, _)) ← GetContainerAndParametersFromRequest sid message (Some None_) None None;
  let searchKey := default None_ searchKey in
  '(key, value, metadata) ←
    (if command =? TIO_COMMAND_GET then call c (GetRecord searchKey (Some None_) (Some None_) (Some None_))
     else
       k ← lift (AsSz searchKey);
       v ← on_manager (ContainerManager.GetProperty (Some c) k);
       mret (Some searchKey, Some (String v), Some None_));
  on_session sid (SendBinaryAnswer_data key value metadata).

Definition on_pop (command sid : Z) (message : PR1_MESSAGE) : M server unit :=
  '(c, _) ← GetContainerAndParametersFromRequest sid message None None None;
  '(key, value, metadata) ←
    call c (if command =? TIO_COMMAND_POP_BACK then PopBack (Some None_) (Some None_) (Some None_)
            else PopFront (Some None_) (Some None_) (Some None_));
  on_session sid (SendBinaryAnswer_data key value metadata).

Definition is_string (t : TioData) : bool := match t with String _ => true | _ => false end.

Definition on_modify (command sid : Z) (message : PR1_MESSAGE) : M server unit :=
  '(c, (key, value, metadata)) ← GetContainerAndParametersFromRequest sid message (Some None_) (Some None_) (Some None_);
  let key := default None_ key in
  let value := default None_ value in
  let metadata := default None_ metadata in
  _ ← (if command =? TIO_COMMAND_PUSH_BACK then call c (PushBack key value metadata)
       else if command =? TIO_COMMAND_PUSH_FRONT then call c (PushFront key value metadata)
       else if command =? TIO_COMMAND_SET then call c (Set_ key value metadata)
       else if command =? TIO_COMMAND_INSERT then call c (Insert key value metadata)
       else if command =? TIO_COMMAND_DELETE then call c (Delete key value metadata)
       else if command =? TIO_COMMAND_CLEAR then call c Clear
       else
         _ ← lift (require (is_string key && is_string value) (runtime_error "properties key and value should be strings"));
         k ← lift (AsSz key);
         v ← lift (AsSz value);
         on_manager (ContainerManager.SetProperty (Some c) k v));
  on_session sid SendBinaryAnswer.

Definition on_count (sid : Z) (message : PR1_MESSAGE) : M server unit :=
  '(c, _) ← GetContainerAndParametersFromRequest sid message None None None;
  count ← call c GetRecordCount;
  answer ← lift (
    answer ← Pr1CreateAnswerMessage_data None None None;
    pr1_message_add_field_int answer MESSAGE_FIELD_ID_VALUE (i32 count));
  on_session sid (SendBinaryMessage answer).

Definition on_group_add (sid : Z) (message : PR1_MESSAGE) : M server unit :=
  groupName ← lift (Pr1MessageGetField_string message MESSAGE_FIELD_ID_GROUP_NAME);
  match groupName with
  | None => missing sid "missing handle (MESSAGE_FIELD_ID_GROUP_NAME)"
  | Some groupName =>
      containerName ← lift (Pr1MessageGetField_string message MESSAGE_FIELD_ID_CONTAINER_NAME);
      match containerName with
      | None => missing sid "missing handle (MESSAGE_FIELD_ID_CONTAINER_NAME)"
      | Some containerName =>
          container ← on_manager (ContainerManager.OpenContainer [] containerName);
          _ ← AddContainer groupName container;
          _ ← on_session sid SendBinaryAnswer;
          s ← get;
          let subscribed := default [] (groupSubscriptions_ s !! groupName) in
          _ ← modify (set_groups (groups_ s) (<[groupName := subscribed]> (groupSubscriptions_ s)));
          subscribe_sessions groupName containerName container subscribed
      end
  end.

Definition on_group_subscribe (sid : Z) (message : PR1_MESSAGE) : M server unit :=
  groupName ← lift (Pr1MessageGetField_string message MESSAGE_FIELD_ID_GROUP_NAME);
  match groupName with
  | None => missing sid "missing handle (MESSAGE_FIELD_ID_GROUP_NAME)"
  | Some groupName =>
      start ← lift (Pr1MessageGetField_string message MESSAGE_FIELD_ID_START_RECORD);
      s ← get;
      let groupContainers := GetGroupContainers groupName s in
      _ ← modify (set_groups (groups_ s)
            (<[groupName := default [] (groupSubscriptions_ s !! groupName) ++ [sid]]> (groupSubscriptions_ s)));
      _ ← on_session sid SendBinaryAnswer;
      subscribe_containers groupName (default [] start) sid groupContainers
  end.

(** The start is a string, or an integer that is made one. *)
Definition start_field (message : PR1_MESSAGE) : res bytes :=
  str ← Pr1MessageGetField_string message MESSAGE_FIELD_ID_KEY;
  match str with
  | Some str => Ok str
  | None =>
      n ← Pr1MessageGetField_int message MESSAGE_FIELD_ID_KEY;
      Ok (match n with Some n => Decimal.print_int n | None => [] end)
  end.

Definition on_subscribe (sid : Z) (message : PR1_MESSAGE) : M server unit :=
  handle ← lift (Pr1MessageGetField_int message MESSAGE_FIELD_ID_HANDLE);
  match handle with
  | None => missing sid "missing handle (MESSAGE_FIELD_ID_HANDLE)"
  | Some handle =>
      start ← lift (start_field message);
      '(c, _) ← GetContainerAndParametersFromRequest sid message None None None;
      _ ← on_session sid SendBinaryAnswer;
      SessionAsyncSubscribe (new_subscription_info [] c (u32 handle) sid start)
  end.

Definition on_unsubscribe (sid : Z) (message : PR1_MESSAGE) : M server unit :=
  handle ← lift (Pr1MessageGetField_int message MESSAGE_FIELD_ID_HANDLE);
  match handle with
  | None => missing sid "missing handle (MESSAGE_FIELD_ID_HANDLE)"
  | Some handle =>
      _ ← on_session sid (Unsubscribe handle);
      on_session sid SendBinaryAnswer
  end.

Section Parameters.
(** [boost::regex(expression)], which throws for a bad expression, and
    [regex_match]. *)
Variable regex : bytes -> res (bytes -> bool).
Variable print_double : bytes -> bytes.

Definition on_query (sid : Z) (message : PR1_MESSAGE) : M server unit :=
  '(c, _) ← GetContainerAndParametersFromRequest sid message None None None;
  start ← lift (Pr1MessageGetField_int message MESSAGE_FIELD_ID_START_RECORD);
  end_ ← lift (Pr1MessageGetField_int message MESSAGE_FIELD_ID_END);
  let start := default 0 start in
  let end_ := default 0 end_ in
  let maxRecords := end_ in
  queryExpression ← lift (Pr1MessageGetField_string message MESSAGE_FIELD_ID_QUERY_EXPRESSION);
  let queryExpression := default [] queryExpression in
  '(filterFunction, start, end_) ← lift (
    if bool_decide (queryExpression = []) then Ok (None, start, end_)
    else
      e ← regex queryExpression;
      Ok (Some (fun key => match key with String s => e (c_str s) | _ => false end), 0, 0));
  resultSet ← call c (Query start end_ TIONULL);
  queryID ← CreateNewQueryId;
  on_session sid (SendBinaryResultSet resultSet queryID filterFunction (u32 maxRecords)).

Definition binary_command (command sid : Z) (message : PR1_MESSAGE) : M server unit :=
  if command =? TIO_COMMAND_PING then on_ping sid message
  else if (command =? TIO_COMMAND_OPEN) || (command =? TIO_COMMAND_CREATE) then on_open_create command sid message
  else if command =? TIO_COMMAND_CLOSE then on_close sid message
  else if (command =? TIO_COMMAND_GET) || (command =? TIO_COMMAND_PROPGET) then on_get command sid message
  else if (command =? TIO_COMMAND_POP_FRONT) || (command =? TIO_COMMAND_POP_BACK) then on_pop command sid message
  else if bool_decide (command ∈ [TIO_COMMAND_PUSH_BACK; TIO_COMMAND_PUSH_FRONT; TIO_COMMAND_SET; TIO_COMMAND_INSERT;
            TIO_COMMAND_DELETE; TIO_COMMAND_CLEAR; TIO_COMMAND_PROPSET]) then on_modify command sid message
  else if command =? TIO_COMMAND_COUNT then on_count sid message
  else if command =? TIO_COMMAND_QUERY then on_query sid message
  else if command =? TIO_COMMAND_GROUP_ADD then on_group_add sid message
  else if command =? TIO_COMMAND_GROUP_SUBSCRIBE then on_group_subscribe sid message
  else if command =? TIO_COMMAND_SUBSCRIBE then on_subscribe sid message
  else if command =? TIO_COMMAND_UNSUBSCRIBE then on_unsubscribe sid message
  else on_session sid (SendBinaryErrorAnswer Net.TIO_ERROR_PROTOCOL (lit "invalid command")).

Definition OnBinaryCommand (sid : Z) (message : PR1_MESSAGE) : M server unit :=
  message ← lift (pr1_message_parse message);
  command ← lift (Pr1MessageGetField_int message MESSAGE_FIELD_ID_COMMAND);
  match command with
  | None => missing sid "missing MESSAGE_FIELD_ID_COMMAND"
  | Some command =>
      try_catch (end_scope (binary_command command sid message))
        (fun ex => on_session sid (SendBinaryErrorAnswer Net.TIO_ERROR_PROTOCOL (what ex)))
  end.

(** The reads of the binary protocol: the header, for which a message with room
    for the payload is made, then the payload. *)
Definition OnBinaryProtocolMessageHeader (sid : Z) (header : bytes) (err : bool) : M server (option (PR1_MESSAGE * Z)) :=
  failed ← on_session sid (CheckError err);
  if (failed : bool) then mret None
  else message ← lift (pr1_message_new_get_buffer_for_receive header); mret (Some message).

Definition OnBinaryProtocolMessage (sid : Z) (message : PR1_MESSAGE) (err : bool) : M server unit :=
  failed ← on_session sid (CheckError err);
  if (failed : bool) then mret tt else OnBinaryCommand sid message.

(** The bytes of a whole message arrive, [async_read] storing the payload. *)
Definition on_message (sid : Z) (bs : bytes) : M server unit :=
  m ← OnBinaryProtocolMessageHeader sid (take 8 bs) false;
  match m with
  | None => mret tt
  | Some (message, buffer) =>
      message ← lift (Net.store_payload message buffer (drop 8 bs));
      OnBinaryProtocolMessage sid message false
  end.

(** ** The publisher *)

Definition set_pending (n : loc) (b : bool) : M server unit :=
  modify (fun s =>
    match subscriptions s !! n with
    | None => s
    | Some i => set_subscriptions (<[n := {| si_handle := si_handle i; snapshotPending := b;
                  si_groupName := si_groupName i; start := start i; si_session := si_session i;
                  si_container := si_container i |}]> (subscriptions s)) (next_subscription s) (subscribers_ s) s
    end).

(** [try_lexical_convert] into an [int] that is 0. *)
Definition numeric_start (start : bytes) : Z :=
  match Decimal.lexical_cast_int start with Ok n => n | Throw _ => 0 end.

Definition not_supposed_to_throw (m : M server unit) : M server unit :=
  try_catch m (fun _ => throw (Fault AssertFail)).

(** One subscriber of a [SNAPSHOT_END]. *)
Definition publish_snapshot (n : loc) : M server unit :=
  s ← get;
  match subscriptions s !! n with
  | None => throw (Fault UseAfterFree)
  | Some i =>
      if negb (snapshotPending i) then mret tt
      else if bool_decide (start i = []) then set_pending n false
      else
        match sessions_ s !! si_session i with
        | None => mret tt
        | Some _ =>
            _ ← not_supposed_to_throw (
              resultSet ← call (si_container i) (Query (numeric_start (start i)) 0 None_);
              s ← get;
              let eventCode :=
                if IsMapContainer (GetType (si_container i) s) then EVENT_CODE_SET else EVENT_CODE_PUSH_BACK in
              _ ← (if bool_decide (si_groupName i = []) then mret tt
                   else on_session (si_session i) (PublishNewGroupContainer (si_groupName i) (si_handle i)
                          (GetName (si_container i) s) (GetType (si_container i) s)));
              on_session (si_session i) (SendSubscriptionSnapshot print_double resultSet (si_handle i) eventCode));
            set_pending n false
        end
  end.

(** One subscriber of any other event. *)
Definition publish_event (e : event) (n : loc) : M server unit :=
  s ← get;
  match subscriptions s !! n with
  | None => throw (Fault UseAfterFree)
  | Some i =>
      if snapshotPending i then mret tt
      else
        match sessions_ s !! si_session i with
        | None => mret tt
        | Some _ =>
            not_supposed_to_throw (
              on_session (si_session i)
                (PublishEvent print_double (si_handle i) (e_code e) (e_key e) (e_value e) (e_metadata e)))
        end
  end.

Definition publish_to (e : EventInfo) (n : loc) : M server unit :=
  if decide (e_code (eventInfo e) = EVENT_CODE_SNAPSHOT_END) then publish_snapshot n
  else publish_event (eventInfo e) n.

(** One step of [PublisherThread]: tell the next subscriber, take the next event
    of the batch with a copy of its subscribers, or take the queue as the next
    batch; nothing when it waits. *)
Definition PublisherThread : M server unit :=
  s ← get;
  match interestedSubscribers s, localEventQueue s with
  | Some (e, n :: rest), l =>
      _ ← modify (set_queues (eventQueue_ s) l (Some (e, rest)));
      publish_to e n
  | Some (e, []), l => modify (set_queues (eventQueue_ s) l None)
  | None, e :: l =>
      modify (set_queues (eventQueue_ s) l
        (match subscribers_ s !! storageId e with None => None | Some subs => Some (e, subs) end))
  | None, [] => modify (set_queues [] (eventQueue_ s) None)
  end.

(** ** Connections *)

Definition session_key (id : Z) : TioData := String (Decimal.print_int id).

Definition meta_call (p : option loc) (f : M MemoryStorage.AnyStorage unit) : M server unit :=
  on_manager (ContainerManager.call p f).

Definition GenerateSessionId : M server Z :=
  s ← get;
  let id := u32 (lastSessionID_ s + 1) in
  _ ← modify (set_ids id (lastQueryID_ s));
  mret id.

(** [OnAccept] of a connection without error, for the session made with [id]
    when [DoAccept] began to wait for it. *)
Definition OnAccept (id : Z) : M server unit :=
  s ← get;
  if serverPaused_ s then mret tt
  else
    _ ← modify (fun s => set_sessions (<[id := new_session id]> (sessions_ s)) s);
    meta_call (meta_sessions s) (Insert (session_key id) TIONULL TIONULL).

(** The answer to [protocol binary]. *)
Definition go_binary (sid : Z) : M server unit :=
  on_session sid (_ ← SendAnswer (lit "going binary"); modify (set_binary true)).

Definition RemoveClient (sid : Z) : M server unit :=
  s ← get;
  match sessions_ s !! sid with
  | None => mret tt
  | Some _ =>
      _ ← modify (fun s => set_sessions (delete sid (sessions_ s)) s);
      _ ← modify collect;
      meta_call (meta_sessions s) (Delete (session_key sid) TIONULL TIONULL)
  end.

(** An operation on the socket of a session failed: its connection is
    invalidated, and the callback posted for it removes it. *)
Definition OnClientFailed (sid : Z) : M server unit :=
  _ ← on_session sid InvalidateConnection;
  RemoveClient sid.

Definition InitializeMetaContainers : M server unit :=
  c ← on_manager (ContainerManager.CreateContainer (lit "volatile_map") (lit "__meta__/users"));
  _ ← modify (fun s => set_meta (auth_ s) (Some c) (meta_sessions s) s);
  _ ← try_catch (_ ← on_manager (ContainerManager.GetProperty (Some c) (lit "schema")); mret tt)
        (fun _ => on_manager (ContainerManager.SetProperty (Some c) (lit "schema") (lit "password type|password")));
  s ← get;
  let userContainerType := ContainerManager.ResolveAlias (lit "users") (containerManager_ s) in
  _ ← modify (fun s => set_meta (Auth.users_rules userContainerType (auth_ s)) (users s) (meta_sessions s) s);
  c ← on_manager (ContainerManager.CreateContainer (lit "volatile_map") (lit "__meta__/sessions"));
  modify (fun s => set_meta (auth_ s) (users s) (Some c) s).

(** The constructor. *)
Definition TioTcpServer : M server unit :=
  _ ← on_manager (ContainerManager.SetSubscriber true);
  InitializeMetaContainers.

End Parameters.

(** A server as [tio.cpp] starts it, without aliases and users. *)
Definition started : server := (TioTcpServer (make ContainerManager.start)).2.

Example started_sessions : is_Some (meta_sessions started) /\ is_Some (users started).
Proof. split; vm_compute; by eexists. Qed.

End Server.
