(* ===== verification/TextCommands.v ===== *)
(** * Commands of the text protocol: [server/tio/Command.cpp], [TioTcpServer.cpp]

    A line of words is a [Command]; the handlers of the commands, found by the
    first word, answer with a line, and those with data ask for the bytes that
    follow the line and are called again with them.  An [answer] stream is the
    bytes written to it, and [moreDataSize] is 0 when nothing is asked for.  No
    handler throws after it wrote to the stream.  The access rules are asked with
    what [GetRegisteredContainer] gives as name and type of a container, which is
    its name both times. *)
From S2P Require Import Prelude Decimal StdMap StreamBuffer Pr1Message Protocol TioDataS Containers MapStorage MemoryStorage Auth TextProtocol ContainerManager SessionMessages Session Server.

Module TextCommands.
Import Decimal StdMap Protocol TioData Containers TextProtocol Session Server.

#[local] Existing Instances MemoryStorage.any_storage Auth.RuleResult_eq_dec.

(** ** Commands *)

Record Command := {
  params_ : list bytes;
  command_ : bytes;
  source_ : bytes;
  data_ : option bytes;     (* the data buffer *)
  isHttp_ : bool
}.

Definition no_command : Command := {| params_ := []; command_ := []; source_ := []; data_ := None; isHttp_ := false |}.

Definition Parse (source : bytes) (c : Command) : res Command :=
  match split x20 source with
  | [] => Throw (invalid_argument "not a command")
  | command :: params =>
      Ok {| params_ := params; command_ := command; source_ := source; data_ := data_ c;
            isHttp_ := if bool_decide (last params = Some (lit "HTTP/1.1")) then true else isHttp_ c |}
  end.

(** [GetDataBuffer], which makes an empty buffer when there is none. *)
Definition GetDataBuffer (c : Command) : bytes := default [] (data_ c).
Definition SetDataBuffer (data : bytes) (c : Command) : Command :=
  {| params_ := params_ c; command_ := command_ c; source_ := source_ c; data_ := Some data; isHttp_ := isHttp_ c |}.

Inductive ParameterCountCheckType := exact_ | at_least.

Definition CheckParameterCount (cmd : Command) (requiredParameters : nat) (type : ParameterCountCheckType) : bool :=
  match type with
  | exact_ => Nat.eqb (length (params_ cmd)) requiredParameters
  | at_least => Nat.leb requiredParameters (length (params_ cmd))
  end.

(** [cmd.GetParameters()[n]] *)
Definition param (cmd : Command) (n : nat) : bytes := default [] (params_ cmd !! n).

(** ** Answers *)

(** What a handler wrote to the answer, and the data it asks for. *)
Notation reply := (bytes * Z)%type.

Definition answer_error (description : bytes) : M server reply := mret (MakeAnswer error (Some description), 0).
Definition answer_ok : M server reply := mret (MakeAnswer success None, 0).
Definition invalid_parameter_count : M server reply := answer_error (lit "invalid parameter count").

(** [try { m } catch(std::exception& ex) { MakeAnswer(error, answer, ex.what()); }] *)
Definition answering (m : M server reply) : M server reply := try_catch m (fun ex => answer_error (what ex)).

(** *** Access *)

Definition tokens (sid : Z) (s : server) : list bytes :=
  match sessions_ s !! sid with Some x => GetTokens x | None => [] end.

Definition access_denied : M server reply := answer_error (lit "access denied").

Definition CheckCommandAccess (command : bytes) (sid : Z) (s : server) : bool :=
  bool_decide (Auth.CheckCommandAccess command (tokens sid s) (auth_ s) = Auth.allow).

Definition CheckObjectAccess (objectType objectName command : bytes) (sid : Z) (s : server) : bool :=
  bool_decide (Auth.CheckObjectAccess objectType objectName command (tokens sid s) (auth_ s) = Auth.allow).

(** *** Handles *)

(** The first parameter as the handle of a container of the session. *)
Definition handle_container (cmd : Command) (sid : Z) : M server loc :=
  handle ← lift (lexical_cast_unsigned (param cmd 0));
  on_session sid (GetRegisteredContainer handle).

(** [try { ... } catch(std::exception&) { MakeAnswer(error, answer, "invalid handle"); return; }] *)
Definition with_handle (cmd : Command) (sid : Z) (body : loc -> M server reply) : M server reply :=
  container ← try_catch (c ← handle_container cmd sid; mret (Some c)) (fun _ => mret None);
  match container with
  | None => answer_error (lit "invalid handle")
  | Some c => body c
  end.

(** [GetRegisteredContainer(handle, &containerName, &containerType)]: the
    container, its name and what is given as its type. *)
Definition GetRegisteredContainer_names (handle sid : Z) : M server (loc * bytes * bytes) :=
  c ← on_session sid (GetRegisteredContainer handle);
  s ← get;
  mret (c, GetName c s, GetName c s).

Section Handlers.
Variable regex : bytes -> res (bytes -> bool).
Variable print_double : bytes -> bytes.
Variable lexical_cast_double : bytes -> res bytes.

(** ** Connections and sessions *)

Definition OnCommand_Ping (cmd : Command) (sid : Z) : M server reply :=
  mret (MakeAnswer_range (params_ cmd) success (Some (lit "pong")), 0).

Definition OnCommand_Version (cmd : Command) (sid : Z) : M server reply :=
  mret (MakeAnswer success (Some (lit "0.1")), 0).

Definition OnCommand_Auth (cmd : Command) (sid : Z) : M server reply :=
  if negb (CheckParameterCount cmd 3 exact_) then invalid_parameter_count
  else
    let token := param cmd 0 in
    let password := param cmd 2 in
    if negb (bool_decide (param cmd 1 = lit "clean")) then answer_error (lit "unsupported password type")
    else
      try_catch (
        s ← get;
        '(_, value, _) ← on_manager (ContainerManager.call (users s) (GetRecord (String token) None (Some None_) None));
        same ← lift (operator_eq (String password) (default None_ value));
        if (same : bool) then _ ← on_session sid (AddToken token); answer_ok
        else answer_error (lit "invalid password"))
        (fun _ => answer_error (lit "error validating password")).

(** [for (auto i = sessions_.begin(); ...)] *)
Fixpoint invalidate_others (sid : Z) (l : list Z) : M server unit :=
  match l with
  | [] => mret tt
  | id :: l =>
      _ ← (if id =? sid then mret tt else on_session id InvalidateConnection);
      invalidate_others sid l
  end.

Definition set_paused (b : bool) (s : server) : server :=
  mk_server (containerManager_ s) (sessions_ s) (subscriptions s) (next_subscription s) (subscribers_ s)
    (eventQueue_ s) (localEventQueue s) (interestedSubscribers s) (groups_ s) (groupSubscriptions_ s) (lastSessionID_ s)
    (lastQueryID_ s) (auth_ s) (users s) (meta_sessions s) b.

Definition OnCommand_PauseResume (cmd : Command) (sid : Z) : M server reply :=
  if negb (CheckParameterCount cmd 0 exact_) then invalid_parameter_count
  else
    _ ← (if bool_decide (command_ cmd = lit "pause") then
           s ← get;
           _ ← invalidate_others sid (map_to_list (sessions_ s)).*1;
           modify (set_paused true)
         else if bool_decide (command_ cmd = lit "resume") then modify (set_paused false)
         else mret tt);
    answer_ok.

(** ** Containers *)

Definition OnCommand_CreateContainer_OpenContainer (cmd : Command) (sid : Z) : M server reply :=
  if negb (CheckParameterCount cmd 1 at_least) then invalid_parameter_count
  else
    let containerName := param cmd 0 in
    let containerType := param cmd 1 in
    let opened (m : M ContainerManager.t loc) : M server reply :=
      container ← on_manager m;
      handle ← on_session sid (RegisterContainer containerName container);
      s ← get;
      mret (MakeAnswer3 success (lit "handle") (print_nat handle) (GetType container s), 0) in
    answering (
      s ← get;
      if bool_decide (command_ cmd = lit "create") then
        if bool_decide (take 2 containerName = lit "__") then
          answer_error (lit "invalid name, names starting with __ are reserved for internal use")
        else
          let containerType := if bool_decide (containerType = []) then lit "volatile_list" else containerType in
          if negb (CheckCommandAccess (command_ cmd) sid s) then access_denied
          else opened (ContainerManager.CreateContainer containerType containerName)
      else if negb (CheckObjectAccess containerType containerName (command_ cmd) sid s) then access_denied
      else opened (ContainerManager.OpenContainer containerType containerName)).

Definition OnCommand_CloseContainer (cmd : Command) (sid : Z) : M server reply :=
  if negb (CheckParameterCount cmd 1 exact_) then invalid_parameter_count
  else
    try_catch (
      handle ← lift (lexical_cast_unsigned (param cmd 0));
      s ← get;
      _ ← on_session sid (CloseContainerHandle (fun c => GetName c s) handle);
      answer_ok)
      (fun _ => answer_error (lit "Invalid handle")).

Definition OnCommand_DeleteContainer (cmd : Command) (sid : Z) : M server reply :=
  if negb (CheckParameterCount cmd 2 exact_) then invalid_parameter_count
  else
    let containerType := param cmd 0 in
    let containerName := param cmd 1 in
    s ← get;
    if negb (CheckObjectAccess containerType containerName (command_ cmd) sid s) then access_denied
    else answering (_ ← on_manager (ContainerManager.DeleteContainer containerType containerName); answer_ok).

Definition OnCommand_ListHandles (cmd : Command) (sid : Z) : M server reply :=
  if negb (CheckParameterCount cmd 0 exact_) then invalid_parameter_count
  else answer_error (lit "not implemented").

Definition set_auth (a : Auth.t) : M server unit := modify (fun s => set_meta a (users s) (meta_sessions s) s).

Definition OnCommand_SetPermission (cmd : Command) (sid : Z) : M server reply :=
  if negb (CheckParameterCount cmd 4 exact_) && negb (CheckParameterCount cmd 5 exact_) then invalid_parameter_count
  else
    s ← get;
    let objectType := ContainerManager.ResolveAlias (param cmd 0) (containerManager_ s) in
    let objectName := param cmd 1 in
    let command := param cmd 2 in
    let allowOrDeny := param cmd 3 in
    let go (ruleResult : Auth.RuleResult) : M server reply :=
      exists_ ← on_manager (ContainerManager.Exists objectType objectName);
      if negb exists_ then answer_error (lit "no such object")
      else if Nat.eqb (length (params_ cmd)) 5 then
        _ ← set_auth (Auth.AddObjectRule objectType objectName command (param cmd 4) ruleResult (auth_ s)); answer_ok
      else if negb (bool_decide (command = lit "__default__")) then answer_error (lit "no user specified")
      else _ ← set_auth (Auth.SetObjectDefaultRule objectType objectName ruleResult (auth_ s)); answer_ok in
    if bool_decide (allowOrDeny = lit "allow") then go Auth.allow
    else if bool_decide (allowOrDeny = lit "deny") then go Auth.deny
    else answer_error (lit "invalid permission type").

(** ** Data *)

(** The container and the fields, or the size of the data that is missing. *)
Definition ParseDataCommand (cmd : Command) (sid : Z) : M server (loc * bytes * bytes * Z * outs) :=
  if negb (CheckParameterCount cmd 4 at_least) then throw (invalid_argument "Invalid parameter count")
  else
    '(container, containerName, containerType) ←
      try_catch (
        h ← lift (lexical_cast_unsigned (param cmd 0));
        GetRegisteredContainer_names h sid)
        (fun ex => match ex with
                   | bad_lexical_cast | invalid_argument _ => throw (invalid_argument "invalid handle")
                   | ex => throw ex
                   end);
    '(size, o) ← lift (ExtractFieldSet_data lexical_cast_double (drop 1 (params_ cmd)) (GetDataBuffer cmd)
                         (Some None_, Some None_, Some None_));
    mret (container, containerName, containerType, size, o).

Definition OnCommand_Pop (cmd : Command) (sid : Z) : M server reply :=
  answering (
    if negb (CheckParameterCount cmd 1 exact_) then invalid_parameter_count
    else
      _ ← lift (assert_ (bool_decide (command_ cmd ∈ [lit "pop_back"; lit "pop_front"])));
      h ← lift (lexical_cast_unsigned (param cmd 0));
      '(container, containerName, containerType) ← GetRegisteredContainer_names h sid;
      s ← get;
      if negb (CheckObjectAccess containerType containerName (command_ cmd) sid s) then access_denied
      else
        '(key, value, metadata) ←
          (if bool_decide (command_ cmd = lit "pop_back") then call container (PopBack (Some None_) (Some None_) (Some None_))
           else call container (PopFront (Some None_) (Some None_) (Some None_)));
        mret (MakeDataAnswer print_double (default None_ key) (default None_ value) (default None_ metadata), 0)).

(** Adds to an integer.  After the data the simple answer follows, too. *)
Definition OnModify (cmd : Command) (sid : Z) : M server reply :=
  answering (
    '(container, containerName, containerType, dataSize, (key, value, _)) ← ParseDataCommand cmd sid;
    s ← get;
    let key := default None_ key in
    let value := default None_ value in
    if negb (CheckObjectAccess containerType containerName (command_ cmd) sid s) then access_denied
    else if negb (dataSize =? 0) then mret ([], dataSize)
    else if negb (operator_bool key) || negb (operator_bool value) then answer_error (lit "need key and data")
    else
      small ← lift (if is_string value then Ok false else n ← GetSize value; Ok (n <? 2));
      if (small : bool) then answer_error (lit "invalid data")
      else
        sz ← lift (AsSz value);
        match sz with
        | [] => answer_error (lit "invalid operation")
        | b :: digits =>
          if negb (bool_decide (b = x2b)) then answer_error (lit "invalid operation")
          else
            toAdd ← lift (lexical_cast_int digits);
            '(_, currentData, _) ← call container (GetRecord key None (Some None_) None);
            match default None_ currentData with
            | Int i =>
                sum ← lift (add_int i toAdd);
                _ ← call container (Set_ key (Int sum) TIONULL);
                mret (MakeDataAnswer print_double TIONULL (Int sum) TIONULL ++ MakeAnswer success None, 0)
            | _ => answer_error (lit "modified data must be integer")
            end
        end).

(** The calls of [OnAnyDataCommand] that change a container; another word does
    nothing. *)
Definition text_change (command : bytes) (container : loc) (key value metadata : TioData) : M server unit :=
  let popped (f : M MemoryStorage.AnyStorage outs) : M server unit := _ ← call container f; mret tt in
  let o := (Some key, Some value, Some metadata) in
  if bool_decide (command = lit "insert") then call container (Insert key value metadata)
  else if bool_decide (command = lit "set") then call container (Set_ key value metadata)
  else if bool_decide (command = lit "pop_back") then popped (PopBack o.1.1 o.1.2 o.2)
  else if bool_decide (command = lit "pop_front") then popped (PopFront o.1.1 o.1.2 o.2)
  else if bool_decide (command = lit "push_back") then call container (PushBack key value metadata)
  else if bool_decide (command = lit "push_front") then call container (PushFront key value metadata)
  else if bool_decide (command = lit "delete") then call container (Delete key value metadata)
  else mret tt.

Definition OnAnyDataCommand (cmd : Command) (sid : Z) : M server reply :=
  answering (
    '(container, containerName, containerType, dataSize, (key, value, metadata)) ← ParseDataCommand cmd sid;
    s ← get;
    let key := default None_ key in
    let value := default None_ value in
    let metadata := default None_ metadata in
    if negb (CheckObjectAccess containerType containerName (command_ cmd) sid s) then access_denied
    else if negb (dataSize =? 0) then mret ([], dataSize)
    else if bool_decide (command_ cmd = lit "get") then
      '(realKey, value, metadata) ← call container (GetRecord key (Some None_) (Some value) (Some metadata));
      let realKey := default None_ realKey in
      mret (MakeDataAnswer print_double (if GetDataType realKey =? 0 then key else realKey) (default None_ value)
              (default None_ metadata), 0)
    else if bool_decide (command_ cmd = lit "set_property") then
      try_catch (
        k ← lift (AsSz key);
        v ← lift (AsSz value);
        _ ← on_manager (ContainerManager.SetProperty (Some container) k v);
        answer_ok)
        (fun _ => answer_error (lit "key and value must be strings"))
    else if bool_decide (command_ cmd = lit "get_property") then
      try_catch (
        k ← lift (AsSz key);
        propertyValue ← on_manager (ContainerManager.GetProperty (Some container) k);
        mret (MakeDataAnswer print_double key (String propertyValue) TIONULL, 0))
        (fun _ => answer_error (lit "invalid key"))
    else
      _ ← text_change (command_ cmd) container key value metadata;
      answer_ok).

(** These three call the container outside of any [try]. *)
Definition OnCommand_Clear (cmd : Command) (sid : Z) : M server reply :=
  if negb (CheckParameterCount cmd 1 exact_) then invalid_parameter_count
  else with_handle cmd sid (fun container => _ ← call container Clear; answer_ok).

Definition OnCommand_GetRecordCount (cmd : Command) (sid : Z) : M server reply :=
  if negb (CheckParameterCount cmd 1 exact_) then invalid_parameter_count
  else with_handle cmd sid (fun container =>
    count ← call container GetRecordCount;
    mret (MakeAnswer2 success (lit "count") (print_nat count), 0)).

(** The words after the handle, joined by spaces. *)
Definition join_words (ws : list bytes) : bytes := removelast (concat ((fun w => w ++ lit " ") <$> ws)).

Definition OnCommand_CustomCommand (cmd : Command) (sid : Z) : M server reply :=
  if negb (CheckParameterCount cmd 2 at_least) then invalid_parameter_count
  else with_handle cmd sid (fun container =>
    result ← call container (Containers.Command (join_words (drop 1 (params_ cmd))));
    mret (MakeAnswer success (Some result), 0)).

(** ** Queries *)

(** The two arguments of [SendTextResultSet] are evaluated in the order in which
    they are written. *)
Definition OnCommand_Query (cmd : Command) (sid : Z) : M server reply :=
  if negb (CheckParameterCount cmd 1 at_least) then invalid_parameter_count
  else with_handle cmd sid (fun container =>
    let number (n : nat) : res Z := match params_ cmd !! n with Some p => lexical_cast_int p | None => Ok 0 end in
    match start ← number 1%nat; end_ ← number 2%nat; Ok (start, end_) with
    | Throw _ => answer_error (lit "invalid parameter")
    | Ok (start, end_) =>
        answering (
          resultSet ← call container (Query start end_ None_);
          queryID ← CreateNewQueryId;
          _ ← on_session sid (SendTextResultSet print_double resultSet queryID);
          mret ([], 0))
    end).

(** The loop over the records: at most [maxRecords] are sent. *)
Fixpoint send_matches (sid queryID : Z) (e : bytes -> bool) (items : list item) (a maxRecords : Z) : M server unit :=
  match items with
  | [] => mret tt
  | (key, value, metadata) :: items =>
      if maxRecords <=? a then mret tt
      else match key with
      | String k =>
          if e (c_str k) then
            _ ← on_session sid (SendTextResultSetItem print_double queryID key value metadata);
            send_matches sid queryID e items (a + 1) maxRecords
          else send_matches sid queryID e items a maxRecords
      | _ => send_matches sid queryID e items a maxRecords
      end
  end.

Definition OnCommand_QueryEx (cmd : Command) (sid : Z) : M server reply :=
  if negb (CheckParameterCount cmd 2 at_least) then invalid_parameter_count
  else with_handle cmd sid (fun container =>
    match (match params_ cmd !! 2%nat with Some p => lexical_cast_unsigned p | None => Ok 0xFFFFFFFF end) with
    | Throw _ => answer_error (lit "invalid record limit parameter")
    | Ok maxRecords =>
        e ← lift (regex (param cmd 1));
        resultSet ← call container (Query 0 0 None_);
        queryId ← CreateNewQueryId;
        _ ← on_session sid (SendTextResultSetStart queryId);
        _ ← send_matches sid queryId e (remaining resultSet) 0 maxRecords;
        _ ← on_session sid (SendTextResultSetEnd queryId);
        mret ([], 0)
    end).

(** ** Subscriptions and groups *)

Definition OnCommand_SubscribeUnsubscribe (cmd : Command) (sid : Z) : M server reply :=
  if negb (CheckParameterCount cmd 1 exact_) && negb (CheckParameterCount cmd 2 exact_) && negb (CheckParameterCount cmd 3 exact_)
  then invalid_parameter_count
  else match lexical_cast_unsigned (param cmd 0) with
  | Throw _ => answer_error (lit "invalid handle")
  | Ok handle =>
      answering (
        '(container, containerName, containerType) ← GetRegisteredContainer_names handle sid;
        s ← get;
        if negb (CheckObjectAccess containerType containerName (command_ cmd) sid s) then access_denied
        else
          let start := if bool_decide (param cmd 1 = lit "__none__") then [] else param cmd 1 in
          filterEnd ← lift (match params_ cmd !! 2%nat with Some p => lexical_cast_int p | None => Ok (-1) end);
          if bool_decide (command_ cmd = lit "subscribe") then
            _ ← SessionAsyncSubscribe (new_subscription_info [] container handle sid start); answer_ok
          else if bool_decide (command_ cmd = lit "unsubscribe") then
            _ ← on_session sid (Unsubscribe handle); answer_ok
          else throw (Fault AssertFail))
  end.

Definition OnCommand_GroupAdd (cmd : Command) (sid : Z) : M server reply :=
  if negb (CheckParameterCount cmd 2 exact_) then invalid_parameter_count
  else
    let groupName := param cmd 0 in
    let containerName := param cmd 1 in
    answering (
      container ← on_manager (ContainerManager.OpenContainer [] containerName);
      _ ← AddContainer groupName container;
      _ ← on_session sid (SendAnswer GenerateSimpleOkAnswer);
      s ← get;
      let subscribed := default [] (groupSubscriptions_ s !! groupName) in
      _ ← modify (set_groups (groups_ s) (<[groupName := subscribed]> (groupSubscriptions_ s)));
      _ ← subscribe_sessions groupName containerName container subscribed;
      mret ([], 0)).

(** [for(auto& p : containers)], with the containers' own names. *)
Fixpoint subscribe_group (groupName : bytes) (sid : Z) (l : list (bytes * loc)) : M server unit :=
  match l with
  | [] => mret tt
  | (_, container) :: l =>
      s ← get;
      handle ← on_session sid (RegisterNewGroupContainer groupName (GetName container s) container);
      _ ← SessionAsyncSubscribe (new_subscription_info groupName container handle sid (lit "0"));
      subscribe_group groupName sid l
  end.

Definition OnCommand_GroupSubscribe (cmd : Command) (sid : Z) : M server reply :=
  if negb (CheckParameterCount cmd 1 exact_) && negb (CheckParameterCount cmd 2 exact_) then invalid_parameter_count
  else if Nat.eqb (length (params_ cmd)) 2 then answer_error (lit "start parameters not supported")
  else
    let groupName := param cmd 0 in
    answering (
      s ← get;
      let containers := GetGroupContainers groupName s in
      _ ← modify (set_groups (groups_ s)
            (<[groupName := default [] (groupSubscriptions_ s !! groupName) ++ [sid]]> (groupSubscriptions_ s)));
      _ ← on_session sid (SendAnswer GenerateSimpleOkAnswer);
      _ ← subscribe_group groupName sid containers;
      mret ([], 0)).

(** ** Dispatch *)

Definition handler := Command -> Z -> M server (bytes * Z).

Definition dispatchMap_ : list (bytes * handler) := [
  (lit "ping", OnCommand_Ping); (lit "ver", OnCommand_Version);
  (lit "create", OnCommand_CreateContainer_OpenContainer); (lit "open", OnCommand_CreateContainer_OpenContainer);
  (lit "close", OnCommand_CloseContainer); (lit "delete_container", OnCommand_DeleteContainer);
  (lit "list_handles", OnCommand_ListHandles);
  (lit "push_back", OnAnyDataCommand); (lit "push_front", OnAnyDataCommand);
  (lit "pop_back", OnCommand_Pop); (lit "pop_front", OnCommand_Pop);
  (lit "modify", OnModify);
  (lit "set", OnAnyDataCommand); (lit "insert", OnAnyDataCommand); (lit "delete", OnAnyDataCommand);
  (lit "clear", OnCommand_Clear);
  (lit "get_property", OnAnyDataCommand); (lit "set_property", OnAnyDataCommand);
  (lit "get", OnAnyDataCommand); (lit "get_count", OnCommand_GetRecordCount);
  (lit "subscribe", OnCommand_SubscribeUnsubscribe); (lit "unsubscribe", OnCommand_SubscribeUnsubscribe);
  (lit "command", OnCommand_CustomCommand); (lit "auth", OnCommand_Auth);
  (lit "pause", OnCommand_PauseResume); (lit "resume", OnCommand_PauseResume);
  (lit "set_permission", OnCommand_SetPermission);
  (lit "query", OnCommand_Query); (lit "queryex", OnCommand_QueryEx);
  (lit "group_add", OnCommand_GroupAdd); (lit "group_subscribe", OnCommand_GroupSubscribe)
].

(** [dispatchMap_.find] *)
Fixpoint lookup_handler (command : bytes) (l : list (bytes * handler)) : option handler :=
  match l with
  | [] => None
  | (w, h) :: l => if bool_decide (w = command) then Some h else lookup_handler command l
  end.

(** The handlers are not supposed to throw, which is asserted; the containers a
    handler held are released when it returns. *)
Definition OnTextCommand (cmd : Command) (sid : Z) : M server reply :=
  match lookup_handler (command_ cmd) dispatchMap_ with
  | Some f => try_catch (end_scope (f cmd sid)) (fun _ => throw (Fault AssertFail))
  | None => answer_error (lit "invalid command")
  end.

(** What holds of every handler. *)
Lemma lookup_handler_all (q : handler -> Prop) w f l : lookup_handler w l = Some f -> Forall (fun p => q p.2) l -> q f.
Proof.
  intros H Hl. induction Hl as [|[x g] l Hg Hl IH]; [done|]. cbn [lookup_handler] in H.
  case_bool_decide; [by injection H as <-|by apply IH].
Qed.

End Handlers.

(** The handlers, opened for a proof about all of them. *)
Ltac open_handlers :=
  unfold OnCommand_Ping, OnCommand_Version, OnCommand_CreateContainer_OpenContainer, OnCommand_CloseContainer,
    OnCommand_DeleteContainer, OnCommand_ListHandles, OnAnyDataCommand, OnCommand_Pop, OnModify, OnCommand_Clear,
    OnCommand_GetRecordCount, OnCommand_SubscribeUnsubscribe, OnCommand_CustomCommand, OnCommand_Auth,
    OnCommand_PauseResume, OnCommand_SetPermission, OnCommand_Query, OnCommand_QueryEx, OnCommand_GroupAdd,
    OnCommand_GroupSubscribe, answering, invalid_parameter_count, access_denied.

End TextCommands.
