(* ===== verification/Http.v ===== *)
(** * HTTP: [server/tio/HttpParser.h], [TioTcpServer.cpp], [TioTcpSession.cpp]

    A connection whose first line ends in [HTTP/1.1] is one HTTP request: its
    bytes go through [HttpParser], the server answers with the contents of the
    container the path names, and the connection is closed when the answer has
    been written.  [http_parser] is a library: [http_parser_execute] gives the
    callbacks it makes for some bytes, with its next state.  [to_string_double]
    and [now] are the C++ library's.  In the literals a backquote stands for a
    double quote. *)
From S2P Require Import Prelude Decimal StdMap TioDataS Containers MapStorage MemoryStorage ContainerManager Session Server.

Module Http.
Import Decimal StdMap TioData Containers Session Server.

#[local] Existing Instance MemoryStorage.any_storage.

Definition quoted (s : string) : bytes := (fun b => if decide (b = x60) then x22 else b) <$> lit s.

(** ** The parser *)

Record HTTP_MESSAGE := { method : bytes; url : bytes; headers : gmap bytes bytes }.

Definition no_message : HTTP_MESSAGE := {| method := []; url := []; headers := ∅ |}.

(** [parser_.method] *)
Inductive http_method := HTTP_GET | HTTP_POST | HTTP_DELETE | HTTP_PATCH | HTTP_OTHER.

(** A callback of the library. *)
Inductive http_callback :=
| on_message_begin
| on_url (str : bytes)
| on_header_field (str : bytes)
| on_header_value (str : bytes)
| on_message_complete (m : http_method).

Section Parser.
Context {P : Type} (http_parser_init : P) (http_parser_execute : P -> bytes -> P * list http_callback)
  (http_errno : P -> bool).

Record HttpParser := { parser_ : P; finished_ : bool; nextHeaderName_ : bytes; currentMessage_ : HTTP_MESSAGE }.

(** [Reset], which the constructor calls. *)
Definition Reset : HttpParser :=
  {| parser_ := http_parser_init; finished_ := false; nextHeaderName_ := []; currentMessage_ := no_message |}.

Definition with_message (m : HTTP_MESSAGE) (h : HttpParser) : HttpParser :=
  {| parser_ := parser_ h; finished_ := finished_ h; nextHeaderName_ := nextHeaderName_ h; currentMessage_ := m |}.

Definition SetNextHeaderName (str : bytes) (h : HttpParser) : HttpParser :=
  {| parser_ := parser_ h; finished_ := finished_ h; nextHeaderName_ := str; currentMessage_ := currentMessage_ h |}.

Definition SetUrl (str : bytes) (h : HttpParser) : HttpParser :=
  let m := currentMessage_ h in
  with_message {| method := method m; url := str; headers := headers m |} h.

Definition SetNextHeaderValue (str : bytes) (h : HttpParser) : HttpParser :=
  let m := currentMessage_ h in
  with_message {| method := method m; url := url m; headers := <[nextHeaderName_ h := str]> (headers m) |} h.

Definition OnMessageComplete (method_ : http_method) (h : HttpParser) : HttpParser :=
  let m := currentMessage_ h in
  {| parser_ := parser_ h; finished_ := true; nextHeaderName_ := nextHeaderName_ h;
     currentMessage_ := {| method := match method_ with
                                     | HTTP_GET => lit "GET" | HTTP_POST => lit "POST" | HTTP_DELETE => lit "DELETE"
                                     | HTTP_PATCH => lit "PATCH" | HTTP_OTHER => method m end;
                           url := url m; headers := headers m |} |}.

Definition run_callback (h : HttpParser) (c : http_callback) : HttpParser :=
  match c with
  | on_message_begin => h
  | on_url str => SetUrl str h
  | on_header_field str => SetNextHeaderName str h
  | on_header_value str => SetNextHeaderValue str h
  | on_message_complete m => OnMessageComplete m h
  end.

(** Returns whether the message is complete. *)
Definition FeedBytes (data : bytes) (h : HttpParser) : res (bool * HttpParser) :=
  _ ← assert_ (negb (finished_ h));
  let '(p, callbacks) := http_parser_execute (parser_ h) data in
  let h := fold_left run_callback callbacks
             {| parser_ := p; finished_ := finished_ h; nextHeaderName_ := nextHeaderName_ h;
                currentMessage_ := currentMessage_ h |} in
  Ok (finished_ h, h).

Definition parser_error (h : HttpParser) : bool := http_errno (parser_ h).

End Parser.

Arguments HttpParser P : clear implicits.

(** ** Responses *)

Definition HttpGetStatusMessage (status : Z) : bytes :=
  if status =? 200 then lit "OK"
  else if status =? 404 then lit "Not Found"
  else if status =? 400 then lit "Bad Request"
  else if status =? 500 then lit "Internal Server Error"
  else lit "Nevermind".

Definition http_response (statusCode : Z) (statusMessage mimeType body : bytes) : bytes :=
  (lit "HTTP/1.1 " ++ print_int statusCode ++ lit " " ++ statusMessage ++ crlf) ++
  (lit "Server: tiodb" ++ crlf) ++
  (lit "Content-Type: " ++ mimeType ++ crlf) ++
  (lit "Connection: close" ++ crlf) ++
  (lit "Content-Length: " ++ print_nat (Z.of_nat (length body)) ++ crlf) ++
  crlf ++ body.

(** The write is started at once; when it completes the connection is closed
    ([http_written]). *)
Definition SendHttpResponseAndClose (statusCode : Z) (statusMessage mimeType body : bytes) : M session unit :=
  async_write (http_response statusCode statusMessage mimeType body).

Definition http_written : M session unit := InvalidateConnection.

Definition SendHttpResponse (status : Z) (message : bytes) : M session unit :=
  SendHttpResponseAndClose status (HttpGetStatusMessage status) (lit "text/plain") message.

Record TIO_HTTP_RESPONSE := { status : Z; mimeType : bytes; body : bytes }.

Definition HTML_HEADER : bytes := quoted "
<!DOCTYPE html>
<html lang=`en`>
 <head>
 <link rel=`stylesheet` href=`https://maxcdn.bootstrapcdn.com/bootstrap/3.3.7/css/bootstrap.min.css` integrity=`sha384-BVYiiSIFeK1dGmJRAkycuHAHRg32OmUcww7on3RYdg4Va+PmSTsz/K68vbdEjh4u` crossorigin=`anonymous`>
 <script src=`https://maxcdn.bootstrapcdn.com/bootstrap/3.3.7/js/bootstrap.min.js` integrity=`sha384-Tc5IQib027qvyjSMfHjOMaLkfuWVxZxUPnCJA7l2mCWNIpG9mGCD8wGNIcPD7Txa` crossorigin=`anonymous`></script>
 <meta name=`viewport` content=`width=device-width, initial-scale=1`>
</head><body><div class=`container-fluid`>
		".

Definition HTML_FOOTER : bytes := quoted "
	</div></body></html>
		".

(** [str.find(sub) != string::npos] *)
Fixpoint contains_sub (sub str : bytes) : bool :=
  bool_decide (take (length sub) str = sub) ||
  match str with [] => false | _ :: str => contains_sub sub str end.

Section Http.
Variable to_string_double : bytes -> bytes.

(** [AsString] of a value. *)
Definition text (t : TioData) : bytes := match AsString to_string_double t with Ok b => b | Throw _ => [] end.

Definition json_record (i : item) : bytes :=
  let '(k, v, m) := i in
  quoted "{`key`:`" ++ text k ++ quoted "`,`value`:`" ++ text v ++ quoted "`,`metadata`:`" ++ text m ++ quoted "`},".

Definition json_body (name type : bytes) (items : list item) : bytes :=
  let body :=
    quoted "{`_meta`:{" ++ quoted "`container_name`:" ++ quoted "`" ++ name ++ quoted "`" ++ lit "," ++
    quoted "`container_type`:" ++ quoted "`" ++ type ++ quoted "`" ++ lit "}" ++ lit "," ++
    quoted "`value`:[" ++ concat (json_record <$> items) in
  (* the last comma is removed *)
  removelast body ++ lit "]}".

Definition html_row (i : item) : bytes :=
  let '(k, v, m) := i in
  lit "<tr>" ++ lit "<td>" ++ text k ++ lit "</td><td>" ++ text v ++ lit "</td><td>" ++ text m ++ lit "</td></tr>".

Definition html_body (name : bytes) (items : list item) : bytes :=
  HTML_HEADER ++ quoted "
				<div class=`row`>
				  <div class=`col-sm-4`>" ++
  lit "<h4>" ++ name ++ lit "</h4>" ++ quoted "
                    <table class=`table table-bordered`>
					  <thead>
						<tr><td>key</td><td>value</td><td>metadata</td></tr>
					  </thead>
					<tbody>
			" ++
  concat (html_row <$> items) ++
  lit "</tbody></table></div></div>" ++ HTML_FOOTER.

(** [container->GetName()] and [GetType()] of a pointer that may be null. *)
Definition container_names (container : option loc) : M server (bytes * bytes) :=
  s ← get;
  match container with
  | None => throw (Fault NullDeref)
  | Some c => mret (GetName c s, GetType c s)
  end.

Definition CreateContainerHttpResponse (headers : gmap bytes bytes) (container : option loc) : M server TIO_HTTP_RESPONSE :=
  let accept := headers !! lit "Accept" in
  if match accept with
     | None => true
     | Some a => contains_sub (lit "application/json") a || bool_decide (a = lit "*/*")
     end
  then
    '(name, type) ← container_names container;
    resultSet ← on_manager (ContainerManager.call container (Query 0 0 None_));
    mret {| status := 200; mimeType := lit "application/json"; body := json_body name type (remaining resultSet) |}
  else if match accept with Some a => contains_sub (lit "text/html") a | None => false end then
    '(name, _) ← container_names container;
    resultSet ← on_manager (ContainerManager.call container (Query 0 0 None_));
    mret {| status := 200; mimeType := lit "text/html"; body := html_body name (remaining resultSet) |}
  else mret {| status := 400; mimeType := []; body := [] |}.

(** The path without its first slash. *)
Definition normalized_path (url : bytes) : bytes :=
  match url with [] => [] | b :: rest => if decide (b = x2f) then rest else url end.

(** Only a [std::runtime_error] of [OpenContainer] is answered with 404; the
    request goes on after that, with no container. *)
Definition OnHttpCommand (now : Z) (httpMessage : HTTP_MESSAGE) (sid : Z) : M server unit :=
  let normalizedPath := normalized_path (url httpMessage) in
  try_catch (end_scope (
    if bool_decide (method httpMessage = lit "GET") then
      if bool_decide (normalizedPath = []) then
        on_session sid (SendHttpResponseAndClose 200 (lit "OK") (lit "text/plain")
          (lit "hello from tiodb. unix time=" ++ print_int now))
      else
        container ← try_catch (
          c ← on_manager (ContainerManager.OpenContainer [] normalizedPath); mret (Some c))
          (fun ex => match ex with
                     | runtime_error _ =>
                         _ ← on_session sid (SendHttpResponse 404 (lit "container not found")); mret None
                     | ex => throw ex
                     end);
        response ← CreateContainerHttpResponse (headers httpMessage) container;
        on_session sid (SendHttpResponseAndClose (status response) (HttpGetStatusMessage (status response))
          (mimeType response) (body response))
    else on_session sid (SendHttpResponse 400 (lit "Bad Request"))))
    (fun ex =>
       _ ← on_session sid (SendHttpResponse 400 (lit "Bad Request"));
       on_session sid (SendHttpResponse 500 (lit "Internal Server Error : " ++ what ex))).

End Http.

End Http.
