(* ===== verification/TextSession.v ===== *)
(** * Reading text: [server/tio/TioTcpSession.cpp]

    Until a session goes binary its bytes are lines of commands, each perhaps
    followed by data, or one HTTP request.  The members of a session that only
    reading uses, [currentCommand_] and [buf_], are kept beside the server by
    session id, with what the pending read waits for.  Bytes that arrive are
    appended to [buf_] ([arrive]); a read that has what it waits for runs its
    callback ([resume]), and [pump] runs callbacks as long as one can. *)
From S2P Require Import Prelude Decimal StdMap TioDataS Containers MapStorage MemoryStorage Auth TextProtocol ContainerManager Session Server TextCommands Http.

Module TextSession.
Import TextProtocol Session Server Http.

(** ** State *)

Section Reading.
Context {P : Type} (http_parser_init : P) (http_parser_execute : P -> bytes -> P * list http_callback)
  (http_errno : P -> bool).
Context (regex : bytes -> res (bytes -> bool)) (print_double to_string_double : bytes -> bytes)
  (lexical_cast_double : bytes -> res bytes) (now : Z).

(** The read that is pending: for a line, for the data of the current command,
    for the rest of an HTTP request; the reads of the binary protocol; none. *)
Inductive reading := ReadLine | ReadData (dataSize : Z) | ReadHttp (httpParser : HttpParser P) | ReadBinary | ReadNothing.

Record reader := { currentCommand_ : TextCommands.Command; buf_ : bytes; pending : reading }.

Definition new_reader : reader := {| currentCommand_ := TextCommands.no_command; buf_ := []; pending := ReadLine |}.

Definition set_buf (b : bytes) (r : reader) : reader := {| currentCommand_ := currentCommand_ r; buf_ := b; pending := pending r |}.
Definition set_command (c : TextCommands.Command) (r : reader) : reader := {| currentCommand_ := c; buf_ := buf_ r; pending := pending r |}.
Definition set_reading (p : reading) (r : reader) : reader := {| currentCommand_ := currentCommand_ r; buf_ := buf_ r; pending := p |}.

(** The server with the reader of the session at hand. *)
Notation S := (server * reader)%type.

Definition on_server {A} (m : M server A) : M S A := fun s => let '(r, x) := m s.1 in (r, (x, s.2)).
Definition on_reader (f : reader -> reader) : M S unit := fun s => (Ok tt, (s.1, f s.2)).

(** ** Lines *)

(** [getline]: the bytes before the first line feed, and those after it. *)
Fixpoint getline (b : bytes) : option (bytes * bytes) :=
  match b with
  | [] => None
  | c :: b => if decide (c = x0a) then Some ([], b) else '(line, rest) ← getline b; Some (c :: line, rest)
  end.

Definition ReadCommand : M S unit :=
  _ ← on_reader (set_command TextCommands.no_command); on_reader (set_reading ReadLine).

Definition OnReadHttpCommand (sid : Z) (httpParser : HttpParser P) : M S unit :=
  s ← get;
  '(haveAFullMessage, httpParser) ← lift (FeedBytes http_parser_execute (buf_ s.2) httpParser);
  _ ← on_reader (set_buf []);
  if parser_error http_errno httpParser then
    _ ← on_server (on_session sid InvalidateConnection); on_reader (set_reading ReadNothing)
  else if negb haveAFullMessage then on_reader (set_reading (ReadHttp httpParser))
  else
    _ ← on_server (OnHttpCommand to_string_double now (currentMessage_ httpParser) sid);
    on_reader (set_reading ReadNothing).

Definition ReadHttpCommand (sid : Z) (httpParser : HttpParser P) : M S unit :=
  s ← get;
  if negb (bool_decide (buf_ s.2 = [])) then OnReadHttpCommand sid httpParser
  else on_reader (set_reading (ReadHttp httpParser)).

Definition MAX_DATA_SIZE : Z := 256 * 1024 * 1024.

(** The command is given to the server; its answer, if any, is sent.  Returns the
    size of the data the command asks for. *)
Definition serve_command (sid : Z) (cmd : TextCommands.Command) : M server Z :=
  '(answer, moreDataSize) ← TextCommands.OnTextCommand regex print_double lexical_cast_double cmd sid;
  _ ← (if negb (moreDataSize =? 0) then lift (assert_ (moreDataSize <? MAX_DATA_SIZE)) else mret tt);
  _ ← (if bool_decide (answer = []) then mret tt else on_session sid (SendAnswer answer));
  mret moreDataSize.

(** A line, without its line feed.  One without bytes is skipped. *)
Definition on_line (sid : Z) (str : bytes) (current : TextCommands.Command) : M S unit :=
  if bool_decide (str = []) then ReadCommand
  else
    let str := strip_cr str in
    _ ← lift (assert_ (bool_decide (TextCommands.command_ current = [])));
    cmd ← lift (TextCommands.Parse (c_str str) current);
    _ ← on_reader (set_command cmd);
    if bool_decide (TextCommands.command_ cmd = lit "protocol") && bool_decide (TextCommands.params_ cmd = [lit "binary"])
    then _ ← on_server (go_binary sid); on_reader (set_reading ReadBinary)
    else if negb (bool_decide (TextCommands.command_ cmd = lit "protocol")) && TextCommands.isHttp_ cmd then
      '(_, httpParser) ← lift (FeedBytes http_parser_execute str (Reset http_parser_init));
      '(_, httpParser) ← lift (FeedBytes http_parser_execute Session.crlf httpParser);
      ReadHttpCommand sid httpParser
    else
      moreDataSize ← on_server (serve_command sid cmd);
      if negb (moreDataSize =? 0) then on_reader (set_reading (ReadData moreDataSize))
      else ReadCommand.

(** The callback of the read of a line. *)
Definition OnReadCommand (sid : Z) : M S unit :=
  s ← get;
  match getline (buf_ s.2) with
  | None => throw (Fault EndDeref)
  | Some (str, rest) => _ ← on_reader (set_buf rest); on_line sid str (currentCommand_ s.2)
  end.

(** The data of a command.  The command asks for nothing more, and there is an
    answer: both are asserted. *)
Definition on_data (sid : Z) (cmd : TextCommands.Command) : M S unit :=
  '(answer, moreDataSize) ← on_server (TextCommands.OnTextCommand regex print_double lexical_cast_double cmd sid);
  _ ← lift (assert_ (moreDataSize =? 0));
  _ ← lift (assert_ (negb (bool_decide (answer = []))));
  _ ← on_server (on_session sid (SendAnswer answer));
  ReadCommand.

(** The callback of the read of data. *)
Definition OnCommandData (sid dataSize : Z) : M S unit :=
  s ← get;
  _ ← lift (assert_ (dataSize <=? Z.of_nat (length (buf_ s.2))));
  let data := take (Z.to_nat dataSize) (buf_ s.2) in
  let cmd := TextCommands.SetDataBuffer data (currentCommand_ s.2) in
  _ ← on_reader (set_command cmd);
  _ ← on_reader (set_buf (drop (Z.to_nat dataSize) (buf_ s.2)));
  on_data sid cmd.

(** ** Bytes that arrive *)

Definition arrive (b : bytes) (r : reader) : reader := set_buf (buf_ r ++ b) r.

(** Whether the pending read of text has what it waits for.  The read for the rest
    of an HTTP request has no completion condition: it ends when [buf_], which has
    no limit, is full, or with the connection. *)
Definition ready (r : reader) : bool :=
  match pending r with
  | ReadLine => match getline (buf_ r) with Some _ => true | None => false end
  | ReadData n => n <=? Z.of_nat (length (buf_ r))
  | ReadHttp _ | ReadBinary | ReadNothing => false
  end.

Definition resume (sid : Z) : M S unit :=
  s ← get;
  match pending s.2 with
  | ReadLine => OnReadCommand sid
  | ReadData n => OnCommandData sid n
  | ReadHttp _ | ReadBinary | ReadNothing => mret tt
  end.

Fixpoint pump (fuel : nat) (sid : Z) : M S unit :=
  match fuel with
  | O => mret tt
  | Datatypes.S fuel =>
      s ← get;
      if ready s.2 then _ ← resume sid; pump fuel sid else mret tt
  end.

(** Every callback takes a byte at least. *)
Definition read_all (sid : Z) : M S unit := s ← get; pump (length (buf_ s.2)) sid.

(** Some bytes arrive for the session. *)
Definition receive (sid : Z) (b : bytes) : M S unit := _ ← on_reader (arrive b); read_all sid.

End Reading.

End TextSession.
