(* ===== verification/ServerSafety.v ===== *)
(** * Calls that keep the server in order

    The invariant of the server ([wf]): each container pointer that a handle, a
    group, a subscription or the server itself holds leads to a container object,
    and that one to a storage; each subscriber of a storage is a subscription to a
    container of that storage.  For every function of the server: it keeps the
    invariant and follows no bad pointer ([safe]). *)
From S2P Require Import Prelude Decimal StdMap StreamBuffer Pr1Message TioDataC Protocol TioDataS Containers ListStorage MapStorage VectorStorage MemoryStorage Auth ContainerManager SessionMessages Session Sound Server.

Module ServerSafety.
Import StdMap Pr1 Protocol TioData Containers SessionMessages Session Sound Server.

#[local] Existing Instances MemoryStorage.any_storage MapStorage.map_storage.

(** ** Who holds a container *)

Inductive holds (s : server) (c : loc) : Prop :=
| holds_handle sid x h : sessions_ s !! sid = Some x -> handles_ x !! h = Some c -> holds s c
| holds_group g i : groups_ s !! g = Some i -> c = containerListContainer i -> holds s c
| holds_member g i n : groups_ s !! g = Some i -> (n, c) ∈ containersMap i -> holds s c
| holds_subscription n i : subscriptions s !! n = Some i -> c = si_container i -> holds s c
| holds_users : users s = Some c -> holds s c
| holds_sessions : meta_sessions s = Some c -> holds s c
| holds_catalogue : ContainerManager.meta_containers_ (containerManager_ s) = Some c -> holds s c
| holds_types : ContainerManager.meta_availableTypes_ (containerManager_ s) = Some c -> holds s c.

Lemma elem_of_option_list {A} (o : option A) x : o = Some x -> x ∈ option_list o.
Proof. intros ->. apply list_elem_of_here. Qed.

Lemma holds_owned s c : holds s c -> c ∈ owned s.
Proof.
  unfold owned, handle_containers, group_containers. rewrite !elem_of_app.
  intros [sid x h Hx Hh|g i Hg ->|g i n Hg Hn|n i Hn ->|H|H|H|H]; rewrite <- ?elem_of_map_to_list in *.
  - left. apply list_elem_of_bind. exists (sid, x). split; [|done]. apply list_elem_of_fmap. by exists (h, c).
  - right; left. apply list_elem_of_bind. exists (g, i). split; [|done]. apply list_elem_of_here.
  - right; left. apply list_elem_of_bind. exists (g, i). split; [|done]. apply list_elem_of_further, list_elem_of_fmap.
    by exists (n, c).
  - do 2 right; left. apply list_elem_of_fmap. exists i. split; [done|]. apply list_elem_of_fmap. by exists (n, i).
  - do 3 right; left. by apply elem_of_option_list.
  - do 4 right; left. by apply elem_of_option_list.
  - do 5 right; left. by apply elem_of_option_list.
  - do 6 right. by apply elem_of_option_list.
Qed.

(** ** The invariant *)

(** A subscription to a container of storage [l]. *)
Definition subscribes (s : server) (l n : loc) : Prop :=
  exists i, subscriptions s !! n = Some i /\ ContainerManager.storage_of (si_container i) (containerManager_ s) = Some l.

Record wf (s : server) : Prop := {
  wf_manager : ContainerManager.wf (containerManager_ s);
  wf_live : forall c, holds s c -> is_Some (ContainerManager.live (containerManager_ s) !! c);
  wf_subscribers : forall l ns n, subscribers_ s !! l = Some ns -> n ∈ ns -> subscribes s l n;
  wf_interested : forall e ns n, interestedSubscribers s = Some (e, ns) -> n ∈ ns -> subscribes s (storageId e) n;
  wf_next : forall n, is_Some (subscriptions s !! n) -> (n < next_subscription s)%nat
}.

(** Container pointers a function holds in its variables. *)
Definition alive (m : ContainerManager.t) (cs : list loc) : Prop :=
  forall c, c ∈ cs -> is_Some (ContainerManager.live m !! c).

(** The containers of users and sessions, which are made once and for all. *)
Definition fixtures (s : server) : option loc * option loc := (users s, meta_sessions s).

Section Safe.
Context (boot : option loc * option loc).

Definition connected (sids : list Z) (s : server) : Prop :=
  (forall sid, sid ∈ sids -> is_Some (sessions_ s !! sid)) /\ fixtures s = boot.

(** The sessions and containers a function holds. *)
Definition held (sids : list Z) (cs : list loc) (s : server) : Prop :=
  connected sids s /\ alive (containerManager_ s) cs.

Lemma held_fixtures sids cs s : held sids cs s -> users s = boot.1 /\ meta_sessions s = boot.2.
Proof. intros [ [_ E] _]. by rewrite <- E. Qed.

(** ** Calls that keep it *)

(** A call, of a function that holds [sids] and [cs], keeps the invariant and what
    is held, also when it throws; it follows no bad pointer, and the container
    pointers [Q] of its result are good. *)
Definition safe_at {A} (sids : list Z) (cs : list loc) (m : M server A) (Q : A -> list loc) (s : server) : Prop :=
  wf s -> held sids cs s ->
  wf (m s).2 /\ held sids cs (m s).2 /\ sound (m s).1 /\
  forall a, (m s).1 = Ok a -> alive (containerManager_ (m s).2) (Q a).

Definition safe {A} (sids : list Z) (cs : list loc) (m : M server A) (Q : A -> list loc) : Prop :=
  forall s, safe_at sids cs m Q s.

Definition no_pointer {A} (a : A) : list loc := [].

Lemma alive_nil m : alive m [].
Proof. intros c H. by apply not_elem_of_nil in H. Qed.

Lemma held_cons sids cs ds s : held sids cs s -> alive (containerManager_ s) ds -> held sids (ds ++ cs) s.
Proof. intros [H1 H2] H3. split; [done|]. intros c [H|H]%elem_of_app; auto. Qed.

Lemma held_weaken sids cs ds s : held sids (ds ++ cs) s -> held sids cs s.
Proof. intros [H1 H2]. split; [done|]. intros c H. apply H2, elem_of_app. by right. Qed.

Lemma safe_at_bind {A B} sids cs (m : M server A) (f : A -> M server B) Q R s :
  safe_at sids cs m Q s -> (forall a, safe sids (Q a ++ cs) (f a) R) -> safe_at sids cs (m ≫= f) R s.
Proof.
  intros Hm Hf Hwf Hh. destruct (Hm Hwf Hh) as (H1 & H2 & H3 & H4). unfold mbind, M_bind.
  destruct (m s) as [ [a|e] s']; simpl in *; [|done].
  destruct (Hf a s' H1) as (H5 & H6 & H7 & H8); [by apply held_cons, H4|].
  split; [done|]. split; [by eapply held_weaken|done].
Qed.

Lemma safe_bind {A B} sids cs (m : M server A) (f : A -> M server B) Q R :
  safe sids cs m Q -> (forall a, safe sids (Q a ++ cs) (f a) R) -> safe sids cs (m ≫= f) R.
Proof. intros Hm Hf s. by eapply safe_at_bind. Qed.

(** A call that returns no pointer. *)
Lemma safe_then {A B} sids cs (m : M server A) (f : A -> M server B) R :
  safe sids cs m no_pointer -> (forall a, safe sids cs (f a) R) -> safe sids cs (m ≫= f) R.
Proof. intros Hm Hf. by eapply safe_bind. Qed.

Lemma safe_get {B} sids cs (f : server -> M server B) R :
  (forall s, wf s -> held sids cs s -> safe_at sids cs (f s) R s) -> safe sids cs (get ≫= f) R.
Proof. intros H s Hwf Hh. rewrite bind_get. by apply H. Qed.

Lemma safe_lift {A} sids cs (r : res A) : sound r -> safe sids cs (lift r) no_pointer.
Proof. intros H s Hwf Hh. do 3 (split; [done|]). intros a _. apply alive_nil. Qed.

Lemma safe_ret {A} sids cs (a : A) Q : (forall c, c ∈ Q a -> c ∈ cs) -> safe sids cs (mret a) Q.
Proof. intros H s Hwf Hh. do 3 (split; [done|]). intros b [= <-] c Hc. by apply Hh, H. Qed.

Lemma safe_lift_then {A B} sids cs (r : res A) (f : A -> M server B) R :
  sound r -> (forall a, r = Ok a -> safe sids cs (f a) R) -> safe sids cs (lift r ≫= f) R.
Proof.
  intros Hr Hf s Hwf Hh. destruct r as [a|e]; [by apply (Hf a eq_refl)|]. do 3 (split; [done|]). done.
Qed.

Lemma safe_try {A} sids cs (m : M server A) h Q s :
  safe_at sids cs m Q s -> (forall e, safe sids cs (h e) Q) -> safe_at sids cs (try_catch m h) Q s.
Proof.
  intros Hm Hh Hwf Hd. destruct (Hm Hwf Hd) as (H1 & H2 & H3 & H4). unfold try_catch.
  destruct (m s) as [ [a|e] s']; simpl in *; [done|]. destruct e; try apply (Hh _ s' H1 H2). by simpl in *.
Qed.

Lemma safe_weaken {A} sids cs (m : M server A) Q : safe sids cs m Q -> safe sids cs m no_pointer.
Proof. intros H s Hwf Hh. destruct (H s Hwf Hh) as (H1 & H2 & H3 & _). do 3 (split; [done|]). intros a _. apply alive_nil. Qed.

(** *** Calls into the container manager *)

(** The manager afterwards: all containers that were there are there. *)
Record extends (m m' : ContainerManager.t) : Prop := {
  ext_wf : ContainerManager.wf m';
  ext_live : ContainerManager.live m ⊆ ContainerManager.live m';
  ext_meta : ContainerManager.meta_containers_ m' = ContainerManager.meta_containers_ m;
  ext_types : ContainerManager.meta_availableTypes_ m' = ContainerManager.meta_availableTypes_ m
}.

Lemma extends_same m m' :
  ContainerManager.wf m' -> ContainerManager.live m' = ContainerManager.live m ->
  ContainerManager.meta_containers_ m' = ContainerManager.meta_containers_ m ->
  ContainerManager.meta_availableTypes_ m' = ContainerManager.meta_availableTypes_ m -> extends m m'.
Proof. intros Hwf Hl H1 H2. split; [done|by rewrite Hl|done|done]. Qed.

Lemma extends_alive m m' cs : extends m m' -> alive m cs -> alive m' cs.
Proof. intros H Ha c Hc. destruct (Ha c Hc) as [o Ho]. exists o. by eapply lookup_weaken, ext_live. Qed.

Lemma extends_storage m m' c l :
  extends m m' -> ContainerManager.storage_of c m = Some l -> ContainerManager.storage_of c m' = Some l.
Proof.
  intros H (o & Ho & Hl)%bind_Some. unfold ContainerManager.storage_of.
  by rewrite (lookup_weaken _ _ _ _ Ho (ext_live _ _ H)).
Qed.

(** The events only lengthen the queue. *)
Lemma events_queue es : forall s, exists q,
  fold_left (fun s p => OnAnyContainerEvent p.1 p.2 s) es s =
    set_queues q (localEventQueue s) (interestedSubscribers s) s.
Proof.
  induction es as [|[l e] es IH]; intros s; simpl; [exists (eventQueue_ s); by destruct s|].
  unfold OnAnyContainerEvent at 2. simpl. destruct (subscribers_ s !! l); [|apply IH].
  destruct (IH (set_queues (eventQueue_ s ++ [ {| storageId := l; eventInfo := e |} ]) (localEventQueue s)
    (interestedSubscribers s) s)) as [q E]. exists q. by rewrite E.
Qed.

Lemma holds_frame s s' c :
  sessions_ s' = sessions_ s -> groups_ s' = groups_ s -> subscriptions s' = subscriptions s -> users s' = users s ->
  meta_sessions s' = meta_sessions s ->
  ContainerManager.meta_containers_ (containerManager_ s') = ContainerManager.meta_containers_ (containerManager_ s) ->
  ContainerManager.meta_availableTypes_ (containerManager_ s') = ContainerManager.meta_availableTypes_ (containerManager_ s) ->
  holds s' c -> holds s c.
Proof.
  intros E1 E2 E3 E4 E5 E6 E7 [sid x h H1 H2|g i H1 H2|g i n H1 H2|n i H1 H2|H|H|H|H];
    rewrite ?E1, ?E2, ?E3, ?E4, ?E5, ?E6, ?E7 in *; eauto using holds.
Qed.

Lemma wf_extend s m' q :
  wf s -> extends (containerManager_ s) m' ->
  wf (set_queues q (localEventQueue s) (interestedSubscribers s) (set_manager m' s)).
Proof.
  intros [W1 W2 W3 W4 W5] He. split; simpl; try done.
  - apply He.
  - intros c Hc. apply (extends_alive _ _ [c] He); [|apply list_elem_of_here]. intros d Hd.
    apply list_elem_of_singleton in Hd as ->. apply W2. apply (holds_frame s) in Hc; try done; apply He.
  - intros l ns n H1 H2. destruct (W3 l ns n H1 H2) as (i & Hi & Hs). exists i. split; [done|]. by eapply extends_storage.
  - intros e ns n H1 H2. destruct (W4 e ns n H1 H2) as (i & Hi & Hs). exists i. split; [done|]. by eapply extends_storage.
Qed.

Lemma wf_set_queue s q : wf s -> wf (set_queues q (localEventQueue s) (interestedSubscribers s) s).
Proof.
  intros Hwf. pose proof (wf_extend s (containerManager_ s) q Hwf) as H. apply H. apply extends_same; [|done..].
  by apply wf_manager.
Qed.

Definition manager_safe {A} (cs : list loc) (m : M ContainerManager.t A) (Q : A -> list loc) : Prop :=
  forall c, ContainerManager.wf c -> alive c cs ->
    extends c (m c).2 /\ sound (m c).1 /\ forall a, (m c).1 = Ok a -> alive (m c).2 (Q a).

Lemma safe_manager {A} sids cs (m : M ContainerManager.t A) Q :
  manager_safe cs m Q -> safe sids cs (on_manager m) Q.
Proof.
  intros Hm s Hwf [H1 H2]. destruct (Hm (containerManager_ s) (wf_manager s Hwf) H2) as (He & Hs & Hq).
  unfold on_manager. destruct (m (containerManager_ s)) as [r c]. simpl in *.
  destruct (events_queue (drop (length (ContainerManager.events (containerManager_ s))) (ContainerManager.events c))
    (set_manager c s)) as [q ->]. split; [exact (wf_extend s c q Hwf He)|]. split; [|done]. split; [done|]. by eapply extends_alive.
Qed.

(** Storage operations the server calls. *)
Definition handled {A} (f : M MemoryStorage.AnyStorage A) : Prop :=
  forall a, ContainerManager.storage_ok a ->
    sound (f a).1 /\ ContainerManager.storage_ok (f a).2 /\ MemoryStorage.any_header (f a).2 = MemoryStorage.any_header a.

Lemma handled_op o : handled (run_op o).
Proof. intros a Ha. split; [apply clean_any|]. by apply ContainerManager.run_op_keeps. Qed.

(** The answer of a [run_op] is thrown away. *)
Lemma handled_then {A} (f : M MemoryStorage.AnyStorage A) : handled (_ ← f; mret tt) -> handled f.
Proof.
  intros H a Ha. specialize (H a Ha). unfold mbind, M_bind in H. by destruct (f a) as [ [x|e] a'].
Qed.

Lemma handled_count : handled GetRecordCount.
Proof.
  intros a [Hl Hs]. destruct a as [s|s|s]; simpl in *;
    unfold VectorStorage.GetRecordCount, MapStorage.GetRecordCount, ListStorage.GetRecordCount;
    try (erewrite with_lock_ok; [|done|reflexivity]; simpl; rewrite unlock by done); done.
Qed.

(** Calls that leave the container objects as they are. *)
Definition steady {A} (m : M ContainerManager.t A) : Prop := forall c,
  ContainerManager.live (m c).2 = ContainerManager.live c /\
  ContainerManager.next_container (m c).2 = ContainerManager.next_container c /\
  ContainerManager.meta_containers_ (m c).2 = ContainerManager.meta_containers_ c /\
  ContainerManager.meta_availableTypes_ (m c).2 = ContainerManager.meta_availableTypes_ c.

Lemma steady_bind {A B} (m : M ContainerManager.t A) (f : A -> M ContainerManager.t B) :
  steady m -> (forall a, steady (f a)) -> steady (m ≫= f).
Proof.
  intros Hm Hf c. destruct (Hm c) as (H1 & H2 & H3 & H4). unfold mbind, M_bind.
  destruct (m c) as [ [a|e] c']; simpl in *; [|done]. destruct (Hf a c') as (H5 & H6 & H7 & H8).
  repeat split; congruence.
Qed.

Lemma steady_same {A} (m : M ContainerManager.t A) : (forall c, (m c).2 = c) -> steady m.
Proof. intros H c. by rewrite H. Qed.

Lemma steady_on_memory {A} (m : M MemoryStorage.MemoryStorageManager A) : steady (ContainerManager.on_memory m).
Proof. intros c. unfold ContainerManager.on_memory. by destruct (m (ContainerManager.memory c)). Qed.

Lemma steady_call {A} p (f : M MemoryStorage.AnyStorage A) : steady (ContainerManager.call p f).
Proof.
  intros c. unfold ContainerManager.call. destruct p as [p|]; [|done].
  destruct (ContainerManager.live c !! p) as [o|]; [|done]. by destruct (MemoryStorage.call _ _ _).
Qed.

Lemma manager_call {A} c cs (f : M MemoryStorage.AnyStorage A) :
  c ∈ cs -> handled f -> manager_safe cs (ContainerManager.call (Some c) f) no_pointer.
Proof.
  intros Hc Hf m Hwf Ha. destruct (ContainerManager.live_storage m c Hwf (Ha c Hc)) as (l & a & Hl & Hat & Hok & _).
  destruct (Hf a Hok) as (F1 & F2 & F3). destruct (f a) as [r a'] eqn:E. cbn [fst snd] in *.
  destruct (ContainerManager.call_frame m c l a f r a' Hwf Hl Hat E F3 F2) as (m' & Em & Hwf' & _).
  destruct (steady_call (Some c) f m) as (S1 & _ & S2 & S3). rewrite Em in S1, S2, S3 |- *. cbn [fst snd] in *.
  split; [by apply extends_same|]. split; [done|]. intros x _. apply alive_nil.
Qed.

Lemma steady_get_manager ty : steady (ContainerManager.GetStorageManagerByType ty).
Proof. apply steady_same. intros c. unfold ContainerManager.GetStorageManagerByType. rewrite bind_get. cbn zeta. by case_match. Qed.

Create HintDb steady.
#[local] Hint Resolve steady_on_memory steady_call steady_get_manager : steady.

Ltac solve_steady :=
  repeat match goal with
  | |- steady (_ ≫= _) => apply steady_bind; [|intros]
  | |- steady (match _ with _ => _ end) => case_match
  | |- steady _ => first [solve [auto with steady | by apply steady_same] | fail 1]
  end.

(** Creating or opening makes at most one container. *)
Lemma create_extends c type op n :
  ContainerManager.wf c ->
  let c' := (ContainerManager.CreateOrOpen type op n c).2 in
  ContainerManager.live c ⊆ ContainerManager.live c' /\
  ContainerManager.meta_containers_ c' = ContainerManager.meta_containers_ c /\
  ContainerManager.meta_availableTypes_ c' = ContainerManager.meta_availableTypes_ c.
Proof.
  intros Hwf. unfold ContainerManager.CreateOrOpen. rewrite bind_get. cbn zeta.
  destruct (ContainerManager.open_container n c) as [x|]; [done|].
  set (head := match op with ContainerManager.create => _ | _ => _ end).
  assert (Hst : steady head) by (subst head; destruct op; solve_steady).
  destruct (Hst c) as (H1 & H2 & H3 & H4). destruct (head c) as [ [p|e] c1] eqn:Eh; cbn [snd] in *.
  - rewrite (bind_ok _ _ _ _ _ Eh). split; [|done].
    change (ContainerManager.live c ⊆ <[ContainerManager.next_container c1 := {| ContainerManager.storage_ := p.1;
      ContainerManager.propertyMap_ := p.2 |}]> (ContainerManager.live c1)). rewrite H1, H2. apply insert_subseteq.
    destruct (ContainerManager.live c !! ContainerManager.next_container c) as [o|] eqn:E; [|done].
    destruct (ContainerManager.wf_live c Hwf _ _ E) as [H _]. lia.
  - rewrite (bind_throw _ _ _ _ _ Eh). cbn [snd]. by rewrite H1, H3, H4.
Qed.

Lemma manager_create cs type op n :
  manager_safe cs (ContainerManager.CreateOrOpen type op n) (fun c => [c]).
Proof.
  intros c Hwf Ha. destruct (create_extends c type op n Hwf) as (H1 & H2 & H3).
  pose proof (ContainerManager.create_or_open_agrees c (ContainerManager.abstract c) type op n Hwf
    (ContainerManager.abstract_represents c)) as H. unfold ContainerManager.agrees in H.
  destruct (ContainerManager.r_create_or_open _ _ _ _ _) as [ [l r']|].
  - destruct H as (x & c' & E & Hs & Hwf' & _). rewrite E in H1, H2, H3 |- *. cbn [fst snd] in *. split; [by split|]. split; [done|].
    intros a [= <-] d Hd. apply list_elem_of_singleton in Hd as ->. by eapply ContainerManager.live_of_storage.
  - destruct H as (e & E & He). rewrite E. simpl. split; [by split|]. split; [|done].
    destruct e; try done. by destruct (He f).
Qed.

(** Reading a property changes nothing. *)
Lemma clean_special k ms : sound (MapStorage.GetSpecial k ms).1.
Proof.
  assert (H : clean (MapStorage.GetSpecial k)) by (unfold MapStorage.GetSpecial; solve_clean). apply H.
Qed.

Lemma special_keeps k ms : locked ms = false -> (MapStorage.GetSpecial k ms).2 = ms.
Proof.
  intros Hl. unfold MapStorage.GetSpecial. case_match; [done|]. unfold with_lock. rewrite Hl, bind_get. cbn [data_ set_locked].
  destruct (data_ ms); simpl; by apply unlock.
Qed.

Lemma property_keeps l key a pm m :
  MemoryStorage.storages (MemoryStorage.objects m) !! l = Some a ->
  MemoryStorage.propertyMaps (MemoryStorage.objects m) !! l = Some pm ->
  MemoryStorage.specialPropertiesMap_ pm = MemoryStorage.special_of l a -> MemoryStorage.any_locked a = false ->
  (MemoryStorage.GetProperty l key m).2 = m /\ sound (MemoryStorage.GetProperty l key m).1.
Proof.
  intros H4 H5 H6 H7. split.
  - unfold MemoryStorage.GetProperty. rewrite bind_get, H5. cbn zeta. rewrite H6.
    destruct a as [s|s|s]; simpl; try by destruct (find key _).
    destruct (MemoryStorage.is_special key); [|by destruct (find key _)]. rewrite H4.
    pose proof (special_keeps key s H7) as Hs. destruct (MapStorage.GetSpecial key s) as [r s']. simpl in Hs. subst s'.
    unfold mbind, M_bind, MemoryStorage.call, lift. rewrite H4. by apply MemoryStorage.set_objects_id.
  - rewrite (MemoryStorage.property_read l key a pm m) by done.
    destruct (MemoryStorage.specialPropertiesMap_ pm), (MemoryStorage.is_special key), a;
      try apply clean_special; by destruct (find key _).
Qed.

Lemma manager_get_property c cs k : c ∈ cs -> manager_safe cs (ContainerManager.GetProperty (Some c) k) no_pointer.
Proof.
  intros Hc m Hwf Ha. destruct (ContainerManager.live_storage m c Hwf (Ha c Hc)) as (l & a & _ & Hat & [Hl _] & Ho).
  destruct (ContainerManager.wf_heap m Hwf l a Hat) as (_ & _ & pm & Hpm & Hsp).
  unfold ContainerManager.GetProperty, ContainerManager.with_properties. rewrite Ho. cbn [ContainerManager.propertyMap_].
  destruct (property_keeps l k a pm _ Hat Hpm Hsp Hl) as [H1 H2]. unfold ContainerManager.on_memory.
  destruct (MemoryStorage.GetProperty l k _) as [r x]. cbn [fst snd] in *. subst x.
  rewrite ContainerManager.set_memory_id. split; [by apply extends_same|]. split; [done|]. intros x _. apply alive_nil.
Qed.

Lemma manager_set_property c cs k v : c ∈ cs -> manager_safe cs (ContainerManager.SetProperty (Some c) k v) no_pointer.
Proof.
  intros Hc m Hwf Ha. destruct (ContainerManager.live_storage m c Hwf (Ha c Hc)) as (l & a & _ & Hat & _ & Ho).
  destruct (ContainerManager.wf_heap m Hwf l a Hat) as (_ & _ & pm & Hpm & _).
  assert (Hw : ContainerManager.wf (ContainerManager.SetProperty (Some c) k v m).2).
  { eapply ContainerManager.wf_set_property_c; [exact Hwf|]. apply surjective_pairing. }
  revert Hw. unfold ContainerManager.SetProperty, ContainerManager.with_properties. rewrite Ho.
  cbn [ContainerManager.propertyMap_]. unfold ContainerManager.on_memory, MemoryStorage.SetProperty. rewrite bind_get, Hpm.
  intros Hw. split; [by apply extends_same|]. split; [done|]. intros x _. apply alive_nil.
Qed.

(** *** Calls on a session *)

(** New handles are for containers the function holds. *)
Definition session_safe {A} (cs : list loc) (m : M session A) (Q : A -> list loc) : Prop := forall x,
  sound (m x).1 /\
  (forall h c, handles_ (m x).2 !! h = Some c -> (exists h', handles_ x !! h' = Some c) \/ c ∈ cs) /\
  forall a, (m x).1 = Ok a -> forall c, c ∈ Q a -> (exists h, handles_ x !! h = Some c) \/ c ∈ cs.

Lemma session_quiet {A} cs (m : M session A) : quiet m -> session_safe cs m no_pointer.
Proof.
  intros H x. destruct (H x) as [H1 H2]. split; [done|]. split; [eauto|]. intros a _ c Hc. by apply not_elem_of_nil in Hc.
Qed.

Lemma session_register cs n c : c ∈ cs -> session_safe cs (RegisterContainer n c) no_pointer.
Proof.
  intros Hc x. unfold RegisterContainer. rewrite bind_get.
  destruct (containerNameToHandle_ x !! n) as [h|]; [split; [done|]; split; [eauto|]; intros a _ d Hd; by apply not_elem_of_nil in Hd|].
  split; [done|]. split; [|intros a _ d Hd; by apply not_elem_of_nil in Hd]. intros h d.
  cbn zeta. destruct (handles_ x !! u32 (lastHandle_ x + 1)) eqn:E; simpl; [eauto|].
  intros [ [_ <-]|[_ H] ]%lookup_insert_Some; eauto.
Qed.

Lemma session_get_registered cs h : session_safe cs (GetRegisteredContainer h) (fun c => [c]).
Proof.
  intros x. unfold GetRegisteredContainer. rewrite bind_get. destruct (handles_ x !! u32 h) as [c|] eqn:E;
    [|split; [done|]; split; [eauto|done] ].
  split; [done|]. split; [eauto|]. intros a [= <-] d Hd. apply list_elem_of_singleton in Hd as ->. eauto.
Qed.

Lemma safe_session_at {A} sids cs sid (m : M session A) Q s :
  is_Some (sessions_ s !! sid) -> session_safe cs m Q -> safe_at sids cs (on_session sid m) Q s.
Proof.
  intros [x Hx] Hm [W1 W2 W3 W4 W5] [H1 H2]. destruct (Hm x) as (M1 & M2 & M3). unfold on_session. rewrite Hx.
  destruct (m x) as [r x']. cbn [fst snd] in *. split.
  - split; simpl; try done. intros c [sid' y h Hy Hh|g i Hg ->|g i n Hg Hn|n i Hn ->|H|H|H|H]; simpl in *;
      try (by apply W2; eauto using holds).
    apply lookup_insert_Some in Hy as [ [<- <-]|[_ Hy] ]; [|apply W2; eauto using holds].
    destruct (M2 h c Hh) as [ [h' Hh']|Hc]; [apply W2; eauto using holds|by apply H2].
  - split; [split; [|done]|].
    + destruct H1 as [H1 H3]. split; [|done]. intros sid' Hs. simpl. rewrite lookup_insert. case_decide; [done|auto].
    + split; [done|]. intros a Ha c Hc. destruct (M3 a Ha c Hc) as [ [h Hh]|Hc']; [|by apply H2].
      apply W2. eauto using holds.
Qed.

Lemma safe_session {A} sids cs sid (m : M session A) Q :
  sid ∈ sids -> session_safe cs m Q -> safe sids cs (on_session sid m) Q.
Proof. intros Hs Hm s Hwf Hh. apply safe_session_at; try done. by apply Hh. Qed.

(** *** Changes of the server's own state *)

(** A change that touches neither sessions nor containers, and gives out only
    pointers the function holds. *)
Lemma safe_modify sids cs (g : server -> server) s :
  sessions_ (g s) = sessions_ s -> fixtures (g s) = fixtures s -> containerManager_ (g s) = containerManager_ s ->
  (wf s -> alive (containerManager_ s) cs -> wf (g s)) -> safe_at sids cs (modify g) no_pointer s.
Proof.
  intros E1 E2 E3 Hg Hwf [ [H0 H1] H2]. split; [by apply Hg|]. split; [|split; [done|intros a _; apply alive_nil] ].
  split; [split|]; simpl; [by rewrite E1|by rewrite E2|by rewrite E3].
Qed.

Lemma wf_set_ids x y s : wf s -> wf (set_ids x y s).
Proof. intros [W1 W2 W3 W4 W5]. split; try done. intros c Hc. apply W2. by apply (holds_frame s) in Hc. Qed.

Lemma wf_set_groups g x cs s :
  wf s -> alive (containerManager_ s) cs ->
  (forall n i c, g !! n = Some i -> c = containerListContainer i \/ c ∈ (containersMap i).*2 -> c ∈ cs \/ holds s c) ->
  wf (set_groups g x s).
Proof.
  intros [W1 W2 W3 W4 W5] Ha Hg. split; try done.
  intros c [sid y h Hy Hh|n i Hn H|n i m Hn H|n i Hn H|H|H|H|H]; simpl in *; try (by apply W2; eauto using holds).
  - destruct (Hg n i c Hn) as [H'|H']; auto.
  - destruct (Hg n i c Hn) as [H'|H']; auto. right. apply list_elem_of_fmap. by exists (m, c).
Qed.

Lemma group_alive s n i :
  wf s -> groups_ s !! n = Some i ->
  alive (containerManager_ s) (containerListContainer i :: (containersMap i).*2).
Proof.
  intros Hwf Hn c [->|Hc]%elem_of_cons; apply (wf_live s Hwf); [eauto using holds|].
  apply list_elem_of_fmap in Hc as ([m d] & -> & Hm). eauto using holds.
Qed.

Lemma wf_add_subscription s i l :
  wf s -> ContainerManager.storage_of (si_container i) (containerManager_ s) = Some l ->
  wf (set_subscriptions (<[next_subscription s := i]> (subscriptions s)) (S (next_subscription s))
       (<[l := default [] (subscribers_ s !! l) ++ [next_subscription s]]> (subscribers_ s)) s).
Proof.
  intros [W1 W2 W3 W4 W5] Hl.
  assert (Hold : forall l' n, subscribes s l' n -> subscribes (set_subscriptions (<[next_subscription s := i]> (subscriptions s))
    (S (next_subscription s)) (<[l := default [] (subscribers_ s !! l) ++ [next_subscription s]]> (subscribers_ s)) s) l' n).
  { intros l' n (j & Hj & Hs). exists j. split; [|done]. simpl. rewrite lookup_insert_ne; [done|]. intros Hn.
    pose proof (W5 n ltac:(by eexists)). lia. }
  split; simpl; try done.
  - intros c [sid y h Hy Hh|n j Hn H|n j m Hn H|n j Hn H|H|H|H|H]; simpl in *; try (by apply W2; eauto using holds).
    apply lookup_insert_Some in Hn as [ [_ <-]|[_ Hn] ]; [|apply W2; eauto using holds].
    subst c. by eapply ContainerManager.live_of_storage.
  - intros l' ns n Hns Hin. apply lookup_insert_Some in Hns as [ [<- <-]|[_ Hns] ]; [|by eapply Hold, W3].
    apply elem_of_app in Hin as [Hin|Hin]; [|].
    + destruct (subscribers_ s !! l) as [ns|] eqn:El; [|by apply not_elem_of_nil in Hin]. by eapply Hold, W3.
    + apply list_elem_of_singleton in Hin as ->. exists i. split; [apply lookup_insert_eq|done].
  - intros e ns n He Hin. by eapply Hold, W4.
  - intros n. rewrite lookup_insert. case_decide; [lia|]. intros H'. pose proof (W5 n H'). lia.
Qed.

Lemma safe_async_subscribe sids cs i : si_container i ∈ cs -> safe sids cs (SessionAsyncSubscribe i) no_pointer.
Proof.
  intros Hi. unfold SessionAsyncSubscribe. apply safe_get. intros s Hwf Hh.
  destruct (ContainerManager.live_storage (containerManager_ s) (si_container i) (wf_manager s Hwf)) as (l & a & Hl & _).
  { by apply Hh. }
  rewrite Hl. set (q := eventQueue_ s ++ _). rewrite <- (app_nil_l cs). intros _ _. rewrite bind_modify.
  set (s1 := set_queues q (localEventQueue s) (interestedSubscribers s) s).
  assert (Hwf1 : wf s1) by by apply wf_set_queue.
  split; [exact (wf_add_subscription s1 i l Hwf1 Hl)|]. split; [done|]. split; [done|]. intros a' _. apply alive_nil.
Qed.

Lemma safe_at_weaken {A} sids cs (m : M server A) Q s : safe sids cs m Q -> safe_at sids cs m Q s.
Proof. auto. Qed.

(** Pointers read from the state. *)
Lemma safe_at_read {A} sids cs ds (m : M server A) Q s :
  (wf s -> alive (containerManager_ s) ds) -> safe_at sids (ds ++ cs) m Q s -> safe_at sids cs m Q s.
Proof.
  intros Hd Hm Hwf Hh. destruct (Hm Hwf) as (H1 & H2 & H3); [by apply held_cons, Hd|].
  split; [done|]. split; [by eapply held_weaken|done].
Qed.

(** A session found in the state. *)
Lemma held_locked sids cs sid s : is_Some (sessions_ s !! sid) -> held sids cs s -> held (sid :: sids) cs s.
Proof. intros Hs [ [H0 H1] H2]. split; [|done]. split; [|done]. intros x [->|Hx]%elem_of_cons; auto. Qed.

Lemma held_unlocked sids cs sid s : held (sid :: sids) cs s -> held sids cs s.
Proof. intros [ [H0 H1] H2]. split; [|done]. split; [|done]. intros x Hx. apply H0. by apply list_elem_of_further. Qed.

Lemma safe_at_locked {A} sids cs sid (m : M server A) Q s :
  is_Some (sessions_ s !! sid) -> safe_at (sid :: sids) cs m Q s -> safe_at sids cs m Q s.
Proof.
  intros Hs Hm Hwf Hh. destruct (Hm Hwf) as (H3 & H4 & H5); [by apply held_locked|].
  split; [done|]. split; [by eapply held_unlocked|done].
Qed.

(** *** Groups *)

Definition group_pointers (g : GroupInfo) : list loc := containerListContainer g :: (containersMap g).*2.

Lemma safe_get_group sids cs n : safe sids cs (GetGroup n) group_pointers.
Proof.
  unfold GetGroup. apply safe_get. intros s Hwf Hh. destruct (groups_ s !! n) as [g|] eqn:Eg.
  - intros _ _. do 3 (split; [done|]). intros a [= <-]. by eapply group_alive.
  - eapply safe_at_bind; [apply safe_manager, manager_create|]. intros c. cbn zeta. apply safe_get. intros s1 Hwf1 Hh1.
    apply safe_at_bind with (Q := no_pointer); [|intros ?; apply safe_ret; set_solver].
    apply safe_modify; [done..|]. intros _ Ha. apply (wf_set_groups _ _ ([c] ++ cs)); [done|done|].
    intros m i d [ [_ <-]|[_ Hi] ]%lookup_insert_Some Hd; simpl in Hd.
    + left. destruct Hd as [->|Hd]; [set_solver|by apply not_elem_of_nil in Hd].
    + right. destruct Hd as [->|([k e] & -> & Hd)%list_elem_of_fmap]; eauto using holds.
Qed.

Lemma elem_of_assign {V} k (v : V) m x : x ∈ (assign_at k v m).*2 -> x = v \/ x ∈ m.*2.
Proof.
  induction m as [|[k' v'] m IH]; simpl; [set_solver|]. repeat case_match; simpl; set_solver.
Qed.

Lemma safe_add_container sids cs n c : c ∈ cs -> safe sids cs (AddContainer n c) no_pointer.
Proof.
  intros Hc. unfold AddContainer. eapply safe_bind; [apply safe_get_group|]. intros g. apply safe_get. intros s Hwf Hh.
  cbn zeta. destruct (find _ _); [apply safe_at_weaken, safe_ret; set_solver|].
  apply safe_modify; [done..|]. intros _ Ha. apply (wf_set_groups _ _ (group_pointers g ++ cs)); [done|done|].
  intros m i d [ [_ <-]|[_ Hi] ]%lookup_insert_Some Hd; simpl in Hd.
  + left. unfold group_pointers. destruct Hd as [->|Hd%elem_of_assign]; set_solver.
  + right. destruct Hd as [->|([k e] & -> & Hd)%list_elem_of_fmap]; eauto using holds.
Qed.

Lemma safe_subscribe_sessions g n c sids cs : c ∈ cs -> forall l, safe sids cs (subscribe_sessions g n c l) no_pointer.
Proof.
  intros Hc. induction l as [|sid l IH]; cbn [subscribe_sessions]; [apply safe_ret; set_solver|].
  apply safe_get. intros s Hwf Hh. apply safe_at_bind with (Q := no_pointer); [|intros ?; apply IH].
  destruct (sessions_ s !! sid) as [x|] eqn:Ex; [|apply safe_at_weaken, safe_ret; set_solver].
  destruct (negb (valid_ x)); [apply safe_at_weaken, safe_ret; set_solver|].
  eapply safe_at_bind; [apply safe_session_at; [by eexists|by apply session_register]|].
  intros h. by apply safe_async_subscribe.
Qed.

Lemma safe_subscribe_containers g st sid sids cs : sid ∈ sids -> forall l,
  (forall c, c ∈ l.*2 -> c ∈ cs) -> safe sids cs (subscribe_containers g st sid l) no_pointer.
Proof.
  intros Hs. induction l as [|[n c] l IH]; intros Hl; cbn [subscribe_containers]; [apply safe_ret; set_solver|].
  assert (c ∈ cs) by (apply Hl; set_solver).
  eapply safe_bind; [apply safe_session; [done|by apply session_register]|]. intros h.
  eapply safe_bind; [by apply safe_async_subscribe|]. intros ?. apply IH. intros d Hd. apply Hl. set_solver.
Qed.

Lemma group_containers_alive g s : wf s -> alive (containerManager_ s) (GetGroupContainers g s).*2.
Proof.
  intros Hwf c. unfold GetGroupContainers. destruct (groups_ s !! g) as [i|] eqn:E; [|by intros H%not_elem_of_nil].
  intros Hc. apply (group_alive s g i Hwf E). set_solver.
Qed.

(** ** The commands *)

Section Commands.
Context (sid : Z) (message : PR1_MESSAGE) (sids : list Z).
Hypotheses (Hsid : sid ∈ sids) (Hparsed : is_parsed message).

Lemma safe_send {A} cs (m : M session A) : quiet m -> safe sids cs (on_session sid m) no_pointer.
Proof. intros H. by apply safe_session, session_quiet. Qed.

Lemma safe_missing cs d : safe sids cs (missing sid d) no_pointer.
Proof. apply safe_send, quiet_error_answer. Qed.

Lemma safe_container cs k v md :
  safe sids cs (GetContainerAndParametersFromRequest sid message k v md) (fun p => [p.1]).
Proof.
  unfold GetContainerAndParametersFromRequest. apply safe_then; [apply safe_lift; by apply sound_get_all|]. intros [h o].
  apply safe_then; [apply safe_lift; by destruct (h =? 0)|]. intros _.
  eapply safe_bind; [apply safe_session; [done|apply session_get_registered]|]. intros c. apply safe_ret. set_solver.
Qed.

Lemma safe_call {A} c cs (f : M MemoryStorage.AnyStorage A) : c ∈ cs -> handled f -> safe sids cs (call c f) no_pointer.
Proof. intros. by apply safe_manager, manager_call. Qed.

(** A step that returns no pointer; a step whose result is a message's field. *)
Ltac step :=
  first
    [ apply safe_then; [apply safe_lift; solve [solve_sound]|intros ?]
    | apply safe_then; [apply safe_send; solve [solve_quiet]|intros ?]
    | eapply safe_bind; [apply safe_container|intros [? [ [? ?] ?] ] ] ].

Ltac send := apply safe_send; solve [solve_quiet].

Lemma safe_ping cs : safe sids cs (on_ping sid message) no_pointer.
Proof. unfold on_ping. step. case_match; [|apply safe_missing]. unfold Pr1CreateMessage. step. send. Qed.

Lemma safe_open_create cs command : safe sids cs (on_open_create command sid message) no_pointer.
Proof.
  unfold on_open_create. step. case_match; [|apply safe_missing]. step. case_match; [apply safe_missing|].
  eapply safe_bind; [apply safe_manager; case_match; apply manager_create|]. intros c.
  eapply safe_bind; [apply safe_session; [done|apply session_register; set_solver]|]. intros h. unfold Pr1CreateMessage.
  step. send.
Qed.

Lemma safe_close cs : safe sids cs (on_close sid message) no_pointer.
Proof.
  unfold on_close. step. case_match; [|apply safe_missing]. apply safe_get. intros s Hwf Hh.
  apply safe_at_bind with (Q := no_pointer); [apply safe_at_weaken; send|]. intros ?. send.
Qed.

Lemma handled_get k : handled (GetRecord k (Some None_) (Some None_) (Some None_)).
Proof. apply handled_then, (handled_op (OpGet k)). Qed.
Lemma handled_query a b : handled (Query a b None_).
Proof. apply handled_then, (handled_op (OpQuery a b)). Qed.
Lemma handled_pop_back : handled (PopBack (Some None_) (Some None_) (Some None_)).
Proof. apply handled_then, (handled_op (OpPopBack None_ None_ None_)). Qed.
Lemma handled_pop_front : handled (PopFront (Some None_) (Some None_) (Some None_)).
Proof. apply handled_then, (handled_op (OpPopFront None_ None_ None_)). Qed.

Lemma safe_get_command cs command : safe sids cs (on_get command sid message) no_pointer.
Proof.
  unfold on_get. step. cbn zeta. apply safe_then.
  - case_match; [apply safe_call; [set_solver|apply handled_get]|].
    step. apply safe_then; [apply safe_manager, manager_get_property; set_solver|]. intros v. apply safe_ret. set_solver.
  - intros [ [? ?] ?]. send.
Qed.

Lemma safe_pop cs command : safe sids cs (on_pop command sid message) no_pointer.
Proof.
  unfold on_pop. step. apply safe_then.
  - apply safe_call; [set_solver|]. case_match; [apply handled_pop_back|apply handled_pop_front].
  - intros [ [? ?] ?]. send.
Qed.

Lemma safe_modify_command cs command : safe sids cs (on_modify command sid message) no_pointer.
Proof.
  unfold on_modify. step. cbn zeta. apply safe_then; [|intros ?; send].
  set (k := default None_ _). set (v := default None_ _). set (m := default None_ _).
  repeat case_match.
  - apply safe_call; [set_solver|apply (handled_op (OpPushBack k v m))].
  - apply safe_call; [set_solver|apply (handled_op (OpPushFront k v m))].
  - apply safe_call; [set_solver|apply (handled_op (OpSet k v m))].
  - apply safe_call; [set_solver|apply (handled_op (OpInsert k v m))].
  - apply safe_call; [set_solver|apply (handled_op (OpDelete k v m))].
  - apply safe_call; [set_solver|apply (handled_op OpClear)].
  - apply safe_then; [apply safe_lift; by destruct (is_string k && is_string v)|]. intros ?.
    do 2 step. apply safe_manager, manager_set_property. set_solver.
Qed.

Lemma safe_count cs : safe sids cs (on_count sid message) no_pointer.
Proof.
  unfold on_count. step. apply safe_then; [apply safe_call; [set_solver|apply handled_count]|]. intros ?. step. send.
Qed.

Lemma safe_group_add cs : safe sids cs (on_group_add sid message) no_pointer.
Proof.
  unfold on_group_add. step. case_match; [|apply safe_missing]. step. case_match; [|apply safe_missing].
  eapply safe_bind; [apply safe_manager, manager_create|]. intros c.
  apply safe_then; [apply safe_add_container; set_solver|]. intros ?. step.
  apply safe_get. intros s Hwf Hh. cbn zeta.
  apply safe_at_bind with (Q := no_pointer); [|intros ?; apply safe_subscribe_sessions; set_solver].
  apply safe_modify; [done..|]. intros _ Ha. apply (wf_set_groups _ _ []); [done|apply alive_nil|].
  intros m i d Hi Hd. right. destruct Hd as [->|([k e] & -> & Hd)%list_elem_of_fmap]; eauto using holds.
Qed.

Lemma safe_group_subscribe cs : safe sids cs (on_group_subscribe sid message) no_pointer.
Proof.
  unfold on_group_subscribe. step. case_match; [|apply safe_missing]. step. apply safe_get. intros s Hwf Hh. cbn zeta.
  match goal with |- context [GetGroupContainers ?g s] =>
    apply (safe_at_read _ _ (GetGroupContainers g s).*2); [by apply group_containers_alive|] end.
  apply safe_at_bind with (Q := no_pointer).
  - apply safe_modify; [done..|]. intros _ Ha. apply (wf_set_groups _ _ []); [done|apply alive_nil|].
    intros m i d Hi Hd. right. destruct Hd as [->|([k e] & -> & Hd)%list_elem_of_fmap]; eauto using holds.
  - intros ?. step. apply safe_subscribe_containers; [done|]. set_solver.
Qed.

Lemma sound_start_field : sound (start_field message).
Proof. unfold start_field. solve_sound. Qed.

Lemma safe_subscribe_command cs : safe sids cs (on_subscribe sid message) no_pointer.
Proof.
  unfold on_subscribe. step. case_match; [|apply safe_missing].
  apply safe_then; [apply safe_lift, sound_start_field|]. intros ?. step. step. apply safe_async_subscribe. set_solver.
Qed.

Lemma safe_unsubscribe cs : safe sids cs (on_unsubscribe sid message) no_pointer.
Proof. unfold on_unsubscribe. step. case_match; [|apply safe_missing]. step. send. Qed.

Variable regex : bytes -> res (bytes -> bool).
Hypothesis regex_sound : forall e, sound (regex e).

Lemma safe_query cs : safe sids cs (on_query regex sid message) no_pointer.
Proof.
  unfold on_query. step. step. step. cbn zeta. step.
  apply safe_then; [apply safe_lift; pose proof regex_sound; case_bool_decide; solve_sound|]. intros [ [? ?] ?].
  apply safe_then; [apply safe_call; [set_solver|apply handled_query]|]. intros r.
  apply safe_then; [|intros q; send]. unfold CreateNewQueryId. apply safe_get. intros s Hwf Hh. cbn zeta.
  apply safe_at_bind with (Q := no_pointer); [|intros ?; apply safe_ret; set_solver].
  apply safe_modify; [done..|]. intros _ _. by apply wf_set_ids.
Qed.

Lemma safe_binary_command cs command : safe sids cs (binary_command regex command sid message) no_pointer.
Proof.
  unfold binary_command. repeat case_match.
  - by apply safe_ping.
  - by apply safe_open_create.
  - by apply safe_close.
  - by apply safe_get_command.
  - by apply safe_pop.
  - by apply safe_modify_command.
  - by apply safe_count.
  - by apply safe_query.
  - by apply safe_group_add.
  - by apply safe_group_subscribe.
  - by apply safe_subscribe_command.
  - by apply safe_unsubscribe.
  - send.
Qed.

End Commands.

(** ** Containers nobody holds *)

Lemma wf_restrict m f :
  ContainerManager.wf m -> f ⊆ ContainerManager.live m ->
  (forall c, ContainerManager.meta_containers_ m = Some c -> is_Some (f !! c)) ->
  ContainerManager.wf (ContainerManager.set_live f (ContainerManager.next_container m) m).
Proof.
  intros [W1 W2 W3 W4 W5 W6 W7 (c & l & ms & M1 & M2 & M3)] Hf Hm.
  assert (Hst : forall x y, ContainerManager.storage_of x
      (ContainerManager.set_live f (ContainerManager.next_container m) m) = Some y -> ContainerManager.storage_of x m = Some y).
  { intros x y (o & Ho & Hy)%bind_Some. unfold ContainerManager.storage_of. by rewrite (lookup_weaken _ _ _ _ Ho Hf). }
  split; try done.
  - intros x o Ho. apply (W5 x o). by eapply lookup_weaken.
  - intros n x y a Hop Hs Ha. apply (W7 n x y a); [|by apply Hst|done].
    unfold ContainerManager.open_container in *. cbn [ContainerManager.openContainers_ ContainerManager.set_live ContainerManager.live] in Hop.
    destruct (find n (ContainerManager.openContainers_ m)) as [z|]; [|done]. destruct (f !! z) as [o|] eqn:Ez; [|done].
    injection Hop as ->. by rewrite (lookup_weaken _ _ _ _ Ez Hf).
  - exists c, l, ms. split; [done|]. split; [|done]. destruct (Hm c M1) as [o Ho]. unfold ContainerManager.storage_of in *.
    cbn [ContainerManager.live ContainerManager.set_live]. by rewrite (lookup_weaken _ _ _ _ Ho Hf) in M2; rewrite Ho.
Qed.

Lemma wf_collect s : wf s -> wf (collect s).
Proof.
  intros [W1 W2 W3 W4 W5].
  set (f := filter (fun p => p.1 ∈ owned s) (ContainerManager.live (containerManager_ s))).
  assert (Hf : f ⊆ ContainerManager.live (containerManager_ s)) by apply map_filter_subseteq.
  assert (Hkeep : forall c, holds s c -> f !! c = ContainerManager.live (containerManager_ s) !! c).
  { intros c Hc. destruct (W2 c Hc) as [o Ho]. rewrite Ho. apply map_lookup_filter_Some. split; [done|]. by apply holds_owned. }
  assert (Hsub : forall l n, subscribes s l n -> subscribes (collect s) l n).
  { intros l n (i & Hi & Hs). exists i. split; [done|]. unfold ContainerManager.storage_of in *. cbn. fold f.
    rewrite Hkeep; [done|]. eauto using holds. }
  split; try (intros; by eauto).
  - apply wf_restrict; [done|done|]. intros c Hc. change (is_Some (f !! c)). rewrite Hkeep; [apply W2|]; eauto using holds.
  - intros c Hc. change (is_Some (f !! c)). apply (holds_frame s) in Hc; try done. rewrite Hkeep by done. by apply W2.
Qed.

Lemma safe_end_scope {A} sids (m : M server A) Q : safe sids [] m Q -> safe sids [] (end_scope m) no_pointer.
Proof.
  intros Hm s Hwf Hh. destruct (Hm s Hwf Hh) as (H1 & [H2 _] & H3 & _). unfold end_scope. destruct (m s) as [r s'].
  split; [by apply wf_collect|]. split; [split; [done|apply alive_nil]|]. split; [done|]. intros a _. apply alive_nil.
Qed.

(** ** The server's entry points *)

Lemma safe_on_binary_command regex sid message sids :
  (forall e, sound (regex e)) -> sid ∈ sids -> safe sids [] (OnBinaryCommand regex sid message) no_pointer.
Proof.
  intros Hr Hs. unfold OnBinaryCommand. destruct (sound_parse message) as [H1 H2].
  apply safe_lift_then; [done|]. intros m Hm%H2. apply safe_then; [apply safe_lift; by apply sound_field_int|].
  intros [command|]; [|by apply safe_missing]. intros s. apply safe_try.
  - apply safe_at_weaken. eapply safe_end_scope. by apply safe_binary_command.
  - intros e. apply safe_send; [done|]. apply quiet_error_answer.
Qed.

Section EntryPoints.
Variable print_double : bytes -> bytes.

Lemma safe_set_pending sids cs n b : safe sids cs (set_pending n b) no_pointer.
Proof.
  intros s. apply safe_modify; [by destruct (subscriptions s !! n)..|].
  intros [W1 W2 W3 W4 W5] _. destruct (subscriptions s !! n) as [i|] eqn:Ei; [|done].
  set (j := Build_SubscriptionInfo _ _ _ _ _ _).
  assert (Hsub : forall l k, subscribes s l k -> subscribes (set_subscriptions (<[n := j]> (subscriptions s)) (next_subscription s)
    (subscribers_ s) s) l k).
  { intros l k (i' & Hi' & Hs). unfold subscribes. simpl. rewrite lookup_insert. case_decide; [|by eauto]. subst.
    rewrite Ei in Hi'. injection Hi' as <-. by exists j. }
  split; try (intros; by eauto).
  - intros c [sid y h Hy Hh|m k Hn H|m k z Hn H|m k Hn H|H|H|H|H]; simpl in *; try (by apply W2; eauto using holds).
    apply lookup_insert_Some in Hn as [ [<- <-]|[_ Hn] ]; apply W2; eauto using holds.
  - intros k. simpl. rewrite lookup_insert. case_decide; [|apply W5]. subst. intros _. apply W5. by rewrite Ei.
Qed.

Lemma safe_throw {A} sids cs e : sound (Throw (A := A) e) -> safe sids cs (throw (A := A) e) no_pointer.
Proof. intros H s Hwf Hh. do 3 (split; [done|]). done. Qed.

Lemma safe_publish_event e n s :
  is_Some (subscriptions s !! n) -> safe_at [] [] (publish_event print_double e n) no_pointer s.
Proof.
  intros [i Hi]. unfold publish_event. intros Hwf Hh. rewrite bind_get, Hi. revert Hwf Hh.
  destruct (snapshotPending i); [apply safe_ret; set_solver|].
  destruct (sessions_ s !! si_session i) as [x|] eqn:Ex; [|apply safe_ret; set_solver].
  apply safe_try; [|intros; by apply safe_throw]. apply safe_session_at; [by eexists|]. apply session_quiet, quiet_publish.
Qed.

Lemma safe_call_then {A B} sids cs c (f : M MemoryStorage.AnyStorage A) (g : A -> M server B) R (P : A -> Prop) :
  c ∈ cs -> handled f -> (forall a x, (f a).1 = Ok x -> P x) -> (forall x, P x -> safe sids cs (g x) R) ->
  safe sids cs (call c f ≫= g) R.
Proof.
  intros Hc Hf HP Hg s Hwf Hh. destruct (safe_call sids c cs f Hc Hf s Hwf Hh) as (H1 & H2 & H3 & _).
  unfold mbind, M_bind. destruct (call c f s) as [ [x|e] s'] eqn:E; cbn [fst snd] in *; [|done].
  apply Hg; [|done|done].
  destruct (ContainerManager.live_storage (containerManager_ s) c (wf_manager s Hwf)) as (l & a & Hl & Ha & _); [by apply Hh|].
  unfold call, on_manager in E. destruct (f a) as [r a'] eqn:Ef.
  rewrite (ContainerManager.call_run c l a f r a' _ Hl Ha Ef) in E. injection E as -> _. apply (HP a). by rewrite Ef.
Qed.

Lemma safe_publish_snapshot n s :
  is_Some (subscriptions s !! n) -> safe_at [] [] (publish_snapshot print_double n) no_pointer s.
Proof.
  intros [i Hi]. unfold publish_snapshot. intros Hwf Hh. rewrite bind_get, Hi. revert Hwf Hh.
  destruct (negb (snapshotPending i)); [apply safe_ret; set_solver|].
  case_bool_decide; [apply safe_set_pending|].
  destruct (sessions_ s !! si_session i) as [x|] eqn:Ex; [|apply safe_ret; set_solver].
  apply (safe_at_read _ _ [si_container i]).
  { intros Hwf c Hc. apply list_elem_of_singleton in Hc as ->. apply (wf_live s Hwf). eauto using holds. }
  eapply (safe_at_locked _ _ (si_session i)); [by eexists|]. apply safe_at_weaken.
  apply safe_then; [|intros ?; apply safe_set_pending]. intros s1. apply safe_try; [|intros; by apply safe_throw].
  apply safe_at_weaken. eapply (safe_call_then _ _ _ _ _ _ (fun r => current_ r = 0%nat)); [set_solver|apply handled_query| |].
  { intros a r. apply query_at_begin. }
  intros r Hr. apply safe_get. intros s2 _ _. cbn zeta. apply safe_at_bind with (Q := no_pointer); [|intros ?].
  - case_bool_decide; [apply safe_at_weaken, safe_ret; set_solver|]. apply safe_at_weaken, safe_send; [set_solver|].
    apply quiet_new_container.
  - apply safe_send; [set_solver|]. by apply quiet_snapshot.
Qed.

Lemma safe_set_publisher l i s :
  (forall e ns n, i = Some (e, ns) -> n ∈ ns -> wf s -> subscribes s (storageId e) n) ->
  forall q, wf s -> wf (set_queues q l i s).
Proof.
  intros Hi q Hwf. pose proof Hwf as [W1 W2 W3 W4 W5]. split; try done.
  - intros c Hc. apply W2. by apply (holds_frame s) in Hc.
  - intros e ns n He Hn. by apply (Hi e ns).
Qed.

Lemma safe_publisher : safe [] [] (PublisherThread print_double) no_pointer.
Proof.
  unfold PublisherThread. apply safe_get. intros s Hwf Hh.
  destruct (interestedSubscribers s) as [ [e [|n rest] ]|] eqn:Ei; [| |destruct (localEventQueue s) as [|e l] eqn:El].
  - apply safe_modify; [done..|]. intros Hwf' _. by apply safe_set_publisher.
  - intros _ _. rewrite bind_modify. set (s1 := set_queues _ _ _ s).
    assert (Hsub : subscribes s (storageId e) n) by (eapply (wf_interested s Hwf); [done|apply list_elem_of_here]).
    assert (Hwf1 : wf s1).
    { apply safe_set_publisher; [|done]. intros e' ns n' [= <- <-] Hn' Hwf'. eapply (wf_interested s Hwf); [done|].
      by apply list_elem_of_further. }
    destruct Hsub as (i & Hi & _). unfold publish_to. case_decide;
      [apply (safe_publish_snapshot n s1)|apply (safe_publish_event (eventInfo e) n s1)]; try done; by eexists.
  - apply safe_modify; [done..|]. intros Hwf' _. by apply safe_set_publisher.
  - apply safe_modify; [done..|]. intros Hwf' _. apply safe_set_publisher; [|done].
    intros e' ns n. destruct (subscribers_ s !! storageId e) as [subs|] eqn:Es; [|done]. intros [= <- <-] Hn _.
    by eapply (wf_subscribers s Hwf).
Qed.

(** *** Connections *)

Lemma wf_new_session s id x : handles_ x = ∅ -> wf s -> wf (set_sessions (<[id := x]> (sessions_ s)) s).
Proof.
  intros Hx [W1 W2 W3 W4 W5]. split; try done.
  intros c [sid y h Hy Hh|m k Hn H|m k z Hn H|m k Hn H|H|H|H|H]; simpl in *; try (by apply W2; eauto using holds).
  apply lookup_insert_Some in Hy as [ [_ <-]|[_ Hy] ]; [rewrite Hx in Hh; exfalso; exact (lookup_empty_Some h c Hh)|]. apply W2. eauto using holds.
Qed.

Lemma wf_drop_session s sid : wf s -> wf (set_sessions (delete sid (sessions_ s)) s).
Proof.
  intros [W1 W2 W3 W4 W5]. split; try done.
  intros c [sid' y h Hy Hh|m k Hn H|m k z Hn H|m k Hn H|H|H|H|H]; simpl in *; try (by apply W2; eauto using holds).
  apply lookup_delete_Some in Hy as [_ Hy]. apply W2. eauto using holds.
Qed.

(** A call on the container of the sessions. *)
Lemma safe_meta_call o c : boot.2 = Some c -> safe [] [] (meta_call boot.2 (run_op o)) no_pointer.
Proof.
  intros Hb s Hwf Hh. rewrite Hb. apply (safe_at_read [] [] [c]); [|by apply safe_manager, manager_call; [set_solver|apply handled_op]|done|done].
  intros _ d Hd. apply list_elem_of_singleton in Hd as ->. apply (wf_live s Hwf), holds_sessions.
  by destruct (held_fixtures _ _ _ Hh) as [_ ->].
Qed.

Lemma safe_accept id c : boot.2 = Some c -> safe [] [] (OnAccept id) no_pointer.
Proof.
  intros Hb. unfold OnAccept. apply safe_get. intros s Hwf Hh. destruct (serverPaused_ s); [apply safe_ret; set_solver|].
  intros _ _. rewrite bind_modify. destruct (held_fixtures _ _ _ Hh) as [_ Hms]. destruct Hh as [ [_ Hfix] _]. rewrite Hms.
  apply (safe_meta_call (OpInsert (session_key id) TIONULL TIONULL) c Hb); [by apply wf_new_session|].
  split; [|apply alive_nil]. split; [|done]. intros sid Hs. by apply not_elem_of_nil in Hs.
Qed.

Lemma safe_remove_client sid c : boot.2 = Some c -> safe [] [] (RemoveClient sid) no_pointer.
Proof.
  intros Hb. unfold RemoveClient. apply safe_get. intros s Hwf Hh.
  destruct (sessions_ s !! sid) as [x|]; [|apply safe_ret; set_solver].
  intros _ _. rewrite !bind_modify. destruct (held_fixtures _ _ _ Hh) as [_ Hms]. destruct Hh as [ [_ Hfix] _]. rewrite Hms.
  apply (safe_meta_call (OpDelete (session_key sid) TIONULL TIONULL) c Hb); [by apply wf_collect, wf_drop_session|].
  split; [|apply alive_nil]. split; [|done]. intros sid' Hs. by apply not_elem_of_nil in Hs.
Qed.

Lemma safe_client_failed sid c s :
  boot.2 = Some c -> is_Some (sessions_ s !! sid) -> safe_at [] [] (OnClientFailed sid) no_pointer s.
Proof.
  intros Hb Hs. unfold OnClientFailed. apply safe_at_bind with (Q := no_pointer); [|intros ?; by eapply safe_remove_client].
  apply safe_session_at; [done|]. apply session_quiet, quiet_invalidate.
Qed.

End EntryPoints.
End Safe.
End ServerSafety.
