(* ===== verification/TextSafety.v ===== *)
(** * The text protocol and HTTP keep the server in order

    The handlers of the text protocol and of HTTP requests, like the commands of
    the binary protocol, keep the invariant of the server; those of the text
    protocol follow no bad pointer. *)
From S2P Require Import Prelude Decimal StdMap TioDataS Containers ListStorage MapStorage VectorStorage MemoryStorage Auth TextProtocol ContainerManager Session Sound Server TextCommands Http TextSession ServerSafety.

Module TextSafety.
Import Decimal StdMap TioData Containers Session Sound Server TextCommands ServerSafety.

#[local] Existing Instance MemoryStorage.any_storage.

(** ** Numbers and fields *)

Lemma sound_cast_int b : sound (lexical_cast_int b).
Proof. unfold lexical_cast_int. repeat case_match; done. Qed.
Lemma sound_cast_unsigned b : sound (lexical_cast_unsigned b).
Proof. unfold lexical_cast_unsigned. repeat case_match; done. Qed.
Lemma sound_cast_size b : sound (lexical_cast_size_t b).
Proof. unfold lexical_cast_size_t. repeat case_match; done. Qed.
#[local] Hint Resolve sound_cast_int sound_cast_unsigned sound_cast_size : sound.

Lemma sound_extract_set ps : forall fs n, sound (TextProtocol.extract_set ps fs n).
Proof.
  induction ps as [ps IH] using (well_founded_induction (Wf_nat.well_founded_ltof _ (@length bytes))). intros fs n.
  destruct ps as [|name [|type [|size rest] ] ]; cbn [TextProtocol.extract_set]; try solve [solve_sound].
  case_match; [done|]. apply sound_bind; [auto with sound|]. intros k _. apply IH. unfold Wf_nat.ltof. simpl. lia.
Qed.

Section Fields.
Context (lexical_cast_double : bytes -> res bytes) (cast_sound : forall b, sound (lexical_cast_double b)).

Lemma sound_set_data f b : sound (TextProtocol.SetTioData lexical_cast_double f b).
Proof. unfold TextProtocol.SetTioData. solve_sound. Qed.
#[local] Hint Resolve sound_set_data : sound.

Lemma sound_set_field f r o : sound r -> sound (TextProtocol.set_field lexical_cast_double f r o).
Proof. intros Hr. destruct o as [ [k v] m]. unfold TextProtocol.set_field. solve_sound. Qed.

Lemma sound_extract_loop fs : forall b n o, sound (TextProtocol.extract_loop lexical_cast_double fs b n o).
Proof.
  induction fs as [|f fs IH]; intros b n o; [done|]. cbn [TextProtocol.extract_loop].
  apply sound_bind; [apply sound_set_field; auto with sound|]. intros o' _. apply IH.
Qed.

Lemma sound_extract ps b o : sound (TextProtocol.ExtractFieldSet_data lexical_cast_double ps b o).
Proof.
  unfold TextProtocol.ExtractFieldSet_data, TextProtocol.ExtractFieldSet. apply sound_bind; [apply sound_extract_set|].
  intros [fs n] _. case_match; [done|]. apply sound_bind; [apply sound_extract_loop|]. done.
Qed.

End Fields.

Lemma sound_operator_eq a b : sound (operator_eq a b).
Proof. destruct a, b; unfold operator_eq; cbn; repeat case_match; done. Qed.
Lemma sound_get_size t : sound (GetSize t).
Proof. by destruct t. Qed.
#[local] Hint Resolve sound_operator_eq sound_get_size : sound.

(** ** Calls *)

Lemma handled_custom w : handled (Containers.Command w).
Proof. intros [s|s|s] Ha; done. Qed.

Lemma handled_record k o v m : handled (GetRecord k o v m).
Proof. intros a Ha. rewrite record_reads. split; [apply sound_record|done]. Qed.

Lemma quiet_add_token t : quiet (AddToken t).
Proof. unfold AddToken. solve_quiet. Qed.

Lemma quiet_text_items print_double q l : quiet (send_text_items print_double q l).
Proof.
  induction l as [|[ [k v] m] l IH]; cbn [send_text_items]; [apply quiet_ret|]. apply quiet_bind; [|intros; apply IH].
  unfold SendTextResultSetItem. solve_quiet.
Qed.

Lemma quiet_text_set print_double r q : quiet (SendTextResultSet print_double r q).
Proof.
  unfold SendTextResultSet, SendTextResultSetStart, SendTextResultSetEnd. pose proof (quiet_text_items print_double). solve_quiet.
Qed.

Section Safe.
Context (boot : option loc * option loc) (sid : Z) (sids : list Z).
Hypotheses (Hsid : sid ∈ sids).

Notation safe := (safe boot sids).

Lemma safe_try_any {A} cs (m : M server A) h Q : safe cs m Q -> (forall e, safe cs (h e) Q) -> safe cs (try_catch m h) Q.
Proof. intros Hm Hh s. apply safe_try; [apply Hm|exact Hh]. Qed.

(** A fault does not get to the handler. *)
Lemma safe_try_exception {A} cs (m : M server A) h Q :
  safe cs m Q -> (forall e, (forall f, e <> Fault f) -> safe cs (h e) Q) -> safe cs (try_catch m h) Q.
Proof.
  intros Hm Hh s Hwf Hd. destruct (Hm s Hwf Hd) as (H1 & H2 & H3 & H4). unfold try_catch.
  destruct (m s) as [ [a|e] s']; simpl in *; [done|]. destruct e; try (by apply Hh). done.
Qed.

Lemma safe_throw_any {A} cs e Q : sound (Throw (A := A) e) -> safe cs (throw (A := A) e) Q.
Proof. intros H s Hwf Hh. do 3 (split; [done|]). done. Qed.

Lemma safe_answer cs b : safe cs (answer_error b) no_pointer.
Proof. apply safe_ret. set_solver. Qed.
Lemma safe_answer_ok cs : safe cs answer_ok no_pointer.
Proof. apply safe_ret. set_solver. Qed.

Lemma safe_answering cs m : safe cs m no_pointer -> safe cs (answering m) no_pointer.
Proof. intros H. apply safe_try_any; [done|]. intros e. apply safe_answer. Qed.

Lemma safe_read cs (f : server -> M server (bytes * Z)) : (forall s, safe cs (f s) no_pointer) -> safe cs (get ≫= f) no_pointer.
Proof. intros H. apply safe_get. intros s _ _. apply H. Qed.

Lemma safe_text cs (m : M session unit) : quiet m -> safe cs (on_session sid m) no_pointer.
Proof. intros H. by apply safe_send. Qed.

Lemma safe_container_call {A} c cs (f : M MemoryStorage.AnyStorage A) : c ∈ cs -> handled f -> safe cs (call c f) no_pointer.
Proof. by apply safe_call. Qed.

Lemma safe_handle_container cs cmd : safe cs (handle_container cmd sid) (fun c => [c]).
Proof.
  unfold handle_container. apply safe_then; [apply safe_lift; auto with sound|]. intros h.
  apply safe_session; [done|apply session_get_registered].
Qed.

Lemma safe_with_handle cs cmd body :
  (forall c, safe (c :: cs) (body c) no_pointer) -> safe cs (with_handle cmd sid body) no_pointer.
Proof.
  intros Hb. unfold with_handle. eapply (safe_bind _ _ _ _ _ option_list).
  - apply safe_try_any; [|intros e; apply safe_ret; set_solver].
    eapply safe_bind; [apply safe_handle_container|]. intros c. apply safe_ret. intros d Hd. apply list_elem_of_singleton in Hd as ->. set_solver.
  - intros [c|]; [apply Hb|apply safe_answer].
Qed.

Lemma safe_names cs h : safe cs (GetRegisteredContainer_names h sid) (fun p => [p.1.1]).
Proof.
  unfold GetRegisteredContainer_names. eapply safe_bind; [apply safe_session; [done|apply session_get_registered]|]. intros c.
  apply safe_get. intros s _ _. apply safe_ret. set_solver.
Qed.

Lemma safe_query_id cs : safe cs CreateNewQueryId no_pointer.
Proof.
  unfold CreateNewQueryId. apply safe_get. intros s Hwf Hh. cbn zeta.
  apply safe_at_bind with (Q := no_pointer); [|intros ?; apply safe_ret; set_solver].
  apply safe_modify; [done..|]. intros _ _. by apply wf_set_ids.
Qed.

(** A change of nothing that holds containers. *)
Lemma safe_set_auth cs a : safe cs (set_auth a) no_pointer.
Proof.
  intros s. apply safe_modify; [done..|]. intros [W1 W2 W3 W4 W5] _. split; try done.
  intros c Hc. apply W2. by apply (holds_frame s) in Hc.
Qed.

Lemma safe_set_paused cs b : safe cs (modify (set_paused b)) no_pointer.
Proof.
  intros s. apply safe_modify; [done..|]. intros [W1 W2 W3 W4 W5] _. split; try done.
  intros c Hc. apply W2. by apply (holds_frame s) in Hc.
Qed.

(** The first steps of a handler that return no pointer. *)
Ltac tstep :=
  lazymatch goal with
  | |- ServerSafety.safe _ _ _ (answer_error _) _ => apply safe_answer
  | |- ServerSafety.safe _ _ _ answer_ok _ => apply safe_answer_ok
  | |- ServerSafety.safe _ _ _ (get ≫= _) _ => apply safe_read; intros
  | |- ServerSafety.safe _ _ _ (lift _ ≫= _) _ => apply safe_then; [apply safe_lift; solve [solve_sound]|intros ?]
  | |- ServerSafety.safe _ _ _ (on_session _ _ ≫= _) _ => apply safe_then; [apply safe_text; solve [solve_quiet]|intros ?]
  | |- ServerSafety.safe _ _ _ (CreateNewQueryId ≫= _) _ => apply safe_then; [apply safe_query_id|intros ?]
  | |- ServerSafety.safe _ _ _ (set_auth _ ≫= _) _ => apply safe_then; [apply safe_set_auth|intros ?]
  | |- ServerSafety.safe _ _ _ (modify (set_paused _)) _ => apply safe_set_paused
  | |- ServerSafety.safe _ _ _ (on_session _ _) _ => apply safe_text; solve [solve_quiet]
  | |- ServerSafety.safe _ _ _ (mret _) _ => apply safe_ret; solve [set_solver]
  | |- ServerSafety.safe _ _ _ (match _ with _ => _ end) _ => case_match
  end.

(** *** Connections and sessions *)

Lemma safe_auth cs cmd : is_Some boot.1 -> safe cs (OnCommand_Auth cmd sid) no_pointer.
Proof.
  intros [c Hc]. unfold OnCommand_Auth, invalid_parameter_count. cbn zeta. do 2 (case_match; [apply safe_answer|]).
  apply safe_try_any; [|intros e; apply safe_answer]. apply safe_get. intros s Hwf Hh.
  assert (Hu : users s = Some c) by (destruct (held_fixtures _ _ _ _ Hh) as [-> _]; done). rewrite Hu.
  apply (safe_at_read _ _ _ [c]).
  { intros _ d Hd. apply list_elem_of_singleton in Hd as ->. apply (wf_live s Hwf). by apply holds_users. }
  apply safe_at_bind with (Q := no_pointer); [apply safe_manager, manager_call; [set_solver|apply handled_record]|].
  intros [ [? v] ?]. pose proof quiet_add_token. repeat tstep.
Qed.

Lemma safe_invalidate_others cs l s :
  (forall id, id ∈ l -> is_Some (sessions_ s !! id)) -> safe_at boot sids cs (invalidate_others sid l) no_pointer s.
Proof.
  revert s. induction l as [|id l IH]; intros s Hl; cbn [invalidate_others]; [apply safe_ret; set_solver|].
  intros Hwf Hh.
  assert (H1 : safe_at boot sids cs (if id =? sid then mret () else on_session id InvalidateConnection) no_pointer s).
  { case_match; [apply safe_ret; set_solver|]. apply safe_session_at; [apply Hl; set_solver|]. apply session_quiet; auto with quiet. }
  destruct (H1 Hwf Hh) as (W & H & S & _).
  assert (Hk : forall r s1, (if id =? sid then mret () else on_session id InvalidateConnection) s = (r, s1) ->
    forall k, is_Some (sessions_ s !! k) -> is_Some (sessions_ s1 !! k)).
  { intros r s1 E k Hk. case_match; [unfold mret, M_ret in E; by simplify_eq|]. unfold on_session in E. destruct (sessions_ s !! id) as [x|]; [|by simplify_eq].
    destruct (InvalidateConnection x) as [r' x']. simplify_eq. simpl. rewrite lookup_insert. case_decide; [by eexists|done]. }
  unfold mbind, M_bind. destruct ((if id =? sid then mret () else on_session id InvalidateConnection) s) as [ [ []|e] s1] eqn:E;
    cbn [fst snd] in *; [|done]. apply (IH s1); [|done|done]. intros k Hkl. eapply Hk; [done|]. apply Hl. set_solver.
Qed.

Lemma safe_pause cs cmd : safe cs (OnCommand_PauseResume cmd sid) no_pointer.
Proof.
  unfold OnCommand_PauseResume, invalid_parameter_count. case_match; [apply safe_answer|].
  apply safe_then; [|intros ?; apply safe_answer_ok]. case_match; [|repeat tstep].
  apply safe_get. intros s Hwf Hh. apply safe_at_bind with (Q := no_pointer); [|intros ?; apply safe_set_paused].
  apply safe_invalidate_others. intros id Hid. apply list_elem_of_fmap in Hid as ([k x] & -> & Hk).
  apply elem_of_map_to_list in Hk. by eexists.
Qed.

(** *** Containers *)

Lemma safe_create_open cs cmd : safe cs (OnCommand_CreateContainer_OpenContainer cmd sid) no_pointer.
Proof.
  unfold OnCommand_CreateContainer_OpenContainer, invalid_parameter_count, access_denied. cbn zeta.
  case_match; [apply safe_answer|]. apply safe_answering, safe_read. intros s.
  repeat (case_match; [apply safe_answer|] || case_match); first [apply safe_answer|
    eapply safe_bind; [apply safe_manager, manager_create|]; intros c;
    eapply safe_bind; [apply safe_session; [done|apply session_register; set_solver]|]; intros h; repeat tstep].
Qed.

Lemma safe_close_container cs cmd : safe cs (OnCommand_CloseContainer cmd sid) no_pointer.
Proof.
  unfold OnCommand_CloseContainer, invalid_parameter_count. case_match; [apply safe_answer|].
  apply safe_try_any; [|intros e; apply safe_answer]. repeat tstep.
Qed.

Lemma manager_delete cs type n : manager_safe cs (ContainerManager.DeleteContainer type n) no_pointer.
Proof.
  intros c Hwf Ha. pose proof (ContainerManager.delete_refined c (ContainerManager.abstract c) type n Hwf
    (ContainerManager.abstract_represents c)) as H.
  destruct (ContainerManager.r_delete _ _ _ _) as [ok r']. destruct H as (c' & Hwf' & _ & Hl & Hd).
  assert (Hst : steady (ContainerManager.DeleteContainer type n)).
  { unfold ContainerManager.DeleteContainer. apply steady_bind; [by apply steady_same|]. intros s. cbn zeta.
    apply steady_bind; [apply steady_get_manager|]. intros ?. apply steady_bind; [apply steady_on_memory|]. intros ?.
    apply steady_bind; [by apply steady_same|]. intros ?. apply steady_call. }
  destruct (Hst c) as (S1 & _ & S2 & S3).
  assert (E : exists r, ContainerManager.DeleteContainer type n c = (r, c') /\ sound r).
  { destruct ok; [by eexists|]. destruct Hd as (e & -> & He). eexists. split; [done|]. destruct e; try done. by destruct (He f). }
  destruct E as (r & E & Hr). rewrite E in *. cbn [fst snd] in *.
  split; [by apply extends_same|]. split; [done|]. intros a _. apply alive_nil.
Qed.

Lemma manager_exists cs type n : manager_safe cs (ContainerManager.Exists type n) no_pointer.
Proof.
  intros c Hwf Ha. unfold ContainerManager.Exists.
  destruct (ContainerManager.get_manager_run type c Hwf) as [ [_ E]|[_ E] ];
    [rewrite (bind_ok _ _ _ _ _ E), bind_get|rewrite (bind_throw _ _ _ _ _ E)]; cbn;
    (split; [by apply extends_same|]; split; [done|]; intros a _; apply alive_nil).
Qed.

Lemma safe_delete_container cs cmd : safe cs (OnCommand_DeleteContainer cmd sid) no_pointer.
Proof.
  unfold OnCommand_DeleteContainer, invalid_parameter_count, access_denied. cbn zeta. case_match; [apply safe_answer|].
  apply safe_read. intros s. case_match; [apply safe_answer|]. apply safe_answering.
  apply safe_then; [apply safe_manager, manager_delete|]. intros ?. tstep.
Qed.

Lemma safe_set_permission cs cmd : safe cs (OnCommand_SetPermission cmd sid) no_pointer.
Proof.
  unfold OnCommand_SetPermission, invalid_parameter_count. cbn zeta. case_match; [apply safe_answer|].
  apply safe_read. intros s. repeat (case_match; [|case_match; [|apply safe_answer] ]);
    (apply safe_then; [apply safe_manager, manager_exists|]; intros ?; repeat tstep).
Qed.

(** *** Data *)

Context (lexical_cast_double : bytes -> res bytes) (cast_sound : forall b, sound (lexical_cast_double b)).
Context (print_double : bytes -> bytes).

Lemma safe_parse_data cs cmd : safe cs (ParseDataCommand lexical_cast_double cmd sid) (fun p => [p.1.1.1.1]).
Proof.
  unfold ParseDataCommand. case_match; [by apply safe_throw_any|].
  eapply (safe_bind _ _ _ _ _ (fun p => [p.1.1])).
  - apply safe_try_exception; [apply safe_then; [apply safe_lift; auto with sound|]; intros h; apply safe_names|].
    intros e He. destruct e; try by apply safe_throw_any. by destruct (He f).
  - intros [ [c n] t]. cbn [fst]. apply safe_then; [apply safe_lift, sound_extract, cast_sound|]. intros [z o]. apply safe_ret. set_solver.
Qed.

Lemma safe_pop_command cs cmd : safe cs (OnCommand_Pop print_double cmd sid) no_pointer.
Proof.
  unfold OnCommand_Pop, invalid_parameter_count, access_denied. apply safe_answering. case_match; [apply safe_answer|].
  apply safe_then; [apply safe_lift; solve_sound|]. intros ?. tstep. eapply safe_bind; [apply safe_names|]. intros [ [c n] t]. cbn [fst].
  apply safe_read. intros s. case_match; [apply safe_answer|]. apply safe_then; [|intros [ [? ?] ?]; tstep].
  case_match; apply safe_container_call; try set_solver; [apply handled_pop_back|apply handled_pop_front].
Qed.

Lemma safe_on_modify cs cmd : safe cs (OnModify print_double lexical_cast_double cmd sid) no_pointer.
Proof.
  unfold OnModify, access_denied. apply safe_answering. eapply safe_bind; [apply safe_parse_data|].
  intros [ [ [ [c n] t] z] [ [k v] m] ]. cbn [fst]. apply safe_read. intros s. cbn zeta.
  do 3 (case_match; [solve [tstep]|]). tstep. case_match; [apply safe_answer|]. tstep.
  repeat (case_match; try apply safe_answer). tstep.
  apply safe_then; [apply safe_container_call; [set_solver|apply handled_record]|]. intros [ [? ?] ?].
  repeat (case_match; try apply safe_answer); (tstep;
    apply safe_then; [apply safe_container_call; [set_solver|apply (handled_op (OpSet _ _ _))]|]; intros ?; tstep).
Qed.

Lemma safe_text_change cs w c k v m : c ∈ cs -> safe cs (text_change w c k v m) no_pointer.
Proof.
  intros Hc. unfold text_change. cbn zeta. repeat case_match.
  - apply safe_container_call; [done|apply (handled_op (OpInsert k v m))].
  - apply safe_container_call; [done|apply (handled_op (OpSet k v m))].
  - apply safe_then; [apply safe_container_call; [done|apply handled_then, (handled_op (OpPopBack k v m))]|]. intros ?. tstep.
  - apply safe_then; [apply safe_container_call; [done|apply handled_then, (handled_op (OpPopFront k v m))]|]. intros ?. tstep.
  - apply safe_container_call; [done|apply (handled_op (OpPushBack k v m))].
  - apply safe_container_call; [done|apply (handled_op (OpPushFront k v m))].
  - apply safe_container_call; [done|apply (handled_op (OpDelete k v m))].
  - tstep.
Qed.

Lemma safe_any_data cs cmd : safe cs (OnAnyDataCommand print_double lexical_cast_double cmd sid) no_pointer.
Proof.
  unfold OnAnyDataCommand, access_denied. apply safe_answering. eapply safe_bind; [apply safe_parse_data|].
  intros [ [ [ [c n] t] z] [ [k v] m] ]. cbn [fst]. apply safe_read. intros s. cbn zeta.
  case_match; [apply safe_answer|]. case_match; [tstep|]. case_match; [|case_match; [|case_match] ].
  - apply safe_then; [apply safe_container_call; [set_solver|apply handled_record]|]. intros [ [? ?] ?]. tstep.
  - apply safe_try_any; [|intros e; apply safe_answer]. do 2 tstep.
    apply safe_then; [apply safe_manager, manager_set_property; set_solver|]. intros ?. tstep.
  - apply safe_try_any; [|intros e; apply safe_answer]. tstep.
    apply safe_then; [apply safe_manager, manager_get_property; set_solver|]. intros ?. tstep.
  - apply safe_then; [apply safe_text_change; set_solver|]. intros ?. tstep.
Qed.

Lemma safe_clear cs cmd : safe cs (OnCommand_Clear cmd sid) no_pointer.
Proof.
  unfold OnCommand_Clear, invalid_parameter_count. case_match; [apply safe_answer|]. apply safe_with_handle. intros c.
  apply safe_then; [apply safe_container_call; [set_solver|apply (handled_op OpClear)]|]. intros ?. tstep.
Qed.

Lemma safe_record_count cs cmd : safe cs (OnCommand_GetRecordCount cmd sid) no_pointer.
Proof.
  unfold OnCommand_GetRecordCount, invalid_parameter_count. case_match; [apply safe_answer|]. apply safe_with_handle. intros c.
  apply safe_then; [apply safe_container_call; [set_solver|apply handled_count]|]. intros ?. tstep.
Qed.

Lemma safe_custom cs cmd : safe cs (OnCommand_CustomCommand cmd sid) no_pointer.
Proof.
  unfold OnCommand_CustomCommand, invalid_parameter_count. case_match; [apply safe_answer|]. apply safe_with_handle. intros c.
  apply safe_then; [apply safe_container_call; [set_solver|apply handled_custom]|]. intros ?. tstep.
Qed.

(** *** Queries *)

Lemma safe_text_query cs cmd : safe cs (OnCommand_Query print_double cmd sid) no_pointer.
Proof.
  unfold OnCommand_Query, invalid_parameter_count. case_match; [apply safe_answer|]. apply safe_with_handle. intros c. cbn zeta.
  match goal with |- ServerSafety.safe _ _ _ (match ?x with Ok _ => _ | Throw _ => _ end) _ => destruct x as [ [a b]|e]; [|apply safe_answer] end.
  apply safe_answering.
  apply safe_then; [apply safe_container_call; [set_solver|apply handled_query]|]. intros r. pose proof (quiet_text_set print_double). repeat tstep.
Qed.

Lemma safe_send_matches cs q e l : forall a n, safe cs (send_matches print_double sid q e l a n) no_pointer.
Proof.
  induction l as [|[ [k v] m] l IH]; intros a n; cbn [send_matches]; [tstep|]. case_match; [tstep|].
  destruct k; try apply IH. case_match; [|apply IH]. apply safe_then; [|intros ?; apply IH].
  apply safe_text. unfold SendTextResultSetItem. solve_quiet.
Qed.

Context (regex : bytes -> res (bytes -> bool)) (regex_sound : forall e, sound (regex e)).

Lemma safe_text_query_ex cs cmd : safe cs (OnCommand_QueryEx regex print_double cmd sid) no_pointer.
Proof.
  unfold OnCommand_QueryEx, invalid_parameter_count. case_match; [apply safe_answer|]. apply safe_with_handle. intros c.
  match goal with |- ServerSafety.safe _ _ _ (match ?x with Ok _ => _ | Throw _ => _ end) _ => destruct x as [n|e]; [|apply safe_answer] end.
  apply safe_then; [apply safe_lift, regex_sound|]. intros e.
  apply safe_then; [apply safe_container_call; [set_solver|apply handled_query]|]. intros r. unfold SendTextResultSetStart, SendTextResultSetEnd.
  do 2 tstep. apply safe_then; [apply safe_send_matches|]. intros ?. repeat tstep.
Qed.

(** *** Subscriptions and groups *)

Lemma safe_text_subscribe cs cmd : safe cs (OnCommand_SubscribeUnsubscribe cmd sid) no_pointer.
Proof.
  unfold OnCommand_SubscribeUnsubscribe, invalid_parameter_count, access_denied. case_match; [apply safe_answer|].
  destruct (lexical_cast_unsigned (param cmd 0)) as [h|e]; [|apply safe_answer]. apply safe_answering. eapply safe_bind; [apply safe_names|]. intros [ [c n] t]. cbn [fst].
  apply safe_read. intros s. case_match; [apply safe_answer|]. cbn zeta.
  apply safe_then; [apply safe_lift; case_match; [apply sound_cast_int|done]|]. intros ?.
  case_match; [apply safe_then; [apply safe_async_subscribe; set_solver|intros ?; tstep]|].
  case_match; [repeat tstep|by apply safe_throw_any].
Qed.

Lemma safe_text_group_add cs cmd : safe cs (OnCommand_GroupAdd cmd sid) no_pointer.
Proof.
  unfold OnCommand_GroupAdd, invalid_parameter_count. cbn zeta. case_match; [apply safe_answer|]. apply safe_answering.
  eapply safe_bind; [apply safe_manager, manager_create|]. intros c.
  apply safe_then; [apply safe_add_container; set_solver|]. intros ?. tstep. apply safe_get. intros s Hwf Hh.
  apply safe_at_bind with (Q := no_pointer).
  - apply safe_modify; [done..|]. intros _ Ha. apply (wf_set_groups _ _ []); [done|apply alive_nil|].
    intros m i d Hi Hd. right. destruct Hd as [->|([k e] & -> & Hd)%list_elem_of_fmap]; eauto using holds.
  - intros ?. apply safe_then; [apply safe_subscribe_sessions; set_solver|]. intros ?. tstep.
Qed.

Lemma safe_subscribe_group cs g : forall l, (forall c, c ∈ l.*2 -> c ∈ cs) -> safe cs (subscribe_group g sid l) no_pointer.
Proof.
  induction l as [|[n c] l IH]; intros Hl; cbn [subscribe_group]; [tstep|]. apply safe_get. intros s _ _. apply safe_at_weaken.
  eapply safe_bind; [apply safe_session; [done|apply session_register, Hl; set_solver]|]. intros h.
  apply safe_then; [apply safe_async_subscribe; apply Hl; set_solver|]. intros ?. apply IH. intros d Hd. apply Hl. set_solver.
Qed.

Lemma safe_text_group_subscribe cs cmd : safe cs (OnCommand_GroupSubscribe cmd sid) no_pointer.
Proof.
  unfold OnCommand_GroupSubscribe, invalid_parameter_count. cbn zeta. do 2 (case_match; [apply safe_answer|]). apply safe_answering.
  apply safe_get. intros s Hwf Hh.
  apply (safe_at_read _ _ _ (GetGroupContainers (param cmd 0) s).*2); [by apply group_containers_alive|].
  apply safe_at_bind with (Q := no_pointer).
  - apply safe_modify; [done..|]. intros _ Ha. apply (wf_set_groups _ _ []); [done|apply alive_nil|].
    intros m i d Hi Hd. right. destruct Hd as [->|([k e] & -> & Hd)%list_elem_of_fmap]; eauto using holds.
  - intros ?. tstep. apply safe_then; [apply safe_subscribe_group; set_solver|]. intros ?. tstep.
Qed.

(** *** Any command *)

Lemma safe_text_command cmd :
  is_Some boot.1 -> safe [] (OnTextCommand regex print_double lexical_cast_double cmd sid) no_pointer.
Proof.
  intros Hb. unfold OnTextCommand. destruct (lookup_handler _ _) as [f|] eqn:Ef; [|apply safe_answer].
  apply safe_try_any; [|intros e; by apply safe_throw_any].
  eapply safe_end_scope. refine (lookup_handler_all (fun f => forall cs cmd, safe cs (f cmd sid) no_pointer) _ _ _ Ef _ [] cmd).
  unfold dispatchMap_.
  repeat apply Forall_cons_2; try apply Forall_nil_2; cbn [snd]; intros cs c;
    first [ apply safe_create_open | apply safe_any_data | apply safe_pop_command | apply safe_text_subscribe | apply safe_pause
          | apply safe_close_container | apply safe_delete_container | apply safe_on_modify | apply safe_clear | apply safe_record_count
          | apply safe_custom | by apply safe_auth | apply safe_set_permission | apply safe_text_query | apply safe_text_query_ex
          | apply safe_text_group_add | apply safe_text_group_subscribe | idtac ].
  - apply safe_ret. set_solver.
  - apply safe_ret. set_solver.
  - unfold OnCommand_ListHandles. case_match; apply safe_answer.
Qed.

End Safe.

(** ** HTTP *)

Section Http.
Context (boot : option loc * option loc) (sid : Z) (sids : list Z).
Hypotheses (Hsid : sid ∈ sids).

Notation safe := (safe boot sids).

Definition not_freed {A} (r : res A) : Prop := r <> Throw (Fault UseAfterFree).

Lemma sound_not_freed {A} (r : res A) : sound r -> not_freed r.
Proof. by intros H ->. Qed.

(** A request keeps the invariant and uses no freed memory; it may follow a null
    pointer. *)
Definition kept {A} (cs : list loc) (m : M server A) : Prop := forall s,
  wf s -> held boot sids cs s -> wf (m s).2 /\ held boot sids cs (m s).2 /\ not_freed (m s).1.

Lemma kept_safe {A} cs (m : M server A) Q : safe cs m Q -> kept cs m.
Proof. intros H s Hwf Hh. destruct (H s Hwf Hh) as (H1 & H2 & H3 & _). auto using sound_not_freed. Qed.

Lemma kept_bind {A B} cs (m : M server A) (f : A -> M server B) Q :
  safe cs m Q -> (forall a, kept (Q a ++ cs) (f a)) -> kept cs (m ≫= f).
Proof.
  intros Hm Hf s Hwf Hh. destruct (Hm s Hwf Hh) as (H1 & H2 & H3 & H4). unfold mbind, M_bind.
  destruct (m s) as [ [a|e] s']; simpl in *; [|do 2 (split; [done|]); by intros [= ->] ].
  destruct (Hf a s' H1) as (H5 & H6 & H7); [by apply held_cons, H4|]. split; [done|]. split; [by eapply held_weaken|done].
Qed.

Lemma kept_then {A B} cs (m : M server A) (f : A -> M server B) : kept cs m -> (forall a, kept cs (f a)) -> kept cs (m ≫= f).
Proof.
  intros Hm Hf s Hwf Hh. destruct (Hm s Hwf Hh) as (H1 & H2 & H3). unfold mbind, M_bind.
  destruct (m s) as [ [a|e] s']; simpl in *; [by apply Hf|]. do 2 (split; [done|]). intros [= ->]. by apply H3.
Qed.

Lemma kept_try {A} cs (m : M server A) h : kept cs m -> (forall e, kept cs (h e)) -> kept cs (try_catch m h).
Proof.
  intros Hm Hh s Hwf Hd. destruct (Hm s Hwf Hd) as (H1 & H2 & H3). unfold try_catch.
  destruct (m s) as [ [a|e] s']; simpl in *; [done|]. destruct e; try (by apply Hh). done.
Qed.

Lemma kept_end_scope {A} (m : M server A) : kept [] m -> kept [] (end_scope m).
Proof.
  intros Hm s Hwf Hh. destruct (Hm s Hwf Hh) as (H1 & [H2 _] & H3). unfold end_scope. destruct (m s) as [r s'].
  split; [by apply wf_collect|]. split; [split; [done|apply alive_nil]|done].
Qed.

Lemma safe_http_send cs n m ty b : safe cs (on_session sid (Http.SendHttpResponseAndClose n m ty b)) no_pointer.
Proof. apply (safe_text _ sid); [done|]. unfold Http.SendHttpResponseAndClose. auto with quiet. Qed.

Lemma kept_response cs to_string_double hs c : (forall d, c = Some d -> d ∈ cs) -> kept cs (Http.CreateContainerHttpResponse to_string_double hs c).
Proof.
  intros Hc. unfold Http.CreateContainerHttpResponse. cbn zeta.
  assert (Hn : kept cs (Http.container_names c)) by (intros s Hwf Hh; unfold Http.container_names; rewrite bind_get; by destruct c).
  assert (Hq : kept cs (on_manager (ContainerManager.call c (Query 0 0 None_)))).
  { destruct c as [c|].
    - eapply kept_safe, safe_manager, manager_call; [by apply Hc|apply handled_query].
    - intros s Hwf Hh. unfold on_manager. cbn. rewrite drop_all. destruct s. by split. }
  assert (Hr : forall (x : Http.TIO_HTTP_RESPONSE), kept cs (mret x)) by by intros x s Hwf Hh.
  do 2 (match goal with |- kept _ (if ?b then _ else _) => destruct b end;
    [apply kept_then; [exact Hn|]; intros [? ?]; apply kept_then; [exact Hq|]; intros r; apply Hr|]). apply Hr.
Qed.

Lemma kept_http to_string_double now m : kept [] (Http.OnHttpCommand to_string_double now m sid).
Proof.
  unfold Http.OnHttpCommand. cbn zeta. apply kept_try.
  - apply kept_end_scope. case_match; [|eapply kept_safe, safe_http_send]. case_match; [eapply kept_safe, safe_http_send|].
    eapply (kept_bind _ _ _ option_list).
    + apply safe_try_exception.
      * eapply safe_bind; [apply safe_manager, manager_create|]. intros c. apply safe_ret. intros d Hd.
        apply list_elem_of_singleton in Hd as ->. set_solver.
      * intros e He. destruct e; try (by apply safe_throw_any); [|by destruct (He f)].
        apply safe_then; [apply safe_http_send|]. intros ?. apply safe_ret. set_solver.
    + intros c. apply kept_then; [apply kept_response; intros d ->; set_solver|]. intros r. eapply kept_safe, safe_http_send.
  - intros e. apply kept_then; [eapply kept_safe, safe_http_send|]. intros ?. eapply kept_safe, safe_http_send.
Qed.

End Http.

End TextSafety.
