(* ===== verification/ServerInvariant.v ===== *)
(** * The invariant of the server

    In every state the server can reach, each container pointer that a handle,
    a group, a subscription or the server itself holds leads to a container
    object, and that one to a storage; each subscriber of a storage is a
    subscription to a container of that storage.  It follows that no command,
    whatever its bytes, and no step of the publisher uses freed memory or a
    null pointer. *)
From S2P Require Import Prelude Decimal StdMap StreamBuffer Pr1Message TioDataC Protocol TioDataS Containers ListStorage MapStorage VectorStorage MemoryStorage Auth ContainerManager SessionMessages Session Sound Server TextCommands Http ServerSafety TextSafety.

Module ServerInvariant.
Import StdMap Pr1 Protocol TioData Containers SessionMessages Session Sound Server TextSafety.

Export ServerSafety.

#[local] Existing Instances MemoryStorage.any_storage MapStorage.map_storage.

(** ** Reachable states *)

Lemma manager_subscriber b : manager_safe [] (ContainerManager.SetSubscriber b) no_pointer.
Proof.
  intros c Hwf _. destruct (ContainerManager.wf_subscribe c b Hwf) as (c' & E & Hwf').
  assert (Hst : forall l, steady (ContainerManager.subscribe_managers b l)).
  { induction l as [|[n []] l IH]; cbn [ContainerManager.subscribe_managers ContainerManager.subscribe_manager];
      [by apply steady_same|]. apply steady_bind; [apply steady_on_memory|done]. }
  assert (steady (ContainerManager.SetSubscriber b)) as H.
  { apply steady_bind; [by intros x|]. intros _ x. rewrite bind_get. apply Hst. }
  destruct (H c) as (H1 & _ & H2 & H3). rewrite E in H1, H2, H3 |- *. split; [by apply extends_same|].
  split; [done|]. intros a _. apply alive_nil.
Qed.


Lemma bind_inv {S A B} (m : M S A) (f : A -> M S B) s b s' :
  (m ≫= f) s = (Ok b, s') -> exists a s1, m s = (Ok a, s1) /\ f a s1 = (Ok b, s').
Proof. unfold mbind, M_bind. destruct (m s) as [ [a|e] s1]; [by eauto|done]. Qed.

(** A call that ended well. *)
Lemma safe_run {A} boot cs (m : M server A) Q s a s' :
  safe boot [] cs m Q -> wf s -> held boot [] cs s -> m s = (Ok a, s') -> wf s' /\ held boot [] (Q a ++ cs) s'.
Proof.
  intros Hm Hwf Hh E. destruct (Hm s Hwf Hh) as (H1 & H2 & _ & H4). rewrite E in *. cbn [fst snd] in *.
  split; [done|]. apply held_cons; auto.
Qed.

Lemma wf_set_meta a u m s :
  wf s -> (forall c, u = Some c \/ m = Some c -> is_Some (ContainerManager.live (containerManager_ s) !! c)) ->
  wf (set_meta a u m s).
Proof.
  intros [W1 W2 W3 W4 W5] Hc. split; try done.
  intros c [sid y h Hy Hh|n k Hn H|n k z Hn H|n k Hn H|H|H|H|H]; simpl in *; try (by apply W2; eauto using holds); auto.
Qed.

(** The server has its containers. *)
Definition initialized (s : server) : Prop := is_Some (users s) /\ is_Some (meta_sessions s).

Lemma held_start boot s : fixtures s = boot -> held boot [] [] s.
Proof. intros H. split; [|apply alive_nil]. split; [|done]. intros x Hx. by apply not_elem_of_nil in Hx. Qed.

(** The constructor of the server. *)
Lemma wf_start m s :
  ContainerManager.wf m -> (forall c, ContainerManager.meta_availableTypes_ m = Some c -> is_Some (ContainerManager.live m !! c)) ->
  TioTcpServer (make m) = (Ok tt, s) -> wf s /\ initialized s.
Proof.
  intros Hm Ht E. assert (Hwf : wf (make m)).
  { split; try done; try by intros n [x Hx].
    intros c [sid y h Hy Hh|n k Hn H|n k z Hn H|n k Hn H|H|H|H|H]; simpl in *; try done.
    - destruct (ContainerManager.wf_meta m Hm) as (c' & l & ms & M1 & M2 & _). simplify_eq.
      by eapply ContainerManager.live_of_storage.
    - auto. }
  pose proof (held_start (None, None) (make m) eq_refl) as Hh. unfold TioTcpServer in E.
  apply bind_inv in E as ([] & s1 & E1 & E). eapply safe_run in E1 as [W1 H1]; [|apply safe_manager, manager_subscriber|done|done].
  unfold InitializeMetaContainers in E.
  apply bind_inv in E as (c & s2 & E2 & E). eapply safe_run in E2 as [W2 H2]; [|apply safe_manager, manager_create|done|done].
  apply bind_inv in E as ([] & s3 & E3 & E). unfold modify in E3. injection E3 as <-.
  set (s3 := set_meta _ _ _ s2) in *.
  assert (W3 : wf s3) by (apply wf_set_meta; [done|]; intros d [ [= <-]|Hd]; [apply H2; set_solver|]; by apply (wf_live s2 W2), holds_sessions).
  assert (H3 : held (Some c, None) [] [c] s3).
  { destruct (held_fixtures _ _ _ _ H2) as [_ F2]. split; [split; [|unfold fixtures; cbn; by rewrite F2]|].
    - intros x Hx. by apply not_elem_of_nil in Hx.
    - intros d Hd. apply H2. set_solver. }
  apply bind_inv in E as ([] & s4 & E4 & E). eapply safe_run in E4 as [W4 H4]; [| |done|done].
  2: { intros x. apply safe_try; [apply safe_at_weaken|intros e; apply safe_manager, manager_set_property; set_solver].
       apply safe_then; [apply safe_manager, manager_get_property; set_solver|intros ?; apply safe_ret; set_solver]. }
  rewrite bind_get in E. cbn zeta in E. rewrite bind_modify in E. set (s5 := set_meta _ _ _ s4) in *.
  assert (W5 : wf s5).
  { apply wf_set_meta; [done|]. intros d [Hd|Hd]; apply (wf_live s4 W4); [by apply holds_users|by apply holds_sessions]. }
  assert (H5 : held (Some c, None) [] [] s5) by (apply held_start, H4).
  apply bind_inv in E as (d & s6 & E6 & E). eapply safe_run in E6 as [W6 H6]; [|apply safe_manager, manager_create|done|done].
  unfold modify in E. injection E as <-. split; [|split; [|by eexists]; destruct (held_fixtures _ _ _ _ H6) as [F6 _]; cbn; rewrite F6; by eexists].
  apply wf_set_meta; [done|].
  intros x [Hx|[= <-] ]; [by apply (wf_live s6 W6), holds_users|apply H6; set_solver].
Qed.

(** What the server takes from its libraries: regular expressions, and the
    conversions between doubles and text of streams, [to_string] and
    [lexical_cast]. *)
Record library := {
  regex : bytes -> res (bytes -> bool);
  print_double : bytes -> bytes;
  to_string_double : bytes -> bytes;
  lexical_cast_double : bytes -> res bytes
}.

(** They return or throw. *)
Record library_sound (L : library) : Prop := {
  regex_sound : forall e, sound (regex L e);
  lexical_cast_sound : forall b, sound (lexical_cast_double L b)
}.

Section Reachable.
Context (L : library).

(** The oldest write of a session is over. *)
Definition write_done : M session unit := modify (fun x => set_socket (tail (in_flight_ x)) (wire_ x) x).

(** What can happen to a server besides the publisher: a command arrives for a
    session, in binary, as text or as an HTTP request, a connection is accepted,
    switched to the binary protocol, invalidated or lost, an answer is sent, a
    write completes. *)
Inductive external (s : server) : server -> Prop :=
| step_command sid message r s' :
    is_Some (sessions_ s !! sid) -> OnBinaryCommand (regex L) sid message s = (r, s') -> external s s'
| step_generate_id r s' : GenerateSessionId s = (r, s') -> external s s'
| step_accept id r s' : OnAccept id s = (r, s') -> external s s'
| step_binary sid r s' : is_Some (sessions_ s !! sid) -> go_binary sid s = (r, s') -> external s s'
| step_sent sid err sent r s' :
    is_Some (sessions_ s !! sid) -> on_session sid (_ ← write_done; OnBinaryMessageSent err sent) s = (r, s') -> external s s'
| step_written sid size err sent r s' :
    is_Some (sessions_ s !! sid) -> on_session sid (_ ← write_done; OnWrite size err sent) s = (r, s') -> external s s'
| step_failed sid r s' : is_Some (sessions_ s !! sid) -> OnClientFailed sid s = (r, s') -> external s s'
| step_text sid cmd r s' :
    is_Some (sessions_ s !! sid) ->
    TextCommands.OnTextCommand (regex L) (print_double L) (lexical_cast_double L) cmd sid s = (r, s') -> external s s'
| step_answer sid answer r s' :
    is_Some (sessions_ s !! sid) -> on_session sid (SendAnswer answer) s = (r, s') -> external s s'
| step_http sid now message r s' :
    is_Some (sessions_ s !! sid) -> Http.OnHttpCommand (to_string_double L) now message sid s = (r, s') -> external s s'
| step_invalidate sid r s' :
    is_Some (sessions_ s !! sid) -> on_session sid InvalidateConnection s = (r, s') -> external s s'
| step_http_written sid r s' :
    is_Some (sessions_ s !! sid) -> on_session sid (_ ← write_done; Http.http_written) s = (r, s') -> external s s'
| step_remove sid r s' : RemoveClient sid s = (r, s') -> external s s'.

(** The publisher goes on at any time. *)
Inductive step (s : server) : server -> Prop :=
| step_external s' : external s s' -> step s s'
| step_publisher r s' : PublisherThread (print_double L) s = (r, s') -> step s s'.

(** From a server on a container manager as [tio.cpp] sets it up. *)
Definition initial (s : server) : Prop :=
  exists aliases m, ContainerManager.SetupContainerManager aliases ContainerManager.make = (Ok tt, m) /\
    TioTcpServer (make m) = (Ok tt, s).

Definition reachable (s : server) : Prop := exists s0, initial s0 /\ rtc step s0 s.

Hypothesis sound_library : library_sound L.

Lemma server_step_wf s s' :
  wf s -> initialized s -> step s s' -> wf s' /\ initialized s'.
Proof.
  intros Hwf Hi Hs. pose proof (held_start (fixtures s) s eq_refl) as Hh. destruct sound_library as [Hr Hl].
  assert (Hin : forall s1, held (fixtures s) [] [] s1 -> initialized s1).
  { intros s1 H1. destruct (held_fixtures _ _ _ _ H1) as [E1 E2]. unfold initialized. rewrite E1, E2. exact Hi. }
  assert (Hgo : forall A (m : M server A) r s1, safe_at (fixtures s) [] [] m no_pointer s -> m s = (r, s1) ->
    wf s1 /\ initialized s1).
  { intros A m r s1 Hm E. destruct (Hm Hwf Hh) as (H1 & H2 & _). rewrite E in *. auto. }
  destruct Hi as [Hu [c Hc] ].
  destruct Hs as [s' [sid message r s2 Hx E|r s2 E|id r s2 E|sid r s2 Hx E|sid err n r s2 Hx E|sid z err n r s2 Hx E|sid r s2 Hx E
    |sid cmd r s2 Hx E|sid b r s2 Hx E|sid now m r s2 Hx E|sid r s2 Hx E|sid r s2 Hx E|sid r s2 E]|r s' E];
    lazymatch type of E with Http.OnHttpCommand _ _ _ _ _ = _ => idtac | _ => eapply Hgo; [|exact E] end.
  - apply (safe_at_locked _ _ _ sid); [done|]. apply safe_on_binary_command; [done|set_solver].
  - apply safe_at_weaken. unfold GenerateSessionId. apply safe_get. intros s1 W1 H1. cbn zeta. apply safe_at_bind with (Q := no_pointer);
      [|intros ?; apply safe_ret; set_solver]. apply safe_modify; [done..|]. intros _ _. by apply wf_set_ids.
  - apply safe_at_weaken. by eapply safe_accept.
  - apply safe_session_at; [done|]. apply session_quiet. solve_quiet.
  - apply safe_session_at; [done|]. apply session_quiet. unfold write_done. solve_quiet.
  - apply safe_session_at; [done|]. apply session_quiet. unfold write_done. solve_quiet.
  - by eapply safe_client_failed.
  - apply (safe_at_locked _ _ _ sid); [done|]. by apply safe_text_command; [set_solver|..].
  - apply safe_session_at; [done|]. apply session_quiet. solve_quiet.
  - destruct (kept_http (fixtures s) sid [sid] ltac:(set_solver) (to_string_double L) now m s Hwf) as (H1 & H2 & _).
    { by apply held_locked. }
    rewrite E in H1, H2. split; [exact H1|]. exact (Hin _ (held_unlocked _ _ _ _ _ H2)).
  - apply safe_session_at; [done|]. apply session_quiet. solve_quiet.
  - apply safe_session_at; [done|]. apply session_quiet. unfold write_done, Http.http_written. solve_quiet.
  - apply safe_at_weaken. by eapply safe_remove_client.
  - apply safe_at_weaken, safe_publisher.
Qed.

Lemma setup_manager aliases m :
  ContainerManager.SetupContainerManager aliases ContainerManager.make = (Ok tt, m) ->
  ContainerManager.wf m /\
  forall c, ContainerManager.meta_availableTypes_ m = Some c -> is_Some (ContainerManager.live m !! c).
Proof.
  unfold ContainerManager.SetupContainerManager. intros E. apply bind_inv in E as ([] & m1 & E1 & E).
  assert (m1 = ContainerManager.start) as -> by (unfold ContainerManager.start; by rewrite E1). clear E1.
  pose proof ContainerManager.start_wf as Hwf.
  assert (Ht : forall c, ContainerManager.meta_availableTypes_ ContainerManager.start = Some c ->
    is_Some (ContainerManager.live ContainerManager.start !! c)).
  { intros c Hc. vm_compute in Hc. injection Hc as <-. vm_compute. by eexists. }
  revert E Hwf Ht. generalize ContainerManager.start. induction aliases as [|[a x] l IH]; intros m0 E Hwf Ht.
  - cbn [ContainerManager.add_aliases] in E. unfold mret, M_ret in E. injection E as <-. done.
  - cbn [ContainerManager.add_aliases] in E. apply bind_inv in E as ([] & m2 & E2 & E).
    apply (IH m2 E); [pose proof (ContainerManager.wf_add_alias m0 a x Hwf) as H; by rewrite E2 in H|].
    unfold ContainerManager.AddAlias in E2. rewrite bind_get in E2. unfold modify in E2. injection E2 as <-. done.
Qed.

Lemma server_reachable_wf s : reachable s -> wf s /\ initialized s.
Proof.
  intros (s0 & (aliases & m & Em & E) & Hr). destruct (setup_manager aliases m Em) as [Hm Ht].
  destruct (wf_start m s0 Hm Ht E) as [Hwf Hms]. clear E Em Hm Ht. revert Hwf Hms.
  induction Hr as [s|s s1 s2 Hs _ IH]; intros Hwf Hms; [exact (conj Hwf Hms)|].
  destruct (server_step_wf s s1 Hwf Hms Hs) as [H1 H2]. exact (IH H1 H2).
Qed.

End Reachable.

(** ** Properties *)



(** ** Witnesses *)

Definition any_regex (e : bytes) : res (bytes -> bool) := Ok (fun _ => true).
Definition raw_double (d : bytes) : bytes := d.


(** A library whose regular expressions match everything and that takes bytes as
    they are. *)
Definition any_library : library :=
  {| regex := any_regex; print_double := raw_double; to_string_double := raw_double; lexical_cast_double := Ok |}.

Lemma any_library_sound : library_sound any_library.
Proof. by split. Qed.

Lemma accept_step L id s : step L s (OnAccept id s).2.
Proof. eapply step_external, step_accept. apply surjective_pairing. Qed.

(** A server with one session. *)
Definition ex_server : server := (OnAccept 1 started).2.

Lemma ex_server_reachable : reachable any_library ex_server.
Proof.
  exists started. split.
  - exists [], ContainerManager.start. split; vm_compute; reflexivity.
  - exact (rtc_once _ _ (accept_step any_library 1 started)).
Qed.



End ServerInvariant.
