(* ===== verification/ServerCommands.v ===== *)
(** * What a command does

    The commands of the binary protocol that read and change a container, from
    the bytes that arrive to the answer that is queued: the storage behind the
    handle does what the command says, its events are queued for the
    publisher, the client is answered, and nothing else changes. *)
From S2P Require Import Prelude StdMap StreamBuffer Pr1Message TioDataC Network Protocol ClientState ClientReceive ClientNotify ClientApi ClientCluster ClientCommands ClientConnect TioDataS Containers MapStorage MemoryStorage ContainerManager SessionMessages Session SessionOutput Sound Server ServerInvariant.

Module ServerCommands.
Import StdMap Pr1 TioDataC Protocol TioData Containers SessionMessages Session SessionOutput Server ServerInvariant.

#[local] Existing Instance MemoryStorage.any_storage.

(** ** Requests *)

(** A message as the transport delivers it. *)
Definition arrived (m : PR1_MESSAGE) (fs : list field) : Prop := exists seq post, blk_of m = enc_message fs seq ++ post.

Lemma arrived_parsed m fs :
  arrived m fs -> ClientNotify.sendable fs -> exists m', pr1_message_parse m = Ok m' /\ parsed_as m' fs.
Proof.
  intros (seq & post & Hb) (Hwf & Hn & Hsz). destruct (pr1_message_parse_ok m fs seq post) as (m' & E & Hp & _); auto; [lia|].
  by exists m'.
Qed.

Lemma on_session_run {A} sid (m : M session A) s x r x' :
  sessions_ s !! sid = Some x -> m x = (r, x') ->
  on_session sid m s = (r, set_sessions (<[sid := x']> (sessions_ s)) s).
Proof. intros Hx E. unfold on_session. by rewrite Hx, E. Qed.

Lemma set_sessions_same sid x s : sessions_ s !! sid = Some x -> set_sessions (<[sid := x]> (sessions_ s)) s = s.
Proof. intros H. rewrite insert_id by done. by destruct s. Qed.

(** Reading a whole message calls the handler with it. *)
Lemma on_message_run regex sid fs seq s :
  ClientNotify.sendable fs -> is_Some (sessions_ s !! sid) ->
  exists m, arrived m fs /\ on_message regex sid (enc_message fs seq) s = OnBinaryCommand regex sid m s.
Proof.
  intros (Hwf & Hn & Hsz) [x Hx]. pose proof (fields_size_nonneg fs).
  assert (Hlen : length (enc_message fs seq) = (8 + length (enc_fields fs))%nat) by (unfold enc_message; len).
  assert (Hdrop : drop 8 (enc_message fs seq) = enc_fields fs).
  { unfold enc_message. by rewrite !app_assoc, drop_app_length' by len. }
  destruct (Net.new_get_buffer_for_receive_ok (take 8 (enc_message fs seq)) (fields_size fs))
    as (m & room & post & Em & Hblk & Hroom); [len|apply Net.read_size_header; lia|lia|lia|].
  unfold fields_size in Hroom.
  assert (Hcheck : on_session sid (CheckError false) s = (Ok false, s)).
  { rewrite (on_session_run sid _ s x (Ok false) x) by done. by rewrite set_sessions_same. }
  assert (Est : Net.store_payload m 8 (enc_fields fs) = Ok {| stream_buffer := with_block (stream_buffer m)
      (take 8 (enc_message fs seq) ++ enc_fields fs ++ post); field_array := field_array m; field_count := field_count m |}).
  { unfold Net.store_payload. by rewrite Hblk, mem_write_seg by len. }
  eexists. split; [|unfold on_message, OnBinaryProtocolMessageHeader].
  2: { rewrite (bind_ok _ _ _ (Some (m, 8)) s).
       - rewrite Hdrop, (bind_lift_ok _ _ _ _ Est). unfold OnBinaryProtocolMessage. rewrite (bind_ok _ _ _ _ _ Hcheck). reflexivity.
       - rewrite (bind_ok _ _ _ _ _ Hcheck). by rewrite (bind_lift_ok _ _ _ _ Em). }
  exists seq, post. unfold blk_of. cbn [stream_buffer with_block StreamBuffer.buffer].
  rewrite <- (take_drop 8 (enc_message fs seq)) at 2. by rewrite Hdrop, <- app_assoc.
Qed.

(** ** Answers *)

Definition error_fields (code : Z) (description : bytes) : list field :=
  [int_field MESSAGE_FIELD_ID_COMMAND TIO_COMMAND_ANSWER; int_field MESSAGE_FIELD_ID_ERROR_CODE code;
   value_field MESSAGE_FIELD_ID_ERROR_DESC (VString (c_str description))].

(** What no output of a session changes. *)
Definition same_session (x x' : session) : Prop :=
  id_ x' = id_ x /\ handles_ x' = handles_ x /\ containerNameToHandle_ x' = containerNameToHandle_ x /\
  lastHandle_ x' = lastHandle_ x /\ binaryProtocol_ x' = binaryProtocol_ x.

Definition output_only {A} (m : M session A) : Prop := forall x, same_session x (m x).2.

Lemma output_bind {A B} (m : M session A) (f : A -> M session B) :
  output_only m -> (forall a, output_only (f a)) -> output_only (m ≫= f).
Proof.
  intros Hm Hf x. specialize (Hm x). unfold mbind, M_bind. destruct (m x) as [ [a|e] x']; cbn [snd] in *; [|done].
  specialize (Hf a x'). unfold same_session in *. intuition congruence.
Qed.

Lemma output_get {A} (f : session -> M session A) : (forall y, output_only (f y)) -> output_only (get ≫= f).
Proof. intros H x. rewrite bind_get. apply H. Qed.

Ltac solve_output :=
  repeat (cbn zeta; match goal with
  | |- output_only (get ≫= _) => apply output_get; intros
  | |- output_only (_ ≫= _) => apply output_bind; [|intros]
  | |- output_only (lift _) => intros ?; repeat split; reflexivity
  | |- output_only (mret _) => intros ?; repeat split; reflexivity
  | |- output_only (modify _) => intros ?; repeat split; reflexivity
  | |- output_only (match _ with _ => _ end) => case_match
  end).

Lemma output_send m : output_only (SendBinaryMessage m).
Proof. unfold SendBinaryMessage, IncreasePendingSendSize, SendPendingBinaryData, async_write. solve_output. Qed.

Lemma output_push l : output_only (push_messages l).
Proof. induction l as [|m l IH]; cbn [push_messages]; unfold IncreasePendingSendSize; solve_output; done. Qed.

Lemma output_sends l : output_only (SendBinaryMessages l).
Proof.
  unfold SendBinaryMessages, SendPendingBinaryData, async_write. pose proof (output_push l). solve_output; done.
Qed.

(** Everything that was given to a session since it went binary, in order; [w0]
    was on the wire before. *)
Definition outbox (w0 : bytes) (l : list (list field)) (x : session) : Prop :=
  exists done todo seqs, sending w0 done todo seqs x /\ l = done ++ todo.

Lemma outbox_send w0 l x m fs :
  outbox w0 l x -> built_as m fs -> message_ok fs -> total_size l + message_size fs < 2 ^ 31 ->
  exists x', SendBinaryMessage m x = (Ok tt, x') /\ outbox w0 (l ++ [fs]) x' /\ same_session x x'.
Proof.
  intros (dn & todo & seqs & Hs & ->) Hm Hok Hsz. rewrite total_size_app in Hsz.
  destruct (send_run w0 dn todo seqs x m fs Hs Hm Hok Hsz) as (t1 & t2 & qs & x' & E & Ht & Hs' & _).
  exists x'. split; [done|]. split; [|by pose proof (output_send m x) as H; rewrite E in H].
  exists (dn ++ t1), t2, (seqs ++ qs). split; [done|]. by rewrite <- !app_assoc, Ht.
Qed.

Lemma outbox_sends w0 l x ms fss :
  outbox w0 l x -> Forall2 built_as ms fss -> Forall message_ok fss -> total_size l + total_size fss < 2 ^ 31 ->
  exists x', SendBinaryMessages ms x = (Ok tt, x') /\ outbox w0 (l ++ fss) x' /\ same_session x x'.
Proof.
  intros (dn & todo & seqs & Hs & ->) Hm Hok Hsz. rewrite total_size_app in Hsz.
  destruct (send_messages_run w0 dn todo seqs x ms fss Hs Hm Hok Hsz) as (t1 & t2 & qs & x' & E & Ht & Hs' & _).
  exists x'. split; [done|]. split; [|by pose proof (output_sends ms x) as H; rewrite E in H].
  exists (dn ++ t1), t2, (seqs ++ qs). split; [done|]. by rewrite <- !app_assoc, Ht.
Qed.

(** *** The answers of data commands *)

Definition outs_fit (o : outs) : Prop :=
  let '(k, v, m) := o in
  (forall t, k = Some t -> value_fits t) /\ (forall t, v = Some t -> value_fits t) /\ (forall t, m = Some t -> value_fits t).

(** The answer to a result, with the words of an exception. *)
Definition answer_of (r : res outs) : list field :=
  match r with
  | Ok (k, v, m) => answer_fields k v m
  | Throw e => error_fields Net.TIO_ERROR_PROTOCOL (what e)
  end.

Lemma error_answer_run w0 l x code description :
  outbox w0 l x -> message_ok (error_fields code description) ->
  total_size l + message_size (error_fields code description) < 2 ^ 31 ->
  exists x', SendBinaryErrorAnswer code description x = (Ok tt, x') /\
    outbox w0 (l ++ [error_fields code description]) x' /\ same_session x x'.
Proof.
  intros Hx [Hn Hf] Hsz. unfold SendBinaryErrorAnswer, error_fields in *. unfold Pr1CreateMessage.
  destruct pr1_message_new_ok as (m0 & E0 & H0).
  destruct (add_field_int_ok m0 [] MESSAGE_FIELD_ID_COMMAND TIO_COMMAND_ANSWER H0) as (m1 & E1 & H1); [by apply fits_small|].
  destruct (add_field_int_ok m1 _ MESSAGE_FIELD_ID_ERROR_CODE code H1) as (m2 & E2 & H2); [by apply fits_small|].
  destruct (add_string_built m2 _ MESSAGE_FIELD_ID_ERROR_DESC description H2) as (m3 & E3 & H3); [done|].
  unfold Pr1MessageAddField_string in E3.
  rewrite (bind_lift_ok _ _ _ m3) by (rewrite E0; mrun; rewrite E1; mrun; rewrite E2; mrun; exact E3).
  exact (outbox_send w0 l x m3 _ Hx H3 (conj Hn Hf) Hsz).
Qed.

Lemma answer_data_run w0 l x k v m :
  outbox w0 l x -> outs_fit (k, v, m) -> message_ok (answer_fields k v m) ->
  total_size l + message_size (answer_fields k v m) < 2 ^ 31 ->
  exists x', SendBinaryAnswer_data k v m x = (Ok tt, x') /\ outbox w0 (l ++ [answer_fields k v m]) x' /\ same_session x x'.
Proof.
  intros Hx (Hk & Hv & Hm) [Hn Hf] Hsz. destruct (answer_data_built k v m Hk Hv Hm Hf) as (msg & E & Hb).
  unfold SendBinaryAnswer_data. rewrite (bind_lift_ok _ _ _ _ E).
  exact (outbox_send w0 l x msg _ Hx Hb (conj Hn Hf) Hsz).
Qed.

(** ** Calls on a container *)

(** The events a storage published between two states. *)
Definition published_by (a a' : MemoryStorage.AnyStorage) : list event :=
  drop (length (ContainerManager.any_published a)) (ContainerManager.any_published a').

(** The queue with these events, if anybody subscribes to the storage. *)
Definition notified (l : loc) (es : list event) (s : server) : list EventInfo :=
  match subscribers_ s !! l with
  | Some _ => eventQueue_ s ++ ((fun e => {| storageId := l; eventInfo := e |}) <$> es)
  | None => eventQueue_ s
  end.

Lemma notify_run l es : forall s,
  fold_left (fun s p => OnAnyContainerEvent p.1 p.2 s) (pair l <$> es) s =
    set_queues (notified l es s) (localEventQueue s) (interestedSubscribers s) s.
Proof.
  unfold notified. induction es as [|e es IH]; intros s; simpl.
  - destruct (subscribers_ s !! l); rewrite ?app_nil_r; by destruct s.
  - rewrite IH. unfold OnAnyContainerEvent. destruct (subscribers_ s !! l) eqn:E; simpl; rewrite E; [|done].
    by rewrite <- app_assoc.
Qed.

(** The server after storage [l] became [a']. *)
Definition changed (l : loc) (a a' : MemoryStorage.AnyStorage) (s : server) : server :=
  let c := containerManager_ s in
  set_queues (notified l (published_by a a') s) (localEventQueue s) (interestedSubscribers s)
    (set_manager (ContainerManager.add_events (pair l <$> published_by a a')
       (ContainerManager.set_memory (ContainerManager.set_storage l a' (ContainerManager.memory c)) c)) s).

Definition contains (s : server) (c l : loc) (a : MemoryStorage.AnyStorage) : Prop :=
  ContainerManager.storage_of c (containerManager_ s) = Some l /\
  ContainerManager.at_loc l (ContainerManager.memory (containerManager_ s)) = Some a.

Lemma server_call_run {A} c l a (f : M MemoryStorage.AnyStorage A) r a' s :
  contains s c l a -> f a = (r, a') -> call c f s = (r, changed l a a' s).
Proof.
  intros [Hl Ha] Hf. unfold call, on_manager. rewrite (ContainerManager.call_run c l a f r a' _ Hl Ha Hf).
  cbn [ContainerManager.events ContainerManager.add_events ContainerManager.set_memory].
  rewrite drop_app_length. f_equal. apply (notify_run l (published_by a a')).
Qed.

(** ** Data commands *)

(** What a command asks of the storage, with what it answers. *)
Definition data_command (command : Z) (k v m : TioData) : option (M MemoryStorage.AnyStorage outs) :=
  let change (f : M MemoryStorage.AnyStorage unit) := Some (_ ← f; mret (None, None, None)) in
  if command =? TIO_COMMAND_GET then Some (GetRecord k (Some None_) (Some None_) (Some None_))
  else if command =? TIO_COMMAND_POP_FRONT then Some (PopFront (Some None_) (Some None_) (Some None_))
  else if command =? TIO_COMMAND_POP_BACK then Some (PopBack (Some None_) (Some None_) (Some None_))
  else if command =? TIO_COMMAND_PUSH_BACK then change (PushBack k v m)
  else if command =? TIO_COMMAND_PUSH_FRONT then change (PushFront k v m)
  else if command =? TIO_COMMAND_SET then change (Set_ k v m)
  else if command =? TIO_COMMAND_INSERT then change (Insert k v m)
  else if command =? TIO_COMMAND_DELETE then change (Delete k v m)
  else if command =? TIO_COMMAND_CLEAR then change Clear
  else None.

(** The value of a field of the request. *)
Definition argument (v : option tio_value) : TioData := default None_ (server_value <$> v).

Definition filled (o : out) (v : option tio_value) : out :=
  match o with None => None | Some old => Some (default old (server_value <$> v)) end.

(** A request of a client on the container [c] of its session. *)
Record request (s : server) (sid h : Z) (x : session) (c : loc) (kv vv mv : option tio_value) : Prop := {
  rq_session : sessions_ s !! sid = Some x;
  rq_handle : is_int h /\ h <> 0;
  rq_container : handles_ x !! u32 h = Some c;
  rq_values : opt_ok kv /\ opt_ok vv /\ opt_ok mv
}.

Lemma find_command_handle cmd h kv vv mv :
  find_field MESSAGE_FIELD_ID_COMMAND (data_fields cmd h kv vv mv) = Some (int_field MESSAGE_FIELD_ID_COMMAND cmd) /\
  find_field MESSAGE_FIELD_ID_HANDLE (data_fields cmd h kv vv mv) = Some (int_field MESSAGE_FIELD_ID_HANDLE h).
Proof. done. Qed.

Lemma get_container_run s sid h x c kv vv mv cmd message ko vo mo :
  request s sid h x c kv vv mv -> parsed_as message (data_fields cmd h kv vv mv) ->
  GetContainerAndParametersFromRequest sid message ko vo mo s =
    (Ok (c, (filled ko kv, filled vo vv, filled mo mv)), s).
Proof.
  intros [Hx [Hh Hh0] Hc (Hk & Hv & Hm)] Hp. destruct (find_data_fields cmd h kv vv mv) as (F1 & F2 & F3).
  destruct (find_command_handle cmd h kv vv mv) as [_ F4].
  unfold GetContainerAndParametersFromRequest, Pr1MessageGetHandleKeyValueAndMetadata, get_into.
  rewrite (get_int_ok message _ MESSAGE_FIELD_ID_HANDLE (Some h) Hp F4) by (by intros z [= <-]).
  rewrite (get_data_ok message _ MESSAGE_FIELD_ID_KEY kv Hp F1 Hk), (get_data_ok message _ MESSAGE_FIELD_ID_VALUE vv Hp F2 Hv),
    (get_data_ok message _ MESSAGE_FIELD_ID_METADATA mv Hp F3 Hm).
  erewrite (bind_lift_ok _ _ _ (h, (filled ko kv, filled vo vv, filled mo mv))) by by destruct ko, vo, mo.
  rewrite (proj2 (Z.eqb_neq h 0) Hh0), (bind_lift_ok _ _ _ tt eq_refl).
  rewrite (bind_ok _ _ _ c s); [done|]. rewrite (on_session_run sid _ s x (Ok c) x Hx); [by rewrite set_sessions_same|].
  unfold GetRegisteredContainer. by rewrite bind_get, Hc.
Qed.

(** The handler calls the storage and goes on to the answer. *)
Definition answers (sid : Z) (r : res outs) (s : server) : res unit * server :=
  match r with
  | Ok (k, v, m) => on_session sid (SendBinaryAnswer_data k v m) s
  | Throw e => (Throw e, s)
  end.

Lemma change_inv {A} (g : M A unit) a (r : res outs) a' :
  (_ ← g; mret (None, None, None)) a = (r, a') ->
  exists r', g a = (r', a') /\ r = match r' with Ok _ => Ok (None, None, None) | Throw e => Throw e end.
Proof. unfold mbind, M_bind. destruct (g a) as [ [ []|e] a1]; intros [= <- <-]; eauto. Qed.

Lemma modify_run s sid h x c kv vv mv cmd message (g : TioData -> TioData -> TioData -> M MemoryStorage.AnyStorage unit)
    l a r a' :
  request s sid h x c kv vv mv -> parsed_as message (data_fields cmd h kv vv mv) -> contains s c l a ->
  on_modify cmd sid message s =
     ('(c, (key, value, metadata)) ← GetContainerAndParametersFromRequest sid message (Some None_) (Some None_) (Some None_);
      _ ← call c (g (default None_ key) (default None_ value) (default None_ metadata)); on_session sid SendBinaryAnswer) s ->
  (_ ← g (argument kv) (argument vv) (argument mv); mret (None, None, None)) a = (r, a') ->
  on_modify cmd sid message s = answers sid r (changed l a a' s).
Proof.
  intros Hq Hp Hc Hon Hg. rewrite Hon, (bind_ok _ _ _ _ _ (get_container_run _ _ _ _ _ _ _ _ _ _ _ _ _ Hq Hp)).
  apply change_inv in Hg as (r' & Hg & ->). pose proof (server_call_run c l a _ r' a' s Hc Hg) as E.
  destruct r' as [ []|e]; [by rewrite (bind_ok _ _ _ _ _ E)|by rewrite (bind_throw _ _ _ _ _ E)].
Qed.

Lemma data_command_run regex s sid h x c kv vv mv cmd message f l a r a' :
  request s sid h x c kv vv mv -> parsed_as message (data_fields cmd h kv vv mv) -> contains s c l a ->
  data_command cmd (argument kv) (argument vv) (argument mv) = Some f -> f a = (r, a') ->
  binary_command regex cmd sid message s = answers sid r (changed l a a' s).
Proof.
  intros Hq Hp Hc Hd Hf. pose proof (get_container_run _ _ _ _ _ _ _ _ _ _ (Some None_) None None Hq Hp) as G1.
  pose proof (get_container_run _ _ _ _ _ _ _ _ _ _ None None None Hq Hp) as G2.
  unfold data_command in Hd. cbn zeta in Hd.
  repeat match type of Hd with
  | (if cmd =? ?y then _ else _) = _ =>
      destruct (Z.eqb_spec cmd y) as [->|_]; [injection Hd as <-|]
  end; [| | | | | | | | |done].
  - change (on_get TIO_COMMAND_GET sid message s = answers sid r (changed l a a' s)). unfold on_get.
    rewrite (bind_ok _ _ _ _ _ G1). pose proof (server_call_run c l a _ r a' s Hc Hf) as E.
    destruct r as [ [ [k v] m]|e]; [by rewrite (bind_ok _ _ _ _ _ E)|by rewrite (bind_throw _ _ _ _ _ E)].
  - change (on_pop TIO_COMMAND_POP_FRONT sid message s = answers sid r (changed l a a' s)). unfold on_pop.
    rewrite (bind_ok _ _ _ _ _ G2). pose proof (server_call_run c l a _ r a' s Hc Hf) as E.
    destruct r as [ [ [k v] m]|e]; [by rewrite (bind_ok _ _ _ _ _ E)|by rewrite (bind_throw _ _ _ _ _ E)].
  - change (on_pop TIO_COMMAND_POP_BACK sid message s = answers sid r (changed l a a' s)). unfold on_pop.
    rewrite (bind_ok _ _ _ _ _ G2). pose proof (server_call_run c l a _ r a' s Hc Hf) as E.
    destruct r as [ [ [k v] m]|e]; [by rewrite (bind_ok _ _ _ _ _ E)|by rewrite (bind_throw _ _ _ _ _ E)].
  - by apply (modify_run s sid h x c kv vv mv TIO_COMMAND_PUSH_BACK message PushBack l a r a' Hq Hp Hc).
  - by apply (modify_run s sid h x c kv vv mv TIO_COMMAND_PUSH_FRONT message PushFront l a r a' Hq Hp Hc).
  - by apply (modify_run s sid h x c kv vv mv TIO_COMMAND_SET message Set_ l a r a' Hq Hp Hc).
  - by apply (modify_run s sid h x c kv vv mv TIO_COMMAND_INSERT message Insert l a r a' Hq Hp Hc).
  - by apply (modify_run s sid h x c kv vv mv TIO_COMMAND_DELETE message Delete l a r a' Hq Hp Hc).
  - by apply (modify_run s sid h x c kv vv mv TIO_COMMAND_CLEAR message (fun _ _ _ => Clear) l a r a' Hq Hp Hc).
Qed.

(** What is left of a command: storage [l] became [a'], its events are queued, the
    session was [answered], and the rest is as it was. *)
Record served (s : server) (sid : Z) (x : session) (c l : loc) (a a' : MemoryStorage.AnyStorage)
    (answered : session -> Prop) (s' : server) : Prop := {
  sv_storage : contains s' c l a';
  sv_storages : forall y, y <> l -> ContainerManager.at_loc y (ContainerManager.memory (containerManager_ s')) =
    ContainerManager.at_loc y (ContainerManager.memory (containerManager_ s));
  sv_session : exists x', sessions_ s' = <[sid := x']> (sessions_ s) /\ answered x' /\ same_session x x';
  sv_queue : eventQueue_ s' = notified l (published_by a a') s;
  sv_publisher : localEventQueue s' = localEventQueue s /\ interestedSubscribers s' = interestedSubscribers s;
  sv_subscriptions : subscriptions s' = subscriptions s /\ subscribers_ s' = subscribers_ s;
  sv_groups : groups_ s' = groups_ s /\ groupSubscriptions_ s' = groupSubscriptions_ s
}.

Lemma contains_changed s c l a a' : contains s c l a -> contains (changed l a a' s) c l a'.
Proof. intros [H1 H2]. split; [done|]. cbn. rewrite ContainerManager.at_set_storage. by rewrite decide_True. Qed.

(** What is held stays. *)
Lemma contains_collect s c l a : holds s c -> contains s c l a -> contains (collect s) c l a.
Proof.
  intros Hh [H1 H2]. split; [|done]. unfold ContainerManager.storage_of in *. apply bind_Some in H1 as (o & Ho & Hl).
  unfold collect. cbn [containerManager_ set_manager ContainerManager.live ContainerManager.set_live].
  rewrite (proj2 (map_lookup_filter_Some _ _ _ _)  (conj Ho (holds_owned s c Hh))). done.
Qed.

Lemma collect_sessions s m :
  collect (set_sessions m s) =
    set_manager (containerManager_ (collect (set_sessions m s))) (set_sessions m s).
Proof. done. Qed.

Lemma served_intro s sid x c l a a' (answered : session -> Prop) x' s' :
  sessions_ s !! sid = Some x -> contains s' c l a' ->
  ContainerManager.memory (containerManager_ s') = ContainerManager.memory (containerManager_ (changed l a a' s)) ->
  sessions_ s' = <[sid := x']> (sessions_ s) -> answered x' -> same_session x x' ->
  eventQueue_ s' = notified l (published_by a a') s -> localEventQueue s' = localEventQueue s ->
  interestedSubscribers s' = interestedSubscribers s -> subscriptions s' = subscriptions s ->
  subscribers_ s' = subscribers_ s -> groups_ s' = groups_ s -> groupSubscriptions_ s' = groupSubscriptions_ s ->
  served s sid x c l a a' answered s'.
Proof.
  intros Hx Hc Hm Hs Ho Hsame Hq H1 H2 H3 H4 H5 H6. split; try done; [|by eauto].
  intros y Hy. rewrite Hm. cbn. rewrite ContainerManager.at_set_storage. by rewrite decide_False.
Qed.

Lemma try_ok {A} (m : M server A) h s a s' : m s = (Ok a, s') -> try_catch m h s = (Ok a, s').
Proof. intros E. unfold try_catch. by rewrite E. Qed.

Lemma try_throw {A} (m : M server A) h s e s' :
  m s = (Throw e, s') -> (forall f, e <> Fault f) -> try_catch m h s = h e s'.
Proof. intros E He. unfold try_catch. rewrite E. destruct e; try done. by destruct (He f). Qed.

Lemma end_scope_run {A} (m : M server A) s r s' : m s = (r, s') -> end_scope m s = (r, collect s').
Proof. intros E. unfold end_scope. by rewrite E. Qed.

(** The whole handler. *)
Lemma on_command_run regex s sid h x c kv vv mv cmd message f l a r a' w0 out :
  request s sid h x c kv vv mv -> arrived message (data_fields cmd h kv vv mv) ->
  ClientNotify.sendable (data_fields cmd h kv vv mv) -> is_int cmd -> contains s c l a ->
  data_command cmd (argument kv) (argument vv) (argument mv) = Some f -> f a = (r, a') ->
  (forall g, r <> Throw (Fault g)) -> (forall o, r = Ok o -> outs_fit o) ->
  outbox w0 out x -> message_ok (answer_of r) -> total_size out + message_size (answer_of r) < 2 ^ 31 ->
  exists s', OnBinaryCommand regex sid message s = (Ok tt, s') /\
    served s sid x c l a a' (outbox w0 (out ++ [answer_of r])) s'.
Proof.
  intros Hq Ha Hsend Hcmd Hc Hd Hf Hr Hfit Hout Hok Hsz. pose proof Hq as [Hx _ Hhc _].
  destruct (arrived_parsed message _ Ha Hsend) as (m & Em & Hp). unfold OnBinaryCommand. rewrite (bind_lift_ok _ _ _ _ Em).
  destruct (find_command_handle cmd h kv vv mv) as [F1 _].
  rewrite (bind_lift_ok _ _ _ (Some cmd)) by (apply (get_int_ok m _ _ (Some cmd) Hp F1); by intros z [= <-]).
  pose proof (data_command_run regex s sid h x c kv vv mv cmd m f l a r a' Hq Hp Hc Hd Hf) as E.
  set (s1 := changed l a a' s) in *. assert (Hx1 : sessions_ s1 !! sid = Some x) by done.
  assert (Hh1 : holds s1 c) by (by eapply holds_handle).
  pose proof (contains_changed s c l a a' Hc) as Hc1. fold s1 in Hc1.
  destruct r as [ [ [k v] md]|e]; cbn [answers answer_of] in *.
  - destruct (answer_data_run w0 out x k v md Hout (Hfit _ eq_refl) Hok Hsz) as (x' & Es & Ho & Hsame).
    rewrite (on_session_run sid _ s1 x _ x' Hx1 Es) in E.
    eexists. split; [apply try_ok, end_scope_run; exact E|].
    apply (served_intro s sid x c l a a' _ x'); [exact Hx| |reflexivity|reflexivity|exact Ho|exact Hsame|reflexivity..].
    apply contains_collect; [|exact Hc1].
    eapply holds_handle; [apply lookup_insert_eq|]. destruct Hsame as (_ & -> & _). done.
  - destruct (error_answer_run w0 out x Net.TIO_ERROR_PROTOCOL (what e) Hout Hok Hsz) as (x' & Es & Ho & Hsame).
    assert (Hx2 : sessions_ (collect s1) !! sid = Some x) by exact Hx1.
    pose proof (contains_collect s1 c l a' Hh1 Hc1) as Hc2.
    exists (set_sessions (<[sid := x']> (sessions_ (collect s1))) (collect s1)). split.
    + rewrite (try_throw _ _ _ e (collect s1)); [by apply (on_session_run sid _ (collect s1) x)|by apply end_scope_run|].
      intros g ->. by destruct (Hr g).
    + apply (served_intro s sid x c l a a' _ x');
        [exact Hx|exact Hc2|reflexivity|reflexivity|exact Ho|exact Hsame|reflexivity..].
Qed.

Lemma data_command_int cmd k v m f : data_command cmd k v m = Some f -> is_int cmd.
Proof.
  unfold data_command. cbn zeta. intros H.
  repeat match type of H with
  | (if cmd =? ?y then _ else _) = _ =>
      destruct (Z.eqb_spec cmd y) as [->|_]; [clear; by vm_compute|]
  end. done.
Qed.

(** A session with a request on one of its containers, and what that container's
    storage gives. *)
Record callee (s : server) (sid h cmd : Z) (kv vv mv : option tio_value) (x : session) (c l : loc)
    (a : MemoryStorage.AnyStorage) (r : res outs) (a' : MemoryStorage.AnyStorage) (w0 : bytes) (out : list (list field))
  : Prop := {
  ce_request : request s sid h x c kv vv mv;
  ce_sendable : fits (data_fields cmd h kv vv mv);
  ce_contains : contains s c l a;
  ce_storage : exists f, data_command cmd (argument kv) (argument vv) (argument mv) = Some f /\ f a = (r, a');
  ce_no_fault : forall g, r <> Throw (Fault g);
  ce_fits : forall o, r = Ok o -> outs_fit o;
  ce_outbox : outbox w0 out x;
  ce_answer : message_ok (answer_of r);
  ce_size : total_size out + message_size (answer_of r) < 2 ^ 31
}.

Lemma data_fields_sendable cmd h kv vv mv :
  opt_ok kv -> opt_ok vv -> opt_ok mv -> fits (data_fields cmd h kv vv mv) ->
  ClientNotify.sendable (data_fields cmd h kv vv mv).
Proof.
  intros Hk Hv Hm Hf. split; [by apply data_fields_wf|]. pose proof (length_data_fields cmd h kv vv mv).
  unfold fits, header_size in Hf. split; lia.
Qed.

Lemma serve_run regex s sid h cmd kv vv mv x c l a r a' w0 out seq :
  callee s sid h cmd kv vv mv x c l a r a' w0 out ->
  exists s', on_message regex sid (enc_message (data_fields cmd h kv vv mv) seq) s = (Ok tt, s') /\
    served s sid x c l a a' (outbox w0 (out ++ [answer_of r])) s'.
Proof.
  intros [Hq Hf Hc (f & Hd & Ha) Hr Hfit Ho Hok Hsz]. pose proof Hq as [Hx _ _ (Hk & Hv & Hm)].
  pose proof (data_fields_sendable cmd h kv vv mv Hk Hv Hm Hf) as Hsend.
  destruct (on_message_run regex sid (data_fields cmd h kv vv mv) seq s Hsend) as (m & Harr & ->); [by eexists|].
  by apply (on_command_run regex s sid h x c kv vv mv cmd m f l a r a' w0 out Hq Harr Hsend (data_command_int _ _ _ _ _ Hd)).
Qed.

(** *** Handles that are not open *)

Definition unknown_handle : list field := error_fields Net.TIO_ERROR_PROTOCOL (lit "invalid handle").

Lemma unknown_handle_run regex s sid h cmd kv vv mv x f w0 out seq :
  sessions_ s !! sid = Some x -> is_int h -> h <> 0 -> handles_ x !! u32 h = None ->
  opt_ok kv -> opt_ok vv -> opt_ok mv -> fits (data_fields cmd h kv vv mv) ->
  data_command cmd (argument kv) (argument vv) (argument mv) = Some f ->
  outbox w0 out x -> total_size out < 2 ^ 31 - 2 ^ 8 ->
  exists x', on_message regex sid (enc_message (data_fields cmd h kv vv mv) seq) s =
      (Ok tt, set_sessions (<[sid := x']> (sessions_ s)) (collect s)) /\
    outbox w0 (out ++ [unknown_handle]) x' /\ same_session x x'.
Proof.
  intros Hx Hh H0 Hn Hk Hv Hm Hf Hd Ho Hsz. pose proof (data_fields_sendable cmd h kv vv mv Hk Hv Hm Hf) as Hsend.
  destruct (on_message_run regex sid (data_fields cmd h kv vv mv) seq s Hsend) as (m0 & Harr & ->); [by eexists|].
  destruct (arrived_parsed m0 _ Harr Hsend) as (m & Em & Hp). unfold OnBinaryCommand. rewrite (bind_lift_ok _ _ _ _ Em).
  destruct (find_command_handle cmd h kv vv mv) as [F1 F4]. pose proof (data_command_int _ _ _ _ _ Hd) as Hcmd.
  rewrite (bind_lift_ok _ _ _ (Some cmd)) by (apply (get_int_ok m _ _ (Some cmd) Hp F1); by intros z [= <-]).
  assert (G : forall ko vo mo, GetContainerAndParametersFromRequest sid m ko vo mo s = (Throw invalid_handle, s)).
  { intros ko vo mo. destruct (find_data_fields cmd h kv vv mv) as (F5 & F2 & F3).
    unfold GetContainerAndParametersFromRequest, Pr1MessageGetHandleKeyValueAndMetadata, get_into.
    rewrite (get_int_ok m _ MESSAGE_FIELD_ID_HANDLE (Some h) Hp F4) by (by intros z [= <-]).
    rewrite (get_data_ok m _ MESSAGE_FIELD_ID_KEY kv Hp F5 Hk), (get_data_ok m _ MESSAGE_FIELD_ID_VALUE vv Hp F2 Hv),
      (get_data_ok m _ MESSAGE_FIELD_ID_METADATA mv Hp F3 Hm).
    erewrite (bind_lift_ok _ _ _ (h, (filled ko kv, filled vo vv, filled mo mv))) by by destruct ko, vo, mo.
    rewrite (proj2 (Z.eqb_neq h 0) H0), (bind_lift_ok _ _ _ tt eq_refl).
    apply bind_throw. rewrite (on_session_run sid _ s x (Throw invalid_handle) x Hx); [by rewrite set_sessions_same|].
    unfold GetRegisteredContainer. by rewrite bind_get, Hn. }
  assert (E : binary_command regex cmd sid m s = (Throw invalid_handle, s)).
  { unfold data_command in Hd. cbn zeta in Hd.
    repeat match type of Hd with
    | (if cmd =? ?y then _ else _) = _ => destruct (Z.eqb_spec cmd y) as [->|_]; [exact (bind_throw _ _ _ _ _ (G _ _ _))|]
    end. done. }
  destruct (error_answer_run w0 out x Net.TIO_ERROR_PROTOCOL (lit "invalid handle") Ho) as (x' & Es & Ho' & Hsame).
  { split; [vm_compute; reflexivity|]. apply fits_small. vm_compute. reflexivity. }
  { assert (message_size (error_fields Net.TIO_ERROR_PROTOCOL (lit "invalid handle")) = 54) as -> by (vm_compute; reflexivity). lia. }
  exists x'. split; [|exact (conj Ho' Hsame)]. rewrite (try_throw _ _ _ invalid_handle (collect s)); [|by apply end_scope_run|done].
  exact (on_session_run sid _ (collect s) x _ x' Hx Es).
Qed.

(** ** Opening containers *)

Definition handle_fields (h : Z) : list field :=
  [int_field MESSAGE_FIELD_ID_COMMAND TIO_COMMAND_ANSWER; int_field MESSAGE_FIELD_ID_HANDLE h].

Lemma handle_answer_built h : exists m,
  (answer ← Pr1CreateMessage;
   answer ← pr1_message_add_field_int answer MESSAGE_FIELD_ID_COMMAND TIO_COMMAND_ANSWER;
   pr1_message_add_field_int answer MESSAGE_FIELD_ID_HANDLE h) = Ok m /\ built_as m (handle_fields h).
Proof.
  unfold Pr1CreateMessage. destruct pr1_message_new_ok as (m0 & E0 & H0).
  destruct (add_field_int_ok m0 [] MESSAGE_FIELD_ID_COMMAND TIO_COMMAND_ANSWER H0) as (m1 & E1 & H1); [by apply fits_small|].
  destruct (add_field_int_ok m1 _ MESSAGE_FIELD_ID_HANDLE h H1) as (m2 & E2 & H2); [by apply fits_small|].
  exists m2. split; [|done]. rewrite E0. mrun. rewrite E1. mrun. exact E2.
Qed.

Lemma outbox_handles w0 l h n k x : outbox w0 l x -> outbox w0 l (set_handles h n k x).
Proof. intros (dn & todo & seqs & [] & ->). exists dn, todo, seqs. by split. Qed.

(** The command that asks for an operation of the manager. *)
Definition open_command (op : ContainerManager.OperationType) : Z :=
  match op with ContainerManager.create => TIO_COMMAND_CREATE | ContainerManager.open => TIO_COMMAND_OPEN end.

Definition open_request (op : ContainerManager.OperationType) (nm : bytes) (type : option bytes) : list field :=
  ClientConnect.open_fields (open_command op) nm type.

Lemma open_request_sendable op nm type : fits (open_request op nm type) -> ClientNotify.sendable (open_request op nm type).
Proof.
  intros Hf. pose proof (fields_size_nonneg (open_request op nm type)).
  assert (Hin : forall id s, value_field id (VString s) ∈ open_request op nm type -> value_ok (VString s)).
  { intros id s Hs. pose proof (fields_size_in _ _ Hs) as H'. unfold f_size in H'. simpl in H'. simpl.
    unfold fits, header_size in Hf. lia. }
  split; [|split; [by destruct type|unfold fits, header_size in Hf; lia] ].
  assert (Hc : field_wf (int_field MESSAGE_FIELD_ID_COMMAND (open_command op)))
    by (apply field_wf_value; [done|by destruct op]).
  assert (Hs : forall id v, value_field id (VString v) ∈ open_request op nm type -> 0 < id <= MESSAGE_FIELD_ID_MAX_VALUE ->
    field_wf (value_field id (VString v))) by (intros id v Hv Hid; apply field_wf_value; [done|by eapply Hin]).
  destruct type as [t|]; repeat (apply Forall_cons_2; [|]); try apply Forall_nil_2; try exact Hc;
    (apply Hs; [first [apply list_elem_of_further, list_elem_of_here
      | apply list_elem_of_further, list_elem_of_further, list_elem_of_here]|done]).
Qed.

Lemma on_open_parsed op nm type m :
  parsed_as m (open_request op nm type) ->
  Pr1MessageGetField_int m MESSAGE_FIELD_ID_COMMAND = Ok (Some (open_command op)) /\
  Pr1MessageGetField_string m MESSAGE_FIELD_ID_NAME = Ok (Some nm) /\
  Pr1MessageGetField_string m MESSAGE_FIELD_ID_TYPE = Ok type.
Proof.
  intros Hp. split; [|split].
  - apply (get_int_ok m _ _ (Some (open_command op)) Hp); [done|]. intros z [= <-]. by destruct op.
  - by apply (get_string_ok m _ _ (Some nm) Hp).
  - apply (get_string_ok m _ _ type Hp). by destruct type.
Qed.

Lemma open_container_run regex s sid x op nm type seq w0 out l reg :
  wf s -> sessions_ s !! sid = Some x -> containerNameToHandle_ x !! nm = None ->
  handles_ x !! u32 (lastHandle_ x + 1) = None -> (op = ContainerManager.create -> default [] type <> []) ->
  fits (open_request op nm type) -> outbox w0 out x -> total_size out < 2 ^ 31 - 2 ^ 8 ->
  ContainerManager.r_create_or_open (ContainerManager.aliases_ (containerManager_ s)) op (default [] type) nm
    (ContainerManager.abstract (containerManager_ s)) = Some (l, reg) ->
  exists s' c x', on_message regex sid (enc_message (open_request op nm type) seq) s = (Ok tt, s') /\
    sessions_ s' = <[sid := x']> (sessions_ s) /\
    handles_ x' = <[u32 (lastHandle_ x + 1) := c]> (handles_ x) /\
    ContainerManager.storage_of c (containerManager_ s') = Some l /\
    outbox w0 (out ++ [handle_fields (u32 (lastHandle_ x + 1))]) x'.
Proof.
  intros Hwf Hx Hn Hh Hty Hf Ho Hsz Hr. pose proof (open_request_sendable op nm type Hf) as Hsend.
  destruct (on_message_run regex sid (open_request op nm type) seq s Hsend) as (m0 & Harr & ->); [by eexists|].
  destruct (arrived_parsed m0 _ Harr Hsend) as (m & Em & Hp). destruct (on_open_parsed op nm type m Hp) as (P1 & P2 & P3).
  unfold OnBinaryCommand. rewrite (bind_lift_ok _ _ _ _ Em), (bind_lift_ok _ _ _ _ P1).
  set (h := u32 (lastHandle_ x + 1)) in *.
  pose proof (ContainerManager.create_or_open_agrees (containerManager_ s) (ContainerManager.abstract (containerManager_ s))
    (default [] type) op nm (wf_manager s Hwf) (ContainerManager.abstract_represents _)) as Hag.
  rewrite Hr in Hag. destruct Hag as (c & cm & Ec & Hc & _).
  assert (Hman : exists q, on_manager (ContainerManager.CreateOrOpen (default [] type) op nm) s =
    (Ok c, set_queues q (localEventQueue s) (interestedSubscribers s) (set_manager cm s))).
  { unfold on_manager. rewrite Ec. edestruct events_queue as [q ->]. by exists q. }
  destruct Hman as [q Eman]. set (s1 := set_queues q _ _ _) in *.
  set (x1 := set_handles (<[h := c]> (handles_ x)) (<[nm := h]> (containerNameToHandle_ x)) h x).
  assert (Ereg : RegisterContainer nm c x = (Ok h, x1)) by (unfold RegisterContainer; rewrite bind_get, Hn; fold h; by rewrite Hh).
  destruct (handle_answer_built h) as (ans & Eans & Hans).
  destruct (outbox_send w0 out x1 ans (handle_fields h)) as (x2 & Es & Ho2 & Hsame); [by apply outbox_handles|done| |
    change (message_size (handle_fields h)) with 32; lia|].
  { split; [done|by apply fits_small]. }
  set (s2 := set_sessions (<[sid := x1]> (sessions_ s1)) s1).
  set (s3 := set_sessions (<[sid := x2]> (sessions_ s2)) s2).
  assert (E : on_open_create (open_command op) sid m s = (Ok tt, s3)).
  { unfold on_open_create. rewrite (bind_lift_ok _ _ _ _ P2), (bind_lift_ok _ _ _ _ P3). cbn zeta.
    replace ((open_command op =? TIO_COMMAND_CREATE) && bool_decide (default [] type = [])) with false
      by (destruct op; [|done]; rewrite bool_decide_false by auto; done).
    rewrite (bind_ok _ _ _ c s1) by (by destruct op).
    rewrite (bind_ok _ _ _ h s2) by (by apply (on_session_run sid _ s1 x)).
    rewrite (bind_lift_ok _ _ _ _ Eans). apply (on_session_run sid _ s2 x1); [apply lookup_insert_eq|done]. }
  assert (Eb : binary_command regex (open_command op) sid m s = (Ok tt, s3)) by by destruct op.
  exists (collect s3), c, x2. split; [exact (try_ok _ _ _ _ _ (end_scope_run _ _ _ _ Eb))|].
  split; [exact (insert_insert_eq _ _ _ _)|]. destruct Hsame as (_ & Hsame & _). split; [exact Hsame|]. split; [|done].
  assert (Hhold : holds s3 c).
  { eapply holds_handle; [apply lookup_insert_eq|]. rewrite Hsame. apply lookup_insert_eq. }
  unfold ContainerManager.storage_of in *. apply bind_Some in Hc as (o & Ho' & Hl).
  unfold collect. cbn [containerManager_ set_manager ContainerManager.live ContainerManager.set_live].
  by rewrite (proj2 (map_lookup_filter_Some _ _ _ _) (conj Ho' (holds_owned s3 c Hhold))).
Qed.

(** ** Properties *)

(** A data command does what it says.  For the bytes of a request to get, set,
    insert, delete, push, pop or clear on an open handle, the server calls that
    operation of the storage behind the handle; the storage is left as the
    operation leaves it, its events are queued if anybody subscribes; the
    client is sent the key, value and metadata of the result, or, when the
    operation throws, an error answer with the exception's words; other
    storages, sessions, subscriptions and groups do not change. *)
Theorem server_data_command regex s sid h cmd kv vv mv x c l a r a' w0 out seq :
  callee s sid h cmd kv vv mv x c l a r a' w0 out ->
  exists s', on_message regex sid (enc_message (data_fields cmd h kv vv mv) seq) s = (Ok tt, s') /\
    served s sid x c l a a' (outbox w0 (out ++ [answer_of r])) s'.
Proof. apply serve_run. Qed.

(** A data command on a handle that is not open changes nothing and is answered
    with an error. *)
Theorem server_unknown_handle regex s sid h cmd kv vv mv x f w0 out seq :
  sessions_ s !! sid = Some x -> is_int h -> h <> 0 -> handles_ x !! u32 h = None ->
  opt_ok kv -> opt_ok vv -> opt_ok mv -> fits (data_fields cmd h kv vv mv) ->
  data_command cmd (argument kv) (argument vv) (argument mv) = Some f ->
  outbox w0 out x -> total_size out < 2 ^ 31 - 2 ^ 8 ->
  exists x', on_message regex sid (enc_message (data_fields cmd h kv vv mv) seq) s =
      (Ok tt, set_sessions (<[sid := x']> (sessions_ s)) (collect s)) /\
    outbox w0 (out ++ [error_fields Net.TIO_ERROR_PROTOCOL (lit "invalid handle")]) x' /\ same_session x x'.
Proof. apply unknown_handle_run. Qed.


(** ** Witnesses *)

(** A server with a binary session that has the users' map open. *)
Definition ex_container : loc := default 0%nat (users started).
Definition ex_session : session := set_handles {[1 := ex_container]} {[lit "__meta__/users" := 1]} 1 (binary_session 1).
Definition ex_serving : server := set_sessions {[1 := ex_session]} started.

Lemma ex_outbox : outbox [] [] ex_session.
Proof. apply outbox_handles. exists [], [], []. split; [apply binary_session_sending|done]. Qed.

Definition ex_key : option tio_value := Some (VString (lit "me")).
Definition ex_value : option tio_value := Some (VInt 5).

Definition ex_storage : loc := default 0%nat (ContainerManager.storage_of ex_container (containerManager_ started)).
Definition ex_users : MemoryStorage.AnyStorage :=
  default (MemoryStorage.AnyMap (MapStorage.make [] []))
    (ContainerManager.at_loc ex_storage (ContainerManager.memory (containerManager_ started))).
Definition ex_result : res outs * MemoryStorage.AnyStorage :=
  (_ ← Set_ (argument ex_key) (argument ex_value) None_; mret (None, None, None)) ex_users.

Lemma ex_request : request ex_serving 1 1 ex_session ex_container ex_key ex_value None.
Proof.
  split; [apply lookup_singleton_eq|split; [vm_compute; split; discriminate|discriminate]|apply lookup_singleton_eq|].
  split; [|split]; intros v' [= <-]; vm_compute; [reflexivity|split; discriminate].
Qed.

Lemma ex_callee : callee ex_serving 1 1 TIO_COMMAND_SET ex_key ex_value None ex_session ex_container ex_storage ex_users
  ex_result.1 ex_result.2 [] [].
Proof.
  assert (Hr : ex_result.1 = Ok (None, None, None)) by (vm_compute; reflexivity).
  split.
  - exact ex_request.
  - apply fits_small. vm_compute. reflexivity.
  - split; vm_compute; reflexivity.
  - eexists. split; [reflexivity|]. exact (surjective_pairing ex_result).
  - intros g. rewrite Hr. discriminate.
  - intros o. rewrite Hr. intros [= <-]. split; [|split]; discriminate.
  - exact ex_outbox.
  - rewrite Hr. split; [vm_compute; reflexivity|]. apply fits_small. vm_compute. reflexivity.
  - rewrite Hr. vm_compute. reflexivity.
Qed.

Lemma server_data_command_witness :
  exists s', on_message any_regex 1 (enc_message (data_fields TIO_COMMAND_SET 1 ex_key ex_value None) 0) ex_serving = (Ok tt, s') /\
    contains s' ex_container ex_storage ex_result.2.
Proof.
  destruct (server_data_command any_regex ex_serving 1 1 TIO_COMMAND_SET ex_key ex_value None ex_session ex_container ex_storage
    ex_users ex_result.1 ex_result.2 [] [] 0 ex_callee) as (s' & E & Hs).
  exists s'. split; [exact E|exact (sv_storage _ _ _ _ _ _ _ _ _ Hs)].
Defined.

Lemma server_unknown_handle_witness :
  exists x', on_message any_regex 1 (enc_message (data_fields TIO_COMMAND_SET 2 ex_key ex_value None) 0) ex_serving =
      (Ok tt, set_sessions (<[1 := x']> (sessions_ ex_serving)) (collect ex_serving)).
Proof.
  destruct (rq_values _ _ _ _ _ _ _ _ ex_request) as (H1 & H2 & H3).
  destruct (server_unknown_handle any_regex ex_serving 1 2 TIO_COMMAND_SET ex_key ex_value None ex_session
    (_ ← Set_ (argument ex_key) (argument ex_value) (argument None); mret (None, None, None)) [] [] 0) as (x' & E & _).
  - apply lookup_singleton_eq.
  - vm_compute. split; discriminate.
  - discriminate.
  - reflexivity.
  - exact H1.
  - exact H2.
  - exact H3.
  - apply fits_small. vm_compute. reflexivity.
  - reflexivity.
  - exact ex_outbox.
  - vm_compute. reflexivity.
  - exists x'. exact E.
Defined.

Lemma started_reachable : reachable any_library started.
Proof. exists started. split; [|apply rtc_refl]. exists [], ContainerManager.start. split; vm_compute; reflexivity. Qed.

Definition ex_opening : server := set_sessions (<[1 := binary_session 1]> (sessions_ started)) started.

Lemma ex_opening_wf : wf ex_opening.
Proof.
  destruct (server_reachable_wf any_library any_library_sound started started_reachable) as [Hwf _].
  exact (wf_new_session started 1 (binary_session 1) eq_refl Hwf).
Qed.


End ServerCommands.
