(* ===== verification/EndToEnd.v ===== *)
(** * A client and the server

    The client library's calls, composed with the server: the request a call
    sends is served, the answer goes through the session's queue and the wire
    behind whatever notifications were queued before it, and the call returns
    what the storage gave. *)
From S2P Require Import Prelude StdMap StreamBuffer Pr1Message TioDataC Network EventQueue Protocol ClientState ClientReceive ClientNotify ClientApi ClientCommands TioDataS Containers MapStorage MemoryStorage ContainerManager SessionMessages Session SessionOutput Sound Server ServerInvariant ServerCommands.

Module EndToEnd.
Import Pr1 TioDataC Protocol TioData Containers SessionMessages Session SessionOutput Server ServerInvariant ServerCommands.
Import ClientState ClientNotify ClientApi ClientCommands.

#[local] Existing Instance MemoryStorage.any_storage.

(** ** Answers as a client reads them *)

(** A value that is none is not sent. *)
Definition sent_value (o : option TioData) : option tio_value :=
  match o with Some None_ | None => None | Some t => Some (client_value t) end.

Definition error_of (r : res outs) : option (Z * option bytes) :=
  match r with Ok _ => None | Throw e => Some (Net.TIO_ERROR_PROTOCOL, Some (c_str (what e))) end.

Definition sent_values (r : res outs) : option tio_value * option tio_value * option tio_value :=
  match r with Ok (k, v, m) => (sent_value k, sent_value v, sent_value m) | Throw _ => (None, None, None) end.

Lemma sent_value_ok o : (forall t, o = Some t -> value_fits t) -> opt_ok (sent_value o).
Proof. intros H v. destruct o as [ []|]; simpl; try done; intros [= <-]; by apply (H _ eq_refl). Qed.

Lemma answer_is_answer r : is_answer (answer_of r) TIO_COMMAND_ANSWER.
Proof. by destruct r as [ [ [k v] m]|e]. Qed.

Lemma answer_has_error r : answer_error (answer_of r) (error_of r).
Proof.
  destruct r as [ [ [k v] m]|e]; [|done]. simpl. unfold answer_fields, values_fields.
  destruct k as [ []|], v as [ []|], m as [ []|]; reflexivity.
Qed.

Lemma answer_has_data r : (forall o, r = Ok o -> outs_fit o) ->
  answer_data (answer_of r) (sent_values r).1.1 (sent_values r).1.2 (sent_values r).2.
Proof.
  intros Hfit. destruct r as [ [ [k v] m]|e]; [|done]. destruct (Hfit _ eq_refl) as (Hk & Hv & Hm).
  cbn [sent_values fst snd answer_of]. split; [|split; [|split; [|auto using sent_value_ok] ] ]; clear;
    unfold answer_fields, values_fields; destruct k as [ []|], v as [ []|], m as [ []|]; reflexivity.
Qed.

Lemma answer_sendable r :
  (forall o, r = Ok o -> outs_fit o) -> message_ok (answer_of r) -> sendable (answer_of r).
Proof.
  intros Hfit [Hn Hf]. pose proof (fields_size_nonneg (answer_of r)).
  split; [|split; [done|unfold fits, header_size in Hf; lia] ].
  destruct r as [ [ [k v] m]|e].
  - destruct (Hfit _ eq_refl) as (Hk & Hv & Hm). cbn [answer_of]. unfold answer_fields, values_fields.
    apply Forall_cons_2; [by apply field_wf_value|].
    assert (Hset : forall id o, (forall t, o = Some t -> value_fits t) -> 0 < id <= MESSAGE_FIELD_ID_MAX_VALUE ->
      Forall field_wf (set_field id o)).
    { intros id o Ho Hid. destruct o as [t|]; [|done]. pose proof (Ho t eq_refl).
      destruct t; [done|..]; (apply Forall_singleton; by apply field_wf_value). }
    repeat apply Forall_app_2; by apply Hset.
  - cbn [answer_of]. unfold error_fields. repeat apply Forall_cons_2; [by apply field_wf_value..| |by apply Forall_nil_2].
    apply field_wf_value; [done|]. simpl.
    pose proof (fields_size_in (value_field MESSAGE_FIELD_ID_ERROR_DESC (VString (c_str (what e)))) (answer_of (Throw e))
      ltac:(do 2 apply list_elem_of_further; apply list_elem_of_here)) as Hs.
    unfold f_size in Hs. cbn [value_field f_data] in Hs. unfold fits, header_size in Hf. lia.
Qed.

(** ** The wire *)

(** When all writes have completed, everything given to the session is on the
    wire, in order. *)
Lemma outbox_drains w0 l x :
  outbox w0 l x -> total_size l < 2 ^ 31 -> Forall (fun fs => message_size fs <= SEND_BUFFER_SIZE) l ->
  exists seqs x', outputs (replicate (S (length l)) Written) x = (Ok tt, x') /\
    wire_ x' = w0 ++ wire (zip l seqs) /\ length seqs = length l.
Proof.
  intros (dn & todo & seqs & Hs & ->) Hsz Hfit. rewrite total_size_app in Hsz.
  destruct (writes_drain w0 (S (length (dn ++ todo))) dn todo seqs x Hs) as (qs & x' & E & Hs' & _).
  - done.
  - by apply Forall_app in Hfit as [_ ?].
  - rewrite length_app. lia.
  - exists (seqs ++ qs), x'. split; [done|]. split; [apply (snd_wire _ _ _ _ _ Hs')|apply (snd_seqs _ _ _ _ _ Hs')].
Qed.

(** ** The calling client *)

(** A client about to call a command on its container, which has not read the
    notifications [fsl] yet. *)
Record caller (p s cp : Z) (cont : TIO_CONTAINER) (c : client) (r : registry) (fsl : list (list field))
    (ns : list notification) (scr : list Net.select_event) : Prop := {
  cl_serves : serves p s c r;
  cl_container : conts c !! cp = Some cont;
  cl_connection : connection cont = p;
  cl_send : Net.send_script (net c) = [];
  cl_description : length (Net.g_last_error_description (net c)) = 255%nat;
  cl_carries : Forall2 carries fsl ns;
  cl_sendable : Forall sendable fsl;
  cl_admissible : all_admissible p r ns;
  cl_select : Net.select_script (net c) = replicate (S (length ns)) (Net.SelReady [s]) ++ scr
}.

Lemma zip_carries fsl ns : forall seqs, Forall2 carries fsl ns -> length seqs = length fsl ->
  Forall2 (fun (x : list field * Z) n => carries x.1 n) (zip fsl seqs) ns.
Proof.
  revert ns. induction fsl as [|fs fsl IH]; intros ns [|q seqs] H Hl; try discriminate Hl;
    inversion H; subst; [by constructor..|].
  simpl. apply Forall2_cons. split; [done|]. apply IH; [done|]. by injection Hl.
Qed.

Lemma zip_sendable fsl : forall seqs, Forall sendable fsl -> Forall (fun x : list field * Z => sendable x.1) (zip fsl seqs).
Proof.
  induction fsl as [|fs fsl IH]; intros [|q seqs] H; try by constructor. apply Forall_cons in H as [H1 H2].
  simpl. apply Forall_cons. split; [done|]. by apply IH.
Qed.

(** With the server's bytes in its stream, the client is ready. *)
Lemma caller_ready p s cp cont c r fsl ns scr ans seqs q rest :
  caller p s cp cont c r fsl ns scr -> is_answer ans TIO_COMMAND_ANSWER -> sendable ans -> length seqs = length fsl ->
  Net.stream (net c) s = (wire (zip fsl seqs) ++ enc_message ans q) ++ rest ->
  ready p s cp cont c r (zip fsl seqs) ns ans q rest scr.
Proof.
  intros [C1 C2 C3 C4 C5 C6 C7 C8 C9] Ha Hs Hl Hst. split; try done.
  split; [by apply zip_carries|by apply zip_sendable|done|by eexists|done|by rewrite Hst, <- app_assoc|done].
Qed.

(** The wire of an outbox that ends with an answer. *)
Lemma wire_split consumed fsl ans seqs :
  length seqs = length (consumed ++ fsl ++ [ans]) ->
  exists s1 s2 q, length s1 = length consumed /\ length s2 = length fsl /\
    wire (zip (consumed ++ fsl ++ [ans]) seqs) = wire (zip consumed s1) ++ wire (zip fsl s2) ++ enc_message ans q.
Proof.
  intros Hl. rewrite !length_app in Hl. simpl in Hl.
  exists (take (length consumed) seqs), (take (length fsl) (drop (length consumed) seqs)).
  destruct (drop (length fsl) (drop (length consumed) seqs)) as [|q tl] eqn:Eq.
  { apply (f_equal length) in Eq. rewrite !length_drop in Eq. simpl in Eq. lia. }
  assert (tl = []) as -> by (apply (f_equal length) in Eq; rewrite !length_drop in Eq; simpl in Eq; destruct tl; [done|simpl in Eq; lia]).
  exists q. split; [len|]. split; [len|].
  rewrite <- (take_drop (length consumed) seqs) at 1. rewrite zip_with_app by len. rewrite wire_app. f_equal.
  rewrite <- (take_drop (length fsl) (drop (length consumed) seqs)) at 1. rewrite zip_with_app by len. rewrite wire_app, Eq.
  f_equal. unfold wire. simpl. by rewrite app_nil_r.
Qed.

Lemma data_command_u16 cmd k v m f : data_command cmd k v m = Some f -> 0 <= cmd < 2 ^ 16.
Proof.
  unfold data_command. cbn zeta. intros H.
  repeat match type of H with
  | (if cmd =? ?y then _ else _) = _ => destruct (Z.eqb_spec cmd y) as [->|_]; [clear; by vm_compute|]
  end. done.
Qed.

(** ** Calls *)

(** The server's side of a call: the request is served and the bytes that follow
    what the client has consumed are the notifications and the answer. *)
Lemma call_served regex S sid h cmd kv vv mv x cc l a res a' w0 consumed fsl :
  callee S sid h cmd kv vv mv x cc l a res a' w0 (consumed ++ fsl) ->
  Forall (fun fs => message_size fs <= SEND_BUFFER_SIZE) (consumed ++ fsl ++ [answer_of res]) ->
  exists S' x' x2 s1 s2 q, on_message regex sid (enc_message (data_fields cmd h kv vv mv) 0) S = (Ok tt, S') /\
    served S sid x cc l a a' (outbox w0 (consumed ++ fsl ++ [answer_of res])) S' /\ sessions_ S' !! sid = Some x' /\
    outputs (replicate (Datatypes.S (length (consumed ++ fsl ++ [answer_of res]))) Written) x' = (Ok tt, x2) /\
    wire_ x2 = w0 ++ wire (zip consumed s1) ++ wire (zip fsl s2) ++ enc_message (answer_of res) q /\
    length s1 = length consumed /\ length s2 = length fsl.
Proof.
  intros Hc Hfit. destruct (serve_run regex S sid h cmd kv vv mv x cc l a res a' w0 (consumed ++ fsl) 0 Hc) as (S' & E & Hs).
  rewrite <- app_assoc in Hs. pose proof Hs as [_ _ (x' & Hx' & Ho & _) _ _ _ _].
  destruct (outbox_drains w0 (consumed ++ fsl ++ [answer_of res]) x' Ho) as (seqs & x2 & Ew & Hw & Hl).
  { pose proof (ce_size _ _ _ _ _ _ _ _ _ _ _ _ _ _ _ Hc) as Hsz. rewrite !total_size_app in *. simpl. lia. }
  { done. }
  destruct (wire_split consumed fsl (answer_of res) seqs Hl) as (s1 & s2 & q & L1 & L2 & Hsplit).
  exists S', x', x2, s1, s2, q. rewrite Hw, Hsplit. split; [done|]. split; [done|]. split; [|done].
  rewrite Hx'. apply lookup_insert_eq.
Qed.

(** ** Properties *)

(** C1. A remote read returns what the storage gives.  A client calls get, pop-front
    or pop-back on an open container while notifications it has not read are
    queued for it.  The server serves the request the client puts on the wire:
    the storage does the operation and nothing else changes.  When the
    session's writes are done, the bytes after what the client had consumed
    make the call return: zero with the key, value and metadata of the storage,
    or, when the storage throws, the protocol error with cleared outputs and
    the exception's words as the error description; the notifications are
    delivered first, in order. *)
Theorem remote_data_command regex S sid x cc l a res a' w0 consumed p s cp cont c r fsl ns scr cmd input kv
    key value metadata :
  caller p s cp cont c r fsl ns scr -> opt_represents input kv -> out_wf key -> out_wf value -> out_wf metadata ->
  callee S sid (handle cont) cmd kv None None x cc l a res a' w0 (consumed ++ fsl) ->
  Forall (fun fs => message_size fs <= SEND_BUFFER_SIZE) (consumed ++ fsl ++ [answer_of res]) ->
  let request := enc_message (data_fields cmd (handle cont) kv None None) 0 in
  let '(k, v, m) := sent_values res in
  exists S' x' x2 seqs bytes, on_message regex sid request S = (Ok tt, S') /\
    served S sid x cc l a a' (outbox w0 (consumed ++ fsl ++ [answer_of res])) S' /\ sessions_ S' !! sid = Some x' /\
    outputs (replicate (Datatypes.S (length (consumed ++ fsl ++ [answer_of res]))) Written) x' = (Ok tt, x2) /\
    wire_ x2 = w0 ++ wire (zip consumed seqs) ++ bytes /\
    forall rest, Net.stream (net c) s = bytes ++ rest ->
    exists key' value' metadata' c',
      tio_container_send_command_and_get_data_response cp cmd input key value metadata c =
        (Ok (error_result (error_of res), (key', value', metadata')), c') /\
      completed p s c r ns request rest scr (error_of res) c' /\
      out_represents key key' (default VNone k) /\ out_represents value value' (default VNone v) /\
      out_represents metadata metadata' (default VNone m).
Proof.
  intros Hcl Hin Wk Wv Wm Hce Hfit. cbn zeta. destruct (sent_values res) as [ [k v] m] eqn:Hv.
  destruct (call_served regex S sid (handle cont) cmd kv None None x cc l a res a' w0 consumed fsl Hce Hfit)
    as (S' & x' & x2 & s1 & s2 & q & E1 & E2 & E3 & E4 & Hw & L1 & L2).
  exists S', x', x2, s1, (wire (zip fsl s2) ++ enc_message (answer_of res) q).
  do 5 (split; [done|]). intros rest Hst. destruct Hce as [Hq Hf _ _ _ Hof _ Hok _].
  pose proof (answer_has_data res Hof) as Hd. rewrite Hv in Hd.
  pose proof (caller_ready _ _ _ _ _ _ _ _ _ _ _ _ _ Hcl (answer_is_answer res) (answer_sendable res Hof Hok) L2 Hst) as Hrd.
  destruct (data_response_ok _ _ _ _ _ _ _ _ _ _ _ _ cmd input kv key value metadata (error_of res) k v m
    Hrd Hin Hf Wk Wv Wm (answer_has_error res) Hd) as (k' & v' & m' & c' & E & Hc & Rk & Rv & Rm).
  exists k', v', m', c'. split; [done|]. split; [done|]. clear -Rk Rv Rm Hv.
  destruct res as [o|e]; [done|]. by injection Hv as <- <- <-.
Qed.

(** C2. A remote change changes the storage and says so.  The same for the commands
    that change a container and return no data: push, set, insert, delete and
    clear return [TIO_SUCCESS] when the storage did the operation, and the
    protocol error when it threw. *)
Theorem remote_change regex S sid x cc l a res a' w0 consumed p s cp cont c r fsl ns scr cmd
    key value metadata kv vv mv :
  caller p s cp cont c r fsl ns scr -> command_args key value metadata kv vv mv ->
  callee S sid (handle cont) cmd kv vv mv x cc l a res a' w0 (consumed ++ fsl) ->
  Forall (fun fs => message_size fs <= SEND_BUFFER_SIZE) (consumed ++ fsl ++ [answer_of res]) ->
  let request := enc_message (data_fields cmd (handle cont) kv vv mv) 0 in
  exists S' x' x2 seqs bytes, on_message regex sid request S = (Ok tt, S') /\
    served S sid x cc l a a' (outbox w0 (consumed ++ fsl ++ [answer_of res])) S' /\ sessions_ S' !! sid = Some x' /\
    outputs (replicate (Datatypes.S (length (consumed ++ fsl ++ [answer_of res]))) Written) x' = (Ok tt, x2) /\
    wire_ x2 = w0 ++ wire (zip consumed seqs) ++ bytes /\
    forall rest, Net.stream (net c) s = bytes ++ rest ->
    exists c', tio_container_input_command cp cmd key value metadata c =
        (Ok (match res with Ok _ => Net.TIO_SUCCESS | Throw _ => Net.TIO_ERROR_PROTOCOL end), c') /\
      completed p s c r ns request rest scr (error_of res) c'.
Proof.
  intros Hcl Hargs Hce Hfit. cbn zeta.
  destruct (call_served regex S sid (handle cont) cmd kv vv mv x cc l a res a' w0 consumed fsl Hce Hfit)
    as (S' & x' & x2 & s1 & s2 & q & E1 & E2 & E3 & E4 & Hw & L1 & L2).
  exists S', x', x2, s1, (wire (zip fsl s2) ++ enc_message (answer_of res) q).
  do 5 (split; [done|]). intros rest Hst. destruct Hce as [Hq Hf _ (f & Hd & _) _ Hof _ Hok _].
  pose proof (caller_ready _ _ _ _ _ _ _ _ _ _ _ _ _ Hcl (answer_is_answer res) (answer_sendable res Hof Hok) L2 Hst) as Hrd.
  destruct (input_command_ok _ _ _ _ _ _ _ _ _ _ _ _ cmd key value metadata kv vv mv (error_of res)
    Hrd (data_command_u16 _ _ _ _ _ Hd) Hargs Hf (answer_has_error res)) as (c' & E & Hc).
  exists c'. split; [|done]. rewrite E. clear. by destruct res.
Qed.

(** ** Witnesses *)

(** A server whose only session has the users' map open with the handle of the
    client's container. *)
Definition ex_callee_session : session :=
  set_handles {[5 := ServerCommands.ex_container]} {[lit "__meta__/users" := 5]} 5 (binary_session 1).
Definition ex_remote : server := set_sessions {[1 := ex_callee_session]} started.

Definition ex_get : res outs * MemoryStorage.AnyStorage := GetRecord (argument ex_key) (Some None_) (Some None_) (Some None_) ex_users.

Lemma ex_remote_request vv : opt_ok vv -> request ex_remote 1 5 ex_callee_session ServerCommands.ex_container ex_key vv None.
Proof.
  intros H. split; [apply lookup_singleton_eq|split; [vm_compute; split; discriminate|discriminate]|apply lookup_singleton_eq|].
  split; [|split]; [intros v' [= <-]; vm_compute; reflexivity|exact H|intros v' [=] ].
Qed.

Lemma ex_remote_outbox : outbox [] ([] ++ []) ex_callee_session.
Proof. apply outbox_handles. exists [], [], []. split; [apply binary_session_sending|done]. Qed.

Lemma ex_remote_contains : contains ex_remote ServerCommands.ex_container ex_storage ex_users.
Proof. split; vm_compute; reflexivity. Qed.

Lemma ex_remote_get : callee ex_remote 1 5 TIO_COMMAND_GET ex_key None None ex_callee_session ServerCommands.ex_container
  ex_storage ex_users ex_get.1 ex_get.2 [] ([] ++ []).
Proof.
  assert (Hr : exists w, ex_get.1 = Throw (invalid_argument w)) by (eexists; vm_compute; reflexivity).
  split.
  - apply ex_remote_request. by intros v'.
  - apply fits_small. vm_compute. reflexivity.
  - exact ex_remote_contains.
  - eexists. split; [reflexivity|]. exact (surjective_pairing ex_get).
  - intros g. destruct Hr as [w ->]. discriminate.
  - intros o. destruct Hr as [w ->]. discriminate.
  - exact ex_remote_outbox.
  - split; [vm_compute; reflexivity|]. apply fits_small. vm_compute. reflexivity.
  - vm_compute. reflexivity.
Qed.

Lemma ex_remote_set : callee ex_remote 1 5 TIO_COMMAND_SET ex_key ex_value None ex_callee_session ServerCommands.ex_container
  ex_storage ex_users ex_result.1 ex_result.2 [] ([] ++ []).
Proof.
  assert (Hr : ex_result.1 = Ok (None, None, None)) by (vm_compute; reflexivity).
  split.
  - apply ex_remote_request. intros v' [= <-]. vm_compute. split; discriminate.
  - apply fits_small. vm_compute. reflexivity.
  - exact ex_remote_contains.
  - eexists. split; [reflexivity|]. exact (surjective_pairing ex_result).
  - intros g. rewrite Hr. discriminate.
  - intros o. rewrite Hr. intros [= <-]. split; [|split]; discriminate.
  - exact ex_remote_outbox.
  - rewrite Hr. split; [vm_compute; reflexivity|]. apply fits_small. vm_compute. reflexivity.
  - rewrite Hr. vm_compute. reflexivity.
Qed.

Definition ex_string : TIO_DATA :=
  match tiodata_set_string_and_size tiodata_init (lit "me") 2 with Ok td => td | Throw _ => tiodata_init end.

Lemma ex_string_represents : represents ex_string (VString (lit "me")).
Proof.
  destruct (set_string_represents tiodata_init VNone (lit "me")) as (td & E & H); [apply init_represents|done|].
  unfold ex_string. change (Z.of_nat (length (lit "me"))) with 2 in E. by rewrite E.
Qed.

Lemma ex_args : command_args (Some ex_string) (Some (tiodata_set_int tiodata_init 5)) None ex_key ex_value None.
Proof. split; [exact ex_string_represents|apply rep_int; [done..|vm_compute; split; discriminate]|done]. Qed.

(** The bytes the session writes for a request. *)
Definition ex_bytes (request : bytes) : bytes :=
  match sessions_ (on_message any_regex 1 request ex_remote).2 !! 1 with
  | Some x => wire_ (outputs (replicate 2 Written) x).2
  | None => []
  end.

Lemma ex_caller bs : caller 1 3 10 ClientNotify.ex_container (ex_client (ex_reply_world bs 1)) ex_registry [] [] [].
Proof. by split; try apply ex_serves. Qed.

Lemma ex_reply_stream bs : Net.stream (net (ex_client (ex_reply_world bs 1))) 3 = bs ++ [].
Proof. unfold Net.stream, Net.script_of. cbn [net ex_client ex_reply_world Net.rx]. rewrite lookup_singleton_eq. by destruct bs. Qed.

Lemma remote_change_witness :
  exists c', tio_container_input_command 10 TIO_COMMAND_SET (Some ex_string)
      (Some (tiodata_set_int tiodata_init 5)) None
      (ex_client (ex_reply_world (ex_bytes (enc_message (data_fields TIO_COMMAND_SET 5 ex_key ex_value None) 0)) 1))
      = (Ok Net.TIO_SUCCESS, c').
Proof.
  set (c := ex_client _).
  assert (Hr : ex_result.1 = Ok (None, None, None)) by (vm_compute; reflexivity).
  destruct (remote_change any_regex ex_remote 1 ex_callee_session ServerCommands.ex_container ex_storage ex_users ex_result.1
    ex_result.2 [] [] 1 3 10 ClientNotify.ex_container c ex_registry [] [] [] TIO_COMMAND_SET
    (Some ex_string) (Some (tiodata_set_int tiodata_init 5)) None ex_key ex_value None)
    as (S' & x' & x2 & seqs & bs & E & _ & Hx' & Ew & Hw & Hgo).
  - apply ex_caller.
  - exact ex_args.
  - exact ex_remote_set.
  - rewrite Hr. apply Forall_singleton. vm_compute. discriminate.
  - assert (Hbs : bs = ex_bytes (enc_message (data_fields TIO_COMMAND_SET 5 ex_key ex_value None) 0)).
    { unfold ex_bytes. change (handle ClientNotify.ex_container) with 5 in E. rewrite E. cbn [snd]. rewrite Hx'.
      cbn [length app] in Ew. rewrite Ew. cbn [snd]. rewrite Hw. reflexivity. }
    destruct (Hgo []) as (c' & E' & _); [rewrite Hbs; apply ex_reply_stream|].
    rewrite Hr in E'. exists c'. exact E'.
Defined.

Lemma remote_data_command_witness :
  exists key' value' metadata' c',
    tio_container_send_command_and_get_data_response 10 TIO_COMMAND_GET (Some ex_string) None (Some tiodata_init) None
      (ex_client (ex_reply_world (ex_bytes (enc_message (data_fields TIO_COMMAND_GET 5 ex_key None None) 0)) 1))
      = (Ok (Net.TIO_ERROR_PROTOCOL, (key', value', metadata')), c').
Proof.
  set (c := ex_client _).
  assert (Hr : error_result (error_of ex_get.1) = Net.TIO_ERROR_PROTOCOL) by (vm_compute; reflexivity).
  assert (Hn : forall td, None = Some td -> exists v, represents td v) by discriminate.
  assert (Hv : sent_values ex_get.1 = (None, None, None)) by (vm_compute; reflexivity).
  pose proof (remote_data_command any_regex ex_remote 1 ex_callee_session ServerCommands.ex_container ex_storage ex_users ex_get.1
    ex_get.2 [] [] 1 3 10 ClientNotify.ex_container c ex_registry [] [] [] TIO_COMMAND_GET
    (Some ex_string) ex_key None (Some tiodata_init) None) as H. rewrite Hv in H. destruct H
    as (S' & x' & x2 & seqs & bs & E & _ & Hx' & Ew & Hw & Hgo).
  - apply ex_caller.
  - exact ex_string_represents.
  - exact Hn.
  - intros td [= <-]. exists VNone. apply init_represents.
  - exact Hn.
  - exact ex_remote_get.
  - apply Forall_singleton. vm_compute. discriminate.
  - assert (Hbs : bs = ex_bytes (enc_message (data_fields TIO_COMMAND_GET 5 ex_key None None) 0)).
    { unfold ex_bytes. change (handle ClientNotify.ex_container) with 5 in E. rewrite E. cbn [snd]. rewrite Hx'.
      cbn [length app] in Ew. rewrite Ew. cbn [snd]. rewrite Hw. reflexivity. }
    destruct (Hgo []) as (k' & v' & m' & c' & E' & _); [rewrite Hbs; apply ex_reply_stream|].
    rewrite Hr in E'. exists k', v', m', c'. exact E'.
Defined.

End EndToEnd.
