(* ===== verification/TextOutput.v ===== *)
(** * The output of a text session: [server/tio/TioTcpSession.cpp]

    What the server sends to a session that is not binary: one string is written
    at a time, and those that come meanwhile wait in [pendingSendData_].  The
    strings reach the wire whole and in the order in which they were sent. *)
From S2P Require Import Prelude Session SessionOutput ServerCommands.

Module TextOutput.
Import Session SessionOutput ServerCommands.

(** ** The queue *)

Definition text_bytes (l : list bytes) : Z := Z.of_nat (length (concat l)).

Lemma text_bytes_app a b : text_bytes (a ++ b) = text_bytes a + text_bytes b.
Proof. unfold text_bytes. rewrite concat_app, length_app. lia. Qed.

Lemma text_bytes_one b : text_bytes [b] = Z.of_nat (length b).
Proof. unfold text_bytes. simpl. by rewrite app_nil_r. Qed.

(** A string below the size at which the client is given up. *)
Definition sendable_text (b : bytes) : Prop := b <> [] /\ Z.of_nat (length b) <= 100 * 1024 * 1024.

(** Of what has been sent to the session, [done] is on the wire and [todo] waits
    for the write that is in flight. *)
Record text_sending (done todo : list bytes) (x : session) : Prop := {
  tx_valid : valid_ x = true;
  tx_wire : wire_ x = concat done;
  tx_queue : pendingSendData_ x = todo;
  tx_flight : match in_flight_ x with
              | [] => pendingSendSize_ x = 0 /\ todo = []
              | [b] => pendingSendSize_ x = Z.of_nat (length b) /\ sendable_text b
              | _ => False
              end;
  tx_sent : sentBytes_ x + pendingSendSize_ x = text_bytes done /\ 0 <= sentBytes_ x;
  tx_small : Forall sendable_text todo
}.

Lemma send_now_run done todo b x :
  valid_ x = true -> wire_ x = concat done -> pendingSendData_ x = todo -> in_flight_ x = [] -> pendingSendSize_ x = 0 ->
  sentBytes_ x = text_bytes done -> Forall sendable_text todo -> sendable_text b ->
  exists x', SendStringNow b x = (Ok tt, x') /\ text_sending (done ++ [b]) todo x'.
Proof.
  intros Hv Hw Hq Hf Hp Hs Ht [Hb Hb']. unfold SendStringNow. rewrite bind_get, Hv. cbn [negb].
  destruct (increase_run (Z.of_nat (length b)) x) as [mx E]; [rewrite Hp; unfold is_int, INT_MIN, INT_MAX; lia|].
  rewrite (bind_ok _ _ _ _ _ E). eexists. split; [reflexivity|]. split; cbn.
  - done.
  - by rewrite Hw, concat_app; simpl; rewrite app_nil_r.
  - done.
  - rewrite Hf, Hp. done.
  - rewrite Hs, Hp, text_bytes_app, text_bytes_one. unfold text_bytes. lia.
  - done.
Qed.

Lemma output_text b : output_only (SendString b).
Proof.
  unfold SendString, SendStringNow, IncreasePendingSendSize, async_write, UnsubscribeAll. solve_output.
Qed.

Lemma send_string_run done todo b x :
  text_sending done todo x -> sendable_text b ->
  exists x', SendString b x = (Ok tt, x') /\
    (text_sending (done ++ [b]) [] x' /\ todo = [] \/ text_sending done (todo ++ [b]) x').
Proof.
  intros [Hv Hw Hq Hf Hs Ht] Hb. unfold SendString. rewrite bind_get, Hv. cbn [negb].
  destruct (in_flight_ x) as [|c [|? ?] ] eqn:Ef; [| |done].
  - destruct Hf as [Hp ->]. rewrite Hp in *. destruct (send_now_run done [] b x) as (x' & E & H'); try done; [lia|].
    exists x'. split; [exact E|]. by left.
  - destruct Hf as [Hp [Hc Hc'] ]. assert (0 < pendingSendSize_ x) by (rewrite Hp; destruct c; [done|]; simpl; lia). ztest. cbn [negb]. ztest.
    eexists. split; [reflexivity|]. right. split; try done.
    + cbn. by rewrite Hq.
    + cbn. rewrite Ef. done.
    + apply Forall_app. by split; [|apply Forall_singleton].
Qed.

(** The write in flight completes. *)
Definition text_written : M session unit :=
  s ← get;
  match in_flight_ s with
  | [] => mret tt
  | b :: rest => _ ← modify (set_socket rest (wire_ s)); OnWrite (Z.of_nat (length b)) false (Z.of_nat (length b))
  end.

Lemma text_written_run done todo x :
  text_sending done todo x -> text_bytes done + text_bytes todo < 2 ^ 31 ->
  exists x', text_written x = (Ok tt, x') /\
    match todo with
    | [] => text_sending done [] x' /\ in_flight_ x' = []
    | b :: todo => text_sending (done ++ [b]) todo x'
    end.
Proof.
  intros Hx Hmax. pose proof Hx as [Hv Hw Hq Hf [Hs Hs0] Ht]. unfold text_written. rewrite bind_get.
  destruct (in_flight_ x) as [|c [|? ?] ] eqn:Ef; [| |done].
  - destruct Hf as [Hp ->]. by exists x.
  - destruct Hf as [Hp [Hc Hc'] ]. rewrite bind_modify. unfold OnWrite. rewrite bind_get. cbn [pendingSendSize_ set_socket].
    set (n := Z.of_nat (length c)) in *. rewrite (bind_lift_ok _ _ _ 0) by (rewrite Hp, add_int_ok; [f_equal; lia|unfold is_int, INT_MIN, INT_MAX; lia]).
    cbn [sentBytes_ set_socket]. assert (0 <= text_bytes todo) by (unfold text_bytes; lia).
    rewrite (bind_lift_ok _ _ _ (sentBytes_ x + n)) by (apply add_int_ok; unfold is_int, INT_MIN, INT_MAX; lia).
    rewrite bind_modify. unfold CheckError. erewrite (bind_ok _ _ _ false); [|reflexivity]. rewrite bind_get.
    cbn [pendingSendData_ set_sizes set_socket]. rewrite Hq. destruct todo as [|b todo].
    + eexists. split; [reflexivity|]. split; [|reflexivity]. split; cbn; try done. lia.
    + apply Forall_cons in Ht as [Hb Ht].
      match goal with |- context [mbind _ (SendStringNow b) ?y] => set (y0 := y) end.
      destruct (send_now_run done (b :: todo) b y0) as (x' & E & [V W Q F S T]); try done;
        [unfold y0; cbn; lia|by constructor|].
      rewrite (bind_ok _ _ _ _ _ E). eexists. split; [reflexivity|]. split; try done.
      cbn [in_flight_ pendingSendSize_ set_pending_data]. destruct (in_flight_ x') as [|? [|? ?] ]; [by destruct F|exact F..].
Qed.

(** Everything that was sent to a text session, in order. *)
Definition text_outbox (l : list bytes) (x : session) : Prop := exists done todo, text_sending done todo x /\ l = done ++ todo.

Lemma text_outbox_send l b x :
  text_outbox l x -> sendable_text b ->
  exists x', SendString b x = (Ok tt, x') /\ text_outbox (l ++ [b]) x' /\ same_session x x'.
Proof.
  intros (dn & todo & Hs & ->) Hb. destruct (send_string_run dn todo b x Hs Hb) as (x' & E & H). exists x'. split; [done|].
  split; [|by pose proof (output_text b x) as Ho; rewrite E in Ho].
  destruct H as [ [H ->]|H]; [exists (dn ++ [b]), []|exists dn, (todo ++ [b])]; by rewrite ?app_nil_r, ?app_assoc.
Qed.

(** ** Runs *)

Inductive text_event := TextSend (b : bytes) | TextWritten.

Definition text_output (e : text_event) : M session unit :=
  match e with TextSend b => SendString b | TextWritten => text_written end.

Fixpoint text_outputs (es : list text_event) : M session unit :=
  match es with [] => mret tt | e :: es => _ ← text_output e; text_outputs es end.

Definition text_sent (es : list text_event) : list bytes := omap (fun e => match e with TextSend b => Some b | _ => None end) es.

Lemma text_outputs_run es : forall l x, text_outbox l x -> Forall sendable_text (text_sent es) ->
  text_bytes l + text_bytes (text_sent es) < 2 ^ 31 -> exists x', text_outputs es x = (Ok tt, x') /\ text_outbox (l ++ text_sent es) x'.
Proof.
  induction es as [|[b|] es IH]; intros l x Hx Hs Hmax; cbn [text_outputs text_output].
  - exists x. by rewrite app_nil_r.
  - apply Forall_cons in Hs as [Hb Hs]. destruct (text_outbox_send l b x Hx Hb) as (x1 & E & H1 & _).
    rewrite (bind_ok _ _ _ _ _ E). change (text_sent (TextSend b :: es)) with ([b] ++ text_sent es) in *.
    rewrite text_bytes_app in Hmax. rewrite app_assoc. apply IH; [done|done|]. rewrite text_bytes_app. lia.
  - destruct Hx as (dn & todo & Hx & ->). assert (0 <= text_bytes (text_sent es)) by (unfold text_bytes; lia).
    change (text_sent (TextWritten :: es)) with (text_sent es) in *. rewrite text_bytes_app in Hmax.
    destruct (text_written_run dn todo x Hx) as (x1 & E & H1); [lia|]. rewrite (bind_ok _ _ _ _ _ E).
    apply IH; [|done|by rewrite text_bytes_app]. destruct todo as [|b todo]; [exists dn, []; by destruct H1|].
    exists (dn ++ [b]), todo. by rewrite <- app_assoc.
Qed.

Lemma new_session_sending id : text_sending [] [] (new_session id).
Proof. by split. Qed.

Lemma text_writes_drain todo : forall dn x, text_sending dn todo x -> text_bytes dn + text_bytes todo < 2 ^ 31 ->
  exists x', text_outputs (replicate (S (length todo)) TextWritten) x = (Ok tt, x') /\ text_sending (dn ++ todo) [] x' /\ in_flight_ x' = [].
Proof.
  induction todo as [|b todo IH]; intros dn x Hx Hmax; cbn [length replicate text_outputs text_output];
    destruct (text_written_run dn _ x Hx Hmax) as (x1 & E & H1); rewrite (bind_ok _ _ _ _ _ E).
  - exists x1. rewrite app_nil_r. split; [reflexivity|exact H1].
  - change (b :: todo) with ([b] ++ todo) in *. rewrite text_bytes_app in Hmax.
    destruct (IH (dn ++ [b]) x1 H1) as (x' & E' & H'); [rewrite text_bytes_app; lia|]. exists x'. rewrite <- app_assoc in H'. done.
Qed.

Lemma text_backlog bs : forall b todo x, text_sending [b] todo x -> in_flight_ x = [b] -> Forall sendable_text bs ->
  exists x', text_outputs (TextSend <$> bs) x = (Ok tt, x') /\ text_sending [b] (todo ++ bs) x' /\ in_flight_ x' = [b].
Proof.
  induction bs as [|c bs IH]; intros b todo x Hx Hf Hb; cbn [fmap list_fmap text_outputs text_output].
  - exists x. by rewrite app_nil_r.
  - apply Forall_cons in Hb as [Hc Hb]. pose proof Hx as [V W Q F S T]. rewrite Hf in F. destruct F as [Hp [Hne Hsz] ].
    assert (E : SendString c x = (Ok tt, set_pending_data (pendingSendData_ x ++ [c]) x)).
    { unfold SendString. rewrite bind_get, V. cbn [negb].
      assert (0 < pendingSendSize_ x) by (rewrite Hp; destruct b; [done|]; simpl; lia). ztest. cbn [negb]. by ztest. }
    rewrite (bind_ok _ _ _ _ _ E). change (c :: bs) with ([c] ++ bs). rewrite app_assoc. apply IH; [|done|done].
    split; cbn; try done; [by rewrite Q|by rewrite Hf|]. apply Forall_app. by split; [|apply Forall_singleton].
Qed.

(** ** Properties *)

(** C10. Text arrives in order.  Strings are sent to a new text session and writes
    complete in any order of events.  What is on the wire is always a whole
    number of the strings, in the order in which they were sent, the others wait;
    and once nothing more is sent and the client reads on, all are there. *)
Theorem text_output_fifo es id :
  Forall sendable_text (text_sent es) -> text_bytes (text_sent es) < 2 ^ 31 ->
  exists x' done todo, text_outputs es (new_session id) = (Ok tt, x') /\ text_sent es = done ++ todo /\
    wire_ x' = concat done /\ pendingSendData_ x' = todo /\
    exists x2, text_outputs (replicate (S (length todo)) TextWritten) x' = (Ok tt, x2) /\
      wire_ x2 = concat (text_sent es) /\ pendingSendData_ x2 = [] /\ in_flight_ x2 = [].
Proof.
  intros Hs Hmax. destruct (text_outputs_run es [] (new_session id)) as (x' & E & dn & todo & Hx & Hl); [|done|exact Hmax|].
  { exists [], []. split; [apply new_session_sending|done]. }
  simpl in Hl. rewrite Hl, text_bytes_app in Hmax. destruct (text_writes_drain todo dn x' Hx Hmax) as (x2 & E2 & H2 & F2).
  exists x', dn, todo. split; [exact E|]. split; [done|]. split; [apply Hx|]. split; [apply Hx|].
  exists x2. split; [done|]. rewrite Hl. split; [apply H2|]. split; [apply H2|done].
Qed.

(** A text client that stops reading is never given up.  A string that has to
    wait is not counted as pending, so the limit of 100 MB compares with the
    size of the one write in flight: whatever is sent after it waits in memory,
    however much it is, and the session stays valid. *)
Theorem text_backlog_unbounded b bs id :
  Forall sendable_text (b :: bs) ->
  exists x', text_outputs (TextSend <$> b :: bs) (new_session id) = (Ok tt, x') /\ valid_ x' = true /\
    pendingSendData_ x' = bs /\ pendingSendSize_ x' = Z.of_nat (length b).
Proof.
  intros [Hb Hbs]%Forall_cons. destruct (send_now_run [] [] b (new_session id)) as (x1 & E & H1); try done.
  assert (Hf : in_flight_ x1 = [b]).
  { unfold SendStringNow in E. rewrite bind_get in E. cbn [negb new_session valid_] in E.
    destruct (increase_run (Z.of_nat (length b)) (new_session id)) as [mx Ei].
    { destruct Hb. cbn. unfold is_int, INT_MIN, INT_MAX. lia. }
    rewrite (bind_ok _ _ _ _ _ Ei) in E. injection E as <-. reflexivity. }
  rewrite fmap_cons. cbn [text_outputs text_output].
  assert (E' : SendString b (new_session id) = (Ok tt, x1)) by exact E. rewrite (bind_ok _ _ _ _ _ E').
  destruct (text_backlog bs b [] x1 H1 Hf Hbs) as (x' & E2 & [V W Q F S T] & Hf'). exists x'. split; [done|]. split; [done|].
  split; [done|]. rewrite Hf' in F. apply F.
Qed.

(** ** Witnesses *)

Lemma text_output_fifo_witness :
  exists x' x2, text_outputs [TextSend (lit "one"); TextSend (lit "two")] (new_session 1) = (Ok tt, x') /\
    text_outputs (replicate 2 TextWritten) x' = (Ok tt, x2) /\ wire_ x2 = lit "onetwo".
Proof.
  destruct (text_output_fifo [TextSend (lit "one"); TextSend (lit "two")] 1) as (x' & dn & todo & E & _ & _ & Hq & x2 & E2 & W & _).
  - repeat constructor; try discriminate; vm_compute; discriminate.
  - vm_compute. reflexivity.
  - exists x', x2. split; [exact E|]. pose proof (f_equal (fun p => pendingSendData_ p.2) E) as Hp. cbn [snd] in Hp. rewrite Hq in Hp.
    assert (Ht : todo = [lit "two"]) by (rewrite <- Hp; reflexivity). rewrite Ht in E2. split; [exact E2|exact W].
Defined.

Lemma text_backlog_unbounded_witness :
  exists x', text_outputs [TextSend (lit "one"); TextSend (lit "two"); TextSend (lit "three")] (new_session 1) = (Ok tt, x') /\
    pendingSendSize_ x' = 3.
Proof.
  destruct (text_backlog_unbounded (lit "one") [lit "two"; lit "three"] 1) as (x' & E & _ & _ & H).
  - repeat constructor; try discriminate; vm_compute; discriminate.
  - exists x'. split; [exact E|exact H].
Defined.

End TextOutput.
