(* ===== verification/TextReader.v ===== *)
(** * The stream of a text session

    The bytes that a session receives before it goes binary, read by
    [TextSession]: how the network cuts them into pieces makes no difference,
    the reader stops only when it needs more bytes, and whatever the bytes are,
    what happens to the server is a sequence of the steps of [ServerInvariant],
    so that everything shown there holds of text sessions, too. *)
From S2P Require Import Prelude Decimal StdMap TioDataS Containers MapStorage MemoryStorage Auth TextProtocol ContainerManager Session Sound Server TextCommands Http TextSession ServerSafety TextSafety ServerInvariant.

Module TextReader.
Import Session Sound Server TextSession TextSafety ServerInvariant.

(** ** Lines *)

Lemma getline_length b line rest : getline b = Some (line, rest) -> (length rest < length b)%nat.
Proof.
  revert line. induction b as [|c b IH]; intros line; [done|]. cbn [getline]. case_decide; [intros [= _ <-]; simpl; lia|].
  destruct (getline b) as [ [l r]|]; [|done]. cbn. intros [= _ <-]. specialize (IH l eq_refl). lia.
Qed.

Lemma getline_app b line rest c : getline b = Some (line, rest) -> getline (b ++ c) = Some (line, rest ++ c).
Proof.
  revert line. induction b as [|x b IH]; intros line; [done|]. cbn [app getline]. case_decide; [by intros [= <- <-]|].
  destruct (getline b) as [ [l r]|]; [|done]. cbn. intros [= <- <-]. by rewrite (IH l eq_refl).
Qed.

(** ** The size of the data a command asks for *)

(** What a call returns when it returns. *)
Definition returns {A} (q : A -> Prop) (m : M server A) : Prop := forall s,
  match (m s).1 with Ok a => q a | Throw _ => True end.

Lemma returns_ret {A} (q : A -> Prop) a : q a -> returns q (mret a).
Proof. by intros H s. Qed.

Lemma returns_throw {A} (q : A -> Prop) e : returns q (throw e).
Proof. by intros s. Qed.

Lemma returns_bind {A B} (q : B -> Prop) (m : M server A) f : (forall a, returns q (f a)) -> returns q (m ≫= f).
Proof. intros H s. unfold mbind, M_bind. destruct (m s) as [ [a|e] s']; [apply H|done]. Qed.

Lemma returns_bind_of {A B} (p : A -> Prop) (q : B -> Prop) (m : M server A) f :
  returns p m -> (forall a, p a -> returns q (f a)) -> returns q (m ≫= f).
Proof.
  intros Hm H s. specialize (Hm s). unfold mbind, M_bind. destruct (m s) as [ [a|e] s']; [by apply H|done].
Qed.

Lemma returns_try {A} (q : A -> Prop) (m : M server A) h : returns q m -> (forall e, returns q (h e)) -> returns q (try_catch m h).
Proof. intros Hm Hh s. specialize (Hm s). unfold try_catch. destruct (m s) as [ [a|e] s']; [done|]. destruct e; try apply Hh. done. Qed.

Lemma returns_scope {A} (q : A -> Prop) (m : M server A) : returns q m -> returns q (end_scope m).
Proof. intros H s. specialize (H s). unfold end_scope. by destruct (m s) as [r s']. Qed.

Ltac solve_returns :=
  repeat (cbn zeta; match goal with
  | |- returns _ (mret _) => apply returns_ret; simpl; lia
  | |- returns _ (TextCommands.answer_error _) => apply returns_ret; simpl; lia
  | |- returns _ TextCommands.answer_ok => apply returns_ret; simpl; lia
  | |- returns _ (throw _) => apply returns_throw
  | |- returns _ (_ ≫= _) => apply returns_bind; intros
  | |- returns _ (try_catch _ _) => apply returns_try; [|intros]
  | |- returns _ (match _ with _ => _ end) => case_match
  end).

(** Sizes are of an unsigned type. *)
Notation sized := (fun p : bytes * Z => 0 <= p.2).

Lemma extract_set_size ps : forall fs n r, 0 <= n -> TextProtocol.extract_set ps fs n = Ok r -> 0 <= r.2.
Proof.
  induction ps as [ps IH] using (well_founded_induction (Wf_nat.well_founded_ltof _ (@length bytes))). intros fs n r Hn.
  destruct ps as [|name [|type [|size rest] ] ]; cbn [TextProtocol.extract_set]; [by intros [= <-]|by case_match..|].
  case_match; [done|]. destruct (Decimal.lexical_cast_size_t size) as [k|e]; [|done]. cbn.
  apply IH; [unfold Wf_nat.ltof; simpl; lia|]. unfold u64. apply Z.mod_pos_bound. lia.
Qed.

Lemma parse_data_size lc cmd sid : returns (fun p => 0 <= p.1.2) (TextCommands.ParseDataCommand lc cmd sid).
Proof.
  unfold TextCommands.ParseDataCommand. case_match; [apply returns_throw|]. apply returns_bind. intros [ [c n] t].
  match goal with |- returns _ (lift ?r ≫= _) => destruct r as [ [z o]|e] eqn:E end; [|by intros s].
  apply (returns_bind_of (fun p => 0 <= p.1)); [|intros [z' o'] Hz; by apply returns_ret]. intros s. simpl.
  unfold TextProtocol.ExtractFieldSet_data, TextProtocol.ExtractFieldSet in E.
  destruct (TextProtocol.extract_set _ [] 0) as [r|] eqn:Er; [|done]. pose proof (extract_set_size _ [] 0 r ltac:(lia) Er).
  destruct r as [fs k]. cbn in E, H. case_match; [by injection E as <- _|].
  destruct (TextProtocol.ExtractFieldsFromBuffer _ _ _ _); [|done]. by injection E as <- _.
Qed.

Section Commands.
Context (L : library).

Notation OnTextCommand := (TextCommands.OnTextCommand (regex L) (print_double L) (lexical_cast_double L)).

Lemma handle_size cmd sid body : (forall c, returns sized (body c)) -> returns sized (TextCommands.with_handle cmd sid body).
Proof. intros H. unfold TextCommands.with_handle. apply returns_bind. intros [c|]; [apply H|]. solve_returns. Qed.

Lemma handlers_size sid :
  Forall (fun p => forall cmd, returns sized (p.2 cmd sid))
    (TextCommands.dispatchMap_ (regex L) (print_double L) (lexical_cast_double L)).
Proof.
  unfold TextCommands.dispatchMap_.
  repeat apply Forall_cons_2; try apply Forall_nil_2; cbn [snd]; intros cmd;
    TextCommands.open_handlers; cbn zeta;
    first [ case_match; [solve_returns|]; apply handle_size; intros c
          | apply returns_try; [|intros; solve_returns]; eapply returns_bind_of; [apply parse_data_size|];
            intros [ [ [ [c n] t] z] o] Hz; cbn in Hz
          | idtac ]; solve_returns.
Qed.

Lemma text_command_size cmd sid : returns sized (OnTextCommand cmd sid).
Proof.
  unfold TextCommands.OnTextCommand. pose proof (handlers_size sid) as Hl.
  destruct (TextCommands.lookup_handler _ _) as [f|] eqn:Ef; [|solve_returns].
  apply returns_try; [apply returns_scope|intros; apply returns_throw].
  exact (TextCommands.lookup_handler_all (fun f => forall cmd, returns sized (f cmd sid)) _ _ _ Ef Hl cmd).
Qed.

End Commands.

(** ** Steps of the reader *)

(** The data a reader waits for has a size, and only a request is read as one. *)
Definition reader_ok {P} (r : @reader P) : Prop :=
  match pending r with
  | ReadData n => 0 < n
  | ReadHttp _ => TextCommands.isHttp_ (currentCommand_ r) = true
  | _ => True
  end.

Section Triples.
Context {P : Type} (I : server -> Prop) (R : relation server) (E : exn -> bool -> Prop).

Notation S := (server * @reader P)%type.

(** A call from a reader [r]: the invariant [I] is kept, the server goes from its
    state to another by steps of [R], and the call returns with [q] or throws
    with [E], which may say whether the current command is a request. *)
Definition triple {A} (r : @reader P) (m : M S A) (q : A -> @reader P -> Prop) : Prop := forall s, I s ->
  let '(x, (s', r')) := m (s, r) in
  rtc R s s' /\ I s' /\ match x with Ok a => q a r' | Throw e => E e (TextCommands.isHttp_ (currentCommand_ r')) end.

(** The same of a call of the server. *)
Definition called {A} (http : bool) (m : M server A) (q : A -> Prop) : Prop := forall s, I s ->
  let '(x, s') := m s in rtc R s s' /\ I s' /\ match x with Ok a => q a | Throw e => E e http end.

Lemma triple_bind {A B} r (m : M S A) (f : A -> M S B) p q :
  triple r m p -> (forall a r', p a r' -> triple r' (f a) q) -> triple r (m ≫= f) q.
Proof.
  intros Hm Hf s Hs. specialize (Hm s Hs). unfold mbind, M_bind.
  destruct (m (s, r)) as [ [a|e] [s1 r1] ]; [|done]. destruct Hm as (H1 & H2 & H3). specialize (Hf a r1 H3 s1 H2).
  destruct (f a (s1, r1)) as [x [s2 r2] ]. destruct Hf as (H4 & H5 & H6). split; [by etrans|done].
Qed.

Lemma triple_get {A} r (f : S -> M S A) q : (forall s, triple r (f (s, r)) q) -> triple r (get ≫= f) q.
Proof. intros H s Hs. rewrite bind_get. by apply H. Qed.

Lemma triple_ret {A} r (a : A) (q : A -> @reader P -> Prop) : q a r -> triple r (mret a) q.
Proof. intros H s Hs. split; [apply rtc_refl|done]. Qed.

Lemma triple_reader r f (q : unit -> @reader P -> Prop) : q tt (f r) -> triple r (on_reader f) q.
Proof. intros H s Hs. split; [apply rtc_refl|done]. Qed.

Lemma triple_reader_bind {A} r f (k : unit -> M S A) q : triple (f r) (k tt) q -> triple r (on_reader f ≫= k) q.
Proof. intros H s Hs. exact (H s Hs). Qed.

Lemma triple_server {A} r (m : M server A) (q : A -> @reader P -> Prop) p :
  called (TextCommands.isHttp_ (currentCommand_ r)) m p -> (forall a, p a -> q a r) -> triple r (on_server m) q.
Proof.
  intros Hm Hq s Hs. specialize (Hm s Hs). unfold on_server. simpl. destruct (m s) as [ [a|e] s']; simpl; [|done].
  destruct Hm as (H1 & H2 & H3). auto.
Qed.

Lemma triple_lift {A} r (x : res A) (q : A -> @reader P -> Prop) :
  (forall e, x = Throw e -> E e (TextCommands.isHttp_ (currentCommand_ r))) -> (forall a, x = Ok a -> q a r) -> triple r (lift x) q.
Proof. intros He Hq s Hs. unfold lift. destruct x as [a|e]; (split; [apply rtc_refl|auto]). Qed.

End Triples.

(** An HTTP request is being read, or was. *)
Definition in_http {P} (r : @reader P) : bool := match pending r with ReadHttp _ | ReadNothing => true | _ => false end.

(** After a callback: fewer bytes wait. *)
Definition shrunk {P} (n : nat) (http : bool) (_ : unit) (r' : @reader P) : Prop :=
  reader_ok r' /\ (length (buf_ r') < n)%nat /\ (http = true -> in_http r' = true).

Section Reader.
Context {P : Type} (init : P) (execute : P -> bytes -> P * list Http.http_callback) (errno : P -> bool)
  (L : library) (now sid : Z).

Notation OnTextCommand := (TextCommands.OnTextCommand (regex L) (print_double L) (lexical_cast_double L)).
Notation OnHttpCommand := (Http.OnHttpCommand (to_string_double L) now).
Notation resume := (resume init execute errno (regex L) (print_double L) (to_string_double L) (lexical_cast_double L) now sid).

Section Resume.
Context (I : server -> Prop) (R : relation server) (E : exn -> bool -> Prop).
Hypothesis E_sound : forall e b, sound (Throw (A := unit) e) -> E e b.
Hypothesis text_called : forall b cmd, called I R E b (OnTextCommand cmd sid) sized.
Hypothesis http_called : forall m, called I R E true (OnHttpCommand m sid) (fun _ => True).
Hypothesis answer_called : forall b a, called I R E b (on_session sid (SendAnswer a)) (fun _ => True).
Hypothesis binary_called : forall b, called I R E b (go_binary sid) (fun _ => True).
Hypothesis invalidate_called : forall b, called I R E b (on_session sid InvalidateConnection) (fun _ => True).

Notation triple := (triple I R E).

Lemma triple_assert r b (q : unit -> @reader P -> Prop) : (b = true -> q tt r) -> triple r (lift (assert_ b)) q.
Proof. intros H. destruct b; apply triple_lift; [done|intros [] _; by apply H|intros e [= <-]; by apply E_sound|done]. Qed.

Lemma triple_feed r b h (q : bool * Http.HttpParser P -> @reader P -> Prop) :
  (forall p, q p r) -> triple r (lift (Http.FeedBytes execute b h)) q.
Proof.
  intros H. apply triple_lift; [|done]. unfold Http.FeedBytes. intros e. destruct (negb _); cbn; [by destruct (execute _ _)|].
  intros [= <-]. by apply E_sound.
Qed.

Lemma read_http_triple r h n :
  TextCommands.isHttp_ (currentCommand_ r) = true -> (0 < n)%nat ->
  triple r (OnReadHttpCommand execute errno (to_string_double L) now sid h) (shrunk n true).
Proof.
  intros Hr Hn. unfold OnReadHttpCommand. apply triple_get. intros s.
  eapply triple_bind; [by apply (triple_feed _ _ _ (fun _ r' => r' = r))|]. intros [full h'] r' ->.
  apply triple_reader_bind. case_match; [|case_match].
  - eapply triple_bind; [eapply triple_server with (q := fun _ r' => buf_ r' = []); [apply invalidate_called|done]|].
    intros [] r' Hb. apply triple_reader. unfold shrunk. simpl. by rewrite Hb.
  - apply triple_reader. by unfold shrunk.
  - eapply triple_bind; [eapply triple_server with (q := fun _ r' => buf_ r' = []); [simpl; rewrite Hr; apply http_called|done]|].
    intros [] r' Hb. apply triple_reader. unfold shrunk. simpl. by rewrite Hb.
Qed.

Lemma serve_called b cmd : called I R E b (serve_command (regex L) (print_double L) (lexical_cast_double L) sid cmd) (fun n => 0 <= n).
Proof.
  intros s Hs. unfold serve_command. specialize (text_called b cmd s Hs). unfold mbind, M_bind.
  destruct (OnTextCommand cmd sid s) as [ [ [a n]|e] s1]; [|done]. destruct text_called as (H1 & H2 & H3). simpl in H3.
  assert (Hgo : let '(x, s') := (_ ← (if bool_decide (a = []) then mret tt else on_session sid (SendAnswer a)); mret n : M server Z) s1 in
    rtc R s s' /\ I s' /\ match x with Ok n => 0 <= n | Throw e => E e b end).
  { case_bool_decide; [done|]. specialize (answer_called b a s1 H2). unfold mbind, M_bind.
    destruct (on_session sid (SendAnswer a) s1) as [ [ []|e] s2]; destruct answer_called as (H4 & H5 & H6);
      (split; [by etrans|done]). }
  destruct (negb (n =? 0)); [|exact Hgo]. destruct (n <? MAX_DATA_SIZE); [exact Hgo|]. simpl.
  split; [done|]. split; [done|]. by apply E_sound.
Qed.

Lemma read_command_triple (r : @reader P) n : (length (buf_ r) < n)%nat -> triple r ReadCommand (shrunk n false).
Proof. intros H. apply triple_reader_bind, triple_reader. by unfold shrunk. Qed.

Lemma on_read_command_triple r :
  pending r = ReadLine -> ready r = true ->
  triple r (OnReadCommand init execute errno (regex L) (print_double L) (to_string_double L) (lexical_cast_double L) now sid)
    (shrunk (length (buf_ r)) false).
Proof.
  intros Hp. unfold ready, OnReadCommand, on_line. rewrite Hp. intros Hg. apply triple_get. intros s. simpl in *.
  destruct (getline (buf_ r)) as [ [str rest]|] eqn:El; [|done]. pose proof (getline_length _ _ _ El) as Hn.
  apply triple_reader_bind. case_bool_decide; [by apply read_command_triple|].
  eapply triple_bind; [apply (triple_assert _ _ (fun _ r' => r' = set_buf rest r)); done|]. intros _ ? ->.
  eapply triple_bind; [apply (triple_lift _ _ _ _ _ (fun _ r' => r' = set_buf rest r)); [|done]|].
  { unfold TextCommands.Parse. intros e. case_match; [|done]. intros [= <-]. by apply E_sound. }
  intros cmd ? ->. apply triple_reader_bind. case_match; [|case_match eqn:Eh].
  - eapply triple_bind; [eapply triple_server with (q := fun _ r' => buf_ r' = rest); [apply binary_called|done]|].
    intros [] r' Hb. apply triple_reader. unfold shrunk. simpl. by rewrite Hb.
  - apply andb_true_iff in Eh as [_ Eh]. set (r1 := set_command cmd (set_buf rest r)).
    eapply triple_bind; [by apply (triple_feed _ _ _ (fun _ r' => r' = r1))|]. intros [? h1] ? ->.
    eapply triple_bind; [by apply (triple_feed _ _ _ (fun _ r' => r' = r1))|]. intros [? h2] ? ->.
    unfold ReadHttpCommand. apply triple_get. intros s1. case_match.
    + intros s2 Hs2. pose proof (read_http_triple r1 h2 (length (buf_ r)) Eh ltac:(lia) s2 Hs2) as Ht.
      destruct (OnReadHttpCommand _ _ _ _ _ _ _) as [ [ []|e] [s3 r3] ]; [|done].
      destruct Ht as (T1 & T2 & T3 & T4 & T5). by split.
    + apply triple_reader. by unfold shrunk.
  - eapply triple_bind; [eapply triple_server with (q := fun n r' => 0 <= n /\ buf_ r' = rest); [apply serve_called|done]|].
    intros n r' [Hz Hb]. case_match eqn:En; [|apply read_command_triple; by rewrite Hb].
    apply triple_reader. unfold shrunk, reader_ok. simpl. rewrite Hb. split; [bool_to_prop; lia|done].
Qed.

Lemma on_data_triple (r : @reader P) n :
  0 < n -> n <= Z.of_nat (length (buf_ r)) ->
  triple r (OnCommandData (regex L) (print_double L) (lexical_cast_double L) sid n) (shrunk (length (buf_ r)) false).
Proof.
  intros Hn Hl. unfold OnCommandData, on_data. apply triple_get. intros s. simpl.
  eapply triple_bind; [apply (triple_assert _ _ (fun _ r' => r' = r)); done|]. intros _ ? ->.
  do 2 apply triple_reader_bind. set (r1 := set_buf _ _).
  eapply triple_bind; [eapply triple_server with (q := fun _ r' => r' = r1); [apply text_called|done]|]. intros [a z] ? ->.
  eapply triple_bind; [apply (triple_assert _ _ (fun _ r' => r' = r1)); done|]. intros _ ? ->.
  eapply triple_bind; [apply (triple_assert _ _ (fun _ r' => r' = r1)); done|]. intros _ ? ->.
  eapply triple_bind; [eapply triple_server with (q := fun _ r' => r' = r1); [apply answer_called|done]|]. intros _ ? ->.
  apply read_command_triple. unfold r1. simpl. rewrite length_drop. lia.
Qed.

Lemma resume_triple r : reader_ok r -> ready r = true -> triple r resume (shrunk (length (buf_ r)) (in_http r)).
Proof.
  intros Hok Hr. unfold TextSession.resume. apply triple_get. intros s. simpl. unfold reader_ok, in_http in *.
  destruct (pending r) as [|n|h| |] eqn:Ep; unfold ready in Hr; rewrite Ep in Hr; try done.
  - apply on_read_command_triple; [done|]. by unfold ready; rewrite Ep.
  - apply on_data_triple; [done|]. by bool_to_prop.
Qed.

End Resume.

Notation pump := (pump init execute errno (regex L) (print_double L) (to_string_double L) (lexical_cast_double L) now).
Notation read_all := (read_all init execute errno (regex L) (print_double L) (to_string_double L) (lexical_cast_double L) now).
Notation receive := (receive init execute errno (regex L) (print_double L) (to_string_double L) (lexical_cast_double L) now).

(** ** All callbacks *)

Lemma resume_shrinks s r s' r' :
  reader_ok r -> ready r = true -> resume (s, r) = (Ok tt, (s', r')) -> shrunk (length (buf_ r)) (in_http r) tt r'.
Proof.
  intros Hok Hr Er. pose proof (resume_triple (fun _ => True) (fun _ _ => True) (fun _ _ => True)) as H.
  assert (Hc : forall A b (m : M server A), called (fun _ => True) (fun _ _ => True) (fun _ _ => True) b m (fun _ => True)).
  { intros A b m x _. destruct (m x) as [ []?]; (split; [by apply rtc_once|done]). }
  specialize (H ltac:(done)). specialize (H) with (2 := fun m => Hc _ _ _) (3 := fun b a => Hc _ _ _) (4 := fun b => Hc _ _ _) (5 := fun b => Hc _ _ _).
  assert (Ht : forall b cmd, called (fun _ => True) (fun _ _ => True) (fun _ _ => True) b (OnTextCommand cmd sid) sized).
  { intros b cmd x _. pose proof (text_command_size L cmd sid x) as Hz. destruct (OnTextCommand cmd sid x) as [ [a|e] x'];
      (split; [by apply rtc_once|done]). }
  specialize (H Ht r Hok Hr s I). rewrite Er in H. apply H.
Qed.

Lemma ready_some (r : @reader P) : reader_ok r -> ready r = true -> (0 < length (buf_ r))%nat.
Proof.
  unfold reader_ok, ready. destruct (buf_ r); [|simpl; lia]. destruct (pending r); simpl; try done. intros ? ?. bool_to_prop. lia.
Qed.

(** The bytes are fuel enough. *)
Lemma pump_enough n : forall m s r, reader_ok r -> (length (buf_ r) <= n)%nat -> (length (buf_ r) <= m)%nat ->
  pump n sid (s, r) = pump m sid (s, r).
Proof.
  assert (Hstop : forall m s r, ready r = false -> pump m sid (s, r) = (Ok tt, (s, r))).
  { intros [|m] s r Hr; [done|]. cbn [TextSession.pump]. by rewrite bind_get; cbn [snd]; rewrite Hr. }
  induction n as [|n IH]; intros m s r Hok Hn Hm; (destruct (ready r) eqn:Hr; [|by rewrite !Hstop]);
    pose proof (ready_some r Hok Hr); [lia|]. destruct m as [|m]; [lia|]. cbn [TextSession.pump]. rewrite !bind_get. cbn [snd]. rewrite Hr.
  unfold mbind, M_bind. destruct (resume (s, r)) as [ [ []|e] [s1 r1] ] eqn:Er; [|done].
  destruct (resume_shrinks s r s1 r1 Hok Hr Er) as (H1 & H2 & _). apply IH; [done|lia..].
Qed.

Lemma read_all_step s r :
  reader_ok r -> read_all sid (s, r) = (if ready r then _ ← resume; read_all sid else mret tt) (s, r).
Proof.
  intros Hok. unfold TextSession.read_all at 1. rewrite bind_get. cbn [snd]. destruct (ready r) eqn:Hr.
  - pose proof (ready_some r Hok Hr). destruct (length (buf_ r)) as [|n] eqn:Hn; [lia|]. cbn [TextSession.pump].
    rewrite bind_get. cbn [snd]. rewrite Hr. unfold mbind, M_bind.
    destruct (resume (s, r)) as [ [ []|e] [s1 r1] ] eqn:Er; [|done].
    destruct (resume_shrinks s r s1 r1 Hok Hr Er) as (H1 & H2 & _). unfold TextSession.read_all. rewrite bind_get.
    apply pump_enough; [done|lia|done].
  - destruct (length (buf_ r)); cbn [TextSession.pump]; [done|]. rewrite bind_get. cbn [snd]. by rewrite Hr.
Qed.

(** Induction over the callbacks. *)
Lemma reading_ind (q : @reader P -> Prop) :
  (forall r, reader_ok r -> (forall r1, shrunk (length (buf_ r)) (in_http r) tt r1 -> q r1) -> q r) -> forall r, reader_ok r -> q r.
Proof.
  intros H r. induction r as [r IH] using (well_founded_induction (Wf_nat.well_founded_ltof _ (fun r => length (buf_ r)))).
  intros Hok. apply H; [done|]. intros r1 (H1 & H2 & _). by apply IH.
Qed.

Lemma read_all_waits r : reader_ok r -> forall s s' r',
  read_all sid (s, r) = (Ok tt, (s', r')) -> reader_ok r' /\ ready r' = false /\ (in_http r = true -> in_http r' = true).
Proof.
  revert r. refine (reading_ind _ _). intros r Hok IH s s' r'. rewrite read_all_step by done.
  destruct (ready r) eqn:Hr; [|by intros [= <- <-] ]. unfold mbind, M_bind.
  destruct (resume (s, r)) as [ [ []|e] [s1 r1] ] eqn:Er; [|done]. intros E.
  pose proof (resume_shrinks s r s1 r1 Hok Hr Er) as Hs. destruct (IH r1 Hs s1 s' r' E) as (H1 & H2 & H3).
  do 2 (split; [done|]). intros Hh. by apply H3, Hs.
Qed.

(** ** Pieces *)

(** A call to which bytes that arrive meanwhile make no difference. *)
Definition commutes {A} (b : bytes) (m : M (server * @reader P) A) : Prop := forall s r,
  m (s, arrive b r) = let '(x, (s', r')) := m (s, r) in (x, (s', arrive b r')).

Lemma commutes_bind {A B} b (m : M (server * @reader P) A) (f : A -> M (server * @reader P) B) :
  commutes b m -> (forall a, commutes b (f a)) -> commutes b (m ≫= f).
Proof.
  intros Hm Hf s r. unfold mbind, M_bind. rewrite Hm. destruct (m (s, r)) as [ [a|e] [s1 r1] ]; [apply Hf|done].
Qed.

Lemma commutes_ret {A} b (a : A) : commutes b (mret a).
Proof. done. Qed.
Lemma commutes_lift {A} b (x : res A) : commutes b (lift x).
Proof. done. Qed.
Lemma commutes_server {A} b (m : M server A) : commutes b (on_server m).
Proof. intros s r. unfold on_server. simpl. by destruct (m s). Qed.
Lemma commutes_command b c : commutes b (on_reader (set_command c)).
Proof. done. Qed.
Lemma commutes_reading b p : commutes b (on_reader (set_reading p)).
Proof. done. Qed.
Lemma commutes_read b : commutes b ReadCommand.
Proof. done. Qed.
#[local] Hint Resolve commutes_bind commutes_ret commutes_lift commutes_server commutes_command commutes_reading commutes_read : core.

Lemma set_reading_ends {A} (m : M (server * @reader P) A) p s r s' r' :
  in_http (set_reading p r) = true -> (_ ← m; on_reader (set_reading p)) (s, r) = (Ok tt, (s', r')) -> in_http r' = true.
Proof. intros Hp E. apply bind_inv in E as (a & [s1 r1] & _ & E). unfold on_reader in E. by simplify_eq. Qed.

Lemma read_http_ends s r h s' r' :
  OnReadHttpCommand execute errno (to_string_double L) now sid h (s, r) = (Ok tt, (s', r')) -> in_http r' = true.
Proof.
  unfold OnReadHttpCommand. rewrite bind_get. intros E. apply bind_inv in E as ([full h'] & [s1 r1] & _ & E).
  apply bind_inv in E as ([] & [s2 r2] & _ & E). case_match; [by eapply set_reading_ends; [|exact E]|].
  case_match; [|by eapply set_reading_ends; [|exact E] ]. unfold on_reader in E. by simplify_eq.
Qed.

Lemma bind_arrive {A} b (m : M (server * @reader P) A) (f : A -> M (server * @reader P) unit) s r s' r' :
  commutes b m -> (m ≫= f) (s, r) = (Ok tt, (s', r')) ->
  (forall a s1 r1, f a (s1, r1) = (Ok tt, (s', r')) -> f a (s1, arrive b r1) = (Ok tt, (s', arrive b r'))) ->
  (m ≫= f) (s, arrive b r) = (Ok tt, (s', arrive b r')).
Proof.
  intros Hm E Hf. unfold mbind, M_bind in *. rewrite Hm. destruct (m (s, r)) as [ [a|e] [s1 r1] ]; [by apply Hf|done].
Qed.

Lemma commutes_run b (m : M (server * @reader P) unit) s r s' r' :
  commutes b m -> m (s, r) = (Ok tt, (s', r')) -> m (s, arrive b r) = (Ok tt, (s', arrive b r')).
Proof. intros Hm E. by rewrite Hm, E. Qed.

Lemma on_line_arrive b str c s r s' r' :
  let m := on_line init execute errno (regex L) (print_double L) (to_string_double L) (lexical_cast_double L) now sid str c in
  m (s, r) = (Ok tt, (s', r')) -> in_http r' = false -> m (s, arrive b r) = (Ok tt, (s', arrive b r')).
Proof.
  unfold on_line. case_bool_decide; [intros E _; by apply commutes_run|]. intros E Hh. cbn zeta in *.
  revert E. do 3 (intros E; eapply bind_arrive; [auto|exact E|]; clear dependent s; clear r; intros ? s r).
  case_match; [intros E; apply commutes_run; [apply commutes_bind|]; auto|]. case_match.
  - intros E. apply bind_inv in E as ([? h1] & [s1 r1] & _ & E). apply bind_inv in E as ([? h2] & [s2 r2] & _ & E).
    unfold ReadHttpCommand in E. rewrite bind_get in E. case_match; [apply read_http_ends in E|]; [congruence|].
    unfold on_reader in E. by simplify_eq.
  - apply commutes_run. apply commutes_bind; [auto|]. intros n. by case_match.
Qed.

(** A callback that has its bytes does not look at those that follow. *)
Lemma resume_arrive b s r s' r' :
  ready r = true -> in_http r = false -> resume (s, r) = (Ok tt, (s', r')) -> in_http r' = false ->
  ready (arrive b r) = true /\ resume (s, arrive b r) = (Ok tt, (s', arrive b r')).
Proof.
  intros Hr Hh E Hh'. unfold TextSession.resume, ready in *. unfold in_http in Hh. rewrite !bind_get in *. cbn [snd] in *.
  change (pending (arrive b r)) with (pending r).
  destruct (pending r) as [|n|h| |] eqn:Ep; try done.
  - unfold OnReadCommand in *. rewrite !bind_get in *. cbn [snd] in *. change (buf_ (arrive b r)) with (buf_ r ++ b).
    destruct (getline (buf_ r)) as [ [str rest]|] eqn:El; [|done]. rewrite (getline_app _ _ _ b El). split; [done|].
    by apply (on_line_arrive b str (currentCommand_ r) s (set_buf rest r)).
  - bool_to_prop. change (buf_ (arrive b r)) with (buf_ r ++ b). rewrite length_app.
    assert (Hn : (Z.to_nat n <= length (buf_ r))%nat) by lia. split; [apply Z.leb_le; lia|].
    unfold OnCommandData in *. rewrite !bind_get in *. cbn [snd] in *. change (buf_ (arrive b r)) with (buf_ r ++ b).
    rewrite length_app. revert E. rewrite !Zle_imp_le_bool by lia. cbn zeta.
    rewrite take_app_le, drop_app_le by done. set (cmd := TextCommands.SetDataBuffer _ _).
    set (m := on_data _ _ _ _ _). intros E.
    assert (Hm : commutes b m) by (unfold m, on_data; apply commutes_bind; [auto|]; intros [? ?]; auto).
    exact (commutes_run b m s _ s' r' Hm E).
Qed.

Lemma read_all_arrive b r : reader_ok r -> forall s s' r',
  read_all sid (s, r) = (Ok tt, (s', r')) -> in_http r' = false ->
  read_all sid (s, arrive b r) = read_all sid (s', arrive b r').
Proof.
  revert r. refine (reading_ind _ _). intros r Hok IH s s' r' E Hh'.
  destruct (read_all_waits r Hok s s' r' E) as (Hok' & Hr' & Hin). rewrite read_all_step in E by done.
  destruct (ready r) eqn:Hr; [|by injection E as <- <-].
  assert (Hh : in_http r = false) by (destruct (in_http r); [rewrite Hin in Hh' by done|]; done).
  unfold mbind, M_bind in E. destruct (resume (s, r)) as [ [ []|e] [s1 r1] ] eqn:Er; [|done].
  pose proof (resume_shrinks s r s1 r1 Hok Hr Er) as Hs. pose proof (proj1 Hs) as Hok1.
  assert (Hh1 : in_http r1 = false).
  { destruct (read_all_waits r1 Hok1 s1 s' r' E) as (_ & _ & H). destruct (in_http r1); [rewrite H in Hh' by done|]; done. }
  destruct (resume_arrive b s r s1 r1 Hr Hh Er Hh1) as [Hra Era].
  rewrite read_all_step by exact Hok. rewrite Hra. unfold mbind, M_bind. rewrite Era. by apply IH.
Qed.

(** ** Steps of the server *)

Section Steps.
Hypothesis sound_library : library_sound L.

Definition serving (s : server) : Prop := wf s /\ initialized s /\ is_Some (sessions_ s !! sid).

Definition only_http (e : exn) (http : bool) : Prop :=
  e <> Fault UseAfterFree /\ (e = Fault NullDeref -> http = true).

Lemma serving_step s s' : external L s s' -> serving s -> is_Some (sessions_ s' !! sid) -> serving s'.
Proof.
  intros He (H1 & H2 & _) H3. destruct (server_step_wf L sound_library s s' H1 H2) as [H4 H5]; [by apply step_external|].
  by split.
Qed.

Lemma sound_only_http {A} e b : sound (Throw (A := A) e) -> only_http e b.
Proof. intros H. by split; [intros ->|intros ->]. Qed.

Lemma called_safe {A} b (m : M server A) (q : A -> Prop) :
  (forall s, is_Some (sessions_ s !! sid) -> external L s (m s).2) ->
  (forall s, serving s -> sound (m s).1 /\ is_Some (sessions_ (m s).2 !! sid)) -> returns q m ->
  called serving (external L) only_http b m q.
Proof.
  intros He Hm Hq s Hs. specialize (He s (proj2 (proj2 Hs))). destruct (Hm s Hs) as [H1 H2]. specialize (Hq s).
  destruct (m s) as [x s']; cbn [fst snd] in *. split; [by apply rtc_once|]. split; [by eapply serving_step|].
  destruct x; [done|by eapply sound_only_http].
Qed.

Lemma called_session {A} b (m : M session A) :
  quiet m -> (forall s, is_Some (sessions_ s !! sid) -> external L s (on_session sid m s).2) ->
  called serving (external L) only_http b (on_session sid m) (fun _ => True).
Proof.
  intros Hm He. apply called_safe; [done| |intros s; by case_match].
  intros s (_ & _ & [x Hx]). destruct (session_quiet [] m Hm x) as (H1 & _). unfold on_session. rewrite Hx.
  destruct (m x) as [y x']. simpl in *. rewrite lookup_insert_eq. split; [done|by eexists].
Qed.

Lemma held_serving s : serving s -> held (fixtures s) [sid] [] s.
Proof. intros (_ & _ & H). by apply held_locked, held_start. Qed.

Lemma text_called b cmd : called serving (external L) only_http b (OnTextCommand cmd sid) sized.
Proof.
  apply called_safe; [|intros s Hs|apply text_command_size].
  - intros s Hs. eapply step_text; [done|apply surjective_pairing].
  - destruct sound_library as [Hr Hl].
    destruct (safe_text_command (fixtures s) sid [sid] ltac:(set_solver) (lexical_cast_double L) Hl (print_double L)
      (regex L) Hr cmd (proj1 (proj1 (proj2 Hs))) s (proj1 Hs) (held_serving s Hs)) as (_ & [ [H _] _] & H1 & _).
    split; [done|]. apply H. set_solver.
Qed.

Lemma http_called m : called serving (external L) only_http true (OnHttpCommand m sid) (fun _ => True).
Proof.
  intros s Hs. destruct (kept_http (fixtures s) sid [sid] ltac:(set_solver) (to_string_double L) now m s (proj1 Hs)
    (held_serving s Hs)) as (_ & [ [H _] _] & H1).
  assert (He : external L s (OnHttpCommand m sid s).2) by (eapply step_http; [apply Hs|apply surjective_pairing]).
  destruct (OnHttpCommand m sid s) as [x s']; cbn [fst snd] in *. split; [by apply rtc_once|].
  split; [eapply serving_step; [done|done|]; apply H; set_solver|]. destruct x as [|e]; [done|]. split; [|done].
  intros ->. by apply H1.
Qed.

Lemma read_all_steps r : reader_ok r -> triple serving (external L) only_http r (read_all sid) (fun _ r' => reader_ok r').
Proof.
  revert r. refine (reading_ind _ _). intros r Hok IH s Hs. rewrite read_all_step by done.
  destruct (ready r) eqn:Hr; [|by split; [apply rtc_refl|] ]. revert s Hs.
  apply (triple_bind _ _ _ _ _ _ (shrunk (length (buf_ r)) (in_http r))); [|intros [] r1 H1; by apply IH].
  apply resume_triple; [|apply text_called|apply http_called| | | |done|done].
  - intros e b. apply sound_only_http.
  - intros b a. apply called_session; [auto with quiet|]. intros s Hs. eapply step_answer; [done|apply surjective_pairing].
  - intros b. apply called_session; [solve_quiet|]. intros s Hs. eapply step_binary; [done|apply surjective_pairing].
  - intros b. apply called_session; [auto with quiet|]. intros s Hs. eapply step_invalidate; [done|apply surjective_pairing].
Qed.

End Steps.

(** [TextSession.receive] with the functions of a library. *)
Definition text_receive (b : bytes) : M (server * @reader P) unit := receive sid b.

Lemma text_receive_run b s r : text_receive b (s, r) = read_all sid (s, arrive b r).
Proof. done. Qed.

End Reader.

(** ** Properties *)


(** C9. The reader reads all it can.  After bytes have arrived, it has executed
    every whole command: the line or the data it waits for is not there yet,
    however many commands there were. *)
Theorem text_reader_waits {P} (init : P) execute errno L now sid b s r s1 r1 :
  reader_ok r -> text_receive init execute errno L now sid b (s, r) = (Ok tt, (s1, r1)) ->
  reader_ok r1 /\ ready r1 = false.
Proof.
  intros Hok E. rewrite text_receive_run in E.
  destruct (read_all_waits init execute errno L now sid (arrive b r) Hok s s1 r1 E) as (H1 & H2 & _). by split.
Qed.


(** ** Witnesses *)

(** An HTTP library that does not call back. *)
Definition ex_execute (p : unit) (b : bytes) : unit * list Http.http_callback := (p, []).
Definition ex_errno (p : unit) : bool := false.

Definition ex_receive (b : bytes) (s : server * @reader unit) : res unit * (server * @reader unit) :=
  text_receive tt ex_execute ex_errno any_library 0 1 b s.

Definition ex_lf : bytes := [x0a].
Definition ex_start : server * @reader unit := (ex_server, new_reader).


Lemma text_reader_waits_witness : ready (ex_receive (lit "ping" ++ ex_lf ++ lit "get 1 ke") ex_start).2.2 = false.
Proof.
  destruct (ex_receive (lit "ping" ++ ex_lf ++ lit "get 1 ke") ex_start) as [x [s1 r1] ] eqn:E.
  exact (proj2 (text_reader_waits tt ex_execute ex_errno any_library 0 1 (lit "ping" ++ ex_lf ++ lit "get 1 ke")
    ex_server new_reader s1 r1 I (eq_trans E (f_equal (fun x => (x, (s1, r1))) (f_equal fst (eq_sym E) : x = Ok tt))))).
Defined.


End TextReader.
