(* ===== verification/TextServing.v ===== *)
(** * What a text command does

    The commands of the text protocol that read and change a container, from the
    bytes of a line and its data to the answer.  They do to the storage and to
    the event queue exactly what the commands of the binary protocol do. *)
From S2P Require Import Prelude Decimal StdMap Pr1Message TioDataC Protocol TioDataS Containers MapStorage MemoryStorage Auth TextProtocol ContainerManager Session SessionOutput Sound Server TextCommands Http TextSession ServerSafety TextSafety ServerInvariant ServerCommands TextOutput TextReader.

Module TextServing.
Import Decimal Protocol TioData Containers TextProtocol Session Sound Server TextSession ServerInvariant ServerCommands TextOutput TextReader.

#[local] Existing Instance MemoryStorage.any_storage.

(** ** Lines *)

(** A word of a command line. *)
Definition plain (w : bytes) : Prop := Forall (fun b => b <> x20 /\ b <> x0a /\ b <> x00 /\ b <> x2f) w.

Lemma plain_no_space w : plain w -> no_space w.
Proof. intros H. eapply Forall_impl; [exact H|]. by intros b (H1 & H2 & _). Qed.

Lemma plain_digits ds : forallb is_digit ds = true -> plain ds.
Proof.
  induction ds as [|b ds IH]; [constructor|]. simpl. intros [H1 H2]%andb_true_iff. constructor; [|by apply IH].
  repeat split; intros ->; by vm_compute in H1.
Qed.

Lemma plain_print n : 0 <= n -> plain (print_nat n).
Proof. intros H. apply plain_digits. by destruct (print_nat_spec n H) as (_ & ? & _). Qed.

Ltac plain_literal := repeat (constructor; [repeat split; discriminate|]); constructor.

Lemma plain_type t : plain (GetDataTypeAsString t).
Proof. destruct t; plain_literal. Qed.

Lemma spaced_no_nul ws : Forall plain ws -> x00 ∉ spaced ws.
Proof.
  induction 1 as [|w ws Hw Hws IH]; unfold spaced; cbn [fmap list_fmap concat]; [apply not_elem_of_nil|].
  rewrite !elem_of_app. intros [ [H|H]|H]; [|by eapply Forall_forall in Hw as (_ & _ & Hw & _); [|exact H]|by apply IH].
  apply list_elem_of_singleton in H. discriminate.
Qed.

Lemma c_str_id b : x00 ∉ b -> c_str b = b.
Proof.
  induction b as [|x b IH]; [done|]. intros [H1 H2]%not_elem_of_cons. simpl. rewrite decide_False by done. by rewrite IH.
Qed.

Lemma getline_line line rest : x0a ∉ line -> getline (line ++ x0a :: rest) = Some (line, rest).
Proof.
  induction line as [|b line IH]; [done|]. intros [H1 H2]%not_elem_of_cons. cbn [app getline].
  rewrite decide_False by done. by rewrite IH.
Qed.

(** The command that a line of plain words is. *)
Definition line_command (w : bytes) (ws : list bytes) : TextCommands.Command :=
  {| TextCommands.params_ := ws; TextCommands.command_ := w; TextCommands.source_ := w ++ spaced ws;
     TextCommands.data_ := None; TextCommands.isHttp_ := false |}.

Lemma parse_line w ws :
  plain w -> Forall plain ws -> TextCommands.Parse (c_str (w ++ spaced ws)) TextCommands.no_command = Ok (line_command w ws).
Proof.
  intros Hw Hws. rewrite c_str_id.
  2: { rewrite elem_of_app. intros [H|H]; [|by apply (spaced_no_nul ws)].
       by eapply Forall_forall in Hw as (_ & _ & Hw & _); [|exact H]. }
  unfold TextCommands.Parse. rewrite split_words.
  - rewrite bool_decide_false; [done|]. intros Hl. apply last_Some in Hl as [l ->]. apply Forall_app in Hws as [_ [Hws _]%Forall_cons].
    unfold plain in Hws. rewrite Forall_forall in Hws. destruct (Hws x2f) as (_ & _ & _ & H); [|done].
    vm_compute. do 4 apply list_elem_of_further. apply list_elem_of_here.
  - by apply plain_no_space.
  - eapply Forall_impl; [done|]. apply plain_no_space.
Qed.

(** ** Requests *)

Section Requests.
Context (print_double : bytes -> bytes) (lexical_cast_double : bytes -> res bytes).

Definition text_words (h : Z) (k v m : TioData) : list bytes :=
  print_nat h :: concat (info_words print_double <$> fields3 k v m).

(** The line and the data of a command on the container of handle [h]. *)
Definition request_line (w : bytes) (h : Z) (k v m : TioData) : bytes := w ++ spaced (text_words h k v m).
Definition text_data (k v m : TioData) : bytes := field_bytes print_double (fields3 k v m).
Definition text_request (w : bytes) (h : Z) (k v m : TioData) : bytes := request_line w h k v m ++ [x0d; x0a] ++ text_data k v m.

Lemma present_plain l : Forall (fun p => plain p.1) l -> Forall plain (concat (info_words print_double <$> present l)).
Proof.
  induction 1 as [|[n t] l Hn Hl IH]; [constructor|]. unfold present. rewrite filter_cons. case_decide; [|done].
  cbn [fmap list_fmap concat info_words app fst snd]. repeat constructor; [done|apply plain_type| |exact IH].
  apply plain_print. unfold text_size. lia.
Qed.

Lemma text_words_plain h k v m : 0 <= h -> Forall plain (text_words h k v m).
Proof.
  intros Hh. constructor; [by apply plain_print|]. apply present_plain.
  do 3 (apply Forall_cons_2; [cbn [fst]; plain_literal|]). apply Forall_nil_2.
Qed.

Lemma fields3_some k v m : all_null k v m = false -> exists p l, fields3 k v m = p :: l.
Proof.
  intros H. destruct (fields3 k v m) as [|p l] eqn:E; [|by eauto]. unfold fields3, present in E. exfalso.
  unfold all_null in H. destruct k, v, m; try done; discriminate E.
Qed.

Lemma text_data_size k v m : all_null k v m = false -> 0 < Z.of_nat (length (text_data k v m)).
Proof.
  intros H. destruct (fields3_some k v m H) as (p & l & E). unfold text_data, field_bytes. rewrite E.
  cbn [fmap list_fmap concat]. rewrite !length_app. simpl. lia.
Qed.

Lemma text_words_count h k v m w : all_null k v m = false ->
  TextCommands.CheckParameterCount (line_command w (text_words h k v m)) 4 TextCommands.at_least = true.
Proof.
  intros H. destruct (fields3_some k v m H) as (p & l & E). unfold TextCommands.CheckParameterCount, line_command, text_words.
  rewrite E. done.
Qed.

(** The fields of a command, before and after its data has come. *)
Lemma extract_fields k v m :
  text_ok print_double lexical_cast_double k -> text_ok print_double lexical_cast_double v ->
  text_ok print_double lexical_cast_double m -> all_null k v m = false -> Z.of_nat (length (text_data k v m)) < 2 ^ 64 ->
  let words := concat (info_words print_double <$> fields3 k v m) in
  let none := (Some None_, Some None_, Some None_) in
  ExtractFieldSet_data lexical_cast_double words [] none = Ok (Z.of_nat (length (text_data k v m)), none) /\
  ExtractFieldSet_data lexical_cast_double words (text_data k v m) none = Ok (0, (Some k, Some v, Some m)).
Proof.
  intros H1 H2 H3 Hn Hb words none. destruct (fields3_good print_double lexical_cast_double k v m H1 H2 H3) as (Hg & Hv & _ & Hput).
  assert (E : ExtractFieldSet words = Ok (info print_double <$> fields3 k v m, Z.of_nat (length (text_data k v m)))).
  { unfold ExtractFieldSet, words. by rewrite extract_set_words by (done || (unfold text_data in *; lia)). }
  pose proof (text_data_size k v m Hn). unfold ExtractFieldSet_data. rewrite E. mrun. split; [by ztest|].
  rewrite (proj2 (Z.ltb_ge _ _)) by lia. unfold ExtractFieldsFromBuffer, none. rewrite <- Hput.
  pose proof (extract_loop_data print_double lexical_cast_double (fields3 k v m) [] (Some None_, Some None_, Some None_) Hg) as El.
  change (Z.of_nat (length [])) with 0 in El. rewrite app_nil_l in El. unfold text_data. by rewrite El.
Qed.

End Requests.

(** ** Serving *)

(** The binary command that a word with data stands for. *)
Definition text_code (w : bytes) : option Z :=
  if bool_decide (w = lit "get") then Some TIO_COMMAND_GET
  else if bool_decide (w = lit "set") then Some TIO_COMMAND_SET
  else if bool_decide (w = lit "insert") then Some TIO_COMMAND_INSERT
  else if bool_decide (w = lit "delete") then Some TIO_COMMAND_DELETE
  else if bool_decide (w = lit "push_back") then Some TIO_COMMAND_PUSH_BACK
  else if bool_decide (w = lit "push_front") then Some TIO_COMMAND_PUSH_FRONT
  else None.

Lemma text_code_cases w cmd : text_code w = Some cmd ->
  (w, cmd) ∈ [(lit "get", TIO_COMMAND_GET); (lit "set", TIO_COMMAND_SET); (lit "insert", TIO_COMMAND_INSERT);
    (lit "delete", TIO_COMMAND_DELETE); (lit "push_back", TIO_COMMAND_PUSH_BACK); (lit "push_front", TIO_COMMAND_PUSH_FRONT)].
Proof. unfold text_code. repeat case_bool_decide; subst; intros; simplify_eq; set_solver. Qed.

(** One goal for each word. *)
Ltac each_word H :=
  apply text_code_cases in H; repeat (apply elem_of_cons in H as [H|H]; [injection H as -> ->|]);
    [..|by apply not_elem_of_nil in H].

Section Serving.
Context (L : library).

Definition text_answer (cmd : Z) (k : TioData) (r : res outs) : bytes :=
  match r with
  | Throw e => MakeAnswer error (Some (what e))
  | Ok (rk, rv, rm) =>
      if cmd =? TIO_COMMAND_GET then
        let realKey := default None_ rk in
        MakeDataAnswer (print_double L) (if GetDataType realKey =? 0 then k else realKey) (default None_ rv) (default None_ rm)
      else MakeAnswer success None
  end.

(** A text session, one of its containers, a command on it, and what the
    container's storage gives. *)
Record text_callee (s : server) (sid h : Z) (w : bytes) (cmd : Z) (k v m : TioData) (x : session) (c l : loc)
    (a : MemoryStorage.AnyStorage) (r : res outs) (a' : MemoryStorage.AnyStorage) (out : list bytes) : Prop := {
  tc_session : sessions_ s !! sid = Some x;
  tc_handle : 0 <= h < 2 ^ 32 /\ handles_ x !! h = Some c;
  tc_contains : contains s c l a;
  tc_access : TextCommands.CheckObjectAccess (GetName c s) (GetName c s) w sid s = true;
  tc_word : text_code w = Some cmd;
  tc_values : text_ok (print_double L) (lexical_cast_double L) k /\ text_ok (print_double L) (lexical_cast_double L) v /\
    text_ok (print_double L) (lexical_cast_double L) m;
  tc_some : all_null k v m = false;
  tc_get : cmd = TIO_COMMAND_GET -> v = None_ /\ m = None_;
  tc_size : Z.of_nat (length (text_data (print_double L) k v m)) < MAX_DATA_SIZE;
  tc_storage : exists f, data_command cmd k v m = Some f /\ f a = (r, a');
  tc_no_fault : forall g, r <> Throw (Fault g);
  tc_outbox : text_outbox out x;
  tc_answer : Z.of_nat (length (text_answer cmd k r)) <= 100 * 1024 * 1024
}.

Notation OnTextCommand := (TextCommands.OnTextCommand (regex L) (print_double L) (lexical_cast_double L)).

Lemma text_handler w cmd : text_code w = Some cmd ->
  TextCommands.lookup_handler w (TextCommands.dispatchMap_ (regex L) (print_double L) (lexical_cast_double L)) =
    Some (TextCommands.OnAnyDataCommand (print_double L) (lexical_cast_double L)).
Proof. intros H. each_word H; reflexivity. Qed.

(** The container and the fields are found. *)
Lemma parse_data_run s sid h w k v m x c data n o cmd :
  sessions_ s !! sid = Some x -> 0 <= h < 2 ^ 32 -> handles_ x !! h = Some c -> all_null k v m = false ->
  TextCommands.params_ cmd = text_words (print_double L) h k v m -> TextCommands.GetDataBuffer cmd = data ->
  TextCommands.command_ cmd = w ->
  ExtractFieldSet_data (lexical_cast_double L) (concat (info_words (print_double L) <$> fields3 k v m)) data
    (Some None_, Some None_, Some None_) = Ok (n, o) ->
  TextCommands.ParseDataCommand (lexical_cast_double L) cmd sid s = (Ok (c, GetName c s, GetName c s, n, o), s).
Proof.
  intros Hx Hh Hc Hn Hp Hd Hw He. unfold TextCommands.ParseDataCommand.
  assert (Hcount : TextCommands.CheckParameterCount cmd 4 TextCommands.at_least = true).
  { pose proof (text_words_count (print_double L) h k v m w Hn) as H. unfold TextCommands.CheckParameterCount in *.
    rewrite Hp. exact H. }
  rewrite Hcount. cbn [negb]. unfold TextCommands.param. rewrite Hp, Hd. cbn [text_words lookup list_lookup default].
  rewrite (bind_ok _ _ _ (c, GetName c s, GetName c s) s).
  - cbn [drop]. by rewrite (bind_lift_ok _ _ _ _ He).
  - apply try_ok. rewrite (bind_lift_ok _ _ _ _ (lexical_cast_unsigned_print h Hh)).
    unfold TextCommands.GetRegisteredContainer_names. rewrite (bind_ok _ _ _ c s); [done|].
    rewrite (on_session_run sid _ s x (Ok c) x Hx); [by rewrite set_sessions_same|].
    unfold GetRegisteredContainer. rewrite bind_get. assert (u32 h = h) as -> by (unfold u32; by apply Z.mod_small). by rewrite Hc.
Qed.

(** The line alone: the data is asked for. *)
Lemma text_asks s sid h w cmd k v m x c l a r a' out :
  text_callee s sid h w cmd k v m x c l a r a' out ->
  OnTextCommand (line_command w (text_words (print_double L) h k v m)) sid s =
    (Ok ([], Z.of_nat (length (text_data (print_double L) k v m))), collect s).
Proof.
  intros [Hx [Hh Hhc] Hc Hacc Hw (H1 & H2 & H3) Hn _ Hsz _ _ _ _].
  destruct (extract_fields (print_double L) (lexical_cast_double L) k v m H1 H2 H3 Hn) as [He _]; [unfold MAX_DATA_SIZE in Hsz; lia|].
  unfold TextCommands.OnTextCommand. cbn [line_command TextCommands.command_]. rewrite (text_handler w cmd Hw).
  apply try_ok, end_scope_run. unfold TextCommands.OnAnyDataCommand, TextCommands.answering. apply try_ok.
  rewrite (bind_ok _ _ _ _ _ (parse_data_run s sid h w k v m x c [] _ _ (line_command w (text_words (print_double L) h k v m))
    Hx Hh Hhc Hn eq_refl eq_refl eq_refl He)).
  rewrite bind_get. cbn zeta. cbn [line_command TextCommands.command_]. rewrite Hacc. cbn [negb].
  pose proof (text_data_size (print_double L) k v m Hn). by ztest.
Qed.

(** The call of the storage. *)
Lemma text_change_run s w cmd k v m c l a f r a' :
  text_code w = Some cmd -> cmd <> TIO_COMMAND_GET -> contains s c l a -> data_command cmd k v m = Some f -> f a = (r, a') ->
  TextCommands.text_change w c k v m s =
    (match r with Ok _ => Ok tt | Throw e => Throw e end, changed l a a' s).
Proof.
  intros Hw Hg Hc Hd Hf. each_word Hw; try done; cbn in Hd; injection Hd as <-; apply change_inv in Hf as (r' & Hf & ->);
    pose proof (server_call_run c l a _ r' a' s Hc Hf) as E; destruct r' as [ []|]; exact E.
Qed.

(** The line with its data. *)
Lemma text_serves s sid h w cmd k v m x c l a r a' out :
  text_callee s sid h w cmd k v m x c l a r a' out ->
  OnTextCommand (TextCommands.SetDataBuffer (text_data (print_double L) k v m) (line_command w (text_words (print_double L) h k v m)))
    sid s = (Ok (text_answer cmd k r, 0), collect (changed l a a' s)).
Proof.
  intros [Hx [Hh Hhc] Hc Hacc Hw (H1 & H2 & H3) Hn Hget Hsz (f & Hd & Hf) Hr _ _].
  destruct (extract_fields (print_double L) (lexical_cast_double L) k v m H1 H2 H3 Hn) as [_ He]; [unfold MAX_DATA_SIZE in Hsz; lia|].
  set (cm := TextCommands.SetDataBuffer _ _). unfold TextCommands.OnTextCommand. change (TextCommands.command_ cm) with w.
  rewrite (text_handler w cmd Hw). apply try_ok, end_scope_run. unfold TextCommands.OnAnyDataCommand, TextCommands.answering.
  pose proof (parse_data_run s sid h w k v m x c _ _ _ cm Hx Hh Hhc Hn eq_refl eq_refl eq_refl He) as Ep.
  unfold try_catch. rewrite (bind_ok _ _ _ _ _ Ep), bind_get. cbn zeta. change (TextCommands.command_ cm) with w.
  rewrite Hacc. cbn [negb default]. destruct (Z.eqb_spec 0 0) as [_|]; [|done]. cbn [negb].
  destruct (decide (cmd = TIO_COMMAND_GET)) as [->|Hg].
  - destruct (Hget eq_refl) as [-> ->]. assert (w = lit "get") as ->.
    { clear -Hw. unfold text_code in Hw. repeat case_bool_decide; done. }
    cbn in Hd. injection Hd as <-. pose proof (server_call_run c l a _ r a' s Hc Hf) as E.
    rewrite bool_decide_true by done. destruct r as [ [ [rk rv] rm]|e].
    + by rewrite (bind_ok _ _ _ _ _ E).
    + rewrite (bind_throw _ _ _ _ _ E). destruct e; try done. by destruct (Hr f).
  - pose proof (text_change_run s w cmd k v m c l a f r a' Hw Hg Hc Hd Hf) as E.
    assert (bool_decide (w = lit "get") = false /\ bool_decide (w = lit "set_property") = false /\ bool_decide (w = lit "get_property") = false)
      as (-> & -> & ->) by (clear -Hw Hg; each_word Hw; done).
    unfold text_answer. rewrite (proj2 (Z.eqb_neq cmd TIO_COMMAND_GET)) by done. destruct r as [ [ [? ?] ?]|e].
    + by rewrite (bind_ok _ _ _ _ _ E).
    + rewrite (bind_throw _ _ _ _ _ E). destruct e; try done. by destruct (Hr f0).
Qed.

Lemma contains_name s c l a : contains s c l a -> GetName c s = MemoryStorage.any_name a.
Proof.
  intros [H1 H2]. unfold GetName, storage_at. by rewrite H1; simpl; rewrite H2.
Qed.

Lemma callee_collect s sid h w cmd k v m x c l a r a' out :
  text_callee s sid h w cmd k v m x c l a r a' out -> text_callee (collect s) sid h w cmd k v m x c l a r a' out.
Proof.
  intros [Hx Hh Hc Hacc Hw Hv Hn Hget Hsz Hst Hr Ho Ha].
  assert (Hc' : contains (collect s) c l a) by (apply contains_collect; [eapply holds_handle; [exact Hx|apply Hh]|exact Hc]).
  split; try done. rewrite (contains_name _ _ _ _ Hc'), <- (contains_name _ _ _ _ Hc). exact Hacc.
Qed.

Lemma text_answer_sendable cmd k r : Z.of_nat (length (text_answer cmd k r)) <= 100 * 1024 * 1024 -> sendable_text (text_answer cmd k r).
Proof.
  intros H. split; [|done]. unfold text_answer, MakeDataAnswer, MakeAnswer, MakeAnswerStart.
  destruct r as [ [ [? ?] ?]|e]; [case_match|]; done.
Qed.

Section Receiving.
Context {P : Type} (init : P) (execute : P -> bytes -> P * list Http.http_callback) (errno : P -> bool) (now : Z).

Lemma line_ends w ws : plain w -> Forall plain ws -> x0a ∉ (w ++ spaced ws) ++ [x0d].
Proof.
  intros Hw Hws. rewrite !elem_of_app. intros [ [H|H]|H].
  - by apply plain_no_space, word_no_lf in Hw.
  - eapply spaced_no_lf; [|exact H]. eapply Forall_impl; [done|]. apply plain_no_space.
  - apply list_elem_of_singleton in H. discriminate.
Qed.

Lemma text_code_plain w cmd : text_code w = Some cmd -> plain w /\ w <> [] /\ w <> lit "protocol".
Proof. intros H. each_word H; (split; [plain_literal|done]). Qed.

Notation resume := (TextSession.resume init execute errno (regex L) (print_double L) (to_string_double L) (lexical_cast_double L) now).

(** The reader when it waits for the data of a command. *)
Definition at_data (w : bytes) (h : Z) (k v m : TioData) : @reader P :=
  {| currentCommand_ := line_command w (text_words (print_double L) h k v m); buf_ := text_data (print_double L) k v m;
     pending := ReadData (Z.of_nat (length (text_data (print_double L) k v m))) |}.

(** A line that is served: the reader goes on to the data it asks for, or to the
    next line. *)
Lemma line_resume s sid w ws rest n s1 :
  plain w -> w <> [] -> w <> lit "protocol" -> Forall plain ws ->
  serve_command (regex L) (print_double L) (lexical_cast_double L) sid (line_command w ws) s = (Ok n, s1) ->
  let rd := arrive ((w ++ spaced ws) ++ [x0d; x0a] ++ rest) new_reader in
  ready rd = true /\
  resume sid (s, rd) = (Ok tt, (s1, if n =? 0 then arrive rest new_reader
    else {| currentCommand_ := line_command w ws; buf_ := rest; pending := ReadData n |})).
Proof.
  intros Hp Hne Hpr Hws Es rd.
  assert (Hg : getline (buf_ rd) = Some ((w ++ spaced ws) ++ [x0d], rest)).
  { assert (buf_ rd = ((w ++ spaced ws) ++ [x0d]) ++ x0a :: rest) as -> by (rewrite <- app_assoc; done).
    apply getline_line. by apply line_ends. }
  unfold ready, TextSession.resume. rewrite bind_get. cbn [snd]. change (pending rd) with (@ReadLine P). rewrite Hg. split; [done|].
  unfold OnReadCommand. rewrite bind_get. cbn [snd]. rewrite Hg. unfold on_line.
  rewrite bool_decide_false by (by intros [_ ?]%app_eq_nil). rewrite strip_cr_end. change (currentCommand_ rd) with TextCommands.no_command.
  change (mbind ?k (on_reader (set_buf ?d)) (s, rd)) with (k tt (s, set_buf d rd)). cbn beta.
  rewrite (bind_lift_ok _ _ _ tt eq_refl), (bind_lift_ok _ _ _ _ (parse_line w ws Hp Hws)).
  change (mbind ?k (on_reader (set_command ?d)) (s, ?y)) with (k tt (s, set_command d y)). cbn beta.
  cbn [line_command TextCommands.command_ TextCommands.isHttp_]. rewrite (bool_decide_false (w = lit "protocol")) by done. cbn [andb negb].
  rewrite (bind_ok _ _ _ n (s1, set_command (line_command w ws) (set_buf rest rd))).
  - by destruct (n =? 0).
  - unfold on_server. cbn [fst snd]. by rewrite Es.
Qed.

Lemma line_resumes s sid h w cmd k v m x c l a r a' out :
  text_callee s sid h w cmd k v m x c l a r a' out ->
  let rd := arrive (text_request (print_double L) w h k v m) new_reader in
  ready rd = true /\ resume sid (s, rd) = (Ok tt, (collect s, at_data w h k v m)).
Proof.
  intros H rd. pose proof H as [Hx [Hh _] _ _ Hw _ Hn _ Hsz _ _ _ _]. destruct (text_code_plain w cmd Hw) as (Hp & Hne & Hpr).
  set (ws := text_words (print_double L) h k v m).
  pose proof (text_data_size (print_double L) k v m Hn). set (n := Z.of_nat (length (text_data (print_double L) k v m))) in *.
  destruct (line_resume s sid w ws (text_data (print_double L) k v m) n (collect s) Hp Hne Hpr) as [R E].
  - apply text_words_plain. lia.
  - unfold serve_command. rewrite (bind_ok _ _ _ _ _ (text_asks s sid h w cmd k v m x c l a r a' out H)). fold n.
    assert (n <> 0) by lia. rewrite (proj2 (Z.eqb_neq n 0)) by done. cbn [negb].
    rewrite (bind_lift_ok _ _ _ tt) by (unfold assert_; by ztest). done.
  - rewrite (proj2 (Z.eqb_neq n 0)) in E by lia. by split.
Qed.

Lemma data_resumes s sid h w cmd k v m x c l a r a' out x' :
  text_callee s sid h w cmd k v m x c l a r a' out ->
  SendString (text_answer cmd k r) x = (Ok tt, x') ->
  let s1 := collect (changed l a a' s) in
  ready (at_data w h k v m) = true /\
  resume sid (s, at_data w h k v m) = (Ok tt, (set_sessions (<[sid := x']> (sessions_ s1)) s1, new_reader)).
Proof.
  intros H Es s1. pose proof H as [Hx [Hh _] _ _ Hw _ Hn _ Hsz _ _ _ Hans].
  destruct (text_answer_sendable cmd k r Hans) as [Hne _]. split; [apply Z.leb_refl|].
  unfold TextSession.resume. rewrite bind_get. cbn [snd at_data pending]. unfold OnCommandData. rewrite bind_get. cbn [snd at_data buf_ currentCommand_].
  rewrite Z.leb_refl, (bind_lift_ok _ _ _ tt eq_refl). cbn zeta. rewrite Nat2Z.id, take_ge, drop_ge by done.
  set (cm := TextCommands.SetDataBuffer _ _).
  change (mbind ?k (on_reader (set_command ?d)) (s, ?y)) with (k tt (s, set_command d y)). cbn beta.
  change (mbind ?k (on_reader (set_buf ?d)) (s, ?y)) with (k tt (s, set_buf d y)). cbn beta. set (rd := set_buf _ _).
  unfold on_data. rewrite (bind_ok _ _ _ (text_answer cmd k r, 0) (s1, rd)).
  - rewrite (bind_lift_ok _ _ _ tt eq_refl). rewrite (bool_decide_false (text_answer cmd k r = [])) by done.
    rewrite (bind_lift_ok _ _ _ tt eq_refl).
    rewrite (bind_ok _ _ _ tt (set_sessions (<[sid := x']> (sessions_ s1)) s1, rd)); [done|].
    unfold on_server. cbn [fst snd]. by rewrite (on_session_run sid _ s1 x (Ok tt) x').
  - unfold on_server, cm. cbn [fst snd]. by rewrite (text_serves s sid h w cmd k v m x c l a r a' out H).
Qed.

(** The bytes of a request that arrive at a reader with nothing to read. *)
Lemma text_request_run s sid h w cmd k v m x c l a r a' out :
  text_callee s sid h w cmd k v m x c l a r a' out ->
  exists s', text_receive init execute errno L now sid (text_request (print_double L) w h k v m) (s, new_reader) = (Ok tt, (s', new_reader)) /\
    served s sid x c l a a' (text_outbox (out ++ [text_answer cmd k r])) s'.
Proof.
  intros H. pose proof (callee_collect _ _ _ _ _ _ _ _ _ _ _ _ _ _ _ H) as H1. pose proof H as [Hx [Hh Hhc] Hc _ _ _ Hn _ _ _ _ Ho Hans].
  destruct (text_outbox_send out _ x Ho (text_answer_sendable cmd k r Hans)) as (x' & Es & Ho' & Hsame).
  destruct (line_resumes s sid h w cmd k v m x c l a r a' out H) as [R1 E1].
  destruct (data_resumes (collect s) sid h w cmd k v m x c l a r a' out x' H1 Es) as [R2 E2].
  rewrite text_receive_run, read_all_step by done. rewrite R1, (bind_ok _ _ _ _ _ E1).
  rewrite read_all_step by by apply text_data_size. rewrite R2, (bind_ok _ _ _ _ _ E2).
  rewrite read_all_step by done. eexists. split; [reflexivity|].
  assert (Hh1 : holds (changed l a a' (collect s)) c) by (eapply holds_handle; [exact Hx|exact Hhc]).
  pose proof (contains_collect _ _ _ _ Hh1 (contains_changed (collect s) c l a a' (tc_contains _ _ _ _ _ _ _ _ _ _ _ _ _ _ _ H1))) as Hc2.
  apply (served_intro s sid x c l a a' _ x'); [exact Hx|exact Hc2|reflexivity|reflexivity|exact Ho'|exact Hsame|reflexivity..].
Qed.

(** A command whose handle is not open: the line is answered, and the data is
    what the reader reads next. *)
Lemma rejected_run s sid h w cmd k v m x out :
  sessions_ s !! sid = Some x -> 0 <= h < 2 ^ 32 -> handles_ x !! h = None -> text_code w = Some cmd ->
  all_null k v m = false -> text_outbox out x ->
  exists x', let s1 := set_sessions (<[sid := x']> (sessions_ s)) (collect s) in
    text_outbox (out ++ [MakeAnswer error (Some (lit "invalid handle"))]) x' /\
    text_receive init execute errno L now sid (text_request (print_double L) w h k v m) (s, new_reader) =
    text_receive init execute errno L now sid (text_data (print_double L) k v m) (s1, new_reader).
Proof.
  intros Hx Hh Hc Hw Hn Ho. set (ans := MakeAnswer error _). destruct (text_code_plain w cmd Hw) as (Hp & Hne & Hpr).
  destruct (text_outbox_send out ans x Ho) as (x' & Es & Ho' & _); [split; [done|by vm_compute]|]. exists x'. cbn zeta. split; [done|].
  set (ws := text_words (print_double L) h k v m). set (s1 := set_sessions _ _).
  assert (Et : OnTextCommand (line_command w ws) sid s = (Ok (ans, 0), collect s)).
  { unfold TextCommands.OnTextCommand. cbn [line_command TextCommands.command_]. rewrite (text_handler w cmd Hw).
    apply try_ok, end_scope_run. unfold TextCommands.OnAnyDataCommand, TextCommands.answering, try_catch at 1.
    assert (Ep : TextCommands.ParseDataCommand (lexical_cast_double L) (line_command w ws) sid s = (Throw (invalid_argument "invalid handle"), s)).
    { unfold TextCommands.ParseDataCommand. unfold ws at 1. rewrite text_words_count by done. cbn [negb].
      rewrite (bind_throw _ _ _ (invalid_argument "invalid handle") s); [done|].
      unfold TextCommands.param, ws. cbn [line_command TextCommands.params_ text_words lookup list_lookup default].
      rewrite (try_throw _ _ _ (invalid_argument "invalid handle") s); [done| |done].
      rewrite (bind_lift_ok _ _ _ _ (lexical_cast_unsigned_print h Hh)).
      unfold TextCommands.GetRegisteredContainer_names. apply bind_throw.
      rewrite (on_session_run sid _ s x (Throw invalid_handle) x Hx); [by rewrite set_sessions_same|].
      unfold GetRegisteredContainer. rewrite bind_get. assert (u32 h = h) as -> by (unfold u32; by apply Z.mod_small). by rewrite Hc. }
    rewrite (bind_throw _ _ _ _ _ Ep). done. }
  assert (Esv : serve_command (regex L) (print_double L) (lexical_cast_double L) sid (line_command w ws) s = (Ok 0, s1)).
  { unfold serve_command. rewrite (bind_ok _ _ _ _ _ Et). cbn [Z.eqb negb].
    assert (Hx1 : sessions_ (collect s) !! sid = Some x) by exact Hx.
    rewrite (bool_decide_false (ans = [])) by done.
    change (mbind ?k (mret (M := M server) ?u) ?y) with (k u y). cbn beta.
    rewrite (bind_ok _ _ _ tt s1); [done|]. exact (on_session_run sid _ (collect s) x (Ok tt) x' Hx1 Es). }
  rewrite !text_receive_run. rewrite read_all_step by done. set (rd := arrive _ _).
  destruct (line_resume s sid w ws (text_data (print_double L) k v m) 0 s1 Hp Hne Hpr (text_words_plain _ h k v m ltac:(lia)) Esv) as [R E].
  assert (Hrd : rd = arrive ((w ++ spaced ws) ++ [x0d; x0a] ++ text_data (print_double L) k v m) new_reader) by done. rewrite Hrd, R.
  by rewrite (bind_ok _ _ _ _ _ E).
Qed.

End Receiving.

(** The handle of a session, as a handler of the text protocol finds it. *)
Lemma handle_run s sid h w ws x c :
  sessions_ s !! sid = Some x -> 0 <= h < 2 ^ 32 -> handles_ x !! h = Some c ->
  TextCommands.handle_container (line_command w (print_nat h :: ws)) sid s = (Ok c, s).
Proof.
  intros Hx Hh Hc. unfold TextCommands.handle_container, TextCommands.param. cbn [line_command TextCommands.params_ lookup list_lookup default].
  rewrite (bind_lift_ok _ _ _ _ (lexical_cast_unsigned_print h Hh)).
  rewrite (on_session_run sid _ s x (Ok c) x Hx); [by rewrite set_sessions_same|].
  unfold GetRegisteredContainer. rewrite bind_get. assert (u32 h = h) as -> by (unfold u32; by apply Z.mod_small). by rewrite Hc.
Qed.

(** A handler that throws. *)
Lemma uncaught_run f cmd sid s e :
  TextCommands.lookup_handler (TextCommands.command_ cmd) (TextCommands.dispatchMap_ (regex L) (print_double L) (lexical_cast_double L)) = Some f ->
  (f cmd sid s).1 = Throw e -> (forall g, e <> Fault g) -> (OnTextCommand cmd sid s).1 = Throw (Fault AssertFail).
Proof.
  intros Hf He Hg. unfold TextCommands.OnTextCommand. rewrite Hf. destruct (f cmd sid s) as [r s'] eqn:E. simpl in He. subst r.
  by rewrite (try_throw _ _ _ e (collect s')) by (done || by apply end_scope_run).
Qed.

End Serving.

(** ** Properties *)


(** C7. The two protocols agree.  A command with the same handle's container, key,
    value and metadata, sent as text by one session or in binary by another,
    leaves the same records in every storage and the same events in the queue. *)
Theorem text_binary_agree {P} (init : P) execute errno now L s sid h w cmd k v m x c l a r a' out sid2 h2 kv vv mv x2 r2 a2 w0 out2 seq :
  text_callee L s sid h w cmd k v m x c l a r a' out ->
  callee s sid2 h2 cmd kv vv mv x2 c l a r2 a2 w0 out2 -> argument kv = k -> argument vv = v -> argument mv = m ->
  exists s1 s2, text_receive init execute errno L now sid (text_request (print_double L) w h k v m) (s, new_reader) = (Ok tt, (s1, new_reader)) /\
    on_message (regex L) sid2 (Pr1.enc_message (TioDataC.data_fields cmd h2 kv vv mv) seq) s = (Ok tt, s2) /\
    (forall y, ContainerManager.at_loc y (ContainerManager.memory (containerManager_ s1)) =
               ContainerManager.at_loc y (ContainerManager.memory (containerManager_ s2))) /\
    eventQueue_ s1 = eventQueue_ s2.
Proof.
  intros Ht Hb <- <- <-. destruct (text_request_run L init execute errno now _ _ _ _ _ _ _ _ _ _ _ _ _ _ _ Ht) as (s1 & E1 & [S1 T1 _ Q1 _ _ _]).
  destruct (serve_run (regex L) _ _ _ _ _ _ _ _ _ _ _ _ _ _ _ seq Hb) as (s2 & E2 & [S2 T2 _ Q2 _ _ _]).
  assert (a2 = a') as ->.
  { destruct (tc_storage _ _ _ _ _ _ _ _ _ _ _ _ _ _ _ _ Ht) as (f & F1 & F2).
    destruct (ce_storage _ _ _ _ _ _ _ _ _ _ _ _ _ _ _ Hb) as (g & G1 & G2). congruence. }
  exists s1, s2. split; [done|]. split; [done|]. split; [|congruence]. intros y. destruct (decide (y = l)) as [->|Hy].
  - destruct S1 as [_ ->], S2 as [_ ->]. done.
  - by rewrite T1, T2.
Qed.

(** C39. The data of a rejected command is executed.  When the handle of a command
    is not open, the line is answered with an error and the data that follows it
    is not skipped: the server reads it as the next command lines, so that a
    value can hold commands. *)
Theorem rejected_data_executed {P} (init : P) execute errno now L s sid h w cmd k v m x out :
  sessions_ s !! sid = Some x -> 0 <= h < 2 ^ 32 -> handles_ x !! h = None -> text_code w = Some cmd ->
  all_null k v m = false -> text_outbox out x ->
  exists x', let s1 := set_sessions (<[sid := x']> (sessions_ s)) (collect s) in
    text_outbox (out ++ [MakeAnswer error (Some (lit "invalid handle"))]) x' /\
    text_receive init execute errno L now sid (text_request (print_double L) w h k v m) (s, new_reader) =
    text_receive init execute errno L now sid (text_data (print_double L) k v m) (s1, new_reader).
Proof. apply rejected_run. Qed.

(** Clients can make handlers throw.  No handler is supposed to throw, which
    the server asserts; but no storage supports custom commands, and the handlers
    of [command] and of a [queryex] with an expression that is not a regular
    expression do not catch what is thrown then. *)
Theorem uncaught_commands L s sid h w ws x c l a :
  sessions_ s !! sid = Some x -> 0 <= h < 2 ^ 32 -> handles_ x !! h = Some c -> contains s c l a ->
  (TextCommands.OnTextCommand (regex L) (print_double L) (lexical_cast_double L)
     (line_command (lit "command") (print_nat h :: w :: ws)) sid s).1 = Throw (Fault AssertFail) /\
  forall e, regex L w = Throw e -> (forall g, e <> Fault g) ->
  (TextCommands.OnTextCommand (regex L) (print_double L) (lexical_cast_double L)
     (line_command (lit "queryex") [print_nat h; w]) sid s).1 = Throw (Fault AssertFail).
Proof.
  intros Hx Hh Hc Ha. split; [|intros e He Hg].
  - assert (Hs' : exists e, Containers.Command (TextCommands.join_words (w :: ws)) a = (Throw e, a) /\ forall g, e <> Fault g)
      by (destruct a; eexists; by split).
    destruct Hs' as (e & He & Hg). eapply uncaught_run; [reflexivity| |exact Hg].
    unfold TextCommands.OnCommand_CustomCommand. cbn [TextCommands.CheckParameterCount line_command TextCommands.params_ length Nat.leb negb].
    unfold TextCommands.with_handle. rewrite (bind_ok _ _ _ (Some c) s).
    + cbn [drop]. by rewrite (bind_throw _ _ _ _ _ (server_call_run c l a _ _ _ s Ha He)).
    + apply try_ok. by rewrite (bind_ok _ _ _ _ _ (handle_run s sid h (lit "command") (w :: ws) x c Hx Hh Hc)).
  - eapply uncaught_run; [reflexivity| |exact Hg].
    unfold TextCommands.OnCommand_QueryEx. cbn [TextCommands.CheckParameterCount line_command TextCommands.params_ length Nat.leb negb].
    unfold TextCommands.with_handle. rewrite (bind_ok _ _ _ (Some c) s).
    + change ([print_nat h; w] !! 2%nat) with (None (A := bytes)). cbn iota.
      change (TextCommands.param (line_command (lit "queryex") [print_nat h; w]) 1) with w. by rewrite He.
    + apply try_ok. by rewrite (bind_ok _ _ _ _ _ (handle_run s sid h (lit "queryex") [w] x c Hx Hh Hc)).
Qed.

(** ** Witnesses *)

(** A binary session 1 and a text session 2, both with the users open. *)
Definition ex_text : session := set_handles {[1 := ex_container]} {[lit "__meta__/users" := 1]} 1 (new_session 2).
Definition ex_both : server := set_sessions {[1 := ex_session; 2 := ex_text]} started.

Lemma ex_text_outbox : text_outbox [] ex_text.
Proof. exists [], []. split; [by split|reflexivity]. Qed.

Lemma ex_text_callee : text_callee any_library ex_both 2 1 (lit "set") TIO_COMMAND_SET (String (lit "me")) (Int 5) None_ ex_text
  ex_container ex_storage ex_users ex_result.1 ex_result.2 [].
Proof.
  split.
  - vm_compute. reflexivity.
  - split; [lia|vm_compute; reflexivity].
  - split; vm_compute; reflexivity.
  - vm_compute. reflexivity.
  - reflexivity.
  - repeat split; vm_compute; discriminate.
  - reflexivity.
  - intros H. discriminate H.
  - vm_compute. reflexivity.
  - eexists. split; [reflexivity|]. vm_compute. reflexivity.
  - intros g H. vm_compute in H. discriminate H.
  - exact ex_text_outbox.
  - vm_compute. discriminate.
Qed.


Lemma ex_both_callee : callee ex_both 1 1 TIO_COMMAND_SET ex_key ex_value None ex_session ex_container ex_storage ex_users
  ex_result.1 ex_result.2 [] [].
Proof.
  destruct ex_callee as [ [H1 H2 H3 H4] H5 H6 H8 H9 H10 H11 H12 H13].
  split; [|exact H5|split; vm_compute; reflexivity|exact H8|exact H9|exact H10|exact H11|exact H12|exact H13].
  split; [vm_compute; reflexivity|exact H2|exact H3|exact H4].
Qed.

Lemma text_binary_agree_witness :
  exists s1 s2, text_receive tt ex_execute ex_errno any_library 0 2
      (text_request raw_double (lit "set") 1 (String (lit "me")) (Int 5) None_) (ex_both, new_reader) = (Ok tt, (s1, new_reader)) /\
    on_message any_regex 1 (Pr1.enc_message (TioDataC.data_fields TIO_COMMAND_SET 1 ex_key ex_value None) 0) ex_both = (Ok tt, s2) /\
    eventQueue_ s1 = eventQueue_ s2.
Proof.
  destruct (text_binary_agree tt ex_execute ex_errno 0 any_library ex_both 2 1 (lit "set") TIO_COMMAND_SET (String (lit "me")) (Int 5)
    None_ ex_text ex_container ex_storage ex_users ex_result.1 ex_result.2 [] 1 1 ex_key ex_value None ex_session ex_result.1
    ex_result.2 [] [] 0 ex_text_callee ex_both_callee eq_refl eq_refl eq_refl) as (s1 & s2 & E1 & E2 & _ & Hq).
  exists s1, s2. split; [exact E1|]. split; [exact E2|exact Hq].
Defined.

Lemma rejected_data_executed_witness :
  exists x', text_receive tt ex_execute ex_errno any_library 0 2
      (text_request raw_double (lit "push_back") 7 None_ (String (lit "ping")) None_) (ex_both, new_reader) =
    text_receive tt ex_execute ex_errno any_library 0 2 (lit "ping" ++ [x0d; x0a])
      (set_sessions (<[2 := x']> (sessions_ ex_both)) (collect ex_both), new_reader).
Proof.
  destruct (rejected_data_executed tt ex_execute ex_errno 0 any_library ex_both 2 7 (lit "push_back") TIO_COMMAND_PUSH_BACK None_
    (String (lit "ping")) None_ ex_text []) as (x' & _ & H).
  - vm_compute. reflexivity.
  - lia.
  - vm_compute. reflexivity.
  - reflexivity.
  - reflexivity.
  - exact ex_text_outbox.
  - exists x'. exact H.
Defined.

Lemma uncaught_commands_witness :
  (TextCommands.OnTextCommand any_regex raw_double Ok (line_command (lit "command") [lit "1"; lit "x"]) 2 ex_both).1 = Throw (Fault AssertFail).
Proof.
  destruct (uncaught_commands any_library ex_both 2 1 (lit "x") [] ex_text ex_container ex_storage ex_users) as [H _].
  - vm_compute. reflexivity.
  - lia.
  - vm_compute. reflexivity.
  - split; vm_compute; reflexivity.
  - exact H.
Defined.

End TextServing.
