(* ===== verification/HttpServing.v ===== *)
(** * What an HTTP request gets

    The answers of the server to HTTP requests: the contents of a container as
    JSON, and what happens when there is no such container. *)
From S2P Require Import Prelude Decimal StdMap TioDataS Containers MapStorage MemoryStorage TextProtocol ContainerManager Session Sound Server TextCommands Http TextSession ServerSafety TextSafety ServerInvariant ServerCommands TextReader TextServing.

Module HttpServing.
Import Containers TioData Session Sound Server Http ServerInvariant ServerCommands TextReader.

#[local] Existing Instance MemoryStorage.any_storage.

(** ** The body *)

(** A record without the comma that follows it. *)
Definition json_object (to_string_double : bytes -> bytes) (i : item) : bytes := removelast (json_record to_string_double i).

(** Words with commas between them. *)
Fixpoint commas (l : list bytes) : bytes :=
  match l with [] => [] | [w] => w | w :: l => w ++ lit "," ++ commas l end.

Lemma removelast_app_one {A} (a : list A) x : removelast (a ++ [x]) = a.
Proof. apply removelast_last. Qed.

Lemma json_record_comma td i : json_record td i = json_object td i ++ lit ",".
Proof.
  unfold json_object, json_record. destruct i as [ [k v] m].
  set (b := quoted "`metadata`:`"). change (quoted "`},") with (quoted "`}" ++ lit ",").
  rewrite !app_assoc. change (lit ",") with [x2c] at 2. rewrite removelast_last. done.
Qed.

Lemma commas_records td items i :
  concat (json_record td <$> i :: items) = commas (json_object td <$> i :: items) ++ lit ",".
Proof.
  revert i. induction items as [|j items IH]; intros i.
  - simpl. rewrite app_nil_r. apply json_record_comma.
  - specialize (IH j). rewrite !fmap_cons in *. cbn [concat commas] in *. rewrite IH, json_record_comma. by rewrite <- !app_assoc.
Qed.

Definition json_head (name type : bytes) : bytes :=
  quoted "{`_meta`:{`container_name`:`" ++ name ++ quoted "`,`container_type`:`" ++ type ++ quoted "`},`value`:".

Lemma json_body_records td name type i items :
  json_body td name type (i :: items) = json_head name type ++ lit "[" ++ commas (json_object td <$> i :: items) ++ lit "]}".
Proof.
  unfold json_body. rewrite commas_records. set (cs := commas _). unfold json_head. rewrite !app_assoc.
  change (lit ",") with [x2c] at 3. rewrite removelast_last. rewrite <- !app_assoc. reflexivity.
Qed.

Lemma json_body_empty td name type : json_body td name type [] = json_head name type ++ lit "]}".
Proof.
  unfold json_body, json_head. simpl concat. rewrite app_nil_r. change (quoted "`value`:[") with (quoted "`value`:" ++ [x5b]).
  rewrite !app_assoc, removelast_last. rewrite <- !app_assoc. reflexivity.
Qed.

(** ** Requests *)

(** A session after a response was given to its socket. *)
Definition http_sent (response : bytes) (x : session) : session :=
  set_socket (in_flight_ x ++ [response]) (wire_ x ++ response) x.

Lemma send_http_run n msg ty b sid s x :
  sessions_ s !! sid = Some x ->
  on_session sid (SendHttpResponseAndClose n msg ty b) s =
    (Ok tt, set_sessions (<[sid := http_sent (http_response n msg ty b) x]> (sessions_ s)) s).
Proof. intros Hx. by apply (on_session_run sid _ s x). Qed.

Lemma manager_keeps_sessions {A} (m : M ContainerManager.t A) s : sessions_ (on_manager m s).2 = sessions_ s.
Proof.
  unfold on_manager. destruct (m (containerManager_ s)) as [r c]. cbn [snd]. generalize (drop (length (ContainerManager.events (containerManager_ s)))
    (ContainerManager.events c)). intros l. change (sessions_ s) with (sessions_ (set_manager c s)). generalize (set_manager c s).
  induction l as [|e l IH]; intros y; [done|]. cbn [fold_left]. rewrite IH. unfold OnAnyContainerEvent. by case_match.
Qed.

Section Requests.
Context (to_string_double : bytes -> bytes) (now : Z).

Notation OnHttpCommand := (OnHttpCommand to_string_double now).

(** A request for the container at [path]. *)
Definition get_request (path : bytes) (hs : gmap bytes bytes) : HTTP_MESSAGE := {| method := lit "GET"; url := x2f :: path; headers := hs |}.

Lemma http_get_run s sid x path hs c s1 l a rs :
  sessions_ s !! sid = Some x -> path <> [] -> hs !! lit "Accept" = None ->
  on_manager (ContainerManager.OpenContainer [] path) s = (Ok c, s1) -> contains s1 c l a -> Query 0 0 None_ a = (Ok rs, a) ->
  exists s', OnHttpCommand (get_request path hs) sid s = (Ok tt, s') /\
    sessions_ s' = <[sid := http_sent (http_response 200 (lit "OK") (lit "application/json")
      (json_body to_string_double (MemoryStorage.any_name a) (MemoryStorage.any_type a) (remaining rs))) x]> (sessions_ s).
Proof.
  intros Hx Hp Ha Ho Hc Hq. unfold Http.OnHttpCommand. cbn zeta. cbn [get_request url normalized_path method headers].
  rewrite decide_True, (bool_decide_true (lit "GET" = lit "GET")), bool_decide_false by done.
  pose proof (manager_keeps_sessions (ContainerManager.OpenContainer [] path) s) as Hs1. rewrite Ho in Hs1. cbn [snd] in Hs1.
  pose proof (server_call_run c l a _ _ _ s1 Hc Hq) as Eq.
  assert (Hn : GetName c s1 = MemoryStorage.any_name a /\ GetType c s1 = MemoryStorage.any_type a).
  { destruct Hc as [C1 C2]. unfold GetName, GetType, storage_at. by rewrite C1; cbn; rewrite C2. }
  set (resp := json_body _ _ _ _). set (s2 := changed l a a s1).
  eexists. split; [apply try_ok, end_scope_run|].
  - rewrite (bind_ok _ _ _ (Some c) s1) by (apply try_ok; by rewrite (bind_ok _ _ _ _ _ Ho)).
    rewrite (bind_ok _ _ _ {| status := 200; mimeType := lit "application/json"; body := resp |} s2).
    + cbn [status mimeType body]. apply send_http_run. change (sessions_ s2) with (sessions_ s1). by rewrite Hs1.
    + unfold CreateContainerHttpResponse. cbn zeta. rewrite Ha. rewrite (bind_ok _ _ _ (GetName c s1, GetType c s1) s1) by done.
      rewrite (bind_ok _ _ _ _ _ Eq).
      unfold resp. by destruct Hn as [-> ->].
  - cbn. by rewrite Hs1.
Qed.

Lemma http_missing_run s sid x path hs e s1 :
  sessions_ s !! sid = Some x -> path <> [] -> on_manager (ContainerManager.OpenContainer [] path) s = (Throw e, s1) ->
  (forall f, e <> Fault f) -> (forall w, e <> runtime_error w) ->
  exists s', OnHttpCommand (get_request path hs) sid s = (Ok tt, s') /\
    sessions_ s' = <[sid := http_sent (http_response 500 (lit "Internal Server Error") (lit "text/plain") (lit "Internal Server Error : " ++ what e))
      (http_sent (http_response 400 (lit "Bad Request") (lit "text/plain") (lit "Bad Request")) x)]> (sessions_ s).
Proof.
  intros Hx Hp Ho Hf Hr. unfold Http.OnHttpCommand. cbn zeta. cbn [get_request url normalized_path method headers].
  rewrite decide_True, (bool_decide_true (lit "GET" = lit "GET")), bool_decide_false by done.
  pose proof (manager_keeps_sessions (ContainerManager.OpenContainer [] path) s) as Hs1. rewrite Ho in Hs1. cbn [snd] in Hs1.
  assert (Ht : forall k, (container ← try_catch (c ← on_manager (ContainerManager.OpenContainer [] path); mret (Some c))
    (fun ex => match ex with runtime_error _ => _ ← on_session sid (SendHttpResponse 404 (lit "container not found")); mret None
               | ex => throw ex end); k container : M server unit) s = (Throw e, s1)).
  { intros k. apply bind_throw. rewrite (try_throw _ _ _ e s1); [|by rewrite (bind_throw _ _ _ _ _ Ho)|done].
    destruct e; try done. exfalso. by eapply Hr. }
  eexists. split.
  - rewrite (try_throw _ _ _ e (collect s1)); [|apply end_scope_run, Ht|done].
    assert (Hx1 : sessions_ (collect s1) !! sid = Some x) by (change (sessions_ (collect s1)) with (sessions_ s1); by rewrite Hs1).
    unfold SendHttpResponse. rewrite (bind_ok _ _ _ _ _ (send_http_run _ _ _ _ sid _ x Hx1)).
    apply send_http_run. apply lookup_insert_eq.
  - cbn. rewrite Hs1, insert_insert_eq. reflexivity.
Qed.

End Requests.

(** ** Requests in pieces *)

Lemma callbacks_unfinished {P} cbs : forall h : HttpParser P, (forall m, on_message_complete m ∉ cbs) ->
  finished_ (fold_left run_callback cbs h) = finished_ h.
Proof.
  induction cbs as [|c cbs IH]; intros h Hm; [done|]. cbn [fold_left]. rewrite IH.
  - destruct c; try done. exfalso. apply (Hm m). apply list_elem_of_here.
  - intros m H. apply (Hm m). by apply list_elem_of_further.
Qed.

Lemma feed_run {P} (execute : P -> bytes -> P * list http_callback) b (h : HttpParser P) p cbs :
  finished_ h = false -> execute (parser_ h) b = (p, cbs) -> (forall m, on_message_complete m ∉ cbs) ->
  exists h', FeedBytes execute b h = Ok (false, h') /\ finished_ h' = false /\ parser_ h' = p.
Proof.
  intros Hf He Hm. unfold FeedBytes. rewrite He, Hf. cbn [negb assert_].
  set (h0 := {| parser_ := p; finished_ := false; nextHeaderName_ := nextHeaderName_ h; currentMessage_ := currentMessage_ h |}).
  pose proof (callbacks_unfinished cbs h0 Hm) as Hu. change (finished_ h0) with false in Hu.
  exists (fold_left run_callback cbs h0). split; [by rewrite <- Hu at 1|]. split; [done|].
  assert (Hp : forall cbs (h : HttpParser P), parser_ (fold_left run_callback cbs h) = parser_ h); [|by rewrite Hp].
  clear. induction cbs as [|c cbs IH]; intros h; [done|]. cbn [fold_left]. rewrite IH. by destruct c.
Qed.

Section Pieces.
Context {P : Type} (init : P) (execute : P -> bytes -> P * list http_callback) (errno : P -> bool) (L : library) (now sid : Z).

Notation text_receive := (text_receive init execute errno L now sid).

Fixpoint receive_pieces (bs : list bytes) : M (server * @TextSession.reader P) unit :=
  match bs with [] => mret tt | b :: bs => _ ← text_receive b; receive_pieces bs end.

(** A reader that waits for the rest of a request never stops waiting. *)
Lemma waiting_http bs : forall s (r : @TextSession.reader P) h, TextSession.pending r = TextSession.ReadHttp h ->
  receive_pieces bs (s, r) = (Ok tt, (s, TextSession.arrive (concat bs) r)).
Proof.
  induction bs as [|b bs IH]; intros s r h Hr; cbn [receive_pieces concat].
  - unfold TextSession.arrive, TextSession.set_buf. rewrite app_nil_r. by destruct r.
  - assert (Hw : forall n, TextSession.pump init execute errno (regex L) (print_double L) (ServerInvariant.to_string_double L)
      (lexical_cast_double L) now n sid (s, TextSession.arrive b r) = (Ok tt, (s, TextSession.arrive b r))).
    { intros [|n]; [done|]. cbn [TextSession.pump]. rewrite bind_get. cbn [snd]. unfold TextSession.ready.
      change (TextSession.pending (TextSession.arrive b r)) with (TextSession.pending r). by rewrite Hr. }
    rewrite (bind_ok _ _ _ tt (s, TextSession.arrive b r)).
    + rewrite (IH s (TextSession.arrive b r) h Hr). unfold TextSession.arrive, TextSession.set_buf. simpl. by rewrite app_assoc.
    + rewrite text_receive_run. unfold TextSession.read_all. rewrite bind_get. apply Hw.
Qed.

Lemma request_line_run s line cmd params p1 cbs1 p2 cbs2 :
  line <> [] -> x0a ∉ line -> x00 ∉ line -> split x20 line = cmd :: params -> last params = Some (lit "HTTP/1.1") -> cmd <> lit "protocol" ->
  execute init line = (p1, cbs1) -> execute p1 [x0d; x0a] = (p2, cbs2) -> (forall m, on_message_complete m ∉ cbs1 ++ cbs2) ->
  exists r h, text_receive (line ++ [x0d; x0a]) (s, TextSession.new_reader) = (Ok tt, (s, r)) /\ TextSession.pending r = TextSession.ReadHttp h.
Proof.
  intros Hne Hlf Hnul Hsp Hlast Hcmd E1 E2 Hm.
  destruct (feed_run execute line (Reset init) p1 cbs1 eq_refl E1) as (h1 & F1 & G1 & K1); [intros m ?; apply (Hm m); by apply elem_of_app; left|].
  rewrite <- K1 in E2.
  destruct (feed_run execute [x0d; x0a] h1 p2 cbs2 G1 E2) as (h2 & F2 & G2 & K2); [intros m ?; apply (Hm m); by apply elem_of_app; right|].
  rewrite text_receive_run. rewrite read_all_step by done. set (rd := TextSession.arrive _ _).
  assert (Hg : TextSession.getline (TextSession.buf_ rd) = Some (line ++ [x0d], [])).
  { assert (TextSession.buf_ rd = (line ++ [x0d]) ++ x0a :: []) as -> by (rewrite <- app_assoc; done). apply TextServing.getline_line.
    rewrite elem_of_app. intros [?|H]; [done|]. apply list_elem_of_singleton in H. discriminate. }
  assert (Hr : TextSession.ready rd = true).
  { unfold TextSession.ready. change (TextSession.pending rd) with (@TextSession.ReadLine P). by rewrite Hg. }
  rewrite Hr. set (cm := {| TextCommands.params_ := params; TextCommands.command_ := cmd; TextCommands.source_ := line;
    TextCommands.data_ := None; TextCommands.isHttp_ := true |}).
  set (r' := TextSession.set_reading (TextSession.ReadHttp h2) (TextSession.set_command cm (TextSession.set_buf [] rd))).
  exists r', h2. split; [|done]. erewrite (bind_ok _ _ _ tt (s, r')); [by rewrite read_all_step|].
  unfold TextSession.resume. rewrite bind_get. cbn [snd]. change (TextSession.pending rd) with (@TextSession.ReadLine P).
  unfold TextSession.OnReadCommand. rewrite bind_get. cbn [snd]. rewrite Hg. unfold TextSession.on_line.
  rewrite bool_decide_false by (by intros [? ?]%app_eq_nil). rewrite TextProtocol.strip_cr_end.
  change (TextSession.currentCommand_ rd) with TextCommands.no_command.
  change (mbind ?k (TextSession.on_reader (TextSession.set_buf ?d)) (s, rd)) with (k tt (s, TextSession.set_buf d rd)). cbn beta.
  rewrite (bind_lift_ok _ _ _ tt eq_refl).
  rewrite (bind_lift_ok _ _ _ cm).
  2: { rewrite TextServing.c_str_id by done. unfold TextCommands.Parse. rewrite Hsp, Hlast. by rewrite bool_decide_true. }
  change (mbind ?k (TextSession.on_reader (TextSession.set_command ?d)) (s, ?y)) with (k tt (s, TextSession.set_command d y)). cbn beta.
  cbn [cm TextCommands.command_ TextCommands.isHttp_]. rewrite (bool_decide_false (cmd = lit "protocol")) by done. cbn [andb negb].
  rewrite (bind_lift_ok _ _ _ _ F1), (bind_lift_ok _ _ _ _ F2). unfold TextSession.ReadHttpCommand. rewrite bind_get. done.
Qed.

End Pieces.

(** ** Properties *)

(** A request that comes in pieces is never answered.  When the first line of
    an HTTP request is all that has arrived, the read for the rest has no
    condition to complete on: whatever arrives after it is only collected, the
    server does nothing more for the connection. *)
Theorem http_request_cut {P} (init : P) execute errno L now sid s line cmd params p1 cbs1 p2 cbs2 :
  line <> [] -> x0a ∉ line -> x00 ∉ line -> split x20 line = cmd :: params -> last params = Some (lit "HTTP/1.1") -> cmd <> lit "protocol" ->
  execute init line = (p1, cbs1) -> execute p1 [x0d; x0a] = (p2, cbs2) -> (forall m, on_message_complete m ∉ cbs1 ++ cbs2) ->
  exists r, text_receive init execute errno L now sid (line ++ [x0d; x0a]) (s, TextSession.new_reader) = (Ok tt, (s, r)) /\
    forall bs, receive_pieces init execute errno L now sid bs (s, r) = (Ok tt, (s, TextSession.arrive (concat bs) r)).
Proof.
  intros H1 H2 H3 H4 H5 H6 H7 H8 H9.
  destruct (request_line_run init execute errno L now sid s line cmd params p1 cbs1 p2 cbs2 H1 H2 H3 H4 H5 H6 H7 H8 H9) as (r & h & E & Hr).
  exists r. split; [exact E|]. intros bs. by apply (waiting_http _ _ _ _ _ _ bs s r h).
Qed.


(** A missing container is not 404.  A GET of a container that cannot be opened
    gets two responses on the same connection, 400 and then 500: opening throws
    [invalid_argument], and only a [runtime_error] is answered with 404. *)
Theorem http_missing_container to_string_double now s sid x path hs e s1 :
  sessions_ s !! sid = Some x -> path <> [] -> on_manager (ContainerManager.OpenContainer [] path) s = (Throw e, s1) ->
  (forall f, e <> Fault f) -> (forall w, e <> runtime_error w) ->
  exists s', OnHttpCommand to_string_double now (get_request path hs) sid s = (Ok tt, s') /\
    sessions_ s' = <[sid := http_sent (http_response 500 (lit "Internal Server Error") (lit "text/plain") (lit "Internal Server Error : " ++ what e))
      (http_sent (http_response 400 (lit "Bad Request") (lit "text/plain") (lit "Bad Request")) x)]> (sessions_ s).
Proof. apply http_missing_run. Qed.

(** A client opens the list of containers and gives the container [a] a type that
    is not a string. *)
Definition ex_crlf : bytes := [x0d; x0a].
Definition ex_bad_type : bytes :=
  lit "open __meta__/containers" ++ ex_crlf ++ lit "set 1 key string 1 value int 1" ++ ex_crlf ++ lit "a" ++ ex_crlf ++ lit "1" ++ ex_crlf.


(** ** Witnesses *)

Definition ex_opened : res loc * server := on_manager (ContainerManager.OpenContainer [] (lit "__meta__/sessions")) ex_server.
Definition ex_c : loc := match ex_opened.1 with Ok c => c | Throw _ => 0%nat end.
Definition ex_l : loc := default 0%nat (ContainerManager.storage_of ex_c (containerManager_ ex_opened.2)).
Definition ex_a : MemoryStorage.AnyStorage :=
  default (MemoryStorage.AnyMap (MapStorage.make [] [])) (ContainerManager.at_loc ex_l (ContainerManager.memory (containerManager_ ex_opened.2))).
Definition ex_rs : VectorResultSet := match (Query 0 0 None_ ex_a).1 with Ok rs => rs | Throw _ => new_result_set [] None_ end.
Definition ex_x : session := default (new_session 0) (sessions_ ex_server !! 1).


Lemma http_request_cut_witness :
  exists r, receive_pieces tt ex_execute ex_errno any_library 0 1 [lit "Host: me"; [x0d; x0a]; [x0d; x0a] ] (ex_server, r) =
    (Ok tt, (ex_server, TextSession.arrive (concat [lit "Host: me"; [x0d; x0a]; [x0d; x0a] ]) r)).
Proof.
  destruct (http_request_cut tt ex_execute ex_errno any_library 0 1 ex_server (lit "GET /a HTTP/1.1") (lit "GET") [lit "/a"; lit "HTTP/1.1"]
    tt [] tt []) as (r & _ & H).
  - discriminate.
  - vm_compute. intros H. repeat (apply elem_of_cons in H as [H|H]; [discriminate H|]). exact (not_elem_of_nil _ H).
  - vm_compute. intros H. repeat (apply elem_of_cons in H as [H|H]; [discriminate H|]). exact (not_elem_of_nil _ H).
  - reflexivity.
  - reflexivity.
  - discriminate.
  - reflexivity.
  - reflexivity.
  - intros m H. exact (not_elem_of_nil _ H).
  - exists r. apply H.
Defined.

Lemma http_missing_container_witness :
  exists s', OnHttpCommand raw_double 0 (get_request (lit "orders") ∅) 1 ex_server = (Ok tt, s').
Proof.
  pose (o := on_manager (ContainerManager.OpenContainer [] (lit "orders")) ex_server).
  destruct (http_missing_container raw_double 0 ex_server 1 ex_x (lit "orders") ∅
    (match o.1 with Throw e => e | Ok _ => bad_lexical_cast end) o.2) as (s' & E & _).
  - vm_compute. reflexivity.
  - discriminate.
  - vm_compute. reflexivity.
  - intros f H. vm_compute in H. discriminate H.
  - intros w H. vm_compute in H. discriminate H.
  - exists s'. exact E.
Defined.

End HttpServing.
