(* ===== verification/History.v ===== *)
(** * What the event queue knows

    Whatever a command does, the events it queues for a storage that has
    subscribers are exactly the changes it made: the contents of a map after
    the command are its contents before with those events applied, in order.
    The proof goes over calls on storages, calls of the container manager and
    the server's handlers. *)
From S2P Require Import Prelude StdMap Pr1Message Protocol TioDataS Containers ListStorage MapStorage VectorStorage MemoryStorage ContainerManager SessionMessages Session Sound Server TextCommands Http TextSafety ServerInvariant.

Module History.
Import StdMap Pr1 Protocol TioData Containers SessionMessages Session Sound Server ServerInvariant.

#[local] Existing Instances MemoryStorage.any_storage MapStorage.map_storage.

Notation contents_map := (gmap bytes ValueAndMetadata).

(** A copy that applies events. *)
Definition replay (es : list event) (m : contents_map) : contents_map := fold_left MapStorage.map_step es m.

Lemma replay_app es es' m : replay (es ++ es') m = replay es' (replay es m).
Proof. apply fold_left_app. Qed.

(** ** Calls on a storage *)

Lemma with_lock_pure {D A} (m : M (storage D) A) s : (forall x, (m x).2 = x) -> (with_lock m s).2 = s.
Proof.
  intros Hm. unfold with_lock. destruct (locked s) eqn:El; [done|]. specialize (Hm (set_locked true s)).
  destruct (m (set_locked true s)) as [r x]. simpl in *. subst x. destruct s; simpl in *. by rewrite El.
Qed.

(** What a command leaves of a map: either the map as it was, or a change with
    its event. *)
Lemma map_logged o (ms : MapStorage.t) :
  MapStorage.wf ms ->
  (run_op o ms).2 = ms \/
  exists d e, (run_op o ms).2 = MapStorage.after d e ms /\ MapStorage.map_step (to_map (data_ ms)) e = to_map d.
Proof.
  intros Hwf.
  assert (Ho : forall o, MapStorage.outcome o ms (run_op o ms).1 (run_op o ms).2 -> ~ MapStorage.faulty o ms ->
    (run_op o ms).2 = ms \/
    exists d e, (run_op o ms).2 = MapStorage.after d e ms /\ MapStorage.map_step (to_map (data_ ms)) e = to_map d).
  { clear o. intros o H Hf. remember (run_op o ms).1 as r eqn:Hr. clear Hr. remember (run_op o ms).2 as s' eqn:Hs. clear Hs.
    destruct H; eauto. by destruct Hf. }
  destruct o; try (by left).
  - apply Ho; [by apply MapStorage.map_set_outcome|by intros []].
  - apply Ho; [by apply MapStorage.map_insert_outcome|by intros []].
  - apply Ho; [by apply MapStorage.map_delete_outcome|by intros []].
  - apply Ho; [|by intros []]. eapply MapStorage.change_outcome; [done|reflexivity|done|constructor|done].
  - left. cbn [run_op MapStorage.map_storage GetRecord]. unfold MapStorage.GetRecord.
    assert (H : (with_lock (s ← get; lift (MapStorage.GetInternalRecord (data_ s) k)) ms).2 = ms)
      by by apply with_lock_pure.
    unfold mbind, M_bind in *. by destruct (with_lock _ ms) as [ []].
  - left. cbn [run_op MapStorage.map_storage Query]. unfold MapStorage.Query. cbn [IsNull GetDataType negb Z.eqb].
    match goal with |- (mbind _ (with_lock ?m) ms).2 = ms => assert (H : (with_lock m ms).2 = ms) end.
    { apply with_lock_pure. intros x. rewrite bind_get. by destruct (MapStorage.query_range _ _ _) as [ []|]. }
    unfold mbind, M_bind in *. by destruct (with_lock _ ms) as [ []].
Qed.

(** A call that publishes what it changes. *)
Definition recorded {A} (f : M MemoryStorage.AnyStorage A) : Prop := forall a,
  ContainerManager.storage_ok a -> MemoryStorage.any_sink a = true ->
  ContainerManager.storage_ok (f a).2 /\ MemoryStorage.any_header (f a).2 = MemoryStorage.any_header a /\
  forall ms ms', a = MemoryStorage.AnyMap ms -> (f a).2 = MemoryStorage.AnyMap ms' ->
    exists evs, published ms' = published ms ++ evs /\ to_map (data_ ms') = replay evs (to_map (data_ ms)).

Lemma recorded_op o : recorded (run_op o).
Proof.
  intros a Ha Hsink. destruct (ContainerManager.run_op_keeps o a Ha) as [H1 H2]. split; [done|]. split; [done|].
  intros ms ms' -> E.
  assert (E' : run_op o (MemoryStorage.AnyMap ms) = MemoryStorage.dispatch (fun S H => run_op o) (MemoryStorage.AnyMap ms))
    by (destruct o; try done; apply MemoryStorage.dispatch_then).
  rewrite E' in E. simpl in E. destruct Ha as [Hl Hs].
  pose proof (map_logged o ms (conj Hs Hl)) as H. destruct (run_op o ms) as [r x]. simpl in *. injection E as <-.
  destruct H as [->|(d & e & -> & He)]; [exists []; by rewrite app_nil_r|].
  exists [e]. rewrite MapStorage.map_data_after. split; [|done]. unfold MapStorage.after. cbn. by rewrite Hsink.
Qed.

(** A call whose answer [run_op] throws away. *)
Lemma recorded_then {A} (f : M MemoryStorage.AnyStorage A) : recorded (_ ← f; mret tt) -> recorded f.
Proof.
  intros H a Ha Hs. specialize (H a Ha Hs). unfold mbind, M_bind in H. by destruct (f a) as [ [x|e] a'].
Qed.

Lemma recorded_pure {A} (f : M MemoryStorage.AnyStorage A) :
  (forall a, ContainerManager.storage_ok a -> (f a).2 = a) -> recorded f.
Proof.
  intros H a Ha Hs. rewrite (H a Ha). split; [done|]. split; [done|]. intros ms ms' -> [= <-]. exists [].
  by rewrite app_nil_r.
Qed.

Lemma recorded_count : recorded GetRecordCount.
Proof.
  apply recorded_pure. intros a [Hl _]. destruct a as [s|s|s]; simpl in *;
    unfold VectorStorage.GetRecordCount, MapStorage.GetRecordCount, ListStorage.GetRecordCount;
    try (erewrite with_lock_ok; [|done|reflexivity]; simpl; rewrite unlock by done); done.
Qed.

(** ** Calls of the container manager *)

Definition is_map (l : loc) (m : MemoryStorage.MemoryStorageManager) : Prop :=
  exists ms, ContainerManager.at_loc l m = Some (MemoryStorage.AnyMap ms).

(** A map, or nothing yet. *)
Definition maybe_map (l : loc) (m : MemoryStorage.MemoryStorageManager) : Prop :=
  ContainerManager.at_loc l m = None \/ is_map l m.

Definition contents (l : loc) (m : MemoryStorage.MemoryStorageManager) : contents_map :=
  match ContainerManager.at_loc l m with Some (MemoryStorage.AnyMap ms) => to_map (data_ ms) | _ => ∅ end.

(** The storages are in order and all publish. *)
Record good (m : MemoryStorage.MemoryStorageManager) : Prop := {
  gd_wf : MemoryStorage.wf m;
  gd_heap : ContainerManager.heap_ok m;
  gd_manager : MemoryStorage.manager_sink_ m = true;
  gd_sinks : forall l a, ContainerManager.at_loc l m = Some a -> MemoryStorage.any_sink a = true;
  gd_types : forall l ms, ContainerManager.at_loc l m = Some (MemoryStorage.AnyMap ms) -> type_ ms = lit "volatile_map"
}.

Definition events_of (l : loc) (es : list (loc * event)) : list event := (filter (fun p => p.1 = l) es).*2.

Lemma events_of_app l es es' : events_of l (es ++ es') = events_of l es ++ events_of l es'.
Proof. unfold events_of. by rewrite filter_app, fmap_app. Qed.

Lemma events_of_pair l l' es : events_of l (pair l' <$> es) = if decide (l' = l) then es else [].
Proof.
  induction es as [|e es IH]; [by case_decide|]. rewrite fmap_cons. unfold events_of in *. rewrite filter_cons.
  cbn [fst]. destruct (decide (l' = l)); [by rewrite fmap_cons, IH|done].
Qed.

(** The storages afterwards, with the events published on the way. *)
Record follows (m m' : MemoryStorage.MemoryStorageManager) (es : list (loc * event)) : Prop := {
  fw_good : good m';
  fw_contents : forall l, maybe_map l m' -> maybe_map l m /\ contents l m' = replay (events_of l es) (contents l m);
  fw_maps : forall l, is_map l m -> is_map l m'
}.

Lemma follows_refl m : good m -> follows m m [].
Proof. intros H. by split. Qed.

Lemma follows_trans m1 m2 m3 es es' : follows m1 m2 es -> follows m2 m3 es' -> follows m1 m3 (es ++ es').
Proof.
  intros [A1 A2 A3] [B1 B2 B3]. split; [done| |by auto]. intros l Hl. destruct (B2 l Hl) as [H1 H2].
  destruct (A2 l H1) as [H3 H4]. split; [done|]. by rewrite H2, H4, events_of_app, replay_app.
Qed.

(** Only the storages matter. *)
Lemma follows_same m m' :
  good m -> MemoryStorage.wf m' -> ContainerManager.heap_ok m' -> MemoryStorage.manager_sink_ m' = true ->
  (forall l, ContainerManager.at_loc l m' = ContainerManager.at_loc l m) -> follows m m' [].
Proof.
  intros [G1 G2 G3 G4 G5] H1 H2 H3 H4. split.
  - split; try done; intros l a; rewrite H4; [apply G4|apply G5].
  - intros l. unfold maybe_map, is_map, contents. rewrite H4. done.
  - intros l. unfold is_map. by rewrite H4.
Qed.

Definition tracks {A} (m : M ContainerManager.t A) : Prop := forall c,
  good (ContainerManager.memory c) -> exists es,
  ContainerManager.events (m c).2 = ContainerManager.events c ++ es /\
  follows (ContainerManager.memory c) (ContainerManager.memory (m c).2) es.

Lemma tracks_same {A} (m : M ContainerManager.t A) :
  (forall c, ContainerManager.events (m c).2 = ContainerManager.events c /\
    ContainerManager.memory (m c).2 = ContainerManager.memory c) -> tracks m.
Proof.
  intros H c Hc. destruct (H c) as [-> ->]. exists []. rewrite app_nil_r. split; [done|]. by apply follows_refl.
Qed.

Lemma tracks_bind {A B} (m : M ContainerManager.t A) (f : A -> M ContainerManager.t B) :
  tracks m -> (forall a, tracks (f a)) -> tracks (m ≫= f).
Proof.
  intros Hm Hf c Hc. destruct (Hm c Hc) as (es & He & Hfw). unfold mbind, M_bind.
  destruct (m c) as [ [a|e] c1]; simpl in *; [|by exists es].
  destruct (Hf a c1) as (es' & He' & Hfw'); [apply Hfw|]. exists (es ++ es'). rewrite He', He, app_assoc.
  split; [done|]. by eapply follows_trans.
Qed.

Lemma tracks_get {A} (f : ContainerManager.t -> M ContainerManager.t A) :
  (forall c, tracks (f c)) -> tracks (get ≫= f).
Proof. intros H c Hc. rewrite bind_get. by apply H. Qed.

Lemma tracks_memory {A} (f : M MemoryStorage.MemoryStorageManager A) :
  (forall m, good m -> follows m (f m).2 []) -> tracks (ContainerManager.on_memory f).
Proof.
  intros H c Hc. specialize (H _ Hc). unfold ContainerManager.on_memory. destruct (f (ContainerManager.memory c)) as [r m].
  exists []. by rewrite app_nil_r.
Qed.

(** A storage is replaced by one that says what changed. *)
Lemma follows_set_storage l a a' m :
  good m -> ContainerManager.at_loc l m = Some a ->
  ContainerManager.storage_ok a' -> MemoryStorage.any_header a' = MemoryStorage.any_header a ->
  (forall ms ms', a = MemoryStorage.AnyMap ms -> a' = MemoryStorage.AnyMap ms' ->
    exists evs, published ms' = published ms ++ evs /\ to_map (data_ ms') = replay evs (to_map (data_ ms))) ->
  follows m (ContainerManager.set_storage l a' m)
    (pair l <$> drop (length (ContainerManager.any_published a)) (ContainerManager.any_published a')).
Proof.
  intros [G1 G2 G3 G4 G5] Ha Hok Hh Hm. destruct (MemoryStorage.header_fields a' a Hh) as (_ & Hs & _ & Ht & _).
  split; [split| |].
  - by eapply ContainerManager.wf_set_storage.
  - by eapply ContainerManager.heap_set_storage.
  - done.
  - intros x b. rewrite ContainerManager.at_set_storage. case_decide; [intros [= <-]; rewrite Hs; by eapply G4|apply G4].
  - intros x ms. rewrite ContainerManager.at_set_storage. case_decide; [|apply G5]. intros [= ->]. simpl in *.
    destruct a as [y|y|y]; simpl in *; try done. rewrite Ht. by eapply G5.
  - intros x. rewrite events_of_pair. unfold maybe_map, is_map, contents. rewrite ContainerManager.at_set_storage.
    case_decide as Ex; [subst x|done]. rewrite Ha. intros [?|[ms' [= ->] ] ]; [done|].
    destruct a as [ms|ms|ms]; simpl in Hh; [done| |done]. destruct (Hm ms ms' eq_refl eq_refl) as (evs & Hp & Hd).
    split; [by right; eexists|]. simpl. by rewrite Hp, drop_app_length.
  - intros x [ms Hx]. unfold is_map. rewrite ContainerManager.at_set_storage. case_decide as Ex; [subst x|by eexists].
    assert (a = MemoryStorage.AnyMap ms) as -> by congruence. destruct a'; simpl in Hh; [done|by eexists|done].
Qed.

Lemma tracks_call {A} p (f : M MemoryStorage.AnyStorage A) : recorded f -> tracks (ContainerManager.call p f).
Proof.
  intros Hf c Hc. unfold ContainerManager.call.
  assert (Hsame : exists es, ContainerManager.events c = ContainerManager.events c ++ es /\
    follows (ContainerManager.memory c) (ContainerManager.memory c) es)
    by (exists []; rewrite app_nil_r; split; [done|by apply follows_refl]).
  destruct p as [p|]; [|done]. destruct (ContainerManager.live c !! p) as [o|]; [|done].
  unfold MemoryStorage.call. destruct (ContainerManager.storage_ o) as [l|]; [|exists []; split; [done|by apply follows_refl] ].
  destruct (MemoryStorage.storages (MemoryStorage.objects (ContainerManager.memory c)) !! l) as [a|] eqn:Ea.
  - destruct (gd_heap _ Hc l a Ea) as (_ & Hok & _). pose proof (gd_sinks _ Hc l a Ea) as Hs.
    destruct (Hf a Hok Hs) as (F1 & F2 & F3). destruct (f a) as [r a']. cbn [fst snd] in *.
    eexists. split; [reflexivity|]. unfold ContainerManager.published_since, ContainerManager.at_loc. simpl.
    rewrite Ea, lookup_insert_eq. by apply (follows_set_storage l a a').
  - exists []. unfold ContainerManager.published_since, ContainerManager.at_loc. simpl. rewrite Ea. split; [done|].
    by apply follows_refl.
Qed.

Lemma follows_created ty n a sp m :
  good m -> MemoryStorage.fresh ty (MemoryStorage.actual_name n) = Some (a, sp) ->
  follows m (MemoryStorage.created ty n a sp m) [].
Proof.
  intros [G1 G2 G3 G4 G5] Hf. destruct (MemoryStorage.fresh_ok _ _ _ _ Hf) as (_ & _ & _ & _ & He & _).
  assert (Hn : ContainerManager.at_loc (MemoryStorage.next (MemoryStorage.objects m)) m = None).
  { destruct (ContainerManager.at_loc _ m) as [b|] eqn:Eb; [|done]. destruct (G2 _ b Eb). lia. }
  split; [split| |].
  - by apply MemoryStorage.wf_created.
  - by apply ContainerManager.heap_created.
  - done.
  - intros l b. rewrite ContainerManager.at_created. case_decide; [|apply G4]. intros [= <-].
    destruct (MemoryStorage.any_set_sink_fields (MemoryStorage.manager_sink_ m) a) as (_ & -> & _). done.
  - intros l ms. rewrite ContainerManager.at_created. case_decide; [|apply G5]. intros [= Hms].
    unfold MemoryStorage.fresh in Hf. repeat case_decide; simplify_eq/=. done.
  - intros l. unfold maybe_map, is_map, contents. rewrite ContainerManager.at_created.
    case_decide as El; [subst l|done]. rewrite Hn. intros [?|[ms [= Hms] ] ]; [done|]. split; [by left|].
    destruct a as [x|x|x]; simpl in *; simplify_eq. simpl. by rewrite He.
  - intros l [ms Hl]. unfold is_map. rewrite ContainerManager.at_created, decide_False; [by eexists|]. intros <-. congruence.
Qed.

Lemma follows_create ty n m : good m -> follows m (MemoryStorage.CreateStorage ty n m).2 [].
Proof.
  intros Hg. destruct (MemoryStorage.fresh ty (MemoryStorage.actual_name n)) as [ [a sp]|] eqn:Ef.
  - destruct (find (MemoryStorage.full_name ty n) (MemoryStorage.containers_ m)) as [info|] eqn:Ei.
    + rewrite (MemoryStorage.create_existing _ _ _ _ _ _ (gd_wf m Hg) Ef Ei). by apply follows_refl.
    + rewrite (MemoryStorage.create_new _ _ _ _ _ Ef Ei). by apply follows_created.
  - unfold MemoryStorage.CreateStorage. destruct (MemoryStorage.find_supported ty) as [ [H _]|(c & _ & Hc)].
    + rewrite H. by apply follows_refl.
    + destruct (Hc (MemoryStorage.actual_name n)) as (a & sp & H & _). congruence.
Qed.

Lemma tracks_type ty : tracks (ContainerManager.GetStorageManagerByType ty).
Proof. apply tracks_same. intros c. unfold ContainerManager.GetStorageManagerByType. rewrite bind_get. cbn zeta. by case_match. Qed.

Lemma recorded_get sk k v m : recorded (GetRecord sk k v m).
Proof.
  apply recorded_pure. intros a _. destruct a as [s|s|s]; simpl.
  - unfold VectorStorage.GetRecord. match goal with |- context [with_lock ?f s] => assert (H : (with_lock f s).2 = s) end.
    { apply with_lock_pure. intros x. rewrite bind_get. by destruct (VectorStorage.GetInternalRecord _ _) as [ []|]. }
    destruct (with_lock _ s) as [ [] ]; simpl in *; by subst.
  - unfold MapStorage.GetRecord. match goal with |- context [with_lock ?f] => assert (H : (with_lock f s).2 = s) end.
    { by apply with_lock_pure. }
    unfold mbind, M_bind in *. destruct (with_lock _ s) as [ [] ]; simpl in *; by subst.
  - unfold ListStorage.GetRecord. rewrite bind_get. destruct (ListStorage.GetOffset _ _) as [ []|]; [|done].
    rewrite (bind_lift_ok _ _ _ _ eq_refl). match goal with |- context [lift ?r] => by destruct r end.
Qed.

Lemma tracks_lift {A} (r : res A) : tracks (lift r).
Proof. by apply tracks_same. Qed.

Lemma tracks_create_or_open ty op n : tracks (ContainerManager.CreateOrOpen ty op n).
Proof.
  unfold ContainerManager.CreateOrOpen. apply tracks_get. intros c. cbn zeta.
  destruct (ContainerManager.open_container n c); [by apply tracks_same|].
  apply tracks_bind.
  - destruct op.
    + apply tracks_bind; [apply tracks_type|intros _]. apply tracks_bind; [apply tracks_memory; intros m; apply follows_create|].
      intros p. apply tracks_get. intros c'. apply tracks_bind; [|intros _; by apply tracks_same].
      case_match; [|by apply tracks_same]. apply tracks_call, (recorded_op (OpSet _ _ _)).
    + apply tracks_bind; [|intros ty'; apply tracks_bind; [apply tracks_type|intros _] ].
      * case_bool_decide; [|by apply tracks_same]. apply tracks_get. intros c'.
        apply tracks_bind; [apply tracks_call, recorded_get|intros [ [? ?] ?]; apply tracks_lift].
      * apply tracks_memory. intros m Hg. rewrite MemoryStorage.open_keeps by apply Hg. by apply follows_refl.
  - intros p. apply tracks_bind; [by apply tracks_same|]. intros x. apply tracks_get. intros c'.
    apply tracks_bind; [by apply tracks_same|]. intros _. by apply tracks_same.
Qed.

Lemma tracks_get_property p k : tracks (ContainerManager.GetProperty p k).
Proof.
  intros c Hc. assert (Hsame : exists es, ContainerManager.events c = ContainerManager.events c ++ es /\
    follows (ContainerManager.memory c) (ContainerManager.memory c) es)
    by (exists []; rewrite app_nil_r; split; [done|by apply follows_refl]).
  unfold ContainerManager.GetProperty, ContainerManager.with_properties. destruct p as [p|]; [|done].
  destruct (ContainerManager.live c !! p) as [o|]; [|done]. destruct (ContainerManager.propertyMap_ o) as [l|]; [|done].
  revert c Hc Hsame. intros c Hc _. apply tracks_memory; [|done]. clear c Hc. intros m Hg. unfold MemoryStorage.GetProperty.
  rewrite bind_get. destruct (MemoryStorage.propertyMaps (MemoryStorage.objects m) !! l) as [pm|]; [|by apply follows_refl].
  cbn zeta. assert (Hown : forall (r : res bytes), follows m (lift r m).2 []) by (intros r; by apply follows_refl).
  assert (Hf : follows m (match find k (MemoryStorage.properties pm) with Some v => mret v
    | None => throw (invalid_argument "key not found") end m).2 []) by (case_match; by apply follows_refl).
  destruct (MemoryStorage.specialPropertiesMap_ pm) as [x|]; [|done]. destruct (MemoryStorage.is_special k); [|done].
  destruct (MemoryStorage.storages (MemoryStorage.objects m) !! x) as [ [a|a|a]|] eqn:Ea; try by apply follows_refl.
  destruct (gd_heap m Hg x _ Ea) as (_ & [Hl _] & _).
  pose proof (special_keeps k a Hl) as Hs. destruct (MapStorage.GetSpecial k a) as [r a']. simpl in Hs. subst a'.
  unfold mbind, M_bind, MemoryStorage.call, lift. rewrite Ea. simpl. rewrite MemoryStorage.set_objects_id by done.
  by apply follows_refl.
Qed.

Lemma tracks_set_property p k v : tracks (ContainerManager.SetProperty p k v).
Proof.
  intros c Hc. assert (Hsame : exists es, ContainerManager.events c = ContainerManager.events c ++ es /\
    follows (ContainerManager.memory c) (ContainerManager.memory c) es)
    by (exists []; rewrite app_nil_r; split; [done|by apply follows_refl]).
  unfold ContainerManager.SetProperty, ContainerManager.with_properties. destruct p as [p|]; [|done].
  destruct (ContainerManager.live c !! p) as [o|]; [|done]. destruct (ContainerManager.propertyMap_ o) as [l|]; [|done].
  revert c Hc Hsame. intros c Hc _. apply tracks_memory; [|done]. clear c Hc. intros m Hg.
  pose proof (MemoryStorage.wf_set_property m l k v _ _ (gd_wf m Hg) (surjective_pairing _)) as Hw. revert Hw.
  unfold MemoryStorage.SetProperty. rewrite bind_get.
  destruct (MemoryStorage.propertyMaps (MemoryStorage.objects m) !! l) as [pm|] eqn:Epm; [|intros _; by apply follows_refl].
  cbn zeta. intros Hw. apply follows_same; try done; [|apply Hg].
  intros x b Hb. destruct (gd_heap m Hg x b Hb) as (H1 & H2 & pm' & H3 & H4). split; [done|]. split; [done|].
  simpl. rewrite lookup_insert. case_decide; [subst x|by eauto]. eexists. split; [done|]. simpl. congruence.
Qed.

Lemma follows_delete ty n m : good m -> follows m (MemoryStorage.DeleteStorage ty n m).2 [].
Proof.
  intros Hg. pose proof (MemoryStorage.wf_delete m ty n _ _ (gd_wf m Hg) (surjective_pairing _)) as Hw. revert Hw.
  unfold MemoryStorage.DeleteStorage. rewrite bind_get. cbn zeta. case_match; [|by intros _; apply follows_refl].
  intros Hw. by apply follows_same; try apply Hg.
Qed.

Lemma tracks_delete ty n : tracks (ContainerManager.DeleteContainer ty n).
Proof.
  unfold ContainerManager.DeleteContainer. apply tracks_get. intros c. cbn zeta. apply tracks_bind; [apply tracks_type|intros _].
  apply tracks_bind; [apply tracks_memory; intros m; apply follows_delete|intros _]. apply tracks_get. intros c'.
  apply tracks_call, (recorded_op (OpDelete _ _ _)).
Qed.

Lemma tracks_exists ty n : tracks (ContainerManager.Exists ty n).
Proof.
  unfold ContainerManager.Exists. apply tracks_bind; [apply tracks_type|intros _]. by apply tracks_same.
Qed.

(** ** The server *)

Definition mem (s : server) : MemoryStorage.MemoryStorageManager := ContainerManager.memory (containerManager_ s).

(** The events of a storage in a queue. *)
Definition queue_of (l : loc) (q : list EventInfo) : list event := eventInfo <$> filter (fun e => storageId e = l) q.

Definition subs (l : loc) (s : server) : list loc := default [] (subscribers_ s !! l).

Lemma queue_of_app l q q' : queue_of l (q ++ q') = queue_of l q ++ queue_of l q'.
Proof. unfold queue_of. by rewrite filter_app, fmap_app. Qed.

Lemma queue_of_one l x e : queue_of l [ {| storageId := x; eventInfo := e |} ] = if decide (x = l) then [e] else [].
Proof. unfold queue_of. rewrite filter_cons. cbn [storageId]. by case_decide. Qed.

(** What anything but the publisher does: for each storage, the changes [evs] it
    makes and those [evs2] of them it queues, which are all if somebody
    subscribes and none if nobody does, before or after.  Subscriptions are
    only added. *)
Record evolves (s s' : server) : Prop := {
  ev_good : good (mem s');
  ev_maps : forall l, is_map l (mem s) -> is_map l (mem s');
  ev_events : forall l, exists evs evs2,
    (maybe_map l (mem s') -> maybe_map l (mem s) /\ contents l (mem s') = replay evs (contents l (mem s))) /\
    queue_of l (eventQueue_ s') = queue_of l (eventQueue_ s) ++ evs2 /\ suffix evs2 evs /\
    (is_Some (subscribers_ s !! l) -> evs2 = evs) /\ (subscribers_ s' !! l = None -> evs2 = []);
  ev_subscribers : forall l, exists new, subs l s' = subs l s ++ new /\ Forall (fun n => next_subscription s <= n)%nat new;
  ev_subscribed : forall l, is_Some (subscribers_ s !! l) -> is_Some (subscribers_ s' !! l);
  ev_publisher : localEventQueue s' = localEventQueue s /\ interestedSubscribers s' = interestedSubscribers s;
  ev_next : (next_subscription s <= next_subscription s')%nat;
  ev_subscriptions : forall n, (n < next_subscription s)%nat -> subscriptions s' !! n = subscriptions s !! n
}.

Definition logs {A} (m : M server A) : Prop := forall s, good (mem s) -> evolves s (m s).2.

(** Nothing that matters here changes. *)
Record idle (s s' : server) : Prop := {
  id_mem : mem s' = mem s; id_queue : eventQueue_ s' = eventQueue_ s; id_subscribers : subscribers_ s' = subscribers_ s;
  id_publisher : localEventQueue s' = localEventQueue s /\ interestedSubscribers s' = interestedSubscribers s;
  id_next : next_subscription s' = next_subscription s; id_subscriptions : subscriptions s' = subscriptions s
}.

Lemma evolves_idle s s' : good (mem s) -> idle s s' -> evolves s s'.
Proof.
  intros Hg [I1 I2 I3 I4 I5 I6]. unfold subs. split; rewrite ?I1, ?I2, ?I3, ?I5, ?I6; try done.
  - intros l. exists [], []. rewrite app_nil_r. done.
  - intros l. exists []. unfold subs. rewrite I3, app_nil_r. done.
Qed.

Lemma evolves_trans s1 s2 s3 : evolves s1 s2 -> evolves s2 s3 -> evolves s1 s3.
Proof.
  intros [A1 A2 A3 A4 A5 A6 A7 A8] [B1 B2 B3 B4 B5 B6 B7 B8]. split.
  - done.
  - auto.
  - intros l. destruct (A3 l) as (e1 & q1 & C1 & Q1 & S1 & U1 & N1). destruct (B3 l) as (e2 & q2 & C2 & Q2 & S2 & U2 & N2).
    exists (e1 ++ e2), (q1 ++ q2). split; [|split; [by rewrite Q2, Q1, app_assoc|split; [|split] ] ].
    + intros H. destruct (C2 H) as [H1 H2]. destruct (C1 H1) as [H3 H4]. split; [done|]. by rewrite H2, H4, replay_app.
    + destruct (subscribers_ s2 !! l) as [ns|] eqn:En.
      * rewrite U2 by done. destruct S1 as [k ->]. exists k. by rewrite app_assoc.
      * rewrite N1 by done. destruct S2 as [k ->]. exists (e1 ++ k). by rewrite app_assoc.
    + intros H. by rewrite U1, U2 by auto.
    + intros H. rewrite N2 by done. destruct (subscribers_ s2 !! l) as [ns|] eqn:En; [|by rewrite N1].
      destruct (B5 l) as [x Hx]; [by rewrite En|congruence].
  - intros l. destruct (A4 l) as (n1 & E1 & F1). destruct (B4 l) as (n2 & E2 & F2). exists (n1 ++ n2).
    rewrite E2, E1, app_assoc. split; [done|]. apply Forall_app. split; [done|]. eapply Forall_impl; [done|]. simpl. lia.
  - auto.
  - destruct A6, B6. split; congruence.
  - lia.
  - intros n Hn. rewrite B8, A8 by lia. done.
Qed.

Lemma logs_bind {A B} (m : M server A) (f : A -> M server B) : logs m -> (forall a, logs (f a)) -> logs (m ≫= f).
Proof.
  intros Hm Hf s Hs. specialize (Hm s Hs). unfold mbind, M_bind. destruct (m s) as [ [a|e] s1]; simpl in *; [|done].
  eapply evolves_trans; [done|]. apply Hf, Hm.
Qed.

Lemma logs_get {A} (f : server -> M server A) : (forall s, logs (f s)) -> logs (get ≫= f).
Proof. intros H s Hs. rewrite bind_get. by apply H. Qed.

Lemma logs_idle {A} (m : M server A) : (forall s, idle s (m s).2) -> logs m.
Proof. intros H s Hs. by apply evolves_idle. Qed.

Lemma logs_lift {A} (r : res A) : logs (lift r).
Proof. by apply logs_idle. Qed.

Lemma logs_ret {A} (a : A) : logs (mret a).
Proof. by apply logs_idle. Qed.

Lemma logs_session {A} sid (m : M session A) : logs (on_session sid m).
Proof.
  apply logs_idle. intros s. unfold on_session. destruct (sessions_ s !! sid) as [x|]; [|done]. by destruct (m x).
Qed.

Lemma logs_try {A} (m : M server A) h : logs m -> (forall e, logs (h e)) -> logs (try_catch m h).
Proof.
  intros Hm Hh s Hs. specialize (Hm s Hs). unfold try_catch. destruct (m s) as [ [a|e] s1]; simpl in *; [done|].
  destruct e; try done; (eapply evolves_trans; [done|apply Hh, Hm]).
Qed.

Lemma logs_scope {A} (m : M server A) : logs m -> logs (end_scope m).
Proof.
  intros Hm s Hs. specialize (Hm s Hs). unfold end_scope. destruct (m s) as [r s1]. simpl in *.
  eapply evolves_trans; [done|]. apply evolves_idle; [apply Hm|]. by split.
Qed.

(** Events reach the queue if somebody subscribes to their storage. *)
Lemma queue_events es : forall s q, eventQueue_ s = q ->
  let s' := fold_left (fun s p => OnAnyContainerEvent p.1 p.2 s) es s in
  idle (set_queues (eventQueue_ s') (localEventQueue s) (interestedSubscribers s) s) s' /\
  forall l, queue_of l (eventQueue_ s') = queue_of l q ++ (if decide (is_Some (subscribers_ s !! l)) then events_of l es else []).
Proof.
  induction es as [|[x e] es IH]; intros s q Hq.
  - cbn zeta. simpl. split; [by split|]. intros l. rewrite Hq. case_decide; by rewrite app_nil_r.
  - cbn [fold_left fst snd]. destruct (subscribers_ s !! x) as [ns|] eqn:En.
    + assert (OnAnyContainerEvent x e s = set_queues (eventQueue_ s ++ [ {| storageId := x; eventInfo := e |} ])
        (localEventQueue s) (interestedSubscribers s) s) as -> by (unfold OnAnyContainerEvent; by rewrite En).
      destruct (IH (set_queues (eventQueue_ s ++ [ {| storageId := x; eventInfo := e |} ]) (localEventQueue s)
        (interestedSubscribers s) s) _ eq_refl) as [ [I1 I2 I3 I4 I5 I6] Hl]. split; [by split|].
      intros l. rewrite Hl. cbn [eventQueue_ set_queues subscribers_]. rewrite queue_of_app, queue_of_one, Hq, <- app_assoc. f_equal.
      unfold events_of. rewrite filter_cons. cbn [fst]. destruct (decide (x = l)) as [->|Hx]; [|done].
      destruct (decide (is_Some (subscribers_ s !! l))) as [|Hd]; [done|]. destruct Hd. by eexists.
    + assert (OnAnyContainerEvent x e s = s) as -> by (unfold OnAnyContainerEvent; by rewrite En).
      destruct (IH s q Hq) as [I Hl]. split; [done|]. intros l. rewrite Hl. f_equal. case_decide as Hs; [|done].
      unfold events_of. rewrite filter_cons. cbn [fst]. rewrite decide_False; [done|]. intros ->. rewrite En in Hs. by destruct Hs.
Qed.

Lemma logs_manager {A} (m : M ContainerManager.t A) : tracks m -> logs (on_manager m).
Proof.
  intros Hm s Hs. destruct (Hm (containerManager_ s) Hs) as (es & He & [F1 F2 F3]). unfold on_manager.
  destruct (m (containerManager_ s)) as [r c]. cbn [fst snd] in *. rewrite He, drop_app_length.
  destruct (queue_events es (set_manager c s) _ eq_refl) as [ [I1 I2 I3 I4 I5 I6] Hl].
  set (s' := fold_left _ es _) in *. clearbody s'. change (mem (set_queues (eventQueue_ s') (localEventQueue (set_manager c s))
    (interestedSubscribers (set_manager c s)) (set_manager c s))) with (ContainerManager.memory c) in I1.
  cbn [set_queues set_manager eventQueue_ subscribers_ localEventQueue interestedSubscribers next_subscription subscriptions] in *.
  unfold subs. split; rewrite ?I1, ?I3, ?I5, ?I6; try done.
  - intros l. exists (events_of l es), (if decide (is_Some (subscribers_ s !! l)) then events_of l es else []).
    split; [apply F2|]. split; [by rewrite Hl|]. case_decide as Hd; [split; [done|]; split; [done|] |].
    + intros Hn. rewrite Hn in Hd. by destruct Hd.
    + split; [by exists (events_of l es); rewrite app_nil_r|done].
  - intros l. exists []. unfold subs. rewrite I3, app_nil_r. done.
Qed.

Lemma logs_subscribe i : logs (SessionAsyncSubscribe i).
Proof.
  unfold SessionAsyncSubscribe. intros s Hs. rewrite bind_get.
  destruct (ContainerManager.storage_of _ _) as [x|]; [|by apply evolves_idle].
  rewrite bind_modify. cbn zeta.
  split; cbn [modify snd eventQueue_ subscribers_ localEventQueue interestedSubscribers next_subscription subscriptions
    set_queues set_subscriptions]; try done.
  - intros l. exists (if decide (x = l) then [no_event] else []), (if decide (x = l) then [no_event] else []).
    rewrite queue_of_app, queue_of_one. split; [intros H; split; [done|]; by case_decide|]. split; [done|]. split; [done|].
    split; [done|]. rewrite lookup_insert. by case_decide.
  - intros l. unfold subs. cbn [subscribers_ modify snd set_subscriptions]. rewrite lookup_insert. case_decide as Hx.
    + subst l. exists [next_subscription s]. split; [done|]. by apply Forall_singleton.
    + exists []. by rewrite app_nil_r.
  - intros l Hl. rewrite lookup_insert. by case_decide.
  - lia.
  - intros n Hn. rewrite lookup_insert_ne by lia. done.
Qed.

(** *** Handlers *)

Lemma logs_modify (g : server -> server) : (forall s, idle s (g s)) -> logs (modify g).
Proof. intros H. by apply logs_idle. Qed.

Lemma recorded_query a b : recorded (Query a b None_).
Proof. apply recorded_then, (recorded_op (OpQuery a b)). Qed.
Lemma recorded_pop_back : recorded (PopBack (Some None_) (Some None_) (Some None_)).
Proof. apply recorded_then, (recorded_op (OpPopBack None_ None_ None_)). Qed.
Lemma recorded_pop_front : recorded (PopFront (Some None_) (Some None_) (Some None_)).
Proof. apply recorded_then, (recorded_op (OpPopFront None_ None_ None_)). Qed.

Lemma recorded_push_back k v m : recorded (PushBack k v m).
Proof. exact (recorded_op (OpPushBack k v m)). Qed.
Lemma recorded_push_front k v m : recorded (PushFront k v m).
Proof. exact (recorded_op (OpPushFront k v m)). Qed.
Lemma recorded_set k v m : recorded (Set_ k v m).
Proof. exact (recorded_op (OpSet k v m)). Qed.
Lemma recorded_insert k v m : recorded (Insert k v m).
Proof. exact (recorded_op (OpInsert k v m)). Qed.
Lemma recorded_delete k v m : recorded (Delete k v m).
Proof. exact (recorded_op (OpDelete k v m)). Qed.
Lemma recorded_clear : recorded Clear.
Proof. exact (recorded_op OpClear). Qed.

Lemma logs_call {A} c (f : M MemoryStorage.AnyStorage A) : recorded f -> logs (call c f).
Proof. intros H. by apply logs_manager, tracks_call. Qed.

Create HintDb logs.
#[local] Hint Resolve logs_lift logs_ret logs_session logs_subscribe logs_call recorded_query recorded_pop_back
  recorded_pop_front recorded_count recorded_get recorded_push_back recorded_push_front recorded_set recorded_insert
  recorded_delete recorded_clear : logs.

Ltac solve_logs :=
  repeat (cbn zeta; match goal with
  | |- logs (get ≫= _) => apply logs_get; intros
  | |- logs (_ ≫= _) => apply logs_bind; [|intros]
  | |- logs (modify _) => apply logs_modify; intros; by split
  | |- logs (missing _ _) => apply logs_session
  | |- logs (on_manager (ContainerManager.CreateContainer _ _)) => apply logs_manager, tracks_create_or_open
  | |- logs (on_manager (ContainerManager.OpenContainer _ _)) => apply logs_manager, tracks_create_or_open
  | |- logs (on_manager (ContainerManager.GetProperty _ _)) => apply logs_manager, tracks_get_property
  | |- logs (on_manager (ContainerManager.SetProperty _ _ _)) => apply logs_manager, tracks_set_property
  | |- logs (on_manager (ContainerManager.DeleteContainer _ _)) => apply logs_manager, tracks_delete
  | |- logs (on_manager (ContainerManager.Exists _ _)) => apply logs_manager, tracks_exists
  | |- logs (on_manager (ContainerManager.call _ _)) => apply logs_manager, tracks_call; solve [auto with logs]
  | |- logs (try_catch _ _) => apply logs_try; [|intros]
  | |- logs (end_scope _) => apply logs_scope
  | |- logs (match _ with _ => _ end) => case_match
  | |- logs _ => solve [auto with logs]
  end).

Lemma logs_parameters sid m k v md : logs (GetContainerAndParametersFromRequest sid m k v md).
Proof. unfold GetContainerAndParametersFromRequest. solve_logs. Qed.
#[local] Hint Resolve logs_parameters : logs.

Lemma logs_ping sid m : logs (on_ping sid m).
Proof. unfold on_ping. solve_logs. Qed.

Lemma logs_open_create command sid m : logs (on_open_create command sid m).
Proof.
  unfold on_open_create. solve_logs. apply logs_manager. case_match; apply tracks_create_or_open.
Qed.

Lemma logs_close sid m : logs (on_close sid m).
Proof. unfold on_close. solve_logs. Qed.

Lemma logs_get_command command sid m : logs (on_get command sid m).
Proof. unfold on_get. solve_logs. Qed.

Lemma logs_pop command sid m : logs (on_pop command sid m).
Proof. unfold on_pop. solve_logs. apply logs_call. case_match; auto with logs. Qed.

Lemma logs_change command sid m : logs (on_modify command sid m).
Proof. unfold on_modify. solve_logs. Qed.

Lemma logs_count sid m : logs (on_count sid m).
Proof. unfold on_count. solve_logs. Qed.

Lemma logs_sessions g n c l : logs (subscribe_sessions g n c l).
Proof.
  induction l as [|sid l IH]; cbn [subscribe_sessions]; [auto with logs|].
  apply logs_get. intros s. apply logs_bind; [|done]. solve_logs.
Qed.

Lemma logs_containers g st sid l : logs (subscribe_containers g st sid l).
Proof. induction l as [|[n c] l IH]; cbn [subscribe_containers]; [auto with logs|]. solve_logs. Qed.
#[local] Hint Resolve logs_sessions logs_containers : logs.

Lemma logs_group g : logs (GetGroup g).
Proof. unfold GetGroup. solve_logs. Qed.
#[local] Hint Resolve logs_group : logs.

Lemma logs_add_container g c : logs (AddContainer g c).
Proof. unfold AddContainer. solve_logs. Qed.
#[local] Hint Resolve logs_add_container : logs.

Lemma logs_group_add sid m : logs (on_group_add sid m).
Proof. unfold on_group_add. solve_logs. Qed.

Lemma logs_group_subscribe sid m : logs (on_group_subscribe sid m).
Proof. unfold on_group_subscribe. solve_logs. Qed.

Lemma logs_subscribe_command sid m : logs (on_subscribe sid m).
Proof. unfold on_subscribe. solve_logs. Qed.

Lemma logs_unsubscribe sid m : logs (on_unsubscribe sid m).
Proof. unfold on_unsubscribe. solve_logs. Qed.

Lemma logs_query regex sid m : logs (on_query regex sid m).
Proof. unfold on_query, CreateNewQueryId. solve_logs. Qed.

Lemma logs_command regex sid m : logs (OnBinaryCommand regex sid m).
Proof.
  unfold OnBinaryCommand, binary_command. solve_logs; auto using logs_ping, logs_open_create, logs_close, logs_get_command, logs_pop,
    logs_change, logs_count, logs_query, logs_group_add, logs_group_subscribe, logs_subscribe_command, logs_unsubscribe,
    logs_session.
Qed.

Lemma logs_meta_call p f : recorded f -> logs (meta_call p f).
Proof. intros H. by apply logs_manager, tracks_call. Qed.

Lemma logs_accept id : logs (OnAccept id).
Proof. unfold OnAccept. solve_logs. apply logs_meta_call, recorded_insert. Qed.

Lemma logs_remove sid : logs (RemoveClient sid).
Proof. unfold RemoveClient. solve_logs. apply logs_meta_call, recorded_delete. Qed.

Lemma logs_failed sid : logs (OnClientFailed sid).
Proof. unfold OnClientFailed. apply logs_bind; [auto with logs|]. intros _. apply logs_remove. Qed.

Lemma logs_initialize : logs InitializeMetaContainers.
Proof. unfold InitializeMetaContainers. solve_logs. Qed.

(** *** Text and HTTP *)

Lemma recorded_custom w : recorded (Containers.Command w).
Proof. apply recorded_pure. by intros [s|s|s]. Qed.
#[local] Hint Resolve recorded_custom : logs.

Lemma logs_answer b : logs (TextCommands.answer_error b).
Proof. apply logs_ret. Qed.
Lemma logs_answer_ok : logs TextCommands.answer_ok.
Proof. apply logs_ret. Qed.
Lemma logs_throw {A} e : logs (throw (A := A) e).
Proof. by apply logs_idle. Qed.
Lemma logs_names h sid : logs (TextCommands.GetRegisteredContainer_names h sid).
Proof. unfold TextCommands.GetRegisteredContainer_names. solve_logs. Qed.
#[local] Hint Resolve logs_answer logs_answer_ok logs_throw logs_names : logs.

Section Text.
Context (L : library).

Lemma logs_handle cmd sid body : (forall c, logs (body c)) -> logs (TextCommands.with_handle cmd sid body).
Proof. intros H. unfold TextCommands.with_handle, TextCommands.handle_container. solve_logs; apply H. Qed.

Lemma logs_others sid l : logs (TextCommands.invalidate_others sid l).
Proof. induction l; cbn [TextCommands.invalidate_others]; solve_logs; done. Qed.

Lemma logs_parse_data cmd sid : logs (TextCommands.ParseDataCommand (lexical_cast_double L) cmd sid).
Proof. unfold TextCommands.ParseDataCommand. solve_logs. Qed.

Lemma logs_text_change w c k v m : logs (TextCommands.text_change w c k v m).
Proof.
  unfold TextCommands.text_change. solve_logs; apply logs_call; apply recorded_then;
    [apply (recorded_op (OpPopBack k v m))|apply (recorded_op (OpPopFront k v m))].
Qed.
#[local] Hint Resolve logs_others logs_parse_data logs_text_change : logs.

Lemma logs_matches sid q e l : forall a n, logs (TextCommands.send_matches (print_double L) sid q e l a n).
Proof. induction l as [|[ [k v] m] l IH]; intros a n; cbn [TextCommands.send_matches]; solve_logs; apply IH. Qed.

Lemma logs_text_group g sid l : logs (TextCommands.subscribe_group g sid l).
Proof. induction l as [|[n c] l IH]; cbn [TextCommands.subscribe_group]; solve_logs; done. Qed.
#[local] Hint Resolve logs_matches logs_text_group : logs.

Lemma logs_handlers sid :
  Forall (fun p => forall cmd, logs (p.2 cmd sid))
    (TextCommands.dispatchMap_ (regex L) (print_double L) (lexical_cast_double L)).
Proof.
  unfold TextCommands.dispatchMap_.
  repeat apply Forall_cons_2; try apply Forall_nil_2; cbn [snd]; intros cmd;
    TextCommands.open_handlers; unfold TextCommands.set_auth, CreateNewQueryId; cbn zeta;
    first [case_match; [auto with logs|]; apply logs_handle; intros c | idtac]; solve_logs.
Qed.

Lemma logs_text cmd sid : logs (TextCommands.OnTextCommand (regex L) (print_double L) (lexical_cast_double L) cmd sid).
Proof.
  unfold TextCommands.OnTextCommand. pose proof (logs_handlers sid) as Hl.
  destruct (TextCommands.lookup_handler _ _) as [f|] eqn:Ef; [|auto with logs].
  apply logs_try; [apply logs_scope|auto with logs].
  exact (TextCommands.lookup_handler_all (fun f => forall cmd, logs (f cmd sid)) _ _ _ Ef Hl cmd).
Qed.

Lemma logs_http now m sid : logs (Http.OnHttpCommand (to_string_double L) now m sid).
Proof. unfold Http.OnHttpCommand, Http.CreateContainerHttpResponse, Http.container_names. solve_logs. Qed.

End Text.

(** Every step but the publisher's. *)
Lemma external_logs L s s' : good (mem s) -> external L s s' -> evolves s s'.
Proof.
  intros Hg Hs.
  assert (Hgo : forall A (m : M server A) r s1, logs m -> m s = (r, s1) -> evolves s s1).
  { intros A m r s1 Hm E. specialize (Hm s Hg). by rewrite E in Hm. }
  destruct Hs as [sid message r s' Hx E|r s' E|id r s' E|sid r s' Hx E|sid err n r s' Hx E|sid z err n r s' Hx E|sid r s' Hx E
    |sid cmd r s' Hx E|sid b r s' Hx E|sid now m r s' Hx E|sid r s' Hx E|sid r s' Hx E|sid r s' E];
    (eapply Hgo; [|exact E]).
  - apply logs_command.
  - unfold GenerateSessionId. solve_logs.
  - apply logs_accept.
  - apply logs_session.
  - apply logs_session.
  - apply logs_session.
  - apply logs_failed.
  - apply logs_text.
  - apply logs_session.
  - apply logs_http.
  - apply logs_session.
  - apply logs_session.
  - apply logs_remove.
Qed.

End History.
