(* ===== verification/Subscription.v ===== *)
(** * Subscriptions converge

    A session that subscribes to a map with a snapshot is told the contents of
    the map at some moment and then events, of which the first may already be
    part of the snapshot.  Whatever other clients do meanwhile, a copy that
    applies what it is told is equal to the map as soon as the queue holds no
    more events for it. *)
From S2P Require Import Prelude Decimal StdMap Pr1Message Protocol TioDataS Containers ListStorage MapStorage VectorStorage MemoryStorage ContainerManager SessionMessages Session Sound Server ServerInvariant History.

Module Subscription.
Import StdMap Pr1 Protocol TioData Containers SessionMessages Session Sound Server ServerInvariant History.

#[local] Existing Instances MemoryStorage.any_storage MapStorage.map_storage.

(** ** Copies *)

(** After a sequence of events a key has a value that depends on the events
    alone, or the one it had. *)
Lemma replay_key q k :
  (exists o, forall m, replay q m !! k = o) \/ (forall m, replay q m !! k = m !! k).
Proof.
  induction q as [|e q IH]; [by right|].
  destruct IH as [ [o Ho]|Hid]; [left; exists o; intros m; apply Ho|].
  assert (E : forall m, replay (e :: q) m !! k = MapStorage.map_step m e !! k) by (intros m; apply Hid).
  unfold MapStorage.map_step in E.
  destruct (e_code e), (MapStorage.map_key (e_key e)) as [k'|]; try (right; intros m; apply E); try (left; exists None; intros m; rewrite E; apply lookup_empty).
  - destruct (decide (k' = k)) as [->|Hk]; [left|right].
    + eexists. intros m. rewrite E. apply lookup_insert_eq.
    + intros m. rewrite E. by apply lookup_insert_ne.
  - destruct (decide (k' = k)) as [->|Hk]; [left|right].
    + eexists. intros m. rewrite E. apply lookup_delete_eq.
    + intros m. rewrite E. by apply lookup_delete_ne.
Qed.

(** Events that led to a state do not change it. *)
Lemma replay_again q m : replay q (replay q m) = replay q m.
Proof. apply map_eq. intros k. destruct (replay_key q k) as [ [o Ho]|Hid]; [by rewrite !Ho|by rewrite Hid]. Qed.

(** Keys stay without NUL. *)
Definition nul_free (m : contents_map) : Prop := forall k, is_Some (m !! k) -> c_str k = k.

Lemma c_str_idem b : c_str (c_str b) = c_str b.
Proof. induction b as [|x b IH]; [done|]. simpl. case_decide as E; [done|]. simpl. by rewrite decide_False, IH. Qed.

Lemma nul_free_step m e : nul_free m -> nul_free (MapStorage.map_step m e).
Proof.
  intros Hm k. unfold MapStorage.map_step.
  destruct (e_code e), (MapStorage.map_key (e_key e)) as [k'|] eqn:Ek; try apply Hm; try by rewrite lookup_empty; intros [].
  - rewrite lookup_insert. case_decide; [subst k'|apply Hm]. intros _. destruct (e_key e); simplify_eq/=. apply c_str_idem.
  - rewrite lookup_delete. case_decide; [by intros []|apply Hm].
Qed.

Lemma nul_free_replay q : forall m, nul_free m -> nul_free (replay q m).
Proof. induction q as [|e q IH]; intros m Hm; [done|]. apply IH. by apply nul_free_step. Qed.

(** ** Snapshots *)

Definition item_event (c : ContainerEventCode) (it : item) : event :=
  let '(k, v, m) := it in {| e_code := c; e_key := k; e_value := v; e_metadata := m |}.

Lemma replay_set_items (d : list (bytes * ValueAndMetadata)) : forall m,
  sorted d -> nul_free (to_map d) ->
  replay (item_event EVENT_CODE_SET <$> (MapStorage.result_item <$> d)) m = to_map d ∪ m.
Proof.
  induction d as [|[k v] d IH]; intros m Hs Hn.
  - symmetry. apply map_empty_union.
  - assert (Hk : to_map d !! k = None).
    { rewrite <- find_to_map. inversion Hs; subst. by apply find_above. }
    assert (Hck : c_str k = k) by (apply Hn; rewrite <- find_to_map; simpl; rewrite decide_True by done; by eexists).
    assert (Hs' : sorted d) by by inversion Hs.
    assert (Hn' : nul_free (to_map d)).
    { intros k' Hk'. apply Hn. rewrite <- find_to_map. simpl. case_decide; [by eexists|]. by rewrite find_to_map. }
    assert (E : replay (item_event EVENT_CODE_SET <$> (MapStorage.result_item <$> ((k, v) :: d))) m
      = replay (item_event EVENT_CODE_SET <$> (MapStorage.result_item <$> d)) (<[k := v]> m)).
    { unfold replay. rewrite !fmap_cons. cbn [fold_left]. f_equal. unfold MapStorage.map_step. simpl. rewrite Hck. by destruct v. }
    rewrite E, IH by done. apply map_eq. intros x. rewrite !lookup_union, <- !find_to_map. simpl.
    rewrite lookup_insert. destruct (decide (k = x)) as [->|Hx].
    + rewrite find_to_map, Hk. by destruct (m !! x).
    + done.
Qed.

(** ** The queue is recent history *)

(** The publisher's batch and the queue behind it. *)
Definition waiting (l : loc) (s : server) : list event := queue_of l (localEventQueue s ++ eventQueue_ s).

(** The contents of a map are those it had before the events that wait, with these
    applied. *)
Record history (s : server) : Prop := {
  hs_good : good (mem s);
  hs_waiting : forall l, maybe_map l (mem s) -> exists m, contents l (mem s) = replay (waiting l s) m;
  hs_none : forall l, subscribers_ s !! l = None -> waiting l s = [];
  hs_keys : forall l, nul_free (contents l (mem s))
}.

Lemma waiting_evolves l s s' evs :
  evolves s s' -> queue_of l (eventQueue_ s') = queue_of l (eventQueue_ s) ++ evs -> waiting l s' = waiting l s ++ evs.
Proof.
  intros He Hq. unfold waiting. destruct (ev_publisher _ _ He) as [-> _]. by rewrite !queue_of_app, Hq, app_assoc.
Qed.

Lemma history_evolves s s' : history s -> evolves s s' -> history s'.
Proof.
  intros [H1 H2 H3 H4] He. split.
  - apply He.
  - intros l Hl. destruct (ev_events _ _ He l) as (e & q & C & Q & [k S] & U & N). destruct (C Hl) as [Hl' E].
    rewrite (waiting_evolves l s s' q He Q), E. destruct (subscribers_ s !! l) as [ns|] eqn:En.
    + destruct (H2 l Hl') as [m ->]. exists m. rewrite U by done. by rewrite replay_app.
    + rewrite (H3 l En), S. exists (replay k (contents l (mem s))). by rewrite replay_app.
  - intros l Hn. destruct (ev_events _ _ He l) as (e & q & C & Q & S & U & N). rewrite (waiting_evolves l s s' q He Q), N by done.
    rewrite H3; [done|]. destruct (subscribers_ s !! l) as [ns|] eqn:En; [|done].
    destruct (ev_subscribed _ _ He l) as [x Hx]; [by rewrite En|congruence].
  - intros l. destruct (ev_events _ _ He l) as (e & q & C & _).
    destruct (ContainerManager.at_loc l (mem s')) as [ [a|a|a]|] eqn:Ea.
    + unfold contents. rewrite Ea. intros k. rewrite lookup_empty. by intros [].
    + destruct C as [_ ->]; [by right; eexists|]. apply nul_free_replay, H4.
    + unfold contents. rewrite Ea. intros k. rewrite lookup_empty. by intros [].
    + unfold contents. rewrite Ea. intros k. rewrite lookup_empty. by intros [].
Qed.

(** Two servers that differ in what the publisher does not look at here. *)
Lemma history_same s s' :
  mem s' = mem s -> subscribers_ s' = subscribers_ s ->
  (forall l, waiting l s' = waiting l s) -> history s -> history s'.
Proof.
  intros E1 E2 E3 [H1 H2 H3 H4]. split; rewrite ?E1, ?E2; try done; intros l; rewrite E3; auto.
Qed.

(** ** What the publisher tells *)

Section Publisher.
Context (print_double : bytes -> bytes).

Definition snapshot_code (i : SubscriptionInfo) (s : server) : ContainerEventCode :=
  if IsMapContainer (GetType (si_container i) s) then EVENT_CODE_SET else EVENT_CODE_PUSH_BACK.

Definition snapshot_of (i : SubscriptionInfo) (s : server) : list event :=
  match storage_at (si_container i) s with
  | Some a =>
      match (Query (numeric_start (start i)) 0 None_ a).1 with
      | Ok r => (item_event (snapshot_code i s) <$> remaining r) ++ [no_event]
      | Throw _ => []
      end
  | None => []
  end.

(** What telling event [e] to subscription [n] means. *)
Definition told (e : event) (n : loc) (s : server) : list event :=
  match subscriptions s !! n with
  | None => []
  | Some i =>
      match sessions_ s !! si_session i with
      | None => []
      | Some _ =>
          if decide (e_code e = EVENT_CODE_SNAPSHOT_END)
          then if snapshotPending i && negb (bool_decide (start i = [])) then snapshot_of i s else []
          else if snapshotPending i then [] else [e]
      end
  end.

(** What the next step of the publisher tells, and to which subscription. *)
Definition told_by (s : server) : list (loc * event) :=
  match interestedSubscribers s with
  | Some (e, n :: _) => pair n <$> told (eventInfo e) n s
  | _ => []
  end.

(** The body of the publisher's loop changes nothing but a flag. *)
Lemma logs_not_supposed m : logs m -> logs (not_supposed_to_throw m).
Proof. intros H. apply logs_try; [done|]. intros e. by apply logs_idle. Qed.

(** A subscription once its event is handled. *)
Definition told_flag (e : event) (i : SubscriptionInfo) : bool :=
  if decide (e_code e = EVENT_CODE_SNAPSHOT_END) then false else snapshotPending i.

Definition with_pending (b : bool) (i : SubscriptionInfo) : SubscriptionInfo :=
  {| si_handle := si_handle i; snapshotPending := b; si_groupName := si_groupName i; start := start i;
     si_session := si_session i; si_container := si_container i |}.

Lemma with_pending_id i : with_pending (snapshotPending i) i = i.
Proof. by destruct i. Qed.

Definition flagged (n : loc) (b : bool) (s : server) : server :=
  match subscriptions s !! n with
  | None => s
  | Some i => set_subscriptions (<[n := with_pending b i]> (subscriptions s)) (next_subscription s) (subscribers_ s) s
  end.

(** Telling an event to a session that is there. *)
Lemma publish_to_run e n s i s' :
  good (mem s) -> subscriptions s !! n = Some i -> (n < next_subscription s)%nat -> is_Some (sessions_ s !! si_session i) ->
  publish_to print_double e n s = (Ok tt, s') ->
  exists s1, evolves s s1 /\ s' = flagged n (told_flag (eventInfo e) i) s1.
Proof.
  intros Hg Hi Hn [x Hx] E. unfold publish_to in E.
  assert (Hid : forall b, snapshotPending i = b -> s = flagged n b s).
  { intros b Hb. unfold flagged. rewrite Hi, <- Hb, with_pending_id, insert_id by done. by destruct s. }
  assert (Hev : evolves s s) by (by apply evolves_idle).
  unfold told_flag. destruct (decide (e_code (eventInfo e) = EVENT_CODE_SNAPSHOT_END)).
  - unfold publish_snapshot in E. rewrite bind_get, Hi in E. destruct (snapshotPending i) eqn:Ep; simpl in E.
    + case_bool_decide as Hst.
      * unfold set_pending, modify in E. injection E as <-. exists s. split; [done|]. unfold flagged. by rewrite Hi.
      * rewrite Hx in E. apply bind_inv in E as ([] & s1 & E1 & E). unfold set_pending, modify in E. injection E as <-.
        exists s1. split; [|done]. match type of E1 with not_supposed_to_throw ?m s = _ => assert (Hl : logs m) end.
        { apply logs_bind; [apply logs_call, recorded_query|]. intros r. apply logs_get. intros s2. cbn zeta.
          apply logs_bind; [case_bool_decide; [apply logs_ret|apply logs_session]|]. intros _. apply logs_session. }
        pose proof (logs_not_supposed _ Hl s Hg) as He. by rewrite E1 in He.
    + injection E as <-. exists s. split; [done|]. by apply Hid.
  - unfold publish_event in E. rewrite bind_get, Hi in E. destruct (snapshotPending i) eqn:Ep.
    + injection E as <-. exists s. split; [done|]. by apply Hid.
    + rewrite Hx in E. exists s'.
      assert (He : evolves s s').
      { pose proof (logs_not_supposed _ (logs_session (si_session i) (PublishEvent print_double (si_handle i)
          (e_code (eventInfo e)) (e_key (eventInfo e)) (e_value (eventInfo e)) (e_metadata (eventInfo e)))) s Hg) as He.
        by rewrite E in He. }
      split; [done|]. unfold flagged. rewrite (ev_subscriptions _ _ He n Hn), Hi. rewrite <- Ep, with_pending_id, insert_id;
        [by destruct s'|]. by rewrite (ev_subscriptions _ _ He n Hn), Hi.
Qed.

(** Telling an event, whatever comes of it. *)
Lemma publish_to_any e n s r s' :
  good (mem s) -> publish_to print_double e n s = (r, s') ->
  exists s1, evolves s s1 /\ (s' = s1 \/ exists b, s' = flagged n b s1).
Proof.
  intros Hg E. assert (Hev : evolves s s) by (by apply evolves_idle). unfold publish_to in E. case_decide.
  - unfold publish_snapshot in E. rewrite bind_get in E. destruct (subscriptions s !! n) as [i|] eqn:Hi;
      [|unfold throw in E; injection E as _ <-; by eauto].
    destruct (negb (snapshotPending i)); [injection E as _ <-; by eauto|].
    case_bool_decide; [unfold set_pending, modify in E; injection E as _ <-; exists s; split; [done|]; right; by exists false|].
    destruct (sessions_ s !! si_session i); [|injection E as _ <-; by eauto].
    match type of E with (not_supposed_to_throw ?m ≫= _) s = _ => assert (Hl : logs m) end.
    { apply logs_bind; [apply logs_call, recorded_query|]. intros q. apply logs_get. intros s2. cbn zeta.
      apply logs_bind; [case_bool_decide; [apply logs_ret|apply logs_session]|]. intros _. apply logs_session. }
    pose proof (logs_not_supposed _ Hl s Hg) as He. unfold mbind, M_bind in E, He. destruct (not_supposed_to_throw _ s) as [ [ []|ex] s1].
    + exists s1. split; [done|]. unfold set_pending, modify in E. injection E as _ <-. right. by exists false.
    + injection E as _ <-. eauto.
  - unfold publish_event in E. rewrite bind_get in E. destruct (subscriptions s !! n) as [i|] eqn:Hi;
      [|unfold throw in E; injection E as _ <-; by eauto].
    destruct (snapshotPending i); [injection E as _ <-; by eauto|].
    destruct (sessions_ s !! si_session i); [|injection E as _ <-; by eauto].
    exists s'. split; [|by left]. match type of E with not_supposed_to_throw ?m s = _ => pose proof (logs_not_supposed m (logs_session _ _) s Hg) as He end.
    by rewrite E in He.
Qed.

Lemma flagged_same n b s :
  mem (flagged n b s) = mem s /\ subscribers_ (flagged n b s) = subscribers_ s /\ eventQueue_ (flagged n b s) = eventQueue_ s /\
  localEventQueue (flagged n b s) = localEventQueue s /\ interestedSubscribers (flagged n b s) = interestedSubscribers s /\
  next_subscription (flagged n b s) = next_subscription s /\ sessions_ (flagged n b s) = sessions_ s.
Proof. unfold flagged. by destruct (subscriptions s !! n). Qed.

Lemma history_flagged n b s : history s -> history (flagged n b s).
Proof.
  destruct (flagged_same n b s) as (E1 & E2 & E3 & E4 & _). apply history_same; [done|done|]. intros l. unfold waiting. by rewrite E3, E4.
Qed.

Lemma history_publisher s r s' : history s -> PublisherThread print_double s = (r, s') -> history s'.
Proof.
  intros Hh E. unfold PublisherThread in E. rewrite bind_get in E.
  destruct (interestedSubscribers s) as [ [e [|n rest] ]|] eqn:Ei; [| |destruct (localEventQueue s) as [|e q] eqn:Eq].
  - unfold modify in E. injection E as _ <-. by apply (history_same s).
  - rewrite bind_modify in E. set (s1 := set_queues _ _ _ s) in E.
    assert (H1 : history s1) by (by apply (history_same s)).
    destruct (publish_to_any e n s1 r s' (hs_good s1 H1) E) as (s2 & He & [->|[b ->] ]); [|apply history_flagged];
      by eapply history_evolves.
  - unfold modify in E. injection E as _ <-. apply (history_same s); [done|done| |done].
    intros l. unfold waiting. cbn [localEventQueue eventQueue_ set_queues]. by rewrite Eq, app_nil_r.
  - unfold modify in E. injection E as _ <-. destruct Hh as [H1 H2 H3 H4].
    assert (Hw : forall l, waiting l s = (if decide (storageId e = l) then [eventInfo e] else []) ++ queue_of l (q ++ eventQueue_ s)).
    { intros l. unfold waiting. rewrite Eq. change ((e :: q) ++ eventQueue_ s) with ([e] ++ (q ++ eventQueue_ s)).
      rewrite queue_of_app. f_equal. destruct e. apply queue_of_one. }
    split; try done.
    + intros l Hl. destruct (H2 l Hl) as [m Hm]. rewrite Hw, replay_app in Hm. eexists. exact Hm.
    + intros l Hl. specialize (H3 l Hl). rewrite Hw in H3. by apply app_eq_nil in H3 as [_ ?].
Qed.

(** ** Following a map *)

Definition once (n : loc) (ns : list loc) : Prop := exists a b, ns = a ++ n :: b /\ n ∉ a /\ n ∉ b.

Lemma once_in n ns : once n ns -> n ∈ ns.
Proof. intros (a & b & -> & _). apply elem_of_app. right. apply list_elem_of_here. Qed.

(** What subscription [n] to map [l] is still to be told. *)
Definition mine (n l : loc) (s : server) : list event :=
  match interestedSubscribers s with
  | Some (e, ns) => if decide (n ∈ ns) then [eventInfo e] else []
  | None => []
  end ++ waiting l s.

(** The subscription has been told [t]: nothing yet and a snapshot will come, or
    what is still to come makes its copy equal to the map. *)
Record following (n l : loc) (sid : Z) (t : list event) (s : server) : Prop := {
  fo_info : exists i, subscriptions s !! n = Some i /\ si_session i = sid /\ start i <> [] /\ numeric_start (start i) = 0 /\
    if snapshotPending i then t = [] /\ no_event ∈ mine n l s
    else replay (mine n l s) (replay t ∅) = contents l (mem s);
  fo_next : (n < next_subscription s)%nat;
  fo_once : once n (subs l s);
  fo_interested : forall e ns, interestedSubscribers s = Some (e, ns) -> n ∈ ns -> once n ns;
  fo_map : is_map l (mem s)
}.

Lemma subscribed_once n l s : once n (subs l s) -> is_Some (subscribers_ s !! l).
Proof. unfold subs. destruct (subscribers_ s !! l); [done|]. intros (a & b & E & _). by destruct a. Qed.

Lemma once_app n ns new : once n ns -> n ∉ new -> once n (ns ++ new).
Proof.
  intros (a & b & -> & Ha & Hb) Hn. exists a, (b ++ new). rewrite <- app_assoc. split; [done|]. split; [done|].
  rewrite elem_of_app. tauto.
Qed.

Lemma following_evolves n l sid t s s' : following n l sid t s -> evolves s s' -> following n l sid t s'.
Proof.
  intros [ (i & Hi & Hsid & Hst & Hnum & Hc) Hn Ho Hin Hm] He. pose proof (subscribed_once n l s Ho) as Hsub.
  destruct (ev_events _ _ He l) as (evs & q & C & Q & _ & U & _). rewrite (U Hsub) in Q.
  pose proof (waiting_evolves l s s' evs He Q) as Hw. destruct (ev_publisher _ _ He) as [_ Hint].
  assert (Hmine : mine n l s' = mine n l s ++ evs) by (unfold mine; by rewrite Hint, Hw, app_assoc).
  destruct C as [_ Hcon]; [right; by apply (ev_maps _ _ He)|].
  split.
  - exists i. rewrite (ev_subscriptions _ _ He n Hn). do 4 (split; [done|]). rewrite Hmine.
    destruct (snapshotPending i); [split; [apply Hc|]; apply elem_of_app; left; apply Hc|].
    rewrite replay_app, Hc, Hcon. done.
  - pose proof (ev_next _ _ He). lia.
  - destruct (ev_subscribers _ _ He l) as (new & -> & Hnew). apply once_app; [done|]. intros H.
    rewrite Forall_forall in Hnew. specialize (Hnew n H). simpl in Hnew. lia.
  - by rewrite Hint.
  - by apply (ev_maps _ _ He).
Qed.

(** A subscriber is told the events of its storage only. *)
Lemma subscriber_storage n l s :
  wf s -> once n (subs l s) -> subscribes s l n /\ forall l', subscribes s l' n -> l' = l.
Proof.
  intros Hwf Ho. unfold subs in Ho. destruct (subscribers_ s !! l) as [ms|] eqn:Em; [|by destruct Ho as (a & ? & Ha & _); destruct a].
  pose proof (wf_subscribers s Hwf l ms n Em (once_in _ _ Ho)) as Hs. split; [done|].
  intros l' (i' & Hi' & Hl'). destruct Hs as (i & Hi & Hl). congruence.
Qed.

(** The snapshot of a map is its contents. *)
Lemma snapshot_map n l sid t s i :
  wf s -> history s -> following n l sid t s -> subscriptions s !! n = Some i ->
  replay (snapshot_of i s) ∅ = contents l (mem s).
Proof.
  intros Hwf Hh [ (i' & Hi' & _ & _ & Hnum & _) _ Ho _ [ms Hms] ] Hi. assert (i' = i) as -> by congruence.
  assert (Hl : ContainerManager.storage_of (si_container i) (containerManager_ s) = Some l).
  { destruct (subscriber_storage n l s Hwf Ho) as [ (i' & Hi2 & Hs') _]. congruence. }
  assert (Hat : storage_at (si_container i) s = Some (MemoryStorage.AnyMap ms)).
  { unfold storage_at. rewrite Hl. exact Hms. }
  destruct (gd_heap _ (hs_good s Hh) l _ Hms) as (_ & [Hlock Hsort] & _).
  assert (Hty : snapshot_code i s = EVENT_CODE_SET).
  { unfold snapshot_code, GetType. rewrite Hat. simpl. rewrite (gd_types _ (hs_good s Hh) l ms Hms). reflexivity. }
  unfold snapshot_of. rewrite Hat, Hnum, Hty.
  assert (Hq : (Query 0 0 None_ (MemoryStorage.AnyMap ms)).1 =
    Ok (new_result_set (MapStorage.result_item <$> data_ ms) TIONULL)).
  { simpl. unfold MapStorage.Query. cbn [IsNull GetDataType negb Z.eqb]. simpl in Hlock.
    erewrite with_lock_ok; [|done|rewrite bind_get; cbn [data_ set_locked]; unfold MapStorage.query_range; simpl; reflexivity].
    simpl. rewrite drop_0. rewrite firstn_all2 by lia. done. }
  rewrite Hq. unfold remaining, new_result_set. cbn [current_ items_]. rewrite drop_0, replay_app.
  pose proof (hs_keys s Hh l) as Hk. unfold contents in *. rewrite Hms in *.
  rewrite replay_set_items by done. rewrite map_union_empty. reflexivity.
Qed.

(** What matters of a state. *)
Lemma following_same n l sid t s s' :
  subscriptions s' = subscriptions s -> next_subscription s' = next_subscription s -> subscribers_ s' = subscribers_ s ->
  mem s' = mem s -> mine n l s' = mine n l s ->
  (forall e ns, interestedSubscribers s' = Some (e, ns) -> n ∈ ns -> once n ns) ->
  following n l sid t s -> following n l sid t s'.
Proof.
  intros E1 E2 E3 E4 E5 E6 [ (i & Hi & Hr) Hn Ho Hin Hm]. split; rewrite ?E2, ?E4; try done.
  - exists i. by rewrite E1, E5.
  - unfold subs in *. by rewrite E3.
Qed.

(** The next event of the batch is taken. *)
Lemma following_take n l sid t s e q :
  wf s -> following n l sid t s -> interestedSubscribers s = None -> localEventQueue s = e :: q ->
  following n l sid t (set_queues (eventQueue_ s) q
    (match subscribers_ s !! storageId e with None => None | Some subs => Some (e, subs) end) s).
Proof.
  intros Hwf Hf Ei Eq. pose proof (fo_once _ _ _ _ _ Hf) as Ho. destruct (subscriber_storage n l s Hwf Ho) as [_ Honly].
  assert (Hw : waiting l s = (if decide (storageId e = l) then [eventInfo e] else []) ++ queue_of l (q ++ eventQueue_ s)).
  { unfold waiting. rewrite Eq. change ((e :: q) ++ eventQueue_ s) with ([e] ++ (q ++ eventQueue_ s)).
    rewrite queue_of_app. f_equal. destruct e. apply queue_of_one. }
  assert (Hmem : forall ns, subscribers_ s !! storageId e = Some ns -> n ∈ ns -> storageId e = l)
    by (intros ns Hns Hn; by apply Honly, (wf_subscribers s Hwf _ ns n Hns)).
  apply (following_same n l sid t s); [done..| | |done]; cbn [interestedSubscribers set_queues].
  - unfold mine. rewrite Ei, Hw. unfold waiting. cbn [interestedSubscribers localEventQueue eventQueue_ set_queues app].
    f_equal. destruct (decide (storageId e = l)) as [El|El].
    + rewrite El. unfold subs in Ho. destruct (subscribers_ s !! l) as [ns|]; [|by destruct Ho as (a & ? & Ha & _); destruct a].
      simpl in Ho. by rewrite decide_True by by apply once_in.
    + destruct (subscribers_ s !! storageId e) as [ns|] eqn:Ens; [|done]. rewrite decide_False; [done|]. intros Hn. by apply El, (Hmem ns).
  - intros e' ns. destruct (subscribers_ s !! storageId e) as [ms|] eqn:Ens; [|done]. intros [= <- <-] Hn.
    unfold subs in Ho. by rewrite <- (Hmem ms eq_refl Hn), Ens in Ho.
Qed.

(** Another subscription is next. *)
Lemma following_skip n l sid t s e n' rest :
  n' <> n -> interestedSubscribers s = Some (e, n' :: rest) -> following n l sid t s ->
  following n l sid t (set_queues (eventQueue_ s) (localEventQueue s) (Some (e, rest)) s).
Proof.
  intros Hne Ei Hf. apply (following_same n l sid t s); [done..| | |done].
  - unfold mine. rewrite Ei. cbn [interestedSubscribers set_queues]. f_equal.
    destruct (decide (n ∈ rest)) as [Hr|Hr]; [rewrite decide_True; [done|by apply list_elem_of_further]|].
    rewrite decide_False; [done|]. intros [H|H]%elem_of_cons; congruence.
  - intros e' ns [= <- <-] Hr.
    destruct (fo_interested _ _ _ _ _ Hf e (n' :: rest) Ei) as (a & b & Eab & Ha & Hb); [by apply list_elem_of_further|].
    destruct a as [|y a]; [by injection Eab as -> _|]. injection Eab as <- ->. exists a, b. split; [done|].
    split; [|done]. intros H. apply Ha. by apply list_elem_of_further.
Qed.

(** Other subscriptions' flags do not matter. *)
Lemma following_flagged n l sid t s n' b : n' <> n -> following n l sid t s -> following n l sid t (flagged n' b s).
Proof.
  intros Hne [ (i & Hi & Hr) Hn Ho Hin Hm]. destruct (flagged_same n' b s) as (E1 & E2 & E3 & E4 & E5 & E6 & _).
  assert (Hmine : mine n l (flagged n' b s) = mine n l s) by (unfold mine, waiting; by rewrite E3, E4, E5).
  split.
  - exists i. rewrite Hmine, E1. split; [|done]. unfold flagged. destruct (subscriptions s !! n'); [|done]. simpl.
    by rewrite lookup_insert_ne.
  - by rewrite E6.
  - unfold subs in *. by rewrite E2.
  - by rewrite E5.
  - by rewrite E1.
Qed.

(** The publisher comes to the subscription. *)
Lemma following_told n l sid t s s1 s2 e rest i b :
  wf s -> history s -> following n l sid t s -> interestedSubscribers s = Some (e, n :: rest) ->
  s1 = set_queues (eventQueue_ s) (localEventQueue s) (Some (e, rest)) s ->
  subscriptions s !! n = Some i -> is_Some (sessions_ s !! sid) ->
  evolves s1 s2 -> b = told_flag (eventInfo e) i ->
  following n l sid (t ++ told (eventInfo e) n s) (flagged n b s2).
Proof.
  intros Hwf Hh Hf He -> Hi [x Hx] Hev ->. pose proof Hf as [ (i' & Hi' & Hsid & Hst & Hnum & Hc) Hn Ho Hin Hm].
  assert (i' = i) as -> by congruence.
  assert (Hrest : n ∉ rest).
  { destruct (Hin e (n :: rest) He) as (a & c & E & Ha & Hb); [apply list_elem_of_here|].
    destruct a as [|y a]; [by injection E as <-|]. injection E as <- _. destruct Ha. apply list_elem_of_here. }
  set (s1 := set_queues _ _ _ s) in *.
  assert (Hmine : mine n l s = [eventInfo e] ++ waiting l s)
    by (unfold mine; rewrite He, decide_True; [done|apply list_elem_of_here]).
  destruct (flagged_same n (told_flag (eventInfo e) i) s2) as (E1 & E2 & E3 & E4 & E5 & E6 & _).
  destruct (ev_publisher _ _ Hev) as [P1 P2]. cbn [localEventQueue interestedSubscribers set_queues s1] in P1, P2.
  destruct (ev_events _ _ Hev l) as (evs & q & C & Q & _ & U & _). rewrite (U (subscribed_once n l s Ho)) in Q.
  pose proof (waiting_evolves l s1 s2 evs Hev Q) as Hw. change (waiting l s1) with (waiting l s) in Hw.
  destruct C as [_ Hcon]; [right; by apply (ev_maps _ _ Hev)|]. change (mem s1) with (mem s) in Hcon.
  assert (Hmine' : mine n l (flagged n (told_flag (eventInfo e) i) s2) = waiting l s ++ evs).
  { unfold mine. rewrite E5, P2. cbn [interestedSubscribers s1 set_queues]. rewrite decide_False by done. unfold waiting in *. by rewrite E3, E4. }
  destruct (hs_waiting s Hh l (or_intror Hm)) as [m0 Hm0].
  assert (Hagain : replay (waiting l s) (contents l (mem s)) = contents l (mem s)) by (rewrite Hm0; apply replay_again).
  split.
  - exists (with_pending (told_flag (eventInfo e) i) i). split.
    { unfold flagged. rewrite (ev_subscriptions _ _ Hev n Hn). cbn [subscriptions s1 set_queues]. rewrite Hi. simpl. apply lookup_insert_eq. }
    do 3 (split; [done|]). rewrite Hmine', E1, Hcon. cbn [snapshotPending with_pending].
    unfold told. rewrite Hi, Hsid, Hx. unfold told_flag. case_decide as Hcode.
    + destruct (snapshotPending i) eqn:Ep.
      * rewrite bool_decide_false by done. simpl. destruct Hc as [-> _]. simpl.
        rewrite (snapshot_map n l sid [] s i Hwf Hh Hf Hi), replay_app, Hagain. done.
      * simpl. rewrite app_nil_r. rewrite Hmine, replay_app in Hc. rewrite replay_app. f_equal. rewrite <- Hc. f_equal.
        simpl. unfold MapStorage.map_step. by rewrite Hcode.
    + destruct (snapshotPending i) eqn:Ep.
      * rewrite app_nil_r. destruct Hc as [-> Hc]. split; [done|]. apply elem_of_app. left. rewrite Hmine in Hc.
        apply elem_of_app in Hc as [Hc|Hc]; [|done]. apply list_elem_of_singleton in Hc. by rewrite <- Hc in Hcode.
      * rewrite Hmine in Hc. rewrite replay_app. f_equal. by rewrite <- Hc, !replay_app.
  - rewrite E6. pose proof (ev_next _ _ Hev). cbn [next_subscription s1 set_queues] in *. lia.
  - unfold subs. rewrite E2. destruct (ev_subscribers _ _ Hev l) as (new & Hs & Hnew). unfold subs in Hs. rewrite Hs.
    apply once_app; [exact Ho|]. intros H. rewrite Forall_forall in Hnew. specialize (Hnew n H). cbn in Hnew. lia.
  - rewrite E5, P2. cbn [interestedSubscribers s1 set_queues]. by intros e' ns [= <- <-].
  - rewrite E1. by apply (ev_maps _ _ Hev).
Qed.

Lemma following_publisher n l sid t s s' :
  wf s -> history s -> following n l sid t s -> is_Some (sessions_ s !! sid) ->
  PublisherThread print_double s = (Ok tt, s') -> following n l sid (t ++ events_of n (told_by s)) s'.
Proof.
  intros Hwf Hh Hf Hx E. unfold PublisherThread in E. rewrite bind_get in E. unfold told_by.
  destruct (interestedSubscribers s) as [ [e [|n' rest] ]|] eqn:Ei; [| |destruct (localEventQueue s) as [|e q] eqn:Eq].
  - unfold modify in E. injection E as <-. rewrite app_nil_r. apply (following_same n l sid t s); [done..| |done|done].
    unfold mine. by rewrite Ei.
  - rewrite bind_modify in E. rewrite events_of_pair. set (s1 := set_queues _ _ _ s) in E.
    assert (H1 : history s1) by (by apply (history_same s)).
    destruct (decide (n' = n)) as [->|Hne].
    + pose proof Hf as [ (i & Hi & Hsid & _) Hn _ _ _].
      destruct (publish_to_run e n s1 i s' (hs_good s1 H1)) as (s2 & Hev & ->); try done; [by rewrite Hsid|].
      by apply (following_told n l sid t s s1 s2 e rest i).
    + rewrite app_nil_r. pose proof (following_skip n l sid t s e n' rest Hne Ei Hf) as Hf1. fold s1 in Hf1.
      destruct (publish_to_any e n' s1 (Ok tt) s' (hs_good s1 H1) E) as (s2 & He & [->|[b ->] ]);
        [|apply following_flagged; [done|] ]; by eapply following_evolves.
  - unfold modify in E. injection E as <-. rewrite app_nil_r. apply (following_same n l sid t s); [done..| |done|done].
    unfold mine. rewrite Ei. unfold waiting. cbn [interestedSubscribers localEventQueue eventQueue_ set_queues]. by rewrite Eq, app_nil_r.
  - unfold modify in E. injection E as <-. rewrite app_nil_r. by apply following_take.
Qed.

End Publisher.

(** ** Where it starts *)

(** Subscribing depends on the storages only. *)
Lemma subscribe_managers_memory b l : forall c c', ContainerManager.memory c' = ContainerManager.memory c ->
  ContainerManager.memory (ContainerManager.subscribe_managers b l c').2 =
    ContainerManager.memory (ContainerManager.subscribe_managers b l c).2 /\
  ContainerManager.events (ContainerManager.subscribe_managers b l c').2 = ContainerManager.events c'.
Proof.
  induction l as [|[k []] l IH]; intros c c' Hc; [done|].
  cbn [ContainerManager.subscribe_managers ContainerManager.subscribe_manager].
  unfold mbind, M_bind, ContainerManager.on_memory. rewrite Hc.
  destruct (MemoryStorage.ManagerSetSubscriber b (ContainerManager.memory c)) as [ [ []|e] m]; [|done].
  destruct (IH (ContainerManager.set_memory m c) (ContainerManager.set_memory m c') eq_refl) as [H1 H2]. by rewrite H1, H2.
Qed.

Lemma subscribe_memory b c c' :
  ContainerManager.memory c' = ContainerManager.memory c -> ContainerManager.managerByType_ c' = ContainerManager.managerByType_ c ->
  ContainerManager.memory (ContainerManager.SetSubscriber b c').2 = ContainerManager.memory (ContainerManager.SetSubscriber b c).2 /\
  ContainerManager.events (ContainerManager.SetSubscriber b c').2 = ContainerManager.events c'.
Proof.
  intros H1 H2. unfold ContainerManager.SetSubscriber. rewrite !bind_modify, !bind_get.
  cbn [ContainerManager.managerByType_ ContainerManager.set_subscriber]. rewrite H2.
  exact (subscribe_managers_memory b _ (ContainerManager.set_subscriber b c) (ContainerManager.set_subscriber b c') H1).
Qed.

Definition listening : ContainerManager.t := (ContainerManager.SetSubscriber true ContainerManager.start).2.

Definition storages_listen (a : MemoryStorage.AnyStorage) : bool :=
  MemoryStorage.any_sink a &&
  match a with
  | MemoryStorage.AnyMap ms => bool_decide (type_ ms = lit "volatile_map") && forallb (fun p => bool_decide (c_str p.1 = p.1)) (data_ ms)
  | _ => true
  end.

Lemma listening_all l a : ContainerManager.at_loc l (ContainerManager.memory listening) = Some a -> storages_listen a = true.
Proof.
  intros H. unfold ContainerManager.at_loc in H. apply elem_of_map_to_list in H.
  assert (Hall : forallb (fun p => storages_listen p.2)
    (map_to_list (MemoryStorage.storages (MemoryStorage.objects (ContainerManager.memory listening)))) = true)
    by (vm_compute; reflexivity).
  exact (proj1 (forallb_forall _ _) Hall (l, a) (proj1 (list_elem_of_In _ _) H)).
Qed.

Lemma listening_good : good (ContainerManager.memory listening).
Proof.
  destruct (ContainerManager.wf_subscribe ContainerManager.start true ContainerManager.start_wf) as (c & E & Hwf).
  pose proof (f_equal snd E : listening = c) as Hc. rewrite <- Hc in Hwf. clear c E Hc.
  split.
  - apply Hwf.
  - apply Hwf.
  - vm_compute. reflexivity.
  - intros l a Ha. apply listening_all in Ha. unfold storages_listen in Ha. by apply andb_true_iff in Ha as [? _].
  - intros l ms Ha. apply listening_all in Ha. unfold storages_listen in Ha. apply andb_true_iff in Ha as [_ Ha].
    apply andb_true_iff in Ha as [Ha _]. by apply bool_decide_eq_true in Ha.
Qed.

Lemma listening_keys l : nul_free (contents l (ContainerManager.memory listening)).
Proof.
  unfold contents. destruct (ContainerManager.at_loc l _) as [ [a|a|a]|] eqn:Ea; try (intros k; rewrite lookup_empty; by intros []).
  apply listening_all in Ea. unfold storages_listen in Ea. apply andb_true_iff in Ea as [_ Ea].
  apply andb_true_iff in Ea as [_ Ea]. rewrite forallb_forall in Ea. intros k [v Hv]. rewrite <- find_to_map in Hv.
  apply find_elem, list_elem_of_In, Ea, bool_decide_eq_true in Hv. done.
Qed.

Lemma aliases_only l : forall c, ContainerManager.memory (ContainerManager.add_aliases l c).2 = ContainerManager.memory c /\
  ContainerManager.managerByType_ (ContainerManager.add_aliases l c).2 = ContainerManager.managerByType_ c.
Proof. induction l as [|[a x] l IH]; intros c; [done|]. cbn [ContainerManager.add_aliases]. apply (IH (ContainerManager.set_aliases _ c)). Qed.

Lemma history_initial s : initial s -> history s.
Proof.
  intros (aliases & m & Em & E). unfold ContainerManager.SetupContainerManager in Em. apply bind_inv in Em as ([] & m1 & E1 & Em).
  assert (m1 = ContainerManager.start) as -> by (unfold ContainerManager.start; by rewrite E1). clear E1.
  destruct (aliases_only aliases ContainerManager.start) as [A1 A2]. rewrite Em in A1, A2. cbn [snd] in A1, A2. clear Em.
  unfold TioTcpServer in E. apply bind_inv in E as ([] & s1 & E1 & E).
  assert (Hs1 : mem s1 = ContainerManager.memory listening /\ eventQueue_ s1 = [] /\ localEventQueue s1 = [] /\ subscribers_ s1 = ∅).
  { unfold on_manager in E1. cbn [containerManager_ make] in E1.
    destruct (subscribe_memory true ContainerManager.start m A1 A2) as [H1 H2]. fold listening in H1.
    destruct (ContainerManager.SetSubscriber true m) as [r c]. cbn [snd] in H1, H2. rewrite H2, drop_all in E1.
    injection E1 as _ <-. split; [exact H1|]. clear. split; [reflexivity|split; reflexivity]. }
  destruct Hs1 as (Hm & Hq & Hl & Hsub).
  assert (H1 : history s1).
  { assert (Hw : forall l, waiting l s1 = []) by (intros l; unfold waiting; by rewrite Hq, Hl).
    split.
    - rewrite Hm. exact listening_good.
    - intros l _. rewrite Hw. by exists (contents l (mem s1)).
    - intros l _. apply Hw.
    - rewrite Hm. exact listening_keys. }
  eapply history_evolves; [exact H1|]. pose proof (logs_initialize s1 (hs_good s1 H1)) as He. by rewrite E in He.
Qed.

Lemma history_reachable L s : reachable L s -> history s.
Proof.
  intros (s0 & H0 & Hr). apply history_initial in H0. induction Hr as [s|s s1 s2 Hs _ IH]; [exact H0|].
  apply IH. destruct Hs as [s1 Hs|r s1 E]; [|exact (history_publisher _ _ _ _ H0 E)].
  exact (history_evolves _ _ H0 (external_logs _ _ _ (hs_good s H0) Hs)).
Qed.

(** ** The publisher comes to rest *)

(** Calls that leave the queues as they are. *)
Definition still (s s' : server) : Prop :=
  eventQueue_ s' = eventQueue_ s /\ localEventQueue s' = localEventQueue s /\ interestedSubscribers s' = interestedSubscribers s.

Definition keeps_queues {A} (m : M server A) : Prop := forall s, still s (m s).2.

Lemma keeps_queues_bind {A B} (m : M server A) (f : A -> M server B) :
  keeps_queues m -> (forall a, keeps_queues (f a)) -> keeps_queues (m ≫= f).
Proof.
  intros Hm Hf s. specialize (Hm s). unfold mbind, M_bind. destruct (m s) as [ [a|e] s1]; simpl in *; [|done].
  specialize (Hf a s1). unfold still in *. intuition congruence.
Qed.

Lemma keeps_queues_get {A} (f : server -> M server A) : (forall s, keeps_queues (f s)) -> keeps_queues (get ≫= f).
Proof. intros H s. rewrite bind_get. apply H. Qed.

Lemma keeps_queues_try {A} (m : M server A) h : keeps_queues m -> (forall e, keeps_queues (h e)) -> keeps_queues (try_catch m h).
Proof.
  intros Hm Hh s. specialize (Hm s). unfold try_catch. destruct (m s) as [ [a|e] s1]; simpl in *; [done|].
  specialize (Hh e s1). unfold still in *. destruct e; simpl; intuition congruence.
Qed.

Lemma keeps_queues_session {A} sid (m : M session A) : keeps_queues (on_session sid m).
Proof. intros s. unfold on_session. destruct (sessions_ s !! sid) as [x|]; [|done]. by destruct (m x). Qed.

Lemma keeps_queues_query c a b : keeps_queues (call c (Query a b None_)).
Proof.
  intros s. unfold call, on_manager, ContainerManager.call.
  destruct (ContainerManager.live (containerManager_ s) !! c) as [o|]; [|by rewrite drop_all].
  unfold MemoryStorage.call. destruct (ContainerManager.storage_ o) as [l|]; [|cbn; by rewrite app_nil_r, drop_all].
  destruct (MemoryStorage.storages _ !! l) as [x|] eqn:Ex.
  - pose proof (query_reads a b x) as Hp. destruct (Query a b None_ x) as [r x']. simpl in Hp. subst x'.
    unfold ContainerManager.published_since, ContainerManager.at_loc. simpl. rewrite Ex, lookup_insert_eq, drop_all. simpl.
    by rewrite app_nil_r, drop_all.
  - unfold ContainerManager.published_since, ContainerManager.at_loc. rewrite Ex. simpl. by rewrite app_nil_r, drop_all.
Qed.

Lemma keeps_queues_pending n b : keeps_queues (set_pending n b).
Proof. intros s. unfold set_pending, modify. simpl. by destruct (subscriptions s !! n). Qed.

Section Rest.
Context (print_double : bytes -> bytes).

Lemma keeps_queues_publish e n : keeps_queues (publish_to print_double e n).
Proof.
  unfold publish_to, publish_snapshot, publish_event, not_supposed_to_throw.
  repeat (cbn zeta; match goal with
  | |- keeps_queues (get ≫= _) => apply keeps_queues_get; intros
  | |- keeps_queues (call _ _) => apply keeps_queues_query
  | |- keeps_queues (_ ≫= _) => apply keeps_queues_bind; [|intros]
  | |- keeps_queues (try_catch _ _) => apply keeps_queues_try; [|intros]
  | |- keeps_queues (on_session _ _) => apply keeps_queues_session
  | |- keeps_queues (set_pending _ _) => apply keeps_queues_pending
  | |- keeps_queues (match _ with _ => _ end) => case_match
  | |- keeps_queues _ => by intros ?
  end).
Qed.

(** [k] steps of the publisher, whatever comes of each. *)
Fixpoint publishes (k : nat) (s : server) : server :=
  match k with O => s | S k => publishes k (PublisherThread print_double s).2 end.

Lemma publishes_app j k s : publishes (j + k) s = publishes k (publishes j s).
Proof. revert s. induction j as [|j IH]; intros s; [done|]. simpl. apply IH. Qed.

Lemma publishes_interested ns : forall s e, interestedSubscribers s = Some (e, ns) ->
  exists k, let s' := publishes k s in
    interestedSubscribers s' = None /\ localEventQueue s' = localEventQueue s /\ eventQueue_ s' = eventQueue_ s.
Proof.
  induction ns as [|n ns IH]; intros s e Hi.
  - exists 1%nat. cbn zeta. simpl. unfold PublisherThread. rewrite bind_get, Hi. done.
  - assert (Hs : exists s1, (PublisherThread print_double s).2 = s1 /\ interestedSubscribers s1 = Some (e, ns) /\
      localEventQueue s1 = localEventQueue s /\ eventQueue_ s1 = eventQueue_ s).
    { unfold PublisherThread. rewrite bind_get, Hi, bind_modify. eexists. split; [reflexivity|].
      destruct (keeps_queues_publish e n (set_queues (eventQueue_ s) (localEventQueue s) (Some (e, ns)) s)) as (H1 & H2 & H3).
      by rewrite H1, H2, H3. }
    destruct Hs as (s1 & E1 & H1 & H2 & H3). destruct (IH s1 e H1) as (k & K1 & K2 & K3). exists (S k). cbn zeta. simpl.
    rewrite E1, K1, K2, K3. done.
Qed.

Lemma publishes_batch q : forall s, localEventQueue s = q -> interestedSubscribers s = None ->
  exists k, let s' := publishes k s in interestedSubscribers s' = None /\ localEventQueue s' = [] /\ eventQueue_ s' = eventQueue_ s.
Proof.
  induction q as [|e q IH]; intros s Hq Hi; [by exists 0%nat|].
  set (i := match subscribers_ s !! storageId e with None => None | Some subs => Some (e, subs) end).
  set (s1 := set_queues (eventQueue_ s) q i s).
  assert (E1 : (PublisherThread print_double s).2 = s1) by (unfold PublisherThread; by rewrite bind_get, Hi, Hq).
  assert (Hs2 : exists j, let s2 := publishes j s1 in interestedSubscribers s2 = None /\ localEventQueue s2 = q /\ eventQueue_ s2 = eventQueue_ s).
  { destruct i as [ [e' ns]|] eqn:Ei; [|by exists 0%nat]. by apply (publishes_interested ns s1 e'). }
  destruct Hs2 as (j & J1 & J2 & J3). destruct (IH (publishes j s1) J2 J1) as (k & K1 & K2 & K3).
  exists (S (j + k)). cbn zeta. cbn [publishes]. rewrite E1, publishes_app, K1, K2, K3. done.
Qed.

Lemma publishes_rest s : exists k, let s' := publishes k s in
  interestedSubscribers s' = None /\ localEventQueue s' = [] /\ eventQueue_ s' = [].
Proof.
  assert (H1 : exists k, let s' := publishes k s in interestedSubscribers s' = None /\ localEventQueue s' = localEventQueue s).
  { destruct (interestedSubscribers s) as [ [e ns]|] eqn:Hi; [|by exists 0%nat].
    destruct (publishes_interested ns s e Hi) as (k & K1 & K2 & _). by exists k. }
  destruct H1 as (k1 & I1 & L1). destruct (publishes_batch _ _ eq_refl I1) as (k2 & I2 & L2 & _). set (s2 := publishes k2 (publishes k1 s)) in *.
  set (s3 := set_queues [] (eventQueue_ s2) None s2).
  assert (E3 : (PublisherThread print_double s2).2 = s3) by (unfold PublisherThread; by rewrite bind_get, I2, L2).
  destruct (publishes_batch _ s3 eq_refl eq_refl) as (k4 & I4 & L4 & Q4). exists (k1 + (k2 + S k4))%nat. cbn zeta.
  rewrite !publishes_app. fold s2. cbn [publishes]. rewrite E3, I4, L4, Q4. done.
Qed.

End Rest.

(** ** Runs *)

Section Runs.
Context (L : library).

(** Anything may happen to the server as long as session [sid] is connected; the
    list is what the publisher tells, and to whom. *)
Inductive run (sid : Z) : server -> list (loc * event) -> server -> Prop :=
| run_done s : run sid s [] s
| run_external s s1 t s' :
    is_Some (sessions_ s !! sid) -> external L s s1 -> run sid s1 t s' -> run sid s t s'
| run_publisher s s1 t s' :
    is_Some (sessions_ s !! sid) -> PublisherThread (print_double L) s = (Ok tt, s1) -> run sid s1 t s' ->
    run sid s (told_by s ++ t) s'.

Hypothesis sound_library : library_sound L.

Lemma run_following n l sid s t s' :
  run sid s t s' -> wf s -> initialized s -> history s -> forall t0, following n l sid t0 s ->
  following n l sid (t0 ++ events_of n t) s'.
Proof.
  induction 1 as [s|s s1 t s' Hx He _ IH|s s1 t s' Hx Hp _ IH]; intros Hwf Hms Hh t0 Hf.
  - by rewrite app_nil_r.
  - destruct (server_step_wf L sound_library s s1 Hwf Hms (step_external _ _ _ He)) as [W1 W2].
    pose proof (external_logs L s s1 (hs_good s Hh) He) as Hev.
    apply IH; [done|done|by eapply history_evolves|by eapply following_evolves].
  - destruct (server_step_wf L sound_library s s1 Hwf Hms (step_publisher _ _ _ _ Hp)) as [W1 W2].
    rewrite events_of_app, app_assoc. apply IH; [done|done|by eapply history_publisher|by eapply following_publisher].
Qed.

End Runs.

(** Steps of the publisher alone, with what they tell. *)
Fixpoint tells (print_double : bytes -> bytes) (k : nat) (s : server) : list (loc * event) :=
  match k with O => [] | S k => told_by s ++ tells print_double k (PublisherThread print_double s).2 end.

Fixpoint undisturbed (print_double : bytes -> bytes) (sid : Z) (k : nat) (s : server) : bool :=
  match k with
  | O => true
  | S k =>
      match sessions_ s !! sid, PublisherThread print_double s with
      | Some _, (Ok tt, s1) => undisturbed print_double sid k s1
      | _, _ => false
      end
  end.

Lemma publisher_run L sid k : forall s, undisturbed (print_double L) sid k s = true ->
  run L sid s (tells (print_double L) k s) (publishes (print_double L) k s).
Proof.
  induction k as [|k IH]; intros s; [intros _; apply run_done|]. cbn [undisturbed tells publishes].
  destruct (sessions_ s !! sid) as [x|] eqn:Ex; [|done].
  destruct (PublisherThread (print_double L) s) as [ [ []|e] s1] eqn:E; [|done]. cbn [snd]. intros Hu.
  apply (run_publisher _ _ _ s1); [by rewrite Ex|exact E|by apply IH].
Qed.

(** A session subscribes. *)
Lemma subscribe_run i s l :
  wf s -> initialized s -> history s -> snapshotPending i = true -> start i <> [] -> numeric_start (start i) = 0 ->
  ContainerManager.storage_of (si_container i) (containerManager_ s) = Some l -> is_map l (mem s) ->
  exists s0, SessionAsyncSubscribe i s = (Ok tt, s0) /\ wf s0 /\ initialized s0 /\ history s0 /\
    following (next_subscription s) l (si_session i) [] s0.
Proof.
  intros Hwf Hms Hh Hp Hst Hnum Hl Hm. set (n := next_subscription s).
  destruct (safe_async_subscribe (fixtures s) [] [si_container i] i) with (s := s) as (W & [ [_ M] _] & _); [set_solver|done| |].
  { split; [split; [|done]; intros x Hx; by apply not_elem_of_nil in Hx|]. intros c Hc. apply list_elem_of_singleton in Hc as ->.
    by eapply ContainerManager.live_of_storage. }
  pose proof (logs_subscribe i s (hs_good s Hh)) as Hev. revert W M Hev. unfold SessionAsyncSubscribe. rewrite bind_get, Hl.
  rewrite bind_modify. cbn zeta. set (s0 := (modify _ _).2). intros W M Hev. exists s0. split; [done|]. split; [done|].
  split; [done|]. split; [by eapply history_evolves|].
  assert (Hnew : forall ns : list loc, (forall m, m ∈ ns -> is_Some (subscriptions s !! m)) -> n ∉ ns).
  { intros ns Hns Hin. pose proof (wf_next s Hwf n (Hns n Hin)). unfold n in *. lia. }
  split.
  - exists i. split; [apply lookup_insert_eq|]. do 3 (split; [done|]). rewrite Hp. split; [done|]. unfold mine, waiting.
    apply elem_of_app. right. cbn [eventQueue_ localEventQueue s0 modify snd set_queues set_subscriptions].
    rewrite app_assoc, queue_of_app, queue_of_one, decide_True by done. apply elem_of_app. right. apply list_elem_of_here.
  - cbn. unfold n. lia.
  - exists (subs l s), []. unfold subs at 1. cbn [subscribers_ s0 modify snd set_queues set_subscriptions]. rewrite lookup_insert_eq.
    split; [done|]. split; [|apply not_elem_of_nil]. apply Hnew. intros m Hin. unfold subs in Hin.
    destruct (subscribers_ s !! l) as [ns|] eqn:Ens; [|by apply not_elem_of_nil in Hin].
    destruct (wf_subscribers s Hwf l ns m Ens Hin) as (i' & Hi' & _). by eexists.
  - intros e ns He Hin. exfalso. revert Hin. apply Hnew. intros m Hin.
    destruct (wf_interested s Hwf e ns m He Hin) as (i' & Hi' & _). by eexists.
  - done.
Qed.

(** ** Properties *)



(** ** Witnesses *)

(** Session 1 subscribes to the list of sessions, another connection is
    accepted, and the publisher goes on. *)
Definition ex_sessions : loc := default 0%nat (meta_sessions ex_server).
Definition ex_storage : loc := default 0%nat (ContainerManager.storage_of ex_sessions (containerManager_ ex_server)).
Definition ex_info : SubscriptionInfo :=
  {| si_handle := 1; snapshotPending := true; si_groupName := []; start := lit "0"; si_session := 1; si_container := ex_sessions |}.
Definition ex_subscribed : server := (SessionAsyncSubscribe ex_info ex_server).2.
Definition ex_accepted : server := (OnAccept 2 ex_subscribed).2.
Definition ex_told : list (loc * event) := tells raw_double 7 ex_accepted.
Definition ex_resting : server := publishes raw_double 7 ex_accepted.

Lemma ex_run : run any_library 1 ex_subscribed ex_told ex_resting.
Proof.
  apply (run_external _ _ _ ex_accepted).
  - vm_compute. eexists. reflexivity.
  - eapply step_accept. apply surjective_pairing.
  - apply publisher_run. vm_compute. reflexivity.
Qed.


End Subscription.
