(* ===== verification/Publishing.v ===== *)
(** * What the publisher sends

    Telling an event to a subscription ([Subscription.told]) is sending messages:
    a step of the publisher gives the subscriber's session one event message for
    each event told, in order, and the client's dispatcher reads each as that
    event. *)
From S2P Require Import Prelude StdMap Pr1Message TioDataC Protocol ClientState ClientReceive ClientNotify ClientApi ClientCluster ClientCommands ClientConnect TioDataS Containers MapStorage MemoryStorage ContainerManager SessionMessages Session SessionOutput Sound Server ServerInvariant ServerCommands EndToEnd History Subscription.

Module Publishing.
Import StdMap Pr1 TioDataC Protocol TioData Containers SessionMessages Session SessionOutput Server ServerInvariant ServerCommands EndToEnd Subscription.

#[local] Existing Instance MemoryStorage.any_storage.

(** ** Messages *)

Definition event_header (h code : Z) : list field :=
  [int_field MESSAGE_FIELD_ID_COMMAND TIO_COMMAND_EVENT; int_field MESSAGE_FIELD_ID_HANDLE h;
   int_field MESSAGE_FIELD_ID_EVENT_CODE code].

Definition event_fields (h : Z) (e : event) : list field :=
  event_header h (event_code_value (e_code e)) ++ values_fields (Some (e_key e)) (Some (e_value e)) (Some (e_metadata e)).

(** The event as the client sees it. *)
Definition client_event (h : Z) (e : event) : ClientNotify.notification :=
  ClientNotify.Event {|
    ClientNotify.ev_handle := h; ClientNotify.ev_code := event_code_value (e_code e);
    ClientNotify.ev_key := sent_value (Some (e_key e)); ClientNotify.ev_value := sent_value (Some (e_value e));
    ClientNotify.ev_metadata := sent_value (Some (e_metadata e)) |}.

Lemma event_carried h e : ClientNotify.carries (event_fields h e) (client_event h e).
Proof.
  destruct e as [c k v m]. unfold event_fields, values_fields. simpl.
  destruct k, v, m; repeat split; reflexivity.
Qed.

Definition event_fits (e : event) : Prop := value_fits (e_key e) /\ value_fits (e_value e) /\ value_fits (e_metadata e).

Lemma event_message_built h code :
  exists m, event_message h code = Ok m /\ built_as m (event_header h code).
Proof.
  unfold event_message, Pr1CreateMessage. destruct pr1_message_new_ok as (m0 & E0 & H0). rewrite E0. mrun.
  destruct (add_int_built m0 [] MESSAGE_FIELD_ID_COMMAND TIO_COMMAND_EVENT H0) as (m1 & E1 & H1); [by apply fits_small|]. rewrite E1. mrun.
  destruct (add_int_built m1 _ MESSAGE_FIELD_ID_HANDLE h H1) as (m2 & E2 & H2); [by apply fits_small|]. rewrite E2. mrun.
  apply (add_int_built m2 _ MESSAGE_FIELD_ID_EVENT_CODE code H2). by apply fits_small.
Qed.

Lemma event_fields_built h e m0 :
  built_as m0 (event_header h (event_code_value (e_code e))) -> event_fits e -> fits (event_fields h e) ->
  exists m, Pr1MessageAddFields m0 (Some (e_key e)) (Some (e_value e)) (Some (e_metadata e)) = Ok m /\ built_as m (event_fields h e).
Proof. intros Hb (Hk & Hv & Hm) Hf. apply add_fields_built; try done; by intros t [= <-]. Qed.

(** A single event. *)
Lemma send_event_run w0 out x h e :
  outbox w0 out x -> event_fits e -> message_ok (event_fields h e) ->
  total_size out + message_size (event_fields h e) < 2 ^ 31 ->
  exists x', SendBinaryEvent h (e_code e) (e_key e) (e_value e) (e_metadata e) x = (Ok tt, x') /\
    outbox w0 (out ++ [event_fields h e]) x' /\ same_session x x'.
Proof.
  intros Ho Hfit Hok Hsz. destruct (event_message_built h (event_code_value (e_code e))) as (m0 & E0 & H0).
  destruct (event_fields_built h e m0 H0 Hfit (proj2 Hok)) as (m & E & Hm).
  unfold SendBinaryEvent. cbn zeta. rewrite (bind_lift_ok _ _ _ m); [by apply outbox_send|].
  rewrite E0. mrun. exact E.
Qed.

Lemma total_size_length l : 8 * Z.of_nat (length l) <= total_size l.
Proof. induction l as [|fs l IH]; [done|]. cbn [total_size foldr length]. fold (total_size l). pose proof (message_size_pos fs). lia. Qed.

(** The messages of a snapshot. *)
Lemma snapshot_messages_built h c items :
  Forall event_fits (item_event c <$> items) -> Forall message_ok (event_fields h <$> (item_event c <$> items)) ->
  exists ms, snapshot_messages h (event_code_value c) items = Ok ms /\ length ms = length items /\
    Forall2 built_as ms (event_fields h <$> (item_event c <$> items)).
Proof.
  induction items as [|[ [k v] m] items IH]; intros Hf Ho; [exists []; repeat split; constructor|]. rewrite !fmap_cons in *. cbn [item_event] in *.
  inversion Hf; inversion Ho; subst. destruct IH as (ms & E & Hl & Hb); [done..|].
  destruct (event_message_built h (event_code_value c)) as (m0 & E0 & H0).
  destruct (event_fields_built h (item_event c (k, v, m)) m0 H0) as (m1 & E1 & H1'); [done|match goal with H : message_ok _ |- _ => exact (proj2 H) end|].
  exists (m1 :: ms). cbn [snapshot_messages]. rewrite E0. mrun. cbn [item_event e_key e_value e_metadata] in E1. rewrite E1. mrun.
  rewrite E. split; [reflexivity|]. split; [cbn; by rewrite Hl|]. apply Forall2_cons. split; [exact H1'|exact Hb].
Qed.

Lemma send_snapshot_run w0 out x h c r :
  outbox w0 out x -> current_ r = 0%nat ->
  let evs := (item_event c <$> remaining r) ++ [no_event] in
  Forall event_fits evs -> Forall message_ok (event_fields h <$> evs) ->
  total_size out + total_size (event_fields h <$> evs) < 2 ^ 31 ->
  exists x', SendBinarySubscriptionSnapshot r h c x = (Ok tt, x') /\
    outbox w0 (out ++ (event_fields h <$> evs)) x' /\ same_session x x'.
Proof.
  intros Ho Hr evs Hf Hok Hsz. unfold evs in *. rewrite fmap_app in *. apply Forall_app in Hf as [Hf _].
  pose proof Hok as Hok'. apply Forall_app in Hok as [Hok _].
  destruct (snapshot_messages_built h c (remaining r) Hf Hok) as (ms & E & Hl & Hb).
  destruct (event_message_built h TIO_EVENT_SNAPSHOT_END) as (m & Em & Hm).
  unfold SendBinarySubscriptionSnapshot. assert (Hc : ResultSet.RecordCount r = Z.of_nat (length (remaining r))).
  { pose proof (total_size_length (event_fields h <$> (item_event c <$> remaining r))) as Hn.
    pose proof (total_size_nonneg out). pose proof (total_size_nonneg (event_fields h <$> [no_event])).
    rewrite total_size_app in Hsz. rewrite !length_fmap in Hn. unfold ResultSet.RecordCount, remaining in *. rewrite Hr, drop_0 in *.
    apply u32_small. lia. }
  rewrite Hc, bool_decide_true by reflexivity. rewrite (bind_lift_ok _ _ _ _ eq_refl), (bind_lift_ok _ _ _ _ E), (bind_lift_ok _ _ _ _ Em).
  rewrite Hl, bool_decide_true by reflexivity. rewrite (bind_lift_ok _ _ _ _ eq_refl).
  apply outbox_sends; [exact Ho| |exact Hok'|exact Hsz]. apply Forall2_app; [exact Hb|]. apply Forall2_cons. split; [exact Hm|constructor].
Qed.

(** ** A step of the publisher *)

(** A query leaves the server as it was. *)
Lemma changed_same s c l a : contains s c l a -> changed l a a s = s.
Proof.
  intros [_ Ha]. unfold changed, published_by, notified. cbn zeta. rewrite drop_all, !fmap_nil.
  assert (Hm : ContainerManager.set_storage l a (ContainerManager.memory (containerManager_ s)) = ContainerManager.memory (containerManager_ s)).
  { unfold ContainerManager.set_storage. unfold ContainerManager.at_loc in Ha. rewrite insert_id by done.
    destruct (ContainerManager.memory (containerManager_ s)) as [? ? objects]. by destruct objects. }
  rewrite Hm. clear Ha Hm. destruct (subscribers_ s !! l); rewrite ?app_nil_r; destruct s as [cm]; destruct cm; unfold ContainerManager.add_events; cbn; by rewrite ?app_nil_r.
Qed.

(** The storage can be read for the snapshot of a subscription. *)
Definition readable (i : SubscriptionInfo) (s : server) : Prop :=
  exists l a r, contains s (si_container i) l a /\ (Query (numeric_start (start i)) 0 None_ a).1 = Ok r.

Section Step.
Context (print_double : bytes -> bytes).

Lemma publish_to_sends e n s i x w0 out :
  subscriptions s !! n = Some i -> sessions_ s !! si_session i = Some x -> binaryProtocol_ x = true -> si_groupName i = [] ->
  readable i s -> outbox w0 out x ->
  Forall event_fits (told (eventInfo e) n s) ->
  Forall message_ok (event_fields (si_handle i) <$> told (eventInfo e) n s) ->
  total_size out + total_size (event_fields (si_handle i) <$> told (eventInfo e) n s) < 2 ^ 31 ->
  exists s' x', publish_to print_double e n s = (Ok tt, s') /\ sessions_ s' = <[si_session i := x']> (sessions_ s) /\
    outbox w0 (out ++ (event_fields (si_handle i) <$> told (eventInfo e) n s)) x' /\ same_session x x'.
Proof.
  intros Hi Hx Hb Hg (l & a & r & Hc & Hq) Ho Hfit Hok Hsz. unfold publish_to.
  assert (Hstay : exists x', sessions_ s = <[si_session i := x']> (sessions_ s) /\ outbox w0 (out ++ []) x' /\ same_session x x').
  { exists x. rewrite app_nil_r, insert_id by done. by repeat split. }
  unfold told in *. rewrite Hi, Hx in *. case_decide as Hcode.
  - unfold publish_snapshot. rewrite bind_get, Hi. destruct (snapshotPending i) eqn:Ep; cbn [negb andb] in *;
      [|destruct Hstay as (x' & H); by exists s, x']. case_bool_decide as Hst.
    { destruct Hstay as (x' & H). eexists. exists x'. split; [reflexivity|]. by rewrite Hi. }
    cbn [negb] in *. assert (Hat : storage_at (si_container i) s = Some a) by (destruct Hc as [Hl Ha]; unfold storage_at; by rewrite Hl).
    unfold snapshot_of in *. rewrite Hat, Hq in *.
    assert (Hquery : call (si_container i) (Query (numeric_start (start i)) 0 None_) s = (Ok r, s)).
    { pose proof (Sound.query_reads (numeric_start (start i)) 0 a) as Hr. destruct (Query _ _ _ a) as [r' a'] eqn:Eq.
      cbn [fst snd] in Hq, Hr. subst r' a'. rewrite (server_call_run _ l a _ _ _ _ Hc Eq). by rewrite (changed_same s _ l a Hc). }
    destruct (send_snapshot_run w0 out x (si_handle i) (snapshot_code i s) r Ho) as (x' & E & Ho' & Hs');
      [exact (Sound.query_at_begin _ _ _ _ Hq)|done..|].
    set (s1 := set_sessions (<[si_session i := x']> (sessions_ s)) s).
    rewrite Hx, (bind_ok _ _ _ tt s1).
    + eexists. exists x'. split; [reflexivity|]. split; [|done]. by destruct (subscriptions s1 !! n).
    + unfold not_supposed_to_throw, try_catch. rewrite (bind_ok _ _ _ r s Hquery), bind_get. cbn zeta.
      rewrite Hg, bool_decide_true, (bind_ok _ _ _ tt s) by done. fold (snapshot_code i s).
      rewrite (on_session_run _ _ s x (Ok tt) x' Hx); [reflexivity|]. unfold SendSubscriptionSnapshot. rewrite bind_get, Hb. exact E.
  - unfold publish_event. rewrite bind_get, Hi. destruct (snapshotPending i); [destruct Hstay as (x' & H); by exists s, x'|].
    rewrite Hx. assert (Hfe : event_fits (eventInfo e)) by (by inversion Hfit).
    assert (Hoe : message_ok (event_fields (si_handle i) (eventInfo e))) by (by inversion Hok).
    destruct (send_event_run w0 out x (si_handle i) (eventInfo e) Ho Hfe Hoe) as (x' & E & Ho' & Hs').
    { rewrite fmap_cons, fmap_nil in Hsz. unfold total_size at 2 in Hsz. cbn [foldr] in Hsz. lia. }
    set (send := PublishEvent print_double (si_handle i) _ _ _ _).
    assert (Es : on_session (si_session i) send s = (Ok tt, set_sessions (<[si_session i := x']> (sessions_ s)) s)).
    { apply (on_session_run _ _ s x (Ok tt) x' Hx). unfold send, PublishEvent. rewrite bind_get, Hb. exact E. }
    exists (set_sessions (<[si_session i := x']> (sessions_ s)) s), x'. unfold not_supposed_to_throw, try_catch. rewrite Es.
    split; [reflexivity|]. split; [reflexivity|]. split; [exact Ho'|exact Hs'].
Qed.


End Step.

(** ** Witness *)

(** The publisher is about to send the snapshot of the list of sessions to the
    session that subscribed to it. *)
Definition ex_waiting : server := set_sessions {[1 := binary_session 1]} (publishes raw_double 2 ex_subscribed).
Definition ex_next : EventInfo := {| storageId := Subscription.ex_storage; eventInfo := no_event |}.
Definition ex_snapshot : list event := told no_event (next_subscription ex_server) ex_waiting.

Lemma ex_readable : readable ex_info ex_waiting.
Proof.
  exists Subscription.ex_storage.
  destruct (ContainerManager.at_loc Subscription.ex_storage (ContainerManager.memory (containerManager_ ex_waiting))) as [a|] eqn:Ea;
    [|vm_compute in Ea; discriminate Ea].
  exists a. destruct (Query (numeric_start (start ex_info)) 0 None_ a).1 as [r|e] eqn:Er.
  - exists r. split; [split; [vm_compute; reflexivity|exact Ea]|reflexivity].
  - vm_compute in Ea. injection Ea as <-. vm_compute in Er. discriminate Er.
Qed.

Lemma ex_snapshot_fits : Forall event_fits ex_snapshot /\ Forall message_ok (event_fields 1 <$> ex_snapshot).
Proof.
  let v := eval vm_compute in ex_snapshot in assert (E : ex_snapshot = v) by (vm_compute; reflexivity).
  rewrite E. split; repeat constructor.
Qed.


End Publishing.
