(* ===== verification/LogFile.v ===== *)
(** * Paged files: [server/tio/logdb.h], classes [File] and [PagedFile]

    [File] is the Linux version: a file descriptor on a file of the disk, with
    its position; files are bytes by name, reads and writes of regular files
    are complete except at the end, and the disk has room.  [PagedFile] keeps
    pages of the file in a cache of at most 4 MB, replaces the page that has
    been there longest, and writes every change through.  [memory] is what new
    memory happens to contain; the pointer [GetPage] gives is the page's entry
    of [_cache].  Freeing the cache forgets its pages; [_fileSize] is never
    used. *)
From S2P Require Import Prelude.

Module LogFile.

(** ** Files *)

Record File := mkFile {
  _file : option bytes;    (* the name of the file behind the descriptor, None for -1 *)
  opened : bool;           (* the descriptor is open *)
  position : Z;
  files : gmap bytes bytes
}.

(** The bytes of the open file. *)
Definition file_data (f : File) : option bytes :=
  if opened f then name ← _file f; files f !! name else None.

Definition file_Create (name : bytes) : M File bool := fun f =>
  (Ok true, mkFile (Some name) true 0 (match files f !! name with Some _ => files f | None => <[name := []]> (files f) end)).

Definition file_Open (name : bytes) : M File bool := fun f =>
  match files f !! name with
  | Some _ => (Ok true, mkFile (Some name) true 0 (files f))
  | None => (Ok false, mkFile None false 0 (files f))
  end.

(** [close]; [_file] keeps its number. *)
Definition file_Close : M File unit := modify (fun f => mkFile (_file f) false (position f) (files f)).

Definition file_IsValid (f : File) : bool := bool_decide (is_Some (_file f)).

Definition file_SetPointer (offset : Z) : M File unit := modify (fun f => mkFile (_file f) (opened f) offset (files f)).

(** [read] into a buffer: the bytes there are, up to [size]. *)
Definition file_Read (buffer : bytes) (size : Z) : M File (Z * bytes) := fun f =>
  match file_data f with
  | None => (Ok (u32 (-1), buffer), f)
  | Some d =>
      let got := take (Z.to_nat size) (drop (Z.to_nat (position f)) d) in
      match mem_write buffer 0 got with
      | Ok buffer => (Ok (Z.of_nat (length got), buffer), mkFile (_file f) (opened f) (position f + Z.of_nat (length got)) (files f))
      | Throw e => (Throw e, f)
      end
  end.

(** The bytes [b] in place of those at an offset, with zeros before them when
    the file is shorter. *)
Definition splice (d : bytes) (off : Z) (b : bytes) : bytes :=
  take (Z.to_nat off) d ++ replicate (Z.to_nat off - length d) x00 ++ b ++ drop (Z.to_nat off + length b) d.

Definition file_Write (b : bytes) : M File Z := fun f =>
  match _file f, file_data f with
  | Some name, Some d =>
      (Ok (Z.of_nat (length b)),
       mkFile (_file f) (opened f) (position f + Z.of_nat (length b)) (<[name := splice d (position f) b]> (files f)))
  | _, _ => (Ok (u32 (-1)), f)
  end.

(** Without a file [fstat] leaves its result as it is, uninitialised. *)
Definition file_GetFileSize : M File Z := fun f =>
  match file_data f with
  | Some d => (Ok (u32 (Z.of_nat (length d))), f)
  | None => (Throw (Fault Uninitialised), f)
  end.

(** ** Pages *)

Record PagedFile := mkPaged {
  _pageSize : Z;
  file : File;
  _cache : gmap Z bytes;
  _currentCachePagesList : list Z;
  _cacheMaxPages : Z;
  _cacheInMegabytes : Z;
  memory : Z -> nat -> Byte.byte
}.

Definition LOGDB_UNINITIALIZED_BYTE : Byte.byte := xee.

Definition set_file (f : File) (s : PagedFile) : PagedFile :=
  mkPaged (_pageSize s) f (_cache s) (_currentCachePagesList s) (_cacheMaxPages s) (_cacheInMegabytes s) (memory s).

Definition set_cache (c : gmap Z bytes) (l : list Z) (s : PagedFile) : PagedFile :=
  mkPaged (_pageSize s) (file s) c l (_cacheMaxPages s) (_cacheInMegabytes s) (memory s).

(** A call of the file. *)
Definition on_file {A} (m : M File A) : M PagedFile A := fun s =>
  let '(r, f) := m (file s) in (r, set_file f s).

(** [new unsigned char[n]] *)
Definition new_buffer (junk : nat -> Byte.byte) (n : Z) : bytes := junk <$> seq 0 (Z.to_nat n).

Definition PageByOffset (s : PagedFile) (offset : Z) : Z := offset / _pageSize s.

(** The buffer of the page that leaves the cache, or a new one. *)
Definition page_buffer (page : Z) : M PagedFile bytes :=
  s ← get;
  if _cacheMaxPages s <=? Z.of_nat (length (_currentCachePagesList s)) then
    match _currentCachePagesList s with
    | [] => throw (Fault EndDeref)
    | front :: rest =>
        match _cache s !! front with
        | None => throw (Fault AssertFail)
        | Some buffer => _ ← modify (set_cache (delete front (_cache s)) rest); mret buffer
        end
    end
  else mret (new_buffer (memory s page) (_pageSize s)).

Definition GetPage (page : Z) : M PagedFile bytes :=
  s ← get;
  match _cache s !! page with
  | Some buffer => mret buffer
  | None =>
      buffer ← page_buffer page;
      _ ← modify (fun s => set_cache (<[page := buffer]> (_cache s)) (_currentCachePagesList s ++ [page]) s);
      _ ← on_file (file_SetPointer (u32 (page * _pageSize s)));
      '(_, buffer) ← on_file (file_Read buffer (_pageSize s));
      _ ← modify (fun s => set_cache (<[page := buffer]> (_cache s)) (_currentCachePagesList s) s);
      mret buffer
  end.

Definition FlushPage (page : Z) : M PagedFile unit :=
  s ← get;
  match _cache s !! page with
  | None => mret tt
  | Some buffer =>
      _ ← on_file (file_SetPointer (u32 (page * _pageSize s)));
      _ ← on_file (file_Write buffer);
      mret tt
  end.

Definition FreeCache : M PagedFile unit := modify (set_cache ∅ []).

Definition GetFileSize : M PagedFile Z := on_file file_GetFileSize.

Definition SetPageSize (pageSize : Z) : M PagedFile unit :=
  _ ← FreeCache;
  _ ← lift (require (negb (pageSize =? 0)) (Fault DivisionByZero));
  modify (fun s => mkPaged pageSize (file s) (_cache s) (_currentCachePagesList s)
    (u32 (_cacheInMegabytes s * 1024 * 1024) / pageSize) (_cacheInMegabytes s) (memory s)).

Definition Create (name : bytes) : M PagedFile bool := on_file (file_Create name).
Definition Open (name : bytes) : M PagedFile bool := on_file (file_Open name).
Definition Close : M PagedFile unit := _ ← on_file file_Close; FreeCache.

(** The constructor, on the files of the disk. *)
Definition make (disk : gmap bytes bytes) (junk : Z -> nat -> Byte.byte) : PagedFile :=
  mkPaged 4096 (mkFile None false 0 disk) ∅ [] (u32 (4 * 1024 * 1024) / 4096) 4 junk.

(** The loop of [Read]; the bytes read so far are [acc]. *)
Fixpoint read_loop (fuel : nat) (pageNumber pageOffset remaining : Z) (acc : bytes) : M PagedFile (Z * bytes) :=
  match fuel with
  | O => throw (Fault OutOfFuel)
  | S fuel =>
      if remaining =? 0 then mret (remaining, acc) else
      pageBuffer ← GetPage pageNumber;
      s ← get;
      let toRead := Z.min remaining (u32 (_pageSize s - pageOffset)) in
      b ← lift (mem_read pageBuffer pageOffset toRead);
      let remaining := u32 (remaining - toRead) in
      if remaining =? 0 then mret (remaining, acc ++ b) else
      read_loop fuel (u32 (pageNumber + 1)) 0 remaining (acc ++ b)
  end.

Definition Read (offset size : Z) : M PagedFile (Z * bytes) :=
  s ← get;
  '(remaining, b) ← read_loop (Z.to_nat (size / _pageSize s) + 2) (PageByOffset s offset) (offset mod _pageSize s) size [];
  mret (u32 (size - remaining), b).

(** The loop of [Write]; [b] are the bytes not yet written. *)
Fixpoint write_loop (fuel : nat) (pageNumber pageOffset remaining : Z) (b : bytes) : M PagedFile Z :=
  match fuel with
  | O => throw (Fault OutOfFuel)
  | S fuel =>
      if remaining =? 0 then mret remaining else
      pageBuffer ← GetPage pageNumber;
      s ← get;
      let toWrite := Z.min remaining (u32 (_pageSize s - pageOffset)) in
      pageBuffer ← lift (mem_write pageBuffer pageOffset (take (Z.to_nat toWrite) b));
      _ ← modify (fun s => set_cache (<[pageNumber := pageBuffer]> (_cache s)) (_currentCachePagesList s) s);
      _ ← FlushPage pageNumber;
      let remaining := u32 (remaining - toWrite) in
      if remaining =? 0 then mret remaining else
      write_loop fuel (u32 (pageNumber + 1)) 0 remaining (drop (Z.to_nat toWrite) b)
  end.

Definition Write (offset : Z) (b : bytes) : M PagedFile Z :=
  s ← get;
  let size := Z.of_nat (length b) in
  remaining ← write_loop (Z.to_nat (size / _pageSize s) + 2) (PageByOffset s offset) (offset mod _pageSize s) size b;
  mret (u32 (size - remaining)).

Definition GrowFile (pages : Z) : M PagedFile unit :=
  s ← get;
  let size := u32 (pages * _pageSize s) in
  let buffer := replicate (Z.to_nat size) LOGDB_UNINITIALIZED_BYTE in
  fileSize ← on_file file_GetFileSize;
  _ ← on_file (file_SetPointer fileSize);
  _ ← on_file (file_Write buffer);
  mret tt.

(** ** Slices *)

(** [n] bytes of [d] at offset [off]. *)
Definition slice (d : bytes) (off n : Z) : bytes := take (Z.to_nat n) (drop (Z.to_nat off) d).

Lemma lookup_slice d off n i :
  slice d off n !! i = if decide (i < Z.to_nat n)%nat then d !! (Z.to_nat off + i)%nat else None.
Proof.
  unfold slice. case_decide.
  - by rewrite lookup_take_lt, lookup_drop by lia.
  - apply lookup_take_ge. lia.
Qed.

Lemma lookup_splice d off b i :
  0 <= off -> off + Z.of_nat (length b) <= Z.of_nat (length d) ->
  splice d off b !! i =
    if decide (Z.to_nat off <= i < Z.to_nat off + length b)%nat then b !! (i - Z.to_nat off)%nat else d !! i.
Proof.
  intros H1 H2. unfold splice.
  replace (Z.to_nat off - length d)%nat with 0%nat by lia. cbn [replicate app].
  destruct (decide (i < Z.to_nat off)%nat).
  { rewrite lookup_app_l by (rewrite length_take; lia). rewrite lookup_take_lt by lia.
    by rewrite decide_False by lia. }
  rewrite lookup_app_r, length_take, Nat.min_l by (rewrite ?length_take; lia).
  case_decide.
  - by rewrite lookup_app_l by lia.
  - rewrite lookup_app_r, lookup_drop by lia. f_equal. lia.
Qed.

Lemma length_slice d off n :
  0 <= off -> 0 <= n -> off + n <= Z.of_nat (length d) -> length (slice d off n) = Z.to_nat n.
Proof. intros. unfold slice. len. Qed.

Lemma length_splice d off b :
  0 <= off -> off + Z.of_nat (length b) <= Z.of_nat (length d) -> length (splice d off b) = length d.
Proof. intros. unfold splice. len. Qed.

(** Equality of slices, position by position. *)
Ltac slices :=
  apply list_eq; intros i; repeat rewrite ?lookup_slice, ?lookup_splice by len;
  cbn [length] in *; repeat case_decide; try lia; try done; try (f_equal; lia).

Lemma slice_splice d off b :
  0 <= off -> off + Z.of_nat (length b) <= Z.of_nat (length d) ->
  slice (splice d off b) off (Z.of_nat (length b)) = b.
Proof.
  intros. slices. symmetry. apply lookup_ge_None. lia.
Qed.

Lemma slice_splice_ne d off b off' n :
  0 <= off -> off + Z.of_nat (length b) <= Z.of_nat (length d) -> 0 <= off' -> 0 <= n ->
  off' + n <= off \/ off + Z.of_nat (length b) <= off' ->
  slice (splice d off b) off' n = slice d off' n.
Proof. intros. slices. Qed.

Lemma slice_app d off n m :
  0 <= off -> 0 <= n -> 0 <= m -> slice d off (n + m) = slice d off n ++ slice d (off + n) m.
Proof.
  intros. unfold slice.
  rewrite (Z2Nat.inj_add n m), (Z2Nat.inj_add off n), <- drop_drop by lia.
  by rewrite <- (take_take_drop _ (Z.to_nat n) (Z.to_nat m)).
Qed.

Lemma splice_app d off a b :
  0 <= off -> off + Z.of_nat (length (a ++ b)) <= Z.of_nat (length d) ->
  splice (splice d off a) (off + Z.of_nat (length a)) b = splice d off (a ++ b).
Proof.
  rewrite length_app. intros. apply list_eq. intros i.
  assert (length (splice d off a) = length d) by (apply length_splice; lia).
  rewrite !lookup_splice by (rewrite ?length_app; lia). rewrite length_app.
  repeat case_decide; try lia; try done.
  - rewrite lookup_app_r by lia. f_equal. lia.
  - by rewrite lookup_app_l by lia.
Qed.

Lemma splice_nil d off : 0 <= off <= Z.of_nat (length d) -> splice d off [] = d.
Proof. intros. slices. Qed.

Lemma slice_slice d off n off' n' :
  0 <= off -> 0 <= off' -> 0 <= n' -> off' + n' <= n -> slice (slice d off n) off' n' = slice d (off + off') n'.
Proof. intros. slices. Qed.

Lemma splice_slice d off n off' b :
  0 <= off -> 0 <= off' -> off' + Z.of_nat (length b) <= n -> off + n <= Z.of_nat (length d) ->
  splice d off (splice (slice d off n) off' b) = splice d (off + off') b.
Proof.
  intros. assert (length (slice d off n) = Z.to_nat n) as Hl by (apply length_slice; lia).
  assert (length (splice (slice d off n) off' b) = Z.to_nat n) by (rewrite length_splice; lia).
  apply list_eq. intros i. rewrite !lookup_splice, lookup_slice by lia.
  repeat case_decide; try lia; try done; f_equal; lia.
Qed.

Lemma mem_write_splice blk off b :
  0 <= off -> off + Z.of_nat (length b) <= Z.of_nat (length blk) -> mem_write blk off b = Ok (splice blk off b).
Proof.
  intros. unfold mem_write, splice. ztest.
  by replace (Z.to_nat off - length blk)%nat with 0%nat by lia.
Qed.

(** ** The cache shows the file *)

(** A buffer holds the part of its page that the file has. *)
Definition page_holds (ps : Z) (d : bytes) (p : Z) (b : bytes) : Prop :=
  0 <= p /\ p * ps < Z.of_nat (length d) /\ Z.of_nat (length b) = ps /\
  take (Z.to_nat (Z.of_nat (length d) - p * ps)) b = slice d (p * ps) ps.

(** The open file has the bytes [d], and so has the cache. *)
Record represents (s : PagedFile) (d : bytes) : Prop := {
  rep_data : file_data (file s) = Some d;
  rep_size : Z.of_nat (length d) < 2 ^ 32;
  rep_page : 0 < _pageSize s < 2 ^ 32;
  rep_max : 1 <= _cacheMaxPages s;
  rep_full : Z.of_nat (length (_currentCachePagesList s)) <= _cacheMaxPages s;
  rep_nodup : NoDup (_currentCachePagesList s);
  rep_list : forall p, p ∈ _currentCachePagesList s <-> is_Some (_cache s !! p);
  rep_cache : forall p b, _cache s !! p = Some b -> page_holds (_pageSize s) d p b
}.

(** What reading and writing leave alone: the sizes, the name of the file and the
    other files. *)
Definition config (s : PagedFile) :=
  (_pageSize s, _cacheMaxPages s, _cacheInMegabytes s, memory s, _file (file s), opened (file s),
   match _file (file s) with Some name => delete name (files (file s)) | None => files (file s) end).

Lemma file_data_inv f d :
  file_data f = Some d -> exists name, _file f = Some name /\ opened f = true /\ files f !! name = Some d.
Proof.
  unfold file_data. destruct (opened f); [|done]. destruct (_file f) as [name|]; [|done]. eauto.
Qed.

Lemma length_new_buffer junk n : length (new_buffer junk n) = Z.to_nat n.
Proof. unfold new_buffer. by rewrite length_fmap, length_seq. Qed.

(** Reading a page of the file into a buffer. *)
Lemma read_page f d buffer ps p :
  file_data f = Some d -> Z.of_nat (length d) < 2 ^ 32 -> 0 <= p -> 0 < ps -> p * ps < Z.of_nat (length d) ->
  Z.of_nat (length buffer) = ps ->
  exists n b pos, file_Read buffer ps (mkFile (_file f) (opened f) (u32 (p * ps)) (files f)) =
    (Ok (n, b), mkFile (_file f) (opened f) pos (files f)) /\ page_holds ps d p b.
Proof.
  intros Hd Hs Hp Hps Hin Hb. rewrite u32_small by lia. unfold file_Read.
  replace (file_data _) with (Some d) by (rewrite <- Hd; done). cbn [position].
  set (got := take _ _).
  assert (length got = Z.to_nat (Z.min ps (Z.of_nat (length d) - p * ps))) as Hg by (unfold got; len).
  rewrite mem_write_splice by lia. do 3 eexists. split; [done|].
  split_and!; [done | done | rewrite length_splice by lia; done|].
  apply list_eq. intros i. rewrite lookup_slice. destruct (decide (i < length got)%nat).
  - rewrite lookup_take_lt, lookup_splice by lia. rewrite !decide_True by lia.
    unfold got. rewrite lookup_take_lt, lookup_drop by lia. f_equal. lia.
  - destruct (decide (i < Z.to_nat (Z.of_nat (length d) - p * ps))%nat).
    + rewrite decide_False by lia. rewrite lookup_take_lt by lia.
      apply lookup_ge_None. rewrite length_splice; lia.
    + rewrite lookup_take_ge by lia. case_decide; [|done].
      symmetry. apply lookup_ge_None. lia.
Qed.

Lemma bind_on_file {A B} (m : M File A) (k : A -> M PagedFile B) s r f :
  m (file s) = (Ok r, f) -> (on_file m ≫= k) s = k r (set_file f s).
Proof. intros H. unfold mbind, M_bind, on_file. by rewrite H. Qed.

(** A buffer of a page's size, and room in the cache. *)
Lemma page_buffer_spec s d page :
  represents s d ->
  exists b c l, page_buffer page s = (Ok b, set_cache c l s) /\ Z.of_nat (length b) = _pageSize s /\
    Z.of_nat (length l) < _cacheMaxPages s /\ NoDup l /\ (forall p, p ∈ l <-> is_Some (c !! p)) /\ c ⊆ _cache s.
Proof.
  intros [Hd Hs Hp Hm Hf Hn Hl Hc]. unfold page_buffer. rewrite bind_get.
  destruct (_ <=? _) eqn:E; bool_to_prop.
  - destruct (_currentCachePagesList s) as [|front rest] eqn:El; [cbn in E; lia|].
    destruct (proj1 (Hl front)) as [b Hb]; [left|].
    rewrite Hb. exists b, (delete front (_cache s)), rest. apply NoDup_cons in Hn as [Hn1 Hn2].
    destruct (Hc _ _ Hb) as (?&?&?&?). cbn [length] in *. split_and!; [done|done|lia|done| |].
    + intros p. destruct (decide (p = front)) as [->|Hne].
      * rewrite lookup_delete_eq. split; [done|]. by intros [? ?].
      * rewrite lookup_delete_ne, <- Hl, elem_of_cons by done. naive_solver.
    + apply delete_subseteq.
  - exists (new_buffer (memory s page) (_pageSize s)), (_cache s), (_currentCachePagesList s).
    rewrite length_new_buffer. split_and!; [by destruct s|lia|lia|done|done|done].
Qed.

(** A page that is asked for is in the cache afterwards, with the file's bytes. *)
Lemma GetPage_spec s d p :
  represents s d -> 0 <= p -> p * _pageSize s < Z.of_nat (length d) ->
  exists b s', GetPage p s = (Ok b, s') /\ represents s' d /\ config s' = config s /\
    _cache s' !! p = Some b /\ files (file s') = files (file s).
Proof.
  intros Hr Hp Hin. pose proof Hr as [Hd Hs Hps Hm Hf Hn Hl Hc].
  unfold GetPage. rewrite bind_get. destruct (_cache s !! p) as [b|] eqn:Eb.
  { exists b, s. split_and!; done. }
  destruct (page_buffer_spec s d p Hr) as (b0&c&l&E&Hb0&Hlen&Hnl&Hel&Hsub). mstep E.
  rewrite bind_modify, (bind_on_file (file_SetPointer _) _ _ _ _ eq_refl).
  destruct (read_page (file s) d b0 (_pageSize s) p Hd Hs Hp (proj1 Hps) Hin Hb0) as (n&b&pos&Er&Hb).
  cbn beta. erewrite bind_on_file by exact Er.
  eexists b, _. split; [done|]. split; [|split_and!].
  - destruct (file_data_inv _ _ Hd) as (name&E1&E2&E3).
    split; cbn [file _pageSize _cacheMaxPages _currentCachePagesList _cache set_file set_cache]; try done.
    + rewrite length_app. cbn. lia.
    + apply NoDup_app. split_and!; [done| |apply NoDup_singleton].
      intros q Hq%Hel ->%list_elem_of_singleton. destruct Hq as [? Hq].
      apply (lookup_weaken _ _ _ _ Hq) in Hsub. congruence.
    + intros q. rewrite elem_of_app, list_elem_of_singleton, !Hel.
      destruct (decide (q = p)) as [->|Hne]; [rewrite lookup_insert_eq; naive_solver|].
      rewrite !lookup_insert_ne by done. naive_solver.
    + intros q bq. destruct (decide (q = p)) as [->|Hne].
      * rewrite lookup_insert_eq. by intros [= <-].
      * rewrite !lookup_insert_ne by done. intros Hq. apply Hc. by eapply lookup_weaken.
  - done.
  - cbn. by rewrite lookup_insert_eq.
  - done.
Qed.

Lemma config_page s s' : config s' = config s -> _pageSize s' = _pageSize s.
Proof. unfold config. congruence. Qed.

(** What a cached page shows of the file. *)
Lemma page_slice ps d p b po n :
  page_holds ps d p b -> 0 <= po -> 0 <= n -> po + n <= ps -> p * ps + po + n <= Z.of_nat (length d) ->
  mem_read b po n = Ok (slice d (p * ps + po) n).
Proof.
  intros (Hp&Hin&Hb&E) Hpo Hn Hle Hd. rewrite mem_read_ok by lia. f_equal.
  change (slice b po n = slice d (p * ps + po) n).
  assert (0 <= p * ps) by nia.
  transitivity (slice (take (Z.to_nat (Z.of_nat (length d) - p * ps)) b) po n).
  - apply list_eq. intros i. rewrite !lookup_slice. case_decide; [|done].
    by rewrite lookup_take_lt by lia.
  - rewrite E. apply slice_slice; lia.
Qed.

Lemma read_loop_spec fuel : forall s d pn po rem acc,
  represents s d -> 0 <= pn -> 0 <= po < _pageSize s -> 0 <= rem ->
  pn * _pageSize s + po + rem <= Z.of_nat (length d) ->
  (1 <= fuel)%nat -> po + rem <= Z.of_nat fuel * _pageSize s ->
  exists s', read_loop fuel pn po rem acc s = (Ok (0, acc ++ slice d (pn * _pageSize s + po) rem), s') /\
    represents s' d /\ config s' = config s /\ files (file s') = files (file s).
Proof.
  induction fuel as [|fuel IH]; intros s d pn po rem acc Hr Hpn Hpo Hrem Hin Hf Hfuel; [lia|].
  cbn [read_loop]. destruct (rem =? 0) eqn:E0; bool_to_prop.
  { subst. exists s. unfold slice. by rewrite take_0, app_nil_r. }
  pose proof (rep_page _ _ Hr) as Hps. pose proof (rep_size _ _ Hr) as Hs.
  destruct (GetPage_spec s d pn Hr Hpn ltac:(lia)) as (b&s1&E1&Hr1&Hc1&Hb1&Hfs1). mstep E1. rewrite bind_get.
  assert (_pageSize s1 = _pageSize s) as Eps by (by apply config_page).
  pose proof (rep_cache _ _ Hr1 _ _ Hb1) as Hpage. rewrite Eps in *.
  rewrite (u32_small (_ - po)) by lia. set (n := Z.min rem (_pageSize s - po)).
  rewrite (bind_lift_ok _ _ _ _ (page_slice _ _ _ _ po n Hpage ltac:(lia) ltac:(lia) ltac:(lia) ltac:(lia))).
  rewrite (u32_small (rem - n)) by lia. destruct (rem - n =? 0) eqn:E2; bool_to_prop.
  { exists s1. replace rem with n by lia. replace (n - n) with 0 by lia. split_and!; auto. }
  rewrite u32_small by nia.
  destruct (IH s1 d (pn + 1) 0 (rem - n) (acc ++ slice d (pn * _pageSize s + po) n)) as (s2&E3&Hr2&Hc2&Hfs2);
    rewrite ?Eps; try done; try nia.
  exists s2. rewrite E3, <- app_assoc. split_and!; [|done|congruence|congruence].
  rewrite Eps. replace ((pn + 1) * _pageSize s + 0) with (pn * _pageSize s + po + n) by lia.
  rewrite <- slice_app by nia. by replace (n + (rem - n)) with rem by lia.
Qed.

(** Reading gives the file's bytes, from whatever pages they are on. *)
Lemma Read_spec s d off n :
  represents s d -> 0 <= off -> 0 <= n -> off + n <= Z.of_nat (length d) ->
  exists s', Read off n s = (Ok (n, slice d off n), s') /\ represents s' d /\ config s' = config s /\
    files (file s') = files (file s).
Proof.
  intros Hr Ho Hn Hin. unfold Read, PageByOffset. rewrite bind_get.
  pose proof (rep_page _ _ Hr) as Hps. pose proof (rep_size _ _ Hr) as Hs.
  pose proof (Z.div_mod off (_pageSize s) ltac:(lia)) as Ed.
  pose proof (Z.mod_pos_bound off (_pageSize s) (proj1 Hps)) as Hm.
  pose proof (Z.div_mod n (_pageSize s) ltac:(lia)) as En.
  pose proof (Z.mod_pos_bound n (_pageSize s) (proj1 Hps)) as Hmn.
  assert (0 <= n / _pageSize s) by (apply Z.div_pos; lia).
  destruct (read_loop_spec (Z.to_nat (n / _pageSize s) + 2) s d (off / _pageSize s) (off mod _pageSize s) n [] Hr)
    as (s'&E&?&?); try lia; try nia.
  mstep E. exists s'. replace (_ * _ + _) with off by lia. rewrite Z.sub_0_r, u32_small by lia. auto.
Qed.

(** In a file of whole pages a page is all there. *)
Definition aligned (s : PagedFile) (d : bytes) : Prop := (_pageSize s | Z.of_nat (length d)).

Lemma aligned_page ps n p : (ps | n) -> 0 < ps -> p * ps < n -> p * ps + ps <= n.
Proof. intros [q ->] H1 H2. assert (p < q) by nia. nia. Qed.

(** Changing a page in the cache and flushing it changes the file. *)
Lemma flush_spec s d p b po chunk :
  represents s d -> aligned s d -> _cache s !! p = Some b ->
  0 <= po -> po + Z.of_nat (length chunk) <= _pageSize s ->
  exists s', FlushPage p (set_cache (<[p := splice b po chunk]> (_cache s)) (_currentCachePagesList s) s) = (Ok tt, s') /\
    represents s' (splice d (p * _pageSize s + po) chunk) /\ config s' = config s.
Proof.
  intros Hr Ha Hb Hpo Hch. pose proof Hr as [Hd Hs Hps Hm Hf Hn Hl Hc].
  destruct (Hc _ _ Hb) as (Hp&Hin&Hbl&Hbe).
  pose proof (aligned_page _ _ _ Ha (proj1 Hps) Hin) as Hpg.
  assert (b = slice d (p * _pageSize s) (_pageSize s)) as ->.
  { rewrite <- Hbe. symmetry. apply take_ge. lia. }
  destruct (file_data_inv _ _ Hd) as (name&E1&E2&E3).
  unfold FlushPage. rewrite bind_get. cbn [_cache set_cache]. rewrite lookup_insert_eq.
  rewrite (bind_on_file (file_SetPointer _) _ _ _ _ eq_refl).
  unfold on_file, mbind, M_bind. cbn [file set_file set_cache _pageSize].
  unfold file_Write. cbn [_file opened position files]. rewrite E1.
  replace (file_data _) with (Some d) by (unfold file_data; cbn; rewrite E2; cbn; by rewrite E3).
  rewrite u32_small, splice_slice by nia.
  eexists. split; [done|]. split; [|unfold config; cbn; rewrite E1, delete_insert_eq; done].
  set (d' := splice d (p * _pageSize s + po) chunk). assert (length d' = length d) as Hd' by (apply length_splice; nia).
  split; cbn [file set_file set_cache _pageSize _cacheMaxPages _currentCachePagesList _cache]; rewrite ?Hd'; try done.
  - unfold file_data. cbn. rewrite E2. apply lookup_insert_eq.
  - intros q. rewrite Hl. destruct (decide (q = p)) as [->|Hne]; [|by rewrite lookup_insert_ne by done].
    rewrite lookup_insert_eq, Hb. naive_solver.
  - intros q bq. unfold page_holds. rewrite Hd'. destruct (decide (q = p)) as [->|Hne].
    + rewrite lookup_insert_eq. intros [= <-].
      split_and!; [done|done|rewrite length_splice; lia|].
      rewrite take_ge by (rewrite length_splice; lia).
      unfold d'. rewrite <- (splice_slice d (p * _pageSize s) (_pageSize s)) by nia.
      set (c := splice (slice _ _ _) _ _). assert (Z.of_nat (length c) = _pageSize s) as El by (unfold c; rewrite length_splice; lia).
      pose proof (slice_splice d (p * _pageSize s) c) as Es. rewrite El in Es. rewrite Es by nia. done.
    + rewrite lookup_insert_ne by done. intros Hq. destruct (Hc _ _ Hq) as (?&?&?&Eq).
      split_and!; [done..|]. rewrite Eq. unfold d'. symmetry. apply slice_splice_ne; nia.
Qed.

Lemma write_loop_spec fuel : forall s d pn po b,
  represents s d -> aligned s d -> 0 <= pn -> 0 <= po < _pageSize s ->
  pn * _pageSize s + po + Z.of_nat (length b) <= Z.of_nat (length d) ->
  (1 <= fuel)%nat -> po + Z.of_nat (length b) <= Z.of_nat fuel * _pageSize s ->
  exists s', write_loop fuel pn po (Z.of_nat (length b)) b s = (Ok 0, s') /\
    represents s' (splice d (pn * _pageSize s + po) b) /\ config s' = config s.
Proof.
  induction fuel as [|fuel IH]; intros s d pn po b Hr Ha Hpn Hpo Hin Hf Hfuel; [lia|].
  cbn [write_loop]. destruct (_ =? 0) eqn:E0; bool_to_prop.
  { assert (b = []) as -> by (destruct b; [done | cbn in E0; lia]).
    exists s. rewrite splice_nil by (cbn in *; nia). done. }
  pose proof (rep_page _ _ Hr) as Hps. pose proof (rep_size _ _ Hr) as Hs.
  destruct (GetPage_spec s d pn Hr Hpn ltac:(lia)) as (b0&s1&E1&Hr1&Hc1&Hb1&_). mstep E1. rewrite bind_get.
  assert (_pageSize s1 = _pageSize s) as Eps by (by apply config_page).
  pose proof (rep_cache _ _ Hr1 _ _ Hb1) as (_&_&Hbl&_). rewrite Eps in Hbl.
  rewrite Eps, (u32_small (_ - po)) by lia. set (n := Z.min _ _).
  assert (length (take (Z.to_nat n) b) = Z.to_nat n) as Hch by len.
  rewrite (bind_lift_ok _ _ _ (splice b0 po (take (Z.to_nat n) b))) by (apply mem_write_splice; lia).
  rewrite bind_modify.
  destruct (flush_spec s1 d pn b0 po (take (Z.to_nat n) b) Hr1) as (s2&E2&Hr2&Hc2);
    try done; try lia; [by red; rewrite Eps|].
  mstep E2. rewrite u32_small by lia. rewrite Eps in Hr2. destruct (_ =? 0) eqn:E3; bool_to_prop.
  { exists s2. rewrite E3. rewrite take_ge in Hr2 by lia. split_and!; [done..|congruence]. }
  rewrite u32_small by nia.
  assert (_pageSize s2 = _pageSize s) as Eps2 by (rewrite (config_page _ _ Hc2); done).
  replace (Z.of_nat (length b) - n) with (Z.of_nat (length (drop (Z.to_nat n) b))) by len.
  destruct (IH s2 _ (pn + 1) 0 (drop (Z.to_nat n) b) Hr2) as (s3&E4&Hr3&Hc3); rewrite ?Eps2; try lia.
  - red. rewrite Eps2, length_splice by nia. done.
  - rewrite length_drop, length_splice by nia. nia.
  - rewrite length_drop. nia.
  - exists s3. split_and!; [done| |congruence].
    replace ((pn + 1) * _pageSize s2 + 0) with (pn * _pageSize s + po + Z.of_nat (length (take (Z.to_nat n) b))) in Hr3 by nia.
    rewrite splice_app, take_drop in Hr3 by (rewrite ?take_drop; nia). done.
Qed.

(** Writing inside of the file changes these bytes and no others. *)
Lemma Write_spec s d off b :
  represents s d -> aligned s d -> 0 <= off -> off + Z.of_nat (length b) <= Z.of_nat (length d) ->
  exists s', Write off b s = (Ok (Z.of_nat (length b)), s') /\ represents s' (splice d off b) /\ config s' = config s.
Proof.
  intros Hr Ha Ho Hin. unfold Write, PageByOffset. rewrite bind_get.
  pose proof (rep_page _ _ Hr) as Hps. pose proof (rep_size _ _ Hr) as Hs.
  set (n := Z.of_nat (length b)) in *.
  pose proof (Z.div_mod off (_pageSize s) ltac:(lia)) as Ed.
  pose proof (Z.mod_pos_bound off (_pageSize s) (proj1 Hps)) as Hm.
  pose proof (Z.div_mod n (_pageSize s) ltac:(lia)) as En.
  pose proof (Z.mod_pos_bound n (_pageSize s) (proj1 Hps)) as Hmn.
  assert (0 <= n / _pageSize s) by (apply Z.div_pos; lia).
  destruct (write_loop_spec (Z.to_nat (n / _pageSize s) + 2) s d (off / _pageSize s) (off mod _pageSize s) b Hr Ha)
    as (s'&E&Hr'&Hc'); fold n; try lia; try nia.
  fold n in E. mstep E. exists s'. replace (_ * _ + _) with off in Hr' by lia.
  rewrite Z.sub_0_r, u32_small by lia. auto.
Qed.

(** Growing adds pages at the end; the cache is still right. *)
Lemma GrowFile_spec s d pages :
  represents s d -> aligned s d -> 0 <= pages -> Z.of_nat (length d) + pages * _pageSize s < 2 ^ 32 ->
  exists s', GrowFile pages s = (Ok tt, s') /\ config s' = config s /\
    represents s' (d ++ replicate (Z.to_nat (pages * _pageSize s)) LOGDB_UNINITIALIZED_BYTE).
Proof.
  intros Hr Ha Hp Hsz. pose proof Hr as [Hd Hs Hps Hm Hf Hn Hl Hc].
  destruct (file_data_inv _ _ Hd) as (name&E1&E2&E3).
  unfold GrowFile. rewrite bind_get.
  erewrite (bind_on_file file_GetFileSize) by (unfold file_GetFileSize; rewrite Hd; done).
  erewrite (bind_on_file (file_SetPointer _)) by done.
  rewrite (u32_small (Z.of_nat _)), u32_small by nia.
  unfold on_file, mbind, M_bind, file_Write. cbn [file set_file _file opened position files]. rewrite E1.
  replace (file_data _) with (Some d) by (unfold file_data; cbn; rewrite E2; cbn; by rewrite E3).
  set (b := replicate _ _).
  assert (splice d (Z.of_nat (length d)) b = d ++ b) as Esp.
  { unfold splice. rewrite Nat2Z.id, Nat.sub_diag, take_ge, drop_ge by lia. cbn. by rewrite app_nil_r. }
  rewrite Esp. eexists. split; [done|].
  split; [unfold config; cbn; rewrite E1, delete_insert_eq; done|].
  assert (Z.of_nat (length b) = pages * _pageSize s) as Hb by (unfold b; rewrite length_replicate; nia).
  split; cbn [file set_file _pageSize _cacheMaxPages _currentCachePagesList _cache]; try done.
  - unfold file_data. cbn. rewrite E2. apply lookup_insert_eq.
  - rewrite length_app. lia.
  - intros p bp Hpb. destruct (Hc _ _ Hpb) as (H1&H2&H3&H4).
    pose proof (aligned_page _ _ _ Ha (proj1 Hps) H2) as Hpg.
    split_and!; [done|rewrite length_app; nia|done|].
    rewrite take_ge in H4 by lia. rewrite take_ge by (rewrite length_app; lia). rewrite H4.
    unfold slice. rewrite drop_app_le, take_app_le by (rewrite ?length_drop; nia). done.
Qed.

(** A new page size empties the cache. *)
Lemma SetPageSize_spec s d ps :
  represents s d -> _cacheInMegabytes s = 4 -> 0 < ps <= 4 * 1024 * 1024 ->
  exists s', SetPageSize ps s = (Ok tt, s') /\ represents s' d /\ _pageSize s' = ps /\
    _cacheInMegabytes s' = 4 /\ memory s' = memory s /\ file s' = file s.
Proof.
  intros [Hd Hs Hp Hm Hf Hn Hl Hc] Hmb Hps. unfold SetPageSize, FreeCache. rewrite bind_modify.
  rewrite (bind_lift_ok _ _ _ tt) by (unfold require; by ztest).
  eexists. split; [done|]. cbn. rewrite Hmb. split_and!; try done.
  assert (1 <= u32 (4 * 1024 * 1024) / ps) by (apply Z.div_le_lower_bound; [lia|vm_compute (u32 _); lia]).
  split; cbn; try done; try lia; [apply NoDup_nil_2|intros p; rewrite lookup_empty; split; [by intros ?%elem_of_nil|by intros [? ?]]].
Qed.

(** The cache of a file that has just been opened is empty. *)
Lemma represents_open s f d :
  _file (file s) = Some f -> opened (file s) = true -> files (file s) !! f = Some d -> Z.of_nat (length d) < 2 ^ 32 ->
  0 < _pageSize s < 2 ^ 32 -> 1 <= _cacheMaxPages s -> _cache s = ∅ -> _currentCachePagesList s = [] -> represents s d.
Proof.
  intros E1 E2 E3 Hd Hp Hm Ec El. split; rewrite ?El, ?Ec; try done.
  - unfold file_data. rewrite E2, E1. done.
  - cbn. lia.
  - constructor.
  - intros p. rewrite lookup_empty. split; [by intros ?%elem_of_nil|by intros [? ?]].
Qed.

(** ** The file as an array *)

Inductive access := ReadAt (off n : Z) | WriteAt (off : Z) (b : bytes) | Grow (pages : Z).

(** What the accesses of a program read. *)
Fixpoint accesses (l : list access) : M PagedFile (list bytes) :=
  match l with
  | [] => mret []
  | ReadAt off n :: l => '(_, b) ← Read off n; bs ← accesses l; mret (b :: bs)
  | WriteAt off b :: l => _ ← Write off b; accesses l
  | Grow pages :: l => _ ← GrowFile pages; accesses l
  end.

(** The same on an array of bytes. *)
Definition access_array (a : access) (d : bytes) : bytes :=
  match a with
  | ReadAt _ _ => d
  | WriteAt off b => splice d off b
  | Grow pages => d ++ replicate (Z.to_nat (pages * 4096)) LOGDB_UNINITIALIZED_BYTE
  end.

Fixpoint array_reads (l : list access) (d : bytes) : list bytes :=
  match l with
  | [] => []
  | a :: l => (match a with ReadAt off n => [slice d off n] | _ => [] end) ++ array_reads l (access_array a d)
  end.

Definition array_after (l : list access) (d : bytes) : bytes := foldl (fun d a => access_array a d) d l.

(** Accesses inside of the file, which stays below 4 GB. *)
Definition access_ok (a : access) (d : bytes) : Prop :=
  match a with
  | ReadAt off n => 0 <= off /\ 0 <= n /\ off + n <= Z.of_nat (length d)
  | WriteAt off b => 0 <= off /\ off + Z.of_nat (length b) <= Z.of_nat (length d)
  | Grow pages => 0 <= pages /\ Z.of_nat (length d) + pages * 4096 < 2 ^ 32
  end.

Fixpoint accesses_ok (l : list access) (d : bytes) : Prop :=
  match l with
  | [] => True
  | a :: l => access_ok a d /\ accesses_ok l (access_array a d)
  end.

Lemma accesses_spec : forall l s d,
  represents s d -> _pageSize s = 4096 -> aligned s d -> accesses_ok l d ->
  exists s', accesses l s = (Ok (array_reads l d), s') /\ represents s' (array_after l d) /\ config s' = config s.
Proof.
  induction l as [|a l IH]; intros s d Hr Hp Ha Hl; [by exists s|]. destruct Hl as [H1 Hl].
  destruct a as [off n|off b|pages]; cbn [accesses access_ok access_array array_reads app] in *.
  - destruct (Read_spec s d off n Hr) as (s1&E1&R1&C1&_); [tauto..|]. mstep E1.
    destruct (IH s1 d R1) as (s2&E2&R2&C2); [by rewrite (config_page _ _ C1)|red; by rewrite (config_page _ _ C1)|done|].
    mstep E2. exists s2. split_and!; try done. congruence.
  - destruct (Write_spec s d off b Hr Ha) as (s1&E1&R1&C1); [tauto..|]. mstep E1.
    destruct (IH s1 _ R1) as (s2&E2&R2&C2); [by rewrite (config_page _ _ C1)| |done|].
    + red. rewrite (config_page _ _ C1), length_splice by tauto. done.
    + exists s2. split_and!; try done. congruence.
  - destruct (GrowFile_spec s d pages Hr Ha) as (s1&E1&C1&R1); [tauto|rewrite Hp; tauto|]. mstep E1. rewrite Hp in R1.
    destruct (IH s1 _ R1) as (s2&E2&R2&C2); [by rewrite (config_page _ _ C1)| |done|].
    + red. rewrite (config_page _ _ C1), length_app, Nat2Z.inj_add. apply Z.divide_add_r; [done|].
      rewrite length_replicate, Z2Nat.id, Hp by lia. by exists pages.
    + exists s2. split_and!; try done. congruence.
Qed.

(** ** Properties *)

(** C21. A paged file is an array of bytes.  A file of whole pages is opened and its
    bytes are read, overwritten and added to, in any order and across page
    borders, with pages coming and going in the cache.  Every read gives what
    an array would have there, the file on disk always has all that was
    written, the other files are untouched, and the cache keeps to its limit
    of 4 MB. *)
Theorem paged_file_refines_array disk junk name d l :
  disk !! name = Some d -> (4096 | Z.of_nat (length d)) -> Z.of_nat (length d) < 2 ^ 32 -> accesses_ok l d ->
  exists s, (_ ← Create name; accesses l) (make disk junk) = (Ok (array_reads l d), s) /\
    files (file s) !! name = Some (array_after l d) /\ delete name (files (file s)) = delete name disk /\
    Z.of_nat (size (_cache s)) <= 1024.
Proof.
  intros Hd Ha Hs Hl. set (s0 := set_file (mkFile (Some name) true 0 disk) (make disk junk)).
  rewrite (bind_ok _ _ _ true s0) by (unfold Create, on_file, file_Create; cbn; by rewrite Hd).
  assert (represents s0 d) as R0 by (by apply (represents_open _ name)).
  destruct (accesses_spec l s0 d R0) as (s&E&R&C); [done|done|done|]. exists s. split; [done|].
  unfold config in C. injection C as C1 C2 C3 C4 C5 C6 C7. rewrite C5 in C7. cbn in C7.
  destruct (file_data_inv _ _ (rep_data _ _ R)) as (n&N1&_&N2). rewrite C5 in N1. injection N1 as <-.
  split_and!; try done. pose proof (rep_full _ _ R) as Hf. rewrite C2 in Hf. change (_cacheMaxPages s0) with 1024 in Hf.
  rewrite <- (size_list_to_set (C := gset Z) _ (rep_nodup _ _ R)) in Hf. rewrite <- size_dom.
  replace (dom (_cache s)) with (list_to_set (_currentCachePagesList s) : gset Z); [done|].
  apply set_eq. intros p. by rewrite elem_of_list_to_set, (rep_list _ _ R), elem_of_dom.
Qed.

Lemma paged_file_refines_array_witness :
  let d := replicate (Z.to_nat 8192) x00 in let b := lit "over the border" in
  exists s, (_ ← Create (lit "f"); accesses [WriteAt 4090 b; ReadAt 4090 15; Grow 1; ReadAt 8190 4])
      (make {[ lit "f" := d ]} (fun _ _ => xff)) =
    (Ok (array_reads [WriteAt 4090 b; ReadAt 4090 15; Grow 1; ReadAt 8190 4] d), s).
Proof.
  intros d b. assert (Z.of_nat (length d) = 8192) as Hd by (unfold d; rewrite length_replicate; lia).
  assert (Z.of_nat (length b) = 15) as Hb by reflexivity. clearbody b.
  destruct (paged_file_refines_array {[ lit "f" := d ]} (fun _ _ => xff) (lit "f") d
    [WriteAt 4090 b; ReadAt 4090 15; Grow 1; ReadAt 8190 4]) as (s&E&_).
  - by rewrite lookup_singleton_eq.
  - rewrite Hd. by exists 2.
  - lia.
  - assert (length (splice d 4090 b) = length d) as El by (apply length_splice; lia).
    cbn [accesses_ok access_ok access_array]. rewrite length_app, length_replicate, El. lia.
  - by exists s.
Defined.

End LogFile.
