(* ===== verification/LogDb.v ===== *)
(** * The log database: [server/tio/logdb.h], class [Ldb]

    Tables of records in one file.  Each table is a chain of blocks of log
    records; a log record says what was done to the table (append, insert, set,
    delete, clear) and where in the file its key, value and metadata are.  The
    records a table has are what replaying its log gives, and the tables are the
    records of the metatable: the key is the name, the value the first block.
    A [TABLE_INFO*] is [Metatable] or the [Table] with a name, an element of the
    map [_tables].  An [LdbData] is its bytes, and a [const LdbData*] is [None]
    for NULL.  A [TABLE_INFO] that a function changes through its pointer is
    passed and returned.  [CheckUnitialized] has an effect only in debug
    builds of another compiler and is left out. *)
From S2P Require Import Prelude StdMap LogFile.

Module LogDb.
Import StdMap LogFile.

(** ** Data *)

Record LDB_FILE_HEADER := mkFileHeader { magic : Z; version : Z; flags : Z; tableBlockOffset : Z }.

Record LDB_BLOCK_HEADER := mkBlockHeader { block_size : Z; usedCount : Z; nextBlockOffset : Z }.

Record LDB_BLOCK_HEADER_INFO := mkBlockInfo { blockHeader : LDB_BLOCK_HEADER; offset : Z }.

Record LDB_LOG_RECORD_FIELD := mkField { dataOffset : Z; dataSize : Z; hash : Z }.

Record LDB_LOG_RECORD := mkRecord {
  operation : Z;
  recordIndex : Z;
  recordID : Z;
  key : LDB_LOG_RECORD_FIELD;
  value : LDB_LOG_RECORD_FIELD;
  metadata : LDB_LOG_RECORD_FIELD
}.

Definition LDB_MAGIC : Z := 0x00BABACA.
Definition OPERATION_APPEND : Z := 1.
Definition OPERATION_INSERT : Z := 2.
Definition OPERATION_SET : Z := 3.
Definition OPERATION_DELETE : Z := 4.
Definition OPERATION_CLEAR : Z := 5.
Definition LDB_INVALID_RECNO : Z := 0xFFFFFFFF.

Definition sizeof_FILE_HEADER : Z := 16.
Definition sizeof_BLOCK_HEADER : Z := 12.
Definition sizeof_LOG_RECORD : Z := 48.

(** The structs as bytes: numbers of 32 bits, without padding. *)
Definition dwords (l : list Z) : bytes := l ≫= le_encode 4.

Definition dword (b : bytes) (i : nat) : Z := le_decode (take 4 (drop (4 * i) b)).

Definition encode_file_header (h : LDB_FILE_HEADER) : bytes :=
  dwords [magic h; version h; flags h; tableBlockOffset h].

Definition decode_file_header (b : bytes) : LDB_FILE_HEADER :=
  mkFileHeader (dword b 0) (dword b 1) (dword b 2) (dword b 3).

Definition encode_block_header (h : LDB_BLOCK_HEADER) : bytes :=
  dwords [block_size h; usedCount h; nextBlockOffset h].

Definition decode_block_header (b : bytes) : LDB_BLOCK_HEADER :=
  mkBlockHeader (dword b 0) (dword b 1) (dword b 2).

Definition field_dwords (f : LDB_LOG_RECORD_FIELD) : list Z := [dataOffset f; dataSize f; hash f].

Definition encode_record (r : LDB_LOG_RECORD) : bytes :=
  dwords ([operation r; recordIndex r; recordID r] ++
    field_dwords (key r) ++ field_dwords (value r) ++ field_dwords (metadata r)).

Definition decode_field (b : bytes) (i : nat) : LDB_LOG_RECORD_FIELD :=
  mkField (dword b i) (dword b (i + 1)) (dword b (i + 2)).

Definition decode_record (b : bytes) : LDB_LOG_RECORD :=
  mkRecord (dword b 0) (dword b 1) (dword b 2) (decode_field b 3) (decode_field b 6) (decode_field b 9).

Record TABLE_INFO := mkTable {
  name : bytes;
  lastBlockHeaderInfo : LDB_BLOCK_HEADER_INFO;
  records : list LDB_LOG_RECORD
}.

Record Ldb := mkLdb {
  pages : PagedFile;
  _header : LDB_FILE_HEADER;
  _nextDataOffset : Z;
  _growPagesStep : Z;
  _defaultBlockSize : Z;
  _totalRecordCount : Z;
  _totalLogRecordCount : Z;
  _lastRecordID : Z;
  _metatable : TABLE_INFO;
  _tables : list (bytes * TABLE_INFO)
}.

Inductive table_ptr := Metatable | Table (n : bytes).

Definition zero_field : LDB_LOG_RECORD_FIELD := mkField 0 0 0.
Definition zero_info : LDB_BLOCK_HEADER_INFO := mkBlockInfo (mkBlockHeader 0 0 0) 0.
Definition zero_header : LDB_FILE_HEADER := mkFileHeader 0 0 0 0.

(** The constructor; [garbage] is in the numbers it does not set. *)
Definition make (disk : gmap bytes bytes) (junk : Z -> nat -> Byte.byte) (garbage : Z) : Ldb :=
  let p := LogFile.make disk junk in
  mkLdb p (mkFileHeader garbage garbage garbage garbage) garbage (u32 (4 * 1024 * 1024) / _pageSize p) 4096 0 garbage 0
    (mkTable [] (mkBlockInfo (mkBlockHeader garbage garbage garbage) garbage) []) [].

Definition set_pages (p : PagedFile) (s : Ldb) : Ldb :=
  mkLdb p (_header s) (_nextDataOffset s) (_growPagesStep s) (_defaultBlockSize s) (_totalRecordCount s)
    (_totalLogRecordCount s) (_lastRecordID s) (_metatable s) (_tables s).

Definition set_header (h : LDB_FILE_HEADER) (s : Ldb) : Ldb :=
  mkLdb (pages s) h (_nextDataOffset s) (_growPagesStep s) (_defaultBlockSize s) (_totalRecordCount s)
    (_totalLogRecordCount s) (_lastRecordID s) (_metatable s) (_tables s).

Definition set_next (n : Z) (s : Ldb) : Ldb :=
  mkLdb (pages s) (_header s) n (_growPagesStep s) (_defaultBlockSize s) (_totalRecordCount s)
    (_totalLogRecordCount s) (_lastRecordID s) (_metatable s) (_tables s).

Definition set_counts (total log last : Z) (s : Ldb) : Ldb :=
  mkLdb (pages s) (_header s) (_nextDataOffset s) (_growPagesStep s) (_defaultBlockSize s) total log last
    (_metatable s) (_tables s).

Definition set_metatable (t : TABLE_INFO) (s : Ldb) : Ldb :=
  mkLdb (pages s) (_header s) (_nextDataOffset s) (_growPagesStep s) (_defaultBlockSize s) (_totalRecordCount s)
    (_totalLogRecordCount s) (_lastRecordID s) t (_tables s).

Definition set_tables (ts : list (bytes * TABLE_INFO)) (s : Ldb) : Ldb :=
  mkLdb (pages s) (_header s) (_nextDataOffset s) (_growPagesStep s) (_defaultBlockSize s) (_totalRecordCount s)
    (_totalLogRecordCount s) (_lastRecordID s) (_metatable s) ts.

Definition set_grow (n : Z) (s : Ldb) : Ldb :=
  mkLdb (pages s) (_header s) (_nextDataOffset s) n (_defaultBlockSize s) (_totalRecordCount s)
    (_totalLogRecordCount s) (_lastRecordID s) (_metatable s) (_tables s).

Definition set_info (i : LDB_BLOCK_HEADER_INFO) (t : TABLE_INFO) : TABLE_INFO := mkTable (name t) i (records t).
Definition set_records (rs : list LDB_LOG_RECORD) (t : TABLE_INFO) : TABLE_INFO := mkTable (name t) (lastBlockHeaderInfo t) rs.

(** A call of [_file]. *)
Definition on_pages {A} (m : M PagedFile A) : M Ldb A := fun s =>
  let '(r, p) := m (pages s) in (r, set_pages p s).

(** What a pointer to a table leads to. *)
Definition deref (p : table_ptr) : M Ldb TABLE_INFO :=
  s ← get;
  match p with
  | Metatable => mret (_metatable s)
  | Table n => match find n (_tables s) with Some t => mret t | None => throw (Fault UseAfterFree) end
  end.

Definition store (p : table_ptr) (t : TABLE_INFO) : M Ldb unit :=
  modify (fun s => match p with
                   | Metatable => set_metatable t s
                   | Table n => set_tables (assign_at n t (_tables s)) s
                   end).

(** ** Space and data *)

Definition DoHash (b : bytes) : Z := foldl (fun h x => Z.lxor h (byte_Z x)) 2 b.

Definition LeaveRoom (size : Z) : M Ldb unit :=
  s ← get;
  let n := u32 (size / _pageSize (pages s) + 1) in
  on_pages (GrowFile (if n <? _growPagesStep s then _growPagesStep s else n)).

Definition EnsureSpace (size : Z) : M Ldb unit :=
  fileSize ← on_pages GetFileSize;
  s ← get;
  let space := u32 (fileSize - _nextDataOffset s) in
  if space <? size then LeaveRoom (u32 (size - space)) else mret tt.

Definition WriteLdbData (ldbData : bytes) : M Ldb LDB_LOG_RECORD_FIELD :=
  s ← get;
  let size := u32 (Z.of_nat (length ldbData)) in
  let field := mkField (_nextDataOffset s) size (DoHash ldbData) in
  _ ← EnsureSpace size;
  fileSize ← on_pages GetFileSize;
  _ ← lift (assert_ (negb (_nextDataOffset s =? 0) && (_nextDataOffset s <? fileSize)));
  _ ← on_pages (Write (_nextDataOffset s) ldbData);
  _ ← modify (set_next (u32 (_nextDataOffset s + size)));
  mret field.

(** [if(data) WriteLdbData(data, &field)] on a field that is zero. *)
Definition write_field (data : option bytes) : M Ldb LDB_LOG_RECORD_FIELD :=
  match data with Some b => WriteLdbData b | None => mret zero_field end.

(** [CalculateAddedFieldPos] and [WriteLogRecordFieldData] have no caller; writing a
    field in two steps moves [_nextDataOffset] twice. *)
Definition CalculateAddedFieldPos (data : option bytes) : M Ldb (Z * LDB_LOG_RECORD_FIELD) :=
  let size := u32 (Z.of_nat (length (default [] data))) in
  if size =? 0 then mret (0, zero_field) else
  s ← get;
  _ ← modify (set_next (u32 (_nextDataOffset s + size)));
  mret (size, mkField (_nextDataOffset s) size (DoHash (default [] data))).

Definition WriteLogRecordFieldData (field : LDB_LOG_RECORD_FIELD) (buffer : option bytes) : M Ldb unit :=
  match buffer with
  | None => mret tt
  | Some b =>
      if dataSize field =? 0 then mret tt else
      fileSize ← on_pages GetFileSize;
      _ ← lift (assert_ (negb (dataOffset field =? 0) && (dataOffset field <? fileSize)));
      b ← lift (mem_read b 0 (dataSize field));
      _ ← on_pages (Write (dataOffset field) b);
      modify (fun s => set_next (u32 (_nextDataOffset s + dataSize field)) s)
  end.

Definition CheckNeedForNewBlock (currentBlock : LDB_BLOCK_HEADER) : bool :=
  let nextRecordOffset := u32 (sizeof_FILE_HEADER + usedCount currentBlock * sizeof_LOG_RECORD) in
  let spaceLeftInThisBlock := u32 (block_size currentBlock - nextRecordOffset) in
  spaceLeftInThisBlock <? sizeof_LOG_RECORD.

(** The current block, with its new successor if there is one. *)
Definition CreateNewBlockIfNeeded (currentInfo : LDB_BLOCK_HEADER_INFO) :
    M Ldb (LDB_BLOCK_HEADER_INFO * option LDB_BLOCK_HEADER_INFO) :=
  let currentBlock := blockHeader currentInfo in
  if negb (CheckNeedForNewBlock currentBlock) then mret (currentInfo, None) else
  _ ← EnsureSpace (block_size currentBlock);
  let newBlock := mkBlockHeader (block_size currentBlock) 0 0 in
  fileSize ← on_pages GetFileSize;
  s ← get;
  _ ← lift (assert_ (negb (_nextDataOffset s =? 0) && (_nextDataOffset s <? fileSize)));
  _ ← on_pages (Write (_nextDataOffset s) (encode_block_header newBlock));
  _ ← modify (set_next (u32 (_nextDataOffset s + block_size newBlock)));
  mret (mkBlockInfo (mkBlockHeader (block_size currentBlock) (usedCount currentBlock) (_nextDataOffset s)) (offset currentInfo),
        Some (mkBlockInfo newBlock (_nextDataOffset s))).

(** ** Writing the log *)

Definition CheckIndex (t : TABLE_INFO) (index : Z) : bool := index <? Z.of_nat (length (records t)).

(** [v[i] = x] and the other calls of [std::vector] that need a valid position. *)
Definition vector_set {A} (l : list A) (i : Z) (x : A) : res (list A) :=
  if i <? Z.of_nat (length l) then Ok (<[Z.to_nat i := x]> l) else Throw (Fault OutOfBounds).

Definition vector_insert {A} (l : list A) (i : Z) (x : A) : res (list A) :=
  if i <=? Z.of_nat (length l) then Ok (take (Z.to_nat i) l ++ x :: drop (Z.to_nat i) l) else Throw (Fault OutOfBounds).

Definition vector_erase {A} (l : list A) (i : Z) : res (list A) :=
  if i <? Z.of_nat (length l) then Ok (take (Z.to_nat i) l ++ drop (S (Z.to_nat i)) l) else Throw (Fault OutOfBounds).

(** The switch at the end of [AppendLogRecord]: the change of [records], and of the
    number of records of all tables. *)
Definition change_records (op idx : Z) (r : LDB_LOG_RECORD) (rs : list LDB_LOG_RECORD) :
    res (list LDB_LOG_RECORD * Z) :=
  if op =? OPERATION_APPEND then Ok (rs ++ [r], 1)
  else if op =? OPERATION_SET then rs ← vector_set rs idx r; Ok (rs, 0)
  else if op =? OPERATION_INSERT then
    (if idx =? Z.of_nat (length rs) then Ok (rs ++ [r], 1) else rs ← vector_insert rs idx r; Ok (rs, 1))
  else if op =? OPERATION_DELETE then rs ← vector_erase rs idx; Ok (rs, -1)
  else if op =? OPERATION_CLEAR then Ok ([], - Z.of_nat (length rs))
  else Ok (rs, 0).

(** In a set record the fields that are not given are those of the record. *)
Definition keep_fields (op idx : Z) (k v m : option bytes) (rs : list LDB_LOG_RECORD) (r : LDB_LOG_RECORD) :
    res LDB_LOG_RECORD :=
  if negb (op =? OPERATION_SET) then Ok r else
  match rs !! Z.to_nat idx with
  | None => Throw (Fault OutOfBounds)
  | Some old =>
      let pick (o : option bytes) (new kept : LDB_LOG_RECORD_FIELD) := match o with Some _ => new | None => kept end in
      Ok (mkRecord (operation r) (recordIndex r) (recordID r)
        (pick k (key r) (key old)) (pick v (value r) (value old)) (pick m (metadata r) (metadata old)))
  end.

(** [AppendLogRecord] from the log record on, when the data has been written and
    its block is known. *)
Definition finish_record (t : TABLE_INFO) (op idx : Z) (r : LDB_LOG_RECORD) (info : LDB_BLOCK_HEADER_INFO)
    (newInfo : option LDB_BLOCK_HEADER_INFO) : M Ldb (bool * TABLE_INFO) :=
  let current := default info newInfo in
  let header := blockHeader current in
  let logRecordOffset := u32 (offset current + sizeof_BLOCK_HEADER + u32 (sizeof_LOG_RECORD * usedCount header)) in
  let current := mkBlockInfo (mkBlockHeader (block_size header) (u32 (usedCount header + 1)) (nextBlockOffset header)) (offset current) in
  fileSize ← on_pages GetFileSize;
  _ ← lift (assert_ (negb (logRecordOffset =? 0) && negb (offset current =? 0) &&
    (logRecordOffset <? fileSize) && (offset current <? fileSize)));
  _ ← on_pages (Write logRecordOffset (encode_record r));
  _ ← on_pages (Write (offset current) (encode_block_header (blockHeader current)));
  _ ← match newInfo with
      | None => mret tt
      | Some _ =>
          fileSize ← on_pages GetFileSize;
          _ ← lift (assert_ (negb (offset info =? 0) && (offset info <? fileSize)));
          _ ← on_pages (Write (offset info) (encode_block_header (blockHeader info)));
          mret tt
      end;
  '(rs, diff) ← lift (change_records op idx r (records t));
  _ ← modify (fun s => set_counts (u32 (_totalRecordCount s + diff)) (u32 (_totalLogRecordCount s + 1)) (_lastRecordID s) s);
  mret (true, mkTable (name t) current rs).

Definition AppendLogRecord (t : TABLE_INFO) (op idx : Z) (k v m : option bytes) : M Ldb (bool * TABLE_INFO) :=
  _ ← lift (assert_ ((op =? OPERATION_CLEAR) || ((op =? OPERATION_INSERT) && (idx =? 0)) ||
    (op =? OPERATION_APPEND) || CheckIndex t idx));
  _ ← modify (fun s => set_counts (_totalRecordCount s) (_totalLogRecordCount s) (u32 (_lastRecordID s + 1)) s);
  s0 ← get;
  '(info, newInfo) ← CreateNewBlockIfNeeded (lastBlockHeaderInfo t);
  fk ← write_field k;
  fv ← write_field v;
  fm ← write_field m;
  r ← lift (keep_fields op idx k v m (records t) (mkRecord op idx (_lastRecordID s0) fk fv fm));
  finish_record t op idx r info newInfo.

(** A change of the table behind a pointer. *)
Definition append_log_record (p : table_ptr) (op idx : Z) (k v m : option bytes) : M Ldb bool :=
  t ← deref p;
  '(b, t) ← AppendLogRecord t op idx k v m;
  _ ← store p t;
  mret b.

(** ** Reading *)

Definition ReadField (f : LDB_LOG_RECORD_FIELD) : M Ldb bytes :=
  '(_, b) ← on_pages (Read (dataOffset f) (dataSize f));
  mret b.

(** [if(data && field.dataSize) ReadField(&field, data)]: the bytes [data] has
    afterwards. *)
Definition read_field (data : option bytes) (f : LDB_LOG_RECORD_FIELD) : M Ldb (option bytes) :=
  match data with
  | None => mret None
  | Some b => if dataSize f =? 0 then mret (Some b) else b ← ReadField f; mret (Some b)
  end.

(** [GetByIndex], with the contents of its output arguments before and after. *)
Definition GetByIndex (p : table_ptr) (index : Z) (k v m : option bytes) :
    M Ldb (Z * (option bytes * option bytes * option bytes)) :=
  t ← deref p;
  if Z.of_nat (length (records t)) <? u32 (index + 1) then mret (LDB_INVALID_RECNO, (k, v, m)) else
  match records t !! Z.to_nat index with
  | None => throw (Fault OutOfBounds)
  | Some r =>
      k ← read_field k (key r);
      v ← read_field v (value r);
      m ← read_field m (metadata r);
      mret (index, (k, v, m))
  end.

(** The loop of [FindKey] from index [a] on, over the records [rs] there. *)
Fixpoint find_key_loop (p : table_ptr) (k : bytes) (a : Z) (rs : list LDB_LOG_RECORD) : M Ldb Z :=
  match rs with
  | [] => mret LDB_INVALID_RECNO
  | r :: rs =>
      let size := u32 (Z.of_nat (length k)) in
      if negb (dataSize (key r) =? size) || negb (hash (key r) =? DoHash k) then find_key_loop p k (a + 1) rs else
      '(index, (fromDb, _, _)) ← GetByIndex p a (Some []) None None;
      let fromDb := default [] fromDb in
      _ ← lift (assert_ ((index =? a) && (u32 (Z.of_nat (length fromDb)) =? size)));
      if bool_decide (k = fromDb) then mret a else find_key_loop p k (a + 1) rs
  end.

Definition FindKey (p : table_ptr) (startIndex : Z) (k : bytes) : M Ldb Z :=
  t ← deref p;
  if negb (CheckIndex t startIndex) then mret LDB_INVALID_RECNO else
  find_key_loop p k startIndex (drop (Z.to_nat startIndex) (records t)).

Definition Get (p : table_ptr) (startIndex : Z) (k : bytes) (v m : option bytes) :
    M Ldb (Z * (option bytes * option bytes)) :=
  index ← FindKey p startIndex k;
  if index =? LDB_INVALID_RECNO then mret (index, (v, m)) else
  '(index, (_, v, m)) ← GetByIndex p index None v m;
  _ ← lift (assert_ (negb (index =? LDB_INVALID_RECNO)));
  mret (index, (v, m)).

Definition GetRecordCount (p : table_ptr) : M Ldb Z :=
  t ← deref p; mret (u32 (Z.of_nat (length (records t)))).

(** [GetRecordSizes]: the sizes if they are given out. *)
Definition GetRecordSizes (p : table_ptr) (index : Z) : M Ldb (option (Z * Z * Z)) :=
  t ← deref p;
  if u32 (index + 1) <? Z.of_nat (length (records t)) then mret None else
  match records t !! Z.to_nat index with
  | None => throw (Fault OutOfBounds)
  | Some r => mret (Some (dataSize (key r), dataSize (value r), dataSize (metadata r)))
  end.

(** ** Changing tables *)

Definition Append (p : table_ptr) (k v m : option bytes) : M Ldb Z :=
  t ← deref p;
  let index := u32 (Z.of_nat (length (records t))) in
  b ← append_log_record p OPERATION_APPEND index k v m;
  if negb (b : bool) then mret LDB_INVALID_RECNO else mret index.

Definition ClearAllRecords (p : table_ptr) : M Ldb unit :=
  b ← append_log_record p OPERATION_CLEAR 0 None None None;
  lift (assert_ b).

Definition SetByIndex (p : table_ptr) (index : Z) (k v m : option bytes) : M Ldb Z :=
  t ← deref p;
  if negb (CheckIndex t index) then mret LDB_INVALID_RECNO else
  b ← append_log_record p OPERATION_SET index k v m;
  if negb (b : bool) then mret LDB_INVALID_RECNO else mret index.

Definition Set_ (p : table_ptr) (startIndex : Z) (k : bytes) (v m : option bytes) : M Ldb Z :=
  index ← FindKey p startIndex k;
  if index =? LDB_INVALID_RECNO then Append p (Some k) v m else SetByIndex p index (Some k) v m.

Definition DeleteByIndex (p : table_ptr) (index : Z) : M Ldb Z :=
  t ← deref p;
  if negb (CheckIndex t index) then mret LDB_INVALID_RECNO else
  b ← append_log_record p OPERATION_DELETE index None None None;
  if negb (b : bool) then mret LDB_INVALID_RECNO else mret index.

Definition Delete (p : table_ptr) (startIndex : Z) (k : bytes) : M Ldb Z :=
  index ← FindKey p startIndex k;
  if index =? LDB_INVALID_RECNO then mret index else DeleteByIndex p index.

Definition InsertByIndex (p : table_ptr) (index : Z) (k v m : option bytes) : M Ldb Z :=
  t ← deref p;
  if negb (index =? 0) && negb (CheckIndex t index) then mret LDB_INVALID_RECNO else
  b ← append_log_record p OPERATION_INSERT index k v m;
  if negb (b : bool) then mret LDB_INVALID_RECNO else mret index.

(** ** Tables *)

Definition GetTableList : M Ldb (list bytes) := s ← get; mret (_tables s).*1.

Definition OpenTable (n : bytes) : M Ldb (option table_ptr) :=
  s ← get; mret (match find n (_tables s) with Some _ => Some (Table n) | None => None end).

Definition CreateTable (n : bytes) : M Ldb table_ptr :=
  s ← get;
  index ← FindKey Metatable 0 n;
  match find n (_tables s) with
  | Some _ => _ ← lift (assert_ (negb (index =? LDB_INVALID_RECNO))); mret (Table n)
  | None =>
      _ ← lift (assert_ (index =? LDB_INVALID_RECNO));
      let header := mkBlockHeader (_defaultBlockSize s) 0 0 in
      _ ← store (Table n) (mkTable n (mkBlockInfo header 0) []);
      let buffer := encode_block_header header ++
        replicate (Z.to_nat (_defaultBlockSize s - sizeof_BLOCK_HEADER)) LOGDB_UNINITIALIZED_BYTE in
      index ← Append Metatable (Some n) (Some buffer) None;
      meta ← deref Metatable;
      match records meta !! Z.to_nat index with
      | None => throw (Fault AssertFail)
      | Some r =>
          let info := mkBlockInfo header (dataOffset (value r)) in
          _ ← store (Table n) (mkTable n info []);
          fileSize ← on_pages GetFileSize;
          _ ← lift (assert_ ((0 <? offset info) && (offset info <? fileSize)));
          mret (Table n)
      end
  end.

Definition DeleteTable (p : table_ptr) : M Ldb bool :=
  t ← deref p;
  index ← FindKey Metatable 0 (name t);
  if index =? LDB_INVALID_RECNO then mret false else
  _ ← DeleteByIndex Metatable index;
  _ ← modify (fun s => set_tables (erase (name t) (_tables s)) s);
  mret true.

(** ** Loading *)

(** The end of the field written last. *)
Definition record_end (r : LDB_LOG_RECORD) : Z :=
  let stop (f : LDB_LOG_RECORD_FIELD) := u32 (dataOffset f + dataSize f) in
  if dataOffset (value r) <? dataOffset (key r) then
    (if dataOffset (metadata r) <? dataOffset (key r) then stop (key r) else stop (metadata r))
  else
    (if dataOffset (metadata r) <? dataOffset (value r) then stop (value r) else stop (metadata r)).

(** The switch of [LoadBlock]: the new records, and the change of their number. *)
Definition replay_record (r : LDB_LOG_RECORD) (rs : list LDB_LOG_RECORD) : list LDB_LOG_RECORD * Z :=
  let idx := recordIndex r in
  if operation r =? OPERATION_APPEND then (rs ++ [r], 1)
  else if operation r =? OPERATION_SET then
    (if idx <? Z.of_nat (length rs) then (<[Z.to_nat idx := r]> rs, 0) else (rs, 0))
  else if operation r =? OPERATION_CLEAR then ([], - Z.of_nat (length rs))
  else if operation r =? OPERATION_INSERT then
    let '(rs, n) := if idx =? Z.of_nat (length rs) then (rs ++ [r], 1) else (rs, 0) in
    (if idx <? Z.of_nat (length rs) then (take (Z.to_nat idx) rs ++ r :: drop (Z.to_nat idx) rs, n + 1) else (rs, n))
  else if operation r =? OPERATION_DELETE then
    (if idx <? Z.of_nat (length rs) then (take (Z.to_nat idx) rs ++ drop (S (Z.to_nat idx)) rs, -1) else (rs, 0))
  else (rs, 0).

(** The body of the loop of [LoadBlock]. *)
Definition load_record (t : TABLE_INFO) (r : LDB_LOG_RECORD) : M Ldb TABLE_INFO :=
  let '(rs, diff) := replay_record r (records t) in
  _ ← modify (fun s => set_counts (u32 (_totalRecordCount s + diff)) (u32 (_totalLogRecordCount s + 1))
        (if _lastRecordID s <? recordID r then recordID r else _lastRecordID s) s);
  let next := record_end r in
  _ ← lift (assert_ ((operation r =? OPERATION_DELETE) || (operation r =? OPERATION_CLEAR) || negb (next =? 0)));
  _ ← modify (fun s => if _nextDataOffset s <? next then set_next next s else s);
  mret (set_records rs t).

Fixpoint load_records (t : TABLE_INFO) (l : list LDB_LOG_RECORD) : M Ldb TABLE_INFO :=
  match l with
  | [] => mret t
  | r :: l => t ← load_record t r; load_records t l
  end.

(** The records of an array of bytes. *)
Fixpoint decode_records (n : nat) (b : bytes) : list LDB_LOG_RECORD :=
  match n with
  | O => []
  | S n => decode_record (take 48 b) :: decode_records n (drop 48 b)
  end.

(** The records that are read; a size that wraps around leaves some unread. *)
Definition LoadLogRecords (info : LDB_BLOCK_HEADER_INFO) : M Ldb (list LDB_LOG_RECORD) :=
  let recordBufferSize := u32 (usedCount (blockHeader info) * sizeof_LOG_RECORD) in
  '(_, b) ← on_pages (Read (u32 (offset info + sizeof_BLOCK_HEADER)) recordBufferSize);
  mret (decode_records (Z.to_nat (recordBufferSize / sizeof_LOG_RECORD)) b).

(** The other [LoadBlock], which reads only the header and has no caller. *)
Definition LoadBlockHeader (info : LDB_BLOCK_HEADER_INFO) : M Ldb (bool * LDB_BLOCK_HEADER_INFO) :=
  '(n, b) ← on_pages (Read (offset info) sizeof_BLOCK_HEADER);
  mret (negb (n =? 0), mkBlockInfo (decode_block_header b) (offset info)).

Definition LoadBlock (t : TABLE_INFO) : M Ldb TABLE_INFO :=
  let off := offset (lastBlockHeaderInfo t) in
  '(_, b) ← on_pages (Read off sizeof_BLOCK_HEADER);
  let header := decode_block_header b in
  let t := set_info (mkBlockInfo header off) t in
  let afterBlockHeaderOffset := u32 (off + block_size header) in
  _ ← modify (fun s => if _nextDataOffset s <? afterBlockHeaderOffset then set_next afterBlockHeaderOffset s else s);
  if usedCount header =? 0 then mret t else
  l ← LoadLogRecords (lastBlockHeaderInfo t);
  t ← load_records t l;
  if Z.of_nat (length l) =? usedCount header then mret t else throw (Fault Uninitialised).

Fixpoint load_blocks (fuel : nat) (nextTableOffset : Z) (t : TABLE_INFO) : M Ldb TABLE_INFO :=
  match fuel with
  | O => throw (Fault OutOfFuel)
  | S fuel =>
      if nextTableOffset =? 0 then mret t else
      t ← LoadBlock (set_info (mkBlockInfo (blockHeader (lastBlockHeaderInfo t)) nextTableOffset) t);
      let header := blockHeader (lastBlockHeaderInfo t) in
      _ ← lift (assert_ ((nextBlockOffset header =? 0) ||
            (u32 (nextTableOffset + block_size header) <? nextBlockOffset header)));
      load_blocks fuel (nextBlockOffset header) t
  end.

(** The chain of a table's blocks has no more blocks than the file has bytes. *)
Definition LoadAllBlocks (t : TABLE_INFO) : M Ldb TABLE_INFO :=
  let nextTableOffset := offset (lastBlockHeaderInfo t) in
  _ ← lift (assert_ (negb (nextTableOffset =? 0)));
  fileSize ← on_pages GetFileSize;
  load_blocks (S (Z.to_nat fileSize)) nextTableOffset t.

(** A table of the metatable; its [TABLE_INFO] is a new one. *)
Definition load_table (r : LDB_LOG_RECORD) : M Ldb unit :=
  _ ← lift (assert_ (negb (dataOffset (key r) =? 0) && negb (dataSize (value r) =? 0)));
  k ← ReadField (key r);
  _ ← lift (assert_ (negb (Z.of_nat (length k) =? 0)));
  _ ← lift (assert_ (sizeof_BLOCK_HEADER <? dataSize (value r)));
  t ← LoadAllBlocks (mkTable k (mkBlockInfo (mkBlockHeader 0 0 0) (dataOffset (value r))) []);
  store (Table k) t.

Fixpoint load_tables (l : list LDB_LOG_RECORD) : M Ldb unit :=
  match l with
  | [] => mret tt
  | r :: l => _ ← load_table r; load_tables l
  end.

Definition LoadTables : M Ldb unit :=
  _ ← modify (fun s => set_counts 0 0 (_lastRecordID s) (set_next 0 s));
  meta ← deref Metatable;
  meta ← LoadAllBlocks meta;
  _ ← store Metatable meta;
  load_tables (records meta).

Definition Clear : M Ldb unit := modify (fun s =>
  mkLdb (pages s) zero_header 0 (_growPagesStep s) (_defaultBlockSize s) 0 0 0
    (mkTable (name (_metatable s)) zero_info []) []).

Definition LoadFile : M Ldb bool :=
  _ ← Clear;
  '(_, b) ← on_pages (Read 0 sizeof_FILE_HEADER);
  let header := decode_file_header b in
  _ ← modify (set_header header);
  if negb (magic header =? LDB_MAGIC) then
    _ ← lift (assert_ false); _ ← on_pages LogFile.Close; mret false
  else
  _ ← modify (fun s => set_metatable (set_info
        (mkBlockInfo (blockHeader (lastBlockHeaderInfo (_metatable s))) (tableBlockOffset header)) (_metatable s)) s);
  s ← get;
  let currentPageSize := _pageSize (pages s) in
  _ ← on_pages (SetPageSize (1024 * 1024 * 4));
  _ ← LoadTables;
  _ ← on_pages (SetPageSize currentPageSize);
  mret true.

(** ** The file *)

Definition WriteBlockToFile (info : LDB_BLOCK_HEADER_INFO) : M Ldb unit :=
  fileSize ← on_pages GetFileSize;
  _ ← lift (assert_ (negb (offset info =? 0) && negb (block_size (blockHeader info) =? 0) && (offset info <? fileSize)));
  _ ← on_pages (Write (offset info) (encode_block_header (blockHeader info)));
  mret tt.

Definition InitializeFile : M Ldb bool :=
  let header := mkFileHeader LDB_MAGIC 1 0 sizeof_FILE_HEADER in
  s ← get;
  let info := mkBlockInfo (mkBlockHeader (_defaultBlockSize s) 0 0) sizeof_FILE_HEADER in
  let next := u32 (offset info + block_size (blockHeader info)) in
  _ ← modify (fun s => set_next next (set_metatable (set_info info (_metatable s)) (set_header header s)));
  _ ← LeaveRoom (u32 (next + _pageSize (pages s)));
  _ ← WriteBlockToFile info;
  _ ← on_pages (Write 0 (encode_file_header header));
  mret true.

Definition Create (fileName : bytes) : M Ldb bool :=
  b ← on_pages (LogFile.Create fileName);
  if negb (b : bool) then mret false else
  fileSize ← on_pages GetFileSize;
  if fileSize <? sizeof_FILE_HEADER then InitializeFile else LoadFile.

Definition Open (fileName : bytes) : M Ldb bool :=
  b ← on_pages (LogFile.Open fileName);
  if negb (b : bool) then mret false else LoadFile.

Definition Close : M Ldb unit := _ ← on_pages LogFile.Close; Clear.

Definition GetPageSize : M Ldb Z := s ← get; mret (_pageSize (pages s)).

Definition GetBlockSize : M Ldb Z := s ← get; mret (_defaultBlockSize s).

Definition GetGrowStep : M Ldb Z := s ← get; mret (u32 (_growPagesStep s * _pageSize (pages s))).

Definition SetGrowStep (n : Z) : M Ldb unit :=
  s ← get; modify (set_grow (u32 (n / _pageSize (pages s) + 1))).

End LogDb.
