(* ===== verification/LogLayout.v ===== *)
(** * What the log database has on disk

    The file of [LogDb.v] as a set of pieces: regions that do not overlap, each
    with the bytes it begins with.  A write inside of one piece leaves the
    others alone, which is all the proofs about the log need to know of the
    file.  A table is a chain of pieces, its blocks. *)
From S2P Require Import Prelude StdMap LogFile LogDb.

Module LogLayout.
Import LogFile LogDb.

(** ** Pieces *)

Record piece := mkPiece { start : Z; room : Z; content : bytes }.

Definition stop (p : piece) : Z := start p + room p.

(** The piece lies before [nd] and the file has its bytes. *)
Definition piece_ok (d : bytes) (nd : Z) (p : piece) : Prop :=
  0 <= start p /\ Z.of_nat (length (content p)) <= room p /\ stop p <= nd /\
  slice d (start p) (Z.of_nat (length (content p))) = content p.

Definition apart (p q : piece) : Prop := stop p <= start q \/ stop q <= start p.

#[export] Instance apart_sym : Symmetric apart.
Proof. intros p q. unfold apart. tauto. Qed.

Fixpoint separate (ps : list piece) : Prop :=
  match ps with
  | [] => True
  | p :: ps => Forall (apart p) ps /\ separate ps
  end.

(** The file [d] has these pieces, all before [nd]. *)
Definition owns (d : bytes) (nd : Z) (ps : list piece) : Prop := Forall (piece_ok d nd) ps /\ separate ps.

Lemma owns_cons d nd p ps : owns d nd (p :: ps) <-> piece_ok d nd p /\ Forall (apart p) ps /\ owns d nd ps.
Proof. unfold owns. cbn. rewrite Forall_cons. tauto. Qed.

#[export] Instance separate_perm : Proper ((≡ₚ) ==> iff) separate.
Proof.
  enough (forall ps qs, ps ≡ₚ qs -> separate ps -> separate qs) as H by (intros ps qs E; split; apply H; by rewrite E).
  induction 1 as [|p ps qs E IH|p q ps|ps qs rs _ IH1 _ IH2]; cbn; [done| | |auto].
  - intros [Hp Hs]. split; [by rewrite <- E | auto].
  - rewrite !Forall_cons. intros ([Ha Hp]&Hq&Hs). split_and!; [by symmetry|done..].
Qed.

#[export] Instance owns_perm d nd : Proper ((≡ₚ) ==> iff) (owns d nd).
Proof. intros ps qs E. unfold owns. by rewrite E. Qed.

Lemma owns_submseteq d nd ps qs : owns d nd ps -> qs ⊆+ ps -> owns d nd qs.
Proof.
  intros H (k&E)%submseteq_Permutation. rewrite E in H.
  clear E. revert H. induction qs as [|q qs IH]; [done|]. cbn. rewrite !owns_cons, Forall_app. naive_solver.
Qed.

(** Other bytes and more room do not matter. *)
Lemma owns_weaken d nd d' nd' ps :
  owns d nd ps -> nd <= nd' -> (forall p, p ∈ ps -> forall n, 0 <= n -> start p + n <= stop p -> slice d' (start p) n = slice d (start p) n) ->
  owns d' nd' ps.
Proof.
  intros [H Hs] Hnd E. split; [|done]. rewrite Forall_forall in *. intros p Hp.
  destruct (H p Hp) as (H1&H2&H3&H4). split_and!; [done|done|lia|].
  rewrite <- H4 at 2. apply E; [done|lia|unfold stop in *; lia].
Qed.

Lemma slice_app_l d x off n : 0 <= off -> 0 <= n -> off + n <= Z.of_nat (length d) -> slice (d ++ x) off n = slice d off n.
Proof. intros. unfold slice. by rewrite drop_app_le, take_app_le by (rewrite ?length_drop; lia). Qed.

Lemma owns_bounds d nd ps p : owns d nd ps -> p ∈ ps -> 0 <= start p /\ 0 <= room p /\ stop p <= nd.
Proof. intros [H _] Hp. rewrite Forall_forall in H. destruct (H p Hp) as (?&?&?&?). lia. Qed.

Lemma owns_grow d nd nd' x ps :
  owns d nd ps -> nd <= nd' -> nd <= Z.of_nat (length d) -> owns (d ++ x) nd' ps.
Proof.
  intros H Hnd Hd. eapply owns_weaken; [done|done|]. intros p Hp n Hn Hle.
  destruct (owns_bounds _ _ _ _ H Hp) as (?&?&?). apply slice_app_l; lia.
Qed.

(** A write into a piece. *)
Lemma owns_write d nd p ps o b c :
  owns d nd (p :: ps) -> nd <= Z.of_nat (length d) ->
  start p <= o -> o + Z.of_nat (length b) <= stop p -> Z.of_nat (length c) <= room p ->
  slice (splice d o b) (start p) (Z.of_nat (length c)) = c ->
  owns (splice d o b) nd (mkPiece (start p) (room p) c :: ps).
Proof.
  intros H Hnd H1 H2 H3 H4. apply owns_cons in H as ((Hp1&Hp2&Hp3&Hp4)&Ha&Ho). apply owns_cons. split_and!.
  - split_and!; done.
  - done.
  - eapply owns_weaken; [done|done|]. intros q Hq n Hn Hle.
    destruct (owns_bounds _ _ _ _ Ho Hq) as (?&?&?).
    rewrite Forall_forall in Ha. destruct (Ha q Hq); apply slice_splice_ne; unfold stop in *; lia.
Qed.

(** A new piece at the end. *)
Lemma owns_new d nd ps b n :
  owns d nd ps -> 0 <= nd -> Z.of_nat (length b) <= n -> nd + n <= Z.of_nat (length d) ->
  owns (splice d nd b) (nd + n) (mkPiece nd n b :: ps).
Proof.
  intros H Hnd Hb Hd. apply owns_cons. split_and!.
  - split_and!; cbn; [done|done|done|]. apply slice_splice; lia.
  - apply Forall_forall. intros q Hq. destruct (owns_bounds _ _ _ _ H Hq). right. cbn. lia.
  - eapply owns_weaken; [done|lia|]. intros q Hq k Hk Hle.
    destruct (owns_bounds _ _ _ _ H Hq) as (?&?&?). apply slice_splice_ne; unfold stop in *; lia.
Qed.

(** Bytes in two parts. *)
Lemma slice_app_inv d off a b :
  0 <= off -> slice d off (Z.of_nat (length (a ++ b))) = a ++ b ->
  slice d off (Z.of_nat (length a)) = a /\ slice d (off + Z.of_nat (length a)) (Z.of_nat (length b)) = b.
Proof.
  intros Ho E. rewrite length_app, Nat2Z.inj_add, slice_app in E by lia.
  assert (length (slice d off (Z.of_nat (length a))) = length a) as El.
  { apply (f_equal length) in E. unfold slice in *. len. }
  by apply app_inj_1 in E.
Qed.

(** The bytes behind a piece's content become part of it. *)
Lemma owns_extend d nd p ps b :
  owns d nd (p :: ps) -> nd <= Z.of_nat (length d) ->
  Z.of_nat (length (content p ++ b)) <= room p ->
  owns (splice d (start p + Z.of_nat (length (content p))) b) nd (mkPiece (start p) (room p) (content p ++ b) :: ps).
Proof.
  intros H Hnd Hl. pose proof H as ((Hp1&Hp2&Hp3&Hp4)&_&_)%owns_cons. unfold stop in *.
  assert (Z.of_nat (length (content p ++ b)) = Z.of_nat (length (content p)) + Z.of_nat (length b)) as El by len.
  apply owns_write; unfold stop; try done; try lia.
  rewrite El, slice_app by lia. rewrite slice_splice by lia. f_equal.
  rewrite slice_splice_ne by lia. done.
Qed.

(** The first bytes of a piece change. *)
Lemma owns_front d nd st n ps a a' b :
  owns d nd (mkPiece st n (a ++ b) :: ps) -> nd <= Z.of_nat (length d) -> length a' = length a ->
  owns (splice d st a') nd (mkPiece st n (a' ++ b) :: ps).
Proof.
  intros H Hnd Hl. pose proof H as ((Hp1&Hp2&Hp3&Hp4)&_&_)%owns_cons. unfold stop in *. cbn in *.
  destruct (slice_app_inv _ _ _ _ Hp1 Hp4) as [_ Eb]. rewrite length_app in Hp2.
  apply (owns_write _ _ (mkPiece st n (a ++ b))); unfold stop; cbn; rewrite ?length_app; try done; try lia.
  rewrite Nat2Z.inj_add, slice_app by lia. rewrite slice_splice by lia. f_equal.
  rewrite slice_splice_ne by lia. by rewrite Hl.
Qed.

(** ** Structs *)

Lemma length_dwords l : length (dwords l) = (4 * length l)%nat.
Proof. unfold dwords. induction l as [|z l IH]; [done|]. cbn. rewrite length_app, length_le_encode. cbn in IH. lia. Qed.

Lemma dword_dwords : forall i l z x, l !! i = Some z -> dword (dwords l ++ x) i = u32 z.
Proof.
  unfold dword. induction i as [|i IH]; intros [|y l] z x H; try done; cbn in H; simplify_eq.
  - cbn [Nat.mul]. rewrite drop_0. unfold dwords. cbn [mbind list_bind].
    rewrite <- !app_assoc, take_app_length' by (by rewrite length_le_encode). apply le_decode_encode.
  - rewrite <- (IH l z x H). unfold dwords. cbn [mbind list_bind]. rewrite <- app_assoc.
    replace (4 * S i)%nat with (4 + 4 * i)%nat by lia. rewrite <- drop_drop.
    by rewrite (drop_app_length' _ _ 4) by (by rewrite length_le_encode).
Qed.

Definition is_dword (z : Z) : Prop := 0 <= z < 2 ^ 32.

Definition field_ok (f : LDB_LOG_RECORD_FIELD) : Prop := is_dword (dataOffset f) /\ is_dword (dataSize f) /\ is_dword (hash f).

Definition record_ok (r : LDB_LOG_RECORD) : Prop :=
  is_dword (operation r) /\ is_dword (recordIndex r) /\ is_dword (recordID r) /\
  field_ok (key r) /\ field_ok (value r) /\ field_ok (metadata r).

Lemma length_encode_record r : length (encode_record r) = 48%nat.
Proof. unfold encode_record. by rewrite length_dwords. Qed.

Lemma length_encode_block_header h : length (encode_block_header h) = 12%nat.
Proof. unfold encode_block_header. by rewrite length_dwords. Qed.

Lemma length_encode_file_header h : length (encode_file_header h) = 16%nat.
Proof. unfold encode_file_header. by rewrite length_dwords. Qed.

(** Decoding a struct that was encoded: each number is its own. *)
Lemma decode_encode_record r : record_ok r -> decode_record (encode_record r) = r.
Proof.
  intros (?&?&?&(?&?&?)&(?&?&?)&(?&?&?)). rewrite <- (app_nil_r (encode_record r)). unfold encode_record.
  unfold decode_record, decode_field.
  repeat (erewrite dword_dwords by reflexivity). rewrite !u32_small by done.
  by destruct r as [? ? ? [] [] []].
Qed.

Lemma decode_encode_block_header h x :
  is_dword (block_size h) -> is_dword (usedCount h) -> is_dword (nextBlockOffset h) ->
  decode_block_header (encode_block_header h ++ x) = h.
Proof.
  intros. unfold encode_block_header, decode_block_header.
  repeat (erewrite dword_dwords by reflexivity). rewrite !u32_small by done. by destruct h.
Qed.

Lemma decode_encode_file_header h :
  is_dword (magic h) -> is_dword (version h) -> is_dword (flags h) -> is_dword (tableBlockOffset h) ->
  decode_file_header (encode_file_header h) = h.
Proof.
  intros. rewrite <- (app_nil_r (encode_file_header h)). unfold encode_file_header, decode_file_header.
  repeat (erewrite dword_dwords by reflexivity). rewrite !u32_small by done. by destruct h.
Qed.

Definition encode_records (rs : list LDB_LOG_RECORD) : bytes := rs ≫= encode_record.

Lemma length_encode_records rs : length (encode_records rs) = (48 * length rs)%nat.
Proof.
  unfold encode_records. induction rs as [|r rs IH]; [done|]. cbn [mbind list_bind]. rewrite length_app, length_encode_record.
  cbn in *. lia.
Qed.

Lemma encode_records_app l1 l2 : encode_records (l1 ++ l2) = encode_records l1 ++ encode_records l2.
Proof. apply bind_app. Qed.

Lemma decode_encode_records rs : Forall record_ok rs -> decode_records (length rs) (encode_records rs) = rs.
Proof.
  induction 1 as [|r rs H _ IH]; [done|]. unfold encode_records in *. cbn [length decode_records mbind list_bind].
  rewrite take_app_length', drop_app_length' by (by rewrite length_encode_record).
  rewrite decode_encode_record by done. by rewrite IH.
Qed.

#[export] Hint Rewrite length_encode_record length_encode_block_header length_encode_file_header length_encode_records : len.

(** ** Chains of blocks *)

(** The size of a block; it has room for this many records. *)
Definition BLOCK : Z := 4096.
Definition PER_BLOCK : nat := 85.

(** A block: its offset and its log records. *)
Notation block := (Z * list LDB_LOG_RECORD)%type.

Definition block_content (rs : list LDB_LOG_RECORD) (next : Z) : bytes :=
  encode_block_header (mkBlockHeader BLOCK (Z.of_nat (length rs)) next) ++ encode_records rs.

Definition block_piece (o : Z) (rs : list LDB_LOG_RECORD) (next : Z) : piece := mkPiece o BLOCK (block_content rs next).

Definition next_of (z : Z) (bs : list block) : Z := match bs with [] => z | b :: _ => b.1 end.

(** The blocks of a table, each with the offset of the next and the last with [z]. *)
Fixpoint chain (z : Z) (bs : list block) : list piece :=
  match bs with
  | [] => []
  | (o, rs) :: bs => block_piece o rs (next_of z bs) :: chain z bs
  end.

(** All log records of a table. *)
Definition log (bs : list block) : list LDB_LOG_RECORD := bs ≫= snd.

Lemma chain_snoc z bs o rs : chain z (bs ++ [(o, rs)]) = chain o bs ++ [block_piece o rs z].
Proof.
  induction bs as [|[o1 rs1] bs IH]; [done|]. cbn. rewrite IH. f_equal. by destruct bs as [|[]].
Qed.

Lemma log_app b1 b2 : log (b1 ++ b2) = log b1 ++ log b2.
Proof. apply bind_app. Qed.

(** A log record that loading accepts, with its data before [nd]. *)
Definition entry_ok (nd : Z) (r : LDB_LOG_RECORD) : Prop :=
  record_ok r /\ record_end r <= nd /\
  (operation r = OPERATION_DELETE \/ operation r = OPERATION_CLEAR \/ record_end r <> 0).

Definition block_ok (b : block) : Prop := sizeof_FILE_HEADER <= b.1 /\ (length b.2 <= PER_BLOCK)%nat.

(** Each block begins behind the one before, with something between them. *)
Fixpoint ascending (bs : list block) : Prop :=
  match bs with
  | [] => True
  | b :: bs => match bs with [] => True | b' :: _ => b.1 + BLOCK < b'.1 end /\ ascending bs
  end.

Definition replay (l : list LDB_LOG_RECORD) (rs : list LDB_LOG_RECORD) : list LDB_LOG_RECORD :=
  foldl (fun rs r => (replay_record r rs).1) rs l.

Lemma log_replay_app l1 l2 rs : replay (l1 ++ l2) rs = replay l2 (replay l1 rs).
Proof. apply foldl_app. Qed.

Lemma ascending_snoc bs b b' : ascending (bs ++ [b]) -> b.1 + BLOCK < b'.1 -> ascending (bs ++ [b; b']).
Proof.
  induction bs as [|c bs IH]; cbn; [tauto|]. intros [H1 H2] H. split; [|by apply IH].
  by destruct bs as [|? ?].
Qed.

Lemma ascending_last bs o rs rs' : ascending (bs ++ [(o, rs)]) -> ascending (bs ++ [(o, rs')]).
Proof.
  induction bs as [|c bs IH]; cbn; [tauto|]. intros [H1 H2]. split; [|by apply IH].
  by destruct bs as [|? ?].
Qed.

End LogLayout.
