(* ===== verification/LogWrites.v ===== *)
(** * Writing the log

    What [AppendLogRecord] of [logdb.h] and the calls under it do to the pieces of
    the file (see [LogLayout.v]): data goes to new pieces at the end, the log
    record to the last block of its table or to a new block linked to it, and
    every other piece stays. *)
From S2P Require Import Prelude StdMap LogFile LogDb LogLayout.

Module LogWrites.
Import StdMap LogFile LogDb LogLayout.

(** ** The state of the file *)

Lemma GetFileSize_spec s d : represents s d -> GetFileSize s = (Ok (Z.of_nat (length d)), s).
Proof.
  intros H. unfold GetFileSize, on_file, file_GetFileSize. rewrite (rep_data _ _ H).
  rewrite u32_small by (pose proof (rep_size _ _ H); lia). by destruct s.
Qed.

Lemma bind_on_pages {A B} (m : M PagedFile A) (k : A -> M Ldb B) s r p :
  m (pages s) = (Ok r, p) -> (on_pages m ≫= k) s = k r (set_pages p s).
Proof. intros H. unfold mbind, M_bind, on_pages. by rewrite H. Qed.

Lemma set_pages_id s : set_pages (pages s) s = s.
Proof. by destruct s. Qed.

(** How much larger than the data the file can be. *)
Definition slack (s : Ldb) : Z := _growPagesStep s * 4096 + 4096.

(** An open database on a file with the bytes [d]; at most [c] bytes of data have
    been written. *)
Record core (s : Ldb) (d : bytes) (c : Z) : Prop := {
  core_rep : represents (pages s) d;
  core_page : _pageSize (pages s) = 4096;
  core_mb : _cacheInMegabytes (pages s) = 4;
  core_block : _defaultBlockSize s = BLOCK;
  core_grow : 0 <= _growPagesStep s;
  core_aligned : (4096 | Z.of_nat (length d));
  core_next : sizeof_FILE_HEADER <= _nextDataOffset s <= Z.of_nat (length d);
  core_cost : _nextDataOffset s <= c;
  core_size : Z.of_nat (length d) <= c + slack s;
  core_limit : c + slack s < 2 ^ 32
}.

(** The file and the end of the data have changed, nothing else. *)
Definition moved (s s' : Ldb) : Prop :=
  exists p n, s' = set_next n (set_pages p s) /\ config p = config (pages s).

Lemma moved_refl s : moved s s.
Proof. exists (pages s), (_nextDataOffset s). by destruct s. Qed.

Lemma moved_trans s1 s2 s3 : moved s1 s2 -> moved s2 s3 -> moved s1 s3.
Proof. intros (p1&n1&->&E1) (p2&n2&->&E2). exists p2, n2. split; [done|]. by rewrite E2. Qed.

#[export] Hint Resolve moved_refl moved_trans : tio.

Lemma size_spec s d c : core s d c -> on_pages GetFileSize s = (Ok (Z.of_nat (length d)), s).
Proof. intros H. unfold on_pages. rewrite (GetFileSize_spec _ d) by apply H. by rewrite set_pages_id. Qed.

Lemma config_mb p q : config p = config q -> _cacheInMegabytes p = _cacheInMegabytes q.
Proof. unfold config. congruence. Qed.

(** A write inside of the file. *)
Lemma write_spec s d c off b :
  core s d c -> 0 <= off -> off + Z.of_nat (length b) <= Z.of_nat (length d) ->
  exists s', on_pages (Write off b) s = (Ok (Z.of_nat (length b)), s') /\ core s' (splice d off b) c /\
    moved s s' /\ _nextDataOffset s' = _nextDataOffset s.
Proof.
  intros [H1 H2 H3 H4 H5 H6 H7 H8 H9 H10] Ho Hb.
  destruct (Write_spec (pages s) d off b H1) as (p&E&Hr&Hc); [red; by rewrite H2|done|done|].
  eexists. split; [unfold on_pages; by rewrite E|].
  assert (length (splice d off b) = length d) as El by (by apply length_splice).
  split; [|split; [exists p, (_nextDataOffset s); by destruct s|done]].
  split; cbn [pages set_pages _defaultBlockSize _growPagesStep _nextDataOffset]; rewrite ?El; try done.
  - by rewrite (config_page _ _ Hc).
  - by rewrite (config_mb _ _ Hc).
Qed.

(** Moving the end of the data. *)
Lemma core_set_next s d c n m :
  core s d c -> sizeof_FILE_HEADER <= n <= Z.of_nat (length d) -> n <= m -> c <= m -> m + slack s < 2 ^ 32 ->
  core (set_next n s) d m.
Proof. intros [H1 H2 H3 H4 H5 H6 H7 H8 H9 H10] ????. split; cbn; try done. unfold slack in *. cbn. lia. Qed.

(** After [EnsureSpace] there is room, and the bytes that were there. *)
Lemma EnsureSpace_spec s d c n :
  core s d c -> 0 <= n -> c + n + slack s < 2 ^ 32 ->
  exists s' x, EnsureSpace n s = (Ok tt, s') /\ core s' (d ++ x) (c + n) /\ moved s s' /\
    _nextDataOffset s' = _nextDataOffset s /\ _nextDataOffset s + n <= Z.of_nat (length (d ++ x)).
Proof.
  intros H Hn Hl. pose proof H as [H1 H2 H3 H4 H5 H6 H7 H8 H9 H10].
  unfold sizeof_FILE_HEADER, slack in *.
  unfold EnsureSpace. mstep (size_spec _ _ _ H). rewrite bind_get.
  rewrite (u32_small (_ - _)) by lia. destruct (_ <? n) eqn:E; bool_to_prop.
  - unfold LeaveRoom. rewrite bind_get, H2. rewrite (u32_small (n - _)) by lia.
    set (need := n - (Z.of_nat (length d) - _nextDataOffset s)).
    assert (0 <= need / 4096) by (apply Z.div_pos; lia).
    pose proof (Z.mul_div_le need 4096 ltac:(lia)).
    pose proof (Z.mul_succ_div_gt need 4096 ltac:(lia)).
    rewrite u32_small by lia. set (g := if _ <? _ then _ else _).
    assert (need <= g * 4096 /\ 0 <= g /\ g * 4096 <= Z.max (_growPagesStep s * 4096) (need + 4096)) as (Hg1&Hg2&Hg3).
    { unfold g. destruct (_ <? _) eqn:Eg; bool_to_prop; nia. }
    destruct (GrowFile_spec (pages s) d g H1) as (p&Ep&Hc&Hr); [red; by rewrite H2|lia|rewrite H2; lia|].
    rewrite H2 in Hr. set (x := replicate _ _) in Hr.
    assert (Z.of_nat (length x) = g * 4096) as Hx by (unfold x; rewrite length_replicate; lia).
    unfold on_pages. rewrite Ep. exists (set_pages p s), x. split; [done|].
    split; [|split_and!; [exists p, (_nextDataOffset s); by destruct s|done|rewrite length_app; lia]].
    split; cbn; rewrite ?length_app; try done; unfold slack, sizeof_FILE_HEADER; cbn; try lia.
    + by rewrite (config_page _ _ Hc).
    + by rewrite (config_mb _ _ Hc).
    + rewrite Nat2Z.inj_add, Hx. apply Z.divide_add_r; [done|]. by exists g.
  - exists s, []. rewrite app_nil_r. split; [done|]. split; [|split_and!; [apply moved_refl|done|lia]].
    split; unfold slack in *; try done; lia.
Qed.

(** ** Data *)

(** A hash is one byte. *)
Lemma DoHash_range b : 0 <= DoHash b < 256.
Proof.
  unfold DoHash. enough (forall h, 0 <= h < 256 -> 0 <= foldl (fun h x => Z.lxor h (byte_Z x)) h b < 256) as H by (apply H; lia).
  induction b as [|x b IH]; intros h Hh; [done|]. apply IH. pose proof (byte_Z_range x).
  assert (0 <= Z.lxor h (byte_Z x)) by (apply Z.lxor_nonneg; lia). split; [done|].
  destruct (decide (Z.lxor h (byte_Z x) = 0)) as [->|]; [lia|].
  change 256 with (2 ^ 8). apply Z.log2_lt_pow2; [lia|].
  pose proof (Z.log2_lxor h (byte_Z x) ltac:(lia) ltac:(lia)).
  assert (Z.log2 h < 8 /\ Z.log2 (byte_Z x) < 8) as [? ?]; [|lia].
  split; (destruct (decide (0 < h)), (decide (0 < byte_Z x)));
    first [apply Z.log2_lt_pow2; lia | (rewrite Z.log2_nonpos by lia; lia)].
Qed.

(** The field of data that is written now. *)
Definition new_field (nd : Z) (b : bytes) : LDB_LOG_RECORD_FIELD := mkField nd (Z.of_nat (length b)) (DoHash b).

Definition data_piece (nd : Z) (b : bytes) : piece := mkPiece nd (Z.of_nat (length b)) b.

Lemma WriteLdbData_spec s d c ps b :
  core s d c -> owns d (_nextDataOffset s) ps -> b <> [] -> c + Z.of_nat (length b) + slack s < 2 ^ 32 ->
  let nd := _nextDataOffset s in
  exists s' d', WriteLdbData b s = (Ok (new_field nd b), s') /\
    core s' d' (c + Z.of_nat (length b)) /\ moved s s' /\ _nextDataOffset s' = nd + Z.of_nat (length b) /\
    owns d' (nd + Z.of_nat (length b)) (data_piece nd b :: ps).
Proof.
  intros H Ho Hb Hl nd. set (n := Z.of_nat (length b)) in *.
  assert (0 < n) as Hn0 by (destruct b; [done | unfold n; cbn; lia]).
  pose proof (core_next _ _ _ H) as Hn. pose proof (core_cost _ _ _ H) as Hc. unfold sizeof_FILE_HEADER in Hn.
  pose proof (core_grow _ _ _ H) as Hg. unfold slack in *.
  unfold WriteLdbData. rewrite bind_get. fold n. rewrite (u32_small n) by lia.
  destruct (EnsureSpace_spec s d c n) as (s1&x&E1&H1&M1&N1&R1); [done|lia|unfold slack; lia|].
  mstep E1. mstep (size_spec _ _ _ H1). fold nd. fold nd in N1, R1, Hn, Hc, Ho.
  rewrite (bind_lift_ok _ _ _ tt) by (unfold assert_; by ztest).
  destruct (write_spec s1 (d ++ x) (c + n) nd b) as (s2&E2&H2&M2&N2); [done|lia|done|].
  mstep E2. rewrite bind_modify, u32_small by lia.
  exists (set_next (nd + n) s2), (splice (d ++ x) nd b). split; [done|].
  pose proof (core_limit _ _ _ H2). split_and!.
  - eapply core_set_next; [done| |lia..]. rewrite length_splice by (fold n; lia). unfold sizeof_FILE_HEADER; lia.
  - eapply moved_trans; [done|]. eapply moved_trans; [done|]. exists (pages s2), (nd + n). by destruct s2.
  - done.
  - apply owns_new; [|lia|done|done]. eapply owns_grow; [done|lia|lia].
Qed.

(** What is given for a field: nothing, or some bytes. *)
Definition given (o : option bytes) : Prop := o <> Some [].
Definition data_size (o : option bytes) : Z := match o with Some b => Z.of_nat (length b) | None => 0 end.
Definition field_at (nd : Z) (o : option bytes) : LDB_LOG_RECORD_FIELD :=
  match o with Some b => new_field nd b | None => zero_field end.

(** The data of a field. *)
Definition field_pieces (f : LDB_LOG_RECORD_FIELD) (o : option bytes) : list piece :=
  match o with Some b => [data_piece (dataOffset f) b] | None => [] end.

Lemma data_size_nonneg o : 0 <= data_size o.
Proof. destruct o; cbn; lia. Qed.

Lemma write_field_spec s d c ps o :
  core s d c -> owns d (_nextDataOffset s) ps -> given o -> c + data_size o + slack s < 2 ^ 32 ->
  let nd := _nextDataOffset s in
  exists s' d', write_field o s = (Ok (field_at nd o), s') /\
    core s' d' (c + data_size o) /\ moved s s' /\ _nextDataOffset s' = nd + data_size o /\
    owns d' (nd + data_size o) (field_pieces (field_at nd o) o ++ ps).
Proof.
  intros H Ho Hg Hl nd. destruct o as [b|]; cbn in *.
  - apply (WriteLdbData_spec s d c ps b H Ho); [by intros ->|done].
  - exists s, d. rewrite !Z.add_0_r. split_and!; try done. apply moved_refl.
Qed.

(** A key, value and metadata. *)
Notation row := (option bytes * option bytes * option bytes)%type.

Definition row_size (x : row) : Z := data_size x.1.1 + data_size x.1.2 + data_size x.2.
Definition row_given (x : row) : Prop := given x.1.1 /\ given x.1.2 /\ given x.2.

(** The record of a row that is written now. *)
Definition fresh (op idx id nd : Z) (x : row) : LDB_LOG_RECORD :=
  mkRecord op idx id (field_at nd x.1.1) (field_at (nd + data_size x.1.1) x.1.2)
    (field_at (nd + data_size x.1.1 + data_size x.1.2) x.2).

Definition row_pieces (r : LDB_LOG_RECORD) (x : row) : list piece :=
  field_pieces (key r) x.1.1 ++ field_pieces (value r) x.1.2 ++ field_pieces (metadata r) x.2.

Lemma moved_slack s s' : moved s s' -> slack s' = slack s.
Proof. by intros (p&n&->&_). Qed.

Lemma write_row_spec s d c ps x :
  core s d c -> owns d (_nextDataOffset s) ps -> row_given x -> c + row_size x + slack s < 2 ^ 32 ->
  let nd := _nextDataOffset s in
  exists s1 s2 s' d', write_field x.1.1 s = (Ok (field_at nd x.1.1), s1) /\
    write_field x.1.2 s1 = (Ok (field_at (nd + data_size x.1.1) x.1.2), s2) /\
    write_field x.2 s2 = (Ok (field_at (nd + data_size x.1.1 + data_size x.1.2) x.2), s') /\
    core s' d' (c + row_size x) /\ moved s s' /\ _nextDataOffset s' = nd + row_size x /\
    (forall op idx id, owns d' (nd + row_size x) (row_pieces (fresh op idx id nd x) x ++ ps)).
Proof.
  destruct x as [[k v] m]. unfold row_size, row_given. cbn [fst snd]. intros H Ho (Gk&Gv&Gm) Hl. set (nd := _nextDataOffset s).
  pose proof (data_size_nonneg k) as Pk. pose proof (data_size_nonneg v) as Pv. pose proof (data_size_nonneg m) as Pm.
  destruct (write_field_spec s d c ps k H Ho Gk ltac:(lia)) as (s1&d1&E1&H1&M1&N1&O1).
  fold nd in E1, N1, O1. rewrite <- N1 in O1. pose proof (moved_slack _ _ M1) as S1.
  destruct (write_field_spec s1 d1 _ _ v H1 O1 Gv ltac:(lia)) as (s2&d2&E2&H2&M2&N2&O2).
  rewrite N1 in E2, N2, O2. rewrite <- N2 in O2. pose proof (moved_slack _ _ M2) as S2.
  destruct (write_field_spec s2 d2 _ _ m H2 O2 Gm ltac:(lia)) as (s3&d3&E3&H3&M3&N3&O3).
  rewrite N2 in E3, N3, O3.
  exists s1, s2, s3, d3. split_and!; [done|done|done| |eauto using moved_trans|lia|].
  - by replace (c + (data_size k + data_size v + data_size m)) with (c + data_size k + data_size v + data_size m) by lia.
  - intros op idx id. replace (nd + (data_size k + data_size v + data_size m)) with (nd + data_size k + data_size v + data_size m) by lia.
    unfold row_pieces, fresh. cbn [fst snd key value metadata]. refine (proj1 (owns_perm _ _ _ _ _) O3).
    rewrite !app_assoc. apply Permutation_app_tail. solve_Permutation.
Qed.

(** ** Records *)

(** Which operations [Ldb] asks for, and on which positions. *)
Definition valid_index (op idx : Z) (rs : list LDB_LOG_RECORD) : Prop :=
  0 <= idx /\
  (op = OPERATION_APPEND \/ op = OPERATION_CLEAR \/
   (op = OPERATION_INSERT /\ (idx = 0 \/ idx < Z.of_nat (length rs))) \/
   ((op = OPERATION_SET \/ op = OPERATION_DELETE) /\ idx < Z.of_nat (length rs))).

(** The record that is logged for a fresh one. *)
Definition logged (op idx : Z) (x : row) (rs : list LDB_LOG_RECORD) (r : LDB_LOG_RECORD) : LDB_LOG_RECORD :=
  match keep_fields op idx x.1.1 x.1.2 x.2 rs r with Ok r => r | Throw _ => r end.

(** The records afterwards. *)
Definition changed (op idx : Z) (r : LDB_LOG_RECORD) (rs : list LDB_LOG_RECORD) : list LDB_LOG_RECORD :=
  match change_records op idx r rs with Ok (rs, _) => rs | Throw _ => rs end.

Lemma keep_fields_ok op idx x rs r :
  valid_index op idx rs -> keep_fields op idx x.1.1 x.1.2 x.2 rs r = Ok (logged op idx x rs r).
Proof.
  intros [Hi H]. unfold logged. unfold keep_fields. destruct (op =? OPERATION_SET) eqn:E; [|done]. cbn [negb].
  bool_to_prop. destruct (lookup_lt_is_Some_2 rs (Z.to_nat idx)) as [old ->]; [|done].
  unfold OPERATION_SET, OPERATION_APPEND, OPERATION_CLEAR, OPERATION_INSERT, OPERATION_DELETE in *. lia.
Qed.

Lemma change_records_ok op idx r rs :
  valid_index op idx rs -> exists n, change_records op idx r rs = Ok (changed op idx r rs, n).
Proof.
  intros [Hi H]. unfold changed. unfold change_records, vector_set, vector_insert, vector_erase.
  unfold OPERATION_SET, OPERATION_APPEND, OPERATION_CLEAR, OPERATION_INSERT, OPERATION_DELETE in *.
  destruct H as [->|[->|[[-> [->|H]]|[[->| ->] H]]]]; cbn [Z.eqb Pos.eqb];
    repeat (case_match; bool_to_prop; mrun; try lia); eauto.
Qed.

(** Loading replays what was done, but for the first record that is inserted into
    a table without records. *)
Lemma replay_record_changed op idx r rs :
  valid_index op idx rs -> operation r = op -> recordIndex r = idx ->
  ~ (op = OPERATION_INSERT /\ rs = []) -> (replay_record r rs).1 = changed op idx r rs.
Proof.
  intros [Hi H] <- <- Hn. unfold changed. unfold replay_record, change_records, vector_set, vector_insert, vector_erase.
  unfold OPERATION_SET, OPERATION_APPEND, OPERATION_CLEAR, OPERATION_INSERT, OPERATION_DELETE in *.
  destruct H as [E|[E|[[E H]|[[E|E] H]]]]; rewrite E in *; cbn [Z.eqb Pos.eqb]; try done; ztest; try done.
  destruct rs as [|r0 rs]; [naive_solver|]. cbn [length] in *.
  assert (recordIndex r < Z.of_nat (S (length rs))) by lia. ztest. done.
Qed.

(** ** Blocks *)

Lemma CheckNeedForNewBlock_spec n next :
  (n <= PER_BLOCK)%nat -> CheckNeedForNewBlock (mkBlockHeader BLOCK (Z.of_nat n) next) = bool_decide (n = PER_BLOCK).
Proof.
  intros Hn. unfold CheckNeedForNewBlock, PER_BLOCK, BLOCK, sizeof_FILE_HEADER, sizeof_LOG_RECORD in *. cbn [usedCount block_size].
  rewrite (u32_small (16 + _)), u32_small by lia. case_bool_decide; ztest; done.
Qed.

Definition info_of (o : Z) (rs : list LDB_LOG_RECORD) (next : Z) : LDB_BLOCK_HEADER_INFO :=
  mkBlockInfo (mkBlockHeader BLOCK (Z.of_nat (length rs)) next) o.

(** A new block at the end of the data. *)
Lemma CreateNewBlock_spec s d c ps o rs :
  core s d c -> owns d (_nextDataOffset s) ps -> length rs = PER_BLOCK -> c + BLOCK + slack s < 2 ^ 32 ->
  let nd := _nextDataOffset s in
  exists s' d', CreateNewBlockIfNeeded (info_of o rs 0) s = (Ok (info_of o rs nd, Some (info_of nd [] 0)), s') /\
    core s' d' (c + BLOCK) /\ moved s s' /\ _nextDataOffset s' = nd + BLOCK /\
    owns d' (nd + BLOCK) (block_piece nd [] 0 :: ps).
Proof.
  intros H Ho Hrs Hl nd. pose proof (core_next _ _ _ H) as Hn. pose proof (core_cost _ _ _ H) as Hc.
  pose proof (core_grow _ _ _ H) as Hg. unfold sizeof_FILE_HEADER, slack, BLOCK in *. fold nd in Hn, Hc, Ho.
  unfold CreateNewBlockIfNeeded, info_of. cbn [blockHeader block_size offset usedCount].
  rewrite CheckNeedForNewBlock_spec, bool_decide_true by lia. cbn [negb]. unfold BLOCK.
  destruct (EnsureSpace_spec s d c 4096) as (s1&x&E1&H1&M1&N1&R1); [done|lia|unfold slack; lia|].
  mstep E1. mstep (size_spec _ _ _ H1). rewrite bind_get, N1. fold nd. fold nd in N1, R1.
  rewrite (bind_lift_ok _ _ _ tt) by (unfold assert_; by ztest).
  destruct (write_spec s1 (d ++ x) (c + 4096) nd (encode_block_header (mkBlockHeader 4096 0 0))) as (s2&E2&H2&M2&N2);
    [done|lia|rewrite length_encode_block_header; lia|].
  mstep E2. rewrite bind_modify, u32_small by lia.
  exists (set_next (nd + 4096) s2), (splice (d ++ x) nd (encode_block_header (mkBlockHeader 4096 0 0))). split; [done|].
  pose proof (core_limit _ _ _ H2). split_and!.
  - eapply core_set_next; [done| |lia..].
    rewrite length_splice by (rewrite ?length_encode_block_header; lia). unfold sizeof_FILE_HEADER; lia.
  - eapply moved_trans; [done|]. eapply moved_trans; [done|]. exists (pages s2), (nd + 4096). by destruct s2.
  - done.
  - unfold block_piece, block_content. cbn [length encode_records mbind list_bind]. rewrite app_nil_r.
    apply owns_new; [|lia|rewrite length_encode_block_header; unfold BLOCK; lia|done]. eapply owns_grow; [done|lia|lia].
Qed.

(** The entry goes behind the others, and then the block says that it is there. *)
Lemma write_entry_spec s d c o rs next r ps :
  core s d c -> owns d (_nextDataOffset s) (block_piece o rs next :: ps) -> (length rs < PER_BLOCK)%nat ->
  exists s1 s2 d1 d2,
    on_pages (Write (o + 12 + 48 * Z.of_nat (length rs)) (encode_record r)) s = (Ok 48, s1) /\
    on_pages (Write o (encode_block_header (mkBlockHeader BLOCK (Z.of_nat (length rs) + 1) next))) s1 = (Ok 12, s2) /\
    core s1 d1 c /\ owns d1 (_nextDataOffset s) (block_piece o rs next :: ps) /\ moved s s1 /\
    core s2 d2 c /\ owns d2 (_nextDataOffset s) (block_piece o (rs ++ [r]) next :: ps) /\ moved s s2 /\
    _nextDataOffset s2 = _nextDataOffset s.
Proof.
  intros H Ho Hrs. unfold PER_BLOCK in Hrs. pose proof (core_next _ _ _ H) as Hn.
  pose proof Ho as ((Hp1&Hp2&Hp3&Hp4)&_&_)%owns_cons. unfold stop in Hp3. cbn in Hp1, Hp3. unfold BLOCK in Hp3.
  assert (length (block_content rs next) = (12 + 48 * length rs)%nat) as El by (unfold block_content; len).
  destruct (write_spec s d c (o + 12 + 48 * Z.of_nat (length rs)) (encode_record r)) as (s1&E1&H1&M1&N1); [done|lia|len|].
  pose proof (owns_extend _ _ _ _ (encode_record r) Ho ltac:(lia) ltac:(rewrite length_app; cbn; unfold BLOCK; len)) as O1.
  cbn [start room content block_piece] in O1. rewrite El in O1.
  replace (o + Z.of_nat (12 + 48 * length rs)) with (o + 12 + 48 * Z.of_nat (length rs)) in O1 by lia.
  set (d1 := splice d _ _) in *. pose proof (core_next _ _ _ H1) as Hn1. rewrite N1 in Hn1.
  destruct (write_spec s1 d1 c o (encode_block_header (mkBlockHeader BLOCK (Z.of_nat (length rs) + 1) next))) as (s2&E2&H2&M2&N2);
    [done|lia|rewrite length_encode_block_header; lia|].
  exists s1, s2, d1, (splice d1 o (encode_block_header (mkBlockHeader BLOCK (Z.of_nat (length rs) + 1) next))).
  rewrite length_encode_record in E1. rewrite length_encode_block_header in E2. split_and!; try done.
  - apply owns_cons in O1 as ((Q1&Q2&Q3&Q4)&Qa&Qo). apply owns_cons. split_and!; try done.
    cbn [content start block_piece] in *. by destruct (slice_app_inv _ _ _ _ Q1 Q4).
  - unfold block_content in O1. rewrite <- app_assoc in O1.
    unfold block_piece, block_content. rewrite length_app, Nat2Z.inj_add, encode_records_app.
    unfold encode_records at 2. cbn [mbind list_bind length]. rewrite app_nil_r.
    eapply owns_front; [done|lia|by rewrite !length_encode_block_header].
  - by eapply moved_trans.
  - by rewrite N2.
Qed.

(** ** Log records *)

(** Only the file, the end of the data and the counters have changed. *)
Definition steady (s s' : Ldb) : Prop :=
  config (pages s') = config (pages s) /\ _header s' = _header s /\ _growPagesStep s' = _growPagesStep s /\
  _defaultBlockSize s' = _defaultBlockSize s /\ _metatable s' = _metatable s /\ _tables s' = _tables s.

Lemma moved_steady s s' : moved s s' -> steady s s'.
Proof. by intros (p&n&->&E). Qed.

Lemma steady_trans s1 s2 s3 : steady s1 s2 -> steady s2 s3 -> steady s1 s3.
Proof. intros (?&?&?&?&?&?) (?&?&?&?&?&?). split_and!; congruence. Qed.

Lemma core_counts s d c x y z : core s d c -> core (set_counts x y z s) d c.
Proof. by intros [H1 H2 H3 H4 H5 H6 H7 H8 H9 H10]. Qed.

Lemma steady_counts s x y z : steady s (set_counts x y z s).
Proof. done. Qed.

(** The log record in the last block. *)
Lemma finish_same_block s d c t op idx r o rs ps :
  core s d c -> owns d (_nextDataOffset s) (block_piece o rs 0 :: ps) -> sizeof_FILE_HEADER <= o -> (length rs < PER_BLOCK)%nat ->
  valid_index op idx (records t) ->
  exists s' d', finish_record t op idx r (info_of o rs 0) None s =
      (Ok (true, mkTable (name t) (info_of o (rs ++ [r]) 0) (changed op idx r (records t))), s') /\
    core s' d' c /\ steady s s' /\ _nextDataOffset s' = _nextDataOffset s /\
    owns d' (_nextDataOffset s) (block_piece o (rs ++ [r]) 0 :: ps).
Proof.
  intros H Ho Hofs Hrs Hv. unfold PER_BLOCK in Hrs. pose proof (core_next _ _ _ H) as Hn.
  pose proof (core_cost _ _ _ H) as Hc. pose proof (core_limit _ _ _ H) as Hl. pose proof (core_grow _ _ _ H) as Hg.
  pose proof Ho as ((_&_&Hp3&_)&_&_)%owns_cons. unfold stop in Hp3. cbn in Hp3.
  unfold BLOCK, sizeof_FILE_HEADER, slack in *.
  destruct (write_entry_spec s d c o rs 0 r ps) as (s1&s2&d1&d2&E1&E2&H1&_&_&H2&O2&M2&N2); [done|done|done|].
  unfold finish_record, info_of, sizeof_BLOCK_HEADER, sizeof_LOG_RECORD. cbn [default blockHeader offset block_size usedCount nextBlockOffset].
  mstep (size_spec _ _ _ H). rewrite (u32_small (48 * _)), (u32_small (o + _ + _)), (u32_small (_ + 1)) by lia.
  rewrite (bind_lift_ok _ _ _ tt) by (unfold assert_; by ztest). mstep E1. mstep E2.
  destruct (change_records_ok op idx r (records t) Hv) as [n En].
  rewrite (bind_ok (mret tt) _ s2 tt s2) by done. mstep En. rewrite bind_modify.
  eexists _, d2. split; [do 3 f_equal; rewrite length_app; cbn [length]; by rewrite Nat2Z.inj_add|].
  split_and!; [by apply core_counts|by apply moved_steady in M2|done|done].
Qed.

(** The log record in a new block, which is linked to the last one. *)
Lemma finish_new_block s d c t op idx r o rs o2 ps :
  core s d c -> owns d (_nextDataOffset s) (block_piece o2 [] 0 :: block_piece o rs 0 :: ps) ->
  sizeof_FILE_HEADER <= o -> sizeof_FILE_HEADER <= o2 -> valid_index op idx (records t) ->
  exists s' d', finish_record t op idx r (info_of o rs o2) (Some (info_of o2 [] 0)) s =
      (Ok (true, mkTable (name t) (info_of o2 [r] 0) (changed op idx r (records t))), s') /\
    core s' d' c /\ steady s s' /\ _nextDataOffset s' = _nextDataOffset s /\
    owns d' (_nextDataOffset s) (block_piece o rs o2 :: block_piece o2 [r] 0 :: ps).
Proof.
  intros H Ho Hofs Hofs2 Hv. pose proof (core_next _ _ _ H) as Hn.
  pose proof (core_cost _ _ _ H) as Hc. pose proof (core_limit _ _ _ H) as Hl. pose proof (core_grow _ _ _ H) as Hg.
  pose proof Ho as ((_&_&Hp3&_)&_&((_&_&Hp4&_)&_&_)%owns_cons)%owns_cons. unfold stop in Hp3, Hp4. cbn in Hp3, Hp4.
  unfold BLOCK, sizeof_FILE_HEADER, slack in *.
  destruct (write_entry_spec s d c o2 [] 0 r (block_piece o rs 0 :: ps)) as (s1&s2&d1&d2&E1&E2&H1&_&_&H2&O2&M2&N2);
    [done|done|unfold PER_BLOCK; cbn; lia|].
  cbn [app length] in *. unfold finish_record, info_of, sizeof_BLOCK_HEADER, sizeof_LOG_RECORD.
  cbn [default blockHeader offset block_size usedCount nextBlockOffset length from_option id].
  mstep (size_spec _ _ _ H). rewrite (u32_small (48 * _)), (u32_small (o2 + _ + _)), (u32_small (_ + 1)) by lia.
  rewrite (bind_lift_ok _ _ _ tt) by (unfold assert_; by ztest). mstep E1. mstep E2.
  pose proof (core_next _ _ _ H2) as Hn2. rewrite N2 in Hn2.
  destruct (write_spec s2 d2 c o (encode_block_header (mkBlockHeader BLOCK (Z.of_nat (length rs)) o2))) as (s3&E3&H3&M3&N3);
    [done|lia|rewrite length_encode_block_header; lia|].
  erewrite bind_ok by (mstep (size_spec _ _ _ H2); rewrite (bind_lift_ok _ _ _ tt) by (unfold assert_; by ztest); mstep E3; done).
  destruct (change_records_ok op idx r (records t) Hv) as [n En]. mstep En. rewrite bind_modify.
  eexists _, _. split; [done|]. split_and!; [by apply core_counts|..].
  - eapply steady_trans; [by apply moved_steady|]. by apply moved_steady in M3.
  - cbn. by rewrite N3.
  - rewrite Permutation_swap in O2. unfold block_piece at 1, block_content in O2.
    unfold block_piece at 1, block_content. eapply owns_front; [done|lia|by rewrite !length_encode_block_header].
Qed.

(** What [AppendLogRecord] does: the data in new pieces, an entry at the end of the
    table's log, and the records changed. *)
Definition appended (s : Ldb) (c : Z) (t : TABLE_INFO) (bs : list block) (ps : list piece) (op idx : Z) (x : row)
    (result : res (bool * TABLE_INFO) * Ldb) : Prop :=
  exists s' d' bs' o' rs' nd id, let new := fresh op idx id nd x in
    let r := logged op idx x (records t) new in
    result = (Ok (true, mkTable (name t) (info_of o' rs' 0) (changed op idx r (records t))), s') /\
    core s' d' (c + BLOCK + row_size x) /\ steady s s' /\ is_dword id /\
    _nextDataOffset s <= nd /\ _nextDataOffset s' = nd + row_size x /\
    owns d' (_nextDataOffset s') (chain 0 (bs' ++ [(o', rs')]) ++ row_pieces new x ++ ps) /\
    Forall block_ok (bs' ++ [(o', rs')]) /\ ascending (bs' ++ [(o', rs')]) /\
    log (bs' ++ [(o', rs')]) = log bs ++ [r] /\ next_of 0 (bs' ++ [(o', rs')]) = next_of 0 bs.

(** The data and the log record, with the block known. *)
Definition write_record (t : TABLE_INFO) (op idx id : Z) (x : row) (info : LDB_BLOCK_HEADER_INFO)
    (newInfo : option LDB_BLOCK_HEADER_INFO) : M Ldb (bool * TABLE_INFO) :=
  fk ← write_field x.1.1;
  fv ← write_field x.1.2;
  fm ← write_field x.2;
  r ← lift (keep_fields op idx x.1.1 x.1.2 x.2 (records t) (mkRecord op idx id fk fv fm));
  finish_record t op idx r info newInfo.

Lemma row_size_nonneg x : 0 <= row_size x.
Proof.
  unfold row_size. pose proof (data_size_nonneg x.1.1). pose proof (data_size_nonneg x.1.2).
  pose proof (data_size_nonneg x.2). lia.
Qed.

Lemma core_more s d c c' : core s d c -> c <= c' -> c' + slack s < 2 ^ 32 -> core s d c'.
Proof. intros [? ? ? ? ? ? ? ? ? ?] ??. split; try done; lia. Qed.

Lemma append_same_block s d c t bs o rs ps op idx id x :
  core s d c -> owns d (_nextDataOffset s) (chain 0 (bs ++ [(o, rs)]) ++ ps) ->
  Forall block_ok (bs ++ [(o, rs)]) -> ascending (bs ++ [(o, rs)]) -> (length rs < PER_BLOCK)%nat ->
  row_given x -> valid_index op idx (records t) -> is_dword id -> c + BLOCK + row_size x + slack s < 2 ^ 32 ->
  appended s c t (bs ++ [(o, rs)]) ps op idx x (write_record t op idx id x (info_of o rs 0) None s).
Proof.
  intros H Ho Hb Ha Hrs Hx Hv Hid Hl. rewrite chain_snoc in Ho.
  pose proof (proj1 (Forall_app _ _ _) Hb) as [Hb1 [[Hofs _] _]%Forall_cons]. cbn in Hofs.
  destruct (write_row_spec s d c _ x H Ho Hx) as (s2&s3&s4&d4&E2&E3&E4&H4&M4&N4&O4); [unfold BLOCK in Hl; lia|].
  unfold write_record. set (nd := _nextDataOffset s) in *. mstep E2. mstep E3. mstep E4.
  specialize (O4 op idx id). change (mkRecord _ _ _ _ _ _) with (fresh op idx id nd x). set (new := fresh op idx id nd x) in *.
  mstep (keep_fields_ok op idx x (records t) new Hv). set (r := logged _ _ _ _ _).
  destruct (finish_same_block s4 d4 _ t op idx r o rs (chain o bs ++ row_pieces new x ++ ps) H4) as (s5&d5&E5&H5&S5&N5&O5);
    try done.
  { rewrite N4. refine (proj1 (owns_perm _ _ _ _ _) O4). solve_Permutation. }
  assert (slack s5 = slack s) as Es by (destruct S5 as (_&_&Eg&_); rewrite <- (moved_slack _ _ M4); unfold slack; by rewrite Eg).
  exists s5, d5, bs, o, (rs ++ [r]), nd, id. fold new r. rewrite E5. split_and!; try done.
  - eapply core_more; [done|unfold BLOCK; lia|lia].
  - by eapply steady_trans; [apply moved_steady|].
  - by rewrite N5, N4.
  - rewrite N5, chain_snoc. refine (proj1 (owns_perm _ _ _ _ _) O5). solve_Permutation.
  - apply Forall_app. split; [done|]. apply Forall_singleton. split; cbn; [done|]. rewrite length_app. cbn. lia.
  - by eapply ascending_last.
  - rewrite !log_app. unfold log. cbn [mbind list_bind snd]. by rewrite !app_nil_r, app_assoc.
  - by destruct bs as [|[]].
Qed.

Lemma append_new_block s s1 d1 c t bs o rs ps op idx id x :
  let nd := _nextDataOffset s in
  core s1 d1 (c + BLOCK) -> _nextDataOffset s1 = nd + BLOCK -> moved s s1 ->
  owns d1 (nd + BLOCK) (block_piece nd [] 0 :: chain 0 (bs ++ [(o, rs)]) ++ ps) ->
  Forall block_ok (bs ++ [(o, rs)]) -> ascending (bs ++ [(o, rs)]) -> sizeof_FILE_HEADER <= nd -> o + BLOCK < nd ->
  row_given x -> valid_index op idx (records t) -> is_dword id -> c + BLOCK + row_size x + slack s < 2 ^ 32 ->
  appended s c t (bs ++ [(o, rs)]) ps op idx x (write_record t op idx id x (info_of o rs nd) (Some (info_of nd [] 0)) s1).
Proof.
  intros nd H N1 M1 Ho Hb Ha Hnd Hlt Hx Hv Hid Hl. rewrite chain_snoc in Ho. rewrite <- N1 in Ho.
  pose proof (proj1 (Forall_app _ _ _) Hb) as [Hb1 [[Hofs _] _]%Forall_cons]. cbn in Hofs.
  pose proof (moved_slack _ _ M1) as S1.
  destruct (write_row_spec s1 d1 _ _ x H Ho Hx) as (s2&s3&s4&d4&E2&E3&E4&H4&M4&N4&O4); [lia|].
  unfold write_record. mstep E2. mstep E3. mstep E4. rewrite N1 in *.
  specialize (O4 op idx id). change (mkRecord _ _ _ _ _ _) with (fresh op idx id (nd + BLOCK) x).
  set (new := fresh op idx id (nd + BLOCK) x) in *.
  mstep (keep_fields_ok op idx x (records t) new Hv). set (r := logged _ _ _ _ _).
  destruct (finish_new_block s4 d4 _ t op idx r o rs nd (chain o bs ++ row_pieces new x ++ ps) H4) as (s5&d5&E5&H5&S5&N5&O5);
    try done.
  { rewrite N4. refine (proj1 (owns_perm _ _ _ _ _) O4). solve_Permutation. }
  exists s5, d5, (bs ++ [(o, rs)]), nd, [r], (nd + BLOCK), id. fold new r. rewrite E5. split_and!; try done.
  - eapply steady_trans; [|done]. apply moved_steady. by eapply moved_trans.
  - unfold BLOCK. lia.
  - by rewrite N5, N4.
  - rewrite N5, !chain_snoc. refine (proj1 (owns_perm _ _ _ _ _) O5). solve_Permutation.
  - apply Forall_app. split; [done|]. apply Forall_singleton. split; cbn; [done|unfold PER_BLOCK; lia].
  - rewrite <- app_assoc. by apply ascending_snoc.
  - by rewrite !log_app.
  - by destruct bs as [|[]].
Qed.

Lemma AppendLogRecord_spec s d c t bs o rs ps op idx x :
  core s d c -> owns d (_nextDataOffset s) (chain 0 (bs ++ [(o, rs)]) ++ ps) ->
  Forall block_ok (bs ++ [(o, rs)]) -> ascending (bs ++ [(o, rs)]) ->
  lastBlockHeaderInfo t = info_of o rs 0 -> row_given x -> valid_index op idx (records t) ->
  (length rs = PER_BLOCK -> o + BLOCK < _nextDataOffset s) ->
  c + BLOCK + row_size x + slack s < 2 ^ 32 ->
  appended s c t (bs ++ [(o, rs)]) ps op idx x (AppendLogRecord t op idx x.1.1 x.1.2 x.2 s).
Proof.
  intros H Ho Hb Ha Hi Hx Hv Hfull Hl.
  pose proof (proj1 (Forall_app _ _ _) Hb) as [Hb1 [[Hofs Hrs] _]%Forall_cons]. cbn in Hofs, Hrs.
  set (id := u32 (_lastRecordID s + 1)). set (s0 := set_counts (_totalRecordCount s) (_totalLogRecordCount s) id s).
  assert (core s0 d c) as H0 by (by apply core_counts).
  assert (is_dword id) as Hid by apply u32_range.
  unfold AppendLogRecord. rewrite (bind_lift_ok _ _ _ tt).
  2: { unfold assert_, CheckIndex. destruct Hv as [? [->|[->|[[-> [->|Hv]]|[_ Hv]]]]]; [done..| |];
       apply Z.ltb_lt in Hv; rewrite Hv; by rewrite orb_true_r. }
  rewrite bind_modify, bind_get. fold id. fold s0. change (_lastRecordID s0) with id. rewrite Hi.
  destruct (decide (length rs = PER_BLOCK)) as [Hr|Hr].
  - destruct (CreateNewBlock_spec s0 d c _ o rs H0 Ho Hr) as (s1&d1&E1&H1&M1&N1&O1).
    { pose proof (row_size_nonneg x). change (slack s0) with (slack s). lia. }
    mstep E1. apply (append_new_block s0 s1 d1 c t bs o rs ps op idx id x); try done; [apply (core_next _ _ _ H)|by apply Hfull].
  - rewrite (bind_ok _ _ s0 (info_of o rs 0, None) s0).
    + apply (append_same_block s0 d); try done. lia.
    + unfold CreateNewBlockIfNeeded, info_of. cbn [blockHeader].
      by rewrite CheckNeedForNewBlock_spec, bool_decide_false by done.
Qed.

End LogWrites.
