(* ===== verification/LogLoad.v ===== *)
(** * Reading the log

    What the loading functions of [logdb.h] make of the pieces of the file: a
    block gives back its log records, a chain of blocks the replay of its log,
    whatever page size the file is read with. *)
From S2P Require Import Prelude StdMap LogFile LogDb LogLayout LogWrites.

Module LogLoad.
Import StdMap LogFile LogDb LogLayout LogWrites.

(** Loading reads the file [d], changes counters, and moves the end of the data
    up, but not above [n]. *)
Definition loads (d : bytes) (n : Z) (s s' : Ldb) : Prop :=
  steady s s' /\ represents (pages s') d /\ file_data (file (pages s')) = file_data (file (pages s)) /\
  files (file (pages s')) = files (file (pages s)) /\
  _nextDataOffset s <= _nextDataOffset s' /\ (_nextDataOffset s <= n -> _nextDataOffset s' <= n).

Lemma loads_trans d n s1 s2 s3 : loads d n s1 s2 -> loads d n s2 s3 -> loads d n s1 s3.
Proof.
  intros (?&?&?&?&?&?) (?&?&?&?&?&?). split_and!; [by eapply steady_trans|done|congruence|congruence|lia|lia].
Qed.

Lemma loads_refl d n s : represents (pages s) d -> loads d n s s.
Proof. intros. split_and!; done || lia. Qed.

(** The end of the data moves up to [m]. *)
Lemma loads_next d n s m :
  represents (pages s) d -> m <= n ->
  let s' := if _nextDataOffset s <? m then set_next m s else s in loads d n s s' /\ m <= _nextDataOffset s'.
Proof.
  intros H Hm. cbn zeta. destruct (_ <? m) eqn:E; bool_to_prop; (split; [split_and!; cbn; done || lia|cbn; lia]).
Qed.

Lemma read_spec s d n off k :
  represents (pages s) d -> 0 <= off -> 0 <= k -> off + k <= Z.of_nat (length d) ->
  exists s', on_pages (Read off k) s = (Ok (k, slice d off k), s') /\ loads d n s s' /\ _nextDataOffset s' = _nextDataOffset s.
Proof.
  intros H H1 H2 H3. destruct (Read_spec _ _ _ _ H H1 H2 H3) as (p&E&Hr&Hc&Hf).
  unfold on_pages. rewrite E. eexists. split; [done|]. split; [|done]. split_and!; cbn; try done || lia.
  by rewrite (rep_data _ _ Hr), (rep_data _ _ H).
Qed.

(** The log records of a block, one by one. *)
Lemma load_records_spec d n : forall l t s,
  represents (pages s) d -> Forall (entry_ok n) l ->
  exists s', load_records t l s = (Ok (set_records (replay l (records t)) t), s') /\ loads d n s s' /\
    Forall (fun r => record_end r <= _nextDataOffset s') l.
Proof.
  induction l as [|r l IH]; intros t s Hr H.
  { exists s. cbn. split_and!; [by destruct t|by apply loads_refl|constructor]. }
  apply Forall_cons in H as [(_&Hn&Hop) H]. cbn [load_records]. unfold load_record.
  destruct (replay_record r (records t)) as [rs diff] eqn:Er.
  set (s1 := set_counts (u32 (_totalRecordCount s + diff)) (u32 (_totalLogRecordCount s + 1))
        (if _lastRecordID s <? recordID r then recordID r else _lastRecordID s) s).
  destruct (loads_next d n s1 (record_end r) Hr Hn) as [L1 G1].
  set (s2 := if _nextDataOffset s1 <? _ then _ else _) in *.
  rewrite (bind_ok _ _ s (set_records rs t) s2).
  2: { rewrite bind_modify. fold s1. rewrite (bind_lift_ok _ _ _ tt); [by rewrite bind_modify|]. unfold assert_.
       destruct Hop as [->|[->|Hop]]; [done|by rewrite orb_true_r|].
       by replace (record_end r =? 0) with false by (symmetry; by apply Z.eqb_neq); rewrite orb_true_r. }
  destruct (IH (set_records rs t) s2) as (s3&E3&L3&G3); [apply L1|done|].
  exists s3. rewrite E3. split_and!.
  - cbn. by rewrite Er.
  - eapply loads_trans; [|done]. destruct L1 as (?&?&?&?&?&?). split_and!; try done.
  - constructor; [|done]. destruct L3 as (_&_&_&_&?&_). lia.
Qed.

(** A block. *)
Lemma LoadBlock_spec d n t s o rs next ps :
  represents (pages s) d -> owns d n (block_piece o rs next :: ps) -> n <= Z.of_nat (length d) -> n < 2 ^ 32 ->
  (length rs <= PER_BLOCK)%nat -> is_dword next -> Forall (entry_ok n) rs -> offset (lastBlockHeaderInfo t) = o ->
  exists s', LoadBlock t s = (Ok (mkTable (name t) (info_of o rs next) (replay rs (records t))), s') /\ loads d n s s' /\
    o + BLOCK <= _nextDataOffset s' /\ Forall (fun r => record_end r <= _nextDataOffset s') rs.
Proof.
  intros Hr Ho Hn Hn2 Hrs Hnext He Ht. unfold PER_BLOCK in Hrs.
  apply owns_cons in Ho as ((Hp1&Hp2&Hp3&Hp4)&_&_). unfold stop in Hp3. cbn in Hp1, Hp3. unfold BLOCK in Hp3.
  destruct (slice_app_inv _ _ _ _ Hp1 Hp4) as [Eh Er]. cbn [start block_piece] in Eh, Er.
  rewrite length_encode_block_header in Eh, Er. rewrite length_encode_records in Er.
  unfold LoadBlock. rewrite Ht.
  destruct (read_spec s d n o sizeof_BLOCK_HEADER Hr) as (s1&E1&L1&N1); [done|done|unfold sizeof_BLOCK_HEADER; lia|].
  mstep E1. unfold sizeof_BLOCK_HEADER. change (Z.of_nat 12) with 12 in Eh, Er. rewrite Eh.
  rewrite <- (app_nil_r (encode_block_header _)), decode_encode_block_header by
    (unfold is_dword, BLOCK in *; cbn; lia || done). cbn [block_size usedCount].
  rewrite u32_small by (unfold BLOCK; lia).
  destruct (loads_next d n s1 (o + BLOCK)) as [L2 G2]; [apply L1|unfold BLOCK; lia|].
  rewrite bind_modify. set (s2 := if _ <? _ then _ else _) in *.
  destruct (_ =? 0) eqn:E0; bool_to_prop.
  { assert (rs = []) as -> by (by destruct rs). exists s2. split_and!; [by destruct t|by eapply loads_trans|done|constructor]. }
  unfold LoadLogRecords, info_of, sizeof_LOG_RECORD, sizeof_BLOCK_HEADER. cbn [lastBlockHeaderInfo set_info blockHeader usedCount offset].
  rewrite (u32_small (_ * 48)), (u32_small (o + 12)), Z.div_mul by lia.
  destruct (read_spec s2 d n (o + 12) (Z.of_nat (length rs) * 48)) as (s3&E3&L3&N3); [apply L2|lia|lia|lia|].
  rewrite (bind_ok _ _ s2 rs s3).
  2: { mstep E3. replace (Z.of_nat (length rs) * 48) with (Z.of_nat (48 * length rs)) by lia.
       rewrite Er, Nat2Z.id, decode_encode_records; [done|]. eapply Forall_impl; [done|]. by intros r [? _]. }
  destruct (load_records_spec d n rs (set_info (info_of o rs next) t) s3) as (s4&E4&L4&G4); [apply L3|done|].
  unfold info_of in E4. mstep E4. rewrite Z.eqb_refl. exists s4. split_and!; [done| | |done].
  - eauto using loads_trans.
  - destruct L3 as (_&_&_&_&?&_), L4 as (_&_&_&_&?&_). lia.
Qed.

(** The block header that a table has after loading. *)
Definition last_info (bs : list block) (i : LDB_BLOCK_HEADER_INFO) : LDB_BLOCK_HEADER_INFO :=
  match last bs with Some (o, rs) => info_of o rs 0 | None => i end.

(** Everything of a chain is before [m]. *)
Definition chain_before (m : Z) (bs : list block) : Prop :=
  Forall (fun b => b.1 + BLOCK <= m) bs /\ Forall (fun r => record_end r <= m) (log bs).

Lemma chain_before_mono m m' bs : chain_before m bs -> m <= m' -> chain_before m' bs.
Proof. intros [H1 H2] Hm. split; (eapply Forall_impl; [done|]; cbn; lia). Qed.

Lemma chain_bounds d n z bs ps b : owns d n (chain z bs ++ ps) -> b ∈ bs -> 0 <= b.1 /\ b.1 + BLOCK <= n.
Proof.
  induction bs as [|[o rs] bs IH]; cbn; [by intros _ ?%elem_of_nil|].
  intros Ho [->|Hb]%elem_of_cons.
  - destruct (owns_bounds _ _ _ (block_piece o rs (next_of z bs)) Ho) as (?&_&?); [left|]. done.
  - apply IH; [|done]. by apply owns_cons in Ho as (_&_&?).
Qed.

Lemma load_blocks_spec d n ps : forall bs fuel t s,
  represents (pages s) d -> owns d n (chain 0 bs ++ ps) -> n <= Z.of_nat (length d) -> n < 2 ^ 32 ->
  Forall block_ok bs -> ascending bs -> Forall (entry_ok n) (log bs) -> (length bs < fuel)%nat ->
  exists s', load_blocks fuel (next_of 0 bs) t s =
      (Ok (mkTable (name t) (last_info bs (lastBlockHeaderInfo t)) (replay (log bs) (records t))), s') /\
    loads d n s s' /\ chain_before (_nextDataOffset s') bs.
Proof.
  induction bs as [|[o rs] bs IH]; intros fuel t s Hr Ho Hn Hn2 Hb Ha He Hf; (destruct fuel as [|fuel]; [cbn in Hf; lia|]).
  { exists s. cbn. split_and!; [by destruct t|by apply loads_refl|by split]. }
  assert (is_dword (next_of 0 bs)) as Hnext.
  { destruct bs as [|b bs]; [done|]. destruct (chain_bounds d n 0 ((o, rs) :: b :: bs) ps b) as [? ?]; [done|right; left|].
    cbn. unfold is_dword, BLOCK in *. lia. }
  apply Forall_cons in Hb as [[Hofs Hrs] Hb]. cbn in Hofs, Hrs. unfold sizeof_FILE_HEADER in Hofs.
  cbn [chain app] in Ho. cbn [ascending] in Ha. destruct Ha as [Ha1 Ha2]. cbn [fst] in Ha1.
  unfold log in He. cbn [mbind list_bind snd] in He. apply Forall_app in He as [He1 He2].
  cbn [load_blocks next_of fst]. ztest.
  destruct (LoadBlock_spec d n (set_info (mkBlockInfo (blockHeader (lastBlockHeaderInfo t)) o) t) s o rs (next_of 0 bs) (chain 0 bs ++ ps))
    as (s1&E1&L1&G1&G1'); try done.
  mstep E1. cbn [lastBlockHeaderInfo blockHeader info_of nextBlockOffset block_size name records set_info].
  rewrite (bind_lift_ok _ _ _ tt).
  2: { unfold assert_. destruct bs as [|b bs]; [done|]. cbn [next_of].
       destruct (chain_bounds d n 0 (b :: bs) ps b) as [? ?]; [by apply owns_cons in Ho as (_&_&?)|left|].
       unfold BLOCK in *. rewrite u32_small by lia. replace (o + 4096 <? b.1) with true by (symmetry; apply Z.ltb_lt; lia).
       by rewrite orb_true_r. }
  apply owns_cons in Ho as (_&_&Ho). cbn in Hf.
  destruct (IH fuel (mkTable (name t) (info_of o rs (next_of 0 bs)) (replay rs (records t))) s1) as (s2&E2&L2&G2); try done;
    [apply L1|lia|].
  exists s2. rewrite E2. pose proof L2 as (_&_&_&_&Hle&_). split_and!.
  - unfold log. cbn [mbind list_bind snd]. rewrite log_replay_app. unfold last_info. rewrite last_cons.
    cbn [name records lastBlockHeaderInfo]. by destruct (last bs) as [[]|] eqn:El; [|apply last_None in El as ->].
  - by eapply loads_trans.
  - destruct G2 as [G2 G2']. split.
    + constructor; [cbn; lia|done].
    + unfold log. cbn [mbind list_bind snd]. apply Forall_app. split; [|done].
      eapply Forall_impl; [done|]. cbn. lia.
Qed.

(** The chain is shorter than the file. *)
Lemma chain_length m : forall bs, ascending bs -> Forall (fun b => b.1 < m) bs -> bs <> [] -> next_of 0 bs + Z.of_nat (length bs) <= m.
Proof.
  induction bs as [|[o rs] bs IH]; intros Ha Hm Hne; [done|]. apply Forall_cons in Hm as [Hm1 Hm].
  cbn [ascending] in Ha. destruct Ha as [Ha1 Ha2]. cbn in *. destruct bs as [|b bs]; [cbn; lia|].
  specialize (IH Ha2 Hm ltac:(done)). cbn in *. unfold BLOCK in *. lia.
Qed.

(** A table is loaded as it was written. *)
Lemma LoadAllBlocks_spec d n ps bs t s :
  represents (pages s) d -> owns d n (chain 0 bs ++ ps) -> n <= Z.of_nat (length d) -> n < 2 ^ 32 ->
  Forall block_ok bs -> ascending bs -> Forall (entry_ok n) (log bs) -> bs <> [] ->
  offset (lastBlockHeaderInfo t) = next_of 0 bs -> 
  exists s', LoadAllBlocks t s =
      (Ok (mkTable (name t) (last_info bs zero_info) (replay (log bs) (records t))), s') /\
    loads d n s s' /\ chain_before (_nextDataOffset s') bs.
Proof.
  intros Hr Ho Hn Hn2 Hb Ha He Hne Ht. unfold LoadAllBlocks. rewrite Ht.
  assert (Forall (fun b => b.1 < Z.of_nat (length d)) bs) as Hlt.
  { apply Forall_forall. intros b Hbs. destruct (chain_bounds _ _ _ _ _ _ Ho Hbs). unfold BLOCK in *. lia. }
  pose proof (chain_length _ _ Ha Hlt Hne) as Hlen.
  assert (sizeof_FILE_HEADER <= next_of 0 bs) as H16.
  { destruct bs as [|b bs]; [done|]. by apply Forall_cons in Hb as [[? _] _]. }
  unfold sizeof_FILE_HEADER in H16. rewrite (bind_lift_ok _ _ _ tt) by (unfold assert_; by ztest).
  erewrite bind_on_pages by (by apply GetFileSize_spec). rewrite set_pages_id.
  destruct (load_blocks_spec d n ps bs (S (Z.to_nat (Z.of_nat (length d)))) t s) as (s'&E&L&G); try done; [lia|].
  exists s'. rewrite E. split_and!; [|done|done]. unfold last_info.
  destruct (last bs) as [[]|] eqn:El; [done|]. by apply last_None in El.
Qed.

End LogLoad.
