(* ===== verification/LogTables.v ===== *)
(** * The tables of the log database

    The invariant of an open [Ldb] (see [LogDb.v]): its file has the file header,
    the blocks of the metatable, and for each table its name, its blocks and the
    data of its rows, all in places of their own; and the tables in memory are
    what replaying the logs on disk gives.  The operations keep it and do to the
    rows what they say, and loading the file establishes it again. *)
From S2P Require Import Prelude StdMap LogFile LogDb LogLayout LogWrites LogLoad.

Module LogTables.
Import StdMap LogFile LogDb LogLayout LogWrites LogLoad.

(** ** Changes of a list *)

(** What an operation does to a list of records, or of rows. *)
Definition update {A} (op idx : Z) (a : A) (l : list A) : list A :=
  let i := Z.to_nat idx in
  if op =? OPERATION_APPEND then l ++ [a]
  else if op =? OPERATION_SET then <[i := a]> l
  else if op =? OPERATION_INSERT then take i l ++ a :: drop i l
  else if op =? OPERATION_DELETE then take i l ++ drop (S i) l
  else [].

Ltac by_op H :=
  unfold valid_index, OPERATION_SET, OPERATION_APPEND, OPERATION_CLEAR, OPERATION_INSERT, OPERATION_DELETE in *;
  destruct H as [? [->|[->|[[-> ?]|[[->| ->] ?]]]]].

Lemma changed_update op idx r rs : valid_index op idx rs -> changed op idx r rs = update op idx r rs.
Proof.
  intros H. unfold changed, change_records, update, vector_set, vector_insert, vector_erase.
  by_op H; cbn [Z.eqb Pos.eqb]; ztest; try done.
  destruct (idx =? _) eqn:E; bool_to_prop.
  - subst idx. rewrite Nat2Z.id, take_ge, drop_ge by lia. done.
  - ztest. done.
Qed.

Lemma update_fmap {A B} (f : A -> B) op idx a l : update op idx (f a) (f <$> l) = f <$> update op idx a l.
Proof.
  unfold update. repeat case_match; rewrite ?fmap_app, ?fmap_cons, ?fmap_take, ?fmap_drop, ?list_fmap_insert; done.
Qed.

Lemma update_Forall {A} (P : A -> Prop) op idx a l : (op <> OPERATION_DELETE -> op <> OPERATION_CLEAR -> P a) -> Forall P l -> Forall P (update op idx a l).
Proof.
  intros Ha Hl. unfold update. repeat case_match; bool_to_prop; subst; try done.
  - apply Forall_app. auto.
  - apply Forall_insert; auto.
  - apply Forall_app. split; [by apply Forall_take|]. constructor; [auto|by apply Forall_drop].
  - apply Forall_app. split; [by apply Forall_take|by apply Forall_drop].
Qed.

Lemma update_length {A} op idx (a : A) l : (length (update op idx a l) <= S (length l))%nat.
Proof. unfold update. repeat case_match; rewrite ?length_app; cbn [length]; len. Qed.

(** ** Rows *)

Definition field_is (f : LDB_LOG_RECORD_FIELD) (o : option bytes) : Prop :=
  match o with
  | Some b => b <> [] /\ dataSize f = Z.of_nat (length b) /\ hash f = DoHash b
  | None => f = zero_field
  end.

Definition row_is (r : LDB_LOG_RECORD) (x : row) : Prop :=
  field_is (key r) x.1.1 /\ field_is (value r) x.1.2 /\ field_is (metadata r) x.2.

Definition nonempty (x : row) : Prop := x <> (None, None, None).

(** The fields of [x], and those of [y] where [x] has none. *)
Definition merge (x y : row) : row := (x.1.1 ∪ y.1.1, x.1.2 ∪ y.1.2, x.2 ∪ y.2).

(** The file header, in the first bytes of the file. *)
Definition header_piece : piece := mkPiece 0 16 (encode_file_header (mkFileHeader LDB_MAGIC 1 0 sizeof_FILE_HEADER)).

Lemma field_at_is nd o : given o -> field_is (field_at nd o) o.
Proof. destruct o as [b|]; [|done]. cbn. intros H. split_and!; try done. by intros ->. Qed.

Lemma fresh_is op idx id nd x : row_given x -> row_is (fresh op idx id nd x) x.
Proof. intros (?&?&?). split_and!; by apply field_at_is. Qed.

(** A field and its piece. *)
Lemma field_bounds d nd f o ps :
  owns d nd (header_piece :: field_pieces f o ++ ps) -> nd < 2 ^ 32 -> field_is f o ->
  field_ok f /\ match o with Some b => 16 <= dataOffset f /\ 0 < dataSize f /\ dataOffset f + dataSize f <= nd | None => f = zero_field end.
Proof.
  intros Ho Hnd Hf. destruct o as [b|]; cbn in *; [|by subst f].
  destruct Hf as (Hb&Es&Eh). apply owns_cons in Ho as (_&[Ha _]%Forall_cons&((Hp1&_&Hp3&_)&_&_)%owns_cons).
  unfold apart, stop in *. cbn in *. pose proof (DoHash_range b).
  assert (0 < Z.of_nat (length b)) by (destruct b; [done|cbn; lia]).
  unfold field_ok, is_dword. rewrite Es, Eh. lia.
Qed.

(** Where the data of a record ends. *)
Lemma record_end_spec d nd r x ps :
  owns d nd (header_piece :: row_pieces r x ++ ps) -> nd < 2 ^ 32 -> row_is r x ->
  (field_ok (key r) /\ field_ok (value r) /\ field_ok (metadata r)) /\ 0 <= record_end r <= Z.max 0 nd /\
  (nonempty x -> record_end r <> 0) /\ (forall p, p ∈ row_pieces r x -> stop p <= record_end r).
Proof.
  destruct x as [[k v] m]. unfold row_is, row_pieces. cbn [fst snd]. intros Ho Hnd (Hk&Hv&Hm). rewrite <- !app_assoc in Ho.
  destruct (field_bounds d nd (key r) k (field_pieces (value r) v ++ field_pieces (metadata r) m ++ ps)) as [Fk Bk]; [done..|].
  destruct (field_bounds d nd (value r) v (field_pieces (key r) k ++ field_pieces (metadata r) m ++ ps)) as [Fv Bv]; [|done..|].
  { refine (proj1 (owns_perm _ _ _ _ _) Ho). solve_Permutation. }
  destruct (field_bounds d nd (metadata r) m (field_pieces (key r) k ++ field_pieces (value r) v ++ ps)) as [Fm Bm]; [|done..|].
  { refine (proj1 (owns_perm _ _ _ _ _) Ho). solve_Permutation. }
  split; [done|]. apply owns_cons in Ho as (_&_&[_ Hs]).
  assert (forall f g o o' l, separate (field_pieces f o ++ l) -> field_is f o -> field_is g o' -> field_pieces g o' ⊆ l ->
    o <> None -> o' <> None -> dataOffset f + dataSize f <= dataOffset g \/ dataOffset g + dataSize g <= dataOffset f) as Hap.
  { intros f g [b|] [b'|] l Hsep Hf Hg Hsub ? ?; try done.
    destruct Hf as (_&E1&_), Hg as (_&E2&_), Hsep as [Hsep _].
    rewrite Forall_forall in Hsep. specialize (Hsep (data_piece (dataOffset g) b')). unfold apart, stop in Hsep. cbn in *.
    rewrite E1, E2. apply Hsep, Hsub. left. }
  assert (forall f l, separate (f ++ l) -> separate l) as Htl by (induction f as [|q f IH]; cbn; naive_solver).
  pose proof (Hap (key r) (value r) k v _ Hs Hk Hv ltac:(set_solver)) as A1.
  pose proof (Hap (key r) (metadata r) k m _ Hs Hk Hm ltac:(set_solver)) as A2.
  pose proof (Hap (value r) (metadata r) v m _ (Htl _ _ Hs) Hv Hm ltac:(set_solver)) as A3.
  unfold record_end, nonempty, field_ok, is_dword in *.
  assert (forall q f o, q ∈ field_pieces f o -> field_is f o -> stop q = dataOffset f + dataSize f) as Hst.
  { intros q f [b|] Hq; [|by apply elem_of_nil in Hq]. apply list_elem_of_singleton in Hq as ->. intros (_&E&_). unfold stop. cbn. lia. }
  destruct k as [k|], v as [v|], m as [m|]; rewrite ?Bk, ?Bv, ?Bm in *; cbn [dataOffset dataSize zero_field] in *;
    repeat match goal with A : Some _ <> None -> Some _ <> None -> _ |- _ => specialize (A ltac:(done) ltac:(done)) end;
    repeat case_match; bool_to_prop; rewrite ?u32_small by lia;
    (split_and!; [lia|lia|first [intros _; lia | intros Hne; by destruct Hne]|]);
    (intros q Hq; rewrite !elem_of_app in Hq;
     destruct Hq as [Hq|[Hq|Hq]]; first [by apply elem_of_nil in Hq | rewrite (Hst _ _ _ Hq ltac:(eassumption)); lia]).
Qed.

(** ** Logs *)

(** A chain of blocks whose log gives the records [rs]. *)
Record log_ok (nd : Z) (bs : list block) (rs : list LDB_LOG_RECORD) : Prop := {
  log_blocks : bs <> [];
  log_block_ok : Forall block_ok bs;
  log_ascending : ascending bs;
  log_entries : Forall (entry_ok nd) (log bs);
  log_replay : replay (log bs) [] = rs
}.

(** A last block that is full has something behind it. *)
Definition linkable (nd : Z) (bs : list block) : Prop :=
  forall o rs, last bs = Some (o, rs) -> length rs = PER_BLOCK -> o + BLOCK < nd.

Lemma entries_mono nd nd' l : Forall (entry_ok nd) l -> nd <= nd' -> Forall (entry_ok nd') l.
Proof. intros H Hn. eapply Forall_impl; [done|]. intros r (?&?&?). split_and!; [done|lia|done]. Qed.

(** The row that is there after an operation with the row [x]: [x'], whose data is
    new or among the pieces [ps]. *)
Definition settles (op idx : Z) (x : row) (rs : list LDB_LOG_RECORD) (ps : list piece) (x' : row) : Prop :=
  (x = (None, None, None) /\ (op = OPERATION_DELETE \/ op = OPERATION_CLEAR)) \/
  (nonempty x' /\ forall new, row_is new x ->
     row_is (logged op idx x rs new) x' /\ row_pieces (logged op idx x rs new) x' ⊆+ row_pieces new x ++ ps).

Lemma logged_numbers op idx x rs new :
  operation (logged op idx x rs new) = operation new /\ recordIndex (logged op idx x rs new) = recordIndex new /\
  recordID (logged op idx x rs new) = recordID new.
Proof. unfold logged, keep_fields. by repeat case_match; simplify_eq. Qed.

Lemma logged_other op idx x rs new : op <> OPERATION_SET -> logged op idx x rs new = new.
Proof. intros H. unfold logged, keep_fields. by apply Z.eqb_neq in H as ->. Qed.

(** The new entry is one that loading accepts. *)
Lemma new_entry_ok d nd nd0 op idx id x x' rs ps :
  owns d nd (header_piece :: row_pieces (fresh op idx id nd0 x) x ++ ps) -> 16 <= nd < 2 ^ 32 -> row_given x ->
  valid_index op idx rs -> idx < 2 ^ 32 -> is_dword id -> settles op idx x rs ps x' ->
  entry_ok nd (logged op idx x rs (fresh op idx id nd0 x)).
Proof.
  intros Ho Hnd Hx Hv Hi Hid Hs. set (new := fresh op idx id nd0 x) in *.
  destruct (logged_numbers op idx x rs new) as (E1&E2&E3). cbn in E1, E2, E3.
  assert (is_dword op /\ is_dword idx) as [Hop Hidx] by (unfold is_dword; by_op Hv; lia).
  unfold entry_ok, record_ok. rewrite E1, E2, E3. destruct Hs as [[-> Hs]|[Hne Hs]].
  - rewrite logged_other by (unfold OPERATION_SET, OPERATION_CLEAR, OPERATION_DELETE in *; lia). cbn in new.
    assert (field_ok zero_field) by done. change (record_end new) with 0. split_and!; try done || lia.
  - destruct (Hs new (fresh_is _ _ _ _ _ Hx)) as [Hr Hsub]. set (r := logged op idx x rs new) in *.
    assert (owns d nd (header_piece :: row_pieces r x' ++ [])) as Ho'.
    { rewrite app_nil_r. eapply owns_submseteq; [done|]. by apply submseteq_skip. }
    destruct (record_end_spec _ _ _ _ _ Ho' (proj2 Hnd) Hr) as ((?&?&?)&?&Hz&_).
    split_and!; try done; [lia|]. right. right. by apply Hz.
Qed.

(** An entry at the end of a log. *)
Definition entered (s : Ldb) (c : Z) (t : TABLE_INFO) (bs : list block) (ps : list piece) (op idx : Z) (x : row)
    (result : res (bool * TABLE_INFO) * Ldb) : Prop :=
  exists s' d' bs' id nd, let new := fresh op idx id nd x in
    let r := logged op idx x (records t) new in
    result = (Ok (true, mkTable (name t) (last_info bs' zero_info) (update op idx r (records t))), s') /\
    core s' d' (c + BLOCK + row_size x) /\ steady s s' /\ _nextDataOffset s <= _nextDataOffset s' /\
    owns d' (_nextDataOffset s') (header_piece :: chain 0 bs' ++ row_pieces new x ++ ps) /\
    bs' <> [] /\ Forall block_ok bs' /\ ascending bs' /\ Forall (entry_ok (_nextDataOffset s')) (log bs') /\
    log bs' = log bs ++ [r] /\ next_of 0 bs' = next_of 0 bs.

Lemma append_enters s d c t bs ps op idx x x' :
  core s d c -> owns d (_nextDataOffset s) (header_piece :: chain 0 bs ++ ps) ->
  log_ok (_nextDataOffset s) bs (records t) -> lastBlockHeaderInfo t = last_info bs zero_info ->
  row_given x -> valid_index op idx (records t) -> idx < 2 ^ 32 ->
  settles op idx x (records t) ps x' -> linkable (_nextDataOffset s) bs -> c + BLOCK + row_size x + slack s < 2 ^ 32 ->
  entered s c t bs ps op idx x (AppendLogRecord t op idx x.1.1 x.1.2 x.2 s).
Proof.
  intros H Ho [Hne Hb Ha He Hre] Ht Hx Hv Hi Hset Hlink Hl.
  destruct (exists_last Hne) as (bs0&[o rs]&->).
  unfold last_info in Ht. rewrite last_snoc in Ht. specialize (Hlink o rs). rewrite last_snoc in Hlink.
  destruct (AppendLogRecord_spec s d c t bs0 o rs (header_piece :: ps) op idx x) as
    (s'&d'&bs'&o'&rs'&nd&id&E&H'&S'&Hid&Hnd&Hnd'&Ho'&Hb'&Ha'&Hlog&Hnx); try done.
  { refine (proj1 (owns_perm _ _ _ _ _) Ho). solve_Permutation. }
  { by apply Hlink. }
  pose proof (row_size_nonneg x). pose proof (core_next _ _ _ H) as Hn16. pose proof (core_cost _ _ _ H').
  pose proof (core_limit _ _ _ H'). pose proof (core_grow _ _ _ H'). unfold sizeof_FILE_HEADER, slack in *.
  set (new := fresh op idx id nd x) in *. set (r := logged op idx x (records t) new) in *.
  assert (owns d' (_nextDataOffset s') (header_piece :: chain 0 (bs' ++ [(o', rs')]) ++ row_pieces new x ++ ps)) as Ho2.
  { refine (proj1 (owns_perm _ _ _ _ _) Ho'). solve_Permutation. }
  assert (entry_ok (_nextDataOffset s') r) as Hr.
  { eapply (new_entry_ok d' _ nd op idx id x x' (records t) ps); try done; [|lia].
    eapply owns_submseteq; [exact Ho2|]. apply submseteq_skip, submseteq_inserts_l. done. }
  exists s', d', (bs' ++ [(o', rs')]), id, nd. fold new r. rewrite E, changed_update by done.
  split_and!; try done; [by unfold last_info; rewrite last_snoc|lia|by destruct bs'|].
  rewrite Hlog. apply Forall_app. split; [eapply entries_mono; [done|lia]|by constructor].
Qed.

(** A table whose log grows by an operation. *)
Definition grown (s : Ldb) (c : Z) (t : TABLE_INFO) (bs : list block) (ps : list piece) (op idx : Z) (x : row)
    (result : res (bool * TABLE_INFO) * Ldb) : Prop :=
  exists s' d' bs' id nd, let new := fresh op idx id nd x in
    let rs := update op idx (logged op idx x (records t) new) (records t) in
    result = (Ok (true, mkTable (name t) (last_info bs' zero_info) rs), s') /\
    core s' d' (c + BLOCK + row_size x) /\ steady s s' /\ _nextDataOffset s <= _nextDataOffset s' /\
    owns d' (_nextDataOffset s') (header_piece :: chain 0 bs' ++ row_pieces new x ++ ps) /\
    log_ok (_nextDataOffset s') bs' rs /\ next_of 0 bs' = next_of 0 bs.

Lemma append_grows s d c t bs ps op idx x x' :
  core s d c -> owns d (_nextDataOffset s) (header_piece :: chain 0 bs ++ ps) ->
  log_ok (_nextDataOffset s) bs (records t) -> lastBlockHeaderInfo t = last_info bs zero_info ->
  row_given x -> valid_index op idx (records t) -> idx < 2 ^ 32 -> ~ (op = OPERATION_INSERT /\ records t = []) ->
  settles op idx x (records t) ps x' -> linkable (_nextDataOffset s) bs -> c + BLOCK + row_size x + slack s < 2 ^ 32 ->
  grown s c t bs ps op idx x (AppendLogRecord t op idx x.1.1 x.1.2 x.2 s).
Proof.
  intros H Ho Hlog Ht Hx Hv Hi Hins Hset Hlink Hl.
  destruct (append_enters s d c t bs ps op idx x x') as (s'&d'&bs'&id&nd&E&H'&S'&N'&O'&L1&L2&L3&L4&L5&X'); try done.
  exists s', d', bs', id, nd. split_and!; try done. split; try done.
  rewrite L5, log_replay_app, (log_replay _ _ _ Hlog). cbn.
  destruct (logged_numbers op idx x (records t) (fresh op idx id nd x)) as (E1&E2&_).
  rewrite <- changed_update by done. by apply replay_record_changed.
Qed.

End LogTables.
