(* ===== verification/LogRefine.v ===== *)
(** * The log database refines its tables

    The invariant of an open [Ldb], and that every operation on a table keeps it
    and changes the rows of that table as it says. *)
From S2P Require Import Prelude StdMap LogFile LogDb LogLayout LogWrites LogLoad LogTables.

Module LogRefine.
Import StdMap LogFile LogDb LogLayout LogWrites LogLoad LogTables.

(** ** What is on disk *)

(** A table: its blocks, and its rows with their records. *)
Record tbl := mkTbl { blocks_of : list block; rows_of : list (LDB_LOG_RECORD * row) }.

(** A table in the metatable. *)
Record entry := mkEntry { e_record : LDB_LOG_RECORD; e_name : bytes; e_table : tbl }.

(** The file's name, the blocks of the metatable, and the tables. *)
Record ghost := mkGhost { g_file : bytes; g_meta : list block; g_tabs : list entry }.

Definition rows_pieces (rows : list (LDB_LOG_RECORD * row)) : list piece := rows ≫= fun p => row_pieces p.1 p.2.

Definition entry_pieces (e : entry) : list piece :=
  field_pieces (key (e_record e)) (Some (e_name e)) ++ chain 0 (blocks_of (e_table e)) ++ rows_pieces (rows_of (e_table e)).

Definition layout (g : ghost) : list piece := header_piece :: chain 0 (g_meta g) ++ (g_tabs g ≫= entry_pieces).

Definition entry_wf (nd : Z) (e : entry) : Prop :=
  field_is (key (e_record e)) (Some (e_name e)) /\
  dataOffset (value (e_record e)) = next_of 0 (blocks_of (e_table e)) /\ dataSize (value (e_record e)) = BLOCK /\
  metadata (e_record e) = zero_field /\
  log_ok nd (blocks_of (e_table e)) (rows_of (e_table e)).*1 /\
  Forall (fun p => row_is p.1 p.2 /\ nonempty p.2) (rows_of (e_table e)).

(** The file [d], up to [nd], has these tables. *)
Record disk_ok (d : bytes) (nd : Z) (g : ghost) : Prop := {
  disk_owns : owns d nd (layout g);
  disk_meta : log_ok nd (g_meta g) (e_record <$> g_tabs g);
  disk_head : next_of 0 (g_meta g) = sizeof_FILE_HEADER;
  disk_entries : Forall (entry_wf nd) (g_tabs g);
  disk_names : NoDup (e_name <$> g_tabs g)
}.

(** ** What is in memory *)

Definition table_info (e : entry) : TABLE_INFO :=
  mkTable (e_name e) (last_info (blocks_of (e_table e)) zero_info) (rows_of (e_table e)).*1.

Definition named (e : entry) : bytes * TABLE_INFO := (e_name e, table_info e).

Record inv (s : Ldb) (d : bytes) (c : Z) (g : ghost) : Prop := {
  inv_core : core s d c;
  inv_grow : _growPagesStep s = 1024;
  inv_file : _file (file (pages s)) = Some (g_file g);
  inv_disk : disk_ok d (_nextDataOffset s) g;
  inv_metatable : _metatable s = mkTable [] (last_info (g_meta g) zero_info) (e_record <$> g_tabs g);
  inv_sorted : sorted (_tables s);
  inv_tables : to_map (_tables s) = list_to_map (named <$> g_tabs g);
  inv_count : Z.of_nat (length (g_tabs g)) <= c /\ Forall (fun e => Z.of_nat (length (rows_of (e_table e))) <= c) (g_tabs g)
}.

(** The tables as a client sees them. *)
Definition contents (g : ghost) : gmap bytes (list row) :=
  list_to_map ((fun e => (e_name e, (rows_of (e_table e)).*2)) <$> g_tabs g).

(** ** Rows after an operation *)

(** A set with fields left out keeps those. *)
Definition result_row (op idx : Z) (x : row) (rows : list row) : row :=
  if op =? OPERATION_SET then match rows !! Z.to_nat idx with Some y => merge x y | None => x end else x.

(** The operations with the data they need. *)
Definition acts (op : Z) (x : row) : Prop :=
  ((op = OPERATION_DELETE \/ op = OPERATION_CLEAR) /\ x = (None, None, None)) \/
  ((op = OPERATION_APPEND \/ op = OPERATION_INSERT) /\ nonempty x) \/ op = OPERATION_SET.

Definition pick (o : option bytes) (new kept : LDB_LOG_RECORD_FIELD) : LDB_LOG_RECORD_FIELD :=
  match o with Some _ => new | None => kept end.

Lemma pick_is o o' f f' : field_is f o -> field_is f' o' -> field_is (pick o f f') (o ∪ o').
Proof. by destruct o, o'. Qed.

Lemma pick_pieces o o' f f' : field_pieces (pick o f f') (o ∪ o') ⊆+ field_pieces f o ++ field_pieces f' o'.
Proof. destruct o, o'; cbn; try done. by apply submseteq_skip, submseteq_nil_l. Qed.

Lemma logged_set idx x rs new r0 :
  rs !! Z.to_nat idx = Some r0 ->
  logged OPERATION_SET idx x rs new = mkRecord (operation new) (recordIndex new) (recordID new)
    (pick x.1.1 (key new) (key r0)) (pick x.1.2 (value new) (value r0)) (pick x.2 (metadata new) (metadata r0)).
Proof. intros H. unfold logged, keep_fields. cbn [Z.eqb Pos.eqb negb OPERATION_SET]. by rewrite H. Qed.

Lemma merge_nonempty x y : nonempty y -> nonempty (merge x y).
Proof. destruct x as [[[] []] []], y as [[[] []] []]; done. Qed.

(** A set row: its fields, and where their data is. *)
Lemma set_row idx x new rows r0 x0 :
  rows !! Z.to_nat idx = Some (r0, x0) -> row_is new x -> row_is r0 x0 ->
  row_is (logged OPERATION_SET idx x rows.*1 new) (merge x x0) /\
  row_pieces (logged OPERATION_SET idx x rows.*1 new) (merge x x0) ⊆+ row_pieces new x ++ row_pieces r0 x0.
Proof.
  intros Hl (H1&H2&H3) (H4&H5&H6). rewrite (logged_set _ _ _ _ r0) by (by rewrite list_lookup_fmap, Hl).
  split; [split_and!; by apply pick_is|]. unfold row_pieces, merge. cbn [key value metadata fst snd].
  etrans; [apply submseteq_app, submseteq_app; apply pick_pieces|].
  apply Permutation_submseteq. solve_Permutation.
Qed.

Lemma rows_split rows i (r0 : LDB_LOG_RECORD) (x0 : row) :
  rows !! i = Some (r0, x0) -> rows_pieces rows ≡ₚ row_pieces r0 x0 ++ rows_pieces (take i rows ++ drop (S i) rows).
Proof.
  intros H. rewrite <- (take_drop_middle _ _ _ H) at 1. unfold rows_pieces. rewrite !bind_app, bind_cons. cbn [fst snd].
  solve_Permutation.
Qed.

(** All operations leave rows whose data is that of the new row and of the old ones. *)
Lemma update_pieces op idx x rows new :
  valid_index op idx rows.*1 -> acts op x -> row_is new x -> Forall (fun p => row_is p.1 p.2 /\ nonempty p.2) rows ->
  rows_pieces (update op idx (logged op idx x rows.*1 new, result_row op idx x rows.*2) rows) ⊆+
    row_pieces new x ++ rows_pieces rows.
Proof.
  intros Hv Ha Hn Hrows. unfold result_row. destruct (decide (op = OPERATION_SET)) as [->|Hns].
  - destruct Hv as [Hi Hv]. rewrite length_fmap in Hv. unfold update, OPERATION_SET, OPERATION_APPEND, OPERATION_INSERT,
      OPERATION_CLEAR, OPERATION_DELETE in *. cbn [Z.eqb Pos.eqb].
    destruct (lookup_lt_is_Some_2 rows (Z.to_nat idx)) as [[r0 x0] Hl]; [lia|].
    rewrite list_lookup_fmap, Hl. cbn [fmap option_fmap option_map snd].
    pose proof (Forall_lookup_1 _ _ _ _ Hrows Hl) as [Hr0 _].
    destruct (set_row idx x new rows r0 x0 Hl Hn Hr0) as [_ Hsub]. rewrite (rows_split rows _ _ _ Hl).
    rewrite insert_take_drop by (by eapply lookup_lt_Some). unfold rows_pieces. rewrite bind_app, bind_cons. cbn [fst snd].
    rewrite (app_assoc (row_pieces new x)).
    etrans; [|apply submseteq_app; [exact Hsub|reflexivity]]. rewrite bind_app. apply Permutation_submseteq. solve_Permutation.
  - rewrite logged_other by done. apply Z.eqb_neq in Hns as E. rewrite E. unfold update. rewrite E.
    repeat case_match; unfold rows_pieces; rewrite ?bind_app, ?bind_cons; cbn [fst snd].
    + apply Permutation_submseteq. cbn. rewrite app_nil_r. solve_Permutation.
    + rewrite <- (take_drop (Z.to_nat idx) rows) at 3. rewrite bind_app. apply Permutation_submseteq. solve_Permutation.
    + apply submseteq_inserts_l. rewrite <- (take_drop (Z.to_nat idx) rows) at 3. rewrite bind_app.
      apply submseteq_app; [done|]. rewrite <- (take_drop 1 (drop (Z.to_nat idx) rows)). rewrite bind_app, drop_drop.
      apply submseteq_inserts_l. by rewrite Nat.add_1_r.
    + apply submseteq_nil_l.
Qed.

Lemma settles_rows op idx x rows ps :
  valid_index op idx rows.*1 -> acts op x -> Forall (fun p => row_is p.1 p.2 /\ nonempty p.2) rows ->
  settles op idx x rows.*1 (rows_pieces rows ++ ps) (result_row op idx x rows.*2).
Proof.
  intros Hv Ha Hrows. unfold settles, result_row. destruct (decide (op = OPERATION_SET)) as [->|Hns].
  - destruct Hv as [Hi Hv]. rewrite length_fmap in Hv. right. unfold OPERATION_SET, OPERATION_APPEND, OPERATION_INSERT,
      OPERATION_CLEAR, OPERATION_DELETE in *. cbn [Z.eqb Pos.eqb].
    destruct (lookup_lt_is_Some_2 rows (Z.to_nat idx)) as [[r0 x0] Hl]; [lia|].
    rewrite list_lookup_fmap, Hl. cbn [fmap option_fmap option_map snd].
    pose proof (Forall_lookup_1 _ _ _ _ Hrows Hl) as [Hr0 Hn0]. cbn in Hr0, Hn0.
    split; [by apply merge_nonempty|]. intros new Hn. destruct (set_row idx x new rows r0 x0 Hl Hn Hr0) as [H1 H2].
    split; [done|]. etrans; [exact H2|]. apply submseteq_app; [done|]. rewrite (rows_split rows _ _ _ Hl), <- app_assoc.
    by apply submseteq_inserts_r.
  - apply Z.eqb_neq in Hns as E. rewrite E. destruct Ha as [[Ha ->]|[[Ha Hn]|Ha]]; [by left| |done].
    right. split; [done|]. intros new Hnew. rewrite logged_other by done. split; [done|]. by apply submseteq_inserts_r.
Qed.

(** ** Entries *)

Lemma entry_wf_mono nd nd' e : entry_wf nd e -> nd <= nd' -> entry_wf nd' e.
Proof.
  intros (?&?&?&?&[? ? ? He ?]&?) Hn. split_and!; try done. split; try done. by eapply entries_mono.
Qed.

Lemma log_ok_mono nd nd' bs rs : log_ok nd bs rs -> nd <= nd' -> log_ok nd' bs rs.
Proof. intros [? ? ? He ?] Hn. split; try done. by eapply entries_mono. Qed.

Lemma entries_mono_wf nd nd' l : Forall (entry_wf nd) l -> nd <= nd' -> Forall (entry_wf nd') l.
Proof. intros H Hn. eapply Forall_impl; [done|]. intros e He. by eapply entry_wf_mono. Qed.

(** A list of named things as a map, with one of them in view. *)
Lemma named_split {A B} (f : A -> bytes * B) l1 a l2 :
  NoDup ((f <$> l1 ++ a :: l2).*1) ->
  list_to_map (f <$> l1 ++ a :: l2) = <[(f a).1 := (f a).2]> (list_to_map (f <$> l1 ++ l2) : gmap bytes B).
Proof.
  intros H. rewrite (list_to_map_proper _ ((f a) :: (f <$> l1 ++ l2))).
  - by destruct (f a).
  - done.
  - rewrite !fmap_app. cbn. solve_Permutation.
Qed.

Lemma named_fst l : (named <$> l).*1 = e_name <$> l.
Proof. rewrite <- list_fmap_compose. done. Qed.

(** The table behind a name. *)
Lemma find_entry s d c g n t :
  inv s d c g -> find n (_tables s) = Some t ->
  exists l1 e l2, g_tabs g = l1 ++ e :: l2 /\ e_name e = n /\ t = table_info e.
Proof.
  intros H E. rewrite find_to_map, (inv_tables _ _ _ _ H) in E. apply elem_of_list_to_map_2 in E.
  apply list_elem_of_fmap in E as (e&E&He). apply list_elem_of_split in He as (l1&l2&He).
  exists l1, e, l2. by injection E as -> ->.
Qed.

Lemma table_entry_find s d c g l1 e l2 :
  inv s d c g -> g_tabs g = l1 ++ e :: l2 -> find (e_name e) (_tables s) = Some (table_info e).
Proof.
  intros H E. rewrite find_to_map, (inv_tables _ _ _ _ H). apply elem_of_list_to_map_1.
  - rewrite named_fst. apply (disk_names _ _ _ (inv_disk _ _ _ _ H)).
  - apply list_elem_of_fmap. exists e. split; [done|]. rewrite E. set_solver.
Qed.

Lemma contents_lookup d nd g l1 e l2 :
  disk_ok d nd g -> g_tabs g = l1 ++ e :: l2 -> contents g !! e_name e = Some (rows_of (e_table e)).*2.
Proof.
  intros H E. unfold contents. apply elem_of_list_to_map_1.
  - rewrite <- list_fmap_compose. apply (disk_names _ _ _ H).
  - apply list_elem_of_fmap. exists e. split; [done|]. rewrite E. set_solver.
Qed.

(** The layout with one table in view. *)
Lemma layout_split g l1 e l2 :
  g_tabs g = l1 ++ e :: l2 ->
  layout g ≡ₚ header_piece :: chain 0 (blocks_of (e_table e)) ++ rows_pieces (rows_of (e_table e)) ++
    (chain 0 (g_meta g) ++ field_pieces (key (e_record e)) (Some (e_name e)) ++ (l1 ≫= entry_pieces) ++ (l2 ≫= entry_pieces)).
Proof.
  intros E. unfold layout. rewrite E, bind_app, bind_cons. unfold entry_pieces at 2. solve_Permutation.
Qed.

Lemma config_file p q : config p = config q -> _file (file p) = _file (file q).
Proof. unfold config. congruence. Qed.

(** ** Operations on a table *)

(** The table with other blocks and rows. *)
Definition with_table (e : entry) (bs : list block) (rows : list (LDB_LOG_RECORD * row)) : entry :=
  mkEntry (e_record e) (e_name e) (mkTbl bs rows).

Lemma table_change s d c g l1 e l2 op idx x :
  inv s d c g -> g_tabs g = l1 ++ e :: l2 -> row_given x -> acts op x ->
  valid_index op idx (rows_of (e_table e)) .*1 -> idx < 2 ^ 32 -> ~ (op = OPERATION_INSERT /\ rows_of (e_table e) = []) ->
  linkable (_nextDataOffset s) (blocks_of (e_table e)) -> c + BLOCK + row_size x + slack s < 2 ^ 32 ->
  exists s' d' bs' rows', append_log_record (Table (e_name e)) op idx x.1.1 x.1.2 x.2 s = (Ok true, s') /\
    inv s' d' (c + BLOCK + row_size x) (mkGhost (g_file g) (g_meta g) (l1 ++ with_table e bs' rows' :: l2)) /\
    rows'.*2 = update op idx (result_row op idx x (rows_of (e_table e)).*2) (rows_of (e_table e)).*2.
Proof.
  intros H E Hx Hact Hv Hi Hins Hlink Hl. pose proof H as [Hc Hg Hfile [Ho Hm Hh He Hn] Hmt Hs Ht [Hc1 Hc2]].
  pose proof He as He0. rewrite E, Forall_app, Forall_cons in He. destruct He as (He1&(K1&K2&K3&K6&K4&K5)&He2).
  set (rows := rows_of (e_table e)) in *. set (bs := blocks_of (e_table e)) in *.
  rewrite (layout_split _ _ _ _ E) in Ho. fold bs rows in Ho. set (F := chain 0 (g_meta g) ++ _) in Ho.
  unfold append_log_record. rewrite (bind_ok _ _ s (table_info e) s).
  2: { unfold deref. rewrite bind_get, (table_entry_find _ _ _ _ _ _ _ H E). done. }
  destruct (append_grows s d c (table_info e) bs (rows_pieces rows ++ F) op idx x (result_row op idx x rows.*2)) as
    (s1&d1&bs1&id&nd1&E1&C1&S1&N1&O1&L1&X1); try done.
  { cbn. intros [? Hr]. apply Hins. split; [done|]. by apply fmap_nil_inv in Hr. }
  { by apply settles_rows. }
  mstep E1. set (new := fresh op idx id nd1 x) in *. cbn [records table_info] in *. fold rows in O1, L1, E1 |- *.
  set (r := logged op idx x rows.*1 new) in *. set (x' := result_row op idx x rows.*2).
  set (rows1 := update op idx (r, x') rows).
  assert (rows1.*1 = update op idx r rows.*1) as R1 by (unfold rows1; by rewrite <- update_fmap).
  pose proof S1 as (S1a&S1b&S1c&S1d&S1e&S1f).
  eexists _, d1, bs1, rows1. split; [done|]. split; [|unfold rows1; by rewrite <- update_fmap].
  assert (row_is new x) as Hnew by (by apply fresh_is).
  split; cbn [_growPagesStep _nextDataOffset _metatable _tables set_tables g_meta g_tabs].
  - by destruct C1.
  - by rewrite S1c.
  - cbn. by rewrite (config_file _ _ S1a).
  - split; cbn [g_meta g_tabs].
    + eapply owns_submseteq; [exact O1|]. rewrite (layout_split _ l1 (with_table e bs1 rows1) l2) by done.
      cbn [g_meta with_table e_table e_name e_record blocks_of rows_of]. apply submseteq_skip, submseteq_app; [done|].
      rewrite (app_assoc (row_pieces new x)). apply submseteq_app; [|done]. by apply update_pieces.
    + rewrite fmap_app, fmap_cons in *. cbn. rewrite E, fmap_app, fmap_cons in Hm. by eapply log_ok_mono.
    + done.
    + apply Forall_app. split; [by eapply entries_mono_wf|]. constructor; [|by eapply entries_mono_wf].
      split_and!; cbn; try done; [by rewrite X1|by rewrite R1|]. apply update_Forall; [|done]. intros Hd Hcl. cbn.
      destruct (settles_rows op idx x rows [] Hv Hact K5) as [[_ [? | ?]]|[Hne Hset]]; [done..|].
      destruct (Hset new Hnew) as [Hr _]. done.
    + rewrite E, fmap_app, fmap_cons in Hn. by rewrite fmap_app, fmap_cons.
  - rewrite S1e, Hmt, E. by rewrite !fmap_app, !fmap_cons.
  - rewrite S1f. by apply sorted_assign.
  - rewrite S1f, to_map_assign, Ht, E, (named_split _ l1 e l2), (named_split _ l1 _ l2).
    + cbn [named fst snd e_name with_table]. rewrite insert_insert_eq. unfold table_info. cbn. by rewrite R1.
    + rewrite named_fst. rewrite E in Hn. by rewrite fmap_app, fmap_cons in *.
    + rewrite named_fst. by rewrite <- E.
  - pose proof (row_size_nonneg x). unfold BLOCK in *. rewrite E, length_app in *. cbn in *. split; [lia|].
    apply Forall_app in Hc2 as [Q1 Q2]. apply Forall_cons in Q2 as [Q2 Q3].
    apply Forall_app. split; [eapply Forall_impl; [exact Q1|]; cbn; lia|]. constructor; [|eapply Forall_impl; [exact Q3|]; cbn; lia].
    cbn. pose proof (update_length op idx (r, x') rows) as Q. fold rows1 in Q. fold rows in Q2. lia.
Qed.

End LogRefine.
