(* ===== verification/LogReads.v ===== *)
(** * Reading tables of the log database

    [GetByIndex], [FindKey] and [Get] of [logdb.h] against the rows: the data of a
    record is read back as it was written, and a key is found at its first
    record, whatever hashes collide. *)
From S2P Require Import Prelude StdMap LogFile LogDb LogLayout LogWrites LogLoad LogTables LogRefine.

Module LogReads.
Import StdMap LogFile LogDb LogLayout LogWrites LogLoad LogTables LogRefine.

(** Only the page cache and the counters have changed. *)
Definition same (d : bytes) (s s' : Ldb) : Prop :=
  steady s s' /\ represents (pages s') d /\ _nextDataOffset s' = _nextDataOffset s.

Lemma same_refl d s : represents (pages s) d -> same d s s.
Proof. done. Qed.

Lemma same_trans d s1 s2 s3 : same d s1 s2 -> same d s2 s3 -> same d s1 s3.
Proof. intros (?&?&?) (?&?&?). split_and!; [by eapply steady_trans|done|congruence]. Qed.

Lemma same_inv s d c g s' : inv s d c g -> same d s s' -> inv s' d c g.
Proof.
  intros [[? ? ? ? ? ? ? ? ? ?] ? ? ? ? ? ? ?] ((Ec&Eh&Eg&Eb&Em&Et)&Hr&En).
  split; rewrite ?Eg, ?En, ?Em, ?Et, ?(config_file _ _ Ec); try done.
  split; unfold slack in *; rewrite ?Eg, ?En, ?Eb, ?(config_page _ _ Ec), ?(config_mb _ _ Ec); done.
Qed.

Lemma deref_same p d s s' t : deref p s = (Ok t, s) -> same d s s' -> deref p s' = (Ok t, s').
Proof.
  intros H ((_&_&_&_&Em&Et)&_). unfold deref in *. rewrite bind_get in *. destruct p; rewrite ?Em, ?Et.
  - by injection H as ->.
  - destruct (find n (_tables s)); [|done]. by injection H as ->.
Qed.

(** The data of a field can be read. *)
Definition readable (d : bytes) (f : LDB_LOG_RECORD_FIELD) (o : option bytes) : Prop :=
  field_is f o /\
  match o with
  | Some b => 0 <= dataOffset f /\ dataOffset f + Z.of_nat (length b) <= Z.of_nat (length d) /\
      slice d (dataOffset f) (Z.of_nat (length b)) = b
  | None => True
  end.

(** What an output argument has after the call. *)
Definition got (o x : option bytes) : option bytes :=
  match o with Some b => Some (default b x) | None => None end.

Lemma read_field_spec s d f o x :
  represents (pages s) d -> readable d f x ->
  exists s', read_field o f s = (Ok (got o x), s') /\ same d s s'.
Proof.
  intros Hr [Hf Hd]. destruct o as [b|]; [|by exists s]. cbn [read_field got].
  destruct x as [y|]; cbn in Hf; [|subst f; by exists s].
  destruct Hf as (Hne&Es&_), Hd as (D1&D2&D3).
  assert (0 < Z.of_nat (length y)) by (destruct y; [done|cbn; lia]). rewrite Es. ztest.
  destruct (read_spec s d 0 (dataOffset f) (Z.of_nat (length y))) as (s1&E1&L1&N1); [done|lia..|].
  exists s1. split; [|by destruct L1 as (?&?&_)]. unfold ReadField. rewrite Es.
  rewrite (bind_ok _ _ s y s1); [done|]. mstep E1. by rewrite D3.
Qed.

(** A piece of the file is readable. *)
Lemma field_readable d nd f o ps :
  owns d nd ps -> field_pieces f o ⊆ ps -> field_is f o -> nd <= Z.of_nat (length d) -> readable d f o.
Proof.
  intros [Ho _] Hsub Hf Hn. split; [done|]. destruct o as [b|]; [|done].
  rewrite Forall_forall in Ho. destruct (Ho (data_piece (dataOffset f) b)) as (?&_&?&?); [apply Hsub; left|].
  unfold stop in *. cbn in *. split_and!; [done|lia|done].
Qed.

(** ** By index *)

Definition row_readable (d : bytes) (r : LDB_LOG_RECORD) (x : row) : Prop :=
  readable d (key r) x.1.1 /\ readable d (value r) x.1.2 /\ readable d (metadata r) x.2.

Lemma get_spec s d p t i r k v m x1 x2 x3 :
  represents (pages s) d -> deref p s = (Ok t, s) -> records t !! Z.to_nat i = Some r -> 0 <= i < 2 ^ 32 - 1 ->
  readable d (key r) x1 \/ k = None -> readable d (value r) x2 \/ v = None -> readable d (metadata r) x3 \/ m = None ->
  exists s', GetByIndex p i k v m s = (Ok (i, (got k x1, got v x2, got m x3)), s') /\ same d s s'.
Proof.
  intros Hr Hd Hl Hi H1 H2 H3. unfold GetByIndex. mstep Hd. pose proof (lookup_lt_Some _ _ _ Hl).
  rewrite u32_small by lia. ztest. rewrite Hl.
  assert (forall s f o x, represents (pages s) d -> readable d f x \/ o = None ->
    exists s', read_field o f s = (Ok (got o x), s') /\ same d s s') as Hread.
  { intros s0 f o x Hs [Hx| ->]; [by apply read_field_spec|by exists s0]. }
  destruct (Hread s (key r) k x1 Hr H1) as (s1&E1&S1). mstep E1.
  destruct (Hread s1 (value r) v x2 (proj1 (proj2 S1)) H2) as (s2&E2&S2). mstep E2.
  destruct (Hread s2 (metadata r) m x3 (proj1 (proj2 S2)) H3) as (s3&E3&S3). mstep E3.
  exists s3. split; [done|]. eauto using same_trans.
Qed.

(** ** By key *)

(** The index of the first of some keys that is [k], counted from [a]. *)
Definition key_index (a : Z) (k : bytes) (keys : list (option bytes)) : Z :=
  match list_find (fun o => o = Some k) keys with
  | Some (i, _) => a + Z.of_nat i
  | None => LDB_INVALID_RECNO
  end.

(** The index of the first record from [start] on with the key. *)
Definition index_of (start : Z) (k : bytes) (keys : list (option bytes)) : Z :=
  key_index start k (drop (Z.to_nat start) keys).

Lemma key_index_cons a k o l :
  key_index a k (o :: l) = if decide (o = Some k) then a else key_index (a + 1) k l.
Proof.
  unfold key_index. cbn [list_find]. case_decide; [lia|]. destruct (list_find _ l) as [[i y]|]; cbn; [lia|done].
Qed.

Lemma find_key_loop_spec p t d k : forall rs keys a pre s,
  represents (pages s) d -> deref p s = (Ok t, s) -> records t = pre ++ rs -> a = Z.of_nat (length pre) ->
  Forall2 (fun r o => readable d (key r) o) rs keys -> Z.of_nat (length (records t)) < 2 ^ 32 - 1 ->
  Z.of_nat (length k) < 2 ^ 32 -> Z.of_nat (length d) < 2 ^ 32 ->
  exists s', find_key_loop p k a rs s = (Ok (key_index a k keys), s') /\ same d s s'.
Proof.
  induction rs as [|r rs IH]; intros keys a pre s Hr Hd Ht Ha Hk Hlen Hkl Hdl; inversion Hk as [|? o ? keys' Hro Hk' E1 E2]; subst keys.
  { exists s. by split. }
  rewrite key_index_cons. cbn [find_key_loop]. rewrite (u32_small (Z.of_nat (length k))) by lia.
  assert (forall s1, same d s s1 -> o <> Some k -> exists s', find_key_loop p k (a + 1) rs s1 =
    (Ok (key_index (a + 1) k keys'), s') /\ same d s s') as Hgo.
  { intros s1 S1 _. destruct (IH keys' (a + 1) (pre ++ [r]) s1) as (s2&E2'&S2); try done.
    - apply S1.
    - by eapply deref_same.
    - by rewrite <- app_assoc.
    - rewrite length_app. cbn. lia.
    - exists s2. split; [done|]. by eapply same_trans. }
  assert (records t !! Z.to_nat a = Some r) as Hl.
  { rewrite Ht, Ha, Nat2Z.id. by apply list_lookup_middle. }
  destruct (negb _ || negb _) eqn:Ec.
  - assert (o <> Some k) as Hne.
    { intros ->. destruct Hro as [(_&E1'&E2') _]. rewrite E1', E2', !Z.eqb_refl in Ec. done. }
    rewrite decide_False by done. apply (Hgo s); [by apply same_refl|done].
  - apply orb_false_elim in Ec as [Ec1%negb_false_iff Ec2%negb_false_iff]. bool_to_prop.
    destruct o as [b|].
    2: { destruct Hro as [Hz _]. cbn in Hz. rewrite Hz in Ec1, Ec2. cbn in Ec1, Ec2.
         assert (k = []) as -> by (destruct k; [done|cbn in Ec1; lia]). done. }
    pose proof (lookup_lt_Some _ _ _ Hl).
    destruct (get_spec s d p t a r (Some []) None None (Some b) None None) as (s1&E1'&S1); try done; [lia|by left|by right..|].
    mstep E1'. cbn [got default from_option id]. destruct Hro as [(Hb&Eb&_) (?&?&?)].
    rewrite (u32_small (Z.of_nat (length b))) by lia. rewrite <- Eb, Ec1, !Z.eqb_refl.
    rewrite (bind_lift_ok _ _ _ tt) by done. case_bool_decide as Hkb.
    + subst b. rewrite decide_True by done. exists s1. by split.
    + rewrite decide_False by congruence. apply Hgo; [done|congruence].
Qed.

Lemma FindKey_spec p t d k keys start s :
  represents (pages s) d -> deref p s = (Ok t, s) -> 0 <= start ->
  Forall2 (fun r o => readable d (key r) o) (records t) keys -> Z.of_nat (length (records t)) < 2 ^ 32 - 1 ->
  Z.of_nat (length k) < 2 ^ 32 -> Z.of_nat (length d) < 2 ^ 32 ->
  exists s', FindKey p start k s = (Ok (index_of start k keys), s') /\ same d s s'.
Proof.
  intros Hr Hd Hs Hk Hlen Hkl Hdl. unfold FindKey, CheckIndex, index_of. mstep Hd. pose proof (Forall2_length _ _ _ Hk) as El.
  destruct (start <? _) eqn:E; cbn [negb]; bool_to_prop.
  - eapply (find_key_loop_spec p t d k _ _ start (take (Z.to_nat start) (records t))); try done.
    + by rewrite take_drop.
    + rewrite length_take. lia.
    + by apply Forall2_drop.
  - rewrite drop_ge by lia. exists s. by split.
Qed.

End LogReads.
