(* ===== verification/LogReopen.v ===== *)
(** * Loading the log database

    [LoadFile] of [logdb.h] on a file that has some tables: whatever was in
    memory before, afterwards it has these tables, and the invariant of
    [LogRefine.v] holds again. *)
From S2P Require Import Prelude StdMap LogFile LogDb LogLayout LogWrites LogLoad LogTables LogRefine LogReads.

Module LogReopen.
Import StdMap LogFile LogDb LogLayout LogWrites LogLoad LogTables LogRefine LogReads.

(** ** Tables *)

Lemma loads_tables d n s s' ts :
  loads d n (set_tables ts s) s' -> loads d n s (set_tables (_tables s) s').
Proof. intros ((?&?&?&?&?&?)&?&?&?&?&?). split_and!; done. Qed.

(** A table is loaded into [_tables]: the replay of its log. *)
Lemma load_table_replay d n s r k bs ps :
  represents (pages s) d -> owns d n (header_piece :: field_pieces (key r) (Some k) ++ chain 0 bs ++ ps) ->
  field_is (key r) (Some k) -> dataOffset (value r) = next_of 0 bs -> dataSize (value r) = BLOCK ->
  bs <> [] -> Forall block_ok bs -> ascending bs -> Forall (entry_ok n) (log bs) ->
  n <= Z.of_nat (length d) -> n < 2 ^ 32 ->
  exists s1, load_table r s =
      (Ok tt, set_tables (assign_at k (mkTable k (last_info bs zero_info) (replay (log bs) [])) (_tables s)) s1) /\
    loads d n s s1 /\ chain_before (_nextDataOffset s1) bs.
Proof.
  intros Hr Ho K1 K2 K3 L1 L2 L3 L4 Hn Hn2.
  destruct (field_bounds _ _ _ _ _ Ho Hn2 K1) as [_ (B1&B2&B3)].
  assert (readable d (key r) (Some k)) as [_ (R1&R2&R3)].
  { eapply field_readable; [exact Ho| |done|done]. intros p Hp. right. apply elem_of_app. by left. }
  destruct K1 as (Hne&Es&_). assert (0 < Z.of_nat (length k)) by (destruct k; [done|cbn; lia]).
  unfold load_table. rewrite K3. rewrite (bind_lift_ok _ _ _ tt) by (unfold assert_, BLOCK; by ztest).
  destruct (read_spec s d n (dataOffset (key r)) (Z.of_nat (length k))) as (s1&E1&M1&N1); [done|lia..|].
  rewrite (bind_ok _ _ s k s1).
  2: { unfold ReadField. rewrite Es. mstep E1. by rewrite R3. }
  rewrite (bind_lift_ok _ _ _ tt) by (unfold assert_; by ztest). rewrite (bind_lift_ok _ _ _ tt) by done.
  destruct (LoadAllBlocks_spec d n (header_piece :: field_pieces (key r) (Some k) ++ ps) bs
    (mkTable k (mkBlockInfo (mkBlockHeader 0 0 0) (dataOffset (value r))) []) s1) as (s2&E2&M2&G2); try done.
  { apply M1. }
  { refine (proj1 (owns_perm _ _ _ _ _) Ho). solve_Permutation. }
  mstep E2. exists s2. split; [|split; [by eapply loads_trans|done]].
  unfold store, modify. cbn [name records]. destruct (proj1 (loads_trans _ _ _ _ _ M1 M2)) as (_&_&_&_&_&->). done.
Qed.

Lemma load_table_spec d n s e ps :
  represents (pages s) d -> owns d n (header_piece :: entry_pieces e ++ ps) -> entry_wf n e ->
  n <= Z.of_nat (length d) -> n < 2 ^ 32 ->
  exists s1, load_table (e_record e) s = (Ok tt, set_tables (assign_at (e_name e) (table_info e) (_tables s)) s1) /\
    loads d n s s1 /\ chain_before (_nextDataOffset s1) (blocks_of (e_table e)).
Proof.
  intros Hr Ho (K1&K2&K3&_&[L1 L2 L3 L4 L5]&_) Hn Hn2. unfold table_info. rewrite <- L5.
  apply (load_table_replay d n s _ _ _ (rows_pieces (rows_of (e_table e)) ++ ps)); try done.
  unfold entry_pieces in Ho. by rewrite <- !app_assoc in Ho.
Qed.

Definition load_all (ts : list (bytes * TABLE_INFO)) (l : list entry) : list (bytes * TABLE_INFO) :=
  foldl (fun ts e => assign_at (e_name e) (table_info e) ts) ts l.

Lemma load_tables_spec d n : forall l ps s,
  represents (pages s) d -> owns d n (header_piece :: (l ≫= entry_pieces) ++ ps) -> Forall (entry_wf n) l ->
  n <= Z.of_nat (length d) -> n < 2 ^ 32 ->
  exists s1, load_tables (e_record <$> l) s = (Ok tt, set_tables (load_all (_tables s) l) s1) /\
    loads d n s s1 /\ Forall (fun e => chain_before (_nextDataOffset s1) (blocks_of (e_table e))) l.
Proof.
  induction l as [|e l IH]; intros ps s Hr Ho He Hn Hn2.
  { exists s. split; [by destruct s|]. split; [by apply loads_refl|constructor]. }
  apply Forall_cons in He as [He1 He]. rewrite bind_cons in Ho. cbn [load_tables fmap list_fmap].
  destruct (load_table_spec d n s e ((l ≫= entry_pieces) ++ ps)) as (s1&E1&L1&G1); try done.
  { refine (proj1 (owns_perm _ _ _ _ _) Ho). solve_Permutation. }
  mstep E1. set (ts := assign_at _ _ _) in *.
  destruct (IH (entry_pieces e ++ ps) (set_tables ts s1)) as (s2&E2&L2&G2); try done.
  { apply L1. }
  { refine (proj1 (owns_perm _ _ _ _ _) Ho). solve_Permutation. }
  exists (set_tables (_tables s1) s2). rewrite E2. split; [done|]. apply loads_tables in L2.
  split; [by eapply loads_trans|]. constructor; [|done]. eapply chain_before_mono; [done|]. by destruct L2 as (_&_&_&_&?&_).
Qed.

Lemma load_all_map l : forall ts, NoDup (e_name <$> l) ->
  to_map (load_all ts l) = list_to_map (named <$> l) ∪ to_map ts.
Proof.
  induction l as [|e l IH]; intros ts Hn; cbn [load_all foldl fmap list_fmap list_to_map foldr]; [by rewrite (left_id_L (∅ : gmap bytes TABLE_INFO) (∪))|].
  apply NoDup_cons in Hn as [Hne Hn]. unfold load_all in IH. rewrite IH, to_map_assign by done. cbn [list_to_map].
  rewrite <- insert_union_l. symmetry. apply insert_union_r. apply not_elem_of_list_to_map_1. by rewrite named_fst.
Qed.

Lemma load_all_sorted l : forall ts, sorted ts -> sorted (load_all ts l).
Proof. induction l as [|e l IH]; intros ts H; [done|]. apply IH. by apply sorted_assign. Qed.

(** ** The end of the data *)

(** The records of a table are entries of its log. *)
Lemma replay_Forall (P : LDB_LOG_RECORD -> Prop) : forall l rs, Forall P l -> Forall P rs -> Forall P (replay l rs).
Proof.
  induction l as [|r l IH]; intros rs Hl Hrs; [done|]. apply Forall_cons in Hl as [Hr Hl]. cbn. apply IH; [done|].
  unfold replay_record. repeat case_match; simplify_eq; cbn; try done;
    repeat first [apply Forall_app; split | apply Forall_cons; split | apply Forall_take | apply Forall_drop
                 | apply Forall_insert | apply Forall_nil_2 | done].
Qed.

(** Pieces that end earlier. *)
Lemma owns_shrink d nd nd' ps : owns d nd ps -> Forall (fun p => stop p <= nd') ps -> owns d nd' ps.
Proof.
  intros [H Hs] Hp. split; [|done]. rewrite Forall_forall in *. intros p Hps.
  destruct (H p Hps) as (?&?&?&?). split_and!; auto.
Qed.

Lemma chain_stops z bs m : chain_before m bs -> Forall (fun p => stop p <= m) (chain z bs).
Proof.
  intros [H _]. induction H as [|[o rs] bs Hb H IH]; cbn; constructor; [|done]. done.
Qed.

(** The end that loading computes is behind all data of a table. *)
Lemma entry_stops d n m e ps :
  owns d n (header_piece :: entry_pieces e ++ ps) -> n < 2 ^ 32 -> entry_wf n e ->
  chain_before m (blocks_of (e_table e)) -> record_end (e_record e) <= m ->
  Forall (fun p => stop p <= m) (entry_pieces e).
Proof.
  intros Ho Hn (K1&K2&K3&K6&K4&K5) Hm Hre. unfold entry_pieces. apply Forall_app. split; [|apply Forall_app; split].
  - apply Forall_singleton. unfold entry_pieces in Ho. rewrite <- app_assoc in Ho.
    destruct (field_bounds _ _ _ _ _ Ho Hn K1) as [_ (B1&B2&B3)]. destruct K1 as (_&Es&_).
    destruct K4 as [L1 _ _ _ _]. destruct (blocks_of (e_table e)) as [|[o rs] bs]; [done|].
    destruct Hm as [[Hm _]%Forall_cons _]. cbn in K2, Hm. unfold BLOCK in *.
    apply owns_cons in Ho as (_&_&Ho). cbn [field_pieces app chain] in Ho.
    apply owns_cons in Ho as (_&[Hap _]%Forall_cons&_). unfold apart, stop in *. cbn in *. unfold BLOCK in Hap. rewrite <- Es in *.
    unfold record_end in Hre. rewrite K6, K2 in Hre. cbn in Hre.
    destruct (o <? _) eqn:E1 in Hre; bool_to_prop; [|lia].
    replace (0 <? dataOffset (key (e_record e))) with true in Hre by (symmetry; apply Z.ltb_lt; lia).
    rewrite u32_small in Hre by lia. lia.
  - by apply chain_stops.
  - destruct K4 as [_ _ _ _ L5]. destruct Hm as [_ Hm].
    assert (Forall (fun r => record_end r <= m) (rows_of (e_table e)).*1) as Hr by (rewrite <- L5; by apply replay_Forall).
    rewrite Forall_forall in K5. apply Forall_forall. intros p Hp. unfold rows_pieces in Hp.
    apply list_elem_of_bind in Hp as ([r x]&Hp&Hrx). cbn in Hp. destruct (K5 _ Hrx) as [Hrow _]. cbn in Hrow.
    assert (owns d n (header_piece :: row_pieces r x ++ [])) as Ho'.
    { rewrite app_nil_r. eapply owns_submseteq; [exact Ho|]. apply submseteq_skip, submseteq_inserts_r. unfold entry_pieces.
      apply submseteq_inserts_l, submseteq_inserts_l. apply list_elem_of_split in Hrx as (l1&l2&->).
      unfold rows_pieces. rewrite bind_app, bind_cons. cbn. by apply submseteq_inserts_l, submseteq_inserts_r. }
    destruct (record_end_spec _ _ _ _ _ Ho' Hn Hrow) as (_&_&_&Hst). etrans; [by apply Hst|].
    rewrite Forall_forall in Hr. apply Hr. apply list_elem_of_fmap. by exists (r, x).
Qed.

Lemma log_ok_shrink n m bs rs : log_ok n bs rs -> chain_before m bs -> log_ok m bs rs.
Proof.
  intros [? ? ? He ?] [_ Hm]. split; try done. rewrite Forall_forall in *. intros r Hr.
  destruct (He r Hr) as (?&?&?). split_and!; try done. by apply Hm.
Qed.

Lemma disk_shrink d n m g :
  disk_ok d n g -> n < 2 ^ 32 -> chain_before m (g_meta g) ->
  Forall (fun e => chain_before m (blocks_of (e_table e))) (g_tabs g) -> disk_ok d m g.
Proof.
  intros [Ho Hm Hh He Hn] Hlt Hcm Hct.
  assert (Forall (fun e => record_end (e_record e) <= m) (g_tabs g)) as Hrec.
  { apply (Forall_fmap e_record (fun r => record_end r <= m)). rewrite <- (log_replay _ _ _ Hm).
    apply replay_Forall; [apply Hcm|constructor]. }
  assert (16 <= m) as H16.
  { pose proof (log_blocks _ _ _ Hm) as Hne. destruct (g_meta g) as [|b bs]; [done|].
    destruct Hcm as [[Hcm _]%Forall_cons _]. cbn in Hh. unfold BLOCK, sizeof_FILE_HEADER in *. lia. }
  rewrite Forall_forall in He, Hct, Hrec. split; try done.
  - eapply owns_shrink; [done|]. unfold layout. constructor; [done|]. apply Forall_app. split; [by apply chain_stops|].
    apply Forall_bind, Forall_forall. intros e Hin. apply list_elem_of_split in Hin as (l1&l2&E). rewrite E in *.
    eapply (entry_stops d n m e (chain 0 (g_meta g) ++ (l1 ≫= entry_pieces) ++ (l2 ≫= entry_pieces))); try done.
    + refine (proj1 (owns_perm _ _ _ _ _) Ho). unfold layout. rewrite E, bind_app, bind_cons. solve_Permutation.
    + apply He. set_solver.
    + apply Hct. set_solver.
    + apply Hrec. set_solver.
  - by eapply log_ok_shrink.
  - apply Forall_forall. intros e Hin. destruct (He e Hin) as (?&?&?&?&?&?). split_and!; try done.
    eapply log_ok_shrink; [done|]. by apply Hct.
Qed.

(** ** The file *)

(** The bytes on disk that [core] needs. *)
Definition fits (d : bytes) (c : Z) : Prop :=
  (4096 | Z.of_nat (length d)) /\ Z.of_nat (length d) <= c + 4198400 /\ c + 4198400 < 2 ^ 32.

(** Memory before [LoadFile]: a file is open, the sizes are those of the
    constructor. *)
Definition ready (s : Ldb) (d f : bytes) : Prop :=
  represents (pages s) d /\ _pageSize (pages s) = 4096 /\ _cacheInMegabytes (pages s) = 4 /\
  _file (file (pages s)) = Some f /\ _defaultBlockSize s = BLOCK /\ _growPagesStep s = 1024 /\ name (_metatable s) = [].

Lemma LoadTables_spec d n s g :
  represents (pages s) d -> disk_ok d n g -> n <= Z.of_nat (length d) -> n < 2 ^ 32 ->
  name (_metatable s) = [] -> offset (lastBlockHeaderInfo (_metatable s)) = sizeof_FILE_HEADER -> records (_metatable s) = [] ->
  _tables s = [] -> sizeof_FILE_HEADER <= n ->
  exists s', LoadTables s = (Ok tt, s') /\ represents (pages s') d /\ config (pages s') = config (pages s) /\
    _growPagesStep s' = _growPagesStep s /\ _defaultBlockSize s' = _defaultBlockSize s /\
    disk_ok d (_nextDataOffset s') g /\ _nextDataOffset s' <= n /\
    _metatable s' = mkTable [] (last_info (g_meta g) zero_info) (e_record <$> g_tabs g) /\
    sorted (_tables s') /\ to_map (_tables s') = list_to_map (named <$> g_tabs g).
Proof.
  intros Hr Hd Hn Hn2 Hname Hoff Hrec Htab H16. pose proof Hd as [Ho [L1 L2 L3 L4 L5] Hh He Hnd].
  unfold LoadTables. rewrite bind_modify. set (s0 := set_counts _ _ _ _).
  rewrite (bind_ok (deref Metatable) _ s0 (_metatable s) s0) by done.
  destruct (LoadAllBlocks_spec d n (header_piece :: (g_tabs g ≫= entry_pieces)) (g_meta g) (_metatable s) s0) as (s1&E1&M1&G1); try done.
  { refine (proj1 (owns_perm _ _ _ _ _) Ho). unfold layout. solve_Permutation. }
  { by rewrite Hoff. }
  mstep E1. rewrite Hname, Hrec, L5. unfold store. rewrite bind_modify. cbn [records].
  set (s2 := set_metatable _ s1).
  destruct (load_tables_spec d n (g_tabs g) (chain 0 (g_meta g)) s2) as (s3&E3&M3&G3); try done.
  { apply M1. }
  { refine (proj1 (owns_perm _ _ _ _ _) Ho). unfold layout. solve_Permutation. }
  rewrite E3. eexists. split; [done|].
  destruct M1 as ((A1&A2&A3&A4&A5&A6)&B1&B2&B3&B4&B5), M3 as ((C1&C2&C3&C4&C5&C6)&D1&D2&D3&D4&D5). cbn in *.
  unfold sizeof_FILE_HEADER in *. assert (_nextDataOffset s1 <= n) as Hn1 by lia.
  assert (_tables s1 = []) as Ht1 by (by rewrite A6). cbn. rewrite ?Ht1. split_and!; try done; try congruence.
  - eapply disk_shrink; try done. by eapply chain_before_mono.
  - lia.
  - apply load_all_sorted. constructor.
  - pose proof (load_all_map (g_tabs g) [] Hnd) as Em. etrans; [exact Em|].
    exact (right_id_L (∅ : gmap bytes TABLE_INFO) (∪) _).
Qed.

(** Loading a file gives its tables. *)
Lemma LoadFile_spec s d n c g :
  ready s d (g_file g) -> disk_ok d n g -> fits d c -> n <= Z.of_nat (length d) -> n <= c ->
  Z.of_nat (length (g_tabs g)) <= c /\ Forall (fun e => Z.of_nat (length (rows_of (e_table e))) <= c) (g_tabs g) ->
  exists s', LoadFile s = (Ok true, s') /\ inv s' d c g.
Proof.
  intros (Hr&Hps&Hmb&Hf&Hb&Hg&Hname) Hd (F1&F2&F3) Hn Hnc Hcount.
  pose proof (disk_owns _ _ _ Hd) as Ho. unfold layout in Ho. apply owns_cons in Ho as ((_&_&H16&Eh)&_&_).
  unfold stop in H16. cbn in H16. cbn [start content header_piece] in Eh. rewrite length_encode_file_header in Eh.
  change (Z.of_nat 16) with 16 in Eh. unfold LoadFile, Clear. rewrite bind_modify. set (s0 := mkLdb _ _ _ _ _ _ _ _ _ _).
  destruct (read_spec s0 d 0 0 16) as (s1&E1&((A1&A2&A3&A4&A5&A6)&B1&B2&B3&B4&B5)&N1); [done|lia..|].
  unfold sizeof_FILE_HEADER. mstep E1. rewrite Eh. rewrite decode_encode_file_header by (unfold is_dword, LDB_MAGIC, sizeof_FILE_HEADER; cbn [magic version flags tableBlockOffset]; lia).
  rewrite bind_modify. cbn [magic]. rewrite Z.eqb_refl. cbn [negb]. rewrite bind_modify, bind_get.
  set (s2 := set_metatable _ _). cbn [tableBlockOffset] in s2.
  assert (_pageSize (pages s2) = 4096) as Ep by (cbn; rewrite (config_page _ _ A1); done). rewrite Ep.
  assert (_cacheInMegabytes (pages s2) = 4) as Em by (cbn; rewrite (config_mb _ _ A1); done).
  destruct (SetPageSize_spec (pages s2) d (1024 * 1024 * 4)) as (p3&E3&R3&P3&Q3&_&F3'); [done|done|lia|].
  erewrite bind_on_pages by exact E3.
  destruct (LoadTables_spec d n (set_pages p3 s2) g) as (s4&E4&R4&C4&G4&D4&K4&N4&M4&S4&T4); try done; try lia;
    [cbn; by rewrite ?A5, ?A6..|].
  mstep E4. destruct (SetPageSize_spec (pages s4) d 4096) as (p5&E5&R5&P5&Q5&_&F5); [done| |lia|].
  { rewrite (config_mb _ _ C4). done. }
  erewrite bind_on_pages by exact E5. eexists. split; [done|].
  cbn in C4, G4, D4. split; cbn; try done.
  - assert (_nextDataOffset s4 <= c) by lia.
    assert (16 <= _nextDataOffset s4) as Hlow.
    { pose proof (disk_owns _ _ _ K4) as Ho. unfold layout in Ho. by apply owns_cons in Ho as ((_&_&?&_)&_&_). }
    split; cbn; try done; unfold slack, sizeof_FILE_HEADER; cbn; rewrite ?G4, ?A3, ?D4, ?A4; cbn; rewrite ?Hg, ?Hb; try done; lia.
  - rewrite G4, A3. done.
  - rewrite F5, (config_file _ _ C4). cbn. rewrite F3'. cbn. by rewrite (config_file _ _ A1).
Qed.

End LogReopen.
