(* ===== verification/LogDatabase.v ===== *)
(** * The log database as a whole

    Creating, deleting and reopening: from an empty disk, any sequence of the
    operations of [Ldb], restarts among them, leaves the tables that the same
    operations make of maps and lists. *)
From S2P Require Import Prelude StdMap LogFile LogDb LogLayout LogWrites LogLoad LogTables LogRefine LogReads LogReopen.

Module LogDatabase.
Import StdMap LogFile LogDb LogLayout LogWrites LogLoad LogTables LogRefine LogReads LogReopen.

(** ** A new file *)

Definition empty_ghost (f : bytes) : ghost := mkGhost f [(sizeof_FILE_HEADER, [])] [].

Definition initial_disk (d : bytes) : bytes :=
  splice (splice d 16 (encode_block_header (mkBlockHeader BLOCK 0 0))) 0
    (encode_file_header (mkFileHeader LDB_MAGIC 1 0 sizeof_FILE_HEADER)).

Lemma initial_disk_ok d f :
  16 + BLOCK <= Z.of_nat (length d) -> disk_ok (initial_disk d) (16 + BLOCK) (empty_ghost f).
Proof.
  intros Hd. unfold BLOCK in Hd. split; cbn [g_meta g_tabs empty_ghost].
  - assert (owns d 16 [mkPiece 0 16 []]) as O1.
    { apply owns_cons. split_and!; [|constructor|by split]. split_and!; cbn; try done || lia. }
    pose proof (owns_new d 16 _ (encode_block_header (mkBlockHeader BLOCK 0 0)) BLOCK O1 ltac:(lia)
      ltac:(rewrite length_encode_block_header; unfold BLOCK; lia) ltac:(unfold BLOCK; lia)) as O2.
    rewrite Permutation_swap in O2.
    pose proof (owns_extend _ _ _ _ (encode_file_header (mkFileHeader LDB_MAGIC 1 0 sizeof_FILE_HEADER)) O2) as O3.
    cbn [start room content app length] in O3. rewrite Z.add_0_r in O3.
    assert (Z.of_nat (length (splice d 16 (encode_block_header (mkBlockHeader BLOCK 0 0)))) = Z.of_nat (length d)) as El.
    { rewrite length_splice; [done|lia|rewrite length_encode_block_header; lia]. }
    specialize (O3 ltac:(rewrite El; unfold BLOCK; lia) ltac:(rewrite length_encode_file_header; lia)).
    unfold layout, empty_ghost, initial_disk. cbn [g_meta g_tabs chain next_of mbind list_bind app]. unfold block_piece, block_content.
    cbn [length encode_records mbind list_bind]. rewrite app_nil_r. exact O3.
  - split; [done| |done|constructor|done]. constructor; [|done]. split; cbn; [done|unfold PER_BLOCK; lia].
  - done.
  - constructor.
  - constructor.
Qed.

(** Creating a database in a file that is not there. *)
Lemma Create_new disk f junk garbage :
  disk !! f = None ->
  exists s d, Create f (make disk junk garbage) = (Ok true, s) /\ inv s d 4112 (empty_ghost f).
Proof.
  intros Hf. unfold Create. unfold LogFile.Create.
  set (s0 := make disk junk garbage).
  set (p1 := set_file (mkFile (Some f) true 0 (<[f := []]> disk)) (pages s0)).
  rewrite (bind_on_pages _ _ s0 true p1).
  2: { unfold on_file, file_Create. cbn. by rewrite Hf. }
  assert (represents p1 []) as R1.
  { apply (represents_open _ f); try done; cbn; try lia. by rewrite lookup_insert_eq. }
  cbn [negb]. erewrite bind_on_pages by (by apply GetFileSize_spec). 
  change (Z.of_nat (length []) <? sizeof_FILE_HEADER) with true. cbn iota.
  change (set_pages (pages (set_pages p1 s0)) (set_pages p1 s0)) with (set_pages p1 s0).
  unfold InitializeFile. rewrite bind_get, bind_modify.
  set (s2 := set_next _ _). set (next := u32 _) in s2. assert (next = 4112) as En by done.
  change (_pageSize (pages (set_pages p1 s0))) with 4096. cbn [block_size blockHeader offset].
  unfold LeaveRoom.
  destruct (GrowFile_spec p1 [] 1024 R1) as (p3&E3&C3&R3); [by exists 0|lia|cbn; lia|].
  change (1024 * _pageSize p1) with 4194304 in R3. rewrite app_nil_l in R3.
  set (d := replicate (Z.to_nat 4194304) _) in R3.
  assert (Z.of_nat (length d) = 4194304) as Hd by (unfold d; rewrite length_replicate; lia). clearbody d.
  rewrite (bind_ok _ _ s2 tt (set_pages p3 s2)).
  2: { rewrite bind_get. change (u32 (u32 _ + _)) with 8208. change (_pageSize (pages s2)) with 4096.
       change (u32 (8208 / 4096 + 1)) with 3. change (_growPagesStep s2) with 1024. change (3 <? 1024) with true. cbn iota.
       unfold on_pages. change (pages s2) with p1. by rewrite E3. }
  set (s3 := set_pages p3 s2).
  assert (core s3 d 4112) as H3.
  { split; cbn [pages s3 set_pages _defaultBlockSize _growPagesStep _nextDataOffset s2 set_next set_metatable set_header]; try done.
    - by rewrite (config_page _ _ C3).
    - by rewrite (config_mb _ _ C3).
    - rewrite Hd. by exists 1024.
    - rewrite Hd, En. unfold sizeof_FILE_HEADER. lia.
    - rewrite Hd. unfold slack. change (_growPagesStep s3) with 1024. lia. }
  unfold WriteBlockToFile.
  destruct (write_spec s3 d 4112 16 (encode_block_header (mkBlockHeader BLOCK 0 0))) as (s4&E4&H4&M4&N4);
    [done|lia|rewrite length_encode_block_header; lia|].
  rewrite (bind_ok _ _ s3 tt s4).
  2: { mstep (size_spec _ _ _ H3). rewrite Hd. rewrite (bind_lift_ok _ _ _ tt) by done.
       cbn [offset blockHeader]. change (_defaultBlockSize _) with BLOCK. mstep E4. done. }
  destruct (write_spec s4 (splice d 16 (encode_block_header (mkBlockHeader BLOCK 0 0))) 4112 0
      (encode_file_header (mkFileHeader LDB_MAGIC 1 0 sizeof_FILE_HEADER))) as (s5&E5&H5&M5&N5); [done|lia| |].
  { rewrite length_splice by (rewrite ?length_encode_block_header; lia). rewrite length_encode_file_header. lia. }
  mstep E5. eexists s5, _. split; [done|].
  pose proof (moved_steady _ _ (moved_trans _ _ _ M4 M5)) as (S1&S2&S3&S4&S5&S6).
  split; [exact H5|by rewrite S3|rewrite (config_file _ _ S1); cbn; by rewrite (config_file _ _ C3)|..].
  - rewrite N5, N4. change (_nextDataOffset s3) with next. rewrite En. apply initial_disk_ok. unfold BLOCK. lia.
  - by rewrite S5.
  - rewrite S6. constructor.
  - by rewrite S6.
  - cbn. split; [lia|constructor].
Qed.

(** ** Closing and opening again *)

Lemma inv_fits s d c g : inv s d c g -> fits d c.
Proof.
  intros H. destruct (inv_core _ _ _ _ H) as [? ? ? ? ? ? ? ? Hs Hl]. unfold slack in *. rewrite (inv_grow _ _ _ _ H) in *.
  split_and!; try done; lia.
Qed.

Lemma inv_file_data s d c g :
  inv s d c g -> files (file (pages s)) !! g_file g = Some d.
Proof.
  intros H. destruct (file_data_inv _ _ (rep_data _ _ (core_rep _ _ _ (inv_core _ _ _ _ H)))) as (n&E1&_&E2).
  rewrite (inv_file _ _ _ _ H) in E1. by injection E1 as <-.
Qed.

(** [Close] and then [Open] the same file. *)
Definition reopen (f : bytes) : M Ldb bool := _ ← LogDb.Close; LogDb.Open f.

Lemma reopen_spec s d c g : inv s d c g -> exists s', reopen (g_file g) s = (Ok true, s') /\ inv s' d c g.
Proof.
  intros H. pose proof (inv_core _ _ _ _ H) as Hc. pose proof (inv_file_data _ _ _ _ H) as Hd.
  unfold reopen, LogDb.Close. set (p1 := set_cache ∅ [] (set_file (mkFile (_file (file (pages s))) false (position (file (pages s))) (files (file (pages s)))) (pages s))).
  erewrite (bind_ok _ _ s tt) by (erewrite (bind_on_pages _ _ s tt p1) by done; done).
  unfold LogDb.Open, LogFile.Open.
  set (s1 := mkLdb _ _ _ _ _ _ _ _ _ _). set (p2 := set_file (mkFile (Some (g_file g)) true 0 (files (file (pages s)))) p1).
  rewrite (bind_on_pages _ _ s1 true p2) by (unfold on_file, file_Open; cbn; by rewrite Hd). cbn [negb].
  apply (LoadFile_spec _ _ (_nextDataOffset s)); [|apply H|by eapply inv_fits|apply Hc|apply Hc|apply H].
  split_and!; try done; try apply Hc; [|apply H|cbn; by rewrite (inv_metatable _ _ _ _ H)].
  destruct Hc as [Hr ? ? ? ? ? ? ? ? ?]. by eapply (represents_open _ (g_file g)); try apply Hr.
Qed.

(** A new process, with the same disk. *)
Definition restart (f : bytes) (junk : Z -> nat -> Byte.byte) (garbage : Z) : M Ldb bool := fun s =>
  LogDb.Create f (make (files (file (pages s))) junk garbage).

Lemma restart_spec s d c g junk garbage :
  inv s d c g -> exists s', restart (g_file g) junk garbage s = (Ok true, s') /\ inv s' d c g.
Proof.
  intros H. pose proof (inv_core _ _ _ _ H) as Hc. pose proof (inv_file_data _ _ _ _ H) as Hd.
  unfold restart, LogDb.Create, LogFile.Create. set (disk := files _) in *. set (s0 := make disk junk garbage).
  set (p1 := set_file (mkFile (Some (g_file g)) true 0 disk) (pages s0)).
  rewrite (bind_on_pages _ _ s0 true p1) by (unfold on_file, file_Create; cbn; by rewrite Hd). cbn [negb].
  assert (represents p1 d) as R1.
  { apply (represents_open _ (g_file g)); try done. apply (rep_size _ _ (core_rep _ _ _ Hc)). }
  erewrite bind_on_pages by (by apply GetFileSize_spec).
  pose proof (disk_owns _ _ _ (inv_disk _ _ _ _ H)) as Ho. unfold layout in Ho.
  apply owns_cons in Ho as ((_&_&H16&_)&_&_). unfold stop in H16. cbn in H16. pose proof (core_next _ _ _ Hc).
  unfold sizeof_FILE_HEADER in *. ztest.
  by apply (LoadFile_spec _ _ (_nextDataOffset s)); [|apply H|by eapply inv_fits|apply Hc|apply Hc|apply H].
Qed.

(** ** Names *)

Lemma key_index_missing a k keys : Some k ∉ keys -> key_index a k keys = LDB_INVALID_RECNO.
Proof.
  intros H. unfold key_index. rewrite (proj2 (list_find_None _ _)); [done|].
  apply Forall_forall. by intros o Ho ->.
Qed.

Lemma key_index_found k l1 l2 : forall a, Some k ∉ l1 -> key_index a k (l1 ++ Some k :: l2) = a + Z.of_nat (length l1).
Proof.
  induction l1 as [|o l1 IH]; intros a H; cbn [app]; rewrite key_index_cons.
  - rewrite decide_True by done. cbn. lia.
  - apply not_elem_of_cons in H as [H1 H2]. rewrite decide_False by done. rewrite IH by done. cbn. lia.
Qed.

Lemma layout_entry g e : e ∈ g_tabs g -> entry_pieces e ⊆ layout g.
Proof. intros He p Hp. right. apply elem_of_app. right. apply list_elem_of_bind. by exists e. Qed.

Lemma meta_readable s d c g :
  inv s d c g -> Forall2 (fun r o => readable d (key r) o) (e_record <$> g_tabs g) ((fun e => Some (e_name e)) <$> g_tabs g).
Proof.
  intros H. destruct (inv_disk _ _ _ _ H) as [Ho _ _ He _]. rewrite Forall2_fmap. apply Forall_Forall2_diag.
  rewrite Forall_forall in *. intros e Hin. destruct (He e Hin) as (K1&_).
  eapply field_readable; [exact Ho| |done|apply (inv_core _ _ _ _ H)].
  etrans; [|by apply layout_entry]. unfold entry_pieces. set_solver.
Qed.

Definition names (g : ghost) : list (option bytes) := (fun e => Some (e_name e)) <$> g_tabs g.

(** The metatable knows the tables by name. *)
Lemma meta_find s d c g n :
  inv s d c g -> Z.of_nat (length n) < 2 ^ 32 ->
  exists s', FindKey Metatable 0 n s = (Ok (index_of 0 n (names g)), s') /\ same d s s'.
Proof.
  intros H Hn. pose proof (inv_core _ _ _ _ H) as Hc. pose proof (core_limit _ _ _ Hc). pose proof (core_grow _ _ _ Hc).
  destruct (inv_count _ _ _ _ H) as [Hcount _]. unfold slack in *.
  apply (FindKey_spec Metatable (_metatable s)); [apply Hc|done|lia| | |done|apply (rep_size _ _ (core_rep _ _ _ Hc))].
  - rewrite (inv_metatable _ _ _ _ H). by eapply meta_readable.
  - rewrite (inv_metatable _ _ _ _ H). cbn [records]. rewrite length_fmap. lia.
Qed.

Lemma find_None_names s d c g n : inv s d c g -> find n (_tables s) = None -> n ∉ (e_name <$> g_tabs g) /\ Some n ∉ names g.
Proof.
  intros H E. rewrite find_to_map, (inv_tables _ _ _ _ H) in E. apply not_elem_of_list_to_map_2 in E. rewrite named_fst in E.
  split; [done|]. unfold names. intros (e&Ee&He)%list_elem_of_fmap. apply E, list_elem_of_fmap. exists e. split; [congruence|done].
Qed.

Lemma names_split s d c g l1 e l2 :
  inv s d c g -> g_tabs g = l1 ++ e :: l2 -> index_of 0 (e_name e) (names g) = Z.of_nat (length l1).
Proof.
  intros H E. unfold index_of, names. rewrite E, drop_0, fmap_app, fmap_cons.
  rewrite key_index_found; [by rewrite length_fmap|].
  pose proof (disk_names _ _ _ (inv_disk _ _ _ _ H)) as Hn. rewrite E, fmap_app, fmap_cons in Hn.
  apply NoDup_app in Hn as (_&Hn&_). intros (e'&Ee&He)%list_elem_of_fmap. apply (Hn (e_name e')); [by apply list_elem_of_fmap_2|].
  injection Ee as ->. left.
Qed.

(** ** Creating tables *)

(** The first bytes of a piece. *)
Lemma owns_prefix d nd a n b1 b2 ps : owns d nd (mkPiece a n (b1 ++ b2) :: ps) -> owns d nd (mkPiece a n b1 :: ps).
Proof.
  intros ((H1&H2&H3&H4)&Ha&Ho)%owns_cons. apply owns_cons. cbn in *. destruct (slice_app_inv _ _ _ _ H1 H4) as [E _].
  rewrite length_app in H2. split_and!; try done. split_and!; cbn; try done. lia.
Qed.

Definition new_block : bytes :=
  encode_block_header (mkBlockHeader BLOCK 0 0) ++ replicate (Z.to_nat (BLOCK - sizeof_BLOCK_HEADER)) LOGDB_UNINITIALIZED_BYTE.

Lemma length_new_block : Z.of_nat (length new_block) = BLOCK.
Proof. unfold new_block. rewrite length_app, length_encode_block_header, length_replicate. unfold BLOCK, sizeof_BLOCK_HEADER. lia. Qed.

Lemma new_block_ne : new_block <> [].
Proof. intros E. pose proof length_new_block as El. by rewrite E in El. Qed.

(** The metatable's entry for a new table, on disk. *)
Lemma disk_create d d' nd nd' g n bs idx id nd1 :
  disk_ok d nd g -> n <> [] -> n ∉ (e_name <$> g_tabs g) -> nd <= nd' ->
  let x : row := (Some n, Some new_block, None) in let new := fresh OPERATION_APPEND idx id nd1 x in
  16 <= dataOffset (value new) ->
  owns d' nd' (header_piece :: chain 0 bs ++ row_pieces new x ++ (g_tabs g ≫= entry_pieces)) ->
  log_ok nd' bs ((e_record <$> g_tabs g) ++ [new]) -> next_of 0 bs = next_of 0 (g_meta g) ->
  let e := mkEntry new n (mkTbl [(dataOffset (value new), [])] []) in
  disk_ok d' nd' (mkGhost (g_file g) bs (g_tabs g ++ [e])).
Proof.
  intros [Ho Hm Hh He Hnd] Hne Hn Hle x new H16 O1 L1 X1 e. set (off := dataOffset (value new)) in *.
  split; cbn [g_meta g_tabs].
  - unfold layout. cbn [g_meta g_tabs]. rewrite bind_app. cbn [mbind list_bind]. rewrite app_nil_r.
    unfold entry_pieces at 2, rows_pieces. cbn [e_record e_name e e_table blocks_of rows_of chain next_of mbind list_bind app].
    unfold row_pieces, x in O1. cbn [fst snd field_pieces app] in O1. fold off in O1.
    set (K := data_piece (dataOffset (key new)) n) in *. set (P := g_tabs g ≫= entry_pieces) in *.
    assert (owns d' nd' (mkPiece off BLOCK new_block :: header_piece :: chain 0 bs ++ K :: P)) as O2.
    { refine (proj1 (owns_perm _ _ _ _ _) O1). unfold data_piece. rewrite length_new_block. solve_Permutation. }
    apply owns_prefix in O2. refine (proj1 (owns_perm _ _ _ _ _) O2).
    unfold block_piece, block_content. cbn [length encode_records mbind list_bind Z.of_nat]. rewrite app_nil_r.
    cbn [field_pieces]. fold K. solve_Permutation.
  - by rewrite fmap_app.
  - by rewrite X1.
  - apply Forall_app. split; [by eapply entries_mono_wf|]. constructor; [|done].
    split_and!; cbn [e e_record e_name e_table blocks_of rows_of]; [done|done|apply length_new_block|done| |done].
    split; [done| |done|constructor|done]. constructor; [|done]. split; [exact H16|cbn; unfold PER_BLOCK; lia].
  - rewrite fmap_app. apply NoDup_app. split_and!; [done| |apply NoDup_singleton].
    intros y Hy ->%list_elem_of_singleton. done.
Qed.

Lemma core_set_tables s d c ts : core s d c -> core (set_tables ts s) d c.
Proof. by intros [? ? ? ? ? ? ? ? ? ?]. Qed.

Lemma core_set_metatable s d c t : core s d c -> core (set_metatable t s) d c.
Proof. by intros [? ? ? ? ? ? ? ? ? ?]. Qed.

(** The metatable with one more operation in its log; [_tables] does not matter. *)
Lemma metatable_change s d c g ts op idx x x' :
  inv s d c g -> row_given x -> valid_index op idx (e_record <$> g_tabs g) -> idx < 2 ^ 32 -> op <> OPERATION_INSERT ->
  settles op idx x (e_record <$> g_tabs g) (g_tabs g ≫= entry_pieces) x' -> linkable (_nextDataOffset s) (g_meta g) ->
  c + BLOCK + row_size x + slack s < 2 ^ 32 ->
  exists s1 d1 bs id nd, let new := fresh op idx id nd x in
    let rs := update op idx (logged op idx x (e_record <$> g_tabs g) new) (e_record <$> g_tabs g) in
    append_log_record Metatable op idx x.1.1 x.1.2 x.2 (set_tables ts s) =
      (Ok true, set_metatable (mkTable [] (last_info bs zero_info) rs) s1) /\
    core s1 d1 (c + BLOCK + row_size x) /\ steady (set_tables ts s) s1 /\ _nextDataOffset s <= _nextDataOffset s1 /\
    owns d1 (_nextDataOffset s1) (header_piece :: chain 0 bs ++ row_pieces new x ++ (g_tabs g ≫= entry_pieces)) /\
    log_ok (_nextDataOffset s1) bs rs /\ next_of 0 bs = next_of 0 (g_meta g).
Proof.
  intros H Hx Hv Hi Hop Hset Hlink Hl. destruct (inv_disk _ _ _ _ H) as [Ho Hm _ _ _].
  pose proof (inv_metatable _ _ _ _ H) as Em. unfold append_log_record.
  rewrite (bind_ok (deref Metatable) _ (set_tables ts s) (_metatable s) (set_tables ts s)) by done.
  assert (records (_metatable s) = e_record <$> g_tabs g) as Er by (by rewrite Em).
  destruct (append_grows (set_tables ts s) d c (_metatable s) (g_meta g) (g_tabs g ≫= entry_pieces) op idx x x') as
    (s1&d1&bs&id&nd&E1&C1&S1&N1&O1&L1&X1); rewrite ?Er; try done; [apply core_set_tables, H|by rewrite Em|naive_solver|].
  rewrite Er in *. mstep E1. rewrite Em. by exists s1, d1, bs, id, nd.
Qed.

Lemma inv_budget s d c g : inv s d c g -> slack s = 4198400.
Proof. intros H. unfold slack. by rewrite (inv_grow _ _ _ _ H). Qed.

Lemma CreateTable_new s d c g n :
  inv s d c g -> find n (_tables s) = None -> n <> [] -> linkable (_nextDataOffset s) (g_meta g) ->
  c + 2 * BLOCK + Z.of_nat (length n) + 4198400 < 2 ^ 32 ->
  exists s' d' bs e, CreateTable n s = (Ok (Table n), s') /\
    inv s' d' (c + 2 * BLOCK + Z.of_nat (length n)) (mkGhost (g_file g) bs (g_tabs g ++ [e])) /\
    e_name e = n /\ rows_of (e_table e) = [] /\ exists o, blocks_of (e_table e) = [(o, [])].
Proof.
  intros H Hfind Hne Hlink Hl. pose proof (inv_count _ _ _ _ H) as [Hc1 Hc2]. unfold BLOCK in Hl.
  pose proof (core_next _ _ _ (inv_core _ _ _ _ H)) as Hnx. unfold sizeof_FILE_HEADER in Hnx.
  pose proof (core_cost _ _ _ (inv_core _ _ _ _ H)) as Hcost.
  destruct (find_None_names _ _ _ _ _ H Hfind) as [Hn1 Hn2].
  destruct (meta_find s d c g n H ltac:(lia)) as (s1&E1&S1). unfold index_of in E1. rewrite drop_0, key_index_missing in E1 by done.
  pose proof (same_inv _ _ _ _ _ H S1) as H1. pose proof S1 as ((_&_&_&Eb&_&Et)&_&En).
  unfold CreateTable. rewrite bind_get. mstep E1. rewrite Hfind. rewrite (bind_lift_ok _ _ _ tt) by done.
  cbn beta zeta. unfold store. rewrite bind_modify. rewrite (core_block _ _ _ (inv_core _ _ _ _ H)). fold new_block.
  set (ts := assign_at n _ _). set (x := (Some n, Some new_block, None) : row).
  assert (row_size x = Z.of_nat (length n) + BLOCK) as Ex.
  { unfold row_size, x. cbn [fst snd data_size]. rewrite length_new_block. lia. }
  assert (row_given x) as Hx by (split_and!; cbn [x fst snd]; [intros [= ->]; done|intros [= E]; by apply new_block_ne|done]).
  set (idx := Z.of_nat (length (g_tabs g))).
  assert (u32 (Z.of_nat (length (records (_metatable s1)))) = idx) as Ei.
  { rewrite (inv_metatable _ _ _ _ H1). cbn [records]. rewrite length_fmap. apply u32_small. lia. }
  destruct (metatable_change s1 d c g ts OPERATION_APPEND idx x x) as (s2&d2&bs&id&nd&E2&C2&S2&N2&O2&L2&X2); try done.
  { split; [lia|by left]. } { lia. }
  { right. split; [done|]. intros new Hnew. rewrite logged_other by done. split; [done|]. by apply submseteq_inserts_r. }
  { by rewrite En. } { rewrite (inv_budget _ _ _ _ H1), Ex. unfold BLOCK. lia. }
  set (new := fresh OPERATION_APPEND idx id nd x) in *. rewrite logged_other in * by done.
  change (update OPERATION_APPEND idx new (e_record <$> g_tabs g)) with ((e_record <$> g_tabs g) ++ [new]) in *.
  set (meta := mkTable _ _ _) in E2.
  rewrite (bind_ok _ _ _ idx (set_metatable meta s2)).
  2: { unfold Append. rewrite (bind_ok (deref Metatable) _ _ (_metatable s1) (set_tables ts s1)) by done. rewrite Ei.
       mstep E2. done. }
  rewrite (bind_ok (deref Metatable) _ _ meta (set_metatable meta s2)) by done. cbn [records meta].
  rewrite (list_lookup_middle _ []) by (unfold idx; rewrite Nat2Z.id; by rewrite length_fmap).
  rewrite bind_modify. set (e := mkEntry new n (mkTbl [(dataOffset (value new), [])] [])).
  pose proof S2 as (S2a&S2b&S2c&S2d&S2e&S2f). cbn in S2f.
  set (s3 := set_tables _ _). assert (core s3 d2 (c + BLOCK + row_size x)) as C3 by (by apply core_set_tables, core_set_metatable).
  mstep (size_spec _ _ _ C3). cbn [offset].
  assert (16 <= dataOffset (value new) /\ dataOffset (value new) + BLOCK <= _nextDataOffset s2) as [B1 B2].
  { assert (owns d2 (_nextDataOffset s2) (header_piece :: field_pieces (value new) (Some new_block) ++ field_pieces (key new) (Some n) ++ chain 0 bs ++ (g_tabs g ≫= entry_pieces))) as O3.
    { refine (proj1 (owns_perm _ _ _ _ _) O2). unfold row_pieces, x. cbn [fst snd field_pieces]. solve_Permutation. }
    destruct (field_bounds _ _ _ _ _ O3) as [_ (?&_&Hle)].
    - pose proof (core_cost _ _ _ C2). pose proof (core_limit _ _ _ C2). pose proof (core_grow _ _ _ C2). unfold slack in *. lia.
    - exact (proj1 (proj2 (fresh_is OPERATION_APPEND idx id nd x Hx))).
    - change (dataSize (value new)) with (Z.of_nat (length new_block)) in Hle. rewrite length_new_block in Hle. done. }
  pose proof (core_next _ _ _ C2) as Hnx2. unfold BLOCK in B2.
  rewrite (bind_lift_ok _ _ _ tt) by (unfold assert_; by ztest).
  eexists _, d2, bs, e. split; [done|]. split; [|split_and!; [done|done|by eexists]].
  replace (c + 2 * BLOCK + Z.of_nat (length n)) with (c + BLOCK + row_size x) by (rewrite Ex; lia).
  split; unfold s3; cbn [_growPagesStep pages set_metatable set_tables _nextDataOffset _metatable _tables g_meta g_tabs g_file]; try done.
  - rewrite S2c. apply (inv_grow _ _ _ _ H1).
  - rewrite (config_file _ _ S2a). apply (inv_file _ _ _ _ H1).
  - apply (disk_create d d2 (_nextDataOffset s1)); try done. apply H1.
  - unfold meta. by rewrite fmap_app.
  - rewrite S2f. unfold ts. rewrite assign_assign. apply sorted_assign. apply H1.
  - rewrite S2f. unfold ts. rewrite assign_assign, to_map_assign, (inv_tables _ _ _ _ H1).
    rewrite <- (app_nil_r (g_tabs g)) at 1. rewrite (named_split _ (g_tabs g) e []); [done|].
    rewrite named_fst, fmap_app. apply NoDup_app. split_and!; [apply (disk_names _ _ _ (inv_disk _ _ _ _ H))| |apply NoDup_singleton].
    intros y Hy ->%list_elem_of_singleton. done.
  - rewrite length_app. cbn. rewrite Ex. unfold BLOCK. split; [lia|]. apply Forall_app. split; [|constructor; [cbn; lia|done]].
    eapply Forall_impl; [done|]. cbn. lia.
Qed.

(** Creating a table that exists opens it. *)
Lemma CreateTable_old s d c g l1 e l2 :
  inv s d c g -> g_tabs g = l1 ++ e :: l2 -> Z.of_nat (length (e_name e)) < 2 ^ 32 ->
  exists s', CreateTable (e_name e) s = (Ok (Table (e_name e)), s') /\ inv s' d c g.
Proof.
  intros H E Hn. destruct (meta_find s d c g (e_name e) H Hn) as (s1&E1&S1).
  rewrite (names_split _ _ _ _ _ _ _ H E) in E1. unfold CreateTable. rewrite bind_get. mstep E1.
  rewrite (table_entry_find _ _ _ _ _ _ _ H E). exists s1. split; [|by eapply same_inv].
  rewrite (bind_lift_ok _ _ _ tt); [done|]. unfold assert_, LDB_INVALID_RECNO.
  pose proof (inv_count _ _ _ _ H) as [Hc _]. rewrite E, length_app in Hc. cbn in Hc.
  pose proof (inv_fits _ _ _ _ H) as (_&_&?). by ztest.
Qed.

(** ** Deleting tables *)

Lemma delete_middle {A} (l1 : list A) a l2 :
  update OPERATION_DELETE (Z.of_nat (length l1)) a (l1 ++ a :: l2) = l1 ++ l2.
Proof.
  unfold update. cbn [Z.eqb Pos.eqb OPERATION_DELETE OPERATION_APPEND OPERATION_SET OPERATION_INSERT].
  rewrite Nat2Z.id, take_app_length. f_equal.
  replace (l1 ++ a :: l2) with ((l1 ++ [a]) ++ l2) by (by rewrite <- app_assoc).
  apply drop_app_length'. rewrite length_app. cbn. lia.
Qed.

Lemma update_delete {A} idx (a b : A) l : update OPERATION_DELETE idx a l = update OPERATION_DELETE idx b l.
Proof. done. Qed.

Lemma DeleteTable_spec s d c g l1 e l2 :
  inv s d c g -> g_tabs g = l1 ++ e :: l2 -> Z.of_nat (length (e_name e)) < 2 ^ 32 ->
  linkable (_nextDataOffset s) (g_meta g) -> c + BLOCK + 4198400 < 2 ^ 32 ->
  exists s' d' bs, DeleteTable (Table (e_name e)) s = (Ok true, s') /\
    inv s' d' (c + BLOCK) (mkGhost (g_file g) bs (l1 ++ l2)).
Proof.
  intros H E Hn Hlink Hl. unfold DeleteTable.
  rewrite (bind_ok _ _ s (table_info e) s) by (unfold deref; rewrite bind_get, (table_entry_find _ _ _ _ _ _ _ H E); done).
  cbn [name table_info]. destruct (meta_find s d c g (e_name e) H Hn) as (s1&E1&S1).
  rewrite (names_split _ _ _ _ _ _ _ H E) in E1. mstep E1. set (idx := Z.of_nat (length l1)) in *.
  pose proof (same_inv _ _ _ _ _ H S1) as H1. pose proof S1 as (_&_&En).
  pose proof (inv_count _ _ _ _ H) as [Hc Hc2]. pose proof Hc as Hc'. rewrite E, length_app in Hc'. cbn in Hc'. unfold BLOCK in Hl.
  unfold LDB_INVALID_RECNO. ztest.
  assert (valid_index OPERATION_DELETE idx (e_record <$> g_tabs g)) as Hv.
  { split; [lia|]. right. right. right. split; [by right|]. rewrite length_fmap, E, length_app. cbn. lia. }
  destruct (metatable_change s1 d c g (_tables s1) OPERATION_DELETE idx (None, None, None) (None, None, None))
    as (s2&d2&bs&id&nd&E2&C2&S2&N2&O2&L2&X2); try done.
  { lia. } { left. split; [done|by left]. } { by rewrite En. } { rewrite (inv_budget _ _ _ _ H1). unfold BLOCK, row_size. cbn. lia. }
  replace (set_tables (_tables s1) s1) with s1 in E2, S2 by (by destruct s1).
  set (rs := update _ _ _ _) in *.
  assert (rs = e_record <$> l1 ++ l2) as Ers.
  { unfold rs. rewrite E. erewrite update_delete. rewrite fmap_app, fmap_cons.
    replace idx with (Z.of_nat (length (e_record <$> l1))) by (by rewrite length_fmap). rewrite delete_middle. by rewrite fmap_app. }
  rewrite (bind_ok _ _ s1 idx (set_metatable (mkTable [] (last_info bs zero_info) rs) s2)).
  2: { unfold DeleteByIndex. rewrite (bind_ok (deref Metatable) _ s1 (_metatable s1) s1) by done.
       unfold CheckIndex. rewrite (inv_metatable _ _ _ _ H1). cbn [records]. rewrite length_fmap, E, length_app. cbn [length].
       ztest. cbn [fst snd] in E2. mstep E2. done. }
  rewrite bind_modify. pose proof S2 as (S2a&S2b&S2c&S2d&S2e&S2f).
  eexists _, d2, bs. split; [done|]. replace (c + BLOCK) with (c + BLOCK + row_size (None, None, None)) by (unfold row_size; cbn; lia).
  destruct (inv_disk _ _ _ _ H1) as [Ho Hm Hh He Hnd]. pose proof Hnd as Hnd2. rewrite E, fmap_app, fmap_cons in Hnd2.
  apply NoDup_app in Hnd2 as (Nd1&Nd2&[Nd3 Nd4]%NoDup_cons).
  assert (NoDup (e_name <$> l1 ++ l2)) as Hnd'.
  { rewrite fmap_app. apply NoDup_app. split_and!; try done. intros y Hy Hy2. apply (Nd2 y Hy). by right. }
  assert (e_name e ∉ e_name <$> l1 ++ l2) as Hout.
  { rewrite fmap_app. intros [Hin|Hin]%elem_of_app; [|done]. apply (Nd2 _ Hin). left. }
  split; cbn [_growPagesStep pages set_metatable set_tables _nextDataOffset _metatable _tables g_meta g_tabs g_file].
  - by apply core_set_tables, core_set_metatable.
  - rewrite S2c. apply (inv_grow _ _ _ _ H1).
  - rewrite (config_file _ _ S2a). apply (inv_file _ _ _ _ H1).
  - split; cbn [g_meta g_tabs].
    + eapply owns_submseteq; [exact O2|]. unfold layout. cbn [g_meta g_tabs]. apply submseteq_skip, submseteq_app; [done|].
      cbn [row_pieces fst snd field_pieces app]. rewrite E, !bind_app, bind_cons. apply submseteq_app; [done|]. by apply submseteq_inserts_l.
    + by rewrite <- Ers.
    + by rewrite X2.
    + rewrite E in He. apply Forall_app in He as [He1 [_ He2]%Forall_cons]. apply Forall_app. split; by eapply entries_mono_wf.
    + done.
  - by rewrite Ers.
  - rewrite S2f. apply sorted_erase, H1.
  - rewrite S2f, to_map_erase by apply H1. rewrite (inv_tables _ _ _ _ H1), E, (named_split _ l1 e l2).
    + cbn [named fst]. rewrite delete_insert_id; [done|]. apply not_elem_of_list_to_map_1. by rewrite named_fst.
    + rewrite named_fst, <- E. done.
  - rewrite length_app. unfold BLOCK, row_size. cbn. split; [lia|]. rewrite E in Hc2. apply Forall_app in Hc2 as [Q1 [_ Q2]%Forall_cons].
    apply Forall_app. split; (eapply Forall_impl; [done|]; cbn; lia).
Qed.

End LogDatabase.
