(* ===== verification/LogSpec.v ===== *)
(** * The log database against maps of lists

    The abstract database is a map from names to lists of rows.  Every request to
    [Ldb] does to the file and the tables in memory what it does to that map,
    also when the database is closed and opened, or the process started again,
    in between. *)
From S2P Require Import Prelude StdMap LogFile LogDb LogLayout LogWrites LogLoad LogTables LogRefine LogReads LogReopen LogDatabase.

Module LogSpec.
Import StdMap LogFile LogDb LogLayout LogWrites LogLoad LogTables LogRefine LogReads LogReopen LogDatabase.

(** ** Requests *)

Inductive request :=
| CreateTable_ (n : bytes)
| DeleteTable_ (n : bytes)
| Append_ (n : bytes) (x : row)
| InsertAt (n : bytes) (i : Z) (x : row)
| SetAt (n : bytes) (i : Z) (x : row)
| SetKey (n : bytes) (start : Z) (k : bytes) (v m : option bytes)
| DeleteAt (n : bytes) (i : Z)
| DeleteKey (n : bytes) (start : Z) (k : bytes)
| ClearAll (n : bytes)
| Reopen
| Restart (junk : Z -> nat -> Byte.byte) (garbage : Z).

(** A call on a table that is looked up by its name. *)
Definition on_table (n : bytes) (k : table_ptr -> M Ldb Z) : M Ldb Z :=
  p ← OpenTable n;
  match p with Some p => k p | None => mret LDB_INVALID_RECNO end.

(** The calls of [Ldb], with the file's name [f]. *)
Definition exec (f : bytes) (r : request) : M Ldb Z :=
  match r with
  | CreateTable_ n => _ ← CreateTable n; mret 0
  | DeleteTable_ n => on_table n (fun p => b ← DeleteTable p; mret (if (b : bool) then 0 else LDB_INVALID_RECNO))
  | Append_ n x => on_table n (fun p => Append p x.1.1 x.1.2 x.2)
  | InsertAt n i x => on_table n (fun p => InsertByIndex p i x.1.1 x.1.2 x.2)
  | SetAt n i x => on_table n (fun p => SetByIndex p i x.1.1 x.1.2 x.2)
  | SetKey n start k v m => on_table n (fun p => Set_ p start k v m)
  | DeleteAt n i => on_table n (fun p => DeleteByIndex p i)
  | DeleteKey n start k => on_table n (fun p => Delete p start k)
  | ClearAll n => on_table n (fun p => _ ← ClearAllRecords p; mret 0)
  | Reopen => b ← reopen f; mret (if (b : bool) then 0 else LDB_INVALID_RECNO)
  | Restart junk garbage => b ← restart f junk garbage; mret (if (b : bool) then 0 else LDB_INVALID_RECNO)
  end.

(** ** The abstract database *)

Notation db := (gmap bytes (list row)).

Definition keys (rows : list row) : list (option bytes) := (fun x => x.1.1) <$> rows.

Definition set_at (i : Z) (x : row) (rows : list row) : list row * Z :=
  match rows !! Z.to_nat i with
  | Some y => (<[Z.to_nat i := merge x y]> rows, i)
  | None => (rows, LDB_INVALID_RECNO)
  end.

Definition delete_at (i : Z) (rows : list row) : list row * Z :=
  if i <? Z.of_nat (length rows) then (delete (Z.to_nat i) rows, i) else (rows, LDB_INVALID_RECNO).

(** What a request does to the rows of its table, and its result. *)
Definition spec_rows (r : request) (rows : list row) : list row * Z :=
  match r with
  | Append_ _ x => (rows ++ [x], Z.of_nat (length rows))
  | InsertAt _ i x =>
      if (i =? 0) || (i <? Z.of_nat (length rows)) then (take (Z.to_nat i) rows ++ x :: drop (Z.to_nat i) rows, i)
      else (rows, LDB_INVALID_RECNO)
  | SetAt _ i x => set_at i x rows
  | SetKey _ start k v m =>
      let i := index_of start k (keys rows) in
      if i =? LDB_INVALID_RECNO then (rows ++ [(Some k, v, m)], Z.of_nat (length rows)) else set_at i (Some k, v, m) rows
  | DeleteAt _ i => delete_at i rows
  | DeleteKey _ start k =>
      let i := index_of start k (keys rows) in
      if i =? LDB_INVALID_RECNO then (rows, LDB_INVALID_RECNO) else delete_at i rows
  | ClearAll _ => ([], 0)
  | _ => (rows, 0)
  end.

Definition spec (r : request) (D : db) : db * Z :=
  match r with
  | CreateTable_ n => (match D !! n with Some _ => D | None => <[n := []]> D end, 0)
  | DeleteTable_ n => (delete n D, match D !! n with Some _ => 0 | None => LDB_INVALID_RECNO end)
  | Reopen | Restart _ _ => (D, 0)
  | Append_ n _ | InsertAt n _ _ | SetAt n _ _ | SetKey n _ _ _ _ | DeleteAt n _ | DeleteKey n _ _ | ClearAll n =>
      match D !! n with
      | Some rows => let '(rows, z) := spec_rows r rows in (<[n := rows]> D, z)
      | None => (D, LDB_INVALID_RECNO)
      end
  end.

(** ** What is asked of a request *)

(** Loading refuses a block that follows the block before it at once. *)
Definition can_log (s : Ldb) (t : TABLE_INFO) : Prop :=
  usedCount (blockHeader (lastBlockHeaderInfo t)) = Z.of_nat PER_BLOCK ->
  offset (lastBlockHeaderInfo t) + BLOCK < _nextDataOffset s.

Definition table_can_log (s : Ldb) (n : bytes) : Prop := forall t, find n (_tables s) = Some t -> can_log s t.

(** No data is empty, a new row has some data, and the first row of a table is
    appended, not inserted. *)
Definition allowed (s : Ldb) (r : request) : Prop :=
  match r with
  | CreateTable_ n => n <> [] /\ can_log s (_metatable s)
  | DeleteTable_ n => can_log s (_metatable s)
  | Append_ n x => row_given x /\ nonempty x /\ table_can_log s n
  | InsertAt n i x => row_given x /\ nonempty x /\ 0 <= i < 2 ^ 32 /\ table_can_log s n /\
      (forall t, find n (_tables s) = Some t -> records t <> [])
  | SetAt n i x => row_given x /\ 0 <= i < 2 ^ 32 /\ table_can_log s n
  | SetKey n start k v m => row_given (Some k, v, m) /\ 0 <= start /\ table_can_log s n
  | DeleteAt n i => 0 <= i < 2 ^ 32 /\ table_can_log s n
  | DeleteKey n start k => 0 <= start /\ table_can_log s n
  | ClearAll n => table_can_log s n
  | Reopen | Restart _ _ => True
  end.

(** How many bytes a request can take in the file. *)
Definition cost (r : request) : Z :=
  match r with
  | CreateTable_ n => 2 * BLOCK + Z.of_nat (length n)
  | DeleteTable_ n => BLOCK + Z.of_nat (length n)
  | Append_ _ x | InsertAt _ _ x | SetAt _ _ x => BLOCK + row_size x
  | SetKey _ _ k v m => BLOCK + row_size (Some k, v, m)
  | DeleteAt _ _ | ClearAll _ => BLOCK
  | DeleteKey _ _ k => BLOCK + Z.of_nat (length k)
  | Reopen | Restart _ _ => 0
  end.

(** ** One table *)

Lemma inv_more s d c c' g : inv s d c g -> c <= c' -> c' + 4198400 < 2 ^ 32 -> inv s d c' g.
Proof.
  intros H Hc Hl. pose proof (inv_budget _ _ _ _ H) as Hb. destruct H as [H1 H2 H3 H4 H5 H6 H7 [H8 H9]]. split; try done.
  - eapply core_more; [done|done|by rewrite Hb].
  - split; [lia|]. eapply Forall_impl; [done|]. cbn. lia.
Qed.

Lemma can_log_linkable s d c g t bs : 
  inv s d c g -> can_log s t -> lastBlockHeaderInfo t = last_info bs zero_info -> linkable (_nextDataOffset s) bs.
Proof.
  intros _ Hcan Ht o rs El Hrs. unfold can_log in Hcan. rewrite Ht in Hcan. unfold last_info in Hcan. rewrite El in Hcan.
  cbn in Hcan. apply Hcan. by rewrite Hrs.
Qed.

(** The table of a name, in the map and on disk. *)
Lemma contents_split d nd g n rows :
  disk_ok d nd g -> contents g !! n = Some rows ->
  exists l1 e l2, g_tabs g = l1 ++ e :: l2 /\ e_name e = n /\ (rows_of (e_table e)).*2 = rows.
Proof.
  intros H E. unfold contents in E. apply elem_of_list_to_map_2, list_elem_of_fmap in E as (e&E&He).
  apply list_elem_of_split in He as (l1&l2&He). exists l1, e, l2. by injection E as -> ->.
Qed.

Lemma contents_None s d c g n : inv s d c g -> contents g !! n = None <-> find n (_tables s) = None.
Proof.
  intros H. rewrite find_to_map, (inv_tables _ _ _ _ H). unfold contents. 
  rewrite <- !not_elem_of_list_to_map, named_fst, <- list_fmap_compose. done.
Qed.

Lemma contents_with d nd g l1 e l2 bs rows :
  disk_ok d nd g -> g_tabs g = l1 ++ e :: l2 ->
  contents (mkGhost (g_file g) (g_meta g) (l1 ++ with_table e bs rows :: l2)) = <[e_name e := rows.*2]> (contents g).
Proof.
  intros H E. pose proof (disk_names _ _ _ H) as Hn. unfold contents. cbn [g_tabs]. rewrite E in *.
  rewrite !named_split; [cbn; by rewrite insert_insert_eq|rewrite <- list_fmap_compose; done|].
  rewrite <- list_fmap_compose. by rewrite fmap_app, fmap_cons in *.
Qed.

(** A request that logs an operation on a table. *)
Lemma log_request s d c g n rows op idx x :
  inv s d c g -> contents g !! n = Some rows -> row_given x -> acts op x ->
  0 <= idx < 2 ^ 32 ->
  (op = OPERATION_APPEND \/ op = OPERATION_CLEAR \/ idx < Z.of_nat (length rows) \/ (op = OPERATION_INSERT /\ idx = 0 /\ rows <> [])) ->
  table_can_log s n -> c + BLOCK + row_size x + 4198400 < 2 ^ 32 ->
  exists s' d' g', append_log_record (Table n) op idx x.1.1 x.1.2 x.2 s = (Ok true, s') /\
    inv s' d' (c + BLOCK + row_size x) g' /\ g_file g' = g_file g /\
    contents g' = <[n := update op idx (result_row op idx x rows) rows]> (contents g).
Proof.
  intros H Hr Hx Ha Hi Hop Hcan Hl. pose proof (inv_disk _ _ _ _ H) as Hd.
  destruct (contents_split _ _ _ _ _ Hd Hr) as (l1&e&l2&E&<-&<-).
  assert (length (rows_of (e_table e)).*2 = length (rows_of (e_table e))) as El by apply length_fmap.
  destruct (table_change s d c g l1 e l2 op idx x) as (s'&d'&bs&rows&E'&H'&Er); try done.
  - unfold valid_index. rewrite length_fmap. rewrite El in Hop. split; [lia|]. unfold acts in Ha.
    destruct Ha as [[[->| ->] _]|[[[->| ->] _]| ->]]; unfold OPERATION_SET, OPERATION_APPEND, OPERATION_CLEAR, OPERATION_INSERT, OPERATION_DELETE in *; lia || naive_solver lia.
  - lia.
  - intros [-> Hnil]. rewrite Hnil in Hop. cbn in Hop.
    unfold OPERATION_APPEND, OPERATION_CLEAR, OPERATION_INSERT in Hop. naive_solver lia.
  - eapply can_log_linkable; [done|apply Hcan; by eapply table_entry_find|done].
  - by rewrite (inv_budget _ _ _ _ H).
  - exists s', d'. eexists. split; [done|]. split; [done|]. split; [done|]. by rewrite (contents_with _ _ _ _ _ _ _ _ Hd E), Er.
Qed.

(** ** Finding rows *)

(** A table in memory has a record for each row, and their data can be read. *)
Lemma deref_table s d c g n rows :
  inv s d c g -> contents g !! n = Some rows ->
  exists t, deref (Table n) s = (Ok t, s) /\ find n (_tables s) = Some t /\
    Forall2 (row_readable d) (records t) rows /\ Z.of_nat (length rows) <= c.
Proof.
  intros H Hr. pose proof (inv_disk _ _ _ _ H) as Hd. destruct (contents_split _ _ _ _ _ Hd Hr) as (l1&e&l2&E&<-&<-).
  pose proof (table_entry_find _ _ _ _ _ _ _ H E) as Ef. exists (table_info e).
  split; [unfold deref; rewrite bind_get, Ef; done|]. split; [done|]. destruct Hd as [Ho _ _ He _].
  assert (e ∈ g_tabs g) as Hin by (rewrite E; set_solver). split.
  - cbn [records table_info]. rewrite Forall_forall in He. destruct (He e Hin) as (_&_&_&_&_&Hrows).
    rewrite Forall2_fmap. apply Forall_Forall2_diag. rewrite Forall_forall in *. intros [r x] Hrx.
    destruct (Hrows _ Hrx) as [(R1&R2&R3) _]. cbn in *.
    assert (row_pieces r x ⊆ layout g) as Hsub.
    { etrans; [|by apply layout_entry]. unfold entry_pieces, rows_pieces. intros p Hp. apply elem_of_app. right.
      apply elem_of_app. right. apply list_elem_of_bind. by exists (r, x). }
    unfold row_pieces in Hsub. pose proof (proj2 (core_next _ _ _ (inv_core _ _ _ _ H))) as Hle.
    split_and!; (eapply field_readable; [exact Ho| |done|done]); (etrans; [|exact Hsub]); set_solver.
  - destruct (inv_count _ _ _ _ H) as [_ Hc]. rewrite Forall_forall in Hc. rewrite length_fmap. by apply Hc.
Qed.

Lemma table_find s d c g n rows start k :
  inv s d c g -> contents g !! n = Some rows -> 0 <= start -> Z.of_nat (length k) < 2 ^ 32 ->
  exists s', FindKey (Table n) start k s = (Ok (index_of start k (keys rows)), s') /\ same d s s'.
Proof.
  intros H Hr Hs Hk. destruct (deref_table _ _ _ _ _ _ H Hr) as (t&Et&_&Hf&Hlen).
  pose proof (inv_fits _ _ _ _ H) as (_&_&?). pose proof (core_rep _ _ _ (inv_core _ _ _ _ H)) as Hrep.
  apply (FindKey_spec _ t); [done|done|done| |rewrite (Forall2_length _ _ _ Hf); lia|done|apply (rep_size _ _ Hrep)].
  unfold keys. apply Forall2_fmap_r. eapply Forall2_impl; [done|]. by intros r x [? _].
Qed.

Lemma index_of_range start k l :
  0 <= start -> index_of start k l <> LDB_INVALID_RECNO -> 0 <= index_of start k l < Z.of_nat (length l).
Proof.
  intros Hs Hne. unfold index_of, key_index in *. destruct (list_find _ _) as [[j y]|] eqn:E; [|done].
  apply list_find_Some in E as (Hj%lookup_lt_Some&_&_). rewrite length_drop in Hj. lia.
Qed.

(** ** Requests one by one *)

(** The state that a request leaves. *)
Definition done_by (s : Ldb) (c : Z) (g : ghost) (r : request) (result : res Z * Ldb) : Prop :=
  exists s' d' g', result = (Ok (spec r (contents g)).2, s') /\ inv s' d' (c + cost r) g' /\
    contents g' = (spec r (contents g)).1 /\ g_file g' = g_file g.

(** A request for a table that is not there. *)
Lemma on_table_missing s d c g n k r :
  inv s d c g -> contents g !! n = None -> 0 <= cost r -> c + cost r + 4198400 < 2 ^ 32 ->
  spec r (contents g) = (contents g, LDB_INVALID_RECNO) -> done_by s c g r (on_table n k s).
Proof.
  intros H Hn Hc Hl Hs. unfold on_table, OpenTable. rewrite (bind_ok _ _ s None s).
  2: { rewrite bind_get, (proj1 (contents_None _ _ _ _ _ H) Hn). done. }
  exists s, d, g. rewrite Hs. split_and!; try done. eapply inv_more; [done|lia|done].
Qed.

Lemma on_table_found s d c g n k rows :
  inv s d c g -> contents g !! n = Some rows -> on_table n k s = k (Table n) s.
Proof.
  intros H Hr. destruct (deref_table _ _ _ _ _ _ H Hr) as (t&_&Ef&_). unfold on_table, OpenTable.
  rewrite (bind_ok _ _ s (Some (Table n)) s); [done|]. by rewrite bind_get, Ef.
Qed.

Lemma contents_same s d c g n rows :
  inv s d c g -> contents g !! n = Some rows -> <[n := rows]> (contents g) = contents g.
Proof. intros _ H. by apply insert_id. Qed.

Lemma Append_spec s d c g n rows x :
  inv s d c g -> contents g !! n = Some rows -> row_given x -> nonempty x -> table_can_log s n ->
  c + BLOCK + row_size x + 4198400 < 2 ^ 32 ->
  exists s' d' g', Append (Table n) x.1.1 x.1.2 x.2 s = (Ok (Z.of_nat (length rows)), s') /\
    inv s' d' (c + BLOCK + row_size x) g' /\ g_file g' = g_file g /\ contents g' = <[n := rows ++ [x]]> (contents g).
Proof.
  intros H Hr Hx Hne Hcan Hl. destruct (deref_table _ _ _ _ _ _ H Hr) as (t&Et&Ef&Hf&Hlen).
  pose proof (row_size_nonneg x). unfold BLOCK in Hl. unfold Append. mstep Et. rewrite (Forall2_length _ _ _ Hf).
  rewrite u32_small by lia.
  destruct (log_request s d c g n rows OPERATION_APPEND (Z.of_nat (length rows)) x) as (s'&d'&g'&E'&H'&Eg&Ec); try done.
  { right. left. split; [by left|done]. } { lia. } { by left. }
  mstep E'. exists s', d', g'. done.
Qed.

Lemma SetByIndex_spec s d c g n rows i x :
  inv s d c g -> contents g !! n = Some rows -> row_given x -> 0 <= i < 2 ^ 32 -> table_can_log s n ->
  c + BLOCK + row_size x + 4198400 < 2 ^ 32 ->
  exists s' d' g', SetByIndex (Table n) i x.1.1 x.1.2 x.2 s = (Ok (set_at i x rows).2, s') /\
    inv s' d' (c + BLOCK + row_size x) g' /\ g_file g' = g_file g /\ contents g' = <[n := (set_at i x rows).1]> (contents g).
Proof.
  intros H Hr Hx Hi Hcan Hl. destruct (deref_table _ _ _ _ _ _ H Hr) as (t&Et&Ef&Hf&Hlen).
  pose proof (row_size_nonneg x). unfold BLOCK in Hl. unfold SetByIndex, CheckIndex, set_at. mstep Et. rewrite (Forall2_length _ _ _ Hf).
  destruct (i <? _) eqn:E; bool_to_prop; cbn [negb].
  - destruct (lookup_lt_is_Some_2 rows (Z.to_nat i)) as [y Ey]; [lia|]. rewrite Ey.
    destruct (log_request s d c g n rows OPERATION_SET i x) as (s'&d'&g'&E'&H'&Eg&Ec); try done.
    { right. by right. } { right. right. by left. }
    mstep E'. exists s', d', g'. split_and!; try done. rewrite Ec. unfold result_row. cbn [Z.eqb Pos.eqb OPERATION_SET]. by rewrite Ey.
  - rewrite (proj2 (lookup_ge_None _ _)) by lia. exists s, d, g. cbn [fst snd]. rewrite (contents_same _ _ _ _ _ _ H Hr).
    split_and!; try done. eapply inv_more; [done|unfold BLOCK; lia|unfold BLOCK; lia].
Qed.

Lemma DeleteByIndex_spec s d c g n rows i :
  inv s d c g -> contents g !! n = Some rows -> 0 <= i < 2 ^ 32 -> table_can_log s n -> c + BLOCK + 4198400 < 2 ^ 32 ->
  exists s' d' g', DeleteByIndex (Table n) i s = (Ok (delete_at i rows).2, s') /\
    inv s' d' (c + BLOCK) g' /\ g_file g' = g_file g /\ contents g' = <[n := (delete_at i rows).1]> (contents g).
Proof.
  intros H Hr Hi Hcan Hl. destruct (deref_table _ _ _ _ _ _ H Hr) as (t&Et&Ef&Hf&Hlen).
  unfold DeleteByIndex, CheckIndex, delete_at. mstep Et. rewrite (Forall2_length _ _ _ Hf).
  destruct (i <? _) eqn:E; bool_to_prop; cbn [negb].
  - destruct (log_request s d c g n rows OPERATION_DELETE i (None, None, None)) as (s'&d'&g'&E'&H'&Eg&Ec); try done.
    { left. split; [by left|done]. } { right. right. by left. } { unfold row_size. cbn. lia. }
    cbn [fst snd] in E'. mstep E'. exists s', d', g'. unfold row_size in H'. cbn in H'. rewrite Z.add_0_r in H'.
    split_and!; try done. rewrite Ec. f_equal. unfold update. cbn [Z.eqb Pos.eqb OPERATION_DELETE OPERATION_APPEND OPERATION_SET OPERATION_INSERT].
    by rewrite delete_take_drop.
  - exists s, d, g. cbn [fst snd]. rewrite (contents_same _ _ _ _ _ _ H Hr). split_and!; try done. eapply inv_more; [done|unfold BLOCK; lia|done].
Qed.

Lemma InsertByIndex_spec s d c g n rows i x :
  inv s d c g -> contents g !! n = Some rows -> row_given x -> nonempty x -> 0 <= i < 2 ^ 32 -> table_can_log s n ->
  rows <> [] -> c + BLOCK + row_size x + 4198400 < 2 ^ 32 ->
  exists s' d' g', InsertByIndex (Table n) i x.1.1 x.1.2 x.2 s = (Ok (spec_rows (InsertAt n i x) rows).2, s') /\
    inv s' d' (c + BLOCK + row_size x) g' /\ g_file g' = g_file g /\
    contents g' = <[n := (spec_rows (InsertAt n i x) rows).1]> (contents g).
Proof.
  intros H Hr Hx Hne Hi Hcan Hrows Hl. destruct (deref_table _ _ _ _ _ _ H Hr) as (t&Et&Ef&Hf&Hlen).
  pose proof (row_size_nonneg x). unfold BLOCK in Hl. unfold InsertByIndex, CheckIndex. mstep Et. rewrite (Forall2_length _ _ _ Hf).
  cbn [spec_rows]. rewrite <- negb_orb. destruct (_ || _) eqn:E; cbn [negb].
  - destruct (log_request s d c g n rows OPERATION_INSERT i x) as (s'&d'&g'&E'&H'&Eg&Ec); try done.
    { right. left. split; [by right|done]. }
    { apply orb_prop in E as [E|E]; bool_to_prop; [by right; right; right|right; right; by left]. }
    mstep E'. by exists s', d', g'.
  - exists s, d, g. cbn [fst snd]. rewrite (contents_same _ _ _ _ _ _ H Hr). split_and!; try done.
    eapply inv_more; [done|unfold BLOCK; lia|unfold BLOCK; lia].
Qed.

Lemma Clear_spec s d c g n rows :
  inv s d c g -> contents g !! n = Some rows -> table_can_log s n -> c + BLOCK + 4198400 < 2 ^ 32 ->
  exists s' d' g', ClearAllRecords (Table n) s = (Ok tt, s') /\
    inv s' d' (c + BLOCK) g' /\ g_file g' = g_file g /\ contents g' = <[n := []]> (contents g).
Proof.
  intros H Hr Hcan Hl.
  destruct (log_request s d c g n rows OPERATION_CLEAR 0 (None, None, None)) as (s'&d'&g'&E'&H'&Eg&Ec); try done.
  { left. split; [by right|done]. } { right. by left. } { unfold row_size. cbn. lia. }
  unfold ClearAllRecords. cbn [fst snd] in E'. mstep E'. exists s', d', g'. unfold row_size in H'. cbn in H'. by rewrite Z.add_0_r in H'.
Qed.

Lemma same_can_log d s s' n : table_can_log s n -> same d s s' -> table_can_log s' n.
Proof. intros H ((_&_&_&_&_&Et)&_&En) t. unfold can_log. rewrite Et, En. apply H. Qed.

Lemma SetKey_spec s d c g n rows start k v m :
  inv s d c g -> contents g !! n = Some rows -> row_given (Some k, v, m) -> 0 <= start -> table_can_log s n ->
  c + BLOCK + row_size (Some k, v, m) + 4198400 < 2 ^ 32 ->
  exists s' d' g', Set_ (Table n) start k v m s = (Ok (spec_rows (SetKey n start k v m) rows).2, s') /\
    inv s' d' (c + BLOCK + row_size (Some k, v, m)) g' /\ g_file g' = g_file g /\
    contents g' = <[n := (spec_rows (SetKey n start k v m) rows).1]> (contents g).
Proof.
  intros H Hr Hx Hs Hcan Hl. pose proof (deref_table _ _ _ _ _ _ H Hr) as (t&_&_&_&Hlen).
  assert (Z.of_nat (length k) <= row_size (Some k, v, m)) as Hk.
  { unfold row_size. cbn. pose proof (data_size_nonneg v). pose proof (data_size_nonneg m). lia. }
  pose proof (row_size_nonneg (Some k, v, m)) as Hz. pose proof (inv_fits _ _ _ _ H) as (_&_&Hfit).
  destruct (table_find _ _ _ _ _ _ start k H Hr Hs) as (s1&E1&S1); [unfold BLOCK in Hl; lia|].
  pose proof (same_inv _ _ _ _ _ H S1) as H1. pose proof (same_can_log _ _ _ _ Hcan S1) as Hcan1.
  unfold Set_. mstep E1. cbn [spec_rows]. destruct (_ =? LDB_INVALID_RECNO) eqn:Ei; bool_to_prop.
  - apply (Append_spec s1 d c g n rows (Some k, v, m)); done.
  - pose proof (index_of_range start k (keys rows) Hs Ei) as Hrange. unfold keys in *. rewrite length_fmap in *. apply (SetByIndex_spec s1 d c g n rows _ (Some k, v, m)); try done. lia.
Qed.

Lemma DeleteKey_spec s d c g n rows start k :
  inv s d c g -> contents g !! n = Some rows -> 0 <= start -> table_can_log s n ->
  c + (BLOCK + Z.of_nat (length k)) + 4198400 < 2 ^ 32 ->
  exists s' d' g', Delete (Table n) start k s = (Ok (spec_rows (DeleteKey n start k) rows).2, s') /\
    inv s' d' (c + (BLOCK + Z.of_nat (length k))) g' /\ g_file g' = g_file g /\
    contents g' = <[n := (spec_rows (DeleteKey n start k) rows).1]> (contents g).
Proof.
  intros H Hr Hs Hcan Hl. pose proof (deref_table _ _ _ _ _ _ H Hr) as (t&_&_&_&Hlen).
  pose proof (inv_fits _ _ _ _ H) as (_&_&Hfit).
  destruct (table_find _ _ _ _ _ _ start k H Hr Hs) as (s1&E1&S1); [unfold BLOCK in Hl; lia|].
  pose proof (same_inv _ _ _ _ _ H S1) as H1. pose proof (same_can_log _ _ _ _ Hcan S1) as Hcan1.
  unfold Delete. mstep E1. cbn [spec_rows]. destruct (_ =? LDB_INVALID_RECNO) eqn:Ei; bool_to_prop.
  - exists s1, d, g. cbn [fst snd]. rewrite (contents_same _ _ _ _ _ _ H Hr), Ei. split_and!; try done.
    eapply inv_more; [done|unfold BLOCK; lia|done].
  - pose proof (index_of_range start k (keys rows) Hs Ei) as Hrange. unfold keys in *. rewrite length_fmap in *.
    destruct (DeleteByIndex_spec s1 d c g n rows (index_of start k ((fun x => x.1.1) <$> rows))) as (s'&d'&g'&E'&H'&Eg&Ec); try done;
      [lia|lia|].
    exists s', d', g'. split_and!; try done. eapply inv_more; [done|lia|lia].
Qed.

(** A request on a table, from what it does to a table that is there. *)
Lemma table_request s d c g n k r :
  inv s d c g -> 0 <= cost r -> c + cost r + 4198400 < 2 ^ 32 ->
  spec r (contents g) = match contents g !! n with
    | Some rows => let '(rows, z) := spec_rows r rows in (<[n := rows]> (contents g), z)
    | None => (contents g, LDB_INVALID_RECNO) end ->
  (forall rows, contents g !! n = Some rows -> exists s' d' g', k (Table n) s = (Ok (spec_rows r rows).2, s') /\
    inv s' d' (c + cost r) g' /\ g_file g' = g_file g /\ contents g' = <[n := (spec_rows r rows).1]> (contents g)) ->
  done_by s c g r (on_table n k s).
Proof.
  intros H Hc Hl Hs Hk. destruct (contents g !! n) as [rows|] eqn:Hr; [|by eapply on_table_missing].
  destruct (Hk rows eq_refl) as (s'&d'&g'&E'&H'&Eg&Ec). destruct (spec_rows r rows) as [rows' z] eqn:Er.
  exists s', d', g'. rewrite Hs, (on_table_found _ _ _ _ _ _ _ H Hr). done.
Qed.

Lemma create_request s d c g n :
  inv s d c g -> n <> [] -> can_log s (_metatable s) -> c + cost (CreateTable_ n) + 4198400 < 2 ^ 32 ->
  done_by s c g (CreateTable_ n) (exec (g_file g) (CreateTable_ n) s).
Proof.
  intros H Hne Hcan Hl. pose proof (inv_disk _ _ _ _ H) as Hd. unfold done_by. cbn [exec spec cost fst snd] in *.
  pose proof (proj2 (proj2 (inv_fits _ _ _ _ H))). pose proof (core_cost _ _ _ (inv_core _ _ _ _ H)).
  pose proof (core_next _ _ _ (inv_core _ _ _ _ H)). unfold sizeof_FILE_HEADER in *.
  destruct (contents g !! n) as [rows|] eqn:Hr.
  - destruct (contents_split _ _ _ _ _ Hd Hr) as (l1&e&l2&E&<-&_).
    destruct (CreateTable_old s d c g l1 e l2 H E) as (s'&E'&H'); [unfold BLOCK in Hl; lia|].
    mstep E'. exists s', d, g. split_and!; try done. eapply inv_more; [done|unfold BLOCK; lia|lia].
  - destruct (CreateTable_new s d c g n) as (s'&d'&bs&e&E'&H'&En&Er&_); try done.
    + by eapply contents_None.
    + eapply can_log_linkable; [done|done|]. by rewrite (inv_metatable _ _ _ _ H).
    + lia.
    + mstep E'. eexists s', d', _. rewrite Z.add_assoc. split_and!; try done.
      unfold contents. cbn [g_tabs]. rewrite (named_split _ (g_tabs g) e []); [cbn; by rewrite En, Er, app_nil_r|].
      pose proof (disk_names _ _ _ (inv_disk _ _ _ _ H')) as Hnd. cbn [g_tabs] in Hnd. by rewrite <- list_fmap_compose.
Qed.

Lemma delete_request s d c g n :
  inv s d c g -> can_log s (_metatable s) -> c + cost (DeleteTable_ n) + 4198400 < 2 ^ 32 ->
  done_by s c g (DeleteTable_ n) (exec (g_file g) (DeleteTable_ n) s).
Proof.
  intros H Hcan Hl. pose proof (inv_disk _ _ _ _ H) as Hd.
  pose proof (core_cost _ _ _ (inv_core _ _ _ _ H)). pose proof (core_next _ _ _ (inv_core _ _ _ _ H)).
  unfold sizeof_FILE_HEADER in *. cbn [exec]. destruct (contents g !! n) as [rows|] eqn:Hr.
  - rewrite (on_table_found _ _ _ _ _ _ _ H Hr). unfold done_by. cbn [spec cost fst snd] in *. rewrite Hr.
    destruct (contents_split _ _ _ _ _ Hd Hr) as (l1&e&l2&E&<-&_). unfold BLOCK in Hl.
    destruct (DeleteTable_spec s d c g l1 e l2 H E) as (s'&d'&bs&E'&H').
    + lia.
    + eapply can_log_linkable; [done|done|]. by rewrite (inv_metatable _ _ _ _ H).
    + unfold BLOCK. lia.
    + mstep E'. eexists s', d', _. split; [done|]. split; [eapply inv_more; [exact H'|lia|unfold BLOCK; lia]|]. split; [|done].
      pose proof (disk_names _ _ _ Hd) as Hnd. unfold contents. cbn [g_tabs]. rewrite E in *.
      rewrite (named_split _ l1 e l2) by (by rewrite <- list_fmap_compose). cbn [fst]. rewrite delete_insert_id; [done|].
      apply not_elem_of_list_to_map_1. rewrite <- list_fmap_compose.
      rewrite fmap_app, fmap_cons in Hnd. apply NoDup_app in Hnd as (_&N2&[N3 _]%NoDup_cons).
      change (e_name e ∉ (e_name <$> l1 ++ l2)). rewrite fmap_app. intros [Hin|Hin]%elem_of_app; [|done]. apply (N2 _ Hin). left.
  - eapply on_table_missing; try done; [unfold cost, BLOCK; lia|]. cbn. by rewrite Hr, delete_id.
Qed.

(** Every request does what it says. *)
Lemma request_spec s d c g r :
  inv s d c g -> allowed s r -> c + cost r + 4198400 < 2 ^ 32 -> done_by s c g r (exec (g_file g) r s).
Proof.
  intros H Ha Hl. assert (0 <= cost r) as Hc by (destruct r; unfold cost, BLOCK; try pose proof (row_size_nonneg x);
    try pose proof (row_size_nonneg (Some k, v, m)); lia).
  destruct r as [n|n|n x|n i x|n i x|n start k v m|n i|n start k|n| |junk garbage]; cbn [allowed] in Ha;
    try (apply (table_request s d); [done..|intros rows Hr; cbn [cost] in *; rewrite ?Z.add_assoc in *]).
  - destruct Ha. by apply (create_request s d).
  - by apply (delete_request s d).
  - destruct Ha as (?&?&?). by apply (Append_spec s d).
  - destruct Ha as (?&?&?&?&Hne). apply (InsertByIndex_spec s d); try done.
    destruct (deref_table _ _ _ _ _ _ H Hr) as (t&_&Ef&Hf&_). intros ->. apply (Hne t Ef). by inversion Hf.
  - destruct Ha as (?&?&?). by apply (SetByIndex_spec s d).
  - destruct Ha as (?&?&?). by apply (SetKey_spec s d).
  - destruct Ha as (?&?). by apply (DeleteByIndex_spec s d).
  - destruct Ha as (?&?). rewrite <- (Z.add_assoc c) in *. by apply (DeleteKey_spec s d).
  - destruct (Clear_spec s d c g n rows) as (s'&d'&g'&E'&H'&Eg&Ec); try done.
    exists s', d', g'. split_and!; try done. by mstep E'.
  - destruct (reopen_spec s d c g H) as (s'&E'&H'). cbn [exec]. mstep E'. exists s', d, g. cbn [cost]. by rewrite Z.add_0_r.
  - destruct (restart_spec s d c g junk garbage H) as (s'&E'&H'). cbn [exec]. mstep E'. exists s', d, g. cbn [cost]. by rewrite Z.add_0_r.
Qed.

(** ** Runs *)

(** A database that was created in a new file [f] and has served some requests; the
    map [D] is what they make of no tables, and [c] bounds the bytes they took. *)
Inductive runs (f : bytes) : Ldb -> db -> Z -> Prop :=
| runs_create disk junk garbage s :
    disk !! f = None -> Create f (make disk junk garbage) = (Ok true, s) -> runs f s ∅ 4112
| runs_request s D c r z s' :
    runs f s D c -> allowed s r -> c + cost r + 4198400 < 2 ^ 32 -> exec f r s = (Ok z, s') ->
    runs f s' (spec r D).1 (c + cost r).

Lemma runs_inv f s D c : runs f s D c -> exists d g, inv s d c g /\ contents g = D /\ g_file g = f.
Proof.
  induction 1 as [disk junk garbage s Hf E|s D c r z s' _ (d&g&H&<-&<-) Ha Hl E].
  - destruct (Create_new disk f junk garbage Hf) as (s0&d&E0&H). rewrite E0 in E. injection E as <-. by exists d, (empty_ghost f).
  - destruct (request_spec s d c g r H Ha Hl) as (s1&d1&g1&E1&H1&Ec&Eg). rewrite E1 in E. injection E as _ <-.
    by exists d1, g1.
Qed.

Lemma runs_step f s D c r :
  runs f s D c -> allowed s r -> c + cost r + 4198400 < 2 ^ 32 ->
  exists s', exec f r s = (Ok (spec r D).2, s') /\ runs f s' (spec r D).1 (c + cost r).
Proof.
  intros H Ha Hl. destruct (runs_inv _ _ _ _ H) as (d&g&Hi&<-&<-).
  destruct (request_spec s d c g r Hi Ha Hl) as (s1&d1&g1&E1&_). exists s1. split; [done|]. by eapply runs_request.
Qed.

(** A table that has just been created has room in its block. *)
Lemma create_can_log s d c g n s' :
  inv s d c g -> contents g !! n = None -> n <> [] -> can_log s (_metatable s) -> c + cost (CreateTable_ n) + 4198400 < 2 ^ 32 ->
  exec (g_file g) (CreateTable_ n) s = (Ok 0, s') -> table_can_log s' n.
Proof.
  intros H Hr Hne Hcan Hl E. cbn [cost] in Hl.
  destruct (CreateTable_new s d c g n) as (s1&d1&bs&e&E1&H1&En&_&o&Eb); try done.
  - by eapply contents_None.
  - eapply can_log_linkable; [done|done|]. by rewrite (inv_metatable _ _ _ _ H).
  - lia.
  - cbn [exec] in E. rewrite (bind_ok _ _ _ _ _ E1) in E. injection E as <-. intros t Ht.
    rewrite <- En in Ht. rewrite (table_entry_find _ _ _ _ (g_tabs g) e [] H1 eq_refl) in Ht. injection Ht as <-.
    unfold can_log, table_info, last_info. cbn [lastBlockHeaderInfo]. rewrite Eb. cbn. done.
Qed.

(** ** Properties *)

(** C19. The log database is its tables.  From a new file, after any requests, a
    request that is allowed returns what it returns on a map from names to lists
    of rows, and leaves a database that stands for the changed map: creating
    and deleting tables, appending, inserting, setting and deleting rows by
    index or by key, clearing, closing and opening the file, and starting again
    with nothing but the file. *)
Theorem logdb_refines f s D c r :
  runs f s D c -> allowed s r -> c + cost r + 4198400 < 2 ^ 32 ->
  exists s', exec f r s = (Ok (spec r D).2, s') /\ runs f s' (spec r D).1 (c + cost r).
Proof. apply runs_step. Qed.

(** C20. Rows are read back.  In every such database, [GetByIndex] gives the key, value
    and metadata of the row at that index of the map's list and refuses an index
    behind it, [FindKey] gives the first row with the key, whatever hashes
    collide, and the tables are those of the map. *)
Theorem logdb_reads f s D c n :
  runs f s D c ->
  match D !! n with
  | None => OpenTable n s = (Ok None, s)
  | Some rows =>
      OpenTable n s = (Ok (Some (Table n)), s) /\
      (forall i, 0 <= i < 2 ^ 32 - 1 -> exists s', GetByIndex (Table n) i (Some []) (Some []) (Some []) s =
        (Ok (match rows !! Z.to_nat i with
             | Some x => (i, (Some (default [] x.1.1), Some (default [] x.1.2), Some (default [] x.2)))
             | None => (LDB_INVALID_RECNO, (Some [], Some [], Some []))
             end), s')) /\
      (forall start k, 0 <= start -> Z.of_nat (length k) < 2 ^ 32 -> exists s',
        FindKey (Table n) start k s = (Ok (index_of start k (keys rows)), s'))
  end.
Proof.
  intros H. destruct (runs_inv _ _ _ _ H) as (d&g&Hi&<-&<-). destruct (contents g !! n) as [rows|] eqn:Hr.
  - destruct (deref_table _ _ _ _ _ _ Hi Hr) as (t&Et&Ef&Hf&Hlen). split_and!.
    + unfold OpenTable. by rewrite bind_get, Ef.
    + intros i Hri. destruct (rows !! Z.to_nat i) as [x|] eqn:Ex.
      * destruct (Forall2_lookup_r _ _ _ _ _ Hf Ex) as (r&Er&R1&R2&R3).
        destruct (get_spec s d (Table n) t i r (Some []) (Some []) (Some []) x.1.1 x.1.2 x.2) as (s'&E'&_);
          [apply (inv_core _ _ _ _ Hi)|done|done|done|by left..|]. by exists s'.
      * exists s. apply lookup_ge_None in Ex. unfold GetByIndex. mstep Et. rewrite (Forall2_length _ _ _ Hf), u32_small by lia.
        by ztest.
    + intros start k Hs Hk. destruct (table_find _ _ _ _ _ _ start k Hi Hr Hs Hk) as (s'&E'&_). by exists s'.
  - unfold OpenTable. by rewrite bind_get, (proj1 (contents_None _ _ _ _ _ Hi) Hr).
Qed.

(** The first row of a table must not be inserted.  [InsertByIndex] at index 0 of a
    table without rows adds one row in memory, but when the table is loaded
    again it has that row twice. *)
Theorem first_insert_loaded_twice f s D c n x :
  runs f s D c -> D !! n = Some [] -> row_given x -> nonempty x -> table_can_log s n ->
  c + BLOCK + row_size x + 4198400 < 2 ^ 32 ->
  exists s1 t r s2 t', InsertByIndex (Table n) 0 x.1.1 x.1.2 x.2 s = (Ok 0, s1) /\
    deref (Table n) s1 = (Ok t, s1) /\ length (records t) = 1%nat /\
    r ∈ records (_metatable s1) /\ load_table r s1 = (Ok tt, s2) /\ deref (Table n) s2 = (Ok t', s2) /\
    length (records t') = 2%nat.
Proof.
  intros H Hr Hx Hne Hcan Hl. destruct (runs_inv _ _ _ _ H) as (d&g&Hi&<-&<-). pose proof (inv_disk _ _ _ _ Hi) as Hd.
  destruct (contents_split _ _ _ _ _ Hd Hr) as (l1&e&l2&E&En&Er). apply fmap_nil_inv in Er.
  pose proof (table_entry_find _ _ _ _ _ _ _ Hi E) as Ef. destruct Hd as [Ho _ _ He _].
  rewrite E, Forall_app, Forall_cons in He. destruct He as (_&(K1&K2&K3&_&K4&_)&_).
  rewrite (layout_split _ _ _ _ E), Er in Ho. cbn [rows_pieces mbind list_bind app] in Ho. set (F := chain 0 (g_meta g) ++ _) in Ho.
  destruct (append_enters s d c (table_info e) (blocks_of (e_table e)) F OPERATION_INSERT 0 x x) as
    (s1&d1&bs&id&nd&E1&C1&S1&N1&O1&L1&L2&L3&L4&L5&X1); try done.
  { apply Hi. } { split; [done|]. right. right. left. split; [done|by left]. }
  { right. split; [done|]. intros new Hnew. rewrite logged_other by done. split; [done|]. by apply submseteq_inserts_r. }
  { eapply can_log_linkable; [done|apply Hcan; by rewrite <- En|done]. } { by rewrite (inv_budget _ _ _ _ Hi). }
  cbn [records table_info] in *. rewrite Er in *. cbn [fmap list_fmap] in *. rewrite logged_other in * by done.
  set (new := fresh OPERATION_INSERT 0 id nd x) in *. set (t := mkTable _ _ _) in E1.
  pose proof S1 as (_&_&_&_&S1e&S1f).
  set (s2 := set_tables (assign_at n t (_tables s1)) s1).
  destruct (load_table_replay d1 (_nextDataOffset s1) s2 (e_record e) (e_name e) bs
    (row_pieces new x ++ chain 0 (g_meta g) ++ (l1 ≫= entry_pieces) ++ (l2 ≫= entry_pieces))) as (s3&E3&M3&_); try done.
  { apply C1. } { refine (proj1 (owns_perm _ _ _ _ _) O1). unfold F. solve_Permutation. } { by rewrite X1. }
  { apply (core_next _ _ _ C1). }
  { pose proof (core_cost _ _ _ C1). pose proof (core_limit _ _ _ C1). pose proof (core_grow _ _ _ C1). unfold slack in *. lia. }
  eexists s2, t, (e_record e), _, _. split_and!; [| | | |exact E3| |].
  - unfold InsertByIndex. rewrite (bind_ok _ _ s (table_info e) s) by (unfold deref; rewrite bind_get, <- En, Ef; done).
    cbn [Z.eqb negb andb]. unfold append_log_record.
    erewrite (bind_ok _ _ s true s2); [done|].
    rewrite (bind_ok _ _ s (table_info e) s) by (unfold deref; rewrite bind_get, <- En, Ef; done). mstep E1. done.
  - unfold deref. rewrite bind_get. cbn [s2 _tables set_tables]. rewrite find_assign, decide_True by done. done.
  - done.
  - cbn [s2 _metatable set_tables]. rewrite S1e, (inv_metatable _ _ _ _ Hi), E. cbn [records]. rewrite fmap_app, fmap_cons. set_solver.
  - unfold deref. rewrite bind_get. cbn [_tables set_tables]. rewrite find_assign, decide_True by done. done.
  - cbn [records]. rewrite L5, log_replay_app, (log_replay _ _ _ K4). done.
Qed.

(** ** Witnesses *)

(** The metatable of a new database has room. *)
Lemma fresh_can_log disk f junk garbage s :
  disk !! f = None -> Create f (make disk junk garbage) = (Ok true, s) -> can_log s (_metatable s).
Proof.
  intros Hf E. destruct (Create_new disk f junk garbage Hf) as (s0&d&E0&H). rewrite E0 in E. injection E as <-.
  rewrite (inv_metatable _ _ _ _ H). unfold can_log. cbn. done.
Qed.

(** A database with one table, with room in it. *)
Lemma one_table f n :
  n <> [] -> Z.of_nat (length n) < 4096 ->
  exists s0 s, runs f s0 ∅ 4112 /\ allowed s0 (CreateTable_ n) /\ exec f (CreateTable_ n) s0 = (Ok 0, s) /\
    runs f s {[ n := [] ]} (4112 + cost (CreateTable_ n)) /\ table_can_log s n.
Proof.
  intros Hn Hl. destruct (Create_new ∅ f (fun _ _ => x00) 0 (lookup_empty f)) as (s0&d&E0&H0).
  assert (runs f s0 ∅ 4112) as R0 by (by eapply runs_create; [apply lookup_empty|exact E0]).
  pose proof (fresh_can_log _ _ _ _ _ (lookup_empty f) E0) as Hcan.
  destruct (runs_step f s0 ∅ 4112 (CreateTable_ n) R0) as (s&E&R); [done|unfold cost, BLOCK; lia|].
  exists s0, s. split_and!; try done.
  change f with (g_file (empty_ghost f)) in E. eapply create_can_log; try done. unfold cost, BLOCK. lia.
Qed.

Lemma logdb_refines_witness :
  let n := lit "list" in let x : row := (None, Some (lit "value"), None) in
  exists s, runs (lit "tio.logdb") s {[ n := [] ]} 12308 /\
    exists s', exec (lit "tio.logdb") (Append_ n x) s = (Ok 0, s') /\ runs (lit "tio.logdb") s' {[ n := [x] ]} 16409.
Proof.
  intros n x. destruct (one_table (lit "tio.logdb") n) as (s0&s&_&_&_&R&Hcan); [done|cbn; lia|].
  exists s. split; [exact R|].
  destruct (logdb_refines (lit "tio.logdb") s {[ n := [] ]} 12308 (Append_ n x)) as (s'&E'&R').
  - exact R.
  - split_and!; done.
  - vm_compute. reflexivity.
  - exists s'. split; [exact E'|]. exact R'.
Defined.

Lemma logdb_reads_witness :
  let n := lit "list" in let x : row := (Some (lit "key"), Some (lit "value"), None) in
  exists s s', runs (lit "tio.logdb") s {[ n := [x] ]} 16412 /\
    GetByIndex (Table n) 0 (Some []) (Some []) (Some []) s = (Ok (0, (Some (lit "key"), Some (lit "value"), Some [])), s').
Proof.
  intros n x. destruct (one_table (lit "tio.logdb") n) as (s0&s&_&_&_&R&Hcan); [done|cbn; lia|].
  destruct (runs_step (lit "tio.logdb") s {[ n := [] ]} 12308 (Append_ n x) R) as (s1&_&R1); [split_and!; done|vm_compute; reflexivity|].
  destruct (logdb_reads (lit "tio.logdb") s1 {[ n := [x] ]} 16412 n R1) as (_&H&_).
  destruct (H 0 ltac:(lia)) as (s2&E2). exists s1, s2. split; [exact R1|exact E2].
Defined.

Lemma first_insert_loaded_twice_witness :
  let n := lit "list" in
  exists s s1 t r s2 t', runs (lit "tio.logdb") s {[ n := [] ]} 12308 /\
    InsertByIndex (Table n) 0 None (Some (lit "value")) None s = (Ok 0, s1) /\
    deref (Table n) s1 = (Ok t, s1) /\ length (records t) = 1%nat /\
    r ∈ records (_metatable s1) /\ load_table r s1 = (Ok tt, s2) /\ deref (Table n) s2 = (Ok t', s2) /\
    length (records t') = 2%nat.
Proof.
  intros n. destruct (one_table (lit "tio.logdb") n) as (s0&s&_&_&_&R&Hcan); [done|cbn; lia|]. exists s.
  destruct (first_insert_loaded_twice (lit "tio.logdb") s {[ n := [] ]} 12308 n (None, Some (lit "value"), None))
    as (s1&t&r&s2&t'&H); [exact R|reflexivity|done|done|done|vm_compute; reflexivity|].
  exists s1, t, r, s2, t'. split; [exact R|exact H].
Defined.

End LogSpec.
