(* ===== verification/TransactionLog.v ===== *)
(** * The transaction log: [server/tio/BinaryProtocolLogger.h]

    After a command of the binary protocol has changed a container the server
    writes a line to a log file.  [LogMessage] makes the line; [RawLog] puts it
    into a ring of strings, and a thread of its own, [WriteRawLogThread], takes
    it from there to the file.  This is the variant the Linux build has
    ([ASYNCHRONOUS_WRITE_CIRCULAR_QUEUE], [ASYNCHRONOUS_DATETIME]).

    [RawLog] holds [logQueueLock_], and the writing thread takes no lock, so the
    two interleave: a [system] is the logger and where the two threads are, and
    [step] one access of either.  Accesses take effect one after another, as
    on a machine without reordering; the members are plain [int]s.  The time of
    day is what [UpdateTimeThread] wrote last, [None] before it did. *)
From S2P Require Import Prelude Decimal StdMap StreamBuffer Pr1Message Protocol TioDataS Containers SessionMessages LogFile.

Module TransactionLog.
Import Decimal StdMap Pr1 Protocol TioData Containers SessionMessages LogFile.

(** ** State *)

Definition RAW_LOG_QUEUE_SIZE : Z := 250000.

Record BinaryProtocolLogger := mkLogger {
  globalContainerHandle_ : list (bytes * Z);
  lastGlobalHandle_ : Z;
  f_ : File;
  timeString_ : option bytes;
  rawLogQueue : list bytes;
  logQueueHead_ : Z;
  logQueueTail_ : Z
}.

Definition make (disk : gmap bytes bytes) : BinaryProtocolLogger :=
  mkLogger [] 0 (mkFile None false 0 disk) None (replicate (Z.to_nat RAW_LOG_QUEUE_SIZE) []) 0 0.

Definition set_handles h l s :=
  mkLogger h l (f_ s) (timeString_ s) (rawLogQueue s) (logQueueHead_ s) (logQueueTail_ s).
Definition set_log_file f s :=
  mkLogger (globalContainerHandle_ s) (lastGlobalHandle_ s) f (timeString_ s) (rawLogQueue s) (logQueueHead_ s) (logQueueTail_ s).
Definition set_time t s :=
  mkLogger (globalContainerHandle_ s) (lastGlobalHandle_ s) (f_ s) t (rawLogQueue s) (logQueueHead_ s) (logQueueTail_ s).
Definition set_queue q s :=
  mkLogger (globalContainerHandle_ s) (lastGlobalHandle_ s) (f_ s) (timeString_ s) q (logQueueHead_ s) (logQueueTail_ s).
Definition set_head h s :=
  mkLogger (globalContainerHandle_ s) (lastGlobalHandle_ s) (f_ s) (timeString_ s) (rawLogQueue s) h (logQueueTail_ s).
Definition set_tail t s :=
  mkLogger (globalContainerHandle_ s) (lastGlobalHandle_ s) (f_ s) (timeString_ s) (rawLogQueue s) (logQueueHead_ s) t.

Definition on_log_file {A} (m : M File A) : M BinaryProtocolLogger A := fun s =>
  let '(r, f) := m (f_ s) in (r, set_log_file f s).

Definition Start (logFilePath : bytes) : M BinaryProtocolLogger unit :=
  _ ← on_log_file (file_Create logFilePath);
  size ← on_log_file file_GetFileSize;
  on_log_file (file_SetPointer size).

(** [snprintf] into [timeString_], of 64 bytes. *)
Definition UpdateTime (now : bytes) (s : BinaryProtocolLogger) : BinaryProtocolLogger := set_time (Some (take 63 now)) s.

(** ** The ring *)

(** The operands are converted to [size_t]. *)
Definition IsLogQueueFull (s : BinaryProtocolLogger) : bool :=
  u64 (u64 (RAW_LOG_QUEUE_SIZE - logQueueTail_ s) + logQueueHead_ s) mod RAW_LOG_QUEUE_SIZE =? RAW_LOG_QUEUE_SIZE - 1.

(** [i++; if(i >= rawLogQueue.max_size()) i = 0;] *)
Definition next_index (i : Z) : Z := if RAW_LOG_QUEUE_SIZE <=? i + 1 then 0 else i + 1.

(** [rawLogQueue[logQueueHead_] = what]; [None] when the index is not one of the array. *)
Definition store_line (what : bytes) (s : BinaryProtocolLogger) : option BinaryProtocolLogger :=
  if logQueueHead_ s <? RAW_LOG_QUEUE_SIZE
  then Some (set_queue (<[Z.to_nat (logQueueHead_ s) := what]> (rawLogQueue s)) s) else None.

(** [f_.Write(rawLogQueue[logQueueTail_].c_str(), rawLogQueue[logQueueTail_].size())] *)
Definition write_line (s : BinaryProtocolLogger) : option BinaryProtocolLogger :=
  what ← rawLogQueue s !! Z.to_nat (logQueueTail_ s);
  Some (on_log_file (file_Write what) s).2.

Definition clear_line (s : BinaryProtocolLogger) : option BinaryProtocolLogger :=
  _ ← rawLogQueue s !! Z.to_nat (logQueueTail_ s);
  Some (set_queue (<[Z.to_nat (logQueueTail_ s) := []]> (rawLogQueue s)) s).

(** ** Threads *)

(** Where [RawLog] is: not running, or waiting for room with its line stored. *)
Inductive producer := Free | Waiting.

(** Where [WriteRawLogThread] is: at the top of its loop, after the write, after
    the clear. *)
Inductive writer := Idle | Written | Cleared.

Record system := mkSystem { logger : BinaryProtocolLogger; raw_log : producer; write_thread : writer }.

(** A call of [RawLog] begins; it goes on; the writing thread goes on. *)
Inductive action := Log (what : bytes) | Resume | Write_.

(** [None] when the thread cannot do it: the lock is taken, or nobody is in
    [RawLog], or an index is out of range. *)
Definition step (a : action) (s : system) : option system :=
  match a with
  | Log what =>
      match raw_log s with
      | Waiting => None
      | Free => l ← store_line what (logger s); Some (mkSystem l Waiting (write_thread s))
      end
  | Resume =>
      match raw_log s with
      | Free => None
      | Waiting =>
          if IsLogQueueFull (logger s) then Some s
          else Some (mkSystem (set_head (next_index (logQueueHead_ (logger s))) (logger s)) Free (write_thread s))
      end
  | Write_ =>
      match write_thread s with
      | Idle =>
          if logQueueTail_ (logger s) =? logQueueHead_ (logger s) then Some s
          else l ← write_line (logger s); Some (mkSystem l (raw_log s) Written)
      | Written => l ← clear_line (logger s); Some (mkSystem l (raw_log s) Cleared)
      | Cleared =>
          Some (mkSystem (set_tail (next_index (logQueueTail_ (logger s))) (logger s)) (raw_log s) Idle)
      end
  end.

Fixpoint run (acts : list action) (s : system) : option system :=
  match acts with [] => Some s | a :: acts => s ← step a s; run acts s end.

(** The lines of the calls of [RawLog]. *)
Definition logged (acts : list action) : list bytes :=
  acts ≫= fun a => match a with Log what => [what] | _ => [] end.

(** ** Lines *)

Section Lines.
(** [lexical_cast<string>(double)] *)
Variable print_double : bytes -> bytes.

Definition sized (type : string) (data : bytes) : bytes :=
  lit type ++ print_nat (Z.of_nat (length data)) ++ lit "," ++ data.

Definition SerializeTioData (data : TioData) : bytes :=
  match data with
  | None_ => lit ",n,"
  | String s => sized ",s" s
  | Int i => sized ",i" (print_int i)
  | Double d => sized ",d" (print_double d)
  end.

(** The commands of the switch with a line of their own name. *)
Definition command_name (command : Z) : option bytes :=
  if command =? TIO_COMMAND_PUSH_BACK then Some (lit ",push_back")
  else if command =? TIO_COMMAND_PUSH_FRONT then Some (lit ",push_front")
  else if command =? TIO_COMMAND_POP_BACK then Some (lit ",pop_back")
  else if command =? TIO_COMMAND_POP_FRONT then Some (lit ",pop_front")
  else if command =? TIO_COMMAND_SET then Some (lit ",set")
  else if command =? TIO_COMMAND_INSERT then Some (lit ",insert")
  else if command =? TIO_COMMAND_DELETE then Some (lit ",delete")
  else if command =? TIO_COMMAND_CLEAR then Some (lit ",clear")
  else if command =? TIO_COMMAND_PROPSET then Some (lit ",propset")
  else None.

Definition create_line (time : bytes) (handle : Z) (name type : bytes) : bytes :=
  time ++ lit ",create," ++ print_nat handle ++ sized ",s" name ++ sized ",s" type ++ [x0a].

Definition group_line (time : bytes) (handle : Z) (group container : bytes) : bytes :=
  time ++ lit ",group_add," ++ print_nat handle ++ sized ",s" group ++ sized ",s" container ++ [x0a].

(** The lines of all other commands. *)
Definition data_line (time name : bytes) (handle : Z) (key value metadata : TioData) : bytes :=
  time ++ name ++ lit "," ++ print_nat handle ++ SerializeTioData key ++ SerializeTioData value ++
    SerializeTioData metadata ++ [x0a].

Definition log_data (time name : bytes) (handle : Z) (message : PR1_MESSAGE) : res bytes :=
  '(_, (key, value, metadata)) ← Pr1MessageGetHandleKeyValueAndMetadata message (Some None_) (Some None_) (Some None_);
  Ok (data_line time name handle (default None_ key) (default None_ value) (default None_ metadata)).

(** The line [LogMessage] gives to [RawLog], if it does, for a message about the container
    with this name and type. *)
Definition LogMessage (name type : bytes) (message : PR1_MESSAGE) : M BinaryProtocolLogger (option bytes) :=
  s ← get;
  if negb (file_IsValid (f_ s)) then mret None else
  command ← lift (Pr1MessageGetField_int message MESSAGE_FIELD_ID_COMMAND);
  match command with
  | None => mret None
  | Some command =>
      let opens := (command =? TIO_COMMAND_CREATE) || (command =? TIO_COMMAND_OPEN) in
      let globalHandle := default 0 (find name (globalContainerHandle_ s)) in
      let handleAlreadyOpen := negb (globalHandle =? 0) in
      let new := (globalHandle =? 0) && opens in
      let last := if new then i32 (lastGlobalHandle_ s + 1) else lastGlobalHandle_ s in
      let currentHandle := if new then u32 last else globalHandle in
      _ ← modify (set_handles (assign_at name currentHandle (globalContainerHandle_ s)) last);
      time ← lift (match timeString_ s with Some t => Ok t | None => Throw (Fault Uninitialised) end);
      if opens then
        mret (if handleAlreadyOpen then None else Some (create_line time currentHandle name type))
      else if command =? TIO_COMMAND_GROUP_ADD then
        groupName ← lift (Pr1MessageGetField_string message MESSAGE_FIELD_ID_GROUP_NAME);
        containerName ← lift (match groupName with
          | None => Ok None
          | Some _ => Pr1MessageGetField_string message MESSAGE_FIELD_ID_CONTAINER_NAME
          end);
        match groupName, containerName with
        | Some group, Some container => mret (Some (group_line time currentHandle group container))
        | _, _ => line ← lift (log_data time [] currentHandle message); mret (Some line)
        end
      else
        match command_name command with
        | None => mret None
        | Some text => line ← lift (log_data time text currentHandle message); mret (Some line)
        end
  end.

End Lines.

(** ** The ring as a queue *)

Lemma queue_size : 1 < RAW_LOG_QUEUE_SIZE < 2 ^ 31.
Proof. done. Qed.

#[local] Opaque RAW_LOG_QUEUE_SIZE.

(** The slot of the [i]-th line from [tail]. *)
Definition slot (tail : Z) (i : nat) : nat := Z.to_nat ((tail + Z.of_nat i) mod RAW_LOG_QUEUE_SIZE).

Lemma next_index_mod i : 0 <= i < RAW_LOG_QUEUE_SIZE -> next_index i = (i + 1) mod RAW_LOG_QUEUE_SIZE.
Proof.
  intros H. unfold next_index. pose proof queue_size. case_match; bool_to_prop.
  - replace (i + 1) with RAW_LOG_QUEUE_SIZE by lia. by rewrite Z_mod_same_full.
  - by rewrite Z.mod_small by lia.
Qed.

(** Slots of different lines of a queue with less than the size of the ring are different. *)
Lemma slot_inj t i j :
  Z.of_nat i < RAW_LOG_QUEUE_SIZE -> Z.of_nat j < RAW_LOG_QUEUE_SIZE -> slot t i = slot t j -> i = j.
Proof.
  unfold slot. intros Hi Hj H. pose proof queue_size as Hn.
  pose proof (Z.mod_pos_bound (t + Z.of_nat i) RAW_LOG_QUEUE_SIZE ltac:(lia)) as H1.
  pose proof (Z.mod_pos_bound (t + Z.of_nat j) RAW_LOG_QUEUE_SIZE ltac:(lia)) as H2.
  pose proof (Z.div_mod (t + Z.of_nat i) RAW_LOG_QUEUE_SIZE ltac:(lia)) as E1.
  pose proof (Z.div_mod (t + Z.of_nat j) RAW_LOG_QUEUE_SIZE ltac:(lia)) as E2.
  assert ((t + Z.of_nat i) mod RAW_LOG_QUEUE_SIZE = (t + Z.of_nat j) mod RAW_LOG_QUEUE_SIZE) as Em by lia.
  rewrite Em in E1. set (a := (t + Z.of_nat i) / RAW_LOG_QUEUE_SIZE) in *.
  set (b := (t + Z.of_nat j) / RAW_LOG_QUEUE_SIZE) in *. assert (a = b) by nia. nia.
Qed.

Lemma slot_next t i : slot ((t + 1) mod RAW_LOG_QUEUE_SIZE) i = slot t (S i).
Proof.
  unfold slot. pose proof queue_size. rewrite Zplus_mod_idemp_l. f_equal. f_equal. lia.
Qed.

Lemma slot_bound t i : (slot t i < Z.to_nat RAW_LOG_QUEUE_SIZE)%nat.
Proof.
  unfold slot. pose proof queue_size.
  pose proof (Z.mod_pos_bound (t + Z.of_nat i) RAW_LOG_QUEUE_SIZE ltac:(lia)). lia.
Qed.

(** Lines [done] are in the file [f], [queue] are in the ring (the first of them also
    in the file while the thread is at it), and [pending] is the line of the call
    that waits. *)
Record ring (f d0 : bytes) (done queue : list bytes) (pending : option bytes) (s : system) : Prop := {
  ring_tail : 0 <= logQueueTail_ (logger s) < RAW_LOG_QUEUE_SIZE;
  ring_array : length (rawLogQueue (logger s)) = Z.to_nat RAW_LOG_QUEUE_SIZE;
  ring_room : Z.of_nat (length queue) < RAW_LOG_QUEUE_SIZE;
  ring_head : Z.to_nat (logQueueHead_ (logger s)) = slot (logQueueTail_ (logger s)) (length queue) /\
    0 <= logQueueHead_ (logger s) < RAW_LOG_QUEUE_SIZE;
  ring_lines : forall i b, queue !! i = Some b -> ~ (write_thread s = Cleared /\ i = 0%nat) ->
    rawLogQueue (logger s) !! slot (logQueueTail_ (logger s)) i = Some b;
  ring_busy : write_thread s <> Idle -> queue <> [];
  ring_pending : match pending with
    | None => raw_log s = Free
    | Some w => raw_log s = Waiting /\ rawLogQueue (logger s) !! Z.to_nat (logQueueHead_ (logger s)) = Some w
    end;
  ring_file : exists fs, f_ (logger s) = mkFile (Some f) true (Z.of_nat (length (d0 ++ concat done))) fs /\
    fs !! f = Some (d0 ++ concat done)
}.

(** The lines that are not in the file yet. *)
Definition waiting (queue : list bytes) (pending : option bytes) (s : system) : list bytes :=
  (match write_thread s with Idle => queue | _ => tail queue end) ++ option_list pending.

(** The ring is full when one slot is left. *)
Lemma full_spec f d0 done queue pending s :
  ring f d0 done queue pending s ->
  IsLogQueueFull (logger s) = (Z.of_nat (length queue) =? RAW_LOG_QUEUE_SIZE - 1).
Proof.
  intros [Ht _ Hr [Hh1 Hh2] _ _ _ _]. pose proof queue_size as Hn. unfold IsLogQueueFull.
  set (h := logQueueHead_ (logger s)) in *. set (t := logQueueTail_ (logger s)) in *.
  rewrite (u64_small (RAW_LOG_QUEUE_SIZE - t)) by lia. rewrite u64_small by lia. f_equal.
  assert (h = (t + Z.of_nat (length queue)) mod RAW_LOG_QUEUE_SIZE) as ->.
  { pose proof (Z.mod_pos_bound (t + Z.of_nat (length queue)) RAW_LOG_QUEUE_SIZE ltac:(lia)). unfold slot in Hh1. lia. }
  rewrite Zplus_mod_idemp_r. replace (_ - t + (t + _)) with (Z.of_nat (length queue) + 1 * RAW_LOG_QUEUE_SIZE) by lia.
  rewrite Z_mod_plus_full. apply Z.mod_small. lia.
Qed.

(** The ring is empty when head and tail meet. *)
Lemma empty_spec f d0 done queue pending s :
  ring f d0 done queue pending s ->
  (logQueueTail_ (logger s) =? logQueueHead_ (logger s)) = true <-> queue = [].
Proof.
  intros [Ht _ Hr [Hh1 Hh2] _ _ _ _]. rewrite Z.eqb_eq. split.
  - intros E. destruct queue as [|b queue]; [done|]. exfalso.
    enough (length (b :: queue) = 0%nat) by done. apply (slot_inj (logQueueTail_ (logger s))); [done|lia|].
    rewrite <- Hh1. unfold slot. rewrite Z.add_0_r, Z.mod_small by lia. by rewrite E.
  - intros ->. unfold slot in Hh1. cbn [length Z.of_nat] in Hh1. rewrite Z.add_0_r, Z.mod_small in Hh1 by lia. lia.
Qed.

(** ** One step of each thread *)

Section Steps.
Variables f d0 : bytes.

Lemma log_ring done queue s what :
  ring f d0 done queue None s ->
  exists s', step (Log what) s = Some s' /\ ring f d0 done queue (Some what) s' /\ write_thread s' = write_thread s.
Proof.
  intros [Ht Ha Hr [Hh1 Hh2] Hl Hb Hp Hf]. unfold step. rewrite Hp. unfold store_line. rewrite (proj2 (Z.ltb_lt _ _)) by lia.
  simpl. eexists. split; [done|]. split; [|done]. split; cbn; try done; [by rewrite length_insert|..].
  - intros i b Hi Hn. rewrite list_lookup_insert_ne; [by apply Hl|]. rewrite Hh1. intros E.
    pose proof (lookup_lt_Some _ _ _ Hi). apply slot_inj in E; lia.
  - split; [done|]. rewrite list_lookup_insert_eq; [done|lia].
Qed.

Lemma resume_ring done queue s what :
  ring f d0 done queue (Some what) s ->
  exists s', step Resume s = Some s' /\ write_thread s' = write_thread s /\
    if IsLogQueueFull (logger s) then s' = s else ring f d0 done (queue ++ [what]) None s'.
Proof.
  intros H. pose proof (full_spec _ _ _ _ _ _ H) as Hfull. destruct H as [Ht Ha Hr [Hh1 Hh2] Hl Hb [Hp Hw] Hf].
  unfold step. rewrite Hp. destruct (IsLogQueueFull (logger s)); [by eexists|]. eexists. split; [done|]. split; [done|].
  symmetry in Hfull. bool_to_prop. pose proof queue_size. split; cbn; try done.
  - rewrite length_app. simpl. lia.
  - rewrite next_index_mod by done. rewrite length_app. cbn [length]. rewrite Nat.add_1_r.
    split; [|apply Z.mod_pos_bound; lia]. unfold slot in *.
    pose proof (Z.mod_pos_bound (logQueueTail_ (logger s) + Z.of_nat (length queue)) RAW_LOG_QUEUE_SIZE ltac:(lia)).
    replace (logQueueHead_ (logger s)) with ((logQueueTail_ (logger s) + Z.of_nat (length queue)) mod RAW_LOG_QUEUE_SIZE) by lia.
    rewrite Zplus_mod_idemp_l. f_equal. f_equal. lia.
  - intros i b [Hi|[Hi E]]%lookup_app_Some Hn; [by apply Hl|].
    destruct (i - length queue)%nat eqn:Ei; [|done]. injection E as <-. replace i with (length queue) by lia. by rewrite <- Hh1.
  - intros Hn. by destruct queue.
Qed.

Lemma write_ring done b queue pending s :
  ring f d0 done (b :: queue) pending s -> write_thread s = Idle ->
  exists s', step Write_ s = Some s' /\ write_thread s' = Written /\ raw_log s' = raw_log s /\
    ring f d0 (done ++ [b]) (b :: queue) pending s'.
Proof.
  intros H Hi. pose proof (empty_spec _ _ _ _ _ _ H) as He. unfold step. rewrite Hi.
  destruct (_ =? _); [discriminate (proj1 He eq_refl)|]. destruct H as [Ht Ha Hr Hh Hl Hb Hp (fs&Ef&Hfs)].
  assert (rawLogQueue (logger s) !! Z.to_nat (logQueueTail_ (logger s)) = Some b) as Eb.
  { rewrite <- (Hl 0%nat b eq_refl) by (rewrite Hi; naive_solver). f_equal. unfold slot.
    by rewrite Z.add_0_r, Z.mod_small. }
  unfold write_line. rewrite Eb. cbn [mbind option_bind]. unfold on_log_file, file_Write, file_data. rewrite Ef.
  cbn [_file opened files position mbind option_bind]. rewrite Hfs. eexists. split; [done|]. split; [done|]. split; [done|].
  split; cbn; try done.
  - intros i x Hx _. apply Hl; [done|]. rewrite Hi. naive_solver.
  - eexists. rewrite concat_app, app_assoc. cbn [concat]. rewrite app_nil_r. split.
    + f_equal. rewrite (length_app _ b). lia.
    + rewrite lookup_insert_eq. f_equal. unfold splice. rewrite Nat2Z.id, take_ge, Nat.sub_diag by lia. cbn [replicate app].
      rewrite drop_ge by lia. by rewrite app_nil_r.
Qed.

Lemma clear_ring done b queue pending s :
  ring f d0 done (b :: queue) pending s -> write_thread s = Written ->
  exists s', step Write_ s = Some s' /\ write_thread s' = Cleared /\ raw_log s' = raw_log s /\
    ring f d0 done (b :: queue) pending s'.
Proof.
  intros [Ht Ha Hr [Hh1 Hh2] Hl Hb Hp Hf] Hi. unfold step. rewrite Hi. unfold clear_line.
  assert (slot (logQueueTail_ (logger s)) 0 = Z.to_nat (logQueueTail_ (logger s))) as Es.
  { unfold slot. by rewrite Z.add_0_r, Z.mod_small. }
  rewrite <- Es, (Hl 0%nat b eq_refl) by (rewrite Hi; naive_solver). cbn [mbind option_bind].
  eexists. split; [done|]. split; [done|]. split; [done|]. split; cbn; try done; [by rewrite length_insert|..].
  - intros i x Hx Hn. rewrite list_lookup_insert_ne.
    + apply Hl; [done|]. rewrite Hi. naive_solver.
    + intros E. pose proof (lookup_lt_Some _ _ _ Hx). apply slot_inj in E; [naive_solver| |lia]. lia.
  - destruct pending as [w|]; [|done]. destruct Hp as [Hp Hw]. split; [done|]. rewrite list_lookup_insert_ne; [done|].
    rewrite Hh1. intros E. apply slot_inj in E; [done|lia|done].
Qed.

Lemma advance_ring done b queue pending s :
  ring f d0 done (b :: queue) pending s -> write_thread s = Cleared ->
  exists s', step Write_ s = Some s' /\ write_thread s' = Idle /\ raw_log s' = raw_log s /\
    ring f d0 done queue pending s'.
Proof.
  intros [Ht Ha Hr [Hh1 Hh2] Hl Hb Hp Hf] Hi. unfold step. rewrite Hi. pose proof queue_size.
  eexists. split; [done|]. split; [done|]. split; [done|]. split; cbn; try done.
  - rewrite next_index_mod by done. apply Z.mod_pos_bound. lia.
  - cbn in Hr. lia.
  - rewrite next_index_mod by done. by rewrite slot_next.
  - rewrite next_index_mod by done. intros i x Hx _. rewrite slot_next. apply Hl; [done|]. intros [? ?]. done.
Qed.

(** The lines in the file and those that wait are the lines given to [RawLog], in order. *)
Lemma step_ring done queue pending s a s' :
  ring f d0 done queue pending s -> step a s = Some s' ->
  exists done' queue' pending', ring f d0 done' queue' pending' s' /\
    done' ++ waiting queue' pending' s' = (done ++ waiting queue pending s) ++ logged [a].
Proof.
  intros H E. destruct a as [what| |].
  - destruct pending as [w|]. { destruct H as [_ _ _ _ _ _ [Hp _] _]. unfold step in E. by rewrite Hp in E. }
    destruct (log_ring _ _ _ what H) as (s1&E1&H1&W). rewrite E in E1. injection E1 as ->.
    exists done, queue, (Some what). split; [done|]. unfold waiting. rewrite W. cbn. by rewrite app_nil_r, app_assoc.
  - destruct pending as [w|]. 2: { destruct H as [_ _ _ _ _ _ Hp _]. unfold step in E. by rewrite Hp in E. }
    destruct (resume_ring _ _ _ _ H) as (s1&E1&W&H1). rewrite E in E1. injection E1 as ->. rewrite app_nil_r.
    destruct (IsLogQueueFull _); [subst; by exists done, queue, (Some w)|].
    exists done, (queue ++ [w]), None. split; [done|]. unfold waiting. rewrite W. cbn. rewrite app_nil_r. f_equal.
    pose proof (ring_busy _ _ _ _ _ _ H). destruct (write_thread s); [done|by destruct queue; naive_solver..].
  - rewrite app_nil_r. pose proof (ring_busy _ _ _ _ _ _ H) as Hbusy. destruct (write_thread s) eqn:Ew.
    + destruct queue as [|b queue].
      { unfold step in E. rewrite Ew, (proj2 (empty_spec _ _ _ _ _ _ H) eq_refl) in E. injection E as <-. by exists done, [], pending. }
      destruct (write_ring _ _ _ _ _ H Ew) as (s1&E1&W&R&H1). rewrite E in E1. injection E1 as ->.
      exists (done ++ [b]), (b :: queue), pending. split; [done|]. unfold waiting. rewrite W, Ew. cbn. by rewrite <- app_assoc.
    + destruct queue as [|b queue]; [by destruct Hbusy|].
      destruct (clear_ring _ _ _ _ _ H Ew) as (s1&E1&W&R&H1). rewrite E in E1. injection E1 as ->.
      exists done, (b :: queue), pending. split; [done|]. unfold waiting. by rewrite W, Ew.
    + destruct queue as [|b queue]; [by destruct Hbusy|].
      destruct (advance_ring _ _ _ _ _ H Ew) as (s1&E1&W&R&H1). rewrite E in E1. injection E1 as ->.
      exists done, queue, pending. split; [done|]. unfold waiting. by rewrite W, Ew.
Qed.

Lemma run_ring acts : forall done queue pending s s',
  ring f d0 done queue pending s -> run acts s = Some s' ->
  exists done' queue' pending', ring f d0 done' queue' pending' s' /\
    done' ++ waiting queue' pending' s' = (done ++ waiting queue pending s) ++ logged acts.
Proof.
  induction acts as [|a acts IH]; intros done queue pending s s' H E.
  - injection E as <-. exists done, queue, pending. by rewrite app_nil_r.
  - cbn [run] in E. destruct (step a s) as [s1|] eqn:E1; [|done].
    destruct (step_ring _ _ _ _ _ _ H E1) as (d1&q1&p1&H1&L1). destruct (IH _ _ _ _ _ H1 E) as (d2&q2&p2&H2&L2).
    exists d2, q2, p2. split; [done|]. rewrite L2, L1, <- app_assoc. f_equal. unfold logged. cbn. by rewrite app_nil_r.
Qed.

(** No thread is stuck and no index leaves the array. *)
Lemma ring_progress done queue pending s :
  ring f d0 done queue pending s ->
  is_Some (step Write_ s) /\ (is_Some (step Resume s) \/ forall what, is_Some (step (Log what) s)).
Proof.
  intros H. split.
  - pose proof (ring_busy _ _ _ _ _ _ H) as Hb. destruct (write_thread s) eqn:E; (destruct queue as [|b queue]; [try by destruct Hb|]).
    + unfold step. rewrite E, (proj2 (empty_spec _ _ _ _ _ _ H) eq_refl). done.
    + destruct (write_ring _ _ _ _ _ H E) as (s'&->&_). done.
    + destruct (clear_ring _ _ _ _ _ H E) as (s'&->&_). done.
    + destruct (advance_ring _ _ _ _ _ H E) as (s'&->&_). done.
  - destruct pending as [w|].
    + left. destruct (resume_ring _ _ _ _ H) as (s'&->&_). done.
    + right. intros what. destruct (log_ring _ _ _ what H) as (s'&->&_). done.
Qed.

Lemma run_app a b s : run (a ++ b) s = s ← run a s; run b s.
Proof. revert s. induction a as [|x a IH]; intros s; [done|]. cbn. destruct (step x s); [apply IH|done]. Qed.

(** The writing thread takes the oldest line to the file. *)
Lemma write_out done b queue pending s :
  ring f d0 done (b :: queue) pending s ->
  exists n s' done', run (replicate n Write_) s = Some s' /\ write_thread s' = Idle /\ ring f d0 done' queue pending s'.
Proof.
  intros H.
  assert (forall s1 d1, ring f d0 d1 (b :: queue) pending s1 -> write_thread s1 = Cleared ->
    exists n s' done', run (replicate n Write_) s1 = Some s' /\ write_thread s' = Idle /\ ring f d0 done' queue pending s') as Hc.
  { intros s1 d1 H1 W1. destruct (advance_ring _ _ _ _ _ H1 W1) as (s2&E2&W2&_&H2).
    exists 1%nat, s2, d1. cbn [replicate run]. by rewrite E2. }
  assert (forall s1 d1, ring f d0 d1 (b :: queue) pending s1 -> write_thread s1 = Written ->
    exists n s' done', run (replicate n Write_) s1 = Some s' /\ write_thread s' = Idle /\ ring f d0 done' queue pending s') as Hw.
  { intros s1 d1 H1 W1. destruct (clear_ring _ _ _ _ _ H1 W1) as (s2&E2&W2&_&H2).
    destruct (Hc _ _ H2 W2) as (n&s3&d3&E3&R). exists (S n), s3, d3. cbn [replicate run]. by rewrite E2. }
  destruct (write_thread s) eqn:W; [|by eauto..].
  destruct (write_ring _ _ _ _ _ H W) as (s2&E2&W2&_&H2). destruct (Hw _ _ H2 W2) as (n&s3&d3&E3&R).
  exists (S n), s3, d3. cbn [replicate run]. by rewrite E2.
Qed.

(** Left alone the two threads put every line into the file. *)
Lemma drain queue : forall done pending s,
  ring f d0 done queue pending s ->
  exists more s' done', logged more = [] /\ run more s = Some s' /\ write_thread s' = Idle /\ ring f d0 done' [] None s'.
Proof.
  assert (forall n, logged (replicate n Write_) = []) as Hn by (intros n; induction n; done).
  induction queue as [|b queue IH]; intros done pending s H.
  - assert (write_thread s = Idle) as W by (pose proof (ring_busy _ _ _ _ _ _ H); destruct (write_thread s); naive_solver).
    destruct pending as [w|]; [|by exists [], s, done].
    pose proof (full_spec _ _ _ _ _ _ H) as Hfull. pose proof queue_size.
    rewrite (proj2 (Z.eqb_neq _ _)) in Hfull by (cbn; lia).
    destruct (resume_ring _ _ _ _ H) as (s1&E1&W1&H1). rewrite Hfull in H1.
    destruct (write_out _ _ _ _ _ H1) as (n&s2&d2&E2&W2&H2). exists (Resume :: replicate n Write_), s2, d2.
    split; [apply Hn|]. split; [|done]. cbn [run]. by rewrite E1.
  - destruct (write_out _ _ _ _ _ H) as (n&s1&d1&E1&W1&H1). destruct (IH _ _ _ H1) as (more&s2&d2&L2&E2&R).
    exists (replicate n Write_ ++ more), s2, d2. split.
    + unfold logged in *. by rewrite bind_app, L2, Hn.
    + split; [|done]. rewrite run_app, E1. done.
Qed.

End Steps.

(** ** The log file *)

(** A logger that has been started on a file, before any message. *)
Definition started (disk : gmap bytes bytes) (f : bytes) : system :=
  mkSystem (Start f (make disk)).2 Free Idle.

Lemma started_ring disk f d0 :
  default [] (disk !! f) = d0 -> Z.of_nat (length d0) < 2 ^ 32 -> ring f d0 [] [] None (started disk f).
Proof.
  intros E Hd. unfold started, Start, make. unfold mbind, M_bind, on_log_file, file_Create, file_GetFileSize, file_SetPointer, modify.
  cbn. unfold file_data. cbn. pose proof queue_size.
  assert ((match disk !! f with Some _ => disk | None => <[f := []]> disk end) !! f = Some d0) as ->.
  { destruct (disk !! f) eqn:Ed; cbn in E; [by subst|]. rewrite lookup_insert_eq. by subst. }
  cbn. rewrite u32_small by lia. split; cbn.
  - lia.
  - apply length_replicate.
  - lia.
  - split; [|lia]. unfold slot. cbn. by rewrite Zmod_0_l.
  - done.
  - done.
  - done.
  - exists (match disk !! f with Some _ => disk | None => <[f := []]> disk end). rewrite app_nil_r. split; [done|].
    destruct (disk !! f) eqn:Ed; cbn in E; [by subst|]. rewrite lookup_insert_eq. by subst.
Qed.

(** C18. Whatever the order in which the callers of [RawLog] and the writing thread run, the
    log file has what it had at the start and then a beginning of the lines
    that were given to [RawLog], each of them whole and in the order of the
    calls; no thread is stuck and no index leaves the ring; and the two threads
    can always go on, without a further call, to a state in which all lines are
    in the file and the call that waited has returned. *)
Theorem transaction_log_fifo disk f d0 acts s :
  default [] (disk !! f) = d0 -> Z.of_nat (length d0) < 2 ^ 32 ->
  run acts (started disk f) = Some s ->
  (exists k, file_data (f_ (logger s)) = Some (d0 ++ concat (take k (logged acts)))) /\
  is_Some (step Write_ s) /\ (is_Some (step Resume s) \/ forall what, is_Some (step (Log what) s)) /\
  exists more s', logged more = [] /\ run more s = Some s' /\ raw_log s' = Free /\
    file_data (f_ (logger s')) = Some (d0 ++ concat (logged acts)).
Proof.
  intros E Hd Hrun. pose proof (started_ring _ _ _ E Hd) as H0.
  destruct (run_ring _ _ _ _ _ _ _ _ H0 Hrun) as (done&queue&pending&H&L).
  change (([] ++ waiting [] None (started disk f)) ++ logged acts) with (logged acts) in L.
  split; [|split; [|split]].
  - exists (length done). rewrite <- L, take_app_length. destruct H as [_ _ _ _ _ _ _ (fs&->&Hfs)].
    unfold file_data. cbn. by rewrite Hfs.
  - apply (ring_progress _ _ _ _ _ _ H).
  - apply (ring_progress _ _ _ _ _ _ H).
  - destruct (drain _ _ _ _ _ _ H) as (more&s'&d'&Lm&Em&W&H').
    pose proof (proj2 (empty_spec _ _ _ _ _ _ H') eq_refl) as Hq.
    destruct (run_ring _ _ _ _ _ _ _ _ H Em) as (d2&q2&p2&H2&L2). exists more, s'. do 2 (split; [done|]).
    pose proof (ring_pending _ _ _ _ _ _ H') as Hfree. cbn in Hfree. split; [done|].
    apply (empty_spec _ _ _ _ _ _ H2) in Hq as ->. destruct p2 as [w|]; [by destruct (ring_pending _ _ _ _ _ _ H2); congruence|].
    rewrite Lm, app_nil_r, L in L2. unfold waiting in L2. rewrite W, !app_nil_r in L2. subst d2.
    destruct H2 as [_ _ _ _ _ _ _ (fs&->&Hfs)]. unfold file_data. cbn. by rewrite Hfs.
Qed.

Lemma transaction_log_fifo_witness :
  let acts := [Log (lit "first"); Write_; Resume; Write_; Write_; Log (lit "second")] in
  exists s more s', run acts (started {[ lit "tio.log" := lit "old " ]} (lit "tio.log")) = Some s /\
    run more s = Some s' /\ file_data (f_ (logger s')) = Some (lit "old firstsecond").
Proof.
  intros acts. pose (disk := {[ lit "tio.log" := lit "old " ]} : gmap bytes bytes).
  assert (match run acts (started disk (lit "tio.log")) with Some _ => true | None => false end = true) as Hs by (vm_compute; reflexivity).
  destruct (run acts (started disk (lit "tio.log"))) as [s|] eqn:E; [|done].
  destruct (transaction_log_fifo disk (lit "tio.log") (lit "old ") acts s) as (_&_&_&more&s'&_&Er&_&Ef);
    [vm_compute; reflexivity|vm_compute; reflexivity|exact E|].
  exists s, more, s'. split; [done|]. split; [exact Er|]. rewrite Ef. vm_compute. reflexivity.
Defined.

End TransactionLog.
