(* ===== verification/ContainerApi.v ===== *)
(** * The C++ client: [client/cpp/tioclient.hpp]

    [IContainerManager] is the interface behind which containers are reached:
    a [Connection] reaches those of a server, through the C client, and the
    server's plugins reach them directly ([LocalManager.v]).  It is a class over
    the implementation's state.  On top of it [TioContainerImpl] and [list] give
    typed containers; [ToTioData] and [FromTioData] convert.

    A [void*] handle is [None] for NULL.  A [std::function] is a number, and the
    calls of callbacks are recorded.  A [tio_exception] is the [runtime_error]
    it inherits from. *)
From S2P Require Import Prelude Decimal StreamBuffer Pr1Message TioDataC Network Protocol ClientState ClientReceive ClientApi ClientCluster.

Module ContainerApi.
Import Decimal StreamBuffer Pr1 TioDataC Net Protocol ClientState ClientReceive ClientApi ClientCluster.

(** ** The interface *)

(** Data passed to be filled in, [None] for NULL. *)
Definition three : Type := out_data * out_data * out_data.

Class IContainerManager (S : Type) := {
  create_ : bytes -> bytes -> M S (Z * option Z);
  open_ : bytes -> option bytes -> M S (Z * option Z);
  close_ : option Z -> M S Z;
  group_add : bytes -> bytes -> M S Z;
  container_propset : option Z -> option TIO_DATA -> option TIO_DATA -> M S Z;
  container_push_back : option Z -> option TIO_DATA -> option TIO_DATA -> option TIO_DATA -> M S Z;
  container_push_front : option Z -> option TIO_DATA -> option TIO_DATA -> option TIO_DATA -> M S Z;
  container_pop_back : option Z -> out_data -> out_data -> out_data -> M S (Z * three);
  container_pop_front : option Z -> out_data -> out_data -> out_data -> M S (Z * three);
  container_set : option Z -> option TIO_DATA -> option TIO_DATA -> option TIO_DATA -> M S Z;
  container_insert : option Z -> option TIO_DATA -> option TIO_DATA -> option TIO_DATA -> M S Z;
  container_clear : option Z -> M S Z;
  container_delete : option Z -> option TIO_DATA -> M S Z;
  container_get : option Z -> option TIO_DATA -> out_data -> out_data -> out_data -> M S (Z * three);
  container_propget : option Z -> option TIO_DATA -> out_data -> M S (Z * out_data);
  container_get_count : option Z -> M S (Z * option Z);
  container_query : option Z -> Z -> Z -> Z -> Z -> M S Z;
  container_subscribe : option Z -> option TIO_DATA -> option Z -> Z -> M S Z;
  container_unsubscribe : option Z -> M S Z;
  container_wait_and_pop_next : option Z -> option Z -> Z -> M S Z;
  connected_ : S -> bool;
  (** the C client's global description of the last error *)
  tio_get_last_error_description : S -> bytes
}.

(** ** [Connection] *)

Record Connection := mkConnection { connection_ : option Z; host_ : bytes; port_ : Z; lib : client }.

Definition set_connection (p : option Z) (c : Connection) : Connection := mkConnection p (host_ c) (port_ c) (lib c).

Definition on_client {A} (m : M client A) : M Connection A := fun c =>
  let '(r, l) := m (lib c) in (r, mkConnection (connection_ c) (host_ c) (port_ c) l).

(** A function of the C client that is given [connection_]. *)
Definition with_connection {A} (f : Z -> M client A) : M Connection A :=
  c ← get;
  match connection_ c with Some p => on_client (f p) | None => throw (Fault NullDeref) end.

(** A function of the C client that is given a container. *)
Definition with_container {A} (h : option Z) (f : Z -> M client A) : M Connection A :=
  match h with Some cp => on_client (f cp) | None => throw (Fault NullDeref) end.

Section Connection.
(** The depth of clusters of clusters. *)
Variable fuel : nat.

#[global] Instance connection_manager : IContainerManager Connection := {
  create_ name type := with_connection (fun p => tio_create fuel p name (Some type));
  open_ name type := with_connection (fun p => tio_open fuel p name type);
  close_ h := on_client (tio_close h);
  group_add group container := with_connection (fun p => tio_group_add p group container);
  container_propset h k v := with_container h (fun cp => tio_container_propset cp k v);
  container_push_back h k v m := with_container h (fun cp => tio_container_push_back cp k v m);
  container_push_front h k v m := with_container h (fun cp => tio_container_push_front cp k v m);
  container_pop_back h k v m := with_container h (fun cp => tio_container_pop_back cp k v m);
  container_pop_front h k v m := with_container h (fun cp => tio_container_pop_front cp k v m);
  container_set h k v m := with_container h (fun cp => tio_container_set cp k v m);
  container_insert h k v m := with_container h (fun cp => tio_container_insert cp k v m);
  container_clear h := with_container h tio_container_clear;
  container_delete h k := with_container h (fun cp => tio_container_delete cp k);
  container_get h sk k v m := with_container h (fun cp => tio_container_get cp sk k v m);
  container_propget h sk v := with_container h (fun cp =>
    '(r, (_, v, _)) ← tio_container_propget cp sk v; mret (r, v));
  container_get_count h := with_container h tio_container_get_count;
  container_query h a b cb cookie := with_container h (fun cp => tio_container_query cp a b None cb cookie);
  container_subscribe h start cb cookie := with_container h (fun cp => tio_container_subscribe cp start cb cookie);
  container_unsubscribe h := with_container h tio_container_unsubscribe;
  container_wait_and_pop_next h cb cookie := with_container h (fun cp => tio_container_wait_and_pop_next cp cb cookie);
  connected_ c := bool_decide (is_Some (connection_ c));
  tio_get_last_error_description c := c_str (pr1_get_last_error_description (net (lib c)))
}.

Definition BeginNetworkBatch : M Connection unit := with_connection tio_begin_network_batch.
Definition FinishNetworkBatch : M Connection unit := with_connection tio_finish_network_batch.

Definition Disconnect : M Connection unit :=
  c ← get;
  _ ← on_client (tio_disconnect fuel (connection_ c));
  modify (set_connection None).

End Connection.

(** ** Errors *)

Definition client_error (description : bytes) (result : Z) : exn :=
  runtime_error (string_of_list_byte
    (lit "client error " ++ print_int result ++ lit ": " ++ [x22] ++ description ++ [x22])).

Definition ThrowOnTioClientError {S} `{IContainerManager S} (result : Z) : M S unit :=
  s ← get;
  if result <? 0 then throw (client_error (tio_get_last_error_description s) result) else mret tt.

Definition Connect (fuel : nat) (host : bytes) (port : Z) : M Connection unit :=
  _ ← Disconnect fuel;
  '(result, p) ← on_client (connect fuel host port);
  _ ← modify (fun c => set_connection (match p with Some p => Some p | None => connection_ c end) c);
  _ ← (let H := connection_manager fuel in ThrowOnTioClientError result);
  modify (fun c => mkConnection (connection_ c) host port (lib c)).

Definition WaitForNextEventAndDispatch (timeout : option Z) (fuel : nat) : M Connection Z :=
  _ ← with_connection (fun p => tio_dispatch_pending_events p 0xFFFFFFFF);
  ret ← with_connection (fun p => tio_receive_next_pending_event p timeout);
  if ret =? TIO_ERROR_TIMEOUT then mret 0
  else
    _ ← (let H := connection_manager fuel in ThrowOnTioClientError ret);
    _ ← with_connection (fun p => tio_dispatch_pending_events p 0xFFFFFFFF);
    mret ret.

(** [AddToGroup] of a manager; [Connection] has it for itself. *)
Definition AddToGroup {S} `{IContainerManager S} (groupName containerName : bytes) : M S unit :=
  ret ← group_add (c_str groupName) (c_str containerName);
  ThrowOnTioClientError ret.

(** ** Conversions *)

(** [TValue v{}] is [zero]. *)
Class Converts (T : Type) := {
  ToTioData : T -> TIO_DATA -> res TIO_DATA;
  FromTioData : TIO_DATA -> res T;
  zero : T
}.

Definition wrong_type : exn := runtime_error "wrong data type".

#[export] Instance int_converts : Converts Z := {
  ToTioData v td := Ok (tiodata_set_int (tiodata_set_as_none td) v);
  FromTioData td := if negb (data_type td =? TIO_DATA_TYPE_INT) then Throw wrong_type else Ok (int_ td);
  zero := 0
}.

(** The overloads for [unsigned int]. *)
Definition ToTioData_unsigned (v : Z) (td : TIO_DATA) : TIO_DATA := tiodata_set_int (tiodata_set_as_none td) (i32 v).
Definition FromTioData_unsigned (td : TIO_DATA) : res Z :=
  if negb (data_type td =? TIO_DATA_TYPE_INT) then Throw wrong_type else Ok (u32 (int_ td)).

(** [v.c_str()] is the string and a NUL. *)
#[export] Instance string_converts : Converts bytes := {
  ToTioData v td := tiodata_set_string_and_size (tiodata_set_as_none td) (v ++ [x00]) (u32 (Z.of_nat (length v)));
  FromTioData td :=
    if negb (data_type td =? TIO_DATA_TYPE_STRING) then Throw wrong_type
    else match string_ td with
         | Some blk => mem_read blk 0 (string_size_ td)
         | None => if string_size_ td =? 0 then Ok [] else Throw (Fault NullDeref)
         end;
  zero := []
}.

(** [TioDataConverter<T>(v).inptr()] *)
Definition inptr {T} `{Converts T} (v : T) : res TIO_DATA := ToTioData v tiodata_init.

(** The data behind [outptr()] of a new converter. *)
Definition outptr : out_data := Some (tiodata_set_as_none tiodata_init).

(** [value()] of a converter whose data was passed out. *)
Definition converted {T} `{Converts T} (o : out_data) : res T := FromTioData (default tiodata_init o).

(** ** Containers *)

Record call_made (K V : Type) := mkCall { called : Z; container_name : bytes; event_name : bytes; call_key : K; call_value : V }.
Arguments mkCall {K V}.

Record TioContainerImpl (K V : Type) := mkImpl {
  container_ : option Z;
  name_ : bytes;
  containerManager_ : bool;        (* whether the pointer to the manager is set *)
  eventCallback_ : option Z;
  waitAndPopNextCallback_ : option Z;
  queryCallback_ : option Z;
  made : list (call_made K V)
}.
Arguments mkImpl {K V}.
Arguments container_ {K V}.
Arguments name_ {K V}.
Arguments containerManager_ {K V}.
Arguments eventCallback_ {K V}.
Arguments waitAndPopNextCallback_ {K V}.
Arguments queryCallback_ {K V}.
Arguments made {K V}.

Section Container.
Context {S K V : Type} `{IContainerManager S} `{Converts K} `{Converts V}.
Notation C := (S * TioContainerImpl K V)%type.
Implicit Type c : TioContainerImpl K V.

Definition new_impl : TioContainerImpl K V := mkImpl None [] false None None None [].

Definition set_container (h : option Z) c := mkImpl h (name_ c) (containerManager_ c) (eventCallback_ c) (waitAndPopNextCallback_ c) (queryCallback_ c) (made c).
Definition set_name (n : bytes) c := mkImpl (container_ c) n (containerManager_ c) (eventCallback_ c) (waitAndPopNextCallback_ c) (queryCallback_ c) (made c).
Definition set_manager c := mkImpl (container_ c) (name_ c) true (eventCallback_ c) (waitAndPopNextCallback_ c) (queryCallback_ c) (made c).
Definition set_event_callback (f : option Z) c := mkImpl (container_ c) (name_ c) (containerManager_ c) f (waitAndPopNextCallback_ c) (queryCallback_ c) (made c).
Definition set_pop_callback (f : option Z) c := mkImpl (container_ c) (name_ c) (containerManager_ c) (eventCallback_ c) f (queryCallback_ c) (made c).
Definition set_query_callback (f : option Z) c := mkImpl (container_ c) (name_ c) (containerManager_ c) (eventCallback_ c) (waitAndPopNextCallback_ c) f (made c).
Definition add_call (x : call_made K V) c := mkImpl (container_ c) (name_ c) (containerManager_ c) (eventCallback_ c) (waitAndPopNextCallback_ c) (queryCallback_ c) (made c ++ [x]).

Definition on_impl (f : TioContainerImpl K V -> TioContainerImpl K V) : M C unit := modify (fun s => (s.1, f s.2)).

Definition on_manager {A} (m : M S A) : M C A := fun s => let '(r, x) := m s.1 in (r, (x, s.2)).

(** [container_manager()->f(container_, ...)] *)
Definition container_manager {A} (f : option Z -> M S A) : M C A :=
  s ← get;
  if containerManager_ s.2 then on_manager (f (container_ s.2)) else throw (runtime_error "container closed").

Definition checked (result : Z) : M C unit := on_manager (ThrowOnTioClientError result).

Definition connected (s : C) : bool :=
  containerManager_ s.2 && connected_ s.1 && bool_decide (is_Some (container_ s.2)).

(** The handle a manager stored, if it did. *)
Definition new_handle (h : option Z) : M C unit :=
  match h with Some _ => on_impl (set_container h) | None => mret tt end.

Definition open (name : bytes) : M C unit :=
  _ ← on_impl set_manager;
  '(result, h) ← on_manager (open_ (c_str name) None);
  _ ← new_handle h;
  _ ← checked result;
  on_impl (set_name name).

Definition close : M C unit :=
  s ← get;
  if negb (connected s) then mret tt
  else _ ← container_manager close_; on_impl (set_name []).

Definition create (name containerType : bytes) : M C unit :=
  _ ← close;
  _ ← on_impl set_manager;
  '(result, h) ← on_manager (create_ (c_str name) (c_str containerType));
  _ ← new_handle h;
  _ ← checked result;
  on_impl (set_name name).

Definition unsubscribe : M C unit := _ ← container_manager container_unsubscribe; mret tt.

(** The destructor. *)
Definition destroy : M C unit := s ← get; if connected s then unsubscribe else mret tt.

(** [this] as a cookie is 0, and the class's static functions are the callbacks 1, 2, 3. *)
Definition subscribe (callback : option Z) (start : option Z) : M C unit :=
  _ ← on_impl (set_event_callback callback);
  let tioDataStart := tiodata_set_int tiodata_init <$> start in
  _ ← container_manager (fun h => container_subscribe h tioDataStart (Some 1) 0);
  mret tt.

Definition wait_and_pop_next (callback : option Z) : M C bool :=
  match callback with
  | None => throw (runtime_error "wait_and_pop_next callback can't be null")
  | Some _ =>
      s ← get;
      match waitAndPopNextCallback_ s.2 with
      | Some _ => mret false
      | None =>
          _ ← on_impl (set_pop_callback callback);
          _ ← container_manager (fun h => container_wait_and_pop_next h (Some 2) 0);
          mret true
      end
  end.

(** [T v{}; if(data->data_type != TIO_DATA_TYPE_NONE) FromTioData(data, &v);] *)
Definition data_or_zero {T} `{Converts T} (data : TIO_DATA) : res T :=
  if negb (data_type data =? TIO_DATA_TYPE_NONE) then FromTioData data else Ok zero.

(** [me->eventCallback_(...)]; an empty function throws [bad_function_call]. *)
Definition call_back (f : option Z) (name event : bytes) (key value : TIO_DATA) : M C unit :=
  k ← lift (data_or_zero key);
  v ← lift (data_or_zero value);
  match f with
  | None => throw (runtime_error "bad_function_call")
  | Some f => on_impl (add_call (mkCall f name event k v))
  end.

Definition EventCallback (event_code : Z) (container_name : bytes) (key value : TIO_DATA) : M C unit :=
  s ← get; call_back (eventCallback_ s.2) container_name (lit (tio_event_code_to_string event_code)) key value.

Definition QueryCallback (container_name : bytes) (key value : TIO_DATA) : M C unit :=
  s ← get; call_back (queryCallback_ s.2) container_name (lit "query") key value.

(** A key or value that is not there is left uninitialised. *)
Definition WaitAndPopNextCallback (container_name : bytes) (key value : TIO_DATA) : M C unit :=
  let read {T} `{Converts T} (data : TIO_DATA) : res T :=
    if negb (data_type data =? TIO_DATA_TYPE_NONE) then FromTioData data else Throw (Fault Uninitialised) in
  k ← lift (read key);
  v ← lift (read value);
  s ← get;
  let cb := waitAndPopNextCallback_ s.2 in
  _ ← on_impl (set_pop_callback None);
  match cb with
  | None => throw (runtime_error "bad_function_call")
  | Some f => on_impl (add_call (mkCall f container_name (lit "wnp_next") k v))
  end.

Definition add_to_group (groupName : bytes) : M C unit :=
  s ← get; _ ← container_manager (fun _ => group_add (c_str groupName) (c_str (name_ s.2))); mret tt.

Definition propset (key value : bytes) : M C unit :=
  k ← lift (inptr key);
  v ← lift (inptr value);
  result ← container_manager (fun h => container_propset h (Some k) (Some v));
  checked result.

Definition propget (key : bytes) : M C bytes :=
  k ← lift (inptr key);
  '(result, value) ← container_manager (fun h => container_propget h (Some k) outptr);
  _ ← checked result;
  lift (converted value).

Definition insert (key : K) (value : V) : M C unit :=
  k ← lift (inptr key);
  v ← lift (inptr value);
  result ← container_manager (fun h => container_insert h (Some k) (Some v) None);
  checked result.

Definition set (key : K) (value : V) (metadata : option bytes) : M C unit :=
  k ← lift (inptr key);
  v ← lift (inptr value);
  m ← lift (match metadata with Some m => m ← inptr m; Ok (Some m) | None => Ok None end);
  result ← container_manager (fun h => container_set h (Some k) (Some v) m);
  checked result.

Definition at_ (index : K) : M C V :=
  k ← lift (inptr index);
  '(result, (_, value, _)) ← container_manager (fun h => container_get h (Some k) None outptr None);
  _ ← checked result;
  lift (converted value).

Definition get_ (index : K) (defaultValue : V) : M C V :=
  k ← lift (inptr index);
  '(result, (_, value, _)) ← container_manager (fun h => container_get h (Some k) None outptr None);
  if negb (result =? 0) then mret defaultValue else lift (converted value).

Definition erase (index : K) : M C unit :=
  k ← lift (inptr index);
  result ← container_manager (fun h => container_delete h (Some k));
  checked result.

Definition clear : M C unit := result ← container_manager container_clear; checked result.

(** An [int] that is not set on an error, and then converted to [size_t]. *)
Definition size : M C Z :=
  '(result, count) ← container_manager container_get_count;
  _ ← checked result;
  match count with Some n => mret (u64 n) | None => throw (Fault Uninitialised) end.

Definition query (callback : option Z) : M C unit :=
  _ ← on_impl (set_query_callback callback);
  result ← container_manager (fun h => container_query h 0 0 3 0);
  checked result.

(** [ServerValue], what [operator[]] gives: reading and assigning it. *)
Definition server_value (key : K) : M C V := at_ key.
Definition server_value_assign (key : K) (v : V) : M C unit := set key v None.

(** *** [class list] *)

Definition push_back (value : V) : M C unit :=
  v ← lift (inptr value);
  result ← container_manager (fun h => container_push_back h None (Some v) None);
  checked result.

Definition push_front (value : V) : M C unit :=
  v ← lift (inptr value);
  result ← container_manager (fun h => container_push_front h None (Some v) None);
  checked result.

Definition pop_back : M C V :=
  '(result, (_, value, _)) ← container_manager (fun h => container_pop_back h None outptr None);
  _ ← checked result;
  lift (converted value).

Definition pop_front : M C V :=
  '(result, (_, value, _)) ← container_manager (fun h => container_pop_front h None outptr None);
  _ ← checked result;
  lift (converted value).

End Container.
End ContainerApi.
