(* ===== verification/LocalManager.v ===== *)
(** * Containers for plugins: [server/tio/tio.cpp]

    [LocalContainerManager] is the other implementation of the interface of
    [ContainerApi.v]: a plugin in the server's process reaches the containers of
    the [ContainerManager] through it.  A handle is a [shared_ptr] allocated with
    [new]; [close] deletes it, and the container object expires when its last
    user, here or in a session, has gone ([ContainerManager.expire]).  [c2cpp]
    and [cpp2c] convert between the C and the C++ values.  [stack] is what the
    memory of a new [TIO_DATA] happens to contain. *)
From S2P Require Import Prelude StdMap TioDataC TioDataS Containers ListStorage MapStorage VectorStorage MemoryStorage ContainerManager ClientState ClientApi ContainerApi.

Module LocalManager.
Import TioDataC TioData Containers.
#[local] Existing Instances MemoryStorage.any_storage.

Record LocalContainerManager := mkLocal {
  containerManager : ContainerManager.t;
  handles : gmap Z nat;
  next_handle : Z;
  callbacks : list ClientState.callback_call;
  stack : TIO_DATA;
  description : bytes
}.

Definition set_manager m s := mkLocal m (handles s) (next_handle s) (callbacks s) (stack s) (description s).
Definition set_handles h n s := mkLocal (containerManager s) h n (callbacks s) (stack s) (description s).
Definition add_callback c s := mkLocal (containerManager s) (handles s) (next_handle s) (callbacks s ++ [c]) (stack s) (description s).

Notation local := LocalContainerManager (only parsing).
Notation out_data := ClientApi.out_data (only parsing).

Definition on_manager {A} (m : M ContainerManager.t A) : M local A := fun s =>
  let '(r, x) := m (containerManager s) in (r, set_manager x s).

(** ** Conversions *)

(** The constructor of [cpp2c] clears a [TIO_DATA] that was never written: when
    its type happens to be that of a string, a wild pointer is freed. *)
Definition cpp2c (garbage : TIO_DATA) (v : TioData) : res TIO_DATA :=
  if data_type garbage =? TIO_DATA_TYPE_STRING then Throw (Fault UseAfterFree) else
  let c := tiodata_set_as_none garbage in
  match v with
  | String s => tiodata_set_string_and_size c (s ++ [x00]) (u32 (Z.of_nat (length s)))
  | Int i => Ok (tiodata_set_int c i)
  | Double d => Ok (tiodata_set_double c d)
  | None_ => Ok c
  end.

(** The value a [c2cpp] is constructed with. *)
Definition c2cpp (c : option TIO_DATA) : res TioData :=
  match c with
  | None => Ok None_
  | Some c =>
      if data_type c =? TIO_DATA_TYPE_DOUBLE then Ok (Double (double_ c))
      else if data_type c =? TIO_DATA_TYPE_INT then Ok (Int (int_ c))
      else if data_type c =? TIO_DATA_TYPE_STRING then
        match string_ c with
        | Some blk => s ← mem_read blk 0 (string_size_ c); Ok (String s)
        | None => if string_size_ c =? 0 then Ok (String []) else Throw (Fault NullDeref)
        end
      else Ok None_
  end.

(** [outptr()] *)
Definition c2cpp_outptr (c : out_data) (v : TioData) : out := match c with None => None | Some _ => Some v end.

(** The destructor after [outptr()]: a null is not written back. *)
Definition write_back (c : out_data) (v : TioData) : res out_data :=
  match c with
  | None => Ok None
  | Some c =>
      match v with
      | String s => c ← tiodata_set_string_and_size c (s ++ [x00]) (u32 (Z.of_nat (length s))); Ok (Some c)
      | Int i => Ok (Some (tiodata_set_int c i))
      | Double d => Ok (Some (tiodata_set_double c d))
      | None_ => Ok (Some c)
      end
  end.

(** ** Calls *)

(** The container behind a handle. *)
Definition container_of (handle : option Z) : M local nat :=
  s ← get;
  match handle with
  | None => throw (Fault NullDeref)
  | Some h => match handles s !! h with Some c => mret c | None => throw (Fault UseAfterFree) end
  end.

(** [try { ... } catch(std::exception&) { return -1; }] and what follows. *)
Definition catching {A B} (m : M local A) (ok : A -> M local B) (failed : B) : M local B := fun s =>
  match m s with
  | (Ok a, s) => ok a s
  | (Throw (Fault f), s) => (Throw (Fault f), s)
  | (Throw _, s) => (Ok failed, s)
  end.

Definition guarded (m : M local unit) : M local Z := catching m (fun _ => mret 0) (-1).

Definition call {A} (c : nat) (f : M MemoryStorage.AnyStorage A) : M local A := on_manager (ContainerManager.call (Some c) f).

(** A command with key, value and metadata. *)
Definition change (f : TioData -> TioData -> TioData -> M MemoryStorage.AnyStorage unit)
    (handle : option Z) (key value metadata : option TIO_DATA) : M local Z :=
  c ← container_of handle;
  guarded (
    k ← lift (c2cpp key);
    v ← lift (c2cpp value);
    m ← lift (c2cpp metadata);
    call c (f k v m)).

(** A command with three output arguments: what they hold is written back also after
    an exception. *)
Definition fetch (handle : option Z) (f : nat -> out -> out -> out -> M local outs)
    (key value metadata : out_data) : M local (Z * ContainerApi.three) :=
  c ← container_of handle;
  k ← lift (c2cpp key);
  v ← lift (c2cpp value);
  m ← lift (c2cpp metadata);
  let o := (c2cpp_outptr key k, c2cpp_outptr value v, c2cpp_outptr metadata m) in
  '(r, (k, v, m)) ← catching (f c o.1.1 o.1.2 o.2) (fun o => mret (0, o)) (-1, o);
  key ← lift (write_back key (default None_ k));
  value ← lift (write_back value (default None_ v));
  metadata ← lift (write_back metadata (default None_ m));
  mret (r, (key, value, metadata)).

(** [new shared_ptr<ITioContainer>(container)], and the exceptions of finding it. *)
Definition new_handle (m : M local nat) : M local (Z * option Z) :=
  catching m (fun c =>
    s ← get;
    _ ← modify (set_handles (<[next_handle s := c]> (handles s)) (next_handle s + 1));
    mret (0, Some (next_handle s))) (-1, None).

Definition create (name type : bytes) : M local (Z * option Z) :=
  new_handle (on_manager (ContainerManager.CreateContainer type name)).

Definition open (name : bytes) (type : option bytes) : M local (Z * option Z) :=
  new_handle (on_manager (ContainerManager.OpenContainer (default [] type) name)).

Definition close (handle : option Z) : M local Z :=
  s ← get;
  match handle with
  | None => mret 0
  | Some h =>
      match handles s !! h with
      | None => throw (Fault UseAfterFree)
      | Some _ => _ ← modify (set_handles (delete h (handles s)) (next_handle s)); mret 0
      end
  end.

Definition group_add (group container : bytes) : M local Z := throw (Fault AssertFail).

(** A [const char*] given as a [std::string]. *)
Definition c_string (c : TIO_DATA) : res bytes :=
  match string_ c with Some blk => Ok (c_str blk) | None => Throw (Fault NullDeref) end.

(** Not in a [try]. *)
Definition container_propset (handle : option Z) (key value : option TIO_DATA) : M local Z :=
  c ← container_of handle;
  match key, value with
  | Some key, Some value =>
      if negb (data_type key =? TIO_DATA_TYPE_STRING) || negb (data_type value =? TIO_DATA_TYPE_STRING) then mret (-1)
      else
        k ← lift (c_string key);
        v ← lift (c_string value);
        _ ← on_manager (ContainerManager.SetProperty (Some c) k v);
        mret 0
  | _, _ => throw (Fault NullDeref)
  end.

Definition container_pop_back (handle : option Z) (key value metadata : out_data) :=
  fetch handle (fun c k v m => call c (PopBack k v m)) key value metadata.

Definition container_pop_front (handle : option Z) (key value metadata : out_data) :=
  fetch handle (fun c k v m => call c (PopFront k v m)) key value metadata.

Definition container_get (handle : option Z) (search_key : option TIO_DATA) (key value metadata : out_data) :=
  fetch handle (fun c k v m => sk ← lift (c2cpp search_key); call c (GetRecord sk k v m)) key value metadata.

Definition container_clear (handle : option Z) : M local Z := c ← container_of handle; guarded (call c Clear).

Definition container_delete (handle : option Z) (key : option TIO_DATA) : M local Z :=
  c ← container_of handle;
  guarded (k ← lift (c2cpp key); call c (Delete k TIONULL TIONULL)).

Definition container_propget (handle : option Z) (search_key : option TIO_DATA) (value : out_data) : M local (Z * out_data) :=
  c ← container_of handle;
  catching (k ← lift (k ← c2cpp search_key; AsSz k); on_manager (ContainerManager.GetProperty (Some c) k))
    (fun ret =>
      match value with
      | None => throw (Fault NullDeref)
      | Some v => v ← lift (tiodata_set_string_and_size v (ret ++ [x00]) (u32 (Z.of_nat (length ret)))); mret (0, Some v)
      end) (-1, value).

Definition container_get_count (handle : option Z) : M local (Z * option Z) :=
  c ← container_of handle;
  catching (call c GetRecordCount) (fun n => mret (0, Some (i32 n))) (-1, None).

(** [while(resultset->GetRecord(...)) { query_callback(...); resultset->MoveNext(); }]: each
    turn moves on by one record. *)
Fixpoint query_loop (fuel : nat) (c : nat) (handle callback cookie : Z) (resultset : VectorResultSet) : M local unit :=
  match fuel with
  | O => throw (Fault OutOfFuel)
  | S fuel =>
      match ResultSet.GetRecord resultset with
      | None => mret tt
      | Some (key, value, metadata) =>
          name ← call c (fun a => (Ok (MemoryStorage.any_name a), a));
          s ← get;
          k ← lift (cpp2c (stack s) key);
          v ← lift (cpp2c (stack s) value);
          m ← lift (cpp2c (stack s) metadata);
          _ ← modify (add_callback (ClientState.QueryCall callback 0 handle cookie 0 (c_str name) k v m));
          query_loop fuel c handle callback cookie (ResultSet.MoveNext resultset).2
      end
  end.

Definition container_query (handle : option Z) (start end_ callback cookie : Z) : M local Z :=
  c ← container_of handle;
  guarded (
    resultset ← call c (Query start end_ TIONULL);
    query_loop (S (length (items_ resultset))) c (default 0 handle) callback cookie resultset).

(** Subscriptions are commented out. *)
Definition container_subscribe (handle : option Z) (start : option TIO_DATA) (callback : option Z) (cookie : Z) : M local Z :=
  _ ← container_of handle;
  match start with
  | None => mret 0
  | Some start =>
      if negb (data_type start =? TIO_DATA_TYPE_STRING) then mret (-1)
      else _ ← lift (c_string start); mret 0
  end.

Definition container_unsubscribe (handle : option Z) : M local Z := _ ← container_of handle; mret 0.
Definition container_wait_and_pop_next (handle callback : option Z) (cookie : Z) : M local Z := _ ← container_of handle; mret 0.

#[export] Instance local_manager : ContainerApi.IContainerManager LocalContainerManager := {
  ContainerApi.create_ := create;
  ContainerApi.open_ := open;
  ContainerApi.close_ := close;
  ContainerApi.group_add := group_add;
  ContainerApi.container_propset := container_propset;
  ContainerApi.container_push_back := change PushBack;
  ContainerApi.container_push_front := change PushFront;
  ContainerApi.container_pop_back := container_pop_back;
  ContainerApi.container_pop_front := container_pop_front;
  ContainerApi.container_set := change Set_;
  ContainerApi.container_insert := change Insert;
  ContainerApi.container_clear := container_clear;
  ContainerApi.container_delete := container_delete;
  ContainerApi.container_get := container_get;
  ContainerApi.container_propget := container_propget;
  ContainerApi.container_get_count := container_get_count;
  ContainerApi.container_query := container_query;
  ContainerApi.container_subscribe := container_subscribe;
  ContainerApi.container_unsubscribe := container_unsubscribe;
  ContainerApi.container_wait_and_pop_next := container_wait_and_pop_next;
  ContainerApi.connected_ _ := true;
  ContainerApi.tio_get_last_error_description := description
}.

End LocalManager.
