(* ===== verification/LogReplay.v ===== *)
(** * Replaying a transaction log: [tools/TioLogReplayCpp/tiologreplay.cpp]

    The program reads the lines a server wrote ([TransactionLog.v]), parses each
    into a [LogEntry], and gives the commands to another server through the
    interface of [ContainerApi.v].  One thread reads and fills [logQueue_], the
    other takes all of it at a time and sends it, in network batches.  Waiting,
    statistics and the time of a line ([TimeFromString] converts it with the
    C++ library) do not bear on what is sent. *)
From S2P Require Import Prelude Decimal StdMap StreamBuffer Pr1Message TioDataC TioDataS Containers ClientState ClientApi ClientCluster ContainerApi.

Module LogReplay.
Import Decimal TioDataC ContainerApi.

(** ** [namespace Utils] *)

Definition Split (str : bytes) (delimiter : Byte.byte) (skip_empty : bool) : list bytes :=
  let tokens := Containers.split delimiter str in
  if skip_empty then filter (fun t => t <> []) tokens else tokens.

Fixpoint Join (strings : list bytes) (delimiter : Byte.byte) : bytes :=
  match strings with
  | [] => []
  | [s] => s
  | s :: strings => s ++ [delimiter] ++ Join strings delimiter
  end.

Definition StartsWith (s suffix : bytes) : bool := bool_decide (take (length suffix) s = suffix).

(** [std::equal] reads as many bytes of [s], from its end, as [suffix] has. *)
Fixpoint equal_from (suffix s : bytes) : res bool :=
  match suffix, s with
  | [], _ => Ok true
  | _ :: _, [] => Throw (Fault OutOfBounds)
  | x :: suffix, y :: s => if bool_decide (x = y) then equal_from suffix s else Ok false
  end.

Definition EndsWith (s suffix : bytes) : res bool := equal_from (rev suffix) (rev s).

(** [std::stoi]: spaces, a sign, and as many digits as follow. *)
Definition stoi (s : bytes) : res Z :=
  let s := ClientCluster.skip_spaces s in
  let '(neg, s) := match s with x2d :: t => (true, t) | x2b :: t => (false, t) | _ => (false, s) end in
  let ds := ClientCluster.leading_digits s in
  if bool_decide (ds = []) then Throw (invalid_argument "stoi")
  else
    let v := if neg then - digits_value 0 ds else digits_value 0 ds in
    if (INT_MIN <=? v) && (v <=? INT_MAX) then Ok v else Throw (out_of_range "stoi").

(** ** [class LogEntry] *)

Record LogEntry := mkEntry {
  line_ : bytes;
  command_ : bytes;
  handle_ : Z;
  dateTime_ : bytes;
  key_ : TIO_DATA;
  value_ : TIO_DATA
}.

(** [new TIO_DATA()] *)
Definition new_data : TIO_DATA :=
  {| data_type := 0; int_ := 0; string_ := None; string_size_ := 0; double_ := replicate 8 x00 |}.

(** [v[i]] *)
Definition element (l : list bytes) (i : nat) : res bytes :=
  match l !! i with Some x => Ok x | None => Throw (Fault OutOfBounds) end.

(** [s.substr(pos, n)] with [size_t] arguments. *)
Definition substr (s : bytes) (pos n : Z) : res bytes :=
  if Z.of_nat (length s) <? u64 pos then Throw (out_of_range "substr")
  else Ok (take (Z.to_nat (Z.min (u64 n) (Z.of_nat (length s)))) (drop (Z.to_nat (u64 pos)) s)).

Section Entry.
(** [std::stod], on the 8 bytes of a double. *)
Variable stod : bytes -> res bytes.

(** Returns the datum and the new value of [size]. *)
Definition Deserialize (info data : bytes) (size : Z) : res (TIO_DATA * Z) :=
  let type := default x00 (head info) in
  if bool_decide (type = x6e) then Ok (tiodata_set_as_none new_data, size)
  else
    size ← stoi (drop 1 info);
    fieldData ← substr data 0 size;
    td ← (if bool_decide (type = x73) then tiodata_set_string_and_size new_data (data ++ [x00]) (u32 size)
          else if bool_decide (type = x69) then i ← stoi fieldData; Ok (tiodata_set_int new_data i)
          else if bool_decide (type = x64) then d ← stod fieldData; Ok (tiodata_set_double new_data d)
          else Ok new_data);
    Ok (td, size).

(** The constructor. *)
Definition make_entry (line : bytes) : res LogEntry :=
  ends ← EndsWith line (lit ",n,");
  let line := if ends : bool then take (length line - 3) line else line in
  let entry := Split line x2c false in
  dateTime ← element entry 0;
  command ← element entry 1;
  handle ← element entry 2;
  handle ← stoi handle;
  keyInfo ← element entry 3;
  let rest := Join (drop 4 entry) x2c in
  '(key, size) ← Deserialize keyInfo rest 0;
  rest ← substr rest (size + 1) (Z.of_nat (length rest));
  let entry := Split rest x2c false in
  valueInfo ← element entry 0;
  let rest := Join (drop 1 entry) x2c in
  '(value, _) ← Deserialize valueInfo rest size;
  Ok (mkEntry line command handle dateTime key value).

End Entry.

(** ** [class TioLogParser] *)

(** [std::string(string_, string_size_)] *)
Definition data_string (td : TIO_DATA) : res bytes :=
  match string_ td with
  | Some blk => mem_read blk 0 (string_size_ td)
  | None => if string_size_ td =? 0 then Ok [] else Throw (Fault NullDeref)
  end.

Section Replay.
Context {S : Type} `{IContainerManager S}.
(** [TioScopedNetworkBatch] *)
Variables BeginBatch FinishBatch : M S unit.

(** The server the commands go to, and [containers_] with the handle of each. *)
Record TioLogParser := mkParser { cn_ : S; containers_ : gmap Z (option Z) }.

Definition on_cn {A} (m : M S A) : M TioLogParser A := fun s =>
  let '(r, x) := m (cn_ s) in (r, mkParser x (containers_ s)).

(** A method of [TioContainer] ends so. *)
Definition checked_call (m : M S Z) : M TioLogParser unit := on_cn (ret ← m; ThrowOnTioClientError ret).

Definition checked_pop (m : M S (Z * three)) : M S Z := '(ret, _) ← m; mret ret.

(** What [container->...] calls for a command; [None] for another word. *)
Definition replay_command (command : bytes) (h : option Z) (key value : TIO_DATA) : option (M S Z) :=
  let out := Some (tiodata_set_as_none new_data) in
  if bool_decide (command = lit "push_back") then Some (container_push_back h (Some key) (Some value) None)
  else if bool_decide (command = lit "push_front") then Some (container_push_front h (Some key) (Some value) None)
  else if bool_decide (command = lit "pop_back") then Some (checked_pop (container_pop_back h None out None))
  else if bool_decide (command = lit "pop_front") then Some (checked_pop (container_pop_front h None out None))
  else if bool_decide (command = lit "set") then Some (container_set h (Some key) (Some value) None)
  else if bool_decide (command = lit "insert") then Some (container_insert h (Some key) (Some value) None)
  else if bool_decide (command = lit "delete") then Some (container_delete h (Some key))
  else if bool_decide (command = lit "clear") then Some (container_clear h)
  else if bool_decide (command = lit "propset") then Some (container_propset h (Some key) (Some value))
  else None.

Definition OnLogEntry (log : LogEntry) : M TioLogParser bool :=
  if bool_decide (command_ log = lit "create") then
    key ← lift (data_string (key_ log));
    if StartsWith key (lit "__") then mret false
    else
      value ← lift (data_string (value_ log));
      '(result, h) ← on_cn (create_ (c_str key) (c_str value));
      _ ← on_cn (ThrowOnTioClientError result);
      _ ← modify (fun s => mkParser (cn_ s) (<[handle_ log := h]> (containers_ s)));
      mret true
  else if bool_decide (command_ log = lit "group_add") then
    key ← lift (data_string (key_ log));
    value ← lift (data_string (value_ log));
    _ ← on_cn (AddToGroup key value);
    mret true
  else
    s ← get;
    match containers_ s !! handle_ log with
    | None => throw (Fault EndDeref)
    | Some h =>
        match replay_command (command_ log) h (key_ log) (value_ log) with
        | None => mret false
        | Some m => _ ← checked_call m; mret true
        end
    end.

(** One entry of [localLogQueue]; [networkBatch] is whether there is a batch. *)
Definition publish (maxNetworkBatchMessages : Z) (log : LogEntry) (batchCount : Z) (networkBatch : bool) :
    M TioLogParser (Z * bool) :=
  let reset (b : bool) : M TioLogParser unit := if b then on_cn FinishBatch else mret tt in
  '(batchCount, networkBatch) ←
    (if bool_decide (command_ log = lit "create") || bool_decide (command_ log = lit "group_add")
     then _ ← reset networkBatch; mret (0, false)
     else if negb networkBatch then _ ← on_cn BeginBatch; mret (batchCount, true)
     else mret (batchCount, networkBatch));
  '(batchCount, networkBatch) ←
    (if batchCount =? maxNetworkBatchMessages then _ ← reset networkBatch; mret (0, false)
     else mret (batchCount, networkBatch));
  ret ← OnLogEntry log;
  mret (if ret : bool then i32 (batchCount + 1) else batchCount, networkBatch).

Fixpoint publish_entries (maxNetworkBatchMessages : Z) (logs : list LogEntry) (batchCount : Z) (networkBatch : bool) :
    M TioLogParser unit :=
  match logs with
  | [] => if networkBatch then on_cn FinishBatch else mret tt
  | log :: logs =>
      '(batchCount, networkBatch) ← publish maxNetworkBatchMessages log batchCount networkBatch;
      publish_entries maxNetworkBatchMessages logs batchCount networkBatch
  end.

(** [PublisherThread], on the contents of [logQueue_] each time it is taken. *)
Fixpoint PublisherThread (maxNetworkBatchMessages : Z) (queues : list (list LogEntry)) : M TioLogParser unit :=
  match queues with
  | [] => mret tt
  | q :: queues => _ ← publish_entries maxNetworkBatchMessages q 0 false; PublisherThread maxNetworkBatchMessages queues
  end.

End Replay.
Arguments TioLogParser : clear implicits.
Arguments mkParser {S}.
Arguments cn_ {S}.
Arguments containers_ {S}.

(** ** Reading the file *)

(** [std::getline] until the end: a last line without its newline counts when it
    is not empty. *)
Definition getlines (file : bytes) : list bytes :=
  let pieces := Containers.split x0a file in
  match last pieces with Some [] => removelast pieces | _ => pieces end.

(** The entries [Replay] puts into the queue. *)
Fixpoint read_entries (stod : bytes -> res bytes) (lines : list bytes) : res (list LogEntry) :=
  match lines with
  | [] => Ok []
  | line :: lines =>
      if bool_decide (line = [x0d]) || bool_decide (line = [x0a]) then read_entries stod lines
      else e ← make_entry stod line; es ← read_entries stod lines; Ok (e :: es)
  end.

End LogReplay.
