(* ===== verification/LogLines.v ===== *)
(** * Lines of the transaction log: written by the server, read by the replay

    What [LogEntry] of [tiologreplay.cpp] makes of the lines [LogMessage] of
    [BinaryProtocolLogger.h] writes: the same command, handle, key and value.
    Commas inside of the data do no harm, because the data is taken by its
    size; the metadata of a line is not read. *)
From S2P Require Import Prelude Decimal StdMap StreamBuffer Pr1Message Protocol TioDataC TioDataS Containers SessionMessages ClientCluster ContainerApi LogFile TransactionLog LogReplay.

Module LogLines.
Import Decimal Pr1 Protocol TioDataC TioData SessionMessages ClientCluster TransactionLog LogReplay.

(** ** Splitting and joining *)

Definition without (sep : Byte.byte) (s : bytes) : Prop := Forall (fun b => b <> sep) s.

Lemma split_last sep s : without sep s -> Containers.split sep s = [s].
Proof. induction 1 as [|b s Hb Hs IH]; [done|]. cbn. by rewrite decide_False, IH. Qed.

Lemma split_first sep s t : without sep s -> Containers.split sep (s ++ sep :: t) = s :: Containers.split sep t.
Proof. induction 1 as [|b s Hb Hs IH]; cbn; [by rewrite decide_True|]. by rewrite decide_False, IH. Qed.

Lemma split_nonempty sep s : Containers.split sep s <> [].
Proof. destruct s as [|b s]; [done|]. cbn. case_decide; [done|]. by destruct (Containers.split sep s). Qed.

Lemma join_split sep s : Join (Containers.split sep s) sep = s.
Proof.
  induction s as [|b s IH]; [done|]. cbn. pose proof (split_nonempty sep s). case_decide as E.
  - subst. destruct (Containers.split sep s) as [|w ws] eqn:Es; [done|]. change (sep :: Join (w :: ws) sep = sep :: s). by rewrite IH.
  - destruct (Containers.split sep s) as [|w ws] eqn:Es; [done|]. destruct ws; cbn in *; by rewrite IH.
Qed.

(** ** Numbers *)

Lemma digits_without sep ds : is_digit sep = false -> forallb is_digit ds = true -> without sep ds.
Proof.
  intros Hs. induction ds as [|b ds IH]; cbn; [by constructor|]. intros [Hb Hd]%andb_prop.
  constructor; [|by apply IH]. intros ->. congruence.
Qed.

Lemma leading_all ds : forallb is_digit ds = true -> leading_digits ds = ds.
Proof. induction ds as [|b ds IH]; [done|]. cbn. intros [Hb Hd]%andb_prop. by rewrite Hb, IH. Qed.

Lemma digit_plain b : is_digit b = true -> is_space b = false /\ b <> x2d /\ b <> x2b.
Proof.
  unfold is_digit, is_space. intros H. split; [|split; intros ->; done]. bool_to_prop.
  apply orb_false_intro; by ztest.
Qed.

Lemma stoi_nat n : 0 <= n <= INT_MAX -> stoi (print_nat n) = Ok n.
Proof.
  intros Hn. destruct (print_nat_spec n) as (Hne & Hd & Hv); [lia|]. unfold INT_MAX in Hn.
  destruct (print_nat n) as [|b t] eqn:Ep; [done|]. pose proof Hd as Hd'. cbn in Hd'. apply andb_prop in Hd' as [Hb _].
  destruct (digit_plain b Hb) as (Hs & H1 & H2). unfold stoi. cbn [skip_spaces]. rewrite Hs.
  assert (match b :: t with x2d :: t => (true, t) | x2b :: t => (false, t) | _ => (false, b :: t) end = (false, b :: t)) as ->
    by (destruct b; done).
  cbv beta iota. rewrite leading_all by done. rewrite bool_decide_eq_false_2 by done. rewrite Hv.
  unfold INT_MIN, INT_MAX. by ztest.
Qed.

Lemma stoi_int z : is_int z -> stoi (print_int z) = Ok z.
Proof.
  unfold is_int, INT_MIN, INT_MAX. intros H. unfold print_int. destruct (z <? 0) eqn:E; bool_to_prop.
  - destruct (print_nat_spec (- z)) as (Hne & Hd & Hv); [lia|]. unfold stoi. cbn [skip_spaces].
    change (is_space x2d) with false. cbv beta iota. rewrite leading_all by done. rewrite bool_decide_eq_false_2 by done.
    rewrite Hv. unfold INT_MIN, INT_MAX. ztest. f_equal. lia.
  - apply stoi_nat. unfold INT_MAX. lia.
Qed.

(** ** One datum *)

Section Lines.
Variable print_double : bytes -> bytes.
Variable stod : bytes -> res bytes.

(** Values a line can carry: sizes are [int]s, and a double is read back as what was
    printed. *)
Definition loggable (v : TioData) : Prop :=
  match v with
  | None_ => True
  | String s => Z.of_nat (length s) <= INT_MAX
  | Int i => is_int i
  | Double d => length d = 8%nat /\ stod (print_double d) = Ok d /\ Z.of_nat (length (print_double d)) <= INT_MAX
  end.

(** The two parts of a datum: its type with its size, and its text. *)
Definition text (v : TioData) : bytes :=
  match v with None_ => [] | String s => s | Int i => print_int i | Double d => print_double d end.

Definition info (v : TioData) : bytes :=
  match v with
  | None_ => lit "n"
  | String s => x73 :: print_nat (Z.of_nat (length s))
  | Int i => x69 :: print_nat (Z.of_nat (length (print_int i)))
  | Double d => x64 :: print_nat (Z.of_nat (length (print_double d)))
  end.

Lemma serialize_parts v : SerializeTioData print_double v = [x2c] ++ info v ++ [x2c] ++ text v.
Proof. destruct v; try done. Qed.

Lemma print_nat_without n : without x2c (print_nat (Z.of_nat n)).
Proof. apply digits_without; [done|]. apply print_nat_spec. lia. Qed.

Lemma info_without v : without x2c (info v).
Proof. destruct v; cbn; [by repeat constructor|constructor; [done|apply print_nat_without]..]. Qed.

Lemma print_nat_length n : 0 <= n < 2 ^ 32 -> (length (print_nat n) <= 32)%nat.
Proof.
  intros Hn. unfold print_nat.
  assert (forall f m acc, (length (digits_acc f m acc) <= f + length acc)%nat) as H.
  { induction f as [|f IH]; intros m acc; cbn; [lia|]. case_match; cbn; [lia|]. specialize (IH (m / 10) (digit (m mod 10) :: acc)). cbn in IH. lia. }
  specialize (H (S (Z.to_nat (Z.log2 n))) n []). cbn [length] in H.
  assert (Z.log2 n < 32). { destruct (decide (n = 0)) as [->|]; [done|]. apply Z.log2_lt_pow2; lia. } lia.
Qed.

Lemma print_int_length z : is_int z -> Z.of_nat (length (print_int z)) <= INT_MAX.
Proof.
  unfold is_int, INT_MIN, INT_MAX, print_int. intros H. case_match; bool_to_prop.
  - pose proof (print_nat_length (- z) ltac:(lia)). cbn [length]. lia.
  - pose proof (print_nat_length z ltac:(lia)). lia.
Qed.

Lemma text_size v : loggable v -> Z.of_nat (length (text v)) <= INT_MAX.
Proof. destruct v as [|i|d|s]; intros H; [done|by apply print_int_length|apply H|done]. Qed.

(** A string copied out of a longer block. *)
Lemma set_string_prefix td s rest :
  Z.of_nat (length s) < 2 ^ 32 - 1 ->
  exists td', tiodata_set_string_and_size td (s ++ rest) (Z.of_nat (length s)) = Ok td' /\ represents td' (VString s).
Proof.
  intros Hs. unfold tiodata_set_string_and_size. rewrite mem_read_ok by len. mrun.
  rewrite Z2Nat.inj_0, drop_0, Nat2Z.id, take_app_length. rewrite u32_small by lia.
  replace (Z.to_nat (Z.of_nat (length s) + 1)) with (length s + 1)%nat by lia.
  rewrite replicate_add, <- (app_nil_l (replicate (length s) x00 ++ _)).
  rewrite mem_write_seg by (try done; len). mrun. rewrite app_nil_l.
  rewrite <- (app_nil_r (s ++ _)), <- app_assoc, mem_write_seg by (try done; len). mrun.
  eexists; split; [done|]. by eapply rep_string; simpl.
Qed.

Lemma substr_prefix s rest :
  Z.of_nat (length s) <= INT_MAX -> substr (s ++ rest) 0 (Z.of_nat (length s)) = Ok s.
Proof.
  unfold INT_MAX. intros H. unfold substr. rewrite !u64_small by lia. ztest. f_equal.
  rewrite Z.min_l by len. rewrite Z2Nat.inj_0, drop_0, Nat2Z.id. apply take_app_length.
Qed.

Lemma Deserialize_spec v rest size :
  loggable v ->
  exists td, Deserialize stod (info v) (text v ++ rest) size =
      Ok (td, match v with None_ => size | _ => Z.of_nat (length (text v)) end) /\
    represents td (client_value v).
Proof.
  intros Hv. pose proof (text_size v Hv) as Ht. unfold Deserialize. destruct v as [|i|d|s].
  - exists (tiodata_set_as_none new_data). split; [done|]. by apply rep_none.
  - cbn [info head default drop text] in *. rewrite bool_decide_eq_false_2 by done. rewrite drop_0, stoi_nat by lia. mrun.
    rewrite substr_prefix by done. mrun. rewrite bool_decide_eq_false_2, bool_decide_eq_true_2 by done.
    rewrite stoi_int by done. mrun. eexists. split; [done|]. by apply rep_int.
  - cbn [info head default drop text] in *. destruct Hv as (Hl & Hp & _). rewrite bool_decide_eq_false_2 by done.
    rewrite drop_0, stoi_nat by lia. mrun. rewrite substr_prefix by done. mrun.
    rewrite !bool_decide_eq_false_2, bool_decide_eq_true_2 by done. rewrite Hp. mrun. eexists. split; [done|]. by apply rep_double.
  - cbn [info head default drop text] in *. rewrite bool_decide_eq_false_2 by done. rewrite drop_0, stoi_nat by lia. mrun.
    rewrite substr_prefix by done. mrun. rewrite bool_decide_eq_true_2 by done.
    unfold INT_MAX in Ht. rewrite u32_small, <- app_assoc by lia.
    destruct (set_string_prefix new_data s (rest ++ [x00])) as (td & -> & Hr); [lia|]. mrun. by exists td.
Qed.

(** ** One line *)

(** A line up to the value, then anything. *)
Definition line_of (time command : bytes) (handle : Z) (key value : TioData) (tail : bytes) : bytes :=
  time ++ [x2c] ++ command ++ [x2c] ++ print_nat handle ++ SerializeTioData print_double key ++
    SerializeTioData print_double value ++ tail.

Lemma substr_suffix a b n :
  Z.of_nat (length a) < 2 ^ 64 -> Z.of_nat (length (a ++ b)) <= n < 2 ^ 64 ->
  substr (a ++ b) (Z.of_nat (length a)) n = Ok b.
Proof.
  intros Ha Hn. unfold substr. rewrite !u64_small by lia. rewrite (proj2 (Z.ltb_ge _ _)) by len. f_equal.
  rewrite Nat2Z.id, drop_app_length. apply take_ge. rewrite Z.min_r by lia. len.
Qed.

(** What the constructor does once the end of the line has been looked at. *)
Lemma make_entry_line line ends time command handle key value tail :
  EndsWith line (lit ",n,") = Ok ends ->
  (if ends : bool then take (length line - 3) line else line) = line_of time command handle key value tail ->
  without x2c time -> without x2c command -> 0 <= handle <= INT_MAX -> loggable key -> loggable value ->
  Z.of_nat (length line) < 2 ^ 64 ->
  exists k v, make_entry stod line = Ok (mkEntry (line_of time command handle key value tail) command handle time k v) /\
    represents k (client_value key) /\ represents v (client_value value).
Proof.
  intros He Hl Ht Hc Hh Hk Hv Hlen. unfold make_entry. rewrite He. mrun. rewrite Hl.
  assert (Z.of_nat (length (line_of time command handle key value tail)) < 2 ^ 64) as Hlen'.
  { rewrite <- Hl. destruct ends; [rewrite length_take; lia|done]. }
  assert (without x2c (print_nat handle)) as Hp.
  { apply digits_without; [done|]. apply print_nat_spec. lia. }
  set (rest := text key ++ [x2c] ++ info value ++ [x2c] ++ text value ++ tail).
  assert (line_of time command handle key value tail =
    time ++ x2c :: command ++ x2c :: print_nat handle ++ x2c :: info key ++ x2c :: rest) as El.
  { unfold line_of, rest. rewrite !serialize_parts, <- !app_assoc. done. }
  rewrite El in Hlen' |- *. unfold Split.
  rewrite !split_first by (done || apply info_without). unfold element. cbn [lookup list_lookup]. mrun.
  rewrite stoi_nat by done. mrun. cbn [drop]. rewrite drop_0, join_split.
  assert (Z.of_nat (length rest) < 2 ^ 64) as Hr by (repeat (rewrite length_app in Hlen'; cbn [length] in Hlen'); lia).
  destruct (Deserialize_spec key ([x2c] ++ info value ++ [x2c] ++ text value ++ tail) 0 Hk) as (k & Ek & Rk).
  fold rest in Ek. rewrite Ek. mrun.
  pose proof (text_size key Hk) as Htk. unfold INT_MAX in Htk.
  assert (substr rest (match key with None_ => 0 | _ => Z.of_nat (length (text key)) end + 1) (Z.of_nat (length rest)) =
    Ok (info value ++ x2c :: text value ++ tail)) as Es.
  { replace (match key with None_ => 0 | _ => Z.of_nat (length (text key)) end) with (Z.of_nat (length (text key))) by by destruct key.
    replace (Z.of_nat (length (text key)) + 1) with (Z.of_nat (length (text key ++ [x2c]))) by len.
    assert (rest = (text key ++ [x2c]) ++ info value ++ x2c :: text value ++ tail) as -> by (unfold rest; by rewrite <- !app_assoc).
    apply substr_suffix; [len|]. split; [lia|exact Hr]. }
  rewrite Es. mrun. rewrite split_first by apply info_without. cbn [lookup list_lookup]. mrun. cbn [drop]. rewrite drop_0, join_split.
  edestruct (Deserialize_spec value tail) as (v & Ev & Rv); [done|]. rewrite Ev. mrun. by exists k, v.
Qed.

Lemma equal_from_ok suffix : forall s, (length suffix <= length s)%nat -> exists b, equal_from suffix s = Ok b.
Proof.
  induction suffix as [|x suffix IH]; intros [|y s] Hl; cbn in *; [by eexists..|lia|].
  case_bool_decide; [apply IH; lia|by eexists].
Qed.

Lemma ends_with_ok s : (3 <= length s)%nat -> exists b, EndsWith s (lit ",n,") = Ok b.
Proof. intros H. apply equal_from_ok. rewrite !length_rev. exact H. Qed.

Lemma equal_from_app s t : equal_from s (s ++ t) = Ok true.
Proof. induction s as [|x s IH]; [done|]. cbn. by rewrite bool_decide_eq_true_2. Qed.

Lemma ends_with_app s t : EndsWith (s ++ t) t = Ok true.
Proof. unfold EndsWith. rewrite rev_app_distr. apply equal_from_app. Qed.

(** The metadata has no part in what is read. *)
Lemma data_line_entry time command handle key value metadata :
  let line := line_of time command handle key value (SerializeTioData print_double metadata) in
  without x2c time -> without x2c command -> 0 <= handle <= INT_MAX -> loggable key -> loggable value ->
  Z.of_nat (length line) < 2 ^ 64 ->
  exists e, make_entry stod line = Ok e /\ command_ e = command /\ handle_ e = handle /\ dateTime_ e = time /\
    represents (key_ e) (client_value key) /\ represents (value_ e) (client_value value).
Proof.
  intros line Ht Hc Hh Hk Hv Hlen.
  set (ser := SerializeTioData print_double metadata) in *.
  assert (3 <= length ser)%nat as H3.
  { unfold ser. rewrite serialize_parts. destruct metadata; len. }
  destruct (ends_with_ok line) as [ends He]; [unfold line, line_of; len|].
  destruct (make_entry_line line ends time command handle key value (if ends then take (length ser - 3) ser else ser))
    as (k & v & E & Rk & Rv); try done.
  - destruct ends; [|done]. unfold line, line_of. rewrite !app_assoc. rewrite take_app, take_ge by len.
    f_equal. f_equal. len.
  - eexists. split; [exact E|]. done.
Qed.

(** ** Messages and their lines *)

(** What a message tells of a container: two names, or a command with its data. *)
Inductive event :=
| Named (word a b : bytes)
| Change (word : bytes) (key value metadata : TioData).

Inductive says (name type : bytes) (message : PR1_MESSAGE) : event -> Prop :=
| says_create command :
    Pr1MessageGetField_int message MESSAGE_FIELD_ID_COMMAND = Ok (Some command) ->
    command = TIO_COMMAND_CREATE \/ command = TIO_COMMAND_OPEN ->
    says name type message (Named (lit "create") name type)
| says_group group container :
    Pr1MessageGetField_int message MESSAGE_FIELD_ID_COMMAND = Ok (Some TIO_COMMAND_GROUP_ADD) ->
    Pr1MessageGetField_string message MESSAGE_FIELD_ID_GROUP_NAME = Ok (Some group) ->
    Pr1MessageGetField_string message MESSAGE_FIELD_ID_CONTAINER_NAME = Ok (Some container) ->
    says name type message (Named (lit "group_add") group container)
| says_change command word handle key value metadata :
    Pr1MessageGetField_int message MESSAGE_FIELD_ID_COMMAND = Ok (Some command) ->
    command_name command = Some (x2c :: word) ->
    Pr1MessageGetHandleKeyValueAndMetadata message (Some None_) (Some None_) (Some None_) =
      Ok (handle, (Some key, Some value, Some metadata)) ->
    says name type message (Change word key value metadata).

(** Without its newline. *)
Definition event_line (time : bytes) (handle : Z) (ev : event) : bytes :=
  match ev with
  | Named word a b => line_of time word handle (String a) (String b) []
  | Change word key value metadata => line_of time word handle key value (SerializeTioData print_double metadata)
  end.

Definition handle_of (name : bytes) (s : BinaryProtocolLogger) : Z := default 0 (StdMap.find name (globalContainerHandle_ s)).

Lemma command_name_spec command word :
  command_name command = Some word ->
  command <> TIO_COMMAND_CREATE /\ command <> TIO_COMMAND_OPEN /\ command <> TIO_COMMAND_GROUP_ADD /\
  exists w, word = x2c :: w /\ without x2c w /\ without x0a w.
Proof.
  unfold command_name. repeat (case_match; bool_to_prop; [subst; intros [= <-]; split_and!; [done..|];
    eexists; split; [reflexivity|by split; repeat constructor]|]). done.
Qed.

(** The handle a message is logged under, and the state it leaves. *)
Definition handle_after (name : bytes) (opens : bool) (s : BinaryProtocolLogger) : BinaryProtocolLogger :=
  let new := (handle_of name s =? 0) && opens in
  let last := if new then i32 (lastGlobalHandle_ s + 1) else lastGlobalHandle_ s in
  set_handles (StdMap.assign_at name (if new then u32 last else handle_of name s) (globalContainerHandle_ s)) last s.

Lemma handle_of_after name opens s :
  handle_of name (handle_after name opens s) =
    if (handle_of name s =? 0) && opens
    then u32 (if (handle_of name s =? 0) && opens then i32 (lastGlobalHandle_ s + 1) else lastGlobalHandle_ s)
    else handle_of name s.
Proof. unfold handle_after at 1, handle_of at 1. cbn. by rewrite StdMap.find_assign, decide_True. Qed.

Lemma LogMessage_line name type message s r s' ev :
  LogMessage print_double name type message s = (Ok r, s') -> says name type message ev ->
  (r = None /\ LogFile.file_IsValid (f_ s) = false /\ s' = s) \/
  exists time opens, timeString_ s = Some time /\ s' = handle_after name opens s /\
    r = if opens && negb (handle_of name s =? 0) then None
        else Some (event_line time (handle_of name s') ev ++ [x0a]).
Proof.
  intros E Hs. unfold LogMessage in E. rewrite bind_get in E.
  destruct (LogFile.file_IsValid (f_ s)) eqn:Ef; cbn [negb] in E; [|by injection E as <- <-; left].
  right. assert (exists command, Pr1MessageGetField_int message MESSAGE_FIELD_ID_COMMAND = Ok (Some command)) as [command Ec]
    by (destruct Hs; eauto).
  rewrite (bind_lift_ok _ _ _ _ Ec) in E. cbv beta iota zeta in E. rewrite bind_modify in E.
  destruct (timeString_ s) as [time|] eqn:Et; [|done]. rewrite (bind_lift_ok _ _ _ _ eq_refl) in E.
  exists time, ((command =? TIO_COMMAND_CREATE) || (command =? TIO_COMMAND_OPEN)). split; [done|].
  fold (handle_of name s) in E.
  fold (handle_after name ((command =? TIO_COMMAND_CREATE) || (command =? TIO_COMMAND_OPEN)) s) in E.
  rewrite <- handle_of_after in E.
  destruct Hs as [command' Ec' Hc|group container Ec' Eg Eco|command' word handle key value metadata Ec' Hw Ed];
    rewrite Ec in Ec'; injection Ec' as E'; symmetry in E'; subst.
  - assert ((command =? TIO_COMMAND_CREATE) || (command =? TIO_COMMAND_OPEN) = true) as Eo by (destruct Hc; by subst).
    rewrite Eo in E |- *. injection E as <- <-. split; [done|].
    destruct (handle_of name s =? 0); [|done]. unfold event_line, line_of, create_line. by rewrite app_nil_r, <- !app_assoc.
  - change (TIO_COMMAND_GROUP_ADD =? TIO_COMMAND_CREATE) with false in *. change (TIO_COMMAND_GROUP_ADD =? TIO_COMMAND_OPEN) with false in *.
    rewrite Z.eqb_refl in E. cbn [orb andb] in *. rewrite (bind_lift_ok _ _ _ _ Eg), (bind_lift_ok _ _ _ _ Eco) in E. injection E as <- <-. split; [done|].
    unfold event_line, line_of, group_line. by rewrite app_nil_r, <- !app_assoc.
  - destruct (command_name_spec _ _ Hw) as (N1&N2&N3&_).
    rewrite (proj2 (Z.eqb_neq command TIO_COMMAND_CREATE)), (proj2 (Z.eqb_neq command TIO_COMMAND_OPEN)) in E |- * by done.
    rewrite (proj2 (Z.eqb_neq command TIO_COMMAND_GROUP_ADD)) in E by done. cbn [orb andb] in *. rewrite Hw in E. unfold log_data in E. rewrite Ed in E.
    injection E as <- <-. split; [done|].
    unfold event_line, data_line, line_of. by rewrite <- !app_assoc.
Qed.

(** ** The lines of a file *)

(** The life of a logger: the time of day passes, messages are logged or not.  The items
    are the time, the handle and the event of each line. *)
Inductive logs : BinaryProtocolLogger -> list (bytes * Z * event) -> list bytes -> BinaryProtocolLogger -> Prop :=
| logs_nil s : logs s [] [] s
| logs_time s now items lines s' : logs (UpdateTime now s) items lines s' -> logs s items lines s'
| logs_nothing s name type message r s1 items lines s' :
    LogMessage print_double name type message s = (r, s1) -> (forall line, r <> Ok (Some line)) ->
    logs s1 items lines s' -> logs s items lines s'
| logs_line s name type message ev line time s1 items lines s' :
    LogMessage print_double name type message s = (Ok (Some line), s1) -> says name type message ev ->
    timeString_ s = Some time -> logs s1 items lines s' ->
    logs s ((time, handle_of name s1, ev) :: items) (line :: lines) s'.

(** Word, key and value. *)
Definition event_word (ev : event) : bytes := match ev with Named word _ _ => word | Change word _ _ _ => word end.
Definition event_key (ev : event) : TioData := match ev with Named _ a _ => String a | Change _ key _ _ => key end.
Definition event_value (ev : event) : TioData := match ev with Named _ _ b => String b | Change _ _ value _ => value end.

(** What the format can carry: texts without newlines, handles that are [int]s, and no
    comma in the last of two names. *)
Definition clean (item : bytes * Z * event) : Prop :=
  let '(time, handle, ev) := item in
  without x2c time /\ without x0a time /\ 0 <= handle <= INT_MAX /\
  loggable (event_key ev) /\ loggable (event_value ev) /\
  without x0a (text (event_key ev)) /\ without x0a (text (event_value ev)) /\
  match ev with
  | Named _ _ b => without x2c b
  | Change _ _ _ metadata => without x0a (text metadata)
  end.

(** What is read back. *)
Definition reads (item : bytes * Z * event) (e : LogEntry) : Prop :=
  let '(time, handle, ev) := item in
  dateTime_ e = time /\ handle_ e = handle /\ command_ e = event_word ev /\
  represents (key_ e) (client_value (event_key ev)) /\ represents (value_ e) (client_value (event_value ev)).

Lemma says_word name type message ev :
  says name type message ev -> without x2c (event_word ev) /\ without x0a (event_word ev).
Proof.
  intros [| |command word ? ? ? ? _ Hw _]; [by split; repeat constructor..|].
  destruct (command_name_spec _ _ Hw) as (_&_&_&w&[= <-]&H). done.
Qed.

Lemma without_app sep a b : without sep (a ++ b) <-> without sep a /\ without sep b.
Proof. apply Forall_app. Qed.

Lemma serialize_without v : without x0a (text v) -> without x0a (SerializeTioData print_double v).
Proof.
  intros H. rewrite serialize_parts, !without_app.
  assert (forall n, without x0a (print_nat (Z.of_nat n))) as Hn
    by (intros n; apply digits_without; [done|]; apply print_nat_spec; lia).
  repeat split; [by repeat constructor| |by repeat constructor|done].
  destruct v; cbn; (constructor; [done|]); [by constructor|apply Hn..].
Qed.

Lemma event_line_without time handle ev :
  clean (time, handle, ev) -> without x0a (event_word ev) -> without x0a (event_line time handle ev).
Proof.
  intros (_ & Ht & Hh & _ & _ & Hk & Hv & Hm) Hw.
  assert (without x0a (print_nat handle)) by (apply digits_without; [done|]; apply print_nat_spec; lia).
  assert (without x0a [x2c]) by by repeat constructor.
  destruct ev; unfold event_line, line_of; rewrite !without_app; split_and!; try done;
    try (by apply serialize_without); by constructor.
Qed.

(** Two names: the line does not end as one with empty metadata. *)
Lemma named_ends a d b : d <> x6e -> without x2c b -> EndsWith (a ++ [d; x2c] ++ b) (lit ",n,") = Ok false.
Proof.
  intros Hd Hb. unfold EndsWith. rewrite !rev_app_distr. change (rev (lit ",n,")) with [x2c; x6e; x2c].
  apply Forall_rev in Hb. destruct (rev b) as [|y r]; cbn.
  - by rewrite bool_decide_eq_true_2, bool_decide_eq_false_2.
  - inversion Hb. by rewrite bool_decide_eq_false_2.
Qed.

Lemma named_line time word handle a b :
  exists front d, d <> x6e /\ line_of time word handle (String a) (String b) [] = front ++ [d; x2c] ++ b.
Proof.
  destruct (print_nat_spec (Z.of_nat (length b))) as (Hne & Hd & _); [lia|].
  destruct (exists_last Hne) as (ds & d & Ed).
  exists (time ++ [x2c] ++ word ++ [x2c] ++ print_nat handle ++ SerializeTioData print_double (String a) ++ lit ",s" ++ ds), d.
  split.
  - intros ->. rewrite Ed, forallb_app in Hd. apply andb_prop in Hd as [_ Hd]. done.
  - unfold line_of, SerializeTioData, sized. rewrite Ed, app_nil_r, <- !app_assoc. done.
Qed.

Lemma event_entry time handle ev :
  clean (time, handle, ev) -> without x2c (event_word ev) -> Z.of_nat (length (event_line time handle ev)) < 2 ^ 64 ->
  exists e, make_entry stod (event_line time handle ev) = Ok e /\ reads (time, handle, ev) e.
Proof.
  intros (Ht & _ & Hh & Hk & Hv & _ & _ & Hm) Hw Hl. destruct ev as [word a b|word key value metadata].
  - destruct (make_entry_line (line_of time word handle (String a) (String b) []) false time word handle (String a) (String b) [])
      as (k & v & E & Rk & Rv); try done; [|by eexists].
    destruct (named_line time word handle a b) as (front & d & Hd & ->). by apply named_ends.
  - destruct (data_line_entry time word handle key value metadata) as (e & E & H1 & H2 & H3 & H4); try done.
    exists e. by split_and!.
Qed.

Lemma getlines_concat bodies :
  Forall (without x0a) bodies -> getlines (concat (map (fun b => b ++ [x0a]) bodies)) = bodies.
Proof.
  intros H.
  assert (Containers.split x0a (concat (map (fun b => b ++ [x0a]) bodies)) = bodies ++ [[]]) as E.
  { induction H as [|b bodies Hb H IH]; [done|]. cbn. rewrite <- app_assoc. cbn. by rewrite split_first, IH. }
  unfold getlines. rewrite E, last_snoc. apply removelast_last.
Qed.

(** A line of an event has commas, so it is not skipped as an empty one. *)
Lemma event_line_kept time handle ev :
  bool_decide (event_line time handle ev = [x0d]) || bool_decide (event_line time handle ev = [x0a]) = false.
Proof.
  assert (exists u v w, event_line time handle ev = u ++ [x2c] ++ v ++ [x2c] ++ w) as (u & v & w & ->).
  { destruct ev; by eexists _, _, _. }
  apply orb_false_intro; apply bool_decide_eq_false_2; intros E%(f_equal length); len.
Qed.

(** The lines are the lines of the items. *)
Lemma logs_lines s items lines s' :
  logs s items lines s' ->
  lines = map (fun b => b ++ [x0a]) (map (fun '(time, handle, ev) => event_line time handle ev) items) /\
  Forall (fun '(_, _, ev) => without x2c (event_word ev) /\ without x0a (event_word ev)) items.
Proof.
  induction 1 as [|? ? ? ? ? _ IH|? ? ? ? ? ? ? ? ? _ _ _ IH|s name type message ev line time s1 items lines s' E Hs Ht _ [IH1 IH2]];
    [done..|].
  destruct (LogMessage_line _ _ _ _ _ _ _ E Hs) as [[? _]|(time' & opens & Ht' & Es & El)]; [done|].
  rewrite Ht in Ht'. injection Ht' as <-. split.
  - cbn. rewrite IH1. f_equal. destruct (opens && _); [done|]. by injection El.
  - constructor; [|done]. by eapply says_word.
Qed.

(** Each item is read back. *)
Lemma log_file_entries s items lines s' :
  logs s items lines s' -> Forall clean items -> Forall (fun l => Z.of_nat (length l) < 2 ^ 64) lines ->
  exists es, read_entries stod (getlines (concat lines)) = Ok es /\ Forall2 reads items es.
Proof.
  intros H Hc Hl. destruct (logs_lines _ _ _ _ H) as [-> Hw]. clear H. rewrite getlines_concat.
  2: { apply Forall_map. apply Forall_forall. intros [[time handle] ev] Hin. rewrite Forall_forall in Hc, Hw.
       apply event_line_without; [by apply Hc|]. by apply (Hw _ Hin). }
  induction Hc as [|[[time handle] ev] items Hi Hc IH]; [by eexists|].
  apply Forall_cons in Hw as [[Hw1 _] Hw]. apply Forall_cons in Hl as [Hl1 Hl]. destruct (IH Hl Hw) as (es & Es & Hes).
  destruct (event_entry time handle ev) as (e & Ee & He); [done..|len|]. cbn [map read_entries].
  rewrite event_line_kept, Ee. mrun. rewrite Es. mrun. by exists (e :: es); split; [|constructor].
Qed.


End Lines.
(** ** A small log *)

(** A message with a command and its data, as it is parsed when it comes from a client. *)
Definition command_message (command : Z) (key value : option TioData) : res PR1_MESSAGE :=
  m ← Pr1CreateMessage;
  m ← Pr1MessageAddField_int m MESSAGE_FIELD_ID_COMMAND command;
  m ← Pr1MessageAddFields m key value None;
  m ← pr1_message_fill_header_info m 0;
  pr1_message_parse m.

Lemma logs_here print_double s name type message ev line time handle items lines s' :
  (LogMessage print_double name type message s).1 = Ok (Some line) -> says name type message ev ->
  timeString_ s = Some time -> handle_of name (LogMessage print_double name type message s).2 = handle ->
  logs print_double (LogMessage print_double name type message s).2 items lines s' ->
  logs print_double s ((time, handle, ev) :: items) (line :: lines) s'.
Proof. intros E Hs Ht <- H. eapply logs_line; [|done..]. rewrite <- E. by destruct (LogMessage _ _ _ _ _). Qed.


End LogLines.
