(* ===== verification/SameValues.v ===== *)
(** * Storages with the same keys and values

    Two storages are [alike] when they are of one kind and hold the same keys
    and values, whatever their metadata.  A command that succeeds on one
    succeeds on the other when it is given without its metadata, as a replay of
    the transaction log gives it, and leaves them alike. *)
From S2P Require Import Prelude StdMap TioDataS Containers ListStorage MapStorage VectorStorage MemoryStorage ContainerManager.

Module SameValues.
Import StdMap TioData Containers.
#[local] Existing Instances MemoryStorage.any_storage.

(** ** Commands without metadata *)

(** What a replay does for a command: no metadata, the popped key not asked for. *)
Definition bare {S} `{ITioStorage S} (o : op) : M S unit :=
  match o with
  | OpPushBack k v _ => PushBack k v TIONULL
  | OpPushFront k v _ => PushFront k v TIONULL
  | OpPopBack _ _ _ => _ ← PopBack None (Some None_) None; mret tt
  | OpPopFront _ _ _ => _ ← PopFront None (Some None_) None; mret tt
  | OpSet k v _ => Set_ k v TIONULL
  | OpInsert k v _ => Insert k v TIONULL
  | OpDelete k _ _ => Delete k TIONULL TIONULL
  | OpClear => Clear
  | OpGet k => _ ← GetRecord k (Some None_) (Some None_) (Some None_); mret tt
  | OpQuery a b => _ ← Query a b None_; mret tt
  end.

Definition bare_op (o : op) : op :=
  match o with
  | OpPushBack k v _ => OpPushBack k v TIONULL
  | OpPushFront k v _ => OpPushFront k v TIONULL
  | OpSet k v _ => OpSet k v TIONULL
  | OpInsert k v _ => OpInsert k v TIONULL
  | OpDelete k _ _ => OpDelete k TIONULL TIONULL
  | _ => o
  end.

Definition is_pop (o : op) : bool := match o with OpPopBack _ _ _ | OpPopFront _ _ _ => true | _ => false end.

Lemma bare_run {S} `{ITioStorage S} o : is_pop o = false -> bare o = run_op (bare_op o).
Proof. by destruct o. Qed.

Lemma bare_ok o : op_ok o -> op_ok (bare_op o).
Proof. by destruct o. Qed.

(** ** Lists of records *)

Section Records.
Notation values d := (value <$> (d : list ValueAndMetadata)).

Lemma values_length d e : values d = values e -> length d = length e.
Proof. intros H%(f_equal length). len. Qed.

Lemma values_position d e k : values d = values e -> ListStorage.position d k = ListStorage.position e k.
Proof. intros H. unfold ListStorage.position. by rewrite (values_length _ _ H). Qed.

Lemma values_insert_position d e k : values d = values e -> ListStorage.insert_position d k = ListStorage.insert_position e k.
Proof. intros H. unfold ListStorage.insert_position. by rewrite (values_length _ _ H), (values_position _ _ k H). Qed.

Lemma values_removelast d : values (removelast d) = removelast (values d).
Proof. induction d as [|x [|y d] IH]; [done|done|]. cbn in *. by rewrite IH. Qed.

Lemma values_delete i d : values (delete i d) = delete i (values d).
Proof. revert i. induction d as [|x d IH]; intros [|i]; cbn; [done..|]. by rewrite IH. Qed.

Lemma values_insert_at i x d : values (ListStorage.insert_at i x d) = take i (values d) ++ [value x] ++ drop i (values d).
Proof. unfold ListStorage.insert_at. rewrite !fmap_app, fmap_take, fmap_drop. done. Qed.

(** *** Lists *)

Lemma list_spec_values o d e d' :
  ListStorage.spec o d = Some d' -> values d = values e ->
  exists e', ListStorage.spec (bare_op o) e = Some e' /\ values d' = values e'.
Proof.
  intros Hs Hv. pose proof (values_length _ _ Hv) as Hl.
  destruct o as [k v m|k v m|k v m|k v m|k v m|k v m|k v m| |k|a b]; cbn [ListStorage.spec bare_op] in *.
  - case_match; [|done]. simplify_eq. eexists. split; [done|]. rewrite !fmap_app, Hv. done.
  - case_match; [|done]. simplify_eq. eexists. split; [done|]. cbn. by rewrite Hv.
  - assert (d' = removelast d) as -> by (destruct d; congruence). exists (removelast e).
    split; [destruct d, e; done|]. by rewrite !values_removelast, Hv.
  - destruct d as [|x d], e as [|y e]; try done. injection Hs as <-. eexists. split; [done|]. by injection Hv.
  - rewrite <- (values_position _ _ k Hv). apply bind_Some in Hs as (i & Hi & (x & Hx & [= <-])%bind_Some).
    rewrite Hi. cbn. assert (value <$> e !! i = Some (value x)) as (y & Hy & Ey)%fmap_Some.
    { by rewrite <- list_lookup_fmap, <- Hv, list_lookup_fmap, Hx. }
    rewrite Hy. eexists. split; [done|]. rewrite !list_fmap_insert, Hv. cbn. by rewrite Ey.
  - rewrite <- (values_insert_position _ _ k Hv). apply bind_Some in Hs as (i & Hi & [= <-]). rewrite Hi. eexists. split; [done|].
    by rewrite !values_insert_at, Hv.
  - rewrite <- (values_position _ _ k Hv). apply bind_Some in Hs as (i & Hi & [= <-]). rewrite Hi. eexists. split; [done|].
    by rewrite !values_delete, Hv.
  - simplify_eq. by eexists.
  - rewrite <- (values_position _ _ k Hv). apply bind_Some in Hs as (i & Hi & [= <-]). rewrite Hi. by eexists.
  - simplify_eq. by eexists.
Qed.

(** *** Vectors *)

Lemma vector_spec_values o d e d' :
  VectorStorage.spec o d = Some d' -> values d = values e ->
  exists e', VectorStorage.spec (bare_op o) e = Some e' /\ values d' = values e'.
Proof.
  intros Hs Hv. unfold VectorStorage.spec, VectorStorage.position, VectorStorage.record in *.
  destruct o as [k v m|k v m|k v m|k v m|k v m|k v m|k v m| |k|a b]; cbn [bare_op] in *.
  - case_match; [done|]. simplify_eq. eexists. split; [done|]. rewrite !fmap_app, Hv. done.
  - case_match; [done|]. simplify_eq. eexists. split; [done|]. cbn. by rewrite Hv.
  - assert (d' = removelast d) as -> by (destruct d; congruence). exists (removelast e).
    split; [destruct d, e; done|]. by rewrite !values_removelast, Hv.
  - destruct d as [|x d], e as [|y e]; try done. injection Hs as <-. eexists. split; [done|]. by injection Hv.
  - case_match; [done|]. rewrite <- (values_position _ _ k Hv). apply bind_Some in Hs as (i & Hi & [= <-]). rewrite Hi.
    eexists. split; [done|]. by rewrite !list_fmap_insert, Hv.
  - case_match; [done|]. rewrite <- (values_position _ _ k Hv). apply bind_Some in Hs as (i & Hi & [= <-]). rewrite Hi.
    eexists. split; [done|]. by rewrite !values_insert_at, Hv.
  - rewrite <- (values_position _ _ k Hv). apply bind_Some in Hs as (i & Hi & [= <-]). rewrite Hi. eexists. split; [done|].
    by rewrite !values_delete, Hv.
  - simplify_eq. by eexists.
  - rewrite <- (values_position _ _ k Hv). apply bind_Some in Hs as (i & Hi & [= <-]). rewrite Hi. by eexists.
  - simplify_eq. by eexists.
Qed.

(** ** Running bare commands *)

(** A specified command is not one of the faults. *)
Lemma list_not_faulty o d d' : Z.of_nat (length d) < 2 ^ 31 -> ListStorage.spec o d = Some d' -> ~ ListStorage.faulty o d.
Proof.
  intros Hl Hs Hf.
  assert (ListStorage.position d (Int INT_MIN) = None) as Hmin.
  { unfold ListStorage.position, python_index, INT_MIN. by ztest. }
  assert (ListStorage.insert_position d (Int INT_MIN) = None) as Hmin'.
  { unfold ListStorage.insert_position. rewrite Hmin. unfold INT_MIN. by ztest. }
  assert (ListStorage.position [] (Int 0) = None) as H0 by done.
  destruct o; cbn [ListStorage.faulty ListStorage.spec] in *; try done.
  - destruct Hf as [[-> ->]| ->]; rewrite ?H0, ?Hmin in Hs; done.
  - subst. by rewrite Hmin' in Hs.
  - subst. by rewrite Hmin in Hs.
  - destruct Hf as [[-> ->]| ->]; rewrite ?H0, ?Hmin in Hs; done.
Qed.

(** Pops that ask for the value only. *)
Lemma list_pop_back_run (s : ListStorage.t) x :
  last (data_ s) = Some x -> exists e, ListStorage.PopBack None (Some None_) None s =
    (Ok (None, Some (value x), None), ListStorage.after (removelast (data_ s)) e s).
Proof. intros E. unfold ListStorage.PopBack. rewrite bind_get, E. cbn zeta. rewrite ListStorage.publish_then. by eexists. Qed.

Lemma list_pop_front_run (s : ListStorage.t) x d :
  data_ s = x :: d -> exists e, ListStorage.PopFront None (Some None_) None s =
    (Ok (None, Some (value x), None), ListStorage.after d e s).
Proof. intros E. unfold ListStorage.PopFront. rewrite bind_get, E, ListStorage.publish_then. by eexists. Qed.

Lemma vector_pop_front_run (s : VectorStorage.t) x d :
  VectorStorage.wf s -> data_ s = x :: d -> exists e, VectorStorage.PopFront None (Some None_) None s =
    (Ok (None, Some (value x), None), VectorStorage.after d e s).
Proof.
  intros Hw E. unfold VectorStorage.PopFront. rewrite bind_get, bool_decide_false by by rewrite E.
  mstep (VectorStorage.pop_run 0 (Some None_) None x s Hw ltac:(by rewrite E)). rewrite E. cbn iota beta.
  erewrite bind_ok; [|by apply VectorStorage.vector_publish_ok]. by eexists.
Qed.

Lemma list_bare o (s : ListStorage.t) d :
  ListStorage.small s -> op_ok o -> ListStorage.spec (bare_op o) (data_ s) = Some d ->
  exists s', bare (H := ListStorage.list_storage) o s = (Ok tt, s') /\ data_ s' = d.
Proof.
  intros Hs Ho Hd. destruct (is_pop o) eqn:Ep.
  - destruct o; try done; cbn [bare bare_op PopBack PopFront ListStorage.list_storage ListStorage.spec] in *.
    + destruct (last (data_ s)) as [x|] eqn:E; [|apply last_None in E; by rewrite E in Hd].
      assert (d = removelast (data_ s)) as -> by (destruct (data_ s); congruence).
      destruct (list_pop_back_run s x E) as (e & Er). mstep Er. eexists. split; [done|]. apply ListStorage.data_after.
    + destruct (data_ s) as [|x l] eqn:E; [done|]. injection Hd as <-.
      destruct (list_pop_front_run s x l E) as (e & Er). mstep Er. eexists. split; [done|]. apply ListStorage.data_after.
  - rewrite bare_run by done. pose proof (ListStorage.run_op_outcome (bare_op o) s Hs (bare_ok o Ho)) as H.
    destruct (run_op _ s) as [r s']. cbn in H. exists s'.
    inversion H as [d1 e H1 _|H1|e H1 _|f s1 H1]; subst.
    + split; [done|]. rewrite ListStorage.data_after. congruence.
    + split; [done|]. congruence.
    + congruence.
    + by destruct (list_not_faulty _ _ _ Hs Hd).
Qed.

Lemma vector_min o (s s' : VectorStorage.t) : run_op (H := VectorStorage.vector_storage) o s = (Ok tt, s') -> ~ VectorStorage.int_min_key o.
Proof.
  intros E Hm.
  assert (forall d : list ValueAndMetadata, VectorStorage.GetRecordNumber_key d (Int INT_MIN) = Throw (Fault SignedOverflow)) as Hn by done.
  destruct o; try done; cbn in Hm; subst; revert E;
    cbn [run_op Set_ Insert Delete GetRecord VectorStorage.vector_storage];
    unfold VectorStorage.Set_, VectorStorage.Insert, VectorStorage.Delete, VectorStorage.GetRecord, VectorStorage.CheckValue, require,
      VectorStorage.GetInternalRecord, with_lock, mbind, M_bind, res_bind, get, lift;
    rewrite ?Hn; by repeat (case_match; simplify_eq/=).
Qed.

Lemma vector_bare o (s : VectorStorage.t) d :
  VectorStorage.wf s -> VectorStorage.small s -> op_ok o -> ~ VectorStorage.int_min_key o ->
  VectorStorage.deadlocks o (data_ s) = false -> VectorStorage.spec (bare_op o) (data_ s) = Some d ->
  exists s', bare (H := VectorStorage.vector_storage) o s = (Ok tt, s') /\ data_ s' = d.
Proof.
  intros Hw Hs Ho Hm Hl Hd. destruct (is_pop o) eqn:Ep.
  - destruct o; try done; cbn [bare bare_op PopBack PopFront VectorStorage.vector_storage VectorStorage.spec] in *.
    + destruct (last (data_ s)) as [x|] eqn:E; [|apply last_None in E; by rewrite E in Hd].
      mstep (VectorStorage.pop_back_run None (Some None_) None x s Hw E). eexists. split; [done|].
      rewrite VectorStorage.vector_data_after, <- ListStorage.removelast_delete by (by intros E'; rewrite E' in E).
      destruct (data_ s); congruence.
    + destruct (data_ s) as [|x l] eqn:E; [done|]. injection Hd as <-.
      destruct (vector_pop_front_run s x l Hw E) as (e & Er).
      mstep Er. eexists. split; [done|]. apply VectorStorage.vector_data_after.
  - rewrite bare_run by done.
    pose proof (VectorStorage.vector_run_op_outcome (bare_op o) s Hw Hs (bare_ok o Ho) ltac:(by destruct o)) as H.
    assert (VectorStorage.deadlocks (bare_op o) (data_ s) = false) as Hl' by by destruct o.
    destruct (run_op _ s) as [r s']. cbn in H. exists s'.
    inversion H as [d1 e _ H1 _|_ H1|e _ H1 _|s1 H1]; subst.
    + split; [done|]. rewrite VectorStorage.vector_data_after. congruence.
    + split; [done|]. congruence.
    + congruence.
    + congruence.
Qed.

End Records.

(** *** Maps *)

Lemma map_spec_values (o : op) (m n m' : gmap bytes ValueAndMetadata) :
  MapStorage.spec o m = Some m' -> value <$> m = value <$> n ->
  exists n', MapStorage.spec (bare_op o) n = Some n' /\ value <$> m' = value <$> n'.
Proof.
  intros Hs Hv.
  assert (forall k, is_Some (m !! k) <-> is_Some (n !! k)) as Hk.
  { intros k. rewrite <- (fmap_is_Some value (m !! k)), <- (fmap_is_Some value (n !! k)), <- !lookup_fmap. by rewrite Hv. }
  assert (size m = size n) as Hsize by (rewrite <- (map_size_fmap value m), Hv; apply map_size_fmap).
  destruct o as [k v x|k v x|k v x|k v x|k v x|k v x|k v x| |k|a b]; cbn [MapStorage.spec bare_op] in *; try done.
  - apply bind_Some in Hs as (i & Hi & [= <-]). rewrite Hi. eexists. split; [done|]. by rewrite !fmap_insert, Hv.
  - apply bind_Some in Hs as (i & Hi & Hs). rewrite Hi. cbn. destruct (m !! i) eqn:Em; [done|]. injection Hs as <-.
    destruct (n !! i) eqn:En; [exfalso; apply eq_None_not_Some in Em; apply Em, Hk; by rewrite En|].
    eexists. split; [done|]. by rewrite !fmap_insert, Hv.
  - apply bind_Some in Hs as (i & Hi & Hs). rewrite Hi. cbn. destruct (m !! i) eqn:Em; [|done]. injection Hs as <-.
    destruct (proj1 (Hk i) ltac:(by rewrite Em)) as [y ->]. eexists. split; [done|]. by rewrite !fmap_delete, Hv.
  - injection Hs as <-. by eexists.
  - destruct k as [|i|d|x]; [done| |done|].
    + rewrite <- Hsize. apply bind_Some in Hs as (j & -> & [= <-]). by eexists.
    + cbn in *. apply bind_Some in Hs as (y & Hy & [= <-]). destruct (proj1 (Hk (c_str x)) ltac:(by rewrite Hy)) as [z ->]. by eexists.
  - injection Hs as <-. by eexists.
Qed.

Lemma map_not_faulty o (s : MapStorage.t) m :
  MapStorage.wf s -> MapStorage.small s -> MapStorage.spec o (to_map (data_ s)) = Some m -> ~ MapStorage.faulty o s.
Proof.
  intros [Hs _] Hl Hm Hf. unfold MapStorage.small in Hl. destruct o; try done. destruct Hf as [[E ->]| ->]; cbn in Hm.
  - by rewrite E in Hm.
  - rewrite length_to_map in Hm by done. unfold python_index, INT_MIN in Hm. revert Hm. by ztest.
Qed.

Lemma map_bare o (s : MapStorage.t) m :
  MapStorage.wf s -> MapStorage.small s -> op_ok o ->
  MapStorage.spec (bare_op o) (to_map (data_ s)) = Some m ->
  exists s', bare (H := MapStorage.map_storage) o s = (Ok tt, s') /\ to_map (data_ s') = m.
Proof.
  intros Hw Hs Ho Hm. destruct (is_pop o) eqn:Ep; [by destruct o|].
  rewrite bare_run by done. pose proof (MapStorage.map_run_op_outcome (bare_op o) s Hw Hs (bare_ok o Ho)) as H.
  destruct (run_op _ s) as [r s']. cbn in H. exists s'.
  inversion H as [d e H1 _ _|H1|e H1 _|f s1 H1]; subst.
  - split; [done|]. rewrite MapStorage.map_data_after. congruence.
  - split; [done|]. congruence.
  - congruence.
  - by destruct (map_not_faulty _ _ _ Hw Hs Hm).
Qed.

(** ** All storages *)

Definition alike (a b : MemoryStorage.AnyStorage) : Prop :=
  match a, b with
  | MemoryStorage.AnyVector s, MemoryStorage.AnyVector s' => value <$> data_ s = value <$> data_ s'
  | MemoryStorage.AnyList s, MemoryStorage.AnyList s' => value <$> data_ s = value <$> data_ s'
  | MemoryStorage.AnyMap s, MemoryStorage.AnyMap s' => value <$> to_map (data_ s) = value <$> to_map (data_ s')
  | _, _ => False
  end.

Definition any_small (a : MemoryStorage.AnyStorage) : Prop :=
  match a with
  | MemoryStorage.AnyVector s => Z.of_nat (length (data_ s)) < 2 ^ 31
  | MemoryStorage.AnyList s => Z.of_nat (length (data_ s)) < 2 ^ 31
  | MemoryStorage.AnyMap s => Z.of_nat (length (data_ s)) < 2 ^ 31
  end.

Lemma any_run o a : run_op o a = MemoryStorage.dispatch (fun S H => run_op o) a.
Proof. destruct o; try done; apply MemoryStorage.dispatch_then. Qed.

Lemma any_bare o a : bare o a = MemoryStorage.dispatch (fun S H => bare o) a.
Proof. destruct o; try done; apply MemoryStorage.dispatch_then. Qed.

Lemma list_done o (s s' : ListStorage.t) :
  ListStorage.small s -> op_ok o -> run_op (H := ListStorage.list_storage) o s = (Ok tt, s') ->
  ListStorage.spec o (data_ s) = Some (data_ s').
Proof.
  intros Hs Ho E. pose proof (ListStorage.run_op_outcome o s Hs Ho) as H. rewrite E in H. cbn in H.
  inversion H; subst; [by rewrite ListStorage.data_after|done].
Qed.

Lemma vector_done o (s s' : VectorStorage.t) :
  VectorStorage.wf s -> VectorStorage.small s -> op_ok o -> run_op (H := VectorStorage.vector_storage) o s = (Ok tt, s') ->
  VectorStorage.deadlocks o (data_ s) = false /\ VectorStorage.spec o (data_ s) = Some (data_ s').
Proof.
  intros Hw Hs Ho E. pose proof (VectorStorage.vector_run_op_outcome o s Hw Hs Ho (vector_min _ _ _ E)) as H.
  rewrite E in H. cbn in H. inversion H; subst; [by rewrite VectorStorage.vector_data_after|done].
Qed.

Lemma map_done o (s s' : MapStorage.t) :
  MapStorage.wf s -> MapStorage.small s -> op_ok o -> run_op (H := MapStorage.map_storage) o s = (Ok tt, s') ->
  MapStorage.spec o (to_map (data_ s)) = Some (to_map (data_ s')).
Proof.
  intros Hw Hs Ho E. pose proof (MapStorage.map_run_op_outcome o s Hw Hs Ho) as H.
  rewrite E in H. cbn in H. inversion H; subst; [by rewrite MapStorage.map_data_after|done].
Qed.

Lemma list_pop_framed o (s : ListStorage.t) :
  is_pop o = true -> header (bare (H := ListStorage.list_storage) o s).2 = header s.
Proof.
  revert s. intros s Hp. enough (framed (D := ListStorage.ListType) (bare (H := ListStorage.list_storage) o)) as H by apply H.
  destruct o; try done; cbn [bare ListStorage.list_storage PopBack PopFront];
    unfold ListStorage.UpdateRevNumAndPublish, ListStorage.PopBack, ListStorage.PopFront; solve_framed.
Qed.

Lemma vector_pop_framed o (s : VectorStorage.t) :
  is_pop o = true -> header (bare (H := VectorStorage.vector_storage) o s).2 = header s.
Proof.
  revert s. intros s Hp. enough (framed (D := VectorStorage.DataContainerT) (bare (H := VectorStorage.vector_storage) o)) as H by apply H.
  destruct o; try done; cbn [bare VectorStorage.vector_storage PopBack PopFront];
    unfold VectorStorage.Publish, VectorStorage.PopBack, VectorStorage.PopFront, VectorStorage._Pop; solve_framed.
Qed.

(** A bare command keeps what identifies the storage, and what every storage satisfies. *)
Lemma bare_keeps o a :
  ContainerManager.storage_ok a ->
  ContainerManager.storage_ok (bare o a).2 /\ MemoryStorage.any_header (bare o a).2 = MemoryStorage.any_header a.
Proof.
  intros Ha. destruct (is_pop o) eqn:Ep; [|rewrite bare_run by done; by apply ContainerManager.run_op_keeps].
  assert (MemoryStorage.any_header (bare o a).2 = MemoryStorage.any_header a) as Hh.
  { rewrite any_bare. destruct a as [s|s|s]; cbn.
    - pose proof (vector_pop_framed o s Ep) as H. destruct (bare o s). cbn in *. by rewrite H.
    - by destruct o.
    - pose proof (list_pop_framed o s Ep) as H. destruct (bare o s). cbn in *. by rewrite H. }
  split; [|done]. destruct Ha as [Hl Hs]. destruct (MemoryStorage.header_fields _ _ Hh) as (Hl' & _).
  split; [by rewrite Hl'|]. rewrite any_bare in *. destruct a as [s|s|s]; cbn in *; [by destruct (bare o s)|by destruct o|by destruct (bare o s)].
Qed.

Lemma alike_step o a b a' :
  ContainerManager.storage_ok a -> ContainerManager.storage_ok b -> any_small a -> op_ok o -> alike a b ->
  run_op o a = (Ok tt, a') ->
  exists b', bare o b = (Ok tt, b') /\ alike a' b' /\ ContainerManager.storage_ok b' /\
    MemoryStorage.any_header b' = MemoryStorage.any_header b.
Proof.
  intros [Hla Hsa] Hb Hsm Ho Hv E. pose proof Hb as [Hlb Hsb].
  enough (exists b', bare o b = (Ok tt, b') /\ alike a' b') as (b' & E' & Hv').
  { exists b'. pose proof (bare_keeps o b Hb) as H. rewrite E' in H. done. }
  rewrite any_run in E. rewrite any_bare. destruct a as [s|s|s], b as [s'|s'|s']; try done; cbn in Hv, Hsm, Hla, Hlb |- *; cbn in E.
  - destruct (run_op o s) as [r s1] eqn:Er. injection E as -> <-. pose proof (values_length _ _ Hv) as Hlen.
    destruct (vector_done o s s1) as [Hd Hspec]; [done..|]. destruct (vector_spec_values _ _ _ _ Hspec Hv) as (d & Hspec' & Hv').
    destruct (vector_bare o s' d) as (s2 & Es & <-); try done.
    + unfold VectorStorage.small. by rewrite <- Hlen.
    + by apply (vector_min _ s s1).
    + rewrite <- Hd. unfold VectorStorage.deadlocks, VectorStorage.numbered. by rewrite Hlen.
    + exists (MemoryStorage.AnyVector s2). by rewrite Es.
  - destruct (run_op o s) as [r s1] eqn:Er. injection E as -> <-.
    assert (length (data_ s) = length (data_ s')) as Hlen.
    { rewrite <- (length_to_map (data_ s)), <- (length_to_map (data_ s')) by done.
      rewrite <- (map_size_fmap value (to_map (data_ s))), Hv. apply map_size_fmap. }
    pose proof (map_done o s s1 (conj Hsa Hla) Hsm Ho Er) as Hspec.
    destruct (map_spec_values _ _ _ _ Hspec Hv) as (d & Hspec' & Hv').
    destruct (map_bare o s' d) as (s2 & Es & <-); try done.
    + unfold MapStorage.small. by rewrite <- Hlen.
    + exists (MemoryStorage.AnyMap s2). by rewrite Es.
  - destruct (run_op o s) as [r s1] eqn:Er. injection E as -> <-. pose proof (values_length _ _ Hv) as Hlen.
    pose proof (list_done o s s1 Hsm Ho Er) as Hspec. destruct (list_spec_values _ _ _ _ Hspec Hv) as (d & Hspec' & Hv').
    destruct (list_bare o s' d) as (s2 & Es & <-); try done.
    + unfold ListStorage.small. by rewrite <- Hlen.
    + exists (MemoryStorage.AnyList s2). by rewrite Es.
Qed.

End SameValues.
