(* ===== verification/ContainerContract.v ===== *)
(** * What a container manager promises, and that the plugins' manager keeps it

    [Stores] is the contract of the interface of [ContainerApi.v]: behind its
    handles a manager holds containers with given keys and values; [create_]
    makes an empty one, and a command that a storage accepts returns 0 and does
    to the container what it does to the storage.  [LocalContainerManager] of
    [LocalManager.v] keeps the contract: its commands reach the storages of the
    [ContainerManager]. *)
From S2P Require Import Prelude StdMap TioDataC TioDataS Containers ListStorage MapStorage VectorStorage MemoryStorage ContainerManager SessionMessages ClientApi ContainerApi LocalManager LogReplay LogLines SameValues.

Module ContainerContract.
Import StdMap TioDataC TioData Containers SessionMessages LogReplay SameValues.
#[local] Existing Instances MemoryStorage.any_storage.

(** ** The contract *)

(** Names of a server's own containers. *)
Definition hidden (name : bytes) : bool := StartsWith name (lit "__").

(** Values whose string a [TIO_DATA] can hold. *)
Definition short (v : TioData) : Prop := match v with String s => Z.of_nat (length s) < 2 ^ 32 - 1 | _ => True end.

Definition any_short (a : MemoryStorage.AnyStorage) : Prop :=
  match a with
  | MemoryStorage.AnyVector s => Forall short (value <$> data_ s)
  | MemoryStorage.AnyList s => Forall short (value <$> data_ s)
  | MemoryStorage.AnyMap _ => True
  end.

(** The commands that change records. *)
Definition is_change (o : op) : bool := match o with OpGet _ | OpQuery _ _ => false | _ => true end.

Definition op_key (o : op) : option TioData :=
  match o with
  | OpPushBack k _ _ | OpPushFront k _ _ | OpSet k _ _ | OpInsert k _ _ | OpDelete k _ _ => Some k
  | _ => None
  end.

Definition op_value (o : op) : option TioData :=
  match o with
  | OpPushBack _ v _ | OpPushFront _ v _ | OpSet _ v _ | OpInsert _ v _ => Some v
  | _ => None
  end.

(** The data given to a command are those of [o], where it has them. *)
Definition gives (td : TIO_DATA) (v : option TioData) : Prop :=
  match v with Some v => represents td (client_value v) | None => True end.

(** The call of the interface for a command, with its metadata left out. *)
Definition command_call {S} `{ContainerApi.IContainerManager S} (o : op) (h : option Z) (key value : TIO_DATA) : M S Z :=
  let out := Some (tiodata_set_as_none new_data) in
  match o with
  | OpPushBack _ _ _ => ContainerApi.container_push_back h (Some key) (Some value) None
  | OpPushFront _ _ _ => ContainerApi.container_push_front h (Some key) (Some value) None
  | OpPopBack _ _ _ => checked_pop (ContainerApi.container_pop_back h None out None)
  | OpPopFront _ _ _ => checked_pop (ContainerApi.container_pop_front h None out None)
  | OpSet _ _ _ => ContainerApi.container_set h (Some key) (Some value) None
  | OpInsert _ _ _ => ContainerApi.container_insert h (Some key) (Some value) None
  | OpDelete _ _ _ => ContainerApi.container_delete h (Some key)
  | OpClear => ContainerApi.container_clear h
  | OpGet _ | OpQuery _ _ => mret 0
  end.

(** [holds σ s]: behind each handle [h] with [σ !! h = Some a] there is a container
    with the keys and values of [a]. *)
Class Stores (S : Type) `{ContainerApi.IContainerManager S} (holds : gmap Z MemoryStorage.AnyStorage -> S -> Prop) : Prop := {
  stores_create σ s name type a sp :
    holds σ s -> MemoryStorage.fresh type name = Some (a, sp) -> name <> [] -> hidden name = false -> c_str name = name ->
    (forall h b, σ !! h = Some b -> MemoryStorage.any_name b <> name) ->
    exists h s', ContainerApi.create_ name type s = (Ok (0, Some h), s') /\ σ !! h = None /\ holds (<[h := a]> σ) s';
  stores_change σ s h a o a' key value :
    holds σ s -> σ !! h = Some a -> any_small a -> any_short a -> op_ok o -> is_change o = true ->
    run_op o a = (Ok tt, a') -> gives key (op_key o) -> gives value (op_value o) ->
    exists s', command_call o (Some h) key value s = (Ok 0, s') /\ holds (<[h := a']> σ) s'
}.

(** ** Conversions *)

Lemma c2cpp_represents td v : represents td (client_value v) -> LocalManager.c2cpp (Some td) = Ok v.
Proof.
  unfold LocalManager.c2cpp. intros H. inversion H as [td' Ht Hs|td' s Ht Hs Hz|td' z Ht Hs Hz|td' d Ht Hs Hz];
    destruct v; try done; rewrite Ht; simplify_eq/=; [done| |done|done].
  rewrite Hs, Hz, mem_read_ok by len. mrun. by rewrite Z2Nat.inj_0, drop_0, Nat2Z.id, take_app_length.
Qed.

Lemma write_back_ok c v : short v -> exists o, LocalManager.write_back (Some c) v = Ok o.
Proof.
  intros H. destruct v as [|i|d|s]; [by eexists..|]. cbn in *. rewrite u32_small by lia.
  destruct (LogLines.set_string_prefix c s [x00]) as (td & -> & _); [lia|]. by eexists.
Qed.

(** ** What a pop gives *)

Lemma short_elem (d : list ValueAndMetadata) x : Forall short (value <$> d) -> x ∈ d -> short (value x).
Proof. intros H Hx. rewrite Forall_forall in H. apply H. by apply list_elem_of_fmap_2. Qed.

Lemma bare_pop {S} `{ITioStorage S} (m : M S outs) b b' :
  (_ ← m; mret tt) b = (Ok tt, b') -> exists o, m b = (Ok o, b').
Proof. unfold mbind, M_bind. destruct (m b) as [[o|e] x]; [|done]. intros [= <-]. by eexists. Qed.

Lemma pop_back_value b b' :
  ContainerManager.storage_ok b -> (_ ← PopBack None (Some None_) None; mret tt) b = (Ok tt, b') ->
  exists v, PopBack None (Some None_) None b = (Ok (None, Some v, None), b') /\ (any_short b -> short v).
Proof.
  intros [Hl _] E. apply bare_pop in E as [o E]. cbn [PopBack MemoryStorage.any_storage] in *.
  destruct b as [s|s|s]; cbn in E, Hl; [|done|].
  - destruct (last (data_ s)) as [x|] eqn:Ex.
    + rewrite (VectorStorage.pop_back_run None (Some None_) None x s Hl Ex) in E. injection E as <- <-. exists (value x).
      cbn. rewrite (VectorStorage.pop_back_run None (Some None_) None x s Hl Ex). split; [done|].
      intros H. apply (short_elem _ _ H). apply last_Some in Ex as [d' ->]. apply elem_of_app. right. by constructor.
    + apply last_None in Ex. unfold VectorStorage.PopBack in E. rewrite bind_get, Ex in E. done.
  - destruct (last (data_ s)) as [x|] eqn:Ex.
    + destruct (list_pop_back_run s x Ex) as (e & Er).
      rewrite Er in E. injection E as <- <-. exists (value x). cbn. rewrite Er. split; [done|].
      intros H. apply (short_elem _ _ H). apply last_Some in Ex as [d' ->]. apply elem_of_app. right. by constructor.
    + unfold ListStorage.PopBack in E. by rewrite bind_get, Ex in E.
Qed.

Lemma pop_front_value b b' :
  ContainerManager.storage_ok b -> (_ ← PopFront None (Some None_) None; mret tt) b = (Ok tt, b') ->
  exists v, PopFront None (Some None_) None b = (Ok (None, Some v, None), b') /\ (any_short b -> short v).
Proof.
  intros [Hl _] E. apply bare_pop in E as [o E]. cbn [PopFront MemoryStorage.any_storage] in *.
  destruct b as [s|s|s]; cbn in E, Hl; [|done|]; destruct (data_ s) as [|x d] eqn:Ed.
  - unfold VectorStorage.PopFront in E. by rewrite bind_get, Ed in E.
  - destruct (vector_pop_front_run s x d Hl Ed) as (e & Er).
    rewrite Er in E. injection E as <- <-. exists (value x). cbn. rewrite Er. split; [done|].
    intros H. apply (short_elem _ _ H). rewrite Ed. by constructor.
  - unfold ListStorage.PopFront in E. by rewrite bind_get, Ed in E.
  - destruct (list_pop_front_run s x d Ed) as (e & Er).
    rewrite Er in E. injection E as <- <-. exists (value x). cbn. rewrite Er. split; [done|].
    intros H. apply (short_elem _ _ H). rewrite Ed. by constructor.
Qed.

Lemma alike_short a b : alike a b -> any_short a -> any_short b.
Proof. destruct a, b; try done; cbn; by intros ->. Qed.

(** ** Creating a container *)

Section Create.
Import ContainerManager.

(** A name no storage has is not open and has no storage of any type. *)
Lemma new_name m name type a sp :
  wf m -> MemoryStorage.fresh type name = Some (a, sp) -> name <> [] ->
  (forall l b, at_loc l (memory m) = Some b -> MemoryStorage.any_name b <> name) ->
  open_container name m = None /\ find (MemoryStorage.full_name type name) (MemoryStorage.containers_ (memory m)) = None.
Proof.
  intros Hwf Hf Hne Hnew. assert (MemoryStorage.actual_name name = name) as Hact
    by (unfold MemoryStorage.actual_name; by rewrite bool_decide_false).
  split.
  - destruct (open_container name m) as [c|] eqn:E; [|done]. exfalso.
    assert (is_Some (live m !! c)) as Hl.
    { unfold open_container in E. destruct (find name (openContainers_ m)) as [x|]; [|done].
      destruct (live m !! x) eqn:El; [|done]. injection E as <-. by rewrite El. }
    destruct (live_storage m c Hwf Hl) as (l & b & H1 & H2 & _). apply (Hnew l b H2).
    by rewrite (wf_open_name m Hwf name c l b E H1 H2).
  - destruct (find _ _) as [i|] eqn:E; [|done]. exfalso.
    destruct (store_lookup m _ i Hwf E) as (l & b & _ & _ & Hb & Hk & _ & Hs). apply (Hnew l b Hb).
    unfold MemoryStorage.full_name in Hk. rewrite Hact in Hk. apply MemoryStorage.GenerateName_inj in Hk as [_ <-]; [done| |done].
    by destruct (MemoryStorage.fresh_ok _ _ _ _ Hf) as (_ & _ & _ & _ & _ & ? & _).
Qed.

(** What [CreateContainer] leaves: a storage [l] of its own, the others as they were, but for
    the listing. *)
Record grown (c l : nat) (a : MemoryStorage.AnyStorage) (m m' : t) : Prop := {
  g_wf : wf m';
  g_aliases : aliases_ m' = aliases_ m;
  g_meta : meta_containers_ m' = meta_containers_ m;
  g_container : storage_of c m' = Some l;
  g_storage : at_loc l (memory m') = Some (MemoryStorage.any_set_sink (MemoryStorage.manager_sink_ (memory m)) a);
  g_new : at_loc l (memory m) = None;
  g_kept : forall c' l', storage_of c' m = Some l' -> storage_of c' m' = Some l';
  g_back : forall x y, at_loc x (memory m') = Some y -> x <> l -> exists z,
    at_loc x (memory m) = Some z /\ MemoryStorage.any_name z = MemoryStorage.any_name y;
  g_same : forall x z, at_loc x (memory m) = Some z ->
    (forall cm, meta_containers_ m = Some cm -> storage_of cm m <> Some x) -> at_loc x (memory m') = Some z
}.

(** Entering a name into the listing. *)
Lemma list_changed m cm lm ms name type :
  wf m -> meta_containers_ m = Some cm -> storage_of cm m = Some lm -> at_loc lm (memory m) = Some (MemoryStorage.AnyMap ms) ->
  exists b m', call (meta_containers_ m) (Set_ (String name) (String type) TIONULL) m = (Ok tt, m') /\ wf m' /\
    same_catalogue m m' /\ MemoryStorage.any_name b = name_ ms /\
    forall x, at_loc x (memory m') = if decide (lm = x) then Some b else at_loc x (memory m).
Proof.
  intros Hwf M1 M2 M3. destruct (wf_heap m Hwf _ _ M3) as (_ & Hok & _).
  pose proof (run_op_keeps (OpSet (String name) (String type) TIONULL) _ Hok) as [Hok' Hh].
  assert (run_op (OpSet (String name) (String type) TIONULL) (MemoryStorage.AnyMap ms) =
    (Ok tt, (run_op (OpSet (String name) (String type) TIONULL) (MemoryStorage.AnyMap ms)).2)) as E.
  { destruct (MapStorage.map_set_run name (String type) TIONULL ms) as [H1 _]; [destruct Hok; by split|].
    cbn. destruct (MapStorage.Set_ _ _ _ ms). cbn in *. by subst. }
  destruct (call_frame m cm lm _ _ _ _ Hwf M2 M3 E Hh Hok') as (m' & Em & Hwf' & Hsame & Hat & _).
  eexists _, m'. rewrite M1. split; [exact Em|]. split; [done|]. split; [done|]. split; [|exact Hat].
  by destruct (MemoryStorage.header_fields _ _ Hh) as (_ & _ & -> & _).
Qed.

Lemma create_grown m name type a sp :
  wf m -> aliases_ m = [] -> MemoryStorage.fresh type name = Some (a, sp) -> name <> [] ->
  (forall l b, at_loc l (memory m) = Some b -> MemoryStorage.any_name b <> name) ->
  exists c m', CreateContainer type name m = (Ok c, m') /\ grown c (next_storage m) a m m'.
Proof.
  intros Hwf Hal Hf Hne Hnew. destruct (new_name m name type a sp Hwf Hf Hne Hnew) as [Ho Hs].
  assert (MemoryStorage.actual_name name = name) as Hact by (unfold MemoryStorage.actual_name; by rewrite bool_decide_false).
  rewrite <- Hact in Hf. set (l := next_storage m).
  set (m1 := set_memory (MemoryStorage.created type name a sp (memory m)) m).
  assert (on_memory (MemoryStorage.CreateStorage type name) m = (Ok (Some l, Some l), m1)) as E1
    by (unfold on_memory; by rewrite (MemoryStorage.create_new type name a sp _ Hf Hs)).
  assert (wf m1) as Hwf1 by by apply wf_grow.
  assert (forall x, at_loc x (memory m1) = if decide (l = x) then Some (MemoryStorage.any_set_sink (MemoryStorage.manager_sink_ (memory m)) a)
    else at_loc x (memory m)) as Hat1 by (intros x; apply at_created).
  destruct (wf_meta m Hwf) as (cm & lm & ms & M1 & M2 & M3).
  assert (l <> lm) as Hlm by (destruct (wf_heap m Hwf _ _ M3) as [? _]; unfold l, next_storage; lia).
  assert (at_loc lm (memory m1) = Some (MemoryStorage.AnyMap ms)) as M3' by by rewrite Hat1, decide_False.
  destruct (list_changed m1 cm lm ms name type Hwf1 M1 M2 M3') as (b & m2 & E2 & Hwf2 & Hsame & Hb & Hat2).
  assert (at_loc l (memory m2) = Some (MemoryStorage.any_set_sink (MemoryStorage.manager_sink_ (memory m)) a)) as Hl2
    by (by rewrite Hat2, decide_False, Hat1, decide_True).
  destruct (MemoryStorage.any_set_sink_fields (MemoryStorage.manager_sink_ (memory m)) a) as (_ & _ & Hn & _).
  destruct (MemoryStorage.fresh_ok _ _ _ _ Hf) as (_ & _ & Hn' & _).
  pose proof (wf_new_container m2 name l _ Hwf2 Hl2 ltac:(congruence)) as Hwf3. cbn zeta in Hwf3.
  exists (next_container m2). eexists. split.
  - unfold CreateContainer, CreateOrOpen. rewrite bind_get, Ho, resolve_alias, Hal. cbn zeta.
    assert (resolve [] type = type) as Hres by (unfold resolve; by case_bool_decide). rewrite Hres.
    destruct (get_manager_run type m Hwf) as [[_ Eg]|[Eg _]].
    2: { rewrite Hal, Hres in Eg. destruct (MemoryStorage.fresh_some type _ [] _ Hf) as [y Hy]. by rewrite Hy in Eg. }
    erewrite bind_ok; [|rewrite (bind_ok _ _ _ _ _ Eg), (bind_ok _ _ _ _ _ E1), bind_get; change (meta_containers_ m1) with (meta_containers_ m);
      rewrite M1; cbn [is_set]; rewrite <- M1; change (meta_containers_ m) with (meta_containers_ m1); rewrite (bind_ok _ _ _ _ _ E2); reflexivity].
    reflexivity.
  - cbn [openContainers_ set_live]. split.
    + exact Hwf3.
    + by apply (same_aliases m1 m2).
    + by apply (same_meta m1 m2).
    + by rewrite storage_of_add, decide_True.
    + exact Hl2.
    + destruct (at_loc l (memory m)) eqn:El; [|done]. destruct (wf_heap m Hwf _ _ El) as [? _]. unfold l, next_storage in *. lia.
    + intros c' l' Hc'. rewrite storage_of_add. rewrite (same_storage_of m1 m2) by done. rewrite decide_False; [done|].
      intros <-. destruct (live_of_storage m _ _ Hc') as [o Hlive]. destruct (wf_live m Hwf _ _ Hlive) as [Hlt _].
      rewrite (same_next_container _ _ Hsame) in Hlt. cbn in Hlt. lia.
    + intros x y Hy Hx. cbn in Hy. rewrite Hat2, Hat1 in Hy. repeat case_decide; subst; try done; [|by eexists].
      injection Hy as <-. exists (MemoryStorage.AnyMap ms). by rewrite Hb.
    + intros x z Hz Hx. cbn. rewrite Hat2, Hat1. rewrite !decide_False; [done| |].
      * intros <-. destruct (wf_heap m Hwf _ _ Hz) as [? _]. unfold l, next_storage in *. lia.
      * intros <-. by apply (Hx cm).
Qed.

End Create.

(** ** Calls through the plugins' manager *)

Section Local.
Notation local := LocalManager.LocalContainerManager.
Notation manager := LocalManager.containerManager.
Implicit Type s : local.

(** The manager after the storage at [l] became [b]. *)
Definition changed (l : nat) (b : MemoryStorage.AnyStorage) (m m' : ContainerManager.t) : Prop :=
  ContainerManager.wf m' /\ ContainerManager.same_catalogue m m' /\
  forall x, ContainerManager.at_loc x (ContainerManager.memory m') =
    if decide (l = x) then Some b else ContainerManager.at_loc x (ContainerManager.memory m).

(** The storage behind a handle. *)
Definition behind (h : Z) (c l : nat) (b : MemoryStorage.AnyStorage) (s : local) : Prop :=
  LocalManager.handles s !! h = Some c /\ ContainerManager.storage_of c (manager s) = Some l /\
  ContainerManager.at_loc l (ContainerManager.memory (manager s)) = Some b.

Lemma call_local {A} h c l b (f : M MemoryStorage.AnyStorage A) r b' s :
  ContainerManager.wf (manager s) -> behind h c l b s -> f b = (r, b') ->
  MemoryStorage.any_header b' = MemoryStorage.any_header b -> ContainerManager.storage_ok b' ->
  exists m', LocalManager.call c f s = (r, LocalManager.set_manager m' s) /\ changed l b' (manager s) m'.
Proof.
  intros Hwf (_ & Hl & Hb) Hf Hh Hok.
  destruct (ContainerManager.call_frame _ _ _ _ _ _ _ Hwf Hl Hb Hf Hh Hok) as (m' & E & H1 & H2 & H3 & _).
  exists m'. split; [|done]. unfold LocalManager.call, LocalManager.on_manager. by rewrite E.
Qed.

Lemma change_local h c l b f k v key value b' s :
  ContainerManager.wf (manager s) -> behind h c l b s -> f k v TIONULL b = (Ok tt, b') ->
  MemoryStorage.any_header b' = MemoryStorage.any_header b -> ContainerManager.storage_ok b' ->
  represents key (client_value k) -> represents value (client_value v) ->
  exists m', LocalManager.change f (Some h) (Some key) (Some value) None s = (Ok 0, LocalManager.set_manager m' s) /\
    changed l b' (manager s) m'.
Proof.
  intros Hwf Hbeh Hf Hh Hok Hk Hv. destruct (call_local h c l b _ _ _ s Hwf Hbeh Hf Hh Hok) as (m' & E & H).
  exists m'. split; [|done]. destruct Hbeh as (Hc & _). unfold LocalManager.change, LocalManager.container_of.
  unfold mbind at 1, M_bind at 1. rewrite bind_get, Hc. cbn [mret M_ret].
  unfold LocalManager.guarded, LocalManager.catching.
  rewrite (bind_lift_ok _ _ _ _ (c2cpp_represents _ _ Hk)), (bind_lift_ok _ _ _ _ (c2cpp_represents _ _ Hv)).
  rewrite (bind_lift_ok _ _ _ TIONULL eq_refl). by rewrite E.
Qed.

Lemma delete_local h c l b k key b' s :
  ContainerManager.wf (manager s) -> behind h c l b s -> Delete k TIONULL TIONULL b = (Ok tt, b') ->
  MemoryStorage.any_header b' = MemoryStorage.any_header b -> ContainerManager.storage_ok b' ->
  represents key (client_value k) ->
  exists m', LocalManager.container_delete (Some h) (Some key) s = (Ok 0, LocalManager.set_manager m' s) /\
    changed l b' (manager s) m'.
Proof.
  intros Hwf Hbeh Hf Hh Hok Hk. destruct (call_local h c l b _ _ _ s Hwf Hbeh Hf Hh Hok) as (m' & E & H).
  exists m'. split; [|done]. destruct Hbeh as (Hc & _). unfold LocalManager.container_delete, LocalManager.container_of.
  unfold mbind at 1, M_bind at 1. rewrite bind_get, Hc. cbn [mret M_ret].
  unfold LocalManager.guarded, LocalManager.catching. rewrite (bind_lift_ok _ _ _ _ (c2cpp_represents _ _ Hk)). by rewrite E.
Qed.

Lemma clear_local h c l b b' s :
  ContainerManager.wf (manager s) -> behind h c l b s -> Clear b = (Ok tt, b') ->
  MemoryStorage.any_header b' = MemoryStorage.any_header b -> ContainerManager.storage_ok b' ->
  exists m', LocalManager.container_clear (Some h) s = (Ok 0, LocalManager.set_manager m' s) /\
    changed l b' (manager s) m'.
Proof.
  intros Hwf Hbeh Hf Hh Hok. destruct (call_local h c l b _ _ _ s Hwf Hbeh Hf Hh Hok) as (m' & E & H).
  exists m'. split; [|done]. destruct Hbeh as (Hc & _). unfold LocalManager.container_clear, LocalManager.container_of.
  unfold mbind at 1, M_bind at 1. rewrite bind_get, Hc. cbn [mret M_ret].
  unfold LocalManager.guarded, LocalManager.catching. by rewrite E.
Qed.

(** A pop that asks for the value only. *)
Lemma pop_local h c l b (f : out -> out -> out -> M MemoryStorage.AnyStorage outs) v b' s :
  ContainerManager.wf (manager s) -> behind h c l b s -> f None (Some None_) None b = (Ok (None, Some v, None), b') ->
  MemoryStorage.any_header b' = MemoryStorage.any_header b -> ContainerManager.storage_ok b' -> short v ->
  exists m', checked_pop (LocalManager.fetch (Some h) (fun c k v m => LocalManager.call c (f k v m)) None
      (Some (tiodata_set_as_none new_data)) None) s = (Ok 0, LocalManager.set_manager m' s) /\
    changed l b' (manager s) m'.
Proof.
  intros Hwf Hbeh Hf Hh Hok Hv. destruct (call_local h c l b _ _ _ s Hwf Hbeh Hf Hh Hok) as (m' & E & H).
  exists m'. split; [|done]. destruct Hbeh as (Hc & _). destruct (write_back_ok (tiodata_set_as_none new_data) v Hv) as [o Eo].
  assert (LocalManager.fetch (Some h) (fun c k v m => LocalManager.call c (f k v m)) None
    (Some (tiodata_set_as_none new_data)) None s = (Ok (0, (None, o, None)), LocalManager.set_manager m' s)) as Ef.
  { unfold LocalManager.fetch, LocalManager.container_of. unfold mbind at 1, M_bind at 1. rewrite bind_get, Hc. cbn [mret M_ret].
    rewrite (bind_lift_ok _ _ _ None_ eq_refl), (bind_lift_ok _ _ _ None_ eq_refl), (bind_lift_ok _ _ _ None_ eq_refl).
    cbn zeta. erewrite bind_ok; [|unfold LocalManager.catching; cbn [fst snd LocalManager.c2cpp_outptr]; rewrite E; reflexivity].
    cbv beta iota. cbn [default from_option id]. by rewrite Eo. }
  unfold checked_pop. rewrite (bind_ok _ _ _ _ _ Ef). done.
Qed.

(** Any command: the call of the interface reaches the storage. *)
Lemma command_local h c l b o key value b' s :
  ContainerManager.wf (manager s) -> behind h c l b s -> is_change o = true -> any_short b ->
  bare o b = (Ok tt, b') -> ContainerManager.storage_ok b ->
  gives key (op_key o) -> gives value (op_value o) ->
  exists m', command_call (H := LocalManager.local_manager) o (Some h) key value s = (Ok 0, LocalManager.set_manager m' s) /\
    changed l b' (manager s) m'.
Proof.
  intros Hwf Hbeh Hc Hs E Hok Hk Hv. pose proof (bare_keeps o b Hok) as [Hok' Hh]. rewrite E in Hok', Hh. cbn in Hok', Hh.
  destruct o; try done; cbn [bare op_key op_value gives] in *.
  - by eapply change_local.
  - by eapply change_local.
  - destruct (pop_back_value b b' Hok E) as (x & E' & Hx). apply (pop_local h c l b PopBack x); auto.
  - destruct (pop_front_value b b' Hok E) as (x & E' & Hx). apply (pop_local h c l b PopFront x); auto.
  - by eapply change_local.
  - by eapply change_local.
  - by eapply delete_local.
  - by eapply clear_local.
Qed.

(** ** The containers of the plugins' manager *)

(** The containers [σ] are there, under names of their own; the other storages are the
    manager's. *)
Record local_holds (σ : gmap Z MemoryStorage.AnyStorage) (s : local) : Prop := {
  lh_wf : ContainerManager.wf (manager s);
  lh_aliases : ContainerManager.aliases_ (manager s) = [];
  lh_meta : forall c l b, ContainerManager.meta_containers_ (manager s) = Some c ->
    ContainerManager.storage_of c (manager s) = Some l ->
    ContainerManager.at_loc l (ContainerManager.memory (manager s)) = Some b -> hidden (MemoryStorage.any_name b) = true;
  lh_next : forall h c, LocalManager.handles s !! h = Some c -> h < LocalManager.next_handle s;
  lh_at : forall h a, σ !! h = Some a -> ContainerManager.storage_ok a /\ hidden (MemoryStorage.any_name a) = false /\
    exists c l b, behind h c l b s /\ alike a b /\ MemoryStorage.any_name b = MemoryStorage.any_name a;
  lh_names : forall h h' a a', σ !! h = Some a -> σ !! h' = Some a' -> MemoryStorage.any_name a = MemoryStorage.any_name a' -> h = h';
  lh_all : forall l b, ContainerManager.at_loc l (ContainerManager.memory (manager s)) = Some b ->
    hidden (MemoryStorage.any_name b) = true \/ exists h a, σ !! h = Some a /\ MemoryStorage.any_name a = MemoryStorage.any_name b
}.

Lemma header_name a b : MemoryStorage.any_header a = MemoryStorage.any_header b -> MemoryStorage.any_name a = MemoryStorage.any_name b.
Proof. intros H. by destruct (MemoryStorage.header_fields _ _ H) as (_ & _ & -> & _). Qed.

Lemma local_change σ s h a o a' key value :
  local_holds σ s -> σ !! h = Some a -> any_small a -> any_short a -> op_ok o -> is_change o = true ->
  run_op o a = (Ok tt, a') -> gives key (op_key o) -> gives value (op_value o) ->
  exists s', command_call (H := LocalManager.local_manager) o (Some h) key value s = (Ok 0, s') /\ local_holds (<[h := a']> σ) s'.
Proof.
  intros [W1 W2 W3 W4 W5 W6 W7] Ha Hsm Hsh Ho Hc E Hk Hv. destruct (W5 h a Ha) as (Hok & Hhid & c & l & b & Hbeh & Hal & Hn).
  assert (ContainerManager.storage_ok b) as Hokb by (destruct Hbeh as (_ & _ & Hb); by destruct (ContainerManager.wf_heap _ W1 _ _ Hb) as (_ & ? & _)).
  destruct (alike_step o a b a' Hok Hokb Hsm Ho Hal E) as (b' & Eb & Hal' & Hokb' & Hhb').
  destruct (command_local h c l b o key value b' s W1 Hbeh Hc (alike_short _ _ Hal Hsh) Eb Hokb Hk Hv) as (m' & Em & Hwf' & Hsame & Hat).
  pose proof (ContainerManager.run_op_keeps o a Hok) as [Hoka' Hha']. rewrite E in Hoka', Hha'. cbn in Hoka', Hha'.
  apply header_name in Hha', Hhb'. exists (LocalManager.set_manager m' s). split; [done|].
  assert (forall x y, ContainerManager.at_loc x (ContainerManager.memory m') = Some y -> exists z,
    ContainerManager.at_loc x (ContainerManager.memory (manager s)) = Some z /\ MemoryStorage.any_name z = MemoryStorage.any_name y) as Hback.
  { intros x y. rewrite Hat. case_decide as Ex; [|by eauto]. intros [= <-]. subst x. destruct Hbeh as (_ & _ & Hb). eauto. }
  split; cbn.
  - done.
  - by rewrite (ContainerManager.same_aliases _ _ Hsame).
  - intros c1 l1 b1. rewrite (ContainerManager.same_meta _ _ Hsame), (ContainerManager.same_storage_of _ _ _ Hsame).
    intros M1 M2 (z & Hz & <-)%Hback. by eapply W3.
  - done.
  - intros h1 a1. rewrite lookup_insert. case_decide as Eh; [subst h1; intros [= <-]|intros H1].
    + split; [done|]. split; [by rewrite Hha'|]. exists c, l, b'. destruct Hbeh as (B1 & B2 & B3). unfold behind. cbn.
      rewrite (ContainerManager.same_storage_of _ _ _ Hsame), Hat, decide_True by done. rewrite Hha', Hhb'. done.
    + destruct (W5 h1 a1 H1) as (Hok1 & Hhid1 & c1 & l1 & b1 & (B1 & B2 & B3) & Hal1 & Hn1). split; [done|]. split; [done|].
      exists c1, l1, b1. unfold behind. cbn. rewrite (ContainerManager.same_storage_of _ _ _ Hsame), Hat.
      rewrite decide_False; [done|]. intros <-. destruct Hbeh as (_ & _ & B3'). apply Eh, (W6 h h1 a a1); congruence.
  - intros h1 h2 a1 a2. rewrite !lookup_insert. repeat case_decide; subst; try done.
    + intros [= <-] H2. rewrite Hha'. by apply W6.
    + intros H1 [= <-]. rewrite Hha'. by apply W6.
    + by apply W6.
  - intros x y (z & Hz & <-)%Hback. destruct (W7 x z Hz) as [Hz'|(h1 & a1 & H1 & H2)]; [by left|right].
    destruct (decide (h = h1)) as [<-|Hne].
    + exists h, a'. rewrite lookup_insert_eq, Hha'. split; [done|]. congruence.
    + exists h1, a1. by rewrite lookup_insert_ne.
Qed.

Lemma alike_fresh x a : MemoryStorage.any_empty a -> alike a (MemoryStorage.any_set_sink x a).
Proof. by destruct a. Qed.

Lemma local_create σ s name type a sp :
  local_holds σ s -> MemoryStorage.fresh type name = Some (a, sp) -> name <> [] -> hidden name = false ->
  (forall h b, σ !! h = Some b -> MemoryStorage.any_name b <> name) ->
  exists h s', LocalManager.create name type s = (Ok (0, Some h), s') /\ σ !! h = None /\ local_holds (<[h := a]> σ) s'.
Proof.
  intros [W1 W2 W3 W4 W5 W6 W7] Hf Hne Hhid Hnew.
  destruct (MemoryStorage.fresh_ok _ _ _ _ Hf) as (Hlock & _ & Hn & _ & Hempty & _).
  destruct (create_grown (manager s) name type a sp W1 W2 Hf Hne) as (c & m' & E & G).
  { intros l b Hb <-. destruct (W7 l b Hb) as [Hh|(h & x & H1 & H2)]; [congruence|]. by apply (Hnew h x). }
  destruct G as [G1 G2 G3 G4 G5 G6 G7 G8 G9]. set (h := LocalManager.next_handle s).
  assert (σ !! h = None) as Hh.
  { destruct (σ !! h) as [x|] eqn:Ex; [|done]. destruct (W5 h x Ex) as (_ & _ & c1 & l1 & b1 & (B & _) & _).
    apply W4 in B. unfold h in B. lia. }
  destruct (MemoryStorage.any_set_sink_fields (MemoryStorage.manager_sink_ (ContainerManager.memory (manager s))) a) as (_ & _ & Hns & _).
  exists h. eexists. split; [|split; [exact Hh|]].
  { unfold LocalManager.create, LocalManager.new_handle, LocalManager.catching, LocalManager.on_manager. rewrite E. reflexivity. }
  split; cbn.
  - done.
  - by rewrite G2.
  - intros c1 l1 b1 M1 M2 M3. rewrite G3 in M1. destruct (ContainerManager.wf_meta _ W1) as (c2 & l2 & ms & N1 & N2 & N3).
    assert (c2 = c1) as -> by congruence. pose proof (G7 _ _ N2) as N2'. assert (l2 = l1) as -> by congruence.
    destruct (G8 l1 b1 M3) as (z & Hz & <-); [congruence|]. by eapply W3.
  - intros h1 c1. rewrite lookup_insert. case_decide; [subst; lia|]. intros H1%W4. unfold h. lia.
  - intros h1 a1. rewrite lookup_insert. case_decide as Eh; [subst h1; intros [= <-]|intros H1].
    + split; [|split; [by rewrite Hn|]].
      { split; [done|]. destruct a; try done. cbn in Hempty. rewrite Hempty. constructor. }
      exists c, (ContainerManager.next_storage (manager s)). eexists. unfold behind. cbn. rewrite lookup_insert_eq.
      split; [done|]. split; [by apply alike_fresh|done].
    + destruct (W5 h1 a1 H1) as (Hok1 & Hhid1 & c1 & l1 & b1 & (B1 & B2 & B3) & Hal1 & Hn1). split; [done|]. split; [done|].
      exists c1, l1, b1. unfold behind. cbn. rewrite lookup_insert_ne by done. split; [|done]. split; [done|]. split; [by apply G7|].
      apply G9; [done|]. intros cm Hcm Hst. pose proof (W3 cm l1 b1 Hcm Hst B3). congruence.
  - intros h1 h2 a1 a2. rewrite !lookup_insert. repeat case_decide; subst; try done.
    + intros [= <-] H2 En. exfalso. apply (Hnew _ _ H2). congruence.
    + intros H1 [= <-] En. exfalso. apply (Hnew _ _ H1). congruence.
    + by apply W6.
  - intros x y Hy. destruct (decide (x = ContainerManager.next_storage (manager s))) as [->|Hx].
    + right. exists h, a. rewrite lookup_insert_eq. split; [done|]. rewrite G5 in Hy. injection Hy as <-. by rewrite Hns.
    + destruct (G8 x y Hy Hx) as (z & Hz & <-). destruct (W7 x z Hz) as [Hz'|(h1 & a1 & H1 & H2)]; [by left|right].
      exists h1, a1. rewrite lookup_insert_ne; [done|]. intros <-. congruence.
Qed.

(** The plugins' manager keeps the contract. *)
#[export] Instance local_stores : Stores local (H := LocalManager.local_manager) local_holds.
Proof.
  split.
  - intros σ s name type a sp Hh Hf Hne Hhid _ Hnew. by eapply local_create.
  - intros. by eapply local_change.
Qed.

(** A server that has just been started holds nothing. *)
Definition started (stack : TIO_DATA) : local := LocalManager.mkLocal ContainerManager.start ∅ 1 [] stack [].

Lemma started_hidden l b :
  ContainerManager.at_loc l (ContainerManager.memory ContainerManager.start) = Some b -> hidden (MemoryStorage.any_name b) = true.
Proof.
  revert l b. apply (ContainerManager.heap_by_list _ (fun l b => hidden (MemoryStorage.any_name b) = true)).
  vm_compute. repeat constructor.
Qed.

Lemma started_holds stack : local_holds ∅ (started stack).
Proof.
  split; cbn.
  - apply ContainerManager.start_wf.
  - by vm_compute.
  - intros c l b M1 M2 M3. by eapply started_hidden.
  - intros h c. by rewrite lookup_empty.
  - intros h a. by rewrite lookup_empty.
  - intros h h' a a'. by rewrite lookup_empty.
  - intros l b Hb. left. by eapply started_hidden.
Qed.

End Local.
End ContainerContract.
