(* ===== verification/LogRestore.v ===== *)
(** * Replaying a transaction log restores the containers

    Against the contract of [ContainerContract.v] alone: sending the entries of a
    log to a manager, in whatever batches, gives containers with the keys and
    values the logged commands gave.  Together with [LogLines.v], which reads
    the entries out of the lines a server logged, and with the manager for
    plugins in the place of the other server, this is the whole way from the
    messages to the restored containers. *)
From S2P Require Import Prelude StdMap Protocol TioDataC TioDataS Containers MemoryStorage ContainerManager SessionMessages ContainerApi LocalManager TransactionLog LogReplay LogLines SameValues ContainerContract.

Module LogRestore.
Import TioDataC TioData Containers SessionMessages LogReplay LogLines SameValues ContainerContract.
#[local] Existing Instances MemoryStorage.any_storage LocalManager.local_manager local_stores.

(** ** What the log tells *)

(** The command of a line that changes records. *)
Definition event_op (ev : event) : option op :=
  match ev with
  | Named _ _ _ => None
  | Change word k v m =>
      if bool_decide (word = lit "push_back") then Some (OpPushBack k v m)
      else if bool_decide (word = lit "push_front") then Some (OpPushFront k v m)
      else if bool_decide (word = lit "pop_back") then Some (OpPopBack k v m)
      else if bool_decide (word = lit "pop_front") then Some (OpPopFront k v m)
      else if bool_decide (word = lit "set") then Some (OpSet k v m)
      else if bool_decide (word = lit "insert") then Some (OpInsert k v m)
      else if bool_decide (word = lit "delete") then Some (OpDelete k v m)
      else if bool_decide (word = lit "clear") then Some OpClear
      else None
  end.

(** What happened to the containers of the server that wrote the log: [σ] has the storage
    of each handle. *)
Inductive happens (σ : gmap Z MemoryStorage.AnyStorage) : bytes * Z * event -> gmap Z MemoryStorage.AnyStorage -> Prop :=
| happens_create time h name type a sp :
    MemoryStorage.fresh type name = Some (a, sp) -> name <> [] -> hidden name = false -> c_str name = name ->
    σ !! h = None -> (forall h' b, σ !! h' = Some b -> MemoryStorage.any_name b <> name) ->
    happens σ (time, h, Named (lit "create") name type) (<[h := a]> σ)
| happens_change time h ev o a a' :
    σ !! h = Some a -> event_op ev = Some o -> op_ok o -> any_small a -> any_short a -> run_op o a = (Ok tt, a') ->
    happens σ (time, h, ev) (<[h := a']> σ).

Inductive history : gmap Z MemoryStorage.AnyStorage -> list (bytes * Z * event) -> gmap Z MemoryStorage.AnyStorage -> Prop :=
| history_nil σ : history σ [] σ
| history_cons σ item σ1 items σ' : happens σ item σ1 -> history σ1 items σ' -> history σ (item :: items) σ'.

(** ** Sending it *)

Lemma replay_call {S} `{ContainerApi.IContainerManager S} word k v m o h key value :
  event_op (Change word k v m) = Some o ->
  replay_command word h key value = Some (command_call o h key value) /\ is_change o = true /\
  (represents key (client_value k) -> gives key (op_key o)) /\ (represents value (client_value v) -> gives value (op_value o)) /\
  word <> lit "create" /\ word <> lit "group_add".
Proof.
  unfold event_op, replay_command. intros E.
  repeat (case_bool_decide; [subst word; injection E as <-; cbn; split_and!; done|]). done.
Qed.

Lemma data_string_represents td x : represents td (VString x) -> data_string td = Ok x.
Proof.
  inversion 1 as [|td' y Ht Hs Hz| |]; subst. unfold data_string. rewrite Hs, Hz, mem_read_ok by len.
  by rewrite Z2Nat.inj_0, drop_0, Nat2Z.id, take_app_length.
Qed.

Section Replay.
Context {S : Type} `{!ContainerApi.IContainerManager S} {holds : gmap Z MemoryStorage.AnyStorage -> S -> Prop} `{!Stores S holds}.
Context (BeginBatch FinishBatch : M S unit).
Hypothesis begin_ok : forall σ s, holds σ s -> exists s', BeginBatch s = (Ok tt, s') /\ holds σ s'.
Hypothesis finish_ok : forall σ s, holds σ s -> exists s', FinishBatch s = (Ok tt, s') /\ holds σ s'.

(** The containers [σ] are behind the handles of the parser's table. *)
Definition restored (σ : gmap Z MemoryStorage.AnyStorage) (p : TioLogParser S) : Prop :=
  exists ρ, holds ρ (cn_ p) /\
    (forall h a, σ !! h = Some a -> exists x, containers_ p !! h = Some (Some x) /\ ρ !! x = Some a) /\
    (forall h h' x, is_Some (σ !! h) -> is_Some (σ !! h') ->
       containers_ p !! h = Some (Some x) -> containers_ p !! h' = Some (Some x) -> h = h') /\
    (forall x b, ρ !! x = Some b -> exists h, σ !! h = Some b /\ containers_ p !! h = Some (Some x)).

Lemma on_cn_ok {A} (m : M S A) r s' p : m (cn_ p) = (r, s') -> on_cn m p = (r, mkParser s' (containers_ p)).
Proof. intros E. unfold on_cn. by rewrite E. Qed.

Lemma no_error (s : S) : ContainerApi.ThrowOnTioClientError 0 s = (Ok tt, s).
Proof. done. Qed.

Lemma replay_entry_ok σ item σ' e p :
  restored σ p -> happens σ item σ' -> reads item e ->
  exists p', OnLogEntry e p = (Ok true, p') /\ restored σ' p'.
Proof.
  intros (ρ & Hh & Hat & Hinj & Hall) Hhap Hr. unfold OnLogEntry. destruct Hhap as [time h name type a sp Hf Hne Hhid Hz Hnew Hnames|time h ev o a a' Ha Hev Ho Hsm Hsh E].
  - destruct Hr as (_ & Eh & Ew & Hk & Hv). cbn [event_word event_key event_value client_value] in *.
    rewrite bool_decide_eq_true_2 by done.
    rewrite (bind_lift_ok _ _ _ _ (data_string_represents _ _ Hk)). fold (hidden name). rewrite Hhid.
    rewrite (bind_lift_ok _ _ _ _ (data_string_represents _ _ Hv)).
    assert (c_str type = type) as -> by (unfold MemoryStorage.fresh in Hf; repeat case_decide; by subst).
    rewrite Hz. destruct (stores_create ρ (cn_ p) name type a sp Hh Hf Hne Hhid Hz) as (x & s' & Ec & Hx & Hh').
    { intros x b Hxb. destruct (Hall x b Hxb) as (h' & Hh'' & _). by eapply Hnames. }
    rewrite (bind_ok _ _ _ _ _ (on_cn_ok _ _ _ _ Ec)). cbv beta iota. rewrite (bind_ok _ _ _ _ _ (on_cn_ok _ _ _ _ (no_error _))).
    rewrite bind_modify. eexists. split; [done|]. exists (<[x := a]> ρ). cbn. rewrite Eh. split; [done|]. split; [|split].
    + intros h1 a1. rewrite lookup_insert. case_decide as E1; [subst h1; intros [= <-]; exists x; by rewrite !lookup_insert_eq|].
      intros H1. destruct (Hat h1 a1 H1) as (x1 & H2 & H3). exists x1. rewrite !lookup_insert_ne by congruence. done.
    + assert (forall h1, is_Some (σ !! h1) -> containers_ p !! h1 = Some (Some x) -> False) as Hno.
      { intros h1 [b Hb] H1. destruct (Hat h1 b Hb) as (x1 & H2 & H3). congruence. }
      intros h1 h2 y. rewrite !lookup_insert. repeat case_decide; subst; try done.
      * intros _ H2 [= <-] H3. by destruct (Hno h2).
      * intros H1 _ H3 [= <-]. by destruct (Hno h1).
      * by apply Hinj.
    + intros y b. rewrite lookup_insert. case_decide; [intros [= <-]; exists h; subst; by rewrite !lookup_insert_eq|].
      intros Hy. destruct (Hall y b Hy) as (h1 & H1 & H2). exists h1. rewrite !lookup_insert_ne by congruence. done.
  - destruct ev as [|word k v m]; [done|]. destruct Hr as (_ & Eh & Ew & Hk & Hv). cbn [event_word event_key event_value] in *.
    destruct (Hat h a Ha) as (x & Hx & Hρ).
    destruct (replay_call word k v m o (Some x) (key_ e) (value_ e) Hev) as (Ec & Hch & Gk & Gv & N1 & N2).
    rewrite !bool_decide_eq_false_2 by congruence. rewrite bind_get, Eh, Hx, Ew, Ec.
    destruct (stores_change ρ (cn_ p) x a o a' (key_ e) (value_ e)) as (s' & Es & Hh'); [auto..|].
    assert (checked_call (command_call o (Some x) (key_ e) (value_ e)) p = (Ok tt, mkParser s' (containers_ p))) as El.
    { unfold checked_call. apply on_cn_ok. by rewrite (bind_ok _ _ _ _ _ Es). }
    rewrite (bind_ok _ _ _ _ _ El). eexists. split; [done|]. exists (<[x := a']> ρ). cbn. split; [done|]. split; [|split].
    + intros h1 a1. rewrite lookup_insert. case_decide as E1; [subst h1; intros [= <-]; exists x; by rewrite lookup_insert_eq|].
      intros H1. destruct (Hat h1 a1 H1) as (x1 & H2 & H3). exists x1. split; [done|]. rewrite lookup_insert_ne; [done|].
      intros ->. apply E1. eapply Hinj; [by eexists|by eexists|done|done].
    + intros h1 h2 y H1 H2. apply Hinj; [destruct (decide (h = h1)) as [<-|]|destruct (decide (h = h2)) as [<-|]];
        try (by eexists); [by rewrite lookup_insert_ne in H1|by rewrite lookup_insert_ne in H2].
    + intros y b. rewrite lookup_insert. case_decide as Ey; [intros [= <-]; exists h; subst; by rewrite lookup_insert_eq|].
      intros Hy. destruct (Hall y b Hy) as (h1 & H1 & H2). exists h1. split; [|done]. rewrite lookup_insert_ne; [done|]. congruence.
Qed.

(** Batches make no difference. *)
Lemma replay_publish_ok max σ item σ' e p count batch :
  restored σ p -> happens σ item σ' -> reads item e ->
  exists count' batch' p', publish BeginBatch FinishBatch max e count batch p = (Ok (count', batch'), p') /\ restored σ' p'.
Proof.
  intros Hp Hhap Hr. unfold publish.
  assert (forall (m : M S unit) q, (forall σ s, holds σ s -> exists s', m s = (Ok tt, s') /\ holds σ s') -> restored σ q ->
    exists q', on_cn m q = (Ok tt, q') /\ restored σ q') as Hkeep.
  { intros m q Hm (ρ & Hh & Hmap). destruct (Hm ρ (cn_ q) Hh) as (s' & E & Hh'). exists (mkParser s' (containers_ q)).
    split; [by apply on_cn_ok|]. by exists ρ. }
  assert (forall (b : bool) q, restored σ q -> exists q', (if b then on_cn FinishBatch else mret tt) q = (Ok tt, q') /\ restored σ q') as Hreset.
  { intros [] q Hq; [by apply Hkeep|by exists q]. }
  set (first := if _ || _ then _ else _).
  assert (exists c1 b1 p1, first p = (Ok (c1, b1), p1) /\ restored σ p1) as (c1 & b1 & p1 & E1 & Hp1).
  { unfold first. destruct (_ || _).
    - destruct (Hreset batch p Hp) as (q & Eq & Hq). rewrite (bind_ok _ _ _ _ _ Eq). by exists 0, false, q.
    - destruct batch; cbn [negb]; [by exists count, true, p|].
      destruct (Hkeep BeginBatch p begin_ok Hp) as (q & Eq & Hq). rewrite (bind_ok _ _ _ _ _ Eq). by exists count, true, q. }
  rewrite (bind_ok _ _ _ _ _ E1). cbv beta iota. set (second := if _ =? _ then _ else _).
  assert (exists c2 b2 p2, second p1 = (Ok (c2, b2), p2) /\ restored σ p2) as (c2 & b2 & p2 & E2 & Hp2).
  { unfold second. destruct (_ =? _); [|by exists c1, b1, p1].
    destruct (Hreset b1 p1 Hp1) as (q & Eq & Hq). rewrite (bind_ok _ _ _ _ _ Eq). by exists 0, false, q. }
  rewrite (bind_ok _ _ _ _ _ E2). cbv beta iota. destruct (replay_entry_ok σ item σ' e p2 Hp2 Hhap Hr) as (p3 & E3 & Hp3).
  rewrite (bind_ok _ _ _ _ _ E3). by eexists _, _, p3.
Qed.

Lemma publish_entries_ok max es : forall items σ σ' p count batch,
  restored σ p -> history σ items σ' -> Forall2 reads items es ->
  exists p', publish_entries BeginBatch FinishBatch max es count batch p = (Ok tt, p') /\ restored σ' p'.
Proof.
  induction es as [|e es IH]; intros items σ σ' p count batch Hp Hh Hr; apply Forall2_cons_inv_r in Hr || apply Forall2_nil_inv_r in Hr.
  - subst. inversion Hh; subst. cbn. destruct batch; [|by exists p]. destruct Hp as (ρ & Hρ & Hmap).
    destruct (finish_ok ρ (cn_ p) Hρ) as (s' & E & Hρ'). exists (mkParser s' (containers_ p)). split; [by apply on_cn_ok|]. by exists ρ.
  - destruct Hr as (item & items' & Hr & Hrs & ->). inversion Hh as [|? ? σ1 ? ? H1 H2]; subst. cbn [publish_entries].
    destruct (replay_publish_ok max σ item σ1 e p count batch Hp H1 Hr) as (c1 & b1 & p1 & E1 & Hp1).
    rewrite (bind_ok _ _ _ _ _ E1). cbv beta iota. by apply (IH items' σ1).
Qed.

Lemma history_app items1 items2 : forall σ σ', history σ (items1 ++ items2) σ' ->
  exists σ1, history σ items1 σ1 /\ history σ1 items2 σ'.
Proof.
  induction items1 as [|item items1 IH]; intros σ σ' Hhist; [exists σ; split; [constructor|done]|].
  inversion Hhist as [|? ? σ1 ? ? H1 H2]; subst. destruct (IH _ _ H2) as (σ2 & H3 & H4). exists σ2. split; [by econstructor|done].
Qed.

(** However the entries are taken out of the queue. *)
Lemma publisher_ok max queues : forall items σ σ' p,
  restored σ p -> history σ items σ' -> Forall2 reads items (concat queues) ->
  exists p', PublisherThread BeginBatch FinishBatch max queues p = (Ok tt, p') /\ restored σ' p'.
Proof.
  induction queues as [|q queues IH]; intros items σ σ' p Hp Hh Hr; cbn in Hr.
  - apply Forall2_nil_inv_r in Hr. subst. inversion Hh; subst. by exists p.
  - apply Forall2_app_inv_r in Hr as (items1 & items2 & H1 & H2 & ->). apply history_app in Hh as (σ1 & Hh1 & Hh2).
    destruct (publish_entries_ok max q items1 σ σ1 p 0 false Hp Hh1 H1) as (p1 & E1 & Hp1).
    cbn [PublisherThread]. rewrite (bind_ok _ _ _ _ _ E1). by apply (IH items2 σ1).
Qed.

End Replay.

(** The storage of the demonstration after its three commands. *)
Definition demo_storage (d : list ValueAndMetadata) (n : Z) : MemoryStorage.AnyStorage :=
  MemoryStorage.AnyList (mk_storage d (lit "x") (lit "volatile_list") false n false []).


End LogRestore.
