(* ===== verification/TypedList.v ===== *)
(** * Typed lists over the plugins' manager

    [containers::list<T>] of [tioclient.hpp] on a list container, reached through
    [LocalContainerManager]: a plugin that uses it works on a list of [T]s.  The
    conversions of [int] and [string] are faithful ([Faithful]), each method
    does what it does on the list, and an error of the storage arrives as a
    [tio_exception] and leaves the list alone. *)
From S2P Require Import Prelude StdMap TioDataC TioDataS Containers ListStorage MemoryStorage ContainerManager SessionMessages ClientApi ContainerApi LocalManager LogReplay LogLines SameValues ContainerContract.

Module TypedList.
Import TioDataC TioData Containers SessionMessages ContainerApi SameValues ContainerContract.
#[local] Existing Instances MemoryStorage.any_storage LocalManager.local_manager.

(** ** Conversions *)

(** A type whose values go into data and come back. *)
Class Faithful (V : Type) `{Converts V} (enc : V -> TioData) (fits : V -> Prop) : Prop := {
  faithful_in v : fits v -> exists td, inptr v = Ok td /\ represents td (client_value (enc v));
  faithful_out td v : represents td (client_value (enc v)) -> FromTioData td = Ok v;
  faithful_set v : operator_bool (enc v) = true;
  faithful_fits v : fits v -> value_fits (enc v)
}.

#[export] Instance int_faithful : Faithful Z Int is_int.
Proof.
  split; [|intros td v H|done|done].
  - intros v Hv. eexists. split; [done|]. by apply rep_int.
  - inversion H as [| |td' z Ht Hs Hz|]; subst. cbn. by rewrite Ht.
Qed.

#[export] Instance string_faithful : Faithful bytes String (fun s => Z.of_nat (length s) < 2 ^ 32 - 1).
Proof.
  split; [|intros td v H|done|done].
  - intros v Hv. unfold inptr. cbn. rewrite u32_small by lia.
    destruct (LogLines.set_string_prefix (tiodata_set_as_none tiodata_init) v [x00]) as (td & -> & Hr); [lia|]. by exists td.
  - inversion H as [|td' s Ht Hs Hz| |]; subst. cbn. rewrite Ht, Hs, Hz, mem_read_ok by len. cbn.
    by rewrite drop_0, Nat2Z.id, take_app_length.
Qed.

(** The data of a converter, filled in. *)
Lemma write_back_represents v :
  value_fits v -> v <> None_ -> exists td, LocalManager.write_back outptr v = Ok (Some td) /\ represents td (client_value v).
Proof.
  unfold value_fits, value_ok. intros H Hn. destruct v as [|i|d|s]; [done| | |].
  - eexists. split; [done|]. by apply rep_int.
  - eexists. split; [done|]. by apply rep_double.
  - cbn in *. rewrite u32_small by lia.
    destruct (LogLines.set_string_prefix (tiodata_set_as_none tiodata_init) s [x00]) as (td & -> & Hr); [lia|]. by exists td.
Qed.

(** ** Calls *)

Notation local := LocalManager.LocalContainerManager.
Notation manager := LocalManager.containerManager.

(** What a function of the manager returns for what the storage did. *)
Definition status {A} (r : res A) : res Z :=
  match r with Ok _ => Ok 0 | Throw (Fault f) => Throw (Fault f) | Throw _ => Ok (-1) end.

Lemma guarded_status (m : M local unit) r s s' : m s = (r, s') -> LocalManager.guarded m s = (status r, s').
Proof. intros E. unfold LocalManager.guarded, LocalManager.catching. rewrite E. by destruct r as [|[]]. Qed.

Lemma container_of_run h c s : LocalManager.handles s !! h = Some c -> LocalManager.container_of (Some h) s = (Ok c, s).
Proof. intros E. unfold LocalManager.container_of. by rewrite bind_get, E. Qed.

(** A function with one output, its value. *)
Lemma fetch_value h c f s r s' :
  LocalManager.handles s !! h = Some c -> f c None (Some None_) None s = (r, s') ->
  (forall v, r = Ok (None, Some v, None) -> value_fits v -> v <> None_ -> exists td,
     LocalManager.fetch (Some h) f None outptr None s = (Ok (0, (None, Some td, None)), s') /\ represents td (client_value v)) /\
  (forall e, r = Throw e -> (forall x, e <> Fault x) -> exists o,
     LocalManager.fetch (Some h) f None outptr None s = (Ok (-1, o), s')).
Proof.
  intros Hc E. unfold LocalManager.fetch. rewrite (bind_ok _ _ _ _ _ (container_of_run _ _ _ Hc)).
  rewrite (bind_lift_ok _ _ _ None_ eq_refl), (bind_lift_ok _ _ _ None_ eq_refl), (bind_lift_ok _ _ _ None_ eq_refl).
  cbn zeta. cbn [fst snd LocalManager.c2cpp_outptr outptr]. split.
  - intros v -> Hv Hn. destruct (write_back_represents v Hv Hn) as (td & Etd & Hr). exists td. split; [|done].
    erewrite bind_ok; [|unfold LocalManager.catching; cbn [LocalManager.c2cpp_outptr outptr]; rewrite E; reflexivity].
    cbv beta iota. cbn [default from_option id]. by rewrite Etd.
  - intros e -> He. eexists. erewrite bind_ok; [|unfold LocalManager.catching; cbn [LocalManager.c2cpp_outptr outptr]; rewrite E;
      destruct e as [| | | | |f']; [reflexivity..|by destruct (He f')]]. reflexivity.
Qed.

(** A command on the storage of a list container. *)
Lemma list_call h c l d o (s : local) :
  ContainerManager.wf (manager s) -> behind h c l (MemoryStorage.AnyList d) s -> ListStorage.small d -> op_ok o ->
  ~ ListStorage.faulty o (data_ d) ->
  exists r d' m', LocalManager.call c (run_op o) s = (r, LocalManager.set_manager m' s) /\
    changed l (MemoryStorage.AnyList d') (manager s) m' /\
    match ListStorage.spec o (data_ d) with
    | Some x => r = Ok tt /\ data_ d' = x
    | None => (exists e, r = Throw e /\ forall f, e <> Fault f) /\ data_ d' = data_ d
    end.
Proof.
  intros Hwf Hbeh Hsm Ho Hf. pose proof Hbeh as (_ & _ & Hb). destruct (ContainerManager.wf_heap _ Hwf _ _ Hb) as (_ & Hok & _).
  pose proof (ContainerManager.run_op_keeps o _ Hok) as [Hok' Hh].
  destruct (run_op (H := ListStorage.list_storage) o d) as [r d'] eqn:E.
  assert (run_op o (MemoryStorage.AnyList d) = (r, MemoryStorage.AnyList d')) as Er by (rewrite any_run; cbn; by rewrite E).
  rewrite Er in Hok', Hh. cbn in Hok', Hh.
  destruct (call_local h c l _ _ _ _ s Hwf Hbeh Er Hh Hok') as (m' & Em & Hch). exists r, d', m'. split; [done|]. split; [done|].
  pose proof (ListStorage.run_op_outcome o d Hsm Ho) as H. rewrite E in H. cbn in H.
  inversion H as [x e H1 _|H1|e H1 H2|f x H1]; subst; rewrite ?H1.
  - by rewrite ListStorage.data_after.
  - done.
  - split; [by exists e|done].
  - done.
Qed.

Lemma behind_changed h c l b b' m' (s : local) :
  behind h c l b s -> changed l b' (manager s) m' -> behind h c l b' (LocalManager.set_manager m' s).
Proof.
  intros (H1 & H2 & H3) (_ & Hsame & Hat). split; [done|]. cbn. by rewrite (ContainerManager.same_storage_of _ _ _ Hsame), Hat, decide_True.
Qed.

(** ** Lists of values *)

Section Lists.
Context {V : Type} `{!Converts V} {enc : V -> TioData} {fits : V -> Prop} `{!Faithful V enc fits}.
Notation state := (local * TioContainerImpl Z V)%type.

(** The container of the object is a list container with the values [vs]. *)
Definition models (vs : list V) (st : state) : Prop :=
  exists h c l d, containerManager_ st.2 = true /\ container_ st.2 = Some h /\
    ContainerManager.wf (manager st.1) /\ behind h c l (MemoryStorage.AnyList d) st.1 /\
    value <$> data_ d = enc <$> vs /\ Forall fits vs.

Inductive command :=
| PushBack_ (v : V) | PushFront_ (v : V) | PopBack_ | PopFront_
| At_ (i : Z) | Set__ (i : Z) (v : V) | Erase_ (i : Z) | Clear_ | Size_.

Inductive answer := Nothing | Value_ (v : V) | Count (n : Z).

Definition nothing (m : M state unit) : M state answer := _ ← m; mret Nothing.
Definition a_value (m : M state V) : M state answer := v ← m; mret (Value_ v).

(** The methods. *)
Definition run (cmd : command) : M state answer :=
  match cmd with
  | PushBack_ v => nothing (push_back v)
  | PushFront_ v => nothing (push_front v)
  | PopBack_ => a_value pop_back
  | PopFront_ => a_value pop_front
  | At_ i => a_value (at_ i)
  | Set__ i v => nothing (set i v None)
  | Erase_ i => nothing (erase i)
  | Clear_ => nothing clear
  | Size_ => n ← size; mret (Count n)
  end.

(** What they are to do; [None] is an exception. *)
Definition spec (cmd : command) (vs : list V) : option (answer * list V) :=
  let at_index (i : Z) := Z.to_nat <$> python_index i (Z.of_nat (length vs)) in
  match cmd with
  | PushBack_ v => Some (Nothing, vs ++ [v])
  | PushFront_ v => Some (Nothing, v :: vs)
  | PopBack_ => v ← last vs; Some (Value_ v, removelast vs)
  | PopFront_ => match vs with [] => None | v :: vs => Some (Value_ v, vs) end
  | At_ i => n ← at_index i; v ← vs !! n; Some (Value_ v, vs)
  | Set__ i v => n ← at_index i; Some (Nothing, <[n := v]> vs)
  | Erase_ i => n ← at_index i; Some (Nothing, delete n vs)
  | Clear_ => Some (Nothing, [])
  | Size_ => Some (Count (Z.of_nat (length vs)), vs)
  end.

(** Values that fit, indexes that are [int]s, and not the two faults: position 0 of an
    empty list, and [INT_MIN]. *)
Definition good (cmd : command) (vs : list V) : Prop :=
  match cmd with
  | PushBack_ v | PushFront_ v => fits v
  | At_ i => is_int i /\ i <> INT_MIN /\ (vs = [] -> i <> 0)
  | Set__ i v => is_int i /\ i <> INT_MIN /\ (vs = [] -> i <> 0) /\ fits v
  | Erase_ i => is_int i /\ i <> INT_MIN
  | _ => True
  end.

(** What a method that changes the list makes of the function's status. *)
Lemma change_method (f : option Z -> M local Z) h r s' (st : state) :
  containerManager_ st.2 = true -> container_ st.2 = Some h -> f (Some h) st.1 = (status (A := unit) r, s') ->
  (forall x, r <> Throw (Fault x)) ->
  (result ← container_manager f; checked result) st =
    (match r with Ok _ => Ok tt | Throw _ => Throw (client_error (LocalManager.description s') (-1)) end, (s', st.2)).
Proof.
  intros H1 H2 E Hr. unfold container_manager, on_manager, checked, mbind, M_bind, get. rewrite H1, H2, E.
  destruct r as [[]|e]; [done|]. destruct e; try done. by destruct (Hr f0).
Qed.

(** The function [f] of the manager does the command [o] on the storage. *)
Definition reaches (f : option Z -> M local Z) (o : op) : Prop :=
  forall h c r (s s' : local), LocalManager.handles s !! h = Some c -> LocalManager.call c (run_op o) s = (r, s') ->
    f (Some h) s = (status r, s').

(** How a result of a method agrees with what is specified. *)
Definition agrees {A} (vs : list V) (spec : option (A * list V)) (run : res A * state) : Prop :=
  match spec with
  | Some (a, vs') => exists st', run = (Ok a, st') /\ models vs' st'
  | None => exists text st', run = (Throw (runtime_error text), st') /\ models vs st'
  end.

Lemma agrees_bind {A B} vs spec (m : M state A) (g : A -> B) st :
  agrees vs spec (m st) -> agrees vs (prod_map g id <$> spec) ((x ← m; mret (g x)) st).
Proof.
  unfold agrees. destruct spec as [[a vs']|]; cbn.
  - intros (st' & E & H). exists st'. by rewrite (bind_ok _ _ _ _ _ E).
  - intros (t & st' & E & H). exists t, st'. by rewrite (bind_throw _ _ _ _ _ E).
Qed.

Lemma values_small vs (d : ListStorage.t) :
  value <$> data_ d = enc <$> vs -> Z.of_nat (length vs) < 2 ^ 31 -> ListStorage.small d.
Proof. intros H%(f_equal length) Hl. unfold ListStorage.small. len. Qed.

Lemma change_agrees o f vs (vspec : option (list V)) st :
  models vs st -> Z.of_nat (length vs) < 2 ^ 31 -> op_ok o -> reaches f o ->
  (forall d, value <$> d = enc <$> vs -> ~ ListStorage.faulty o d /\
    match vspec with
    | Some vs' => exists x, ListStorage.spec o d = Some x /\ value <$> x = enc <$> vs' /\ Forall fits vs'
    | None => ListStorage.spec o d = None
    end) ->
  agrees vs (pair tt <$> vspec) ((result ← container_manager f; checked result) st).
Proof.
  intros (h & c & l & d & H1 & H2 & Hwf & Hbeh & Hv & Hfits) Hl Ho Hf Hs. destruct (Hs _ Hv) as [Hnf Hspec].
  destruct (list_call h c l d o st.1 Hwf Hbeh (values_small _ _ Hv Hl) Ho Hnf) as (r & d' & m' & E & Hch & Hr).
  assert (behind h c l (MemoryStorage.AnyList d') (LocalManager.set_manager m' st.1)) as Hbeh' by by eapply behind_changed.
  assert (forall vs', value <$> data_ d' = enc <$> vs' -> Forall fits vs' -> models vs' (LocalManager.set_manager m' st.1, st.2)) as Hm.
  { intros vs' Hv' Hf'. exists h, c, l, d'. destruct Hch as (Hwf' & _). done. }
  assert (f (Some h) st.1 = (status r, LocalManager.set_manager m' st.1)) as Ef by (apply (Hf h c); [apply Hbeh|done]).
  unfold agrees. destruct vspec as [vs'|]; cbn.
  - destruct Hspec as (x & Ex & Hx & Hfits'). rewrite Ex in Hr. destruct Hr as [-> Hd]. eexists. split.
    + by apply (change_method f h (Ok tt) _ st H1 H2 Ef).
    + apply Hm; [by rewrite Hd|done].
  - rewrite Hspec in Hr. destruct Hr as [(e & -> & He) Hd]. eexists _, _. split.
    + apply (change_method f h (Throw e) _ st H1 H2 Ef). intros x [= ->]. by destruct (He x).
    + apply Hm; [by rewrite Hd|done].
Qed.

(** ** Methods that change the list *)

Lemma change_reaches f o key v k x :
  LocalManager.c2cpp key = Ok k -> LocalManager.c2cpp v = Ok x -> f k x TIONULL = run_op o ->
  reaches (fun h => LocalManager.change f h key v None) o.
Proof.
  intros Ek Ev Ef h c r s s' Hc E. unfold LocalManager.change. rewrite (bind_ok _ _ _ _ _ (container_of_run _ _ _ Hc)).
  apply guarded_status. rewrite (bind_lift_ok _ _ _ _ Ek), (bind_lift_ok _ _ _ _ Ev), (bind_lift_ok _ _ _ TIONULL eq_refl).
  by rewrite Ef.
Qed.

Lemma delete_reaches key k :
  LocalManager.c2cpp key = Ok k -> reaches (fun h => LocalManager.container_delete h key) (OpDelete k TIONULL TIONULL).
Proof.
  intros Ek h c r s s' Hc E. unfold LocalManager.container_delete. rewrite (bind_ok _ _ _ _ _ (container_of_run _ _ _ Hc)).
  apply guarded_status. by rewrite (bind_lift_ok _ _ _ _ Ek).
Qed.

Lemma clear_reaches : reaches LocalManager.container_clear OpClear.
Proof.
  intros h c r s s' Hc E. unfold LocalManager.container_clear. rewrite (bind_ok _ _ _ _ _ (container_of_run _ _ _ Hc)).
  by apply guarded_status.
Qed.

Lemma enc_position (d : list ValueAndMetadata) vs i :
  value <$> d = enc <$> vs -> ListStorage.position d (Int i) = Z.to_nat <$> python_index i (Z.of_nat (length vs)).
Proof. intros H%(f_equal length). unfold ListStorage.position. by replace (length d) with (length vs) by len. Qed.

Lemma push_agrees (back : bool) v vs st :
  models vs st -> Z.of_nat (length vs) < 2 ^ 31 -> fits v ->
  agrees vs (Some (tt, if back then vs ++ [v] else v :: vs)) ((if back then push_back v else push_front v) st).
Proof.
  intros Hm Hl Hv. destruct (faithful_in v Hv) as (td & Etd & Hr).
  assert (LocalManager.c2cpp (Some td) = Ok (enc v)) as Ec by by apply c2cpp_represents.
  pose proof (faithful_set v) as Hset. destruct back; [unfold push_back|unfold push_front]; rewrite (bind_lift_ok _ _ _ _ Etd).
  - apply (change_agrees (OpPushBack None_ (enc v) TIONULL) _ _ (Some (vs ++ [v]))); try done.
    + by apply (change_reaches Containers.PushBack _ None (Some td) None_ (enc v)).
    + intros d Hd. split; [by intros []|]. cbn. rewrite Hset. eexists. split; [done|]. rewrite !fmap_app, Hd. split; [done|].
      destruct Hm as (?&?&?&?&_&_&_&_&_&Hf). apply Forall_app. by split; [|constructor].
  - apply (change_agrees (OpPushFront None_ (enc v) TIONULL) _ _ (Some (v :: vs))); try done.
    + by apply (change_reaches Containers.PushFront _ None (Some td) None_ (enc v)).
    + intros d Hd. split; [by intros []|]. cbn. rewrite Hset. eexists. split; [done|]. cbn. rewrite Hd. split; [done|].
      destruct Hm as (?&?&?&?&_&_&_&_&_&Hf). by constructor.
Qed.

Lemma models_fits vs st : models vs st -> Forall fits vs.
Proof. by intros (?&?&?&?&_&_&_&_&_&Hf). Qed.

(** The key of a method is an [int]. *)
Lemma index_data i : is_int i -> inptr i = Ok (tiodata_set_int (tiodata_set_as_none tiodata_init) i) /\
  LocalManager.c2cpp (Some (tiodata_set_int (tiodata_set_as_none tiodata_init) i)) = Ok (Int i).
Proof. intros Hi. split; [done|]. apply c2cpp_represents. by apply rep_int. Qed.

Lemma no_fault (d : list ValueAndMetadata) vs i :
  value <$> d = enc <$> vs -> i <> INT_MIN -> (vs = [] -> i <> 0) -> ~ ((d = [] /\ Int i = Int 0) \/ Int i = Int INT_MIN).
Proof.
  intros Hd Hi H0 [[-> [= ->]]|[= ->]]; [|done]. by destruct vs; [apply H0|].
Qed.

Lemma set_agrees i v vs st :
  models vs st -> Z.of_nat (length vs) < 2 ^ 31 -> good (Set__ i v) vs ->
  agrees vs (pair tt <$> ((fun n => <[n := v]> vs) <$> (Z.to_nat <$> python_index i (Z.of_nat (length vs))))) (set i v None st).
Proof.
  intros Hm Hl (Hi & Hmin & H0 & Hv). destruct (faithful_in v Hv) as (td & Etd & Hr). destruct (index_data i Hi) as [Ei Ec].
  unfold set. rewrite (bind_lift_ok _ _ _ _ Ei), (bind_lift_ok _ _ _ _ Etd), (bind_lift_ok _ _ _ None eq_refl).
  apply (change_agrees (OpSet (Int i) (enc v) TIONULL)); try done.
  - apply (change_reaches Containers.Set_ _ _ (Some td) (Int i) (enc v)); [done|by apply c2cpp_represents|done].
  - intros d Hd. split; [by eapply no_fault|]. cbn [ListStorage.spec]. rewrite (enc_position _ _ _ Hd).
    destruct (Z.to_nat <$> _) as [n|] eqn:En; cbn; [|done].
    assert (n < length d)%nat as Hn by (apply (ListStorage.position_bound d (Int i)); by rewrite (enc_position _ _ _ Hd)).
    destruct (lookup_lt_is_Some_2 d n Hn) as [x ->]. eexists. split; [done|]. split.
    + rewrite !list_fmap_insert, Hd. cbn. by rewrite (faithful_set v).
    + apply Forall_insert; [by eapply models_fits|done].
Qed.

Lemma erase_agrees i vs st :
  models vs st -> Z.of_nat (length vs) < 2 ^ 31 -> good (Erase_ i) vs ->
  agrees vs (pair tt <$> ((fun n => delete n vs) <$> (Z.to_nat <$> python_index i (Z.of_nat (length vs))))) (erase i st).
Proof.
  intros Hm Hl (Hi & Hmin). destruct (index_data i Hi) as [Ei Ec]. unfold erase. rewrite (bind_lift_ok _ _ _ _ Ei).
  apply (change_agrees (OpDelete (Int i) TIONULL TIONULL)); try done; [by apply delete_reaches|].
  intros d Hd. split; [by intros [= ->]|]. cbn [ListStorage.spec]. rewrite (enc_position _ _ _ Hd).
  destruct (Z.to_nat <$> _) as [n|]; cbn; [|done]. eexists. split; [done|]. split; [|by apply Forall_delete, (models_fits _ _ Hm)].
  rewrite values_delete, Hd. clear. revert n. induction vs as [|y vs IH]; intros [|n]; cbn; [done..|]. by rewrite IH.
Qed.

Lemma clear_agrees vs st :
  models vs st -> Z.of_nat (length vs) < 2 ^ 31 -> agrees vs (Some (tt, [])) (clear st).
Proof.
  intros Hm Hl. apply (change_agrees OpClear _ _ (Some [])); try done; [apply clear_reaches|].
  intros d Hd. split; [by intros []|]. by eexists.
Qed.

(** ** Methods that return a value *)

Definition value_method (f : option Z -> M local (Z * three)) : M state V :=
  '(result, (_, value, _)) ← container_manager f;
  _ ← checked result;
  lift (converted value).

Lemma value_agrees (g : M MemoryStorage.AnyStorage outs) f vs (vspec : option (V * list V)) st :
  models vs st ->
  (forall h c (s : local), LocalManager.handles s !! h = Some c -> f c None (Some None_) None s = LocalManager.call c g s) ->
  (forall d : ListStorage.t, value <$> data_ d = enc <$> vs -> exists r d', g (MemoryStorage.AnyList d) = (r, MemoryStorage.AnyList d') /\
    header d' = header d /\
    match vspec with
    | Some (v, vs') => r = Ok (None, Some (enc v), None) /\ value <$> data_ d' = enc <$> vs' /\ fits v /\ Forall fits vs'
    | None => (exists e, r = Throw e /\ forall x, e <> Fault x) /\ data_ d' = data_ d
    end) ->
  agrees vs vspec (value_method (fun h => LocalManager.fetch h f None outptr None) st).
Proof.
  intros (h & c & l & d & H1 & H2 & Hwf & Hbeh & Hv & Hfits) Hf Hg. destruct (Hg d Hv) as (r & d' & Eg & Hh & Hr).
  pose proof Hbeh as (Hc & _ & Hb). destruct (ContainerManager.wf_heap _ Hwf _ _ Hb) as (_ & [Hlock _] & _).
  assert (ContainerManager.storage_ok (MemoryStorage.AnyList d')) as Hok.
  { split; [|done]. cbn in *. unfold header in Hh. congruence. }
  destruct (call_local h c l _ g r _ st.1 Hwf Hbeh Eg) as (m' & E & Hch); [cbn; by rewrite Hh|done|].
  rewrite <- (Hf h c _ Hc) in E. destruct (fetch_value h c f st.1 r _ Hc E) as [Fok Fbad].
  assert (forall vs', value <$> data_ d' = enc <$> vs' -> Forall fits vs' -> models vs' (LocalManager.set_manager m' st.1, st.2)) as Hm.
  { intros vs' Hv' Hf'. exists h, c, l, d'. pose proof (behind_changed _ _ _ _ _ _ _ Hbeh Hch). destruct Hch as (Hwf' & _). done. }
  unfold value_method, container_manager, on_manager, agrees.
  destruct vspec as [[v vs']|].
  - destruct Hr as (-> & Hd & Hfv & Hfits'). pose proof (faithful_set v) as Hset.
    destruct (Fok (enc v) eq_refl (faithful_fits v Hfv)) as (td & Ef & Hr); [by intros E'; rewrite E' in Hset|].
    eexists. split; [|by apply Hm]. unfold mbind, M_bind, get. rewrite H1, H2, Ef. cbn. unfold lift, converted. cbn.
    by rewrite (faithful_out td v Hr).
  - destruct Hr as [(e & -> & He) Hd]. destruct (Fbad e eq_refl He) as [[[k x] y] Ef]. eexists _, _. split; [|apply Hm; [by rewrite Hd|done]].
    unfold mbind, M_bind, get. rewrite H1, H2, Ef. reflexivity.
Qed.

Lemma last_values (d : list ValueAndMetadata) vs : value <$> d = enc <$> vs -> value <$> last d = enc <$> last vs.
Proof. intros H. by rewrite <- !fmap_last, H. Qed.

Lemma removelast_enc vs : enc <$> removelast vs = removelast (enc <$> vs).
Proof. induction vs as [|x [|y vs] IH]; [done|done|]. cbn in *. by rewrite IH. Qed.

Lemma pop_back_agrees vs st :
  models vs st -> agrees vs (v ← last vs; Some (v, removelast vs)) (pop_back st).
Proof.
  intros Hm. pose proof (models_fits _ _ Hm) as Hfits.
  apply (value_agrees (Containers.PopBack None (Some None_) None) (fun c k v m => LocalManager.call c (Containers.PopBack k v m))); [done|done|].
  intros d Hd. pose proof (last_values _ _ Hd) as Hlast. cbn. destruct (last vs) as [v|] eqn:Ev; cbn in Hlast.
  - apply fmap_Some in Hlast as (x & Hx & Ex).
    destruct (list_pop_back_run d x Hx) as (e & Er). rewrite Er. eexists _, _. split; [done|]. split; [|split; [|split; [|split]]].
    + unfold ListStorage.after. cbn. by destruct (sink_ d).
    + by rewrite <- Ex.
    + by rewrite ListStorage.data_after, values_removelast, Hd, removelast_enc.
    + rewrite Forall_forall in Hfits. apply Hfits. apply last_Some in Ev as [l' ->]. apply elem_of_app. right. by constructor.
    + apply last_Some in Ev as [l' ->]. rewrite removelast_last. by apply Forall_app in Hfits as [? _].
  - apply fmap_None in Hlast. unfold ListStorage.PopBack. rewrite bind_get, Hlast. eexists _, _. split; [done|]. split; [done|]. split; [|done].
    by eexists.
Qed.

Lemma pop_front_agrees vs st :
  models vs st -> agrees vs (match vs with [] => None | v :: vs => Some (v, vs) end) (pop_front st).
Proof.
  intros Hm. pose proof (models_fits _ _ Hm) as Hfits.
  apply (value_agrees (Containers.PopFront None (Some None_) None) (fun c k v m => LocalManager.call c (Containers.PopFront k v m))); [done|done|].
  intros d Hd. cbn. destruct vs as [|v vs], (data_ d) as [|x xs] eqn:Ed; try done.
  - unfold ListStorage.PopFront. rewrite bind_get, Ed. eexists _, _. split; [done|]. split; [done|]. split; [|done]. by eexists.
  - destruct (list_pop_front_run d x xs Ed) as (e & Er). rewrite Er. injection Hd as Hx Hxs. apply Forall_cons in Hfits as [Hfv Hfvs].
    eexists _, _. split; [done|]. split; [unfold ListStorage.after; cbn; by destruct (sink_ d)|].
    rewrite ListStorage.data_after, Hx. done.
Qed.

Lemma at_agrees i vs st :
  models vs st -> Z.of_nat (length vs) < 2 ^ 31 -> good (At_ i) vs ->
  agrees vs (n ← (Z.to_nat <$> python_index i (Z.of_nat (length vs))); v ← vs !! n; Some (v, vs)) (at_ i st).
Proof.
  intros Hm Hl (Hi & Hmin & H0). pose proof (models_fits _ _ Hm) as Hfits. destruct (index_data i Hi) as [Ei Ec].
  unfold at_. rewrite (bind_lift_ok _ _ _ _ Ei).
  apply (value_agrees (GetRecord (Int i) None (Some None_) None)
    (fun c k v m => sk ← lift (LocalManager.c2cpp (Some (tiodata_set_int (tiodata_set_as_none tiodata_init) i)));
       LocalManager.call c (GetRecord sk k v m))); [done| |].
  - intros h c s _. by rewrite (bind_lift_ok _ _ _ _ Ec).
  - intros d Hd. pose proof (values_small _ _ Hd Hl) as Hsm. pose proof (ListStorage.GetOffset_cases (data_ d) (Int i) Hsm) as Hg.
    rewrite (enc_position _ _ _ Hd) in Hg. destruct (Z.to_nat <$> _) as [n|] eqn:En; cbn in Hg |- *.
    + assert (n < length (data_ d))%nat as Hn by (apply (ListStorage.position_bound _ (Int i)); by rewrite (enc_position _ _ _ Hd)).
      destruct (lookup_lt_is_Some_2 _ n Hn) as [x Hx].
      assert (enc <$> vs !! n = Some (value x)) as (v & Hv & Ev)%fmap_Some by by rewrite <- list_lookup_fmap, <- Hd, list_lookup_fmap, Hx.
      rewrite Hv. unfold ListStorage.GetRecord. rewrite bind_get. rewrite (bind_lift_ok _ _ _ _ Hg). cbv beta iota.
      unfold ListStorage.deref. rewrite Hx, (bind_lift_ok _ _ _ x eq_refl). eexists _, _. split; [done|]. split; [done|].
      cbn. rewrite <- Ev. split; [done|]. split; [done|]. split; [|done]. by eapply Forall_lookup_1.
    + destruct Hg as [(E1 & [= ->] & _)|(e & Ee & He)].
      { exfalso. rewrite E1 in Hd. destruct vs; [by apply H0|done]. }
      unfold ListStorage.GetRecord. rewrite bind_get, (bind_lift_throw _ _ _ _ Ee). eexists _, _. split; [done|]. split; [done|].
      split; [|done]. exists e. split; [done|]. destruct He as [He|[= ->]]; done.
Qed.

Lemma size_agrees vs st :
  models vs st -> Z.of_nat (length vs) < 2 ^ 31 -> agrees vs (Some (Z.of_nat (length vs), vs)) (size st).
Proof.
  intros (h & c & l & d & H1 & H2 & Hwf & Hbeh & Hv & Hfits) Hl. pose proof Hbeh as (Hc & _ & Hb).
  destruct (ContainerManager.wf_heap _ Hwf _ _ Hb) as (_ & Hok & _).
  assert (Containers.GetRecordCount (MemoryStorage.AnyList d) = (Ok (Z.of_nat (length (data_ d))), MemoryStorage.AnyList d)) as Ecount by done.
  destruct (call_local h c l _ _ _ _ st.1 Hwf Hbeh Ecount eq_refl Hok) as (m' & E & Hch).
  exists (LocalManager.set_manager m' st.1, st.2). split.
  - unfold size, container_manager, on_manager, checked, mbind, M_bind, get. rewrite H1, H2. cbn [container_get_count LocalManager.local_manager].
    unfold LocalManager.container_get_count. rewrite (bind_ok _ _ _ _ _ (container_of_run _ _ _ Hc)).
    unfold LocalManager.catching. rewrite E. cbn. apply (f_equal length) in Hv. rewrite !length_fmap in Hv.
    rewrite Hv, i32_small by (unfold is_int, INT_MIN, INT_MAX; lia). unfold lift, mret, M_ret. by rewrite u64_small by lia.
  - exists h, c, l, d. pose proof (behind_changed _ _ _ _ _ _ _ Hbeh Hch). destruct Hch as (Hwf' & _). done.
Qed.


(** A list that was just created is empty. *)
Lemma create_models name (s : local) :
  local_holds ∅ s -> name <> [] -> hidden name = false -> c_str name = name ->
  exists st, create (K := Z) (V := V) name (lit "volatile_list") (s, new_impl) = (Ok tt, st) /\ models [] st.
Proof.
  intros Hs Hne Hhid Hz.
  destruct (local_create ∅ s name (lit "volatile_list") (MemoryStorage.AnyList (ListStorage.make name (lit "volatile_list"))) false)
    as (h & s' & E & _ & Hs'); [done| |done|done|intros h b; by rewrite lookup_empty|].
  { unfold MemoryStorage.fresh. by rewrite decide_True. }
  destruct (lh_at _ _ Hs' h _ (lookup_insert_eq _ _ _)) as (_ & _ & c & l & b & Hbeh & Hal & _).
  destruct b as [|?|d]; [done..|]. eexists. split.
  - unfold create. rewrite Hz. change (c_str (lit "volatile_list")) with (lit "volatile_list").
    erewrite bind_ok; [|reflexivity]. erewrite bind_ok; [|reflexivity].
    erewrite bind_ok; [|unfold on_manager; cbn [create_ LocalManager.local_manager fst]; rewrite E; reflexivity]. reflexivity.
  - exists h, c, l, d. repeat (split; [done|]). split; [apply (lh_wf _ _ Hs')|]. split; [done|]. split; [by cbn in Hal; rewrite <- Hal|constructor].
Qed.

End Lists.


End TypedList.
